(* ===== verification/_CoqProject ===== *)
-Q . S2P
Prelude.v
Addr.v
Zone.v
PageDb.v
Buddy.v
BuddyInv.v
BuddyZone.v
BuddySpec.v
BuddySys.v
BuddyBoot.v
BuddyCanon.v
Machines.v
BuddyThms.v
FrameAlloc.v
Paging.v
Vma.v
Signal.v
WaitQueue.v
Pipe.v
Path.v
Resolve.v
Vnode.v
MemFd.v
OpenFile.v
FdTable.v
Flock.v
SysFile.v
FlockSys.v
Cow.v
CowFault.v
CfsHeap.v
RtQueue.v
CpuSets.v
SchedTask.v
RunQueue.v
RunQueueInv.v
SchedCore.v
SchedInv.v
SchedWorld.v
SchedSys.v
SchedTypes.v
Heap.v
HeapSys.v
Hardened.v
HardenedSys.v
KernelHeap.v
Slab.v
SlabInv.v
SlabSys.v
Fork.v
ForkInv.v
ForkWalk.v
ForkSys.v
ForkFault.v
MemSys.v
MemThms.v
SpaceDrop.v
DropThms.v
