(* ===== verification/Prelude.v ===== *)
(** * OXIDE OS: a verified model of the kernel's core

    OXIDE OS is a Unix-like kernel for x86-64 in Rust.  This library translates
    parts of it into executable functions and proves what they guarantee.  All
    paths below are under [src/kernel/].

    ** How code is translated

    A Rust function is a function from the state it reads to its result and the
    new state.  Machine integers are [Z] with their width written out: [add64]
    and its like are the checked operators of the default build profile and
    [Fault] where Rust would panic, [wadd64] and its like wrap, as atomics do.
    [outcome] is [Done] with a value, [Fault] (a panic, or one of the deliberate
    wild writes of the allocator) or [OutOfFuel]; [result] is Rust's [Result].
    Code that holds a lock is one transition.  Where the source interleaves,
    each critical section or atomic access is a step and the theorems quantify
    over all sequences of steps.

    ** Memory management

    - [Addr], [Zone], [PageDb]: addresses ([core/os_core]), zones and statistics
      ([mm/mm-core/src/{zone,stats}.rs]), the page frame database
      ([mm/mm-pagedb]).
    - [Buddy]: every operation of [mm/mm-core/src/buddy.rs], over a memory in
      which list headers lie inside the free blocks.  [BuddyInv] and [BuddyZone]
      have the zone invariant and the functional behaviour of one zone,
      [BuddySpec] and [BuddySys] the whole allocator and its clients as a
      transition system, [BuddyBoot] initialisation, [BuddyCanon] maximal
      coalescing and behaviour on corrupted lists, [Machines] concrete machines.
      [BuddyThms] states the results: boot frees exactly the usable pages;
      allocation and freeing move exactly the named pages and never fault on a
      consistent state; in every interleaving held blocks stay disjoint from
      each other and from free memory; a double free is rejected; allocation
      then free restores the lists; on arbitrary lists allocation terminates and
      returns only pages the database lists as free.
    - [FrameAlloc]: the allocator trait ([mm/mm-traits]) as the classes
      [FrameAllocator] and [FrameAllocatorLaws], with the buddy allocator as
      instance.  Its clients are verified against the laws.
    - [Paging]: page tables and [PageMapper] ([mm/mm-paging]): [map] installs and
      [unmap] removes exactly one translation of the reference walk.
    - [Vma]: the area list of a process ([mm/mm-vma]) as a partition of the
      mapped addresses; insertion, removal with splitting, search.
    - [Cow], [CowFault]: the copy-on-write tracker ([mm/mm-cow]) over [PageDb],
      and [handle_cow_fault] ([proc/proc/src/fork.rs]) over [Cow] and [Paging].
      The tracker refines a count of owners per frame; a fault gives the writer
      a private writable page with the same contents.
    - [Fork], [ForkInv], [ForkWalk], [ForkSys], [ForkFault]: the clone of an
      address space ([clone_address_space_cow] of [proc/proc/src/fork.rs]).  The
      four nested loops are one loop at the level of its table.  [ForkInv] has the
      tables, pages and owners of a tree and the laws of the allocator,
      [ForkWalk] the relation between a tree and its clone and the steps of the
      walk, [ForkSys] the result: parent and child map every user address alike,
      or everything taken is given back.  [ForkFault] puts clone and fault
      together: a write by one is not seen by the other.
    - [MemSys], [MemThms]: the memory calls ([syscall/syscall/src/memory.rs]) over
      an address space ([proc/proc/src/address_space.rs]): page tables, areas,
      owners and the break of one process.  [munmap] and [mprotect] change
      exactly the pages and areas of their range, a private [mmap] returns a free
      range when there is one.
    - [SpaceDrop], [DropThms]: creation and [Drop] of an address space
      ([proc/proc/src/address_space.rs], with the swap entries of [mm/mm-swap]).
      Dropping gives back exactly the tables and the pages without an owner left;
      a forked child that is dropped leaves frames and owners as they were.
    - [Heap], [HeapSys]: the linked-list heap ([mm/mm-heap/src/linked_list.rs])
      and the histories of its clients: live allocations are disjoint, aligned
      and large enough, every byte is accounted for, and the free list depends
      only on what is live.
    - [Hardened], [HardenedSys]: the hardened heap ([hardened.rs]) over a byte
      memory: clients in bounds never trip a check, damage to a guard is
      detected by the free, and user data is left alone.
    - [KernelHeap]: the heap interface ([mm/mm-heap/src/lib.rs]) as the classes
      [KernelHeapOps] and [KernelHeapLaws] with both heaps as instances.
    - [Slab], [SlabInv], [SlabSys]: the per-CPU slab allocator
      ([mm/mm-slab]) with its lists threaded through the objects, who owns an
      object, and the global allocator over any heap with the laws.

    ** The scheduler

    - [CfsHeap], [RtQueue], [CpuSets], [SchedTask]: the array heap of the fair
      class, the real-time levels, CPU sets and tasks
      ([sched/sched/src/{fair,rt,task}.rs], [sched/sched-traits]).  The array heap
      refines a sorted list.
    - [RunQueue], [RunQueueInv]: one CPU's run queue ([runqueue.rs]) and its
      invariant.
    - [SchedCore], [SchedInv], [SchedWorld]: the core over all CPUs ([core.rs]) and
      the part of the timer handler that switches processes
      ([src/scheduler.rs]).  Each critical section under a run queue's lock is a
      function of the queue; [SchedInv] has its effect, [SchedWorld] that of the
      whole call.
    - [SchedSys]: histories of calls.  [permitted] says which calls a kernel may
      make in a state.  No task is lost, a wake-up reaches its task, the best
      task is picked, and the handler returns to the queue's current task.
      Three examples show what happens outside [permitted].  A call that takes
      several locks is one event here.
    - [SchedTypes]: every field keeps to its machine type, permitted or not.

    ** Processes and files

    - [Signal]: sets, pending signals, dispositions, delivery and the signal
      frame ([signal/signal], [syscall/syscall/src/signal.rs]).
    - [WaitQueue], [Pipe]: wait queues ([core/waitqueue]) and the pipes built on
      them ([vfs/vfs/src/pipe.rs]) as interleaved readers and writers; a pipe is
      a bounded FIFO in every interleaving.
    - [Path], [Resolve]: [vfs/vfs/src/path.rs], and the separate path resolution
      of the system calls ([syscall/syscall/src/vfs.rs]), both against the walk
      a path denotes.
    - [Vnode], [MemFd], [OpenFile], [FdTable]: the vnode trait as a class with
      the laws [RegularFile], memory files as an instance of the laws and event
      counters as an instance of the class, open files proved against the laws,
      and descriptor tables as partial maps
      ([vfs/vfs/src/{vnode,error,permission,memfd,eventfd,file,fd}.rs]).
    - [Flock], [FlockSys]: the lock registry ([vfs/vfs/src/flock.rs]), and the
      system of tasks inside [sys_flock]: mutual exclusion in every history, no
      lost wake-up and release on close under the disciplines stated there.
    - [SysFile]: the system calls on descriptors
      ([syscall/syscall/src/{vfs,vfs_ext,uaccess}.rs]), composed from the above.

    Some theorems record behaviour that differs from what the code or its
    comments intend; they are stated as such next to the component.

    ** Bounds

    Loops that are not structural get a bound that is shown to be enough:
    [alloc_fuel] for the allocation loop ([alloc_from_zone_terminates]), the
    number of pages of a region for the boot loops ([init_correct]), the length
    of the slice for binary search.  The copy loop of a fault is bounded by the
    eight attempts the source makes.  The walk of [Fork] recurses on the level and
    the number of entries.  The sift loops of [CfsHeap] get the number of
    entries, and a heap operation on a well-formed queue is shown to return.
    Blocking loops are step relations and have
    no bound.

    ** Not modelled

    Trace and debug output; TLB, interrupts, register state and other hardware
    effects; devices, drivers and architecture code; page cache, reclaim and
    swap; file-backed [mmap]; process creation around the address-space clone; task metadata and saved kernel
    contexts; the mount table, directories and on-disk file systems; epoll, IPC,
    sockets and the network; loading of programs; the bootloader and user space.
    They are either hardware effects or have not been reached.  *)
From stdpp Require Export base tactics option list numbers gmap.
From stdpp Require Import options.

Set Default Proof Using "Type".

Declare Scope oxide_scope.
Delimit Scope oxide_scope with ox.
#[global] Open Scope Z_scope.

(** ** Outcomes of kernel code

    [Done a] is a normal return.  [Fault] is every way in which the kernel
    stops at that point: a Rust panic (array index out of range, arithmetic
    overflow in the default [debug] profile) or one of the deliberate wild
    writes with which the allocator raises a general protection fault.
    [OutOfFuel] is only produced by loops that are given an explicit bound. *)
Inductive outcome (A : Type) : Type :=
| Done (a : A)
| Fault
| OutOfFuel.
Arguments Done {A} a.
Arguments Fault {A}.
Arguments OutOfFuel {A}.

#[global] Instance outcome_ret : MRet outcome := fun A a => Done a.
#[global] Instance outcome_bind : MBind outcome := fun A B k m =>
  match m with Done a => k a | Fault => Fault | OutOfFuel => OutOfFuel end.

(** The value of a fallible lookup whose failure is a panic. *)
Definition or_fault {A} (o : option A) : outcome A :=
  match o with Some a => Done a | None => Fault end.

(** [Result<T, E>] of Rust. *)
Inductive result (A E : Type) : Type :=
| Ok (a : A)
| Err (e : E).
Arguments Ok {A E} a.
Arguments Err {A E} e.

(** ** Machine integers

    A [w]-bit unsigned integer is a [Z] in [0, 2^w).  The operators below are
    the ones the sources use: [checked_add], the plain operators (which panic
    on overflow in the default build profile), the wrapping operations of the
    atomics, and shifts, which drop the bits that leave the word. *)
Definition U8_MAX : Z := 2 ^ 8 - 1.
Definition U32_MAX : Z := 2 ^ 32 - 1.
Definition U64_MAX : Z := 2 ^ 64 - 1.
Definition U64 : Z := 2 ^ 64.
Definition U32 : Z := 2 ^ 32.

Definition u64 (x : Z) : Prop := 0 <= x < U64.
Definition u32 (x : Z) : Prop := 0 <= x < U32.

(** [x as i64] of a [u64] *)
Definition as_i64 (x : Z) : Z := (x + 2 ^ 63) mod U64 - 2 ^ 63.

Definition checked_add (a b : Z) : option Z :=
  if a + b <? U64 then Some (a + b) else None.

(** Plain [a + b], [a - b], [a * b] on [u64]/[usize]. *)
Definition add64 (a b : Z) : outcome Z :=
  if a + b <? U64 then Done (a + b) else Fault.
Definition sub64 (a b : Z) : outcome Z :=
  if b <=? a then Done (a - b) else Fault.
Definition mul64 (a b : Z) : outcome Z :=
  if a * b <? U64 then Done (a * b) else Fault.

Lemma add64_ok a b : a + b < U64 -> add64 a b = Done (a + b).
Proof. intros H. unfold add64. by destruct (Z.ltb_spec (a + b) U64); [|lia]. Qed.

Lemma sub64_ok a b : b <= a -> sub64 a b = Done (a - b).
Proof. intros H. unfold sub64. by destruct (Z.leb_spec b a); [|lia]. Qed.

(** Plain [a + b] on [u32]; [sub64] serves for subtraction at any width. *)
Definition add32 (a b : Z) : outcome Z := if a + b <? U32 then Done (a + b) else Fault.

Lemma add32_ok a b : a + b < U32 -> add32 a b = Done (a + b).
Proof. intros H. unfold add32. by destruct (Z.ltb_spec (a + b) U32); [|lia]. Qed.

(** [AtomicU64::fetch_add]/[fetch_sub], [AtomicU32::fetch_add]/[fetch_sub]. *)
Definition wadd64 (a b : Z) : Z := (a + b) mod U64.
Definition wsub64 (a b : Z) : Z := (a - b) mod U64.
Definition wadd32 (a b : Z) : Z := (a + b) mod U32.
Definition wsub32 (a b : Z) : Z := (a - b) mod U32.

(** [a << n] on [u64] for [n < 64]. *)
Definition shl64 (a : Z) (n : nat) : Z := (Z.shiftl a (Z.of_nat n)) mod U64.

(** [1 << n] as a mathematical power: the orders and signal numbers of the
    sources stay below the word size. *)
Definition pow2 (n : nat) : Z := 2 ^ Z.of_nat n.

Lemma pow2_pos n : 0 < pow2 n.
Proof. unfold pow2. lia. Qed.

Lemma pow2_S n : pow2 (S n) = 2 * pow2 n.
Proof. unfold pow2. rewrite Nat2Z.inj_succ, Z.pow_succ_r by lia. lia. Qed.

Lemma pow2_0 : pow2 0 = 1.
Proof. reflexivity. Qed.

Lemma pow2_le n m : (n <= m)%nat -> pow2 n <= pow2 m.
Proof. intros. unfold pow2. apply Z.pow_le_mono_r; lia. Qed.

Lemma pow2_divide n m : (n <= m)%nat -> (pow2 n | pow2 m).
Proof.
  intros Hle. exists (pow2 (m - n)). unfold pow2.
  rewrite <- Z.pow_add_r by lia. f_equal. lia.
Qed.

Lemma pow2_add n m : pow2 (n + m) = pow2 n * pow2 m.
Proof. unfold pow2. rewrite Nat2Z.inj_add, Z.pow_add_r by lia. done. Qed.

(** [u64::trailing_zeros] and [usize::next_power_of_two]. *)
Fixpoint pos_ctz (p : positive) : nat :=
  match p with
  | xO q => S (pos_ctz q)
  | _ => O
  end.

Definition trailing_zeros (x : Z) : nat :=
  match x with Zpos p => pos_ctz p | _ => 64%nat end.

Definition next_power_of_two (x : Z) : outcome Z :=
  let r := 2 ^ Z.log2_up x in
  if r <? U64 then Done r else Fault.

(** ** Generic lemmas *)

(** Observing the first component of a result, e.g. by evaluation. *)
Lemma outcome_fst {A B} (x : outcome (A * B)) a :
  (p ← x; mret (fst p)) = Done a -> exists b, x = Done (a, b).
Proof. destruct x as [[a' b]| |]; [|done|done]. intros [= ->]. by exists b. Qed.

Lemma outcome_fst_fst {A B C} (x : outcome (A * B * C)) a :
  (p ← x; mret (fst (fst p))) = Done a -> exists b c, x = Done (a, b, c).
Proof. destruct x as [[[a' b] c]| |]; [|done|done]. intros [= ->]. by exists b, c. Qed.


(** A duplicate-free list of integers in [0, N) has at most [N] elements. *)
Lemma NoDup_Z_length (l : list Z) (N : Z) :
  NoDup l -> (forall x, x ∈ l -> 0 <= x < N) -> Z.of_nat (length l) <= Z.max 0 N.
Proof.
  intros Hnd Hb.
  assert (l ⊆+ seqZ 0 N) as Hs.
  { apply NoDup_submseteq; [done|]. intros x Hx. apply elem_of_seqZ. specialize (Hb x Hx). lia. }
  apply submseteq_length in Hs. rewrite length_seqZ in Hs. lia.
Qed.

(** The same for multiples of a positive [d]. *)
Lemma NoDup_multiples_length (l : list Z) (d N : Z) :
  0 < d -> 0 <= N -> NoDup l -> (forall x, x ∈ l -> 0 <= x /\ (d | x) /\ x + d <= N) ->
  Z.of_nat (length l) * d <= N.
Proof.
  intros Hd HN Hnd Hb.
  assert (Z.of_nat (length ((fun x => x / d) <$> l)) <= Z.max 0 (N / d)) as Hl.
  { apply NoDup_Z_length.
    - apply NoDup_fmap_2_strong; [|done]. intros x y Hx Hy He.
      destruct (Hb x Hx) as (_ & [k ->] & _), (Hb y Hy) as (_ & [j ->] & _).
      rewrite !Z.div_mul in He by lia. by subst.
    - intros q Hq. apply list_elem_of_fmap in Hq as (x & -> & Hx).
      destruct (Hb x Hx) as (H0 & [k ->] & Hle). rewrite Z.div_mul by lia.
      pose proof (Z.div_le_lower_bound N d (k + 1) Hd ltac:(lia)). nia. }
  rewrite length_fmap in Hl. pose proof (Z.mul_div_le N d Hd).
  pose proof (Z.div_pos N d HN Hd). nia.
Qed.

(** ** Bits *)

(** A single-bit test, as the source writes it. *)
Lemma flag_bit e n : 0 <= n -> negb (Z.land e (Z.shiftl 1 n) =? 0) = Z.testbit e n.
Proof.
  intros Hn. destruct (Z.eqb_spec (Z.land e (Z.shiftl 1 n)) 0) as [He|He]; simpl.
  - assert (Z.testbit (Z.land e (Z.shiftl 1 n)) n = false) as Hb by (rewrite He; apply Z.bits_0).
    rewrite Z.land_spec, Z.shiftl_1_l, Z.pow2_bits_true, andb_true_r in Hb by done. done.
  - destruct (Z.testbit e n) eqn:Hb; [done|]. destruct He. apply Z.bits_inj'. intros i Hi.
    rewrite Z.land_spec, Z.shiftl_1_l, Z.bits_0. destruct (decide (n = i)) as [<-|Hne].
    + by rewrite Hb.
    + rewrite Z.pow2_bits_false by done. apply andb_false_r.
Qed.

Lemma pos_ctz_spec p : Z.testbit (Zpos p) (Z.of_nat (pos_ctz p)) = true /\
  forall i, 0 <= i < Z.of_nat (pos_ctz p) -> Z.testbit (Zpos p) i = false.
Proof.
  induction p as [p IH|p [IH1 IH2]|]; cbn [pos_ctz].
  - split; [done|lia].
  - rewrite Nat2Z.inj_succ. change (Z.pos p~0) with (2 * Z.pos p). split.
    + by rewrite Z.testbit_even_succ by lia.
    + intros i Hi. destruct (decide (i = 0)) as [->|]; [apply Z.testbit_even_0|].
      replace i with (Z.succ (Z.pred i)) by lia. rewrite Z.testbit_even_succ by lia. apply IH2. lia.
  - split; [done|lia].
Qed.

(** ** Lists indexed by integers *)

(** [f i ++ f (i + 1) ++ ...], [n] times *)
Fixpoint gather {A} (f : Z -> list A) (n : nat) (i : Z) : list A :=
  match n with
  | O => []
  | S n => f i ++ gather f n (i + 1)
  end.

Lemma elem_of_gather {A} (f : Z -> list A) n : forall i x,
  x ∈ gather f n i <-> exists j, i <= j < i + Z.of_nat n /\ x ∈ f j.
Proof.
  induction n as [|n IH]; intros i x; cbn [gather].
  { split; [by intros ?%not_elem_of_nil|intros (j & ? & _); lia]. }
  rewrite elem_of_app, IH. split.
  - intros [H|(j & Hj & H)]; [exists i|exists j]; (split; [lia|done]).
  - intros (j & Hj & H). destruct (decide (j = i)) as [->|]; [by left|right; exists j; split; [lia|done]].
Qed.

Lemma gather_ext {A} (f g : Z -> list A) n : forall i,
  (forall j, i <= j < i + Z.of_nat n -> f j = g j) -> gather f n i = gather g n i.
Proof.
  induction n as [|n IH]; intros i H; [done|]. cbn [gather]. rewrite H by lia. f_equal. apply IH. intros j Hj. apply H. lia.
Qed.

Lemma gather_sublist {A} (f : Z -> list A) n : forall i j, i <= j < i + Z.of_nat n -> f j `sublist_of` gather f n i.
Proof.
  induction n as [|n IH]; intros i j Hj; [lia|]. cbn [gather]. destruct (decide (j = i)) as [->|].
  - by apply sublist_inserts_r.
  - apply sublist_inserts_l, IH. lia.
Qed.
