(* ===== verification/Addr.v ===== *)
(** * Physical addresses ([kernel/core/os_core/src/addr.rs])

    [PhysAddr] is a transparent wrapper of [u64]; it is modelled as the [Z] it
    wraps.  The aligning operations are the ones the allocator uses on the
    boot memory map and on the addresses it is asked to free. *)
From S2P Require Import Prelude.

Abbreviation PhysAddr := Z (only parsing).

Definition align_up (a align : Z) : outcome Z :=
  s ← add64 a align;
  t ← sub64 s 1;
  m ← sub64 align 1;
  mret (Z.ldiff t m).

Definition align_down (a align : Z) : outcome Z :=
  m ← sub64 align 1;
  mret (Z.ldiff a m).

Definition is_aligned (a align : Z) : outcome bool :=
  m ← sub64 align 1;
  mret (Z.land a m =? 0).

Definition page_align_up (a : Z) : outcome Z := align_up a 4096.
Definition page_align_down (a : Z) : outcome Z := align_down a 4096.

(** ** Bit masks as arithmetic *)

Lemma land_mask_mod a n : Z.land a (pow2 n - 1) = a mod pow2 n.
Proof.
  unfold pow2. rewrite <- (Z.land_ones a (Z.of_nat n)) by lia.
  by rewrite Z.ones_equiv, <- Z.sub_1_r.
Qed.

Lemma ldiff_mask a n : Z.ldiff a (pow2 n - 1) = a - a mod pow2 n.
Proof.
  unfold pow2.
  replace (2 ^ Z.of_nat n - 1) with (Z.ones (Z.of_nat n))
    by (rewrite Z.ones_equiv; lia).
  rewrite Z.ldiff_ones_r, Z.shiftl_mul_pow2, Z.shiftr_div_pow2 by lia.
  pose proof (Z.div_mod a (2 ^ Z.of_nat n)). lia.
Qed.

Lemma page_mask a : Z.ldiff a 4095 = a - a mod 4096.
Proof. apply (ldiff_mask a 12). Qed.

Lemma page_land a : Z.land a 4095 = a mod 4096.
Proof. apply (land_mask_mod a 12). Qed.

Lemma is_aligned_page a : is_aligned a 4096 = Done (a mod 4096 =? 0).
Proof. unfold is_aligned, sub64. simpl. by rewrite page_land. Qed.

(** Rounding down yields the largest page boundary not above the address. *)
Lemma page_align_down_spec a :
  page_align_down a = Done (a - a mod 4096).
Proof. unfold page_align_down, align_down, sub64. simpl. by rewrite page_mask. Qed.

Lemma page_align_up_spec a :
  0 <= a -> a + 4096 < U64 ->
  page_align_up a = Done (a + 4095 - (a + 4095) mod 4096).
Proof.
  intros Ha Hlt. unfold page_align_up, align_up, add64, sub64.
  destruct (Z.ltb_spec (a + 4096) U64); [|lia]. simpl.
  destruct (Z.leb_spec 1 (a + 4096)); [|lia]. simpl.
  rewrite page_mask. f_equal. f_equal; [lia|]. f_equal. lia.
Qed.
