(* ===== verification/Zone.v ===== *)
(** * Memory zones and statistics
    ([kernel/mm/mm-core/src/zone.rs], [stats.rs], [lib.rs])

    The three physical zones, the free-list heads the buddy allocator keeps
    per order, allocation requests, and the counters of [stats.rs].  Counters
    are atomics in the source: their updates wrap at 64 bits. *)
From S2P Require Import Prelude Addr.

Definition FRAME_SIZE : Z := 4096.
Definition FRAME_SHIFT : nat := 12.
Definition MAX_ORDER : nat := 10.

Inductive MmError :=
| OutOfMemory | InvalidAddress | InvalidOrder | ZoneNotFound | NotAligned | DoubleFree.

Inductive ZoneType := Dma | Normal | High.

#[global] Instance ZoneType_eq_dec : EqDecision ZoneType.
Proof. solve_decision. Defined.

Definition DMA_ZONE_END : Z := 16 * 1024 * 1024.
Definition NORMAL_ZONE_END : Z := 4 * 1024 * 1024 * 1024.

Definition for_address (addr : Z) : ZoneType :=
  if addr <? DMA_ZONE_END then Dma
  else if addr <? NORMAL_ZONE_END then Normal
  else High.

Definition zone_index (t : ZoneType) : nat :=
  match t with Dma => 0 | Normal => 1 | High => 2 end.

Definition from_index (i : nat) : option ZoneType :=
  match i with 0%nat => Some Dma | 1%nat => Some Normal | 2%nat => Some High | _ => None end.

Definition zone_start (t : ZoneType) : Z :=
  match t with Dma => 0 | Normal => DMA_ZONE_END | High => NORMAL_ZONE_END end.

Definition zone_end (t : ZoneType) : Z :=
  match t with Dma => DMA_ZONE_END | Normal => NORMAL_ZONE_END | High => U64_MAX end.

(** ** Free-list heads and zones *)

Record FreeListHead := mkFLH {
  flh_head : Z;    (* first free block (frame number), 0 if none *)
  flh_count : Z    (* number of blocks *)
}.

Definition FreeListHead_new : FreeListHead := mkFLH 0 0.

Definition FreeListHead_is_empty (l : FreeListHead) : bool := flh_count l =? 0.

Record ZoneStats := mkZoneStats {
  zs_free_pages : list Z;
  zs_total_pages : Z
}.

Definition ZoneStats_new : ZoneStats := mkZoneStats (replicate (S MAX_ORDER) 0) 0.

Record MemoryZone := mkZone {
  mz_type : ZoneType;
  mz_base : Z;
  mz_size : Z;
  mz_free_lists : list FreeListHead;
  mz_stats : ZoneStats
}.

Definition MemoryZone_new (t : ZoneType) : MemoryZone :=
  mkZone t 0 0 (replicate (S MAX_ORDER) FreeListHead_new) ZoneStats_new.

Definition MemoryZone_init (z : MemoryZone) (base size : Z) : MemoryZone :=
  mkZone (mz_type z) base size (mz_free_lists z)
    (mkZoneStats (zs_free_pages (mz_stats z)) (size / FRAME_SIZE)).

Definition MemoryZone_is_empty (z : MemoryZone) : bool := mz_size z =? 0.

Definition free_pages_at_order (z : MemoryZone) (order : nat) : outcome Z :=
  if (MAX_ORDER <? order)%nat then mret 0
  else l ← or_fault (mz_free_lists z !! order); mret (flh_count l).

(** Sum over the orders of [weight order entry * 2^order], in [u64]. *)
Fixpoint weighted_sum {A} (w : A -> Z) (order : nat) (l : list A) (total : Z) : outcome Z :=
  match l with
  | [] => mret total
  | x :: l' =>
      p ← mul64 (w x) (pow2 order);
      total' ← add64 total p;
      weighted_sum w (S order) l' total'
  end.

Definition total_free_pages (z : MemoryZone) : outcome Z :=
  weighted_sum flh_count 0 (mz_free_lists z) 0.

Definition zone_free_bytes (z : MemoryZone) : outcome Z :=
  t ← total_free_pages z; mul64 t FRAME_SIZE.

Definition zone_contains (z : MemoryZone) (a : Z) : outcome bool :=
  if mz_base z <=? a
  then e ← add64 (mz_base z) (mz_size z); mret (a <? e)
  else mret false.

Definition ZoneStats_total_free_pages (s : ZoneStats) : outcome Z :=
  weighted_sum id 0 (zs_free_pages s) 0.

(** Field updates used by the allocator. *)
Definition set_free_list (z : MemoryZone) (order : nat) (l : FreeListHead) : MemoryZone :=
  mkZone (mz_type z) (mz_base z) (mz_size z) (<[order := l]> (mz_free_lists z)) (mz_stats z).

Definition set_zone_range (z : MemoryZone) (base size : Z) : MemoryZone :=
  mkZone (mz_type z) base size (mz_free_lists z) (mz_stats z).

Definition bump_free_pages (f : Z -> Z) (order : nat) (z : MemoryZone) : MemoryZone :=
  mkZone (mz_type z) (mz_base z) (mz_size z) (mz_free_lists z)
    (mkZoneStats (alter f order (zs_free_pages (mz_stats z))) (zs_total_pages (mz_stats z))).

(** ** Allocation requests *)

Record AllocFlags := mkFlags { af_bits : Z }.
Definition MUST_SUCCEED : AllocFlags := mkFlags 1.
Definition AF_EMPTY : AllocFlags := mkFlags 0.

Record AllocRequest := mkRequest {
  ar_order : nat;
  ar_zone : option ZoneType;
  ar_flags : AllocFlags
}.

Definition AllocRequest_new (order : nat) : AllocRequest := mkRequest order None AF_EMPTY.
Definition AllocRequest_dma (order : nat) : AllocRequest := mkRequest order (Some Dma) AF_EMPTY.
Definition AllocRequest_critical (order : nat) : AllocRequest := mkRequest order None MUST_SUCCEED.

(** The loop [while size < pages && order < MAX_ORDER]: the recursion counts
    down [MAX_ORDER - order], which bounds the number of iterations. *)
Fixpoint pages_to_order_loop (left : nat) (size order pages : Z) : Z :=
  match left with
  | O => order
  | S left' =>
      if size <? pages
      then pages_to_order_loop left' (Z.shiftl size 1) (order + 1) pages
      else order
  end.

Definition pages_to_order (pages : Z) : Z :=
  if pages =? 0 then 0 else pages_to_order_loop MAX_ORDER 1 0 pages.

Definition AllocRequest_pages (count : Z) : AllocRequest :=
  AllocRequest_new (Z.to_nat (pages_to_order count)).

(** ** Global counters ([MemoryStats]) *)

Record MemoryStats := mkStats {
  ms_total_bytes : Z;
  ms_free_bytes : Z;
  ms_alloc_count : Z;
  ms_free_count : Z;
  ms_alloc_failures : Z
}.

Definition MemoryStats_new : MemoryStats := mkStats 0 0 0 0 0.

Definition record_alloc (bytes : Z) (s : MemoryStats) : MemoryStats :=
  mkStats (ms_total_bytes s) (wsub64 (ms_free_bytes s) bytes)
    (wadd64 (ms_alloc_count s) 1) (ms_free_count s) (ms_alloc_failures s).

Definition record_free (bytes : Z) (s : MemoryStats) : MemoryStats :=
  mkStats (ms_total_bytes s) (wadd64 (ms_free_bytes s) bytes)
    (ms_alloc_count s) (wadd64 (ms_free_count s) 1) (ms_alloc_failures s).

Definition record_failure (s : MemoryStats) : MemoryStats :=
  mkStats (ms_total_bytes s) (ms_free_bytes s)
    (ms_alloc_count s) (ms_free_count s) (wadd64 (ms_alloc_failures s) 1).

Definition stats_used (s : MemoryStats) : outcome Z :=
  sub64 (ms_total_bytes s) (ms_free_bytes s).

Definition stats_init (total free : Z) (s : MemoryStats) : MemoryStats :=
  mkStats total free (ms_alloc_count s) (ms_free_count s) (ms_alloc_failures s).

(** [add_to_zone]'s update of the two byte counters. *)
Definition stats_add_region (bytes : Z) (s : MemoryStats) : MemoryStats :=
  mkStats (wadd64 (ms_total_bytes s) bytes) (wadd64 (ms_free_bytes s) bytes)
    (ms_alloc_count s) (ms_free_count s) (ms_alloc_failures s).

(** [mark_used]'s update of the free byte counter. *)
Definition stats_sub_free (bytes : Z) (s : MemoryStats) : MemoryStats :=
  mkStats (ms_total_bytes s) (wsub64 (ms_free_bytes s) bytes)
    (ms_alloc_count s) (ms_free_count s) (ms_alloc_failures s).

(** ** Theorems *)

Lemma zone_index_from_index t : from_index (zone_index t) = Some t.
Proof. by destruct t. Qed.

Lemma for_address_bounds a :
  0 <= a < U64_MAX -> zone_start (for_address a) <= a < zone_end (for_address a).
Proof.
  intros Ha. unfold for_address.
  destruct (Z.ltb_spec a DMA_ZONE_END); [simpl; lia|].
  destruct (Z.ltb_spec a NORMAL_ZONE_END); simpl; lia.
Qed.

Lemma pages_to_order_loop_spec left k pages :
  (k + left = MAX_ORDER)%nat ->
  (k = 0%nat \/ pow2 (pred k) < pages) ->
  exists o : nat,
    pages_to_order_loop left (pow2 k) (Z.of_nat k) pages = Z.of_nat o /\
    (k <= o <= MAX_ORDER)%nat /\
    (pages <= pow2 o \/ o = MAX_ORDER) /\
    (o = 0%nat \/ pow2 (pred o) < pages).
Proof.
  revert k. induction left as [|left IH]; intros k Hk Hlo; simpl.
  - exists k. split; [done|]. split; [lia|]. split; [right; lia|]. done.
  - destruct (Z.ltb_spec (pow2 k) pages) as [Hlt|Hge].
    + replace (Z.shiftl (pow2 k) 1) with (pow2 (S k))
        by (rewrite pow2_S, Z.shiftl_mul_pow2 by lia; lia).
      replace (Z.of_nat k + 1) with (Z.of_nat (S k)) by lia.
      destruct (IH (S k)) as (o & -> & Ho & Hb & Hm); [lia|right; done|].
      exists o. split; [done|]. split; [lia|]. done.
    + exists k. split; [done|]. split; [lia|]. split; [left; lia|]. done.
Qed.

(** [pages_to_order] returns the smallest order whose block holds the pages,
    capped at [MAX_ORDER]. *)
Lemma pages_to_order_spec pages :
  1 <= pages ->
  exists o : nat,
    pages_to_order pages = Z.of_nat o /\ (o <= MAX_ORDER)%nat /\
    (pages <= pow2 o \/ o = MAX_ORDER) /\ (o = 0%nat \/ pow2 (pred o) < pages).
Proof.
  intros Hp. unfold pages_to_order.
  destruct (Z.eqb_spec pages 0); [lia|].
  destruct (pages_to_order_loop_spec MAX_ORDER 0 pages) as (o & He & Ho & Hb & Hm);
    [lia|by left|].
  exists o. rewrite pow2_0 in He. split; [done|]. split; [lia|]. done.
Qed.
