(* ===== verification/PageDb.v ===== *)
(** * The page frame database ([kernel/mm/mm-pagedb/src/lib.rs])

    One [PageFrame] per physical frame, indexed by frame number, with the
    diagnostic event ring and the caller context the source keeps in statics.
    [PdbWorld] is the database together with those statics.  Output to the
    serial line is not modelled; its one lasting effect, the [RING_DUMPED]
    latch, is. *)
From S2P Require Import Prelude Zone.

Definition PF_FREE : Z := 0.
Definition PF_ALLOCATED : Z := Z.shiftl 1 0.
Definition PF_MAPPED : Z := Z.shiftl 1 1.
Definition PF_PAGETABLE : Z := Z.shiftl 1 2.
Definition PF_RESERVED : Z := Z.shiftl 1 3.
Definition PF_COW : Z := Z.shiftl 1 4.
Definition PF_KERNEL : Z := Z.shiftl 1 5.
Definition PF_SLAB : Z := Z.shiftl 1 6.
Definition PF_DIRTY : Z := Z.shiftl 1 7.
Definition PF_PAGECACHE : Z := Z.shiftl 1 8.

Definition CTX_UNKNOWN : Z := 0.

(** ** Data *)

Inductive EventType := EvAlloc | EvFree | EvMarkPT | EvRefInc | EvRefDec | EvCowClaim.

Definition event_code (e : EventType) : Z :=
  match e with
  | EvAlloc => 0 | EvFree => 1 | EvMarkPT => 2
  | EvRefInc => 3 | EvRefDec => 4 | EvCowClaim => 5
  end.

Record PageEvent := mkEvent {
  ev_phys : Z;
  ev_event : Z;
  ev_ctx : Z;
  ev_old_flags : Z;
  ev_old_rc : Z;
  ev_owner : Z
}.

Definition EVENT_RING_SIZE : nat := Z.to_nat 4096.

Record PageFrame := mkFrame {
  pf_flags : Z;
  pf_refcount : Z;
  pf_owner : Z;
  pf_order_and_reserved : Z
}.

Definition PageFrame_new : PageFrame := mkFrame PF_FREE 0 0 0.

Definition set_flags (v : Z) (f : PageFrame) : PageFrame :=
  mkFrame v (pf_refcount f) (pf_owner f) (pf_order_and_reserved f).
Definition set_flag (v : Z) (f : PageFrame) : PageFrame :=
  set_flags (Z.lor (pf_flags f) v) f.
Definition clear_flag (v : Z) (f : PageFrame) : PageFrame :=
  set_flags (Z.ldiff (pf_flags f) v) f.
Definition has_flag (v : Z) (f : PageFrame) : bool :=
  negb (Z.land (pf_flags f) v =? 0).
Definition set_refcount (v : Z) (f : PageFrame) : PageFrame :=
  mkFrame (pf_flags f) v (pf_owner f) (pf_order_and_reserved f).
Definition set_owner (v : Z) (f : PageFrame) : PageFrame :=
  mkFrame (pf_flags f) (pf_refcount f) v (pf_order_and_reserved f).
Definition set_order_and_reserved (v : Z) (f : PageFrame) : PageFrame :=
  mkFrame (pf_flags f) (pf_refcount f) (pf_owner f) v.
Definition is_free (f : PageFrame) : bool :=
  (pf_flags f =? PF_FREE) && (pf_refcount f =? 0).

Inductive PageDbError :=
| PdbDoubleFree (phys current_flags owner context : Z)
| FreeReserved (phys context : Z)
| FreeShared (phys context current_flags refcount : Z)
| RefcountUnderflow (phys current : Z)
| InvalidPfn (phys : Z).

(** [pd_frames] is [None] while the array pointer is null. *)
Record PageDatabase := mkDb {
  pd_frames : option (list PageFrame);
  pd_count : Z;
  pd_initialized : bool
}.

Record PdbWorld := mkWorld {
  pw_db : PageDatabase;
  pw_ring : list PageEvent;
  pw_ring_idx : Z;
  pw_ring_dumped : Z;
  pw_free_context : Z
}.

Definition PageDatabase_new : PageDatabase := mkDb None 0 false.

Definition PdbWorld_new : PdbWorld :=
  mkWorld PageDatabase_new (replicate EVENT_RING_SIZE (mkEvent 0 0 0 0 0 0)) 0 0 CTX_UNKNOWN.

(** ** Operations *)

Definition set_db (w : PdbWorld) (d : PageDatabase) : PdbWorld :=
  mkWorld d (pw_ring w) (pw_ring_idx w) (pw_ring_dumped w) (pw_free_context w).

Definition record_event (w : PdbWorld) (phys : Z) (e : EventType)
    (ctx old_flags old_rc owner : Z) : PdbWorld :=
  let idx := Z.to_nat (pw_ring_idx w mod Z.of_nat EVENT_RING_SIZE) in
  let entry := mkEvent phys (event_code e) ctx
                 (old_flags mod 256) (old_rc mod 256) owner in
  mkWorld (pw_db w) (<[idx := entry]> (pw_ring w)) (wadd64 (pw_ring_idx w) 1)
    (pw_ring_dumped w) (pw_free_context w).

(** [dump_event_ring_for]: prints once, then latches. *)
Definition dump_event_ring (w : PdbWorld) : PdbWorld :=
  mkWorld (pw_db w) (pw_ring w) (pw_ring_idx w) 1 (pw_free_context w).

Definition set_free_context (ctx : Z) (w : PdbWorld) : PdbWorld :=
  mkWorld (pw_db w) (pw_ring w) (pw_ring_idx w) (pw_ring_dumped w) ctx.

(** [init]: the caller passes a zeroed array of [frame_count] entries. *)
Definition pdb_init (w : PdbWorld) (array : list PageFrame) (frame_count : Z) : PdbWorld :=
  set_db w (mkDb (Some array) frame_count true).

Definition phys_to_pfn (d : PageDatabase) (phys : Z) : option nat :=
  let pfn := Z.shiftr phys (Z.of_nat FRAME_SHIFT) in
  if pfn <? pd_count d then Some (Z.to_nat pfn) else None.

Definition pdb_get (d : PageDatabase) (phys : Z) : option PageFrame :=
  pfn ← phys_to_pfn d phys;
  frames ← pd_frames d;
  frames !! pfn.

(** Stores into the entry that [get] returned a reference to. *)
Definition update_frame (d : PageDatabase) (phys : Z) (g : PageFrame -> PageFrame) : PageDatabase :=
  match phys_to_pfn d phys, pd_frames d with
  | Some pfn, Some frames => mkDb (Some (alter g pfn frames)) (pd_count d) (pd_initialized d)
  | _, _ => d
  end.

Definition mark_allocated (w : PdbWorld) (phys owner : Z) : PdbWorld :=
  match pdb_get (pw_db w) phys with
  | Some frame =>
      let w := record_event w phys EvAlloc (pw_free_context w)
                 (pf_flags frame) (pf_refcount frame) (pf_owner frame) in
      set_db w (update_frame (pw_db w) phys
        (fun f => set_owner owner (set_refcount 1 (set_flags PF_ALLOCATED f))))
  | None => w
  end.

Definition mark_free (w : PdbWorld) (phys : Z) : outcome (result unit PageDbError * PdbWorld) :=
  match phys_to_pfn (pw_db w) phys with
  | None => mret (Err (InvalidPfn phys), w)
  | Some pfn =>
      frames ← or_fault (pd_frames (pw_db w));
      frame ← or_fault (frames !! pfn);
      let w := record_event w phys EvFree (pw_free_context w)
                 (pf_flags frame) (pf_refcount frame) (pf_owner frame) in
      mret (Ok tt, set_db w (update_frame (pw_db w) phys
        (fun f => set_order_and_reserved 0 (set_owner 0 (set_refcount 0 (set_flags PF_FREE f))))))
  end.

Definition mark_pagetable (w : PdbWorld) (phys owner : Z) : PdbWorld :=
  match pdb_get (pw_db w) phys with
  | Some frame =>
      let w := record_event w phys EvMarkPT 0
                 (pf_flags frame) (pf_refcount frame) (pf_owner frame) in
      set_db w (update_frame (pw_db w) phys
        (fun f => set_owner owner (set_refcount 1
                    (set_flags (Z.lor PF_ALLOCATED PF_PAGETABLE) f))))
  | None => w
  end.

Definition mark_boot (flags : Z) (w : PdbWorld) (phys : Z) : PdbWorld :=
  match pdb_get (pw_db w) phys with
  | Some _ =>
      set_db w (update_frame (pw_db w) phys
        (fun f => set_owner U32_MAX (set_refcount 1 (set_flags flags f))))
  | None => w
  end.

Definition mark_reserved : PdbWorld -> Z -> PdbWorld := mark_boot PF_RESERVED.
Definition mark_reserved_kernel : PdbWorld -> Z -> PdbWorld :=
  mark_boot (Z.lor PF_RESERVED PF_KERNEL).
Definition mark_reserved_pagetable : PdbWorld -> Z -> PdbWorld :=
  mark_boot (Z.lor PF_RESERVED PF_PAGETABLE).

(** [fetch_add(1) + 1]: the stored count wraps, the returned sum panics. *)
Definition ref_inc (w : PdbWorld) (phys : Z) : outcome (Z * PdbWorld) :=
  match pdb_get (pw_db w) phys with
  | Some frame =>
      let w := record_event w phys EvRefInc 0
                 (pf_flags frame) (pf_refcount frame) (pf_owner frame) in
      let old := pf_refcount frame in
      let w := set_db w (update_frame (pw_db w) phys
                 (fun f => set_refcount (wadd32 (pf_refcount f) 1) f)) in
      if old + 1 <? U32 then mret (old + 1, w) else Fault
  | None => mret (0, w)
  end.

Definition ref_dec (w : PdbWorld) (phys : Z) : Z * PdbWorld :=
  match pdb_get (pw_db w) phys with
  | Some frame =>
      let flags := pf_flags frame in
      let old_rc := pf_refcount frame in
      let w := record_event w phys EvRefDec (pw_free_context w)
                 flags old_rc (pf_owner frame) in
      if (flags =? PF_FREE) && (old_rc =? 0) then (0, w)
      else
        let w := set_db w (update_frame (pw_db w) phys
                   (fun f => set_refcount (wsub32 (pf_refcount f) 1) f)) in
        if old_rc =? 0
        then (0, dump_event_ring (set_db w (update_frame (pw_db w) phys (set_refcount 0))))
        else (old_rc - 1, w)
  | None => (0, w)
  end.

Definition validate_free (w : PdbWorld) (phys : Z)
    : outcome (result unit PageDbError * PdbWorld) :=
  match phys_to_pfn (pw_db w) phys with
  | None => mret (Err (InvalidPfn phys), w)
  | Some pfn =>
      frames ← or_fault (pd_frames (pw_db w));
      frame ← or_fault (frames !! pfn);
      let flags := pf_flags frame in
      let ctx := pw_free_context w in
      if (flags =? PF_FREE) && (pf_refcount frame =? 0)
      then mret (Err (PdbDoubleFree phys flags (pf_owner frame) ctx), dump_event_ring w)
      else if negb (Z.land flags PF_RESERVED =? 0)
      then mret (Err (FreeReserved phys ctx), w)
      else if 1 <? pf_refcount frame
      then mret (Err (FreeShared phys ctx flags (pf_refcount frame)), dump_event_ring w)
      else mret (Ok tt, w)
  end.

Record PageDbStats := mkPdbStats {
  st_total : Z; st_free : Z; st_allocated : Z; st_mapped : Z;
  st_pagetable : Z; st_reserved : Z; st_cow_shared : Z; st_kernel : Z
}.

(** The primary state of a frame, in the order in which [stats] tests it. *)
Inductive frame_class := CFree | CReserved | CPagetable | CMapped | CAllocated | COther.

Definition classify (f : PageFrame) : frame_class :=
  if (pf_flags f =? PF_FREE) && (pf_refcount f =? 0) then CFree
  else if has_flag PF_RESERVED f then CReserved
  else if has_flag PF_PAGETABLE f then CPagetable
  else if has_flag PF_MAPPED f then CMapped
  else if has_flag PF_ALLOCATED f then CAllocated
  else COther.

Definition count_frame (s : PageDbStats) (f : PageFrame) : PageDbStats :=
  let '(mkPdbStats t fr al ma pt rs co ke) := s in
  let co' := if has_flag PF_COW f then co + 1 else co in
  let ke' := if has_flag PF_KERNEL f then ke + 1 else ke in
  match classify f with
  | CFree => mkPdbStats t (fr + 1) al ma pt rs co' ke'
  | CReserved => mkPdbStats t fr al ma pt (rs + 1) co' ke'
  | CPagetable => mkPdbStats t fr al ma (pt + 1) rs co' ke'
  | CMapped => mkPdbStats t fr al (ma + 1) pt rs co' ke'
  | CAllocated => mkPdbStats t fr (al + 1) ma pt rs co' ke'
  | COther => mkPdbStats t fr al ma pt rs co' ke'
  end.

Definition pdb_stats (d : PageDatabase) : PageDbStats :=
  let s := mkPdbStats (pd_count d) 0 0 0 0 0 0 0 in
  match pd_frames d with
  | None => s
  | Some frames => fold_left count_frame (take (Z.to_nat (pd_count d)) frames) s
  end.

(** ** Well-formedness and the lookup/update laws *)

(** [count] never exceeds the array behind the pointer. *)
Definition db_wf (d : PageDatabase) : Prop :=
  match pd_frames d with
  | Some frames => Z.of_nat (length frames) = pd_count d
  | None => pd_count d = 0
  end.

(** Does the database list the page at [a] as free? *)
Definition page_free (d : PageDatabase) (a : Z) : bool :=
  match pdb_get d a with Some f => is_free f | None => false end.

Lemma shiftr_page a : Z.shiftr a (Z.of_nat FRAME_SHIFT) = a / 4096.
Proof. by rewrite Z.shiftr_div_pow2. Qed.

Lemma phys_to_pfn_Some d a n :
  0 <= a -> phys_to_pfn d a = Some n <-> (Z.of_nat n = a / 4096 /\ a / 4096 < pd_count d).
Proof.
  intros Ha. unfold phys_to_pfn. rewrite shiftr_page.
  pose proof (Z.div_pos a 4096 Ha).
  destruct (Z.ltb_spec (a / 4096) (pd_count d)); split; intros Hn; simplify_eq; try lia.
  f_equal. lia.
Qed.

Lemma phys_to_pfn_None d a :
  phys_to_pfn d a = None <-> pd_count d <= a / 4096.
Proof.
  unfold phys_to_pfn. rewrite shiftr_page.
  destruct (Z.ltb_spec (a / 4096) (pd_count d)); split; intros; try done; lia.
Qed.

Lemma update_frame_count d a g : pd_count (update_frame d a g) = pd_count d.
Proof. unfold update_frame. by destruct (phys_to_pfn d a), (pd_frames d). Qed.

Lemma update_frame_wf d a g : db_wf d -> db_wf (update_frame d a g).
Proof.
  unfold db_wf, update_frame. intros Hwf.
  destruct (phys_to_pfn d a), (pd_frames d) eqn:Hf; simpl; rewrite ?Hf; try done.
  by rewrite length_alter.
Qed.

Lemma phys_to_pfn_update d a g b : phys_to_pfn (update_frame d a g) b = phys_to_pfn d b.
Proof. unfold phys_to_pfn. by rewrite update_frame_count. Qed.

Lemma pdb_get_update d a g b :
  0 <= a -> 0 <= b ->
  pdb_get (update_frame d a g) b =
    if decide (a / 4096 = b / 4096) then g <$> pdb_get d b else pdb_get d b.
Proof.
  intros Ha Hb. unfold pdb_get. rewrite phys_to_pfn_update.
  destruct (phys_to_pfn d b) as [n|] eqn:Hn; [|by case_decide].
  apply phys_to_pfn_Some in Hn as [Hn Hlt]; [|done]. simpl.
  unfold update_frame.
  destruct (phys_to_pfn d a) as [m|] eqn:Hm.
  - apply phys_to_pfn_Some in Hm as [Hm Hltm]; [|done].
    destruct (pd_frames d) as [fr|] eqn:Hfr; simpl; [|rewrite Hfr; by case_decide].
    case_decide.
    + replace m with n by lia. by rewrite list_lookup_alter_eq.
    + apply list_lookup_alter_ne. lia.
  - apply phys_to_pfn_None in Hm.
    case_decide; [lia|]. done.
Qed.

Lemma pdb_get_is_Some d a :
  db_wf d -> 0 <= a -> a / 4096 < pd_count d -> is_Some (pdb_get d a).
Proof.
  intros Hwf Ha Hlt. unfold pdb_get, db_wf in *.
  destruct (phys_to_pfn d a) as [n|] eqn:Hn; [|apply phys_to_pfn_None in Hn; lia].
  apply phys_to_pfn_Some in Hn as [Hn _]; [|done]. simpl.
  destruct (pd_frames d) as [fr|]; simpl; [|pose proof (Z.div_pos a 4096 Ha); lia].
  apply lookup_lt_is_Some. lia.
Qed.

(** The two array accesses of [mark_free] and [validate_free] agree with [get]. *)
Lemma pfn_access d a n :
  db_wf d -> 0 <= a -> phys_to_pfn d a = Some n ->
  exists frames f, pd_frames d = Some frames /\ frames !! n = Some f /\ pdb_get d a = Some f.
Proof.
  intros Hwf Ha Hn. pose proof Hn as Hn'.
  apply phys_to_pfn_Some in Hn' as [Hz Hlt]; [|done].
  destruct (pdb_get_is_Some d a Hwf Ha Hlt) as [f Hf].
  pose proof Hf as Hf'. unfold pdb_get in Hf'. rewrite Hn in Hf'. simpl in Hf'.
  destruct (pd_frames d) as [fr|]; simpl in *; [|done]. eauto.
Qed.

Lemma record_event_db w p e c f r o : pw_db (record_event w p e c f r o) = pw_db w.
Proof. done. Qed.

Lemma record_event_ring_length w p e c f r o :
  length (pw_ring (record_event w p e c f r o)) = length (pw_ring w).
Proof. simpl. by rewrite length_insert. Qed.

Lemma pdb_get_same_page d a b :
  a / 4096 = b / 4096 -> pdb_get d a = pdb_get d b.
Proof. intros He. unfold pdb_get, phys_to_pfn. by rewrite !shiftr_page, He. Qed.

(** Effect of the marking operations on the view [pdb_get]. *)
Lemma mark_allocated_get w a o b :
  0 <= a -> 0 <= b ->
  pdb_get (pw_db (mark_allocated w a o)) b =
    if decide (a / 4096 = b / 4096)
    then (fun f => set_owner o (set_refcount 1 (set_flags PF_ALLOCATED f))) <$> pdb_get (pw_db w) b
    else pdb_get (pw_db w) b.
Proof.
  intros Ha Hb. unfold mark_allocated.
  destruct (pdb_get (pw_db w) a) as [f|] eqn:Hf.
  - simpl. by rewrite pdb_get_update.
  - case_decide as He; [|done].
    by rewrite <- (pdb_get_same_page _ a b He), Hf.
Qed.

Lemma mark_allocated_wf w a o : db_wf (pw_db w) -> db_wf (pw_db (mark_allocated w a o)).
Proof.
  intros Hwf. unfold mark_allocated. case_match; [|done]. simpl. by apply update_frame_wf.
Qed.

Lemma mark_allocated_count w a o :
  pd_count (pw_db (mark_allocated w a o)) = pd_count (pw_db w).
Proof. unfold mark_allocated. case_match; [|done]. simpl. by rewrite update_frame_count. Qed.

Definition freed_frame (f : PageFrame) : PageFrame :=
  set_order_and_reserved 0 (set_owner 0 (set_refcount 0 (set_flags PF_FREE f))).

Lemma mark_free_spec w a :
  db_wf (pw_db w) -> 0 <= a ->
  exists r w', mark_free w a = Done (r, w') /\
    db_wf (pw_db w') /\ pd_count (pw_db w') = pd_count (pw_db w) /\
    (forall b, 0 <= b ->
      pdb_get (pw_db w') b =
        if decide (a / 4096 = b / 4096) then freed_frame <$> pdb_get (pw_db w) b
        else pdb_get (pw_db w) b).
Proof.
  intros Hwf Ha. unfold mark_free.
  destruct (phys_to_pfn (pw_db w) a) as [n|] eqn:Hn.
  - destruct (pfn_access (pw_db w) a n Hwf Ha Hn) as (fr & f & Hfr & Hlk & Hf).
    rewrite Hfr. simpl. rewrite Hlk. simpl.
    eexists _, _. split; [reflexivity|]. simpl.
    split; [by apply update_frame_wf|]. split; [by rewrite update_frame_count|].
    intros b Hb. by rewrite pdb_get_update.
  - eexists _, _. split; [reflexivity|]. split; [done|]. split; [done|].
    intros b Hb. case_decide as He; [|done].
    apply phys_to_pfn_None in Hn. rewrite He in Hn.
    unfold pdb_get. by rewrite (proj2 (phys_to_pfn_None _ _) Hn).
Qed.

(** ** Validation and reference counts *)

(** The entry of [a] describes a page that may be given back: live, not
    reserved, and referenced at most once. *)
Definition releasable (d : PageDatabase) (a : Z) : Prop :=
  exists f, pdb_get d a = Some f /\ is_free f = false /\ has_flag PF_RESERVED f = false /\
    pf_refcount f <= 1.

Lemma phys_to_pfn_get d a : phys_to_pfn d a = None -> pdb_get d a = None.
Proof. intros Hn. unfold pdb_get. by rewrite Hn. Qed.

Lemma validate_free_spec w a :
  db_wf (pw_db w) -> 0 <= a ->
  exists r w', validate_free w a = Done (r, w') /\ pw_db w' = pw_db w /\
    (r = Ok tt <-> releasable (pw_db w) a).
Proof.
  intros Hwf Ha. unfold validate_free, releasable.
  destruct (phys_to_pfn (pw_db w) a) as [n|] eqn:Hn.
  - destruct (pfn_access (pw_db w) a n Hwf Ha Hn) as (fr & f & Hfr & Hlk & Hf).
    rewrite Hfr. simpl. rewrite Hlk. simpl. rewrite Hf. fold (is_free f).
    change (negb (Z.land (pf_flags f) PF_RESERVED =? 0)) with (has_flag PF_RESERVED f).
    destruct (is_free f) eqn:H1; [|destruct (has_flag PF_RESERVED f) eqn:H2;
      [|destruct (Z.ltb_spec 1 (pf_refcount f))]];
      eexists _, _; (split; [reflexivity|]); (split; [done|]); split;
      try done; try (intros (? & ? & ? & ? & ?); simplify_eq; try congruence; lia).
    intros _. eauto with lia.
  - eexists _, _. split; [done|]. split; [done|]. split; [done|].
    rewrite (phys_to_pfn_get _ _ Hn). by intros (? & ? & _).
Qed.

Lemma mark_allocated_entry w a o f :
  0 <= a -> pdb_get (pw_db w) a = Some f ->
  pdb_get (pw_db (mark_allocated w a o)) a =
    Some (set_owner o (set_refcount 1 (set_flags PF_ALLOCATED f))).
Proof. intros Ha Hf. rewrite mark_allocated_get, decide_True, Hf by done. done. Qed.

(** [ref_inc] and [ref_dec] on a live frame are inverse on the count. *)
Lemma ref_inc_spec w a f :
  0 <= a -> pdb_get (pw_db w) a = Some f -> 0 <= pf_refcount f < U32_MAX ->
  exists w', ref_inc w a = Done (pf_refcount f + 1, w') /\
    pdb_get (pw_db w') a = Some (set_refcount (pf_refcount f + 1) f).
Proof.
  intros Ha Hf Hr. unfold ref_inc. rewrite Hf. unfold U32_MAX in Hr.
  destruct (Z.ltb_spec (pf_refcount f + 1) U32); [|unfold U32 in *; lia].
  eexists. split; [done|]. simpl. rewrite pdb_get_update, decide_True, Hf by done. simpl.
  unfold wadd32. rewrite Z.mod_small by (unfold U32 in *; lia). done.
Qed.

Lemma ref_dec_spec w a f :
  0 <= a -> pdb_get (pw_db w) a = Some f -> 0 < pf_refcount f <= U32_MAX ->
  exists w', ref_dec w a = (pf_refcount f - 1, w') /\
    pdb_get (pw_db w') a = Some (set_refcount (pf_refcount f - 1) f).
Proof.
  intros Ha Hf Hr. unfold ref_dec. rewrite Hf. unfold U32_MAX in Hr.
  destruct (Z.eqb_spec (pf_refcount f) 0) as [|_]; [lia|]. rewrite andb_false_r.
  eexists. split; [done|]. simpl. rewrite pdb_get_update, decide_True, Hf by done. simpl.
  unfold wsub32. rewrite Z.mod_small by (unfold U32; lia). done.
Qed.

(** A decrement at zero never wraps. *)
Lemma ref_dec_zero w a f :
  0 <= a -> pdb_get (pw_db w) a = Some f -> pf_refcount f = 0 ->
  exists w', ref_dec w a = (0, w') /\ pdb_get (pw_db w') a = Some f.
Proof.
  intros Ha Hf Hr. unfold ref_dec. rewrite Hf, Hr. rewrite Z.eqb_refl, andb_true_r.
  destruct (pf_flags f =? PF_FREE); eexists; (split; [done|]); simpl; [done|].
  rewrite !pdb_get_update, !decide_True, Hf by done. simpl. destruct f; simpl in *. by subst.
Qed.

(** ** Statistics *)

(** The frame states that [stats] counts partition the frames. *)
Definition class_total (s : PageDbStats) : Z :=
  st_free s + st_reserved s + st_pagetable s + st_mapped s + st_allocated s.

Definition counted (f : PageFrame) : bool :=
  match classify f with COther => false | _ => true end.

Lemma count_frame_total s f :
  class_total (count_frame s f) = class_total s + (if counted f then 1 else 0).
Proof. destruct s. unfold count_frame, counted, class_total. destruct (classify f); simpl; lia. Qed.
