(* ===== verification/Buddy.v ===== *)
(** * The buddy allocator ([kernel/mm/mm-core/src/buddy.rs]): operations

    Free blocks are kept in doubly-linked lists whose nodes ([FreeBlock]) live
    in the first bytes of the free blocks themselves.  [Memory] maps a physical
    address to the header stored there; [phys_to_virt] only adds the constant
    base of the direct map, so the physical address identifies the location.
    Every operation runs under the lock of its zone and is a function from the
    zone, the memory (and the page database, where it is consulted) to their
    new values.  A deliberate wild write ("GPF"), an index panic or an
    arithmetic panic is [Fault].  Trace output is not modelled. *)
From S2P Require Import Prelude Addr Zone PageDb.

Record FreeBlock := mkFB {
  fb_magic : Z;
  fb_next : Z;
  fb_prev : Z;
  fb_order : Z;
  fb_pad : list Z
}.

Definition FREE_BLOCK_MAGIC : Z := 0x4652454542304C.
Definition FREE_BLOCK_ORDER_INVALID : Z := 0xFF.
Definition PAD0 : list Z := replicate 7 0.

Definition Memory := Z -> FreeBlock.

Definition mem_write (m : Memory) (a : Z) (b : FreeBlock) : Memory :=
  fun a' => if a =? a' then b else m a'.

Definition set_prev (p : Z) (b : FreeBlock) : FreeBlock :=
  mkFB (fb_magic b) (fb_next b) p (fb_order b) (fb_pad b).
Definition set_next (n : Z) (b : FreeBlock) : FreeBlock :=
  mkFB (fb_magic b) n (fb_prev b) (fb_order b) (fb_pad b).

(** The header a block leaves behind when it is unlinked. *)
Definition cleared_block : FreeBlock := mkFB 0 0 0 FREE_BLOCK_ORDER_INVALID PAD0.

(** [magic == FREE_BLOCK_MAGIC && block.order as usize == order] *)
Definition canary_ok (b : FreeBlock) (order : nat) : bool :=
  (fb_magic b =? FREE_BLOCK_MAGIC) && (fb_order b =? Z.of_nat order).

Definition frame_of (addr : Z) : Z := Z.shiftr addr (Z.of_nat FRAME_SHIFT).
Definition addr_of (frame : Z) : Z := shl64 frame FRAME_SHIFT.

Definition block_bytes (order : nat) : Z := shl64 (pow2 order) FRAME_SHIFT.

Definition block_in_zone (z : MemoryZone) (addr : Z) (order : nat) : bool :=
  match checked_add (mz_base z) (mz_size z) with
  | None => false
  | Some ze =>
      match checked_add addr (block_bytes order) with
      | None => false
      | Some be => (mz_base z <=? addr) && (be <=? ze)
      end
  end.

(** Does the header found at [addr] look like a node of one of the lists?
    The order field is only used as an index when it is in range. *)
Definition already_linked (z : MemoryZone) (b : FreeBlock) (frame_num : Z) : outcome bool :=
  if fb_order b <=? Z.of_nat MAX_ORDER
  then
    l ← or_fault (mz_free_lists z !! Z.to_nat (fb_order b));
    mret ((flh_head l =? frame_num) || negb (fb_next b =? 0) || negb (fb_prev b =? 0))
  else mret false.

(** Point the old head's [prev] at the new head; a head whose canary or order
    is wrong is the [BUDDY-FATAL] case, which faults on purpose. *)
Definition link_old_head (m : Memory) (order : nat) (old_head frame_num : Z) : outcome Memory :=
  if old_head =? 0 then mret m
  else
    let ob := m (addr_of old_head) in
    if canary_ok ob order
    then mret (mem_write m (addr_of old_head) (set_prev frame_num ob))
    else Fault.

Definition add_free_block (z : MemoryZone) (m : Memory) (order : nat) (addr : Z)
    : outcome (bool * MemoryZone * Memory) :=
  if (addr =? 0) || negb (block_in_zone z addr order) then mret (false, z, m) else
  l ← or_fault (mz_free_lists z !! order);
  let old_head := flh_head l in
  let frame_num := frame_of addr in
  if frame_num =? 0 then mret (false, z, m) else
  dup ← (if fb_magic (m addr) =? FREE_BLOCK_MAGIC
         then already_linked z (m addr) frame_num else mret false);
  if (dup : bool) then mret (false, z, m) else
  let m1 := mem_write m addr
              (mkFB FREE_BLOCK_MAGIC old_head 0 (Z.of_nat order mod 256) PAD0) in
  m2 ← link_old_head m1 order old_head frame_num;
  c ← add64 (flh_count l) 1;
  mret (true, set_free_list z order (mkFLH frame_num c), m2).

(** The recovery path of [pop_free_block] for a corrupted head: promote the
    successor if it is sane, otherwise drop the chain. *)
Definition salvage_head (z : MemoryZone) (m : Memory) (order : nat) (l : FreeListHead)
    (candidate_next : Z) : MemoryZone * Memory :=
  let candidate := m (addr_of candidate_next) in
  if negb (candidate_next =? 0) && block_in_zone z (addr_of candidate_next) order
     && canary_ok candidate order
  then
    let c := if 0 <? flh_count l then flh_count l - 1 else flh_count l in
    (set_free_list z order (mkFLH candidate_next c),
     mem_write m (addr_of candidate_next) (set_prev 0 candidate))
  else (set_free_list z order (mkFLH 0 0), m).

(** The new head, count, expected count and memory after the head has been
    unlinked; a successor that fails validation severs the chain. *)
Definition relink_head (z : MemoryZone) (m : Memory) (order : nat) (l : FreeListHead)
    (next_frame : Z) : Z * Z * Z * Memory :=
  if next_frame =? 0 then (next_frame, flh_count l, flh_count l, m)
  else if negb (block_in_zone z (addr_of next_frame) order) then (0, 1, 1, m)
  else
    let nb := m (addr_of next_frame) in
    if canary_ok nb order
    then (next_frame, flh_count l, flh_count l, mem_write m (addr_of next_frame) (set_prev 0 nb))
    else (0, 1, 1, m).

Definition pop_free_block (z : MemoryZone) (m : Memory) (order : nat)
    : outcome (option Z * MemoryZone * Memory) :=
  l ← or_fault (mz_free_lists z !! order);
  if flh_count l =? 0 then mret (None, z, m) else
  let frame_num := flh_head l in
  if frame_num =? 0
  then mret (None, set_free_list z order (mkFLH (flh_head l) 0), m) else
  let addr := addr_of frame_num in
  if negb (block_in_zone z addr order)
  then mret (None, set_free_list z order (mkFLH 0 0), m) else
  let block := m addr in
  if negb (canary_ok block order)
  then let '(z', m') := salvage_head z m order l (fb_next block) in mret (None, z', m')
  else
    let m1 := mem_write m addr cleared_block in
    let '(head', count', initial, m2) := relink_head z m1 order l (fb_next block) in
    if negb (count' =? initial) then Fault else
    if count' =? 0 then Fault else
    c ← sub64 count' 1;
    mret (Some addr, set_free_list z order (mkFLH head' c), m2).

(** Once the predecessor skips the block at [addr]: link the successor back and
    clear the block's own header. *)
Definition unlink_node (m : Memory) (addr : Z) : Memory :=
  let next := fb_next (m addr) in
  let m2 := if next =? 0 then m
            else mem_write m (addr_of next) (set_prev (fb_prev (m addr)) (m (addr_of next))) in
  mem_write m2 addr cleared_block.

Definition remove_from_free_list (z : MemoryZone) (m : Memory) (order : nat) (addr : Z)
    : outcome (bool * MemoryZone * Memory) :=
  if (addr =? 0) || negb (block_in_zone z addr order) then mret (false, z, m) else
  let target_frame := frame_of addr in
  if target_frame =? 0 then mret (false, z, m) else
  l ← or_fault (mz_free_lists z !! order);
  if flh_count l =? 0 then mret (false, z, m) else
  if flh_head l =? target_frame
  then
    '(r, z', m') ← pop_free_block z m order;
    mret (bool_decide (r = Some addr), z', m')
  else
    let target := m addr in
    if negb (fb_magic target =? FREE_BLOCK_MAGIC) then mret (false, z, m) else
    if negb (fb_order target =? Z.of_nat order) then mret (false, z, m) else
    if fb_prev target =? 0 then mret (false, z, m) else
    let prev_addr := addr_of (fb_prev target) in
    let prev_block := m prev_addr in
    if negb (canary_ok prev_block order) then mret (false, z, m) else
    if negb (fb_next prev_block =? target_frame) then mret (false, z, m) else
    let m1 := mem_write m prev_addr (set_next (fb_next target) prev_block) in
    let next := fb_next (m1 addr) in
    if negb (next =? 0) && negb (canary_ok (m1 (addr_of next)) order)
    then mret (false, z, m1)
    else
      c ← sub64 (flh_count l) 1;
      mret (true, set_free_list z order (mkFLH (flh_head l) c), unlink_node m1 addr).

(** Are the [n] frames from number [i] on of the block at [a] all free in the
    page database?  (The loops stop at the first frame that is not.) *)
Fixpoint frames_free (d : PageDatabase) (a i : Z) (n : nat) : outcome bool :=
  match n with
  | O => mret true
  | S n' =>
      x ← add64 a (i * FRAME_SIZE);
      if page_free d x then frames_free d a (i + 1) n' else mret false
  end.

(** The check is skipped while no page database is registered. *)
Definition block_is_free (db : option PdbWorld) (a : Z) (order : nat) : outcome bool :=
  match db with
  | None => mret true
  | Some w => frames_free (pw_db w) a 0 (Z.to_nat (pow2 order))
  end.

(** ** Allocation from a zone *)

(** [for split_order in (order..current_order).rev()], [n] levels left. *)
Fixpoint split_down (n : nat) (z : MemoryZone) (m : Memory) (order : nat) (addr : Z)
    : outcome (MemoryZone * Memory) :=
  match n with
  | O => mret (z, m)
  | S n' =>
      let split_order := (order + n')%nat in
      buddy_addr ← add64 addr (block_bytes split_order);
      '(ok, z', m') ← add_free_block z m split_order buddy_addr;
      let z'' := if (ok : bool) then bump_free_pages (fun p => wadd64 p 1) split_order z' else z' in
      split_down n' z'' m' order addr
  end.

Fixpoint alloc_loop (fuel : nat) (db : option PdbWorld) (z : MemoryZone) (m : Memory)
    (order current_order : nat) : outcome (option Z * MemoryZone * Memory) :=
  match fuel with
  | O => OutOfFuel
  | S fuel' =>
      if (MAX_ORDER <? current_order)%nat then mret (None, z, m) else
      l ← or_fault (mz_free_lists z !! current_order);
      if flh_count l =? 0 then alloc_loop fuel' db z m order (S current_order) else
      '(r, z1, m1) ← pop_free_block z m current_order;
      match r with
      | None => alloc_loop fuel' db z1 m1 order (S current_order)
      | Some addr =>
          free ← block_is_free db addr current_order;
          if (free : bool) then
            '(z2, m2) ← split_down (current_order - order) z1 m1 order addr;
            mret (Some addr, bump_free_pages (fun p => wsub64 p 1) current_order z2, m2)
          else alloc_loop fuel' db z1 m1 order current_order
      end
  end.

(** Each round either moves to the next order or takes one block off a list. *)
Definition alloc_fuel (z : MemoryZone) : nat :=
  (sum_list_with (fun l => Z.to_nat (flh_count l)) (mz_free_lists z) + S (S MAX_ORDER))%nat.

Definition alloc_from_zone (db : option PdbWorld) (z : MemoryZone) (m : Memory) (order : nat)
    : outcome (option Z * MemoryZone * Memory) :=
  alloc_loop (alloc_fuel z) db z m order order.

(** ** Freeing to a zone, with coalescing *)

(** [n] is [MAX_ORDER - current_order]. *)
Fixpoint coalesce (n : nat) (db : option PdbWorld) (z : MemoryZone) (m : Memory)
    (current_addr : Z) (current_order : nat) : outcome (Z * nat * MemoryZone * Memory) :=
  match n with
  | O => mret (current_addr, current_order, z, m)
  | S n' =>
      let stop := (current_addr, current_order, z, m) in
      let frame_num := frame_of current_addr in
      let buddy_addr := addr_of (Z.lxor frame_num (pow2 current_order)) in
      outside ← (if buddy_addr <? mz_base z then mret true
                 else e ← add64 (mz_base z) (mz_size z); mret (e <=? buddy_addr));
      if (outside : bool) then mret stop else
      clean ← block_is_free db buddy_addr current_order;
      if negb clean then mret stop else
      '(removed, z', m') ← remove_from_free_list z m current_order buddy_addr;
      if negb removed then mret (current_addr, current_order, z', m') else
      coalesce n' db (bump_free_pages (fun p => wsub64 p 1) current_order z') m'
        (Z.min current_addr buddy_addr) (S current_order)
  end.

Definition free_to_zone (db : option PdbWorld) (z : MemoryZone) (m : Memory)
    (addr : Z) (order : nat) : outcome (MemoryZone * Memory) :=
  if addr =? 0 then mret (z, m) else
  linked ← (if fb_magic (m addr) =? FREE_BLOCK_MAGIC
            then already_linked z (m addr) (frame_of addr) else mret false);
  if (linked : bool) then mret (z, m) else
  '(a, o, z1, m1) ← coalesce (MAX_ORDER - order) db z m addr order;
  '(ok, z2, m2) ← add_free_block z1 m1 o a;
  mret (if (ok : bool) then bump_free_pages (fun p => wadd64 p 1) o z2 else z2, m2).

(** ** The allocator and the state it shares *)

(** The allocation counters of [mm-vmstat] that the allocator bumps. *)
Inductive Counter :=
| PgAllocNormal | PgAllocDma | PgAllocHigh | PgFreeNormal | PgFreeDma | PgFreeHigh.

#[global] Instance Counter_eq_dec : EqDecision Counter.
Proof. solve_decision. Defined.

(** [k_wmark] is [None] while no watermark callback is registered, and
    otherwise the arguments of the calls made so far (latest first): the
    callback itself belongs to another crate.  [k_watched] is
    [mm_traits::WATCHED_FRAME]. *)
Record Kernel := mkKernel {
  k_zones : list MemoryZone;
  k_stats : MemoryStats;
  k_initialized : bool;
  k_mem : Memory;
  k_pdb : option PdbWorld;
  k_watched : Z;
  k_vmstat : Counter -> Z;
  k_wmark : option (list (Z * Z))
}.

Definition k_set_zone (i : nat) (z : MemoryZone) (m : Memory) (k : Kernel) : Kernel :=
  mkKernel (<[i := z]> (k_zones k)) (k_stats k) (k_initialized k) m (k_pdb k)
    (k_watched k) (k_vmstat k) (k_wmark k).
Definition k_map_stats (f : MemoryStats -> MemoryStats) (k : Kernel) : Kernel :=
  mkKernel (k_zones k) (f (k_stats k)) (k_initialized k) (k_mem k) (k_pdb k)
    (k_watched k) (k_vmstat k) (k_wmark k).
Definition k_set_pdb (p : option PdbWorld) (k : Kernel) : Kernel :=
  mkKernel (k_zones k) (k_stats k) (k_initialized k) (k_mem k) p
    (k_watched k) (k_vmstat k) (k_wmark k).
Definition k_set_wmark (v : option (list (Z * Z))) (k : Kernel) : Kernel :=
  mkKernel (k_zones k) (k_stats k) (k_initialized k) (k_mem k) (k_pdb k)
    (k_watched k) (k_vmstat k) v.
Definition k_set_initialized (b : bool) (k : Kernel) : Kernel :=
  mkKernel (k_zones k) (k_stats k) b (k_mem k) (k_pdb k)
    (k_watched k) (k_vmstat k) (k_wmark k).
Definition set_frame_watch (phys : Z) (k : Kernel) : Kernel :=
  mkKernel (k_zones k) (k_stats k) (k_initialized k) (k_mem k) (k_pdb k)
    phys (k_vmstat k) (k_wmark k).

(** [mm_vmstat::add] *)
Definition vmstat_add (c : Counter) (n : Z) (k : Kernel) : Kernel :=
  mkKernel (k_zones k) (k_stats k) (k_initialized k) (k_mem k) (k_pdb k) (k_watched k)
    (fun c' => if decide (c = c') then wadd64 (k_vmstat k c') n else k_vmstat k c') (k_wmark k).

Definition BuddyAllocator_new : list MemoryZone :=
  [MemoryZone_new Dma; MemoryZone_new Normal; MemoryZone_new High].

(** ** [alloc] *)

Definition zone_order (z : option ZoneType) : list nat :=
  match z with
  | Some Dma => [0; 1; 2]%nat
  | Some Normal => [1; 2; 0]%nat
  | Some High => [2; 1; 0]%nat
  | None => [1; 2; 0]%nat
  end.

Definition alloc_counter (zone_idx : nat) : Counter :=
  match zone_idx with
  | O => PgAllocDma
  | S O => PgAllocNormal
  | _ => PgAllocHigh
  end.

(** [cb(zone_idx, zone.total_free_pages())] when a callback is registered. *)
Definition notify_watermark (zone_idx : nat) (z : MemoryZone) (k : Kernel) : outcome Kernel :=
  match k_wmark k with
  | None => mret k
  | Some calls =>
      t ← total_free_pages z;
      mret (k_set_wmark (Some ((Z.of_nat zone_idx, t) :: calls)) k)
  end.

Fixpoint mark_allocated_range (w : PdbWorld) (a i : Z) (n : nat) : outcome PdbWorld :=
  match n with
  | O => mret w
  | S n' =>
      x ← add64 a (i * FRAME_SIZE);
      mark_allocated_range (mark_allocated w x 0) a (i + 1) n'
  end.

Definition pdb_mark_allocated (a : Z) (order : nat) (k : Kernel) : outcome Kernel :=
  match k_pdb k with
  | None => mret k
  | Some w =>
      w' ← mark_allocated_range w a 0 (Z.to_nat (pow2 order));
      mret (k_set_pdb (Some w') k)
  end.

Fixpoint try_zones (order : nat) (idxs : list nat) (k : Kernel)
    : outcome (result Z MmError * Kernel) :=
  match idxs with
  | [] => mret (Err OutOfMemory, k_map_stats record_failure k)
  | i :: idxs' =>
      z ← or_fault (k_zones k !! i);
      if MemoryZone_is_empty z then try_zones order idxs' k else
      '(r, z', m') ← alloc_from_zone (k_pdb k) z (k_mem k) order;
      let k1 := k_set_zone i z' m' k in
      match r with
      | None => try_zones order idxs' k1
      | Some addr =>
          let k2 := k_map_stats (record_alloc (pow2 order * FRAME_SIZE)) k1 in
          let k3 := vmstat_add (alloc_counter i) (pow2 order) k2 in
          k4 ← notify_watermark i z' k3;
          k5 ← pdb_mark_allocated addr order k4;
          mret (Ok addr, k5)
      end
  end.

Definition alloc (req : AllocRequest) (k : Kernel) : outcome (result Z MmError * Kernel) :=
  if (MAX_ORDER <? ar_order req)%nat then mret (Err InvalidOrder, k)
  else try_zones (ar_order req) (zone_order (ar_zone req)) k.

(** ** [free] *)

Definition free_counter (t : ZoneType) : Counter :=
  match t with Dma => PgFreeDma | Normal => PgFreeNormal | High => PgFreeHigh end.

(** Is a watched frame inside the block being freed? *)
Definition watch_hit (watched addr : Z) (order : nat) : outcome bool :=
  if watched =? 0 then mret false
  else e ← add64 addr (block_bytes order); mret ((addr <=? watched) && (watched <? e)).

Fixpoint mark_free_range (w : PdbWorld) (a i : Z) (n : nat) : outcome PdbWorld :=
  match n with
  | O => mret w
  | S n' =>
      x ← add64 a (i * FRAME_SIZE);
      '(_, w') ← mark_free w x;
      mark_free_range w' a (i + 1) n'
  end.

Definition pdb_mark_free (a : Z) (order : nat) (k : Kernel) : outcome Kernel :=
  match k_pdb k with
  | None => mret k
  | Some w =>
      w' ← mark_free_range w a 0 (Z.to_nat (pow2 order));
      mret (k_set_pdb (Some w') k)
  end.

(** [validate_free] on the first frame, when a page database is registered. *)
Definition pdb_validate (a : Z) (k : Kernel) : outcome (bool * Kernel) :=
  match k_pdb k with
  | None => mret (true, k)
  | Some w =>
      '(r, w') ← validate_free w a;
      mret (match r with Ok _ => true | Err _ => false end, k_set_pdb (Some w') k)
  end.

Definition free (addr : Z) (order : nat) (k : Kernel) : outcome (result unit MmError * Kernel) :=
  if (MAX_ORDER <? order)%nat then mret (Err InvalidOrder, k) else
  aligned ← is_aligned addr FRAME_SIZE;
  if negb aligned then mret (Err NotAligned, k) else
  hit ← watch_hit (k_watched k) addr order;
  if (hit : bool) then mret (Ok tt, k) else
  '(valid, k1) ← pdb_validate addr k;
  if negb valid then mret (Err DoubleFree, k1) else
  let t := for_address addr in
  z ← or_fault (k_zones k1 !! zone_index t);
  if MemoryZone_is_empty z then mret (Err ZoneNotFound, k1) else
  k2 ← pdb_mark_free addr order k1;
  '(z', m') ← free_to_zone (k_pdb k2) z (k_mem k2) addr order;
  let k3 := k_set_zone (zone_index t) z' m' k2 in
  let k4 := k_map_stats (record_free (pow2 order * FRAME_SIZE)) k3 in
  mret (Ok tt, vmstat_add (free_counter t) (pow2 order) k4).

(** ** The [FrameAllocator] trait implementation *)

Definition result_ok {A E} (r : result A E) : option A :=
  match r with Ok a => Some a | Err _ => None end.

Definition alloc_frame (k : Kernel) : outcome (option Z * Kernel) :=
  '(r, k') ← alloc (AllocRequest_new 0) k; mret (result_ok r, k').

Definition free_frame (addr : Z) (k : Kernel) : outcome Kernel :=
  '(_, k') ← free addr 0 k; mret k'.

Definition frames_order (count : Z) : outcome nat :=
  p ← next_power_of_two count; mret (trailing_zeros p).

Definition alloc_frames (count : Z) (k : Kernel) : outcome (option Z * Kernel) :=
  if count =? 0 then mret (None, k) else
  order ← frames_order count;
  '(r, k') ← alloc (AllocRequest_new order) k;
  mret (result_ok r, k').

Definition free_frames (addr count : Z) (k : Kernel) : outcome Kernel :=
  if count =? 0 then mret k else
  order ← frames_order count;
  '(_, k') ← free addr order k;
  mret k'.

(** ** Boot: [init], [add_region], [add_to_zone] *)

(** The largest order that fits the remaining bytes and the alignment of the
    frame, searched downwards from [order]. *)
Fixpoint fit_order (order : nat) (frame_num remaining : Z) : nat :=
  match order with
  | O => O
  | S order' =>
      if (pow2 order * FRAME_SIZE <=? remaining) && (Z.land frame_num (pow2 order - 1) =? 0)
      then order
      else fit_order order' frame_num remaining
  end.

Definition scrubbed_block : FreeBlock := mkFB 0 0 0 0 PAD0.

(** [while remaining >= FRAME_SIZE]; [fuel] bounds the number of blocks. *)
Fixpoint add_blocks (fuel : nat) (z : MemoryZone) (m : Memory) (s : MemoryStats)
    (addr remaining : Z) : outcome (MemoryZone * Memory * MemoryStats) :=
  match fuel with
  | O => OutOfFuel
  | S fuel' =>
      if remaining <? FRAME_SIZE then mret (z, m, s) else
      let order := fit_order MAX_ORDER (frame_of addr) remaining in
      let block_size := pow2 order * FRAME_SIZE in
      let m1 := mem_write m addr scrubbed_block in
      '(ok, z', m') ← add_free_block z m1 order addr;
      let z'' := if (ok : bool) then bump_free_pages (fun p => wadd64 p 1) order z' else z' in
      let s' := if (ok : bool) then stats_add_region block_size s else s in
      addr' ← add64 addr block_size;
      remaining' ← sub64 remaining block_size;
      add_blocks fuel' z'' m' s' addr' remaining'
  end.

(** Initialise an empty zone or extend its range to the hull of both regions. *)
Definition grow_zone (z : MemoryZone) (start size : Z) : outcome MemoryZone :=
  if MemoryZone_is_empty z then mret (MemoryZone_init z start size)
  else
    e1 ← add64 start size;
    e2 ← add64 (mz_base z) (mz_size z);
    let new_base := Z.min start (mz_base z) in
    sz ← sub64 (Z.max e1 e2) new_base;
    mret (set_zone_range z new_base sz).

Definition add_to_zone (t : ZoneType) (start size : Z) (k : Kernel) : outcome Kernel :=
  z ← or_fault (k_zones k !! zone_index t);
  z' ← grow_zone z start size;
  let '(addr, remaining) :=
    if (start =? 0) && (FRAME_SIZE <=? size)
    then (start + FRAME_SIZE, size - FRAME_SIZE) else (start, size) in
  '(z'', m', s') ← add_blocks (S (Z.to_nat (remaining / FRAME_SIZE))) z' (k_mem k) (k_stats k)
                     addr remaining;
  mret (k_map_stats (fun _ => s') (k_set_zone (zone_index t) z'' m' k)).

(** [while current < end], at most once per zone. *)
Fixpoint add_region_loop (fuel : nat) (current stop : Z) (k : Kernel) : outcome Kernel :=
  match fuel with
  | O => OutOfFuel
  | S fuel' =>
      if current <? stop then
        let t := for_address current in
        let ze := Z.min (zone_end t) stop in
        region_size ← sub64 ze current;
        k' ← (if FRAME_SIZE <=? region_size then add_to_zone t current region_size k else mret k);
        add_region_loop fuel' ze stop k'
      else mret k
  end.

Definition add_region (start size : Z) (k : Kernel) : outcome Kernel :=
  stop ← add64 start size;
  add_region_loop 4 start stop k.

Fixpoint init_regions (regions : list (Z * Z * bool)) (k : Kernel) : outcome Kernel :=
  match regions with
  | [] => mret k
  | (start, len, usable) :: rest =>
      if negb usable || (len =? 0) then init_regions rest k else
      start_aligned ← page_align_up start;
      e ← add64 start len;
      end_aligned ← page_align_down e;
      if end_aligned <=? start_aligned then init_regions rest k else
      k' ← add_region start_aligned (end_aligned - start_aligned) k;
      init_regions rest k'
  end.

Definition buddy_init (regions : list (Z * Z * bool)) (k : Kernel) : outcome Kernel :=
  k' ← init_regions regions k; mret (k_set_initialized true k').

(** ** [mark_used] *)

(** Orders [order], [order+1], ..., [MAX_ORDER] in turn ([n] left). *)
Fixpoint mark_used_frame (n order : nat) (t : ZoneType) (frame : Z) (k : Kernel) : outcome Kernel :=
  match n with
  | O => mret k
  | S n' =>
      z ← or_fault (k_zones k !! zone_index t);
      block_addr ← mul64 (Z.ldiff frame (pow2 order - 1)) FRAME_SIZE;
      '(removed, z', m') ← remove_from_free_list z (k_mem k) order block_addr;
      if (removed : bool) then
        let z'' := bump_free_pages (fun p => wsub64 p 1) order z' in
        mret (k_map_stats (stats_sub_free (pow2 order * FRAME_SIZE))
                (k_set_zone (zone_index t) z'' m' k))
      else mark_used_frame n' (S order) t frame (k_set_zone (zone_index t) z' m' k)
  end.

Fixpoint mark_used_frames (n : nat) (frame : Z) (k : Kernel) : outcome Kernel :=
  match n with
  | O => mret k
  | S n' =>
      addr ← mul64 frame FRAME_SIZE;
      k' ← mark_used_frame (S MAX_ORDER) 0 (for_address addr) frame k;
      mark_used_frames n' (frame + 1) k'
  end.

Definition mark_used (start len : Z) (k : Kernel) : outcome Kernel :=
  a ← page_align_down start;
  let start_frame := a / FRAME_SIZE in
  e1 ← add64 start len;
  e2 ← add64 e1 FRAME_SIZE;
  e3 ← sub64 e2 1;
  let end_frame := e3 / FRAME_SIZE in
  mark_used_frames (Z.to_nat (end_frame - start_frame)) start_frame k.

(** ** Inspection: [free_at_order], [zone_info], [verify_free_lists] *)

Fixpoint free_at_order_loop (order : nat) (zs : list MemoryZone) (total : Z) : outcome Z :=
  match zs with
  | [] => mret total
  | z :: zs' =>
      l ← or_fault (mz_free_lists z !! order);
      t ← add64 total (flh_count l);
      free_at_order_loop order zs' t
  end.

Definition free_at_order (order : nat) (k : Kernel) : outcome Z :=
  if (MAX_ORDER <? order)%nat then mret 0 else free_at_order_loop order (k_zones k) 0.

Definition zone_info (z : MemoryZone) : outcome (Z * Z * list Z * bool) :=
  t ← total_free_pages z;
  mret (zs_total_pages (mz_stats z), t, flh_count <$> mz_free_lists z, MemoryZone_is_empty z).

(** Walk at most [n] blocks of a chain; returns the number of blocks counted
    and whether a bad header was met. *)
Fixpoint verify_walk (n : nat) (m : Memory) (order : nat) (walk_addr walk_count : Z) : Z * bool :=
  match n with
  | O => (walk_count, false)
  | S n' =>
      let wb := m walk_addr in
      if negb (fb_magic wb =? FREE_BLOCK_MAGIC) then (walk_count, true)
      else if negb (fb_order wb =? Z.of_nat order) then (walk_count, true)
      else if fb_next wb =? 0 then (walk_count + 1, false)
      else verify_walk n' m order (addr_of (fb_next wb)) (walk_count + 1)
  end.

(** (good, bad) reports for one list. *)
Definition verify_list (m : Memory) (order : nat) (l : FreeListHead) : Z * Z :=
  if (flh_count l =? 0) || (flh_head l =? 0) then (0, 0) else
  let addr := addr_of (flh_head l) in
  if negb (canary_ok (m addr) order) then (0, 1)
  else
    let max_walk := if flh_count l <? 256 then flh_count l else 256 in
    let '(walked, chain_bad) := verify_walk (Z.to_nat max_walk) m order addr 0 in
    let mismatch := (walked <? 256) && negb (walked =? flh_count l) in
    (1, (if chain_bad then 1 else 0) + (if mismatch then 1 else 0)).

Definition verify_zone (m : Memory) (z : MemoryZone) : Z * Z :=
  foldr (fun '(g, b) '(g', b') => (g + g', b + b')) (0, 0)
    (imap (fun order l => verify_list m order l) (mz_free_lists z)).

Definition verify_free_lists (k : Kernel) : Z * Z :=
  foldr (fun '(g, b) '(g', b') => (g + g', b + b')) (0, 0)
    (verify_zone (k_mem k) <$> k_zones k).
