(* ===== verification/BuddyInv.v ===== *)
(** * The buddy allocator: the zone invariant and its preservation

    [zone_inv z m db L] relates a zone, the memory and the page database to
    ghost lists [L order] of the frame numbers of the free blocks: the heads
    and counts describe those lists, the headers in memory link them in both
    directions, the blocks are aligned, inside the zone and pairwise disjoint,
    every page of a block is free in the page database, and among the free
    pages only list nodes carry the canary.  The lemmas show that each list
    operation implements the corresponding operation on [L]. *)
From S2P Require Import Prelude Addr Zone PageDb Buddy.

(** ** Frame numbers and addresses *)

Lemma frame_of_mul f : frame_of (f * 4096) = f.
Proof. unfold frame_of. rewrite shiftr_page. apply Z.div_mul. lia. Qed.

Lemma addr_of_mul f : 0 <= f -> f * 4096 < U64 -> addr_of f = f * 4096.
Proof.
  intros H0 H1. unfold addr_of, shl64. rewrite Z.shiftl_mul_pow2 by lia.
  apply Z.mod_small. change (2 ^ Z.of_nat FRAME_SHIFT) with 4096. lia.
Qed.

Lemma pow2_max o : (o <= MAX_ORDER)%nat -> 1 <= pow2 o <= 1024.
Proof.
  intros Ho. pose proof (pow2_le 0 o ltac:(lia)). pose proof (pow2_le o 10 Ho).
  rewrite pow2_0 in *. change (pow2 10) with 1024 in *. lia.
Qed.

Lemma block_bytes_mul o : (o <= MAX_ORDER)%nat -> block_bytes o = pow2 o * 4096.
Proof.
  intros Ho. unfold block_bytes, shl64. rewrite Z.shiftl_mul_pow2 by lia.
  change (2 ^ Z.of_nat FRAME_SHIFT) with 4096. pose proof (pow2_max o Ho).
  apply Z.mod_small. unfold U64. lia.
Qed.

(** The block of [2^o] frames from [f] lies in the zone. *)
Definition in_range (z : MemoryZone) (o : nat) (f : Z) : Prop :=
  mz_base z <= f * 4096 /\ (f + pow2 o) * 4096 <= mz_base z + mz_size z.

Definition page_in_zone (z : MemoryZone) (p : Z) : Prop :=
  mz_base z <= p * 4096 < mz_base z + mz_size z.

Definition zone_range_ok (z : MemoryZone) : Prop :=
  0 <= mz_base z /\ 0 <= mz_size z /\ mz_base z + mz_size z < U64.

Lemma block_in_zone_true z o f :
  zone_range_ok z -> (o <= MAX_ORDER)%nat ->
  block_in_zone z (f * 4096) o = true <-> in_range z o f.
Proof.
  intros (Hb & Hs & He) Ho. unfold block_in_zone, checked_add, in_range.
  rewrite block_bytes_mul by done.
  destruct (Z.ltb_spec (mz_base z + mz_size z) U64); [|lia].
  destruct (Z.ltb_spec (f * 4096 + pow2 o * 4096) U64).
  - rewrite andb_true_iff, !Z.leb_le. lia.
  - split; [done|]. lia.
Qed.

Definition disjoint_blocks (o1 : nat) (f1 : Z) (o2 : nat) (f2 : Z) : Prop :=
  f1 + pow2 o1 <= f2 \/ f2 + pow2 o2 <= f1.

(** Pages the allocator may hand out: all of them before the page database is
    registered, those it lists as free afterwards. *)
Definition Fof (db : option PdbWorld) (p : Z) : Prop :=
  match db with
  | Some w => page_free (pw_db w) (p * 4096) = true
  | None => True
  end.

(** ** Chains *)

Definition node (m : Memory) (o : nat) (f next prev : Z) : Prop :=
  fb_magic (m (f * 4096)) = FREE_BLOCK_MAGIC /\
  fb_order (m (f * 4096)) = Z.of_nat o /\
  fb_next (m (f * 4096)) = next /\
  fb_prev (m (f * 4096)) = prev.

(** [seg m o prev l next]: the nodes of [l] are linked in order, the first one
    points back to [prev] and the last one on to [next]. *)
Fixpoint seg (m : Memory) (o : nat) (prev : Z) (l : list Z) (next : Z) : Prop :=
  match l with
  | [] => True
  | f :: l' => node m o f (List.hd next l') prev /\ seg m o f l' next
  end.

Lemma node_frame m m' o f n p :
  m' (f * 4096) = m (f * 4096) -> node m o f n p -> node m' o f n p.
Proof. unfold node. by intros ->. Qed.

Lemma seg_frame m m' o p l n :
  (forall f, f ∈ l -> m' (f * 4096) = m (f * 4096)) -> seg m o p l n -> seg m' o p l n.
Proof.
  revert p. induction l as [|f l IH]; intros p Hm; simpl; [done|].
  intros [Hn Hs]. split; [eapply node_frame; [|done]; apply Hm; set_solver|].
  apply IH; [|done]. intros g Hg. apply Hm. set_solver.
Qed.

Lemma seg_app m o p l1 l2 n :
  seg m o p (l1 ++ l2) n <->
  seg m o p l1 (List.hd n l2) /\ seg m o (default p (last l1)) l2 n.
Proof.
  revert p. induction l1 as [|f l1 IH]; intros p; [simpl; tauto|].
  rewrite last_cons. simpl. rewrite IH.
  replace (List.hd n (l1 ++ l2)) with (List.hd (List.hd n l2) l1) by (by destruct l1).
  destruct (last l1); simpl; tauto.
Qed.

Lemma seg_node m o p l1 f l2 n :
  seg m o p (l1 ++ f :: l2) n -> node m o f (List.hd n l2) (default p (last l1)).
Proof. rewrite seg_app. simpl. tauto. Qed.

Lemma node_canary m o f n p : node m o f n p -> canary_ok (m (f * 4096)) o = true.
Proof. intros (H1 & H2 & _). unfold canary_ok. by rewrite H1, H2, !Z.eqb_refl. Qed.

Lemma mem_write_eq m a b : mem_write m a b a = b.
Proof. unfold mem_write. by rewrite Z.eqb_refl. Qed.

Lemma mem_write_ne m a b a' : a <> a' -> mem_write m a b a' = m a'.
Proof. intros Hne. unfold mem_write. by destruct (Z.eqb_spec a a'). Qed.

Lemma mem_write_page m f b g :
  mem_write m (f * 4096) b (g * 4096) = if decide (f = g) then b else m (g * 4096).
Proof.
  case_decide as H; [subst; apply mem_write_eq|]. apply mem_write_ne. lia.
Qed.

(** ** The invariant *)

Definition upd (L : nat -> list Z) (o : nat) (l : list Z) : nat -> list Z :=
  fun o' => if decide (o = o') then l else L o'.

Lemma upd_eq L o l : upd L o l o = l.
Proof. unfold upd. by rewrite decide_True. Qed.

Lemma upd_ne L o l o' : o <> o' -> upd L o l o' = L o'.
Proof. intros. unfold upd. by rewrite decide_False. Qed.

Record zone_inv (z : MemoryZone) (m : Memory) (db : option PdbWorld) (L : nat -> list Z) : Prop := {
  zi_range : zone_range_ok z;
  zi_len : length (mz_free_lists z) = S MAX_ORDER;
  zi_list : forall o, (o <= MAX_ORDER)%nat ->
    mz_free_lists z !! o = Some (mkFLH (List.hd 0 (L o)) (Z.of_nat (length (L o))));
  zi_out : forall o, (MAX_ORDER < o)%nat -> L o = [];
  zi_seg : forall o, seg m o 0 (L o) 0;
  zi_nodup : forall o, NoDup (L o);
  zi_block : forall o f, f ∈ L o -> 0 < f /\ (pow2 o | f) /\ in_range z o f;
  zi_disj : forall o1 f1 o2 f2, f1 ∈ L o1 -> f2 ∈ L o2 -> (o1, f1) <> (o2, f2) ->
    disjoint_blocks o1 f1 o2 f2;
  zi_free : forall o f p, f ∈ L o -> f <= p < f + pow2 o -> Fof db p;
  zi_canary : forall p, page_in_zone z p -> Fof db p -> (forall o, p ∉ L o) ->
    fb_magic (m (p * 4096)) <> FREE_BLOCK_MAGIC
}.

(** A page covered by one of the free blocks. *)
Definition free_page (L : nat -> list Z) (p : Z) : Prop :=
  exists o f, f ∈ L o /\ f <= p < f + pow2 o.

(** The free blocks other than (and apart from) the given one. *)
Definition apart (L : nat -> list Z) (o : nat) (f : Z) : Prop :=
  forall o' f', f' ∈ L o' -> disjoint_blocks o f o' f'.

(** The parts of a zone that list operations leave alone. *)
Definition same_shape (z z' : MemoryZone) : Prop :=
  mz_type z' = mz_type z /\ mz_base z' = mz_base z /\ mz_size z' = mz_size z.

(** Memory changes only in the pages [P]. *)
Definition writes_only (P : Z -> Prop) (m m' : Memory) : Prop :=
  forall p, ~ P p -> m' (p * 4096) = m (p * 4096).

Section zone_facts.
Context {z : MemoryZone} {m : Memory} {db : option PdbWorld} {L : nat -> list Z}.
Context (Hinv : zone_inv z m db L).

Lemma listed_order o f : f ∈ L o -> (o <= MAX_ORDER)%nat.
Proof using Hinv.
  intros Hf. destruct (decide (o <= MAX_ORDER)%nat) as [|Hn]; [done|].
  rewrite (zi_out _ _ _ _ Hinv o) in Hf by lia. set_solver.
Qed.

Lemma listed_bounds o f : f ∈ L o -> 0 < f /\ f * 4096 < U64 /\ addr_of f = f * 4096.
Proof using Hinv.
  intros Hf. destruct (zi_block _ _ _ _ Hinv o f Hf) as (H0 & _ & Hr).
  destruct (zi_range _ _ _ _ Hinv) as (? & ? & ?). pose proof (pow2_pos o).
  unfold in_range in Hr. split; [done|]. split; [lia|]. apply addr_of_mul; lia.
Qed.

Lemma listed_in_zone o f : f ∈ L o -> block_in_zone z (f * 4096) o = true.
Proof using Hinv.
  intros Hf. apply block_in_zone_true; [apply (zi_range _ _ _ _ Hinv)|by eapply listed_order|].
  apply (zi_block _ _ _ _ Hinv o f Hf).
Qed.

Lemma listed_page o f p : f ∈ L o -> f <= p < f + pow2 o -> page_in_zone z p.
Proof using Hinv.
  intros Hf Hp. destruct (zi_block _ _ _ _ Hinv o f Hf) as (_ & _ & Hr).
  unfold in_range, page_in_zone in *. lia.
Qed.

Lemma listed_unique o f o' : f ∈ L o -> f ∈ L o' -> o = o'.
Proof using Hinv.
  intros H1 H2. destruct (decide (o = o')) as [|Hne]; [done|].
  destruct (zi_disj _ _ _ _ Hinv o f o' f H1 H2) as [H|H]; [congruence| |];
    pose proof (pow2_pos o); pose proof (pow2_pos o'); lia.
Qed.

(** The only list node inside a listed block is its first page. *)
Lemma listed_interior o f p o' : f ∈ L o -> f <= p < f + pow2 o -> p ∈ L o' -> p = f /\ o' = o.
Proof using Hinv.
  intros Hf Hp Hl. destruct (decide ((o, f) = (o', p))) as [He|Hne]; [by simplify_eq|].
  destruct (zi_disj _ _ _ _ Hinv o f o' p Hf Hl Hne) as [H|H];
    pose proof (pow2_pos o'); lia.
Qed.

Lemma listed_node o f l1 l2 :
  L o = l1 ++ f :: l2 -> node m o f (List.hd 0 l2) (default 0 (last l1)).
Proof using Hinv.
  intros He. pose proof (zi_seg _ _ _ _ Hinv o) as Hs. rewrite He in Hs. by eapply seg_node.
Qed.

Lemma zone_inv_shrink o l z' m' :
  (o <= MAX_ORDER)%nat -> same_shape z z' ->
  mz_free_lists z' = <[o := mkFLH (List.hd 0 l) (Z.of_nat (length l))]> (mz_free_lists z) ->
  (forall f, f ∈ l -> f ∈ L o) -> NoDup l -> seg m' o 0 l 0 ->
  (forall o' f, o' <> o -> f ∈ L o' -> m' (f * 4096) = m (f * 4096)) ->
  (forall p, page_in_zone z p -> Fof db p -> p ∉ l -> (forall o', o' <> o -> p ∉ L o') ->
     fb_magic (m' (p * 4096)) <> FREE_BLOCK_MAGIC) ->
  zone_inv z' m' db (upd L o l).
Proof using Hinv.
  intros Ho (Ht & Hb & Hs) Hl Hsub Hnd Hseg Hm Hc.
  assert (forall o' f, f ∈ upd L o l o' -> f ∈ L o') as Hsub'.
  { intros o' f. unfold upd. case_decide; [subst; apply Hsub|done]. }
  destruct Hinv as [Ir Il Ili Io Is In Ib Id If Ic].
  constructor.
  - unfold zone_range_ok in *. by rewrite Hb, Hs.
  - by rewrite Hl, length_insert.
  - intros o' Ho'. rewrite Hl. unfold upd. case_decide as He.
    + subst. rewrite list_lookup_insert_eq; [done|]. rewrite Il. lia.
    + rewrite list_lookup_insert_ne by done. by apply Ili.
  - intros o' Ho'. rewrite upd_ne by lia. by apply Io.
  - intros o'. unfold upd. case_decide as He; [by subst|].
    eapply seg_frame; [|apply Is]. intros f Hf. by apply (Hm o').
  - intros o'. unfold upd. case_decide; [done|apply In].
  - intros o' f Hf%Hsub'. unfold in_range. rewrite Hb, Hs. by apply Ib.
  - intros o1 f1 o2 f2 H1%Hsub' H2%Hsub'. by apply Id.
  - intros o' f p Hf%Hsub'. by apply If.
  - intros p Hp HF Hnl. apply Hc; [|done| |].
    + unfold page_in_zone in *. by rewrite <- Hb, <- Hs.
    + specialize (Hnl o). by rewrite upd_eq in Hnl.
    + intros o' Hne. specialize (Hnl o'). by rewrite upd_ne in Hnl.
Qed.

Lemma zone_inv_grow o f z' m' :
  (o <= MAX_ORDER)%nat -> same_shape z z' ->
  mz_free_lists z' = <[o := mkFLH f (Z.of_nat (length (L o)) + 1)]> (mz_free_lists z) ->
  0 < f -> (pow2 o | f) -> in_range z o f -> apart L o f ->
  (forall p, f <= p < f + pow2 o -> Fof db p) ->
  seg m' o 0 (f :: L o) 0 ->
  (forall o' g, o' <> o -> g ∈ L o' -> m' (g * 4096) = m (g * 4096)) ->
  (forall p, p <> f -> p ∉ L o -> m' (p * 4096) = m (p * 4096)) ->
  zone_inv z' m' db (upd L o (f :: L o)).
Proof using Hinv.
  intros Ho (Ht & Hb & Hs) Hl Hf0 Hdiv Hr Hap HF Hseg Hm Hm'.
  assert (forall o' g, g ∈ upd L o (f :: L o) o' -> (o' = o /\ g = f) \/ g ∈ L o') as Hin.
  { intros o' g. unfold upd. case_decide; [subst|by right].
    rewrite list_elem_of_In. simpl. rewrite <- list_elem_of_In. intros [->|?]; auto. }
  destruct Hinv as [Ir Il Ili Io Is In Ib Id If Ic].
  constructor.
  - unfold zone_range_ok in *. by rewrite Hb, Hs.
  - by rewrite Hl, length_insert.
  - intros o' Ho'. rewrite Hl. unfold upd. case_decide as He.
    + subst. rewrite list_lookup_insert_eq; [|rewrite Il; lia]. do 2 f_equal. simpl. lia.
    + rewrite list_lookup_insert_ne by done. by apply Ili.
  - intros o' Ho'. rewrite upd_ne by lia. by apply Io.
  - intros o'. unfold upd. case_decide as He; [by subst|].
    eapply seg_frame; [|apply Is]. intros g Hg. by apply (Hm o').
  - intros o'. unfold upd. case_decide; [|apply In]. constructor; [|apply In].
    intros Hfl. destruct (Hap o f Hfl); pose proof (pow2_pos o); lia.
  - intros o' g Hg. unfold in_range. rewrite Hb, Hs.
    destruct (Hin _ _ Hg) as [[-> ->]|?]; [done|by apply Ib].
  - intros o1 f1 o2 f2 H1 H2 Hne.
    destruct (Hin _ _ H1) as [[-> ->]|?], (Hin _ _ H2) as [[-> ->]|?]; try done.
    + by apply Hap.
    + destruct (Hap o1 f1) as [?|?]; [done|by right|by left].
    + by apply Id.
  - intros o' g p Hg Hp. destruct (Hin _ _ Hg) as [[-> ->]|?]; [by apply HF|by eapply If].
  - intros p Hp HFp Hnl.
    assert (p <> f /\ p ∉ L o) as [Hpf HpL].
    { specialize (Hnl o). rewrite upd_eq in Hnl. by apply not_elem_of_cons. }
    rewrite Hm' by done. apply Ic; [|done|].
    + unfold page_in_zone in *. by rewrite <- Hb, <- Hs.
    + intros o'. destruct (decide (o = o')) as [<-|Hne]; [done|].
      specialize (Hnl o'). by rewrite upd_ne in Hnl.
Qed.

End zone_facts.

(** ** Specifications of the list operations *)

Section list_ops.
Context {z : MemoryZone} {m : Memory} {db : option PdbWorld} {L : nat -> list Z}.
Context (Hinv : zone_inv z m db L).

Lemma count_bound o : Z.of_nat (length (L o)) * pow2 o <= 2 ^ 52.
Proof using Hinv.
  apply NoDup_multiples_length; [apply pow2_pos|lia|apply (zi_nodup _ _ _ _ Hinv)|].
  intros f Hf. destruct (zi_block _ _ _ _ Hinv o f Hf) as (H0 & Hd & Hr).
  destruct (zi_range _ _ _ _ Hinv) as (? & ? & ?). unfold in_range, U64 in *.
  split; [lia|]. split; [done|]. lia.
Qed.

Lemma count_bound' o : Z.of_nat (length (L o)) <= 2 ^ 52.
Proof using Hinv. pose proof (count_bound o). pose proof (pow2_pos o). nia. Qed.

Lemma listed_free_page o f : f ∈ L o -> free_page L f.
Proof using Type. intros Hf. exists o, f. pose proof (pow2_pos o). split; [done|lia]. Qed.

(** Writing the header of an unlisted frame and linking the old head to it. *)
Lemma link_old_head_spec o f b :
  f ∉ L o -> 0 < f -> fb_magic b = FREE_BLOCK_MAGIC -> fb_order b = Z.of_nat o ->
  fb_next b = List.hd 0 (L o) -> fb_prev b = 0 ->
  exists m2, link_old_head (mem_write m (f * 4096) b) o (List.hd 0 (L o)) f = Done m2 /\
    seg m2 o 0 (f :: L o) 0 /\
    (forall p, p <> f -> p ∉ L o -> m2 (p * 4096) = m (p * 4096)).
Proof using Hinv.
  intros HfL Hf0 Hb1 Hb2 Hb3 Hb4. unfold link_old_head.
  pose proof (zi_seg _ _ _ _ Hinv o) as Hseg. pose proof (zi_nodup _ _ _ _ Hinv o) as Hnd.
  destruct (L o) as [|h t] eqn:HL.
  { eexists. split; [done|]. split.
    - split; [|done]. unfold node. by rewrite mem_write_eq.
    - intros p Hp _. by rewrite mem_write_page, decide_False. }
  destruct (listed_bounds Hinv o h) as (Hh0 & Hh1 & Hha); [rewrite HL; left|].
  simpl. destruct (Z.eqb_spec h 0); [lia|]. rewrite Hha.
  apply not_elem_of_cons in HfL as [Hfh Hft]. apply NoDup_cons in Hnd as [Hht _].
  rewrite mem_write_page, decide_False by done.
  destruct Hseg as [Hn Ht]. rewrite (node_canary _ _ _ _ _ Hn).
  eexists. split; [done|]. split; [split; [|split]|].
  - unfold node. rewrite mem_write_page, decide_False, mem_write_eq by done. done.
  - unfold node. rewrite mem_write_eq. simpl. destruct Hn as (? & ? & ? & ?). done.
  - eapply seg_frame; [|exact Ht]. intros g Hg.
    rewrite !mem_write_page, !decide_False; [done|by intros ->|by intros ->].
  - intros p Hp [Hph HpL]%not_elem_of_cons. by rewrite !mem_write_page, !decide_False.
Qed.

(** Linking a fresh, clean block. *)
Lemma add_free_block_spec o f :
  (o <= MAX_ORDER)%nat -> 0 < f -> (pow2 o | f) -> in_range z o f -> apart L o f ->
  (forall p, f <= p < f + pow2 o -> Fof db p) ->
  fb_magic (m (f * 4096)) <> FREE_BLOCK_MAGIC ->
  exists z' m', add_free_block z m o (f * 4096) = Done (true, z', m') /\
    zone_inv z' m' db (upd L o (f :: L o)) /\ same_shape z z' /\
    mz_stats z' = mz_stats z /\ writes_only (fun p => p = f \/ free_page L p) m m'.
Proof using Hinv.
  intros Ho Hf0 Hdiv Hr Hap HF Hmg. pose proof (pow2_pos o) as Hpos.
  assert (forall o', f ∉ L o') as HfL.
  { intros o' Hfl. destruct (Hap o' f Hfl); pose proof (pow2_pos o'); lia. }
  unfold add_free_block.
  destruct (Z.eqb_spec (f * 4096) 0); [lia|].
  rewrite (proj2 (block_in_zone_true z o f (zi_range _ _ _ _ Hinv) Ho) Hr). simpl.
  rewrite (zi_list _ _ _ _ Hinv o Ho). simpl.
  rewrite frame_of_mul. destruct (Z.eqb_spec f 0); [lia|].
  destruct (Z.eqb_spec (fb_magic (m (f * 4096))) FREE_BLOCK_MAGIC); [done|]. simpl.
  rewrite (Z.mod_small (Z.of_nat o)) by (unfold MAX_ORDER in *; lia).
  destruct (link_old_head_spec o f (mkFB FREE_BLOCK_MAGIC (List.hd 0 (L o)) 0 (Z.of_nat o) PAD0))
    as (m2 & -> & Hseg2 & Hfr); try done.
  pose proof (count_bound' o) as Hcb. unfold add64, U64. simpl.
  destruct (Z.ltb_spec (Z.of_nat (length (L o)) + 1) (2 ^ 64)); [|lia]. simpl.
  eexists _, _. split; [reflexivity|]. split; [|split; [done|split; [done|]]].
  - apply (zone_inv_grow Hinv); try done.
    intros o' g Hne Hg. apply Hfr; [by intros ->; eapply HfL|].
    intros Hgo. apply Hne. by eapply (listed_unique Hinv).
  - intros p Hp. apply Hfr; [tauto|]. intros HpL. apply Hp. right. by apply (listed_free_page o).
Qed.

(** An empty list yields nothing and changes nothing. *)
Lemma pop_free_block_nil o :
  (o <= MAX_ORDER)%nat -> L o = [] -> pop_free_block z m o = Done (None, z, m).
Proof using Hinv.
  intros Ho HL. unfold pop_free_block. rewrite (zi_list _ _ _ _ Hinv o Ho), HL. done.
Qed.

Lemma relink_head_spec o f t c :
  L o = f :: t ->
  exists m2, relink_head z (mem_write m (f * 4096) cleared_block) o (mkFLH f c) (List.hd 0 t)
      = (List.hd 0 t, c, c, m2) /\
    seg m2 o 0 t 0 /\ fb_magic (m2 (f * 4096)) = 0 /\
    (forall p, p ∉ L o -> m2 (p * 4096) = m (p * 4096)).
Proof using Hinv.
  intros HL. pose proof (zi_seg _ _ _ _ Hinv o) as Hseg. pose proof (zi_nodup _ _ _ _ Hinv o) as Hnd.
  rewrite HL in Hseg, Hnd. apply NoDup_cons in Hnd as [Hft Hndt]. destruct Hseg as [Hnf Hseg].
  unfold relink_head. destruct t as [|h t]; simpl.
  { eexists. split; [done|]. split; [done|]. split; [by rewrite mem_write_eq|].
    intros p Hp. rewrite HL in Hp. apply not_elem_of_cons in Hp as [Hp _].
    rewrite mem_write_page, decide_False; done. }
  assert (h ∈ L o) as Hh by (rewrite HL; right; left).
  destruct (listed_bounds Hinv o h Hh) as (Hh0 & Hh1 & Hha).
  apply not_elem_of_cons in Hft as [Hfh Hft]. apply NoDup_cons in Hndt as [Hht _].
  destruct (Z.eqb_spec h 0); [lia|]. rewrite Hha, (listed_in_zone Hinv o h Hh). simpl.
  rewrite mem_write_page, decide_False by done. destruct Hseg as [Hnh Hseg].
  rewrite (node_canary _ _ _ _ _ Hnh).
  eexists. split; [done|]. split; [split|split].
  - unfold node. rewrite mem_write_eq. simpl. by destruct Hnh as (? & ? & ? & ?).
  - eapply seg_frame; [|exact Hseg]. intros g Hg.
    rewrite !mem_write_page, !decide_False; [done|by intros ->|by intros ->].
  - by rewrite mem_write_page, decide_False, mem_write_eq.
  - intros p Hp. rewrite HL in Hp. apply not_elem_of_cons in Hp as [Hpf [Hph _]%not_elem_of_cons].
    by rewrite !mem_write_page, !decide_False.
Qed.

(** Popping takes the first block of a non-empty list. *)
Lemma pop_free_block_cons o f t :
  (o <= MAX_ORDER)%nat -> L o = f :: t ->
  exists z' m', pop_free_block z m o = Done (Some (f * 4096), z', m') /\
    zone_inv z' m' db (upd L o t) /\ same_shape z z' /\ mz_stats z' = mz_stats z /\
    writes_only (free_page L) m m'.
Proof using Hinv.
  intros Ho HL. assert (f ∈ L o) as Hf by (rewrite HL; left).
  destruct (listed_bounds Hinv o f Hf) as (Hf0 & Hf1 & Hfa).
  pose proof (listed_node Hinv o f [] t HL) as Hn. simpl in Hn.
  unfold pop_free_block. rewrite (zi_list _ _ _ _ Hinv o Ho), HL.
  assert (exists c, Z.of_nat (length (f :: t)) = c /\ c - 1 = Z.of_nat (length t) /\ 1 <= c)
    as (c & -> & Hc & Hc1) by (eexists; split; [reflexivity|]; simpl; lia).
  simpl. destruct (Z.eqb_spec c 0); [lia|].
  destruct (Z.eqb_spec f 0); [lia|]. rewrite Hfa, (listed_in_zone Hinv o f Hf). simpl.
  rewrite (node_canary _ _ _ _ _ Hn). simpl.
  destruct Hn as (_ & _ & -> & _).
  destruct (relink_head_spec o f t c HL) as (m2 & -> & Hseg & Hfm & Hfr).
  rewrite Z.eqb_refl. simpl. destruct (Z.eqb_spec c 0); [lia|]. unfold sub64.
  destruct (Z.leb_spec 1 c); [|lia]. simpl.
  eexists _, _. split; [reflexivity|]. split; [|split; [done|split; [done|]]].
  - apply (zone_inv_shrink Hinv); try done.
    + simpl. by rewrite Hc.
    + intros g Hg. rewrite HL. by right.
    + pose proof (zi_nodup _ _ _ _ Hinv o) as Hnd. rewrite HL in Hnd. by apply NoDup_cons in Hnd as [_ ?].
    + intros o' g Hne Hg. apply Hfr. intros Hgo. apply Hne. by eapply (listed_unique Hinv).
    + intros p Hp HF Hpt Hpo. destruct (decide (p = f)) as [->|Hpf]; [by rewrite Hfm|].
      assert (p ∉ L o) as HpL by (rewrite HL; by apply not_elem_of_cons).
      rewrite Hfr by done. apply (zi_canary _ _ _ _ Hinv); [done|done|].
      intros o'. destruct (decide (o' = o)) as [->|]; auto.
  - intros p Hp. apply Hfr. intros HpL. apply Hp. by apply (listed_free_page o).
Qed.

(** Skipping [f] in its predecessor [q] and unlinking it. *)
Lemma unlink_node_spec o l1 q f l2 :
  L o = l1 ++ q :: f :: l2 ->
  let m1 := mem_write m (q * 4096) (set_next (List.hd 0 l2) (m (q * 4096))) in
  fb_next (m1 (f * 4096)) = List.hd 0 l2 /\
  (List.hd 0 l2 <> 0 -> canary_ok (m1 (addr_of (List.hd 0 l2))) o = true) /\
  seg (unlink_node m1 (f * 4096)) o 0 (l1 ++ q :: l2) 0 /\
  fb_magic (unlink_node m1 (f * 4096) (f * 4096)) = 0 /\
  (forall p, p ∉ L o -> unlink_node m1 (f * 4096) (p * 4096) = m (p * 4096)).
Proof using Hinv.
  intros HL m1. pose proof (zi_seg _ _ _ _ Hinv o) as Hseg. pose proof (zi_nodup _ _ _ _ Hinv o) as Hnd.
  rewrite HL in Hseg, Hnd. apply seg_app in Hseg as (Hs1 & Hnq & Hnf & Hs2). simpl in Hs1.
  apply NoDup_app in Hnd as (Hnd1 & Hd & Hnd2).
  apply NoDup_cons in Hnd2 as [[Hqf Hq2]%not_elem_of_cons Hnd2].
  apply NoDup_cons in Hnd2 as [Hf2 Hnd2].
  assert (forall g, g ∈ l1 -> g <> q /\ g <> f /\ g ∉ l2) as Hl1.
  { intros g Hg. apply Hd in Hg. rewrite !not_elem_of_cons in Hg. tauto. }
  assert (m1 (f * 4096) = m (f * 4096)) as Hm1f.
  { unfold m1. by rewrite mem_write_page, decide_False. }
  assert (forall p, p ∉ L o -> p <> q /\ p <> f /\ p ∉ l2) as HpL.
  { intros p. rewrite HL, not_elem_of_app, !not_elem_of_cons. tauto. }
  destruct Hnf as (Hf1 & Hf3 & Hfn & Hfp). rewrite Hm1f.
  split; [done|]. unfold unlink_node. rewrite Hm1f, Hfn, Hfp.
  destruct l2 as [|h l2]; simpl.
  - split; [done|]. split; [|split].
    + apply seg_app. split; [|split; [|done]].
      * eapply seg_frame; [|exact Hs1]. intros g (Hgq & Hgf & _)%Hl1. unfold m1.
        by rewrite !mem_write_page, !decide_False.
      * unfold node. rewrite mem_write_page, decide_False by done. unfold m1.
        rewrite mem_write_eq. simpl. by destruct Hnq as (? & ? & ? & ?).
    + by rewrite mem_write_eq.
    + intros p (? & ? & ?)%HpL. unfold m1. by rewrite !mem_write_page, !decide_False.
  - destruct (listed_bounds Hinv o h) as (Hh0 & _ & ->).
    { rewrite HL. rewrite elem_of_app, !elem_of_cons. tauto. }
    destruct (Z.eqb_spec h 0); [lia|].
    apply not_elem_of_cons in Hq2 as [Hqh Hq2]. apply not_elem_of_cons in Hf2 as [Hfh Hf2].
    apply NoDup_cons in Hnd2 as [Hh2 Hnd2]. destruct Hs2 as [Hnh Hs2].
    assert (m1 (h * 4096) = m (h * 4096)) as Hm1h.
    { unfold m1. by rewrite mem_write_page, decide_False. }
    rewrite Hm1h. split; [intros _; by eapply node_canary|].
    assert (forall g, g <> f -> g <> h -> g <> q ->
      mem_write (mem_write m1 (h * 4096) (set_prev q (m (h * 4096)))) (f * 4096) cleared_block
        (g * 4096) = m (g * 4096)) as Hm3.
    { intros g ? ? ?. unfold m1. by rewrite !mem_write_page, !decide_False. }
    split; [|split].
    + apply seg_app. split; [|split; [|split]].
      * eapply seg_frame; [|exact Hs1]. intros g (Hgq & Hgf & Hg2)%Hl1.
        apply not_elem_of_cons in Hg2 as [? _]. by apply Hm3.
      * unfold node. rewrite !mem_write_page, !decide_False by done. unfold m1.
        rewrite mem_write_eq. simpl. by destruct Hnq as (? & ? & ? & ?).
      * unfold node. rewrite mem_write_page, decide_False, mem_write_eq by done. simpl.
        by destruct Hnh as (? & ? & ? & ?).
      * eapply seg_frame; [|exact Hs2]. intros g Hg. apply Hm3; by intros ->.
    + by rewrite mem_write_eq.
    + intros p (? & ? & Hp2)%HpL. apply not_elem_of_cons in Hp2 as [? _]. by apply Hm3.
Qed.

(** The guards of [remove_from_free_list] that precede the list access. *)
Lemma remove_prefix o f :
  (o <= MAX_ORDER)%nat -> 0 < f -> in_range z o f ->
  remove_from_free_list z m o (f * 4096) =
    (if Z.of_nat (length (L o)) =? 0 then mret (false, z, m) else
     if List.hd 0 (L o) =? f
     then '(r, z', m') ← pop_free_block z m o;
          mret (bool_decide (r = Some (f * 4096)), z', m')
     else
       let target := m (f * 4096) in
       if negb (fb_magic target =? FREE_BLOCK_MAGIC) then mret (false, z, m) else
       if negb (fb_order target =? Z.of_nat o) then mret (false, z, m) else
       if fb_prev target =? 0 then mret (false, z, m) else
       let prev_addr := addr_of (fb_prev target) in
       let prev_block := m prev_addr in
       if negb (canary_ok prev_block o) then mret (false, z, m) else
       if negb (fb_next prev_block =? f) then mret (false, z, m) else
       let m1 := mem_write m prev_addr (set_next (fb_next target) prev_block) in
       let next := fb_next (m1 (f * 4096)) in
       if negb (next =? 0) && negb (canary_ok (m1 (addr_of next)) o)
       then mret (false, z, m1)
       else
         c ← sub64 (Z.of_nat (length (L o))) 1;
         mret (true, set_free_list z o (mkFLH (List.hd 0 (L o)) c), unlink_node m1 (f * 4096))).
Proof using Hinv.
  intros Ho Hf Hr. unfold remove_from_free_list.
  destruct (Z.eqb_spec (f * 4096) 0); [lia|].
  rewrite (proj2 (block_in_zone_true z o f (zi_range _ _ _ _ Hinv) Ho) Hr). simpl.
  rewrite frame_of_mul. destruct (Z.eqb_spec f 0); [lia|].
  by rewrite (zi_list _ _ _ _ Hinv o Ho).
Qed.

(** Asking for a block that is not in the list of its order has no effect. *)
Lemma remove_from_free_list_absent o f :
  (o <= MAX_ORDER)%nat -> 0 < f -> f ∉ L o -> Fof db f ->
  remove_from_free_list z m o (f * 4096) = Done (false, z, m).
Proof using Hinv.
  intros Ho Hf0 HfL HF.
  destruct (block_in_zone z (f * 4096) o) eqn:Hbz; last first.
  { unfold remove_from_free_list. by rewrite Hbz, orb_true_r. }
  pose proof (proj1 (block_in_zone_true z o f (zi_range _ _ _ _ Hinv) Ho) Hbz) as Hr.
  rewrite remove_prefix by done. destruct (L o) as [|h t] eqn:HL; [done|].
  destruct (Z.eqb_spec (Z.of_nat (length (h :: t))) 0) as [He|_]; [simpl in He; lia|]. cbn [List.hd].
  destruct (Z.eqb_spec h f) as [->|_]; [exfalso; apply HfL; left|].
  destruct (Z.eqb_spec (fb_magic (m (f * 4096))) FREE_BLOCK_MAGIC) as [Hmg|]; [|done]. simpl.
  destruct (Z.eqb_spec (fb_order (m (f * 4096))) (Z.of_nat o)) as [Hor|]; [|done].
  exfalso. apply (zi_canary _ _ _ _ Hinv f) in Hmg; [done| |done|].
  - unfold in_range, page_in_zone in *. pose proof (pow2_pos o). nia.
  - intros o' Ho'. apply list_elem_of_split in Ho' as (l1 & l2 & Hl).
    destruct (listed_node Hinv o' f l1 l2 Hl) as (_ & Ho2 & _).
    assert (o' = o) as -> by lia. apply HfL. rewrite <- HL, Hl.
    apply elem_of_app. right. left.
Qed.

(** A listed block is unlinked, wherever it stands in its list. *)
Lemma remove_from_free_list_present o f l1 l2 :
  (o <= MAX_ORDER)%nat -> L o = l1 ++ f :: l2 ->
  exists z' m', remove_from_free_list z m o (f * 4096) = Done (true, z', m') /\
    zone_inv z' m' db (upd L o (l1 ++ l2)) /\ same_shape z z' /\ mz_stats z' = mz_stats z /\
    writes_only (free_page L) m m'.
Proof using Hinv.
  intros Ho HL. assert (f ∈ L o) as Hf by (rewrite HL, elem_of_app, elem_of_cons; tauto).
  destruct (zi_block _ _ _ _ Hinv o f Hf) as (Hf0 & _ & Hr).
  rewrite remove_prefix by done.
  assert (Z.of_nat (length (L o)) = Z.of_nat (length (l1 ++ l2)) + 1) as Hlen
    by (rewrite HL, !length_app; simpl; lia).
  destruct (Z.eqb_spec (Z.of_nat (length (L o))) 0); [lia|].
  destruct l1 as [|q l1 _] using rev_ind.
  { rewrite HL. cbn [List.hd app]. rewrite Z.eqb_refl.
    destruct (pop_free_block_cons o f l2 Ho HL) as (z' & m' & -> & Hz). simpl.
    rewrite bool_decide_true by done. eauto. }
  rewrite <- app_assoc in HL. simpl in HL. rewrite <- app_assoc. cbn [app].
  destruct (unlink_node_spec o l1 q f l2 HL) as (Hnx & Hcan & Hseg & Hfm & Hfr).
  assert (q ∈ L o) as Hq by (rewrite HL, elem_of_app, elem_of_cons; tauto).
  destruct (listed_bounds Hinv o q Hq) as (Hq0 & _ & Hqa).
  pose proof (listed_node Hinv o q l1 (f :: l2) HL) as Hnq.
  pose proof (listed_node Hinv o f (l1 ++ [q]) l2 ltac:(by rewrite <- app_assoc)) as Hnf.
  rewrite last_snoc in Hnf. simpl in Hnf.
  pose proof (zi_nodup _ _ _ _ Hinv o) as Hnd.
  destruct (Z.eqb_spec (List.hd 0 (L o)) f) as [He|_].
  { exfalso. rewrite HL in Hnd, He. apply NoDup_app in Hnd as (_ & Hd & Hnd).
    apply NoDup_cons in Hnd as [Hnd _]. destruct l1 as [|x l1]; simpl in He; subst.
    - apply Hnd. left.
    - eapply Hd; [left|]. right. left. }
  cbv zeta. destruct Hnf as (-> & -> & -> & ->). rewrite !Z.eqb_refl. cbn [negb].
  destruct (Z.eqb_spec q 0); [lia|]. rewrite Hqa, (node_canary _ _ _ _ _ Hnq). cbn [negb].
  destruct Hnq as (_ & _ & -> & _). simpl. rewrite Z.eqb_refl. cbn [negb]. rewrite Hnx.
  assert (negb (List.hd 0 l2 =? 0) && negb (canary_ok (mem_write m (q * 4096)
    (set_next (List.hd 0 l2) (m (q * 4096))) (addr_of (List.hd 0 l2))) o) = false) as ->.
  { destruct (Z.eqb_spec (List.hd 0 l2) 0) as [|Hne]; [done|]. by rewrite (Hcan Hne). }
  unfold sub64. destruct (Z.leb_spec 1 (Z.of_nat (length (L o)))); [|lia]. simpl.
  eexists _, _. split; [reflexivity|]. split; [|split; [done|split; [done|]]].
  - apply (zone_inv_shrink Hinv); try done.
    + simpl. rewrite HL. do 2 f_equal; [by destruct l1|].
      rewrite !length_app in *. simpl in *. lia.
    + intros g. rewrite HL, !elem_of_app, !elem_of_cons. tauto.
    + rewrite HL in Hnd. apply NoDup_app in Hnd as (Hn1 & Hd & Hnd).
      apply NoDup_cons in Hnd as [Hnq [Hnf2 Hnd]%NoDup_cons].
      apply NoDup_app. split; [done|]. split.
      * intros x Hx%Hd. rewrite !not_elem_of_cons in *. tauto.
      * apply NoDup_cons. split; [|done]. rewrite not_elem_of_cons in Hnq. tauto.
    + intros o' g Hne Hg. apply Hfr. intros Hgo. apply Hne. by eapply (listed_unique Hinv).
    + intros p Hp HF Hpt Hpo. destruct (decide (p = f)) as [->|Hpf]; [by rewrite Hfm|].
      assert (p ∉ L o) as HpL.
      { rewrite HL. rewrite !not_elem_of_app, !not_elem_of_cons in *. tauto. }
      rewrite Hfr by done. apply (zi_canary _ _ _ _ Hinv); [done|done|].
      intros o'. destruct (decide (o' = o)) as [->|]; auto.
  - intros p Hp. apply Hfr. intros HpL. apply Hp. by apply (listed_free_page o).
Qed.

End list_ops.

(** ** The page database check *)

Lemma frames_free_spec d f i n :
  0 <= f -> 0 <= i -> (f + i + Z.of_nat n) * 4096 <= U64 ->
  exists b, frames_free d (f * 4096) i n = Done b /\
    (b = true <-> forall j, i <= j < i + Z.of_nat n -> page_free d ((f + j) * 4096) = true).
Proof.
  revert i. induction n as [|n IH]; intros i Hf Hi Hb; cbn [frames_free].
  { exists true. split; [done|]. split; [|done]. intros _ j Hj. lia. }
  unfold add64, FRAME_SIZE. destruct (Z.ltb_spec (f * 4096 + i * 4096) U64); [|lia].
  simpl. replace (f * 4096 + i * 4096) with ((f + i) * 4096) by lia.
  destruct (page_free d ((f + i) * 4096)) eqn:Hp.
  - destruct (IH (i + 1)) as (b & -> & Hiff); [lia..|]. exists b. split; [done|].
    rewrite Hiff. split; intros Hall j Hj.
    + destruct (decide (j = i)) as [->|]; [done|]. apply Hall. lia.
    + apply Hall. lia.
  - exists false. split; [done|]. split; [done|]. intros Hall. rewrite Hall in Hp; [done|lia].
Qed.

Lemma block_is_free_spec db f o :
  0 <= f -> (f + pow2 o) * 4096 <= U64 ->
  exists b, block_is_free db (f * 4096) o = Done b /\
    (b = true <-> forall p, f <= p < f + pow2 o -> Fof db p).
Proof.
  intros Hf Hb. pose proof (pow2_pos o). unfold block_is_free, Fof. destruct db as [w|].
  - destruct (frames_free_spec (pw_db w) f 0 (Z.to_nat (pow2 o))) as (b & -> & Hiff); [lia..|].
    exists b. split; [done|]. rewrite Hiff. split; intros Hall p Hp.
    + replace p with (f + (p - f)) by lia. apply Hall. lia.
    + apply Hall. lia.
  - exists true. done.
Qed.

(** ** Per-order statistics *)

(** The counter of each order is the length of its list, up to the blocks
    [d] an operation in progress has taken off or not yet accounted for. *)
Definition stats_track (z : MemoryZone) (L : nat -> list Z) (d : nat -> Z) : Prop :=
  forall o, (o <= MAX_ORDER)%nat ->
    zs_free_pages (mz_stats z) !! o = Some (Z.of_nat (length (L o)) + d o).

Definition stats_ok (z : MemoryZone) (L : nat -> list Z) : Prop := stats_track z L (fun _ => 0).

Definition delta (o : nat) (x : Z) (d : nat -> Z) : nat -> Z :=
  fun o' => if decide (o = o') then d o' + x else d o'.

Lemma stats_track_stats z z' L d :
  mz_stats z' = mz_stats z -> stats_track z L d -> stats_track z' L d.
Proof. unfold stats_track. by intros ->. Qed.

Lemma stats_track_ext z L d d' :
  (forall o, d o = d' o) -> stats_track z L d -> stats_track z L d'.
Proof. intros He Ht o Ho. rewrite <- He. by apply Ht. Qed.

Lemma stats_track_upd z L d o l x :
  Z.of_nat (length l) + x = Z.of_nat (length (L o)) ->
  stats_track z L d -> stats_track z (upd L o l) (delta o x d).
Proof.
  intros Hl Ht o' Ho'. rewrite (Ht o' Ho'). unfold upd, delta. f_equal.
  case_decide; subst; lia.
Qed.

Lemma stats_track_bump z L d o g x :
  (o <= MAX_ORDER)%nat -> g (Z.of_nat (length (L o)) + d o) = Z.of_nat (length (L o)) + d o + x ->
  stats_track z L d -> stats_track (bump_free_pages g o z) L (delta o x d).
Proof.
  intros Ho Hg Ht o' Ho'. unfold bump_free_pages, delta. simpl.
  case_decide as He.
  - subst. rewrite list_lookup_alter_eq, (Ht o' Ho'). simpl. rewrite Hg. f_equal. lia.
  - rewrite list_lookup_alter_ne by done. by apply Ht.
Qed.

Lemma zone_inv_bump z m db L g o : zone_inv z m db L -> zone_inv (bump_free_pages g o z) m db L.
Proof. intros []. by constructor. Qed.

Lemma wadd64_small a b : 0 <= a + b < U64 -> wadd64 a b = a + b.
Proof. intros. by apply Z.mod_small. Qed.

Lemma wsub64_small a b : 0 <= a - b < U64 -> wsub64 a b = a - b.
Proof. intros. by apply Z.mod_small. Qed.

(** ** Transitivity of the frame conditions *)

Lemma same_shape_refl z : same_shape z z.
Proof. done. Qed.

Lemma same_shape_trans z1 z2 z3 : same_shape z1 z2 -> same_shape z2 z3 -> same_shape z1 z3.
Proof. unfold same_shape. intros (?&?&?) (?&?&?). split_and!; congruence. Qed.

Lemma page_in_zone_shape z z' p : same_shape z z' -> page_in_zone z' p <-> page_in_zone z p.
Proof. unfold same_shape, page_in_zone. intros (_ & -> & ->). done. Qed.

Lemma in_range_shape z z' o f : same_shape z z' -> in_range z' o f <-> in_range z o f.
Proof. unfold same_shape, in_range. intros (_ & -> & ->). done. Qed.

Lemma writes_only_trans (P1 P2 P : Z -> Prop) m1 m2 m3 :
  (forall p, P1 p -> P p) -> (forall p, P2 p -> P p) ->
  writes_only P1 m1 m2 -> writes_only P2 m2 m3 -> writes_only P m1 m3.
Proof.
  intros H1 H2 H12 H23 p Hp. rewrite H23; [apply H12|]; auto.
Qed.

Lemma writes_only_refl P m : writes_only P m m.
Proof. by intros p _. Qed.

Create HintDb buddy.
#[export] Hint Resolve same_shape_refl same_shape_trans zone_inv_bump pow2_pos : buddy.

(** ** Splitting and merging blocks *)

Lemma divide_order o o' f : (o <= o')%nat -> (pow2 o' | f) -> (pow2 o | f).
Proof. intros Ho Hd. etransitivity; [by apply pow2_divide|done]. Qed.

Lemma free_page_upd_cons L o f p :
  free_page (upd L o (f :: L o)) p <-> free_page L p \/ f <= p < f + pow2 o.
Proof.
  unfold free_page, upd. split.
  - intros (o' & g & Hg & Hp). case_decide; [subst|left; eauto].
    apply elem_of_cons in Hg as [->|Hg]; [by right|left; eauto].
  - intros [(o' & g & Hg & Hp)|Hp].
    + exists o', g. split; [|done]. case_decide; [subst; by right|done].
    + exists o, f. rewrite decide_True by done. split; [left|done].
Qed.

Lemma free_page_upd_remove L o l1 f l2 p :
  L o = l1 ++ f :: l2 ->
  free_page L p <-> free_page (upd L o (l1 ++ l2)) p \/ f <= p < f + pow2 o.
Proof.
  intros HL. unfold free_page, upd. split.
  - intros (o' & g & Hg & Hp). destruct (decide (o = o')) as [<-|Hne].
    + rewrite HL, elem_of_app, elem_of_cons in Hg.
      destruct (decide (g = f)) as [->|Hgf]; [by right|]. left. exists o, g.
      rewrite decide_True, elem_of_app by done. split; [tauto|done].
    + left. exists o', g. by rewrite decide_False.
  - intros [(o' & g & Hg & Hp)|Hp].
    + exists o', g. split; [|done]. case_decide; [subst|done].
      rewrite HL. rewrite elem_of_app in *. rewrite elem_of_cons. tauto.
    + exists o, f. rewrite HL, elem_of_app. split; [right; left|done].
Qed.

Lemma apart_upd_cons L o f o' g :
  apart L o' g -> disjoint_blocks o' g o f -> apart (upd L o (f :: L o)) o' g.
Proof.
  intros Ha Hd o'' h. unfold upd. case_decide; [subst|by apply Ha].
  rewrite elem_of_cons. intros [->|Hh]; [done|by apply Ha].
Qed.

Lemma apart_sub L L' o f :
  (forall o' g, g ∈ L' o' -> g ∈ L o') -> apart L o f -> apart L' o f.
Proof. intros Hs Ha o' g Hg. apply Ha. by apply Hs. Qed.

(** A block whose pages are free, in the zone and outside every listed block
    carries no canary anywhere. *)
Lemma apart_clean z m db L o f p :
  zone_inv z m db L -> apart L o f -> in_range z o f ->
  (forall q, f <= q < f + pow2 o -> Fof db q) -> f <= p < f + pow2 o ->
  fb_magic (m (p * 4096)) <> FREE_BLOCK_MAGIC.
Proof.
  intros Hinv Ha Hr HF Hp. apply (zi_canary _ _ _ _ Hinv); [|by apply HF|].
  - unfold in_range, page_in_zone in *. nia.
  - intros o' Hl. destruct (Ha o' p Hl); pose proof (pow2_pos o'); lia.
Qed.

(** Taking a listed block off its list leaves it apart from the others. *)
Lemma apart_removed z m db L o l1 f l2 :
  zone_inv z m db L -> L o = l1 ++ f :: l2 -> apart (upd L o (l1 ++ l2)) o f.
Proof.
  intros Hinv HL o' g Hg.
  assert (f ∈ L o) as Hf by (rewrite HL, elem_of_app, elem_of_cons; tauto).
  pose proof (zi_nodup _ _ _ _ Hinv o) as Hnd. rewrite HL in Hnd.
  apply NoDup_app in Hnd as (_ & Hd & [Hnf _]%NoDup_cons).
  unfold upd in Hg. case_decide as He.
  - subst o'. assert (g <> f) as Hne.
    { intros ->. apply elem_of_app in Hg as [Hg|Hg]; [|done]. apply (Hd f Hg). left. }
    apply (zi_disj _ _ _ _ Hinv); [done| |congruence].
    rewrite HL, elem_of_app, elem_of_cons. apply elem_of_app in Hg. tauto.
  - apply (zi_disj _ _ _ _ Hinv); [done|done|congruence].
Qed.

(** ** Buddies *)

Definition buddy (k : nat) (f : Z) : Z := Z.lxor f (pow2 k).

Lemma lxor_1 q : Z.lxor q 1 = if Z.even q then q + 1 else q - 1.
Proof.
  assert (forall r, Z.lxor (2 * r) 1 = 2 * r + 1) as Heven.
  { intros r. symmetry. apply Z.add_nocarry_lxor.
    change 1 with (Z.ones 1) at 1. rewrite Z.land_ones by lia. change (2 ^ 1) with 2.
    rewrite Z.mul_comm. apply Z.mod_mul. lia. }
  destruct (Z.even q) eqn:He.
  - apply Z.even_spec in He as [r ->]. apply Heven.
  - assert (Z.odd q = true) as Hodd by (by rewrite <- Z.negb_even, He).
    apply Z.odd_spec in Hodd as [r ->]. rewrite <- Heven, Z.lxor_assoc, Z.lxor_nilpotent, Z.lxor_0_r.
    rewrite Heven. lia.
Qed.

Lemma buddy_cases k f :
  (pow2 k | f) ->
  ((pow2 (S k) | f) /\ buddy k f = f + pow2 k) \/
  ((pow2 (S k) | f - pow2 k) /\ buddy k f = f - pow2 k).
Proof.
  intros [q ->]. unfold buddy.
  replace (Z.lxor (q * pow2 k) (pow2 k)) with (Z.lxor q 1 * pow2 k).
  2: { unfold pow2. rewrite <- !Z.shiftl_mul_pow2, Z.shiftl_lxor by lia.
       f_equal. rewrite Z.shiftl_mul_pow2; lia. }
  rewrite lxor_1, pow2_S. destruct (Z.even q) eqn:He.
  - apply Z.even_spec in He as [r ->]. left. split; [exists r; lia|lia].
  - assert (Z.odd q = true) as Hodd by (by rewrite <- Z.negb_even, He).
    apply Z.odd_spec in Hodd as [r ->]. right. split; [exists r; lia|lia].
Qed.

Lemma buddy_involutive k f : buddy k (buddy k f) = f.
Proof. unfold buddy. by rewrite Z.lxor_assoc, Z.lxor_nilpotent, Z.lxor_0_r. Qed.

Lemma buddy_ne k f : (pow2 k | f) -> buddy k f <> f.
Proof. intros Hd. pose proof (pow2_pos k). destruct (buddy_cases k f Hd) as [[_ ->]|[_ ->]]; lia. Qed.

(** No two buddies are free at the same order: free memory is not needlessly
    fragmented. *)
Definition coalesced (L : nat -> list Z) : Prop :=
  forall o f, (o < MAX_ORDER)%nat -> f ∈ L o -> buddy o f ∉ L o.

Lemma coalesced_cons L o f :
  (pow2 o | f) -> ((o < MAX_ORDER)%nat -> buddy o f ∉ L o) ->
  coalesced L -> coalesced (upd L o (f :: L o)).
Proof.
  intros Hd Hnb Hc o' g Ho'. unfold upd. case_decide as He; [subst|exact (Hc o' g Ho')].
  rewrite !elem_of_cons. intros [->|Hg] [Hb|Hb].
  - by apply (buddy_ne o' f).
  - by apply Hnb.
  - apply Hnb; [done|]. rewrite <- Hb. by rewrite buddy_involutive.
  - by apply (Hc o' g).
Qed.

Lemma coalesced_sub L L' :
  (forall o g, g ∈ L' o -> g ∈ L o) -> coalesced L -> coalesced L'.
Proof. intros Hs Hc o f Ho Hf Hb. apply (Hc o f Ho); by apply Hs. Qed.

Lemma upd_remove_sub L o l1 f l2 o' g :
  L o = l1 ++ f :: l2 -> g ∈ upd L o (l1 ++ l2) o' -> g ∈ L o'.
Proof.
  intros HL. unfold upd. case_decide; [subst|done]. rewrite HL, !elem_of_app, elem_of_cons. intros [?|?]; tauto.
Qed.
