(* ===== verification/BuddyZone.v ===== *)
(** * The buddy allocator: allocation from and freeing to one zone

    Functional specifications of [split_down], [alloc_from_zone], [coalesce]
    and [free_to_zone] over the ghost lists of [BuddyInv]: which pages leave or
    enter the free set, that the invariant and the per-order counters are
    kept, that only free pages are written, and that nothing faults. *)
From S2P Require Import Prelude Addr Zone PageDb Buddy BuddyInv.

Lemma in_range_bound z o f :
  zone_range_ok z -> in_range z o f -> (f + pow2 o) * 4096 < U64.
Proof. unfold zone_range_ok, in_range. lia. Qed.

(** The high half of an aligned block. *)
Lemma in_range_sub z o f o' f' :
  f <= f' -> f' + pow2 o' <= f + pow2 o -> in_range z o f -> in_range z o' f'.
Proof. unfold in_range. lia. Qed.

Lemma apart_sub_block L o f o' f' :
  f <= f' -> f' + pow2 o' <= f + pow2 o -> apart L o f -> apart L o' f'.
Proof.
  intros H1 H2 Ha o'' g Hg. destruct (Ha o'' g Hg) as [H|H]; unfold disjoint_blocks; lia.
Qed.

Lemma divide_high o f : (pow2 (S o) | f) -> (pow2 o | f + pow2 o).
Proof.
  intros Hd. apply Z.divide_add_r; [|done]. eapply divide_order; [|exact Hd]. lia.
Qed.

Lemma buddy_high s f : (pow2 (S s) | f) -> buddy s (f + pow2 s) = f.
Proof.
  intros Hd. assert (pow2 s | f) as Hd' by (eapply divide_order; [|exact Hd]; lia).
  destruct (buddy_cases s f Hd') as [[_ Hb]|[Hd2 _]].
  - by rewrite <- Hb, buddy_involutive.
  - exfalso. pose proof (pow2_pos s). destruct Hd as [a ->], Hd2 as [b Hb].
    rewrite pow2_S in Hb. assert ((2 * a - 1 - 2 * b) * pow2 s = 0) as E by lia.
    apply Z.mul_eq_0 in E. lia.
Qed.

(** Crediting one block to order [o] after adding it to the list. *)
Lemma stats_track_added z m db L d o f z' :
  zone_inv z m db L -> (o <= MAX_ORDER)%nat -> (forall o', 0 <= d o' <= 1) -> stats_track z L d ->
  mz_stats z' = mz_stats z ->
  stats_track (bump_free_pages (fun p => wadd64 p 1) o z') (upd L o (f :: L o)) d.
Proof.
  intros Hinv Ho Hd Hst Hz. pose proof (count_bound' Hinv o). pose proof (Hd o).
  eapply stats_track_ext; [|apply (stats_track_bump z' _ (delta o (-1) d) o _ 1);
    [lia| |apply stats_track_upd; [simpl; lia|by eapply stats_track_stats]]].
  - intros o'. unfold delta. case_decide; lia.
  - rewrite upd_eq. simpl. apply wadd64_small. unfold delta, U64. rewrite decide_True by done. lia.
Qed.

Lemma split_down_spec db order f n : forall z m L d,
  zone_inv z m db L -> stats_track z L d -> (forall o, 0 <= d o <= 1) ->
  (order + n <= MAX_ORDER)%nat -> 0 < f -> (pow2 (order + n) | f) ->
  in_range z (order + n) f -> apart L (order + n) f ->
  (forall p, f <= p < f + pow2 (order + n) -> Fof db p) ->
  exists z' m' L', split_down n z m order (f * 4096) = Done (z', m') /\
    zone_inv z' m' db L' /\ stats_track z' L' d /\ same_shape z z' /\
    writes_only (fun p => free_page L p \/ f <= p < f + pow2 (order + n)) m m' /\
    apart L' order f /\ (coalesced L -> coalesced L') /\
    (forall p, free_page L' p <->
       free_page L p \/ f + pow2 order <= p < f + pow2 (order + n)).
Proof.
  induction n as [|n IH]; intros z m L d Hinv Hst Hd01 Ho Hf0 Hdiv Hr Hap HF.
  { exists z, m, L. rewrite Nat.add_0_r in *.
    split_and!; try done. intros p. split; [tauto|]. intros [?|?]; [done|lia]. }
  rewrite Nat.add_succ_r in *. cbn [split_down]. set (s := (order + n)%nat) in *.
  pose proof (pow2_S s) as HS. pose proof (pow2_pos s) as Hs0.
  pose proof (in_range_bound _ _ _ (zi_range _ _ _ _ Hinv) Hr) as Hbd.
  rewrite block_bytes_mul by lia. unfold add64.
  destruct (Z.ltb_spec (f * 4096 + pow2 s * 4096) U64); [|lia]. simpl.
  replace (f * 4096 + pow2 s * 4096) with ((f + pow2 s) * 4096) by lia.
  destruct (add_free_block_spec Hinv s (f + pow2 s)) as (z1 & m1 & -> & Hinv1 & Hsh & Hst1 & Hw).
  { lia. } { lia. } { by apply divide_high. }
  { eapply in_range_sub; [| |exact Hr]; lia. }
  { eapply apart_sub_block; [| |exact Hap]; lia. }
  { intros p Hp. apply HF. lia. }
  { eapply apart_clean; [done|exact Hap|done|done|lia]. }
  simpl.
  destruct (IH (bump_free_pages (fun p => wadd64 p 1) s z1) m1
              (upd L s ((f + pow2 s) :: L s)) d) as (z2 & m2 & L2 & Heq & Hinv2 & Hst2 & Hsh2 & Hw2 & Hap2 & Hco2 & Hfp2).
  - by apply zone_inv_bump.
  - apply (stats_track_added z m db); try done; lia.
  - done.
  - lia.
  - done.
  - eapply divide_order; [|exact Hdiv]. lia.
  - apply (in_range_shape z z1); [done|]. eapply in_range_sub; [| |exact Hr]; lia.
  - apply apart_upd_cons; [eapply apart_sub_block; [| |exact Hap]; lia|]. left. lia.
  - intros p Hp. apply HF. lia.
  - exists z2, m2, L2. split_and!; try done.
    + eapply same_shape_trans; [exact Hsh|]. exact Hsh2.
    + eapply writes_only_trans; [| |exact Hw|exact Hw2]; cbv beta; intros p.
      * intros [->|?]; [right; lia|by left].
      * rewrite free_page_upd_cons. intuition lia.
    + intros Hco. apply Hco2, coalesced_cons; [by apply divide_high| |done].
      intros _. rewrite (buddy_high s f Hdiv). intros Hfl.
      destruct (Hap s f Hfl); lia.
    + intros p. rewrite Hfp2, free_page_upd_cons.
      pose proof (pow2_le order s ltac:(unfold s; lia)). intuition lia.
Qed.

(** What allocating a block of [order] from a zone achieves. *)
Record zone_alloc_spec (db : option PdbWorld) (z : MemoryZone) (m : Memory) (L : nat -> list Z)
    (order : nat) (f : Z) (z' : MemoryZone) (m' : Memory) (L' : nat -> list Z) : Prop := {
  za_inv : zone_inv z' m' db L';
  za_stats : stats_ok z' L';
  za_shape : same_shape z z';
  za_writes : writes_only (free_page L) m m';
  za_pos : 0 < f;
  za_aligned : (pow2 order | f);
  za_in : in_range z order f;
  za_apart : apart L' order f;
  za_free : forall p, f <= p < f + pow2 order -> Fof db p;
  za_coalesced : coalesced L -> coalesced L';
  za_pages : forall p, free_page L p <-> free_page L' p \/ f <= p < f + pow2 order
}.

Lemma alloc_found db z m L order c f t :
  zone_inv z m db L -> stats_ok z L -> (order <= c <= MAX_ORDER)%nat -> L c = f :: t ->
  exists z1 m1 z2 m2 L2,
    pop_free_block z m c = Done (Some (f * 4096), z1, m1) /\
    block_is_free db (f * 4096) c = Done true /\
    split_down (c - order) z1 m1 order (f * 4096) = Done (z2, m2) /\
    zone_alloc_spec db z m L order f (bump_free_pages (fun p => wsub64 p 1) c z2) m2 L2.
Proof.
  intros Hinv Hst Hc HL.
  destruct (pop_free_block_cons Hinv c f t ltac:(lia) HL) as (z1 & m1 & Hpop & Hinv1 & Hsh & Hst1 & Hw).
  assert (f ∈ L c) as Hf by (rewrite HL; left).
  destruct (zi_block _ _ _ _ Hinv c f Hf) as (Hf0 & Hdiv & Hr).
  pose proof (in_range_bound _ _ _ (zi_range _ _ _ _ Hinv) Hr) as Hbd.
  assert (forall p, f <= p < f + pow2 c -> Fof db p) as HF
    by (intros p; by apply (zi_free _ _ _ _ Hinv)).
  destruct (block_is_free_spec db f c) as (b & Hb & Hiff); [lia|lia|].
  assert (b = true) as -> by by apply Hiff.
  replace c with (order + (c - order))%nat in HF, Hdiv, Hr by lia.
  destruct (split_down_spec db order f (c - order) z1 m1 (upd L c t) (delta c 1 (fun _ => 0)))
    as (z2 & m2 & L2 & Hsp & Hinv2 & Hst2 & Hsh2 & Hw2 & Hap2 & Hco2 & Hfp2); try done.
  - apply stats_track_upd; [rewrite HL; simpl; lia|]. by eapply stats_track_stats.
  - intros o. unfold delta. case_decide; lia.
  - lia.
  - by apply (in_range_shape z z1).
  - replace (order + (c - order))%nat with c by lia.
    apply (apart_removed z m db L c [] f t Hinv HL).
  - exists z1, m1, z2, m2, L2. split_and!; try done. constructor; try done.
    + by apply zone_inv_bump.
    + eapply stats_track_ext; [|apply (stats_track_bump z2 L2 (delta c 1 (fun _ => 0)) c _ (-1));
        [lia| |exact Hst2]].
      * intros o. unfold delta. case_decide; lia.
      * unfold delta. rewrite decide_True by done. pose proof (count_bound' Hinv2 c).
        apply wsub64_small. unfold U64. lia.
    + eapply same_shape_trans; [exact Hsh|exact Hsh2].
    + eapply writes_only_trans; [| |exact Hw|exact Hw2]; [done|]. cbv beta. intros p.
      rewrite (free_page_upd_remove L c [] f t p HL). replace (order + (c - order))%nat with c by lia.
      done.
    + eapply divide_order; [|exact Hdiv]. lia.
    + eapply in_range_sub; [| |exact Hr]; [lia|].
      pose proof (pow2_le order (order + (c - order)) ltac:(lia)). lia.
    + intros p Hp. apply HF. pose proof (pow2_le order (order + (c - order)) ltac:(lia)). lia.
    + intros Hco. apply Hco2. eapply coalesced_sub; [|exact Hco].
      intros o g. by apply (upd_remove_sub L c [] f t).
    + intros p. rewrite Hfp2, (free_page_upd_remove L c [] f t p HL). simpl.
      replace (order + (c - order))%nat with c by lia.
      pose proof (pow2_pos order). pose proof (pow2_le order c ltac:(lia)). intuition lia.
Qed.

Lemma alloc_loop_spec db z m L order fuel cur :
  zone_inv z m db L -> stats_ok z L -> (order <= cur <= S MAX_ORDER)%nat ->
  (S MAX_ORDER - cur < fuel)%nat ->
  ((forall c, (cur <= c)%nat -> L c = []) /\
     alloc_loop fuel db z m order cur = Done (None, z, m)) \/
  ((exists c, (cur <= c)%nat /\ L c <> []) /\
   exists f z' m' L', alloc_loop fuel db z m order cur = Done (Some (f * 4096), z', m') /\
     zone_alloc_spec db z m L order f z' m' L').
Proof.
  intros Hinv Hst. revert cur. induction fuel as [|fuel IH]; intros cur Hcur Hfuel; [lia|].
  cbn [alloc_loop]. destruct (Nat.ltb_spec MAX_ORDER cur).
  { left. split; [|done]. intros c Hc. apply (zi_out _ _ _ _ Hinv). lia. }
  rewrite (zi_list _ _ _ _ Hinv cur) by lia. simpl.
  destruct (L cur) as [|f t] eqn:HL.
  - cbn [length Z.of_nat Z.eqb].
    destruct (IH (S cur)) as [[Hnil ->]|[(c & Hc & Hne) Hsome]]; [lia|lia| |].
    2: { right. split; [|done]. exists c. split; [lia|done]. }
    left. split; [|done]. intros c Hc. destruct (decide (c = cur)) as [->|]; [done|].
    apply Hnil. lia.
  - right. destruct (Z.eqb_spec (Z.of_nat (length (f :: t))) 0) as [He|_]; [simpl in He; lia|].
    destruct (alloc_found db z m L order cur f t Hinv Hst ltac:(lia) HL)
      as (z1 & m1 & z2 & m2 & L2 & -> & Hbf & Hsp & Hspec).
    split; [exists cur; split; [lia|by rewrite HL]|].
    simpl. rewrite Hbf. simpl. rewrite Hsp. simpl. eauto 10.
Qed.

(** [alloc_from_zone] succeeds exactly when some list of the requested order
    or above is non-empty; a failure leaves zone and memory untouched. *)
Lemma alloc_from_zone_spec db z m L order :
  zone_inv z m db L -> stats_ok z L -> (order <= MAX_ORDER)%nat ->
  ((forall c, (order <= c)%nat -> L c = []) /\
     alloc_from_zone db z m order = Done (None, z, m)) \/
  ((exists c, (order <= c)%nat /\ L c <> []) /\
   exists f z' m' L', alloc_from_zone db z m order = Done (Some (f * 4096), z', m') /\
     zone_alloc_spec db z m L order f z' m' L').
Proof.
  intros Hinv Hst Ho. apply alloc_loop_spec; [done|done|lia|]. unfold alloc_fuel. lia.
Qed.

(** ** Coalescing *)

Lemma apart_merge L k f g :
  apart L k f -> apart L k g -> (g = f + pow2 k \/ g = f - pow2 k) ->
  apart L (S k) (Z.min f g).
Proof.
  intros Hf Hg Hfg o h Hh. pose proof (pow2_S k). pose proof (pow2_pos k). pose proof (pow2_pos o).
  destruct (Hf o h Hh), (Hg o h Hh); unfold disjoint_blocks; lia.
Qed.

(** Bounds of the buddy of a block that lies in the zone. *)
Lemma buddy_bounds z k f :
  zone_range_ok z -> (S k <= MAX_ORDER)%nat -> 0 < f -> (pow2 k | f) -> in_range z k f ->
  0 <= buddy k f /\ (buddy k f + pow2 k) * 4096 <= U64 /\
  (pow2 (S k) | Z.min f (buddy k f)) /\
  (buddy k f = f + pow2 k \/ buddy k f = f - pow2 k).
Proof.
  intros Hz Hk Hf0 Hd Hr. pose proof (in_range_bound _ _ _ Hz Hr) as Hb.
  pose proof (pow2_pos k). pose proof (pow2_S k). pose proof (pow2_max (S k) Hk).
  destruct (buddy_cases k f Hd) as [[Hd' ->]|[Hd' ->]].
  - split; [lia|]. split; [|split; [by rewrite Z.min_l by lia|by left]].
    assert (pow2 (S k) | 2 ^ 52) as Hd52 by (change (2 ^ 52) with (pow2 52); apply pow2_divide; unfold MAX_ORDER in *; lia).
    unfold U64 in *. destruct Hd' as [q Hq], Hd52 as [r Hr52].
    assert (q < r) as Hqr by (apply (Z.mul_lt_mono_pos_r (pow2 (S k))); lia).
    pose proof (Z.mul_le_mono_nonneg_r (q + 1) r (pow2 (S k)) ltac:(lia) ltac:(lia)). lia.
  - split; [|split; [lia|split; [by rewrite Z.min_r by lia|by right]]].
    pose proof (Z.divide_pos_le _ _ Hf0 Hd). lia.
Qed.

(** What merging a freed block upwards achieves. *)
Record coalesce_spec (db : option PdbWorld) (z : MemoryZone) (m : Memory) (L : nat -> list Z)
    (k : nat) (f : Z) (o : nat) (g : Z) (z' : MemoryZone) (m' : Memory) (L' : nat -> list Z) : Prop := {
  co_inv : zone_inv z' m' db L';
  co_stats : stats_ok z' L';
  co_shape : same_shape z z';
  co_writes : writes_only (free_page L) m m';
  co_order : (o <= MAX_ORDER)%nat;
  co_pos : 0 < g;
  co_aligned : (pow2 o | g);
  co_in : in_range z o g;
  co_apart : apart L' o g;
  co_free : forall p, g <= p < g + pow2 o -> Fof db p;
  co_done : (o < MAX_ORDER)%nat -> buddy o g ∉ L' o;
  co_sub : forall o' h, h ∈ L' o' -> h ∈ L o';
  co_pages : forall p, (free_page L' p \/ g <= p < g + pow2 o) <-> (free_page L p \/ f <= p < f + pow2 k)
}.

(** A buddy that is listed is in the zone and its pages are free. *)
Lemma buddy_absent_stop db z m L k f :
  zone_inv z m db L -> (S k <= MAX_ORDER)%nat -> 0 < f -> (pow2 k | f) -> in_range z k f ->
  buddy k f ∉ L k -> (forall p, buddy k f <= p < buddy k f + pow2 k -> Fof db p) ->
  remove_from_free_list z m k (buddy k f * 4096) = Done (false, z, m).
Proof.
  intros Hinv Hk Hf0 Hd Hr Hn HF.
  destruct (buddy_bounds z k f (zi_range _ _ _ _ Hinv) Hk Hf0 Hd Hr) as (Hb0 & _).
  destruct (decide (buddy k f = 0)) as [->|Hne].
  { reflexivity. }
  apply (remove_from_free_list_absent Hinv); [lia|lia|done|].
  apply HF. pose proof (pow2_pos k). lia.
Qed.

Lemma coalesce_ok db n : forall z m L k f,
  zone_inv z m db L -> stats_ok z L -> (k + n = MAX_ORDER)%nat -> 0 < f -> (pow2 k | f) ->
  in_range z k f -> apart L k f -> (forall p, f <= p < f + pow2 k -> Fof db p) ->
  exists o g z' m' L', coalesce n db z m (f * 4096) k = Done (g * 4096, o, z', m') /\
    coalesce_spec db z m L k f o g z' m' L'.
Proof.
  induction n as [|n IH]; intros z m L k f Hinv Hst Hk Hf0 Hd Hr Hap HF.
  { exists k, f, z, m, L. split; [done|]. by constructor; try done; lia. }
  pose proof (zi_range _ _ _ _ Hinv) as Hz.
  destruct (buddy_bounds z k f Hz ltac:(lia) Hf0 Hd Hr) as (Hb0 & Hb1 & Hbd & Hbc).
  assert (buddy k f ∉ L k -> exists o g z' m' L',
    Done (f * 4096, k, z, m) = Done (g * 4096, o, z', m') /\
    coalesce_spec db z m L k f o g z' m' L') as Hstop.
  { intros Hn. exists k, f, z, m, L. split; [done|]. by constructor; try done; lia. }
  cbn [coalesce]. rewrite frame_of_mul. change (Z.lxor f (pow2 k)) with (buddy k f).
  pose proof (pow2_pos k) as Hk0. rewrite addr_of_mul by lia.
  assert (forall b, b ∈ L k -> mz_base z <= b * 4096 < mz_base z + mz_size z) as Hlz.
  { intros b Hb. apply (listed_page Hinv k b); [done|lia]. }
  destruct (Z.ltb_spec (buddy k f * 4096) (mz_base z)) as [Hlt|Hge].
  { simpl. apply Hstop. intros Hl%Hlz. lia. }
  destruct Hz as (Hz1 & Hz2 & Hz3). unfold add64.
  destruct (Z.ltb_spec (mz_base z + mz_size z) U64); [|lia]. simpl.
  destruct (Z.leb_spec (mz_base z + mz_size z) (buddy k f * 4096)) as [Hle|Hlt].
  { simpl. apply Hstop. intros Hl%Hlz. lia. }
  destruct (block_is_free_spec db (buddy k f) k Hb0 Hb1) as (b & -> & Hiff).
  destruct b; simpl.
  2: { apply Hstop. intros Hl. assert (false = true) as [=]; apply Hiff.
       intros p. by apply (zi_free _ _ _ _ Hinv). }
  specialize (proj1 Hiff eq_refl) as HFb.
  destruct (decide (buddy k f ∈ L k)) as [Hin|Hn]; last first.
  { rewrite (buddy_absent_stop db z m L k f); try done; [|lia]. simpl. by apply Hstop. }
  apply list_elem_of_split in Hin as (l1 & l2 & HL).
  destruct (remove_from_free_list_present Hinv k (buddy k f) l1 l2 ltac:(lia) HL)
    as (z1 & m1 & -> & Hinv1 & Hsh1 & Hst1 & Hw1). simpl.
  replace (Z.min (f * 4096) (buddy k f * 4096)) with (Z.min f (buddy k f) * 4096) by lia.
  pose proof (pow2_S k) as HkS.
  destruct (zi_block _ _ _ _ Hinv k (buddy k f)) as (Hg0 & Hgd & Hgr).
  { rewrite HL, elem_of_app, elem_of_cons. tauto. }
  destruct (IH (bump_free_pages (fun p => wsub64 p 1) k z1) m1 (upd L k (l1 ++ l2)) (S k)
              (Z.min f (buddy k f))) as (o & g & z2 & m2 & L2 & -> & Hspec).
  - by apply zone_inv_bump.
  - eapply stats_track_ext; [|apply (stats_track_bump z1 _ (delta k 1 (fun _ => 0)) k _ (-1));
      [lia| |apply stats_track_upd; [rewrite HL, !length_app; simpl; lia|by eapply stats_track_stats]]].
    + intros o. unfold delta. case_decide; lia.
    + rewrite upd_eq. unfold delta. rewrite decide_True by done.
      pose proof (count_bound' Hinv k) as Hcb. rewrite HL, length_app in Hcb. simpl in Hcb.
      rewrite length_app. apply wsub64_small. unfold U64. lia.
  - lia.
  - lia.
  - done.
  - apply (in_range_shape z z1); [done|]. unfold in_range in *. lia.
  - apply apart_merge; [|by eapply apart_removed|done].
    eapply apart_sub; [|exact Hap]. intros o h Hh. by eapply upd_remove_sub.
  - intros p Hp. destruct (decide (f <= p < f + pow2 k)); [by apply HF|]. apply HFb. lia.
  - exists o, g, z2, m2, L2. split; [done|]. destruct Hspec. constructor; try done.
    + eapply same_shape_trans; [exact Hsh1|done].
    + eapply writes_only_trans; [| |exact Hw1|exact co_writes0]; [done|]. intros p.
      rewrite (free_page_upd_remove L k l1 _ l2 p HL). tauto.
    + by apply (in_range_shape z z1).
    + intros o' h Hh. eapply upd_remove_sub; [exact HL|]. by apply co_sub0.
    + intros p. rewrite co_pages0, (free_page_upd_remove L k l1 _ l2 p HL). intuition lia.
Qed.

(** What freeing a block to its zone achieves. *)
Record zone_free_spec (db : option PdbWorld) (z : MemoryZone) (m : Memory) (L : nat -> list Z)
    (order : nat) (f : Z) (z' : MemoryZone) (m' : Memory) (L' : nat -> list Z) : Prop := {
  zf_inv : zone_inv z' m' db L';
  zf_stats : stats_ok z' L';
  zf_shape : same_shape z z';
  zf_writes : writes_only (fun p => free_page L p \/ f <= p < f + pow2 order) m m';
  zf_coalesced : coalesced L -> coalesced L';
  zf_pages : forall p, free_page L' p <-> free_page L p \/ f <= p < f + pow2 order
}.

Lemma free_to_zone_spec db z m L order f :
  zone_inv z m db L -> stats_ok z L -> (order <= MAX_ORDER)%nat -> 0 < f -> (pow2 order | f) ->
  in_range z order f -> apart L order f -> (forall p, f <= p < f + pow2 order -> Fof db p) ->
  exists z' m' L', free_to_zone db z m (f * 4096) order = Done (z', m') /\
    zone_free_spec db z m L order f z' m' L'.
Proof.
  intros Hinv Hst Ho Hf0 Hd Hr Hap HF. pose proof (pow2_pos order) as Hpo.
  unfold free_to_zone. destruct (Z.eqb_spec (f * 4096) 0); [lia|].
  destruct (Z.eqb_spec (fb_magic (m (f * 4096))) FREE_BLOCK_MAGIC) as [Hmg|_].
  { exfalso. revert Hmg. eapply apart_clean; try done. lia. }
  simpl. destruct (coalesce_ok db (MAX_ORDER - order) z m L order f)
    as (o & g & z1 & m1 & L1 & -> & []); try done; [lia|]. simpl.
  destruct (add_free_block_spec co_inv0 o g) as (z2 & m2 & -> & Hinv2 & Hsh2 & Hst2 & Hw2);
    try done.
  { by apply (in_range_shape z z1). }
  { eapply apart_clean; try done; [by apply (in_range_shape z z1)|]. pose proof (pow2_pos o). lia. }
  simpl. eexists _, _, _. split; [reflexivity|]. constructor.
  - apply zone_inv_bump. exact Hinv2.
  - by apply (stats_track_added z1 m1 db).
  - eapply same_shape_trans; [exact co_shape0|exact Hsh2].
  - eapply writes_only_trans; [| |exact co_writes0|exact Hw2]; cbv beta; intros p; [tauto|].
    intros Hp. apply co_pages0. pose proof (pow2_pos o). destruct Hp as [->|?]; [right; lia|by left].
  - intros Hco. apply coalesced_cons; [done|done|]. by eapply coalesced_sub.
  - intros p. rewrite free_page_upd_cons. apply co_pages0.
Qed.
