(* ===== verification/BuddySpec.v ===== *)
(** * The buddy allocator: [alloc], [free] and their clients

    The kernel-wide invariant over the three zones, the functional
    specifications of [alloc] and [free], the step relation of a running
    kernel (allocations, frees, and arbitrary writes to allocated pages) with
    its safety theorem, and the [FrameAllocator] interface. *)
From S2P Require Import Prelude Addr Zone PageDb Buddy BuddyInv BuddyZone.

(** ** Kernel invariant *)

(** Every page of zone [i] has a physical address of that zone's type. *)
Definition zone_home (i : nat) (z : MemoryZone) : Prop :=
  forall p, page_in_zone z p -> zone_index (for_address (p * 4096)) = i.

Definition pdb_wf (db : option PdbWorld) : Prop :=
  match db with Some w => db_wf (pw_db w) | None => True end.

(** [Ls i] are the ghost free lists of zone [i]. *)
Record kernel_inv (k : Kernel) (Ls : nat -> nat -> list Z) : Prop := {
  ki_len : length (k_zones k) = 3%nat;
  ki_zone : forall i z, k_zones k !! i = Some z -> zone_inv z (k_mem k) (k_pdb k) (Ls i);
  ki_stats : forall i z, k_zones k !! i = Some z -> stats_ok z (Ls i);
  ki_home : forall i z, k_zones k !! i = Some z -> zone_home i z;
  ki_pdb : pdb_wf (k_pdb k)
}.

(** A page in one of the free lists of the kernel. *)
Definition kfree (Ls : nat -> nat -> list Z) (p : Z) : Prop :=
  exists i, (i < 3)%nat /\ free_page (Ls i) p.

Definition kupd (Ls : nat -> nat -> list Z) (i : nat) (L : nat -> list Z) : nat -> nat -> list Z :=
  fun j => if decide (i = j) then L else Ls j.

(** The pages of the block [2^o] frames long at [f]. *)
Definition in_block (o : nat) (f p : Z) : Prop := f <= p < f + pow2 o.

(** ** Changing memory or the page database around a zone *)

Lemma zone_inv_frame z m m' db L :
  zone_inv z m db L -> (forall p, page_in_zone z p -> m' (p * 4096) = m (p * 4096)) ->
  zone_inv z m' db L.
Proof.
  intros Hinv Hm. constructor; try apply Hinv.
  - intros o. eapply seg_frame; [|apply Hinv]. intros f Hf. apply Hm.
    eapply listed_page; [done|done|]. pose proof (pow2_pos o). lia.
  - intros p Hp HF Hn. rewrite Hm by done. by apply (zi_canary _ _ _ _ Hinv).
Qed.

Lemma zone_inv_db z m db db' L :
  zone_inv z m db L ->
  (forall p, page_in_zone z p -> free_page L p -> Fof db' p) ->
  (forall p, page_in_zone z p -> Fof db' p ->
     Fof db p \/ fb_magic (m (p * 4096)) <> FREE_BLOCK_MAGIC) ->
  zone_inv z m db' L.
Proof.
  intros Hinv H1 H2. constructor; try apply Hinv.
  - intros o f p Hf Hp. apply H1; [by eapply listed_page|by exists o, f].
  - intros p Hp HF Hn. destruct (H2 p Hp HF); [|done]. by apply (zi_canary _ _ _ _ Hinv).
Qed.

Lemma free_page_zone z m db L p : zone_inv z m db L -> free_page L p -> page_in_zone z p /\ Fof db p.
Proof.
  intros Hinv (o & f & Hf & Hp). split; [by eapply listed_page|by eapply (zi_free _ _ _ _ Hinv)].
Qed.

Lemma apart_not_free L o f p : apart L o f -> in_block o f p -> ~ free_page L p.
Proof.
  intros Ha Hp (o' & g & Hg & Hgp). unfold in_block in Hp.
  destruct (Ha o' g Hg); lia.
Qed.

(** ** Marking ranges in the page database *)

Definition allocated_frame (f : PageFrame) : PageFrame :=
  set_owner 0 (set_refcount 1 (set_flags PF_ALLOCATED f)).

Lemma page_div p : p * 4096 / 4096 = p.
Proof. apply Z.div_mul. lia. Qed.

Lemma mark_allocated_range_spec n : forall w f i,
  db_wf (pw_db w) -> 0 <= f -> 0 <= i -> (f + i + Z.of_nat n) * 4096 <= U64 ->
  exists w', mark_allocated_range w (f * 4096) i n = Done w' /\ db_wf (pw_db w') /\
    forall p, 0 <= p -> pdb_get (pw_db w') (p * 4096) =
      if decide (f + i <= p < f + i + Z.of_nat n)
      then allocated_frame <$> pdb_get (pw_db w) (p * 4096) else pdb_get (pw_db w) (p * 4096).
Proof.
  induction n as [|n IH]; intros w f i Hwf Hf Hi Hb; cbn [mark_allocated_range].
  { exists w. split; [done|]. split; [done|]. intros p Hp. rewrite decide_False; [done|lia]. }
  unfold add64, FRAME_SIZE. destruct (Z.ltb_spec (f * 4096 + i * 4096) U64); [|lia]. simpl.
  replace (f * 4096 + i * 4096) with ((f + i) * 4096) by lia.
  destruct (IH (mark_allocated w ((f + i) * 4096) 0) f (i + 1)) as (w' & -> & Hwf' & Hg);
    [by apply mark_allocated_wf|lia..|].
  exists w'. split; [done|]. split; [done|]. intros p Hp.
  rewrite Hg, mark_allocated_get, !page_div by lia.
  repeat case_decide; try done; lia.
Qed.

Lemma mark_free_range_spec n : forall w f i,
  db_wf (pw_db w) -> 0 <= f -> 0 <= i -> (f + i + Z.of_nat n) * 4096 <= U64 ->
  exists w', mark_free_range w (f * 4096) i n = Done w' /\ db_wf (pw_db w') /\
    forall p, 0 <= p -> pdb_get (pw_db w') (p * 4096) =
      if decide (f + i <= p < f + i + Z.of_nat n)
      then freed_frame <$> pdb_get (pw_db w) (p * 4096) else pdb_get (pw_db w) (p * 4096).
Proof.
  induction n as [|n IH]; intros w f i Hwf Hf Hi Hb; cbn [mark_free_range].
  { exists w. split; [done|]. split; [done|]. intros p Hp. rewrite decide_False; [done|lia]. }
  unfold add64, FRAME_SIZE. destruct (Z.ltb_spec (f * 4096 + i * 4096) U64); [|lia]. simpl.
  replace (f * 4096 + i * 4096) with ((f + i) * 4096) by lia.
  destruct (mark_free_spec w ((f + i) * 4096) Hwf ltac:(lia)) as (r & w1 & -> & Hwf1 & _ & Hg1).
  simpl. destruct (IH w1 f (i + 1)) as (w' & -> & Hwf' & Hg); [done|lia..|].
  exists w'. split; [done|]. split; [done|]. intros p Hp.
  rewrite Hg, Hg1, !page_div by lia.
  repeat case_decide; try done; lia.
Qed.

(** ** Free page totals *)

(** [Σ_j w x_j * 2^(order + j)] *)
Fixpoint wsum {A} (w : A -> Z) (order : nat) (l : list A) : Z :=
  match l with [] => 0 | x :: l' => w x * pow2 order + wsum w (S order) l' end.

Lemma weighted_sum_ok {A} (w : A -> Z) B l : forall order total,
  (forall j x, l !! j = Some x -> 0 <= w x * pow2 (order + j) <= B) ->
  0 <= total -> total + Z.of_nat (length l) * B < U64 ->
  weighted_sum w order l total = Done (total + wsum w order l).
Proof.
  induction l as [|x l IH]; intros order total Hx H0 Hb; simpl.
  { by rewrite Z.add_0_r. }
  pose proof (Hx 0%nat x eq_refl) as Hx0. rewrite Nat.add_0_r in Hx0. simpl in Hb.
  unfold mul64, add64. destruct (Z.ltb_spec (w x * pow2 order) U64); [|nia]. simpl.
  destruct (Z.ltb_spec (total + w x * pow2 order) U64); [|nia]. simpl.
  rewrite IH; [f_equal; lia| |lia|nia].
  intros j y Hy. specialize (Hx (S j) y Hy). by rewrite Nat.add_succ_r in Hx.
Qed.

(** [total_free_pages] cannot overflow and adds up the pages of the lists. *)
Lemma total_free_pages_ok z m db L :
  zone_inv z m db L ->
  total_free_pages z = Done (wsum flh_count 0 (mz_free_lists z)).
Proof.
  intros Hinv. unfold total_free_pages. rewrite (weighted_sum_ok _ (2 ^ 52)); [done| |lia|].
  - intros j l Hl. pose proof (lookup_lt_Some _ _ _ Hl) as Hj. rewrite (zi_len _ _ _ _ Hinv) in Hj.
    rewrite (zi_list _ _ _ _ Hinv j) in Hl by lia. simplify_eq. simpl.
    pose proof (count_bound Hinv j). pose proof (pow2_pos j). lia.
  - rewrite (zi_len _ _ _ _ Hinv). unfold U64, MAX_ORDER. lia.
Qed.

(** ** The page database across [alloc] and [free] *)

(** [db'] is [db] with [g] applied to the entries of the block's pages. *)
Definition pdb_marked (g : PageFrame -> PageFrame) (o : nat) (f : Z) (db db' : option PdbWorld) : Prop :=
  match db, db' with
  | None, None => True
  | Some w, Some w' =>
      db_wf (pw_db w') /\
      forall p, 0 <= p -> pdb_get (pw_db w') (p * 4096) =
        if decide (f <= p < f + pow2 o)
        then g <$> pdb_get (pw_db w) (p * 4096) else pdb_get (pw_db w) (p * 4096)
  | _, _ => False
  end.

Lemma pdb_marked_wf g o f db db' : pdb_marked g o f db db' -> pdb_wf db'.
Proof. destruct db, db'; simpl; tauto. Qed.

Lemma Fof_marked_out g o f db db' p :
  pdb_marked g o f db db' -> 0 <= p -> ~ in_block o f p -> Fof db' p <-> Fof db p.
Proof.
  intros Hm Hp Hn. destruct db as [w|], db' as [w'|]; simpl in *; try tauto.
  destruct Hm as [_ Hm]. unfold page_free. rewrite Hm, decide_False by done. done.
Qed.

Lemma Fof_marked_alloc o f db db' p :
  pdb_marked allocated_frame o f db db' -> 0 <= p -> Fof db' p -> Fof db p.
Proof.
  intros Hm Hp HF. destruct (decide (f <= p < f + pow2 o)) as [Hin|Hout].
  - destruct db as [w|], db' as [w'|]; simpl in *; try tauto.
    destruct Hm as [_ Hm]. unfold page_free in *. rewrite Hm, decide_True in HF by done.
    by destruct (pdb_get (pw_db w) (p * 4096)); simpl in HF.
  - by apply (Fof_marked_out _ _ _ _ _ _ Hm Hp Hout).
Qed.

Lemma pdb_mark_allocated_ok k o f :
  pdb_wf (k_pdb k) -> 0 <= f -> (f + pow2 o) * 4096 <= U64 ->
  exists db', pdb_mark_allocated (f * 4096) o k = Done (k_set_pdb db' k) /\
    pdb_marked allocated_frame o f (k_pdb k) db'.
Proof.
  intros Hwf Hf Hb. pose proof (pow2_pos o). unfold pdb_mark_allocated.
  destruct (k_pdb k) as [w|] eqn:Hk.
  - destruct (mark_allocated_range_spec (Z.to_nat (pow2 o)) w f 0) as (w' & -> & Hwf' & Hg);
      [done|lia..|].
    exists (Some w'). split; [done|]. split; [done|]. intros p Hp. rewrite Hg by done.
    repeat case_decide; (done || lia).
  - exists None. split; [|done]. destruct k; simpl in *; by subst.
Qed.

Lemma pdb_mark_free_ok k o f :
  pdb_wf (k_pdb k) -> 0 <= f -> (f + pow2 o) * 4096 <= U64 ->
  exists db', pdb_mark_free (f * 4096) o k = Done (k_set_pdb db' k) /\
    pdb_marked freed_frame o f (k_pdb k) db'.
Proof.
  intros Hwf Hf Hb. pose proof (pow2_pos o). unfold pdb_mark_free.
  destruct (k_pdb k) as [w|] eqn:Hk.
  - destruct (mark_free_range_spec (Z.to_nat (pow2 o)) w f 0) as (w' & -> & Hwf' & Hg);
      [done|lia..|].
    exists (Some w'). split; [done|]. split; [done|]. intros p Hp. rewrite Hg by done.
    repeat case_decide; (done || lia).
  - exists None. split; [|done]. destruct k; simpl in *; by subst.
Qed.

(** ** Replacing one zone *)

Lemma k_set_zone_id i z k : k_zones k !! i = Some z -> k_set_zone i z (k_mem k) k = k.
Proof. intros Hz. unfold k_set_zone. rewrite list_insert_id by done. by destruct k. Qed.

(** A zone operation that writes only to its own free pages keeps the other
    zones, whose pages lie elsewhere. *)
Lemma kernel_inv_set_zone k Ls i z z' m' L' :
  kernel_inv k Ls -> k_zones k !! i = Some z -> same_shape z z' ->
  zone_inv z' m' (k_pdb k) L' -> stats_ok z' L' -> writes_only (page_in_zone z) (k_mem k) m' ->
  kernel_inv (k_set_zone i z' m' k) (kupd Ls i L').
Proof.
  intros [Kl Kz Ks Kh Kp] Hz Hsh Hinv Hst Hw.
  assert (forall j zj, <[i := z']> (k_zones k) !! j = Some zj ->
    (j = i /\ zj = z') \/ (j <> i /\ k_zones k !! j = Some zj)) as Hlk.
  { intros j zj Hj. destruct (decide (i = j)) as [->|Hne].
    - rewrite list_lookup_insert_eq in Hj by (by eapply lookup_lt_Some). left. by simplify_eq.
    - rewrite list_lookup_insert_ne in Hj by done. right. auto. }
  constructor; simpl.
  - by rewrite length_insert.
  - intros j zj Hj. unfold kupd.
    destruct (Hlk j zj Hj) as [[-> ->]|[Hne Hj']]; [by rewrite decide_True|].
    rewrite decide_False by done. eapply zone_inv_frame; [by apply Kz|].
    intros p Hp. apply Hw. intros Hpi. apply (Kh i z Hz) in Hpi. apply (Kh j zj Hj') in Hp. congruence.
  - intros j zj Hj. unfold kupd. destruct (Hlk j zj Hj) as [[-> ->]|[Hne Hj']].
    + by rewrite decide_True.
    + rewrite decide_False by done. by apply Ks.
  - intros j zj Hj. destruct (Hlk j zj Hj) as [[-> ->]|[Hne Hj']]; [|by apply Kh].
    intros p Hp. apply (Kh i z Hz). by apply (page_in_zone_shape z z').
  - done.
Qed.

(** The invariant does not depend on counters, notifications or the watch. *)
Lemma kernel_inv_ext k k' Ls :
  k_zones k' = k_zones k -> k_mem k' = k_mem k -> k_pdb k' = k_pdb k ->
  kernel_inv k Ls -> kernel_inv k' Ls.
Proof. intros H1 H2 H3 []. constructor; rewrite ?H1, ?H2, ?H3; done. Qed.

(** Replacing the page database. *)
Lemma kernel_inv_set_pdb k Ls db' :
  kernel_inv k Ls -> pdb_wf db' ->
  (forall p, 0 <= p -> kfree Ls p -> Fof db' p) ->
  (forall p, 0 <= p -> Fof db' p -> Fof (k_pdb k) p \/ fb_magic (k_mem k (p * 4096)) <> FREE_BLOCK_MAGIC) ->
  kernel_inv (k_set_pdb db' k) Ls.
Proof.
  intros [Kl Kz Ks Kh Kp] Hwf H1 H2. constructor; simpl; try done.
  intros i z Hz. pose proof (Kz i z Hz) as Hinv.
  assert (forall p, page_in_zone z p -> 0 <= p) as Hpos.
  { intros p Hp. destruct (zi_range _ _ _ _ Hinv) as (? & _). unfold page_in_zone in Hp. lia. }
  eapply zone_inv_db; [done| |].
  - intros p Hp Hfp. apply H1; [by apply Hpos|]. exists i. split; [|done].
    rewrite <- Kl. by eapply lookup_lt_Some.
  - intros p Hp HF. apply H2; [by apply Hpos|done].
Qed.

Lemma notify_watermark_ok i z m db L k :
  zone_inv z m db L -> exists v, notify_watermark i z k = Done (k_set_wmark v k).
Proof.
  intros Hinv. unfold notify_watermark. destruct (k_wmark k) as [calls|] eqn:Hw.
  - rewrite (total_free_pages_ok z m db L Hinv). simpl. eauto.
  - exists None. destruct k; simpl in *; by subst.
Qed.

(** ** Allocation *)

(** Allocating the block of [2^order] frames at [f] takes [k] to [k']: the
    block was free, is aligned, leaves the free lists, and is marked
    allocated; every page that was not free keeps its contents. *)
Record alloc_spec (k : Kernel) (Ls : nat -> nat -> list Z) (order : nat) (f : Z)
    (k' : Kernel) (Ls' : nat -> nat -> list Z) : Prop := {
  as_inv : kernel_inv k' Ls';
  as_pos : 0 < f;
  as_aligned : (pow2 order | f);
  as_pages : forall p, kfree Ls p <-> kfree Ls' p \/ in_block order f p;
  as_gone : forall p, in_block order f p -> ~ kfree Ls' p;
  as_pdb : pdb_marked allocated_frame order f (k_pdb k) (k_pdb k');
  as_mem : writes_only (kfree Ls) (k_mem k) (k_mem k');
  as_stats : k_stats k' = record_alloc (pow2 order * FRAME_SIZE) (k_stats k);
  as_watched : k_watched k' = k_watched k;
  as_coalesced : (forall i, coalesced (Ls i)) -> forall i, coalesced (Ls' i);
  as_zone : exists z, k_zones k !! zone_index (for_address (f * 4096)) = Some z /\ in_range z order f;
  as_zones : forall i z, k_zones k !! i = Some z ->
    exists z', k_zones k' !! i = Some z' /\ same_shape z z'
}.

(** No zone of [idxs] has a free block of at least [order]. *)
Definition exhausted (Ls : nat -> nat -> list Z) (order : nat) (idxs : list nat) : Prop :=
  forall i c, i ∈ idxs -> (order <= c)%nat -> Ls i c = [].

Lemma empty_zone_lists z m db L c : zone_inv z m db L -> MemoryZone_is_empty z = true -> L c = [].
Proof.
  intros Hinv He. apply Z.eqb_eq in He. destruct (L c) as [|f t] eqn:HL; [done|].
  destruct (zi_block _ _ _ _ Hinv c f) as (_ & _ & Hr); [rewrite HL; left|].
  unfold in_range in Hr. pose proof (pow2_pos c). lia.
Qed.

Lemma kernel_zone k Ls i : kernel_inv k Ls -> (i < 3)%nat -> is_Some (k_zones k !! i).
Proof. intros HK Hi. apply lookup_lt_is_Some. by rewrite (ki_len _ _ HK). Qed.

Lemma kfree_kupd Ls i L' p :
  (i < 3)%nat -> kfree (kupd Ls i L') p <->
    free_page L' p \/ exists j, (j < 3)%nat /\ j <> i /\ free_page (Ls j) p.
Proof.
  intros Hi. unfold kfree, kupd. split.
  - intros (j & Hj & Hp). case_decide; [by left|right; eauto].
  - intros [Hp|(j & Hj & Hne & Hp)].
    + exists i. by rewrite decide_True.
    + exists j. by rewrite decide_False.
Qed.

Lemma kfree_split Ls i p :
  (i < 3)%nat -> kfree Ls p <->
    free_page (Ls i) p \/ exists j, (j < 3)%nat /\ j <> i /\ free_page (Ls j) p.
Proof.
  intros Hi. split.
  - intros (j & Hj & Hp). destruct (decide (j = i)) as [->|]; [by left|right; eauto].
  - intros [Hp|(j & Hj & Hne & Hp)]; [by exists i|by exists j].
Qed.

(** A page of zone [i] is in no other zone's lists. *)
Lemma other_zone_not_free k Ls i z p :
  kernel_inv k Ls -> k_zones k !! i = Some z -> page_in_zone z p ->
  ~ exists j, (j < 3)%nat /\ j <> i /\ free_page (Ls j) p.
Proof.
  intros HK Hz Hp (j & Hj & Hne & Hfp). destruct (kernel_zone k Ls j HK Hj) as [zj Hzj].
  destruct (free_page_zone _ _ _ _ _ (ki_zone _ _ HK j zj Hzj) Hfp) as [Hpj _].
  apply (ki_home _ _ HK i z Hz) in Hp. apply (ki_home _ _ HK j zj Hzj) in Hpj. congruence.
Qed.

Lemma coalesced_kupd Ls i L' :
  (coalesced (Ls i) -> coalesced L') -> (forall j, coalesced (Ls j)) ->
  forall j, coalesced (kupd Ls i L' j).
Proof. intros HL H j. unfold kupd. case_decide; auto. Qed.

Lemma in_range_page z o f p : in_range z o f -> in_block o f p -> page_in_zone z p.
Proof. unfold in_range, in_block, page_in_zone. lia. Qed.

(** Every zone keeps its range when zone [i] is replaced. *)
Lemma set_zone_shapes (zs : list MemoryZone) i z z' :
  zs !! i = Some z -> same_shape z z' ->
  forall j zj, zs !! j = Some zj -> exists zj', <[i := z']> zs !! j = Some zj' /\ same_shape zj zj'.
Proof.
  intros Hz Hsh j zj Hzj. destruct (decide (i = j)) as [<-|Hne].
  - rewrite list_lookup_insert_eq by (by eapply lookup_lt_Some). simplify_eq. eauto.
  - rewrite list_lookup_insert_ne by done. by exists zj.
Qed.

(** The bookkeeping [alloc] does once zone [i] has produced a block. *)
Lemma alloc_finish k Ls order i z f z' m' L' :
  kernel_inv k Ls -> (i < 3)%nat -> k_zones k !! i = Some z ->
  zone_alloc_spec (k_pdb k) z (k_mem k) (Ls i) order f z' m' L' ->
  exists k', (k4 ← notify_watermark i z' (vmstat_add (alloc_counter i) (pow2 order)
       (k_map_stats (record_alloc (pow2 order * FRAME_SIZE)) (k_set_zone i z' m' k)));
     k5 ← pdb_mark_allocated (f * 4096) order k4; mret (Ok (E := MmError) (f * 4096), k5))
    = Done (Ok (f * 4096), k') /\
    alloc_spec k Ls order f k' (kupd Ls i L').
Proof.
  intros HK Hi Hz Hza. destruct Hza. pose proof (ki_zone _ _ HK i z Hz) as Hinv.
  assert (writes_only (page_in_zone z) (k_mem k) m') as Hw.
  { intros p Hp. apply za_writes. intros Hfp. apply Hp. by eapply free_page_zone. }
  pose proof (kernel_inv_set_zone k Ls i z z' m' L' HK Hz za_shape za_inv za_stats Hw) as HK1.
  pose proof (in_range_bound _ _ _ (zi_range _ _ _ _ Hinv) za_in) as Hb.
  edestruct notify_watermark_ok as [v ->]; [exact za_inv|]. cbn [mbind outcome_bind].
  match goal with |- context [pdb_mark_allocated _ _ ?k4] =>
    destruct (pdb_mark_allocated_ok k4 order f) as (db' & -> & Hm);
    [apply (ki_pdb _ _ HK)|lia|lia|] end.
  simpl in Hm |- *. eexists. split; [reflexivity|].
  assert (forall p, in_block order f p -> ~ kfree (kupd Ls i L') p) as Hgone.
  { intros p Hp. rewrite kfree_kupd by done. intros [Hfp|Hfp].
    - by eapply apart_not_free.
    - revert Hfp. eapply other_zone_not_free; [done..|]. by eapply in_range_page. }
  constructor; try done.
  - apply kernel_inv_set_pdb; [by eapply kernel_inv_ext; [..|exact HK1]|by eapply pdb_marked_wf| |].
    + intros p Hp0 Hp. apply (Fof_marked_out _ _ _ _ _ p Hm Hp0); [intros Hin; by eapply Hgone|].
      destruct Hp as (j & Hj & Hfp). destruct (kernel_zone _ _ j HK1 Hj) as [zj Hzj].
      eapply (free_page_zone zj); [by apply (ki_zone _ _ HK1)|done].
    + intros p Hp0 HF. left. by eapply Fof_marked_alloc.
  - intros p. rewrite kfree_kupd, (kfree_split _ i), za_pages by done. unfold in_block. tauto.
  - intros p Hp. apply za_writes. intros Hfp. apply Hp. by exists i.
  - apply coalesced_kupd. done.
  - exists z. rewrite (ki_home _ _ HK i z Hz); [done|].
    eapply in_range_page; [done|]. unfold in_block. pose proof (pow2_pos order). lia.
  - by apply (set_zone_shapes _ i z z').
Qed.

Lemma try_zones_spec order idxs : forall k Ls,
  kernel_inv k Ls -> (order <= MAX_ORDER)%nat -> (forall i, i ∈ idxs -> (i < 3)%nat) ->
  (exhausted Ls order idxs /\
     try_zones order idxs k = Done (Err OutOfMemory, k_map_stats record_failure k)) \/
  (~ exhausted Ls order idxs /\
   exists f k' Ls', try_zones order idxs k = Done (Ok (f * 4096), k') /\
     alloc_spec k Ls order f k' Ls').
Proof.
  induction idxs as [|i idxs IH]; intros k Ls HK Ho Hidx; cbn [try_zones].
  { left. split; [|done]. by intros i c Hi%not_elem_of_nil. }
  assert (i < 3)%nat as Hi by (apply Hidx; left).
  destruct (kernel_zone k Ls i HK Hi) as [z Hz]. rewrite Hz. cbn [or_fault mbind outcome_bind].
  pose proof (ki_zone _ _ HK i z Hz) as Hinv.
  assert ((forall c, (order <= c)%nat -> Ls i c = []) ->
    (exhausted Ls order idxs <-> exhausted Ls order (i :: idxs))) as Hex.
  { intros He. unfold exhausted. split; intros H j c Hj Hc; [|apply H; [by right|done]].
    apply elem_of_cons in Hj as [->|Hj]; auto. }
  assert (forall j, j ∈ idxs -> (j < 3)%nat) as Hidx' by (intros; apply Hidx; by right).
  destruct (MemoryZone_is_empty z) eqn:He.
  { rewrite <- Hex by (intros; by eapply empty_zone_lists). by apply IH. }
  destruct (alloc_from_zone_spec (k_pdb k) z (k_mem k) (Ls i) order Hinv) as [[Hn ->]|[Hs Hok]];
    [by apply (ki_stats _ _ HK)|done| |]; cbn [mbind outcome_bind].
  - rewrite k_set_zone_id, <- Hex by done. by apply IH.
  - destruct Hok as (f & z' & m' & L' & -> & Hza). cbn [mbind outcome_bind]. right. split.
    + destruct Hs as (c & Hc & Hne). intros H. apply Hne, H; [left|done].
    + destruct (alloc_finish k Ls order i z f z' m' L' HK Hi Hz Hza) as (k' & Heq & Has). eauto.
Qed.

(** ** Freeing *)

(** The block [f] of [2^order] frames may be given back: it is an aligned
    block of its zone, none of its pages is on a free list or starts with the
    free-block magic, its first frame passes [validate_free], and no watched
    frame lies in it. *)
Record freeable (k : Kernel) (Ls : nat -> nat -> list Z) (order : nat) (f : Z) : Prop := {
  fr_order : (order <= MAX_ORDER)%nat;
  fr_pos : 0 < f;
  fr_aligned : (pow2 order | f);
  fr_zone : exists z, k_zones k !! zone_index (for_address (f * 4096)) = Some z /\ in_range z order f;
  fr_live : forall p, in_block order f p -> ~ kfree Ls p;
  fr_clean : forall p, in_block order f p -> fb_magic (k_mem k (p * 4096)) <> FREE_BLOCK_MAGIC;
  fr_entry : forall w, k_pdb k = Some w ->
    releasable (pw_db w) (f * 4096) /\
    forall p, in_block order f p -> is_Some (pdb_get (pw_db w) (p * 4096));
  fr_watch : watch_hit (k_watched k) (f * 4096) order = Done false
}.

(** What freeing it achieves. *)
Record free_spec (k : Kernel) (Ls : nat -> nat -> list Z) (order : nat) (f : Z)
    (k' : Kernel) (Ls' : nat -> nat -> list Z) : Prop := {
  fs_inv : kernel_inv k' Ls';
  fs_pages : forall p, kfree Ls' p <-> kfree Ls p \/ in_block order f p;
  fs_pdb : pdb_marked freed_frame order f (k_pdb k) (k_pdb k');
  fs_mem : writes_only (fun p => kfree Ls p \/ in_block order f p) (k_mem k) (k_mem k');
  fs_stats : k_stats k' = record_free (pow2 order * FRAME_SIZE) (k_stats k);
  fs_watched : k_watched k' = k_watched k;
  fs_coalesced : (forall i, coalesced (Ls i)) -> forall i, coalesced (Ls' i);
  fs_zones : forall i z, k_zones k !! i = Some z ->
    exists z', k_zones k' !! i = Some z' /\ same_shape z z'
}.

Lemma free_page_apart L o f : (forall p, in_block o f p -> ~ free_page L p) -> apart L o f.
Proof.
  intros Hn o' f' Hf'. unfold disjoint_blocks. pose proof (pow2_pos o). pose proof (pow2_pos o').
  destruct (decide (f + pow2 o <= f')) as [|H1]; [by left|].
  destruct (decide (f' + pow2 o' <= f)) as [|H2]; [by right|].
  destruct (Hn (Z.max f f')); [unfold in_block; lia|]. exists o', f'. split; [done|lia].
Qed.

Lemma Fof_freed o f db db' p :
  pdb_marked freed_frame o f db db' -> 0 <= p -> in_block o f p ->
  (forall w, db = Some w -> is_Some (pdb_get (pw_db w) (p * 4096))) -> Fof db' p.
Proof.
  intros Hm Hp Hin He. destruct db as [w|], db' as [w'|]; simpl in *; try done.
  destruct (He w eq_refl) as [e Hw]. destruct Hm as [_ Hm].
  unfold page_free. rewrite Hm, decide_True, Hw by done. done.
Qed.

(** Validation passes and marking the block free keeps the invariant. *)
Lemma free_mark k Ls order f :
  kernel_inv k Ls -> freeable k Ls order f ->
  exists k1 db', pdb_validate (f * 4096) k = Done (true, k1) /\
    k_zones k1 = k_zones k /\ pdb_mark_free (f * 4096) order k1 = Done (k_set_pdb db' k) /\
    pdb_marked freed_frame order f (k_pdb k) db' /\ kernel_inv (k_set_pdb db' k) Ls.
Proof.
  intros HK Hfr. destruct (fr_zone _ _ _ _ Hfr) as (z & Hz & Hr).
  pose proof (in_range_bound _ _ _ (zi_range _ _ _ _ (ki_zone _ _ HK _ z Hz)) Hr) as Hb.
  pose proof (fr_pos _ _ _ _ Hfr) as Hf0.
  assert (exists k1 db', pdb_validate (f * 4096) k = Done (true, k1) /\
    k_zones k1 = k_zones k /\ pdb_mark_free (f * 4096) order k1 = Done (k_set_pdb db' k) /\
    pdb_marked freed_frame order f (k_pdb k) db') as (k1 & db' & H1 & H2 & H3 & Hm).
  { destruct (k_pdb k) as [w|] eqn:Hk.
    - pose proof (ki_pdb _ _ HK) as Hwf. rewrite Hk in Hwf.
      destruct (validate_free_spec w (f * 4096) Hwf ltac:(lia)) as (r & w' & Hv & Hdb & Hiff).
      unfold pdb_validate. rewrite Hk, Hv. simpl.
      rewrite (proj2 Hiff) by apply (fr_entry _ _ _ _ Hfr w Hk).
      destruct (pdb_mark_free_ok (k_set_pdb (Some w') k) order f) as (db' & Hf & Hm);
        [by simpl; rewrite Hdb|lia..|].
      exists (k_set_pdb (Some w') k), db'. split_and!; [done..|].
      simpl in Hm. destruct db'; [|done]. simpl. by rewrite <- Hdb.
    - unfold pdb_validate. rewrite Hk.
      destruct (pdb_mark_free_ok k order f) as (db' & Hf & Hm); [by rewrite Hk|lia..|].
      rewrite Hk in Hm. exists k, db'. done. }
  exists k1, db'. split_and!; try done.
  apply kernel_inv_set_pdb; [done|by eapply pdb_marked_wf| |].
  - intros p Hp Hkp. apply (Fof_marked_out _ _ _ _ _ p Hm Hp).
    { intros Hin. by eapply (fr_live _ _ _ _ Hfr). }
    destruct Hkp as (j & Hj & Hfp). destruct (kernel_zone _ _ j HK Hj) as [zj Hzj].
    eapply (free_page_zone zj); [by apply (ki_zone _ _ HK)|done].
  - intros p Hp HF. destruct (decide (f <= p < f + pow2 order)) as [Hin|Hout].
    + right. by apply (fr_clean _ _ _ _ Hfr).
    + left. by apply (Fof_marked_out _ _ _ _ _ p Hm Hp Hout).
Qed.

Lemma is_aligned_frame f : 0 <= f -> f * 4096 < U64 -> is_aligned (f * 4096) FRAME_SIZE = Done true.
Proof.
  intros H0 Hb. rewrite is_aligned_page by lia. rewrite Z.mod_mul by lia. done.
Qed.

Lemma free_ok k Ls order f :
  kernel_inv k Ls -> freeable k Ls order f ->
  exists k' Ls', free (f * 4096) order k = Done (Ok tt, k') /\ free_spec k Ls order f k' Ls'.
Proof.
  intros HK Hfr. pose proof Hfr as []. destruct fr_zone0 as (z & Hz & Hr).
  set (i := zone_index (for_address (f * 4096))) in *.
  pose proof (ki_zone _ _ HK i z Hz) as Hinv.
  pose proof (in_range_bound _ _ _ (zi_range _ _ _ _ Hinv) Hr) as Hb.
  pose proof (pow2_pos order) as Hpo.
  destruct (free_mark k Ls order f HK Hfr) as (k1 & db' & Hv & Hkz & Hmf & Hm & HK2).
  unfold free. destruct (Nat.ltb_spec MAX_ORDER order); [lia|].
  rewrite is_aligned_frame by lia. cbn [mbind outcome_bind negb].
  rewrite fr_watch0. cbn [mbind outcome_bind]. rewrite Hv. cbn [mbind outcome_bind negb].
  fold i. rewrite Hkz, Hz. cbn [or_fault mbind outcome_bind].
  destruct (MemoryZone_is_empty z) eqn:He.
  { apply Z.eqb_eq in He. unfold in_range in Hr. lia. }
  rewrite Hmf. cbn [mbind outcome_bind].
  assert (i < 3)%nat as Hi by (rewrite <- (ki_len _ _ HK); by eapply lookup_lt_Some).
  destruct (free_to_zone_spec db' z (k_mem k) (Ls i) order f) as (z' & m' & L' & Hfz & Hzf);
    try done; [apply (ki_zone _ _ HK2 i z Hz)|by apply (ki_stats _ _ HK)| | |].
  { apply free_page_apart. intros p Hp Hfp. apply (fr_live0 p Hp). by exists i. }
  { intros p Hp. eapply Fof_freed; [done|lia|done|]. intros w Hw. by apply (fr_entry0 w Hw). }
  simpl in Hfz |- *. rewrite Hfz. destruct Hzf. cbn [mbind outcome_bind].
  eexists _, (kupd Ls i L'). split; [reflexivity|]. constructor; try done.
  - eapply kernel_inv_ext; [..|eapply (kernel_inv_set_zone _ Ls i z z' m' L' HK2 Hz)]; try done.
    intros p Hp. apply zf_writes. intros [Hfp|Hin]; apply Hp.
    + by eapply (free_page_zone z).
    + by eapply in_range_page.
  - intros p. rewrite kfree_kupd, (kfree_split Ls i), zf_pages by done. unfold in_block. tauto.
  - intros p Hp. apply zf_writes. intros [Hfp|Hin]; apply Hp; [left; by exists i|by right].
  - apply coalesced_kupd. done.
  - by apply (set_zone_shapes _ i z z').
Qed.
