(* ===== verification/BuddySys.v ===== *)
(** * The buddy allocator under arbitrary use

    A transition system of the allocator and its clients: allocations of any
    order and zone, frees of blocks the clients hold, arbitrary writes to held
    pages, and changes of the frame watch.  Reachable states keep the free
    lists sound, held blocks disjoint from each other and from every free
    page, and no operation faults.  The [FrameAllocator] trait is a class with
    its laws; the allocator is an instance. *)
From S2P Require Import Prelude Addr Zone PageDb Buddy BuddyInv BuddyZone BuddySpec.

(** ** Held blocks *)

(** A block is its order and first frame. *)
Definition Block : Type := nat * Z.

Definition page_of (b : Block) (p : Z) : Prop := in_block (fst b) (snd b) p.

Definition disjoint_pages (b c : Block) : Prop := forall p, page_of b p -> ~ page_of c p.

Fixpoint all_disjoint (l : list Block) : Prop :=
  match l with [] => True | b :: l' => Forall (disjoint_pages b) l' /\ all_disjoint l' end.

(** The page database, if there is one, records page [p] as in use once. *)
Definition live_in (db : option PdbWorld) (p : Z) : Prop :=
  match db with
  | None => True
  | Some w => releasable (pw_db w) (p * 4096)
  end.

(** The block was handed out and not yet returned. *)
Record held (k : Kernel) (Ls : nat -> nat -> list Z) (b : Block) : Prop := {
  hd_order : (fst b <= MAX_ORDER)%nat;
  hd_pos : 0 < snd b;
  hd_aligned : (pow2 (fst b) | snd b);
  hd_zone : exists z, k_zones k !! zone_index (for_address (snd b * 4096)) = Some z /\
    in_range z (fst b) (snd b);
  hd_live : forall p, page_of b p -> ~ kfree Ls p;
  hd_entry : forall p, page_of b p -> live_in (k_pdb k) p
}.

Record sys_inv (k : Kernel) (owned : list Block) (Ls : nat -> nat -> list Z) : Prop := {
  sy_kernel : kernel_inv k Ls;
  sy_held : Forall (held k Ls) owned;
  sy_disj : all_disjoint owned
}.

(** ** Steps *)

Definition k_set_mem (m : Memory) (k : Kernel) : Kernel :=
  mkKernel (k_zones k) (k_stats k) (k_initialized k) m (k_pdb k)
    (k_watched k) (k_vmstat k) (k_wmark k).

Definition owned_page (owned : list Block) (p : Z) : Prop := exists b, b ∈ owned /\ page_of b p.

(** A page whose first word is not the free-block magic. *)
Definition clean (m : Memory) (p : Z) : Prop := fb_magic (m (p * 4096)) <> FREE_BLOCK_MAGIC.

Inductive step : Kernel * list Block -> Kernel * list Block -> Prop :=
| step_alloc k owned req a k' :
    alloc req k = Done (Ok a, k') ->
    step (k, owned) (k', (ar_order req, frame_of a) :: owned)
| step_alloc_err k owned req e k' :
    alloc req k = Done (Err e, k') ->
    step (k, owned) (k', owned)
| step_free k owned o f owned' r k' :
    owned ≡ₚ (o, f) :: owned' ->
    (forall p, page_of (o, f) p -> clean (k_mem k) p) ->
    free (addr_of f) o k = Done (r, k') ->
    step (k, owned) (k', owned')
| step_write k owned m' :
    (forall p, ~ owned_page owned p -> m' (p * 4096) = k_mem k (p * 4096)) ->
    (k_pdb k = None -> forall p, owned_page owned p -> clean m' p) ->
    step (k, owned) (k_set_mem m' k, owned)
| step_watch k owned phys :
    0 <= phys < U64 ->
    step (k, owned) (set_frame_watch phys k, owned).

(** ** Held blocks across a step *)

Lemma all_disjoint_perm l l' : l ≡ₚ l' -> all_disjoint l -> all_disjoint l'.
Proof.
  induction 1 as [|b l l' HP IH|b c l|l1 l2 l3 H1 IH1 H2 IH2]; simpl; [done| | |by auto].
  - intros [Hf Hd]. rewrite HP in Hf. auto.
  - intros (Hf & Hf' & Hd). apply Forall_cons in Hf as [Hbc Hf].
    repeat split; [|done..]. apply Forall_cons. split; [|done].
    intros p Hp Hq. by apply (Hbc p).
Qed.

Lemma held_mono k k' Ls Ls' b :
  held k Ls b ->
  (forall i z, k_zones k !! i = Some z -> exists z', k_zones k' !! i = Some z' /\ same_shape z z') ->
  (forall p, page_of b p -> ~ kfree Ls p -> ~ kfree Ls' p) ->
  (forall p, 0 <= p -> page_of b p -> live_in (k_pdb k) p -> live_in (k_pdb k') p) ->
  held k' Ls' b.
Proof.
  intros [] Hz Hl He. constructor; try done.
  - destruct hd_zone0 as (z & Hlk & Hr). destruct (Hz _ z Hlk) as (z' & Hlk' & Hsh).
    exists z'. split; [done|]. by apply (in_range_shape z z').
  - eauto.
  - intros p Hp. apply He; [|done|by apply hd_entry0]. unfold page_of, in_block in Hp. lia.
Qed.

Lemma live_in_marked g o f db db' p :
  pdb_marked g o f db db' -> 0 <= p -> ~ in_block o f p -> live_in db p -> live_in db' p.
Proof.
  intros Hm Hp Hn. destruct db as [w|], db' as [w'|]; simpl in *; try done.
  destruct Hm as [_ Hm]. unfold releasable. by rewrite Hm, decide_False.
Qed.

Lemma live_in_allocated o f db db' p :
  pdb_marked allocated_frame o f db db' -> 0 <= p -> in_block o f p -> Fof db p -> live_in db' p.
Proof.
  intros Hm Hp Hn. destruct db as [w|], db' as [w'|]; simpl in *; try done.
  destruct Hm as [_ Hm]. unfold releasable, page_free. rewrite Hm, decide_True by done.
  destruct (pdb_get (pw_db w) (p * 4096)) as [e|]; [|done]. intros _.
  exists (allocated_frame e). split_and!; try done.
Qed.

Lemma kfree_Fof k Ls p : kernel_inv k Ls -> kfree Ls p -> Fof (k_pdb k) p /\ 0 <= p.
Proof.
  intros HK (i & Hi & Hp). destruct (kernel_zone _ _ i HK Hi) as [z Hz].
  pose proof (ki_zone _ _ HK i z Hz) as Hinv.
  destruct (free_page_zone _ _ _ _ _ Hinv Hp) as [Hz' HF]. split; [done|].
  destruct (zi_range _ _ _ _ Hinv) as (? & _). unfold page_in_zone in Hz'. lia.
Qed.

Lemma alloc_held k Ls order f k' Ls' :
  kernel_inv k Ls -> (order <= MAX_ORDER)%nat -> alloc_spec k Ls order f k' Ls' ->
  held k' Ls' (order, f).
Proof.
  intros HK Ho []. constructor; try done.
  - destruct as_zone as (z & Hz & Hr). destruct (as_zones _ z Hz) as (z' & Hz' & Hsh).
    exists z'. split; [done|]. by apply (in_range_shape z z').
  - intros p Hp. destruct (kfree_Fof k Ls p HK) as [HF H0]; [apply as_pages; by right|].
    eapply live_in_allocated; eauto.
Qed.

Lemma alloc_keeps k Ls order f k' Ls' b :
  alloc_spec k Ls order f k' Ls' -> held k Ls b -> held k' Ls' b /\ disjoint_pages (order, f) b.
Proof.
  intros [] Hb. assert (disjoint_pages (order, f) b) as Hd.
  { intros p Hp Hq. apply (hd_live _ _ _ Hb p Hq), as_pages. by right. }
  split; [|done]. apply (held_mono k k' Ls Ls' b); try done.
  - intros p Hp Hn Hk. apply Hn, as_pages. by left.
  - intros p Hp0 Hp. eapply live_in_marked; [done|done|]. intros Hin. by apply (Hd p).
Qed.

Lemma free_keeps k Ls order f k' Ls' b :
  free_spec k Ls order f k' Ls' -> disjoint_pages (order, f) b -> held k Ls b -> held k' Ls' b.
Proof.
  intros [] Hd Hb. apply (held_mono k k' Ls Ls' b); try done.
  - intros p Hp Hn Hk. apply fs_pages in Hk as [Hk|Hk]; [done|]. by apply (Hd p).
  - intros p Hp0 Hp. eapply live_in_marked; [done|done|]. intros Hin. by apply (Hd p).
Qed.

(** ** Every operation is total on reachable states *)

Lemma zone_order_exhausted Ls order t :
  exhausted Ls order (zone_order t) <-> forall i c, (i < 3)%nat -> (order <= c)%nat -> Ls i c = [].
Proof.
  unfold exhausted. split; intros H i c Hi Hc.
  - apply H; [|done]. destruct i as [|[|[|?]]]; [..|lia]; destruct t as [[]|]; simpl; set_solver.
  - apply H; [|done]. destruct t as [[]|]; simpl in Hi; set_unfold in Hi;
      destruct Hi as [-> | [-> | [-> | []]]]; lia.
Qed.

Lemma alloc_cases k Ls req :
  kernel_inv k Ls -> (ar_order req <= MAX_ORDER)%nat ->
  ((forall i c, (i < 3)%nat -> (ar_order req <= c)%nat -> Ls i c = []) /\
     alloc req k = Done (Err OutOfMemory, k_map_stats record_failure k)) \/
  ((exists i c, (i < 3)%nat /\ (ar_order req <= c)%nat /\ Ls i c <> []) /\
   exists f k' Ls', alloc req k = Done (Ok (f * 4096), k') /\
     alloc_spec k Ls (ar_order req) f k' Ls').
Proof.
  intros HK Ho. unfold alloc. destruct (Nat.ltb_spec MAX_ORDER (ar_order req)); [lia|].
  destruct (try_zones_spec (ar_order req) (zone_order (ar_zone req)) k Ls HK Ho)
    as [[He Heq]|[He Hok]].
  - intros i Hi. destruct (ar_zone req) as [[]|]; simpl in Hi; set_unfold in Hi;
      destruct Hi as [-> | [-> | [-> | []]]]; lia.
  - left. by rewrite zone_order_exhausted in He.
  - right. split; [|done]. rewrite zone_order_exhausted in He.
    destruct (decide (Exists (fun i => Exists (fun c => Ls i c <> []) (seq (ar_order req) (S MAX_ORDER - ar_order req))) (seq 0 3)))
      as [Hx|Hx].
    + apply Exists_exists in Hx as (i & Hi%elem_of_seq & (c & Hc%elem_of_seq & Hne)%Exists_exists).
      exists i, c. split_and!; [lia|lia|done].
    + destruct He. intros i c Hi Hc. destruct (Ls i c) as [|g t] eqn:HL; [done|]. exfalso. apply Hx.
      destruct (kernel_zone _ _ i HK Hi) as [z Hz].
      assert (c <= MAX_ORDER)%nat as Hcm.
      { eapply (listed_order (ki_zone _ _ HK i z Hz)). rewrite HL. left. }
      apply Exists_exists. exists i. rewrite elem_of_seq. split; [lia|].
      apply Exists_exists. exists c. rewrite elem_of_seq, HL. split; [lia|done].
Qed.

Lemma kernel_inv_failure k Ls : kernel_inv k Ls -> kernel_inv (k_map_stats record_failure k) Ls.
Proof. by apply kernel_inv_ext. Qed.

(** A held block passes every check of [free]. *)
Lemma held_freeable k Ls o f :
  held k Ls (o, f) -> (forall p, page_of (o, f) p -> clean (k_mem k) p) ->
  watch_hit (k_watched k) (f * 4096) o = Done false -> freeable k Ls o f.
Proof.
  intros [] Hc Hw. simpl in *. constructor; try done.
  intros w Hk. split.
  - specialize (hd_entry0 f). unfold live_in in hd_entry0. rewrite Hk in hd_entry0.
    apply hd_entry0. unfold page_of, in_block; simpl. pose proof (pow2_pos o). lia.
  - intros p Hp. specialize (hd_entry0 p Hp). unfold live_in in hd_entry0. rewrite Hk in hd_entry0.
    destruct hd_entry0 as (e & -> & _). eauto.
Qed.

Lemma held_bound k Ls o f :
  kernel_inv k Ls -> held k Ls (o, f) -> 0 < f /\ (f + pow2 o) * 4096 < U64 /\ addr_of f = f * 4096.
Proof.
  intros HK []. simpl in *. destruct hd_zone0 as (z & Hz & Hr).
  pose proof (in_range_bound _ _ _ (zi_range _ _ _ _ (ki_zone _ _ HK _ z Hz)) Hr) as Hb.
  pose proof (pow2_pos o). split_and!; [done|lia|]. apply addr_of_mul; lia.
Qed.

(** Freeing a held block either gives it back or, when the watched frame lies
    inside it, leaves the kernel as it is. *)
Lemma free_held k Ls o f :
  kernel_inv k Ls -> held k Ls (o, f) -> (forall p, page_of (o, f) p -> clean (k_mem k) p) ->
  (watch_hit (k_watched k) (f * 4096) o = Done true /\ free (addr_of f) o k = Done (Ok tt, k)) \/
  (watch_hit (k_watched k) (f * 4096) o = Done false /\
   exists k' Ls', free (addr_of f) o k = Done (Ok tt, k') /\ free_spec k Ls o f k' Ls').
Proof.
  intros HK Hh Hc. destruct (held_bound k Ls o f HK Hh) as (Hf0 & Hb & ->).
  pose proof (pow2_pos o).
  assert (exists b, watch_hit (k_watched k) (f * 4096) o = Done b) as [[] Hw].
  { unfold watch_hit. destruct (k_watched k =? 0); [by eexists|].
    rewrite block_bytes_mul by apply (hd_order _ _ _ Hh). unfold add64.
    destruct (Z.ltb_spec (f * 4096 + pow2 o * 4096) U64); [|lia]. by eexists. }
  - left. split; [done|]. unfold free. pose proof (hd_order _ _ _ Hh) as Ho. simpl in Ho.
    destruct (Nat.ltb_spec MAX_ORDER o); [lia|]. rewrite is_aligned_frame by lia.
    cbn [mbind outcome_bind negb]. by rewrite Hw.
  - right. split; [done|]. apply free_ok; [done|]. by apply held_freeable.
Qed.

(** Writes to held pages do not touch the free lists. *)
Lemma kernel_inv_write k owned Ls m' :
  sys_inv k owned Ls -> (forall p, ~ owned_page owned p -> m' (p * 4096) = k_mem k (p * 4096)) ->
  (k_pdb k = None -> forall p, owned_page owned p -> clean m' p) ->
  kernel_inv (k_set_mem m' k) Ls.
Proof.
  intros [HK Hh _] Hw Hcl. rewrite Forall_forall in Hh.
  assert (forall p, owned_page owned p -> ~ kfree Ls p) as Hnf.
  { intros p (b & Hb & Hp). by apply (hd_live _ _ _ (Hh b Hb)). }
  constructor; try apply HK. simpl. intros i z Hz.
  pose proof (ki_zone _ _ HK i z Hz) as Hinv. constructor; try apply Hinv.
  - intros o. eapply seg_frame; [|apply Hinv]. intros f Hf. apply Hw. intros Hown.
    apply (Hnf f Hown). exists i. split; [rewrite <- (ki_len _ _ HK); by eapply lookup_lt_Some|].
    by apply (listed_free_page o).
  - intros p Hp HF Hn. destruct (decide (Exists (fun b : Block => snd b <= p < snd b + pow2 (fst b)) owned)) as [Ho|Ho].
    + apply Exists_exists in Ho as (b & Hb & Hpb).
      pose proof (hd_entry _ _ _ (Hh b Hb) p Hpb) as He.
      destruct (k_pdb k) as [w|] eqn:Hk; [|apply Hcl; [done|by exists b]].
      destruct He as (e & Hg & Hnf' & _). simpl in HF. unfold page_free in HF. rewrite Hg in HF.
      congruence.
    + rewrite Hw; [by apply (zi_canary _ _ _ _ Hinv)|]. intros (b & Hb & Hpb). apply Ho.
      apply Exists_exists. by exists b.
Qed.

Lemma sys_inv_alloc k owned Ls order f k' Ls' :
  sys_inv k owned Ls -> (order <= MAX_ORDER)%nat -> alloc_spec k Ls order f k' Ls' ->
  sys_inv k' ((order, f) :: owned) Ls'.
Proof.
  intros [HK Hh Hd] Ho Ha. constructor; [apply Ha| |].
  - constructor; [by eapply alloc_held|]. eapply Forall_impl; [exact Hh|].
    intros b Hb. by apply (alloc_keeps _ _ _ _ _ _ b Ha).
  - split; [|done]. eapply Forall_impl; [exact Hh|].
    intros b Hb. by apply (alloc_keeps _ _ _ _ _ _ b Ha).
Qed.

Lemma sys_inv_perm k owned owned' Ls : owned ≡ₚ owned' -> sys_inv k owned Ls -> sys_inv k owned' Ls.
Proof.
  intros HP [HK Hh Hd]. constructor; [done|by rewrite <- HP|by eapply all_disjoint_perm].
Qed.

Lemma sys_inv_free k owned Ls o f k' Ls' :
  sys_inv k ((o, f) :: owned) Ls -> free_spec k Ls o f k' Ls' -> sys_inv k' owned Ls'.
Proof.
  intros [HK Hh [Hd1 Hd2]] Hf. apply Forall_cons in Hh as [Hb Hh].
  constructor; [apply Hf| |done].
  rewrite Forall_forall in Hh, Hd1 |- *. intros c Hc. eapply free_keeps; eauto.
Qed.

Lemma held_same_view k k' Ls b :
  k_zones k' = k_zones k -> k_pdb k' = k_pdb k -> held k Ls b -> held k' Ls b.
Proof.
  intros Hz Hp Hb. eapply held_mono; [exact Hb| |done|by rewrite Hp].
  intros i z Hi. exists z. by rewrite Hz.
Qed.

(** Free and held pages together, which allocation and freeing conserve. *)
Definition managed (Ls : nat -> nat -> list Z) (owned : list Block) (p : Z) : Prop :=
  kfree Ls p \/ owned_page owned p.

Lemma owned_page_cons b owned p : owned_page (b :: owned) p <-> page_of b p \/ owned_page owned p.
Proof. unfold owned_page. setoid_rewrite elem_of_cons; naive_solver. Qed.

Lemma owned_page_perm l l' p : l ≡ₚ l' -> owned_page l p <-> owned_page l' p.
Proof. intros HP. unfold owned_page. by setoid_rewrite HP. Qed.

(** One step keeps the invariant; the managed pages never grow, and are the
    same as long as no frame is watched. *)
Lemma step_inv k owned k' owned' Ls :
  sys_inv k owned Ls -> step (k, owned) (k', owned') ->
  exists Ls', sys_inv k' owned' Ls' /\
    (forall p, managed Ls' owned' p -> managed Ls owned p) /\
    (k_watched k = 0 -> forall p, managed Ls owned p -> managed Ls' owned' p).
Proof.
  intros Hs Hstep. pose proof Hs as [HK Hh Hd].
  inversion Hstep as [? ? req a ? Ha|? ? req e ? Ha|? ? o f ? r ? HP Hc Hf|? ? m' Hm Hcl|? ? phys Hph];
    subst; clear Hstep.
  - destruct (decide (ar_order req <= MAX_ORDER)%nat) as [Ho|Ho].
    2: { unfold alloc in Ha. destruct (Nat.ltb_spec MAX_ORDER (ar_order req)); [done|lia]. }
    destruct (alloc_cases k Ls req HK Ho) as [[_ Heq]|[_ (f & k1 & Ls' & Heq & Hs')]];
      rewrite Heq in Ha; simplify_eq.
    pose proof (as_pages _ _ _ _ _ _ Hs') as Hpg. rewrite frame_of_mul. exists Ls'. split; [by eapply sys_inv_alloc|].
    unfold managed. split; [|intros _]; intros p; rewrite owned_page_cons, Hpg; unfold page_of; simpl; tauto.
  - exists Ls. split; [|done]. unfold alloc in Ha.
    destruct (Nat.ltb_spec MAX_ORDER (ar_order req)); [by injection Ha as _ <-|].
    destruct (alloc_cases k Ls req HK) as [[_ Heq]|[_ (f & k1 & Ls' & Heq & Hs')]]; [lia| |];
      unfold alloc in Heq; (destruct (Nat.ltb_spec MAX_ORDER (ar_order req)); [lia|]);
      rewrite Heq in Ha; simplify_eq.
    constructor; [by apply kernel_inv_failure| |done].
    eapply Forall_impl; [exact Hh|]. intros b Hb. by apply (held_same_view k).
  - apply (sys_inv_perm _ _ _ _ HP) in Hs. pose proof (sy_held _ _ _ Hs) as [Hb _]%Forall_cons.
    destruct (free_held k Ls o f HK Hb Hc) as [[Hw Heq]|[Hw (k1 & Ls' & Heq & Hs')]];
      rewrite Heq in Hf; simplify_eq.
    + exists Ls. unfold managed. setoid_rewrite (owned_page_perm _ _ _ HP).
      setoid_rewrite owned_page_cons. split; [|split; [tauto|]].
      * destruct Hs as [_ [_ Hh']%Forall_cons [_ Hd']]. by constructor.
      * intros H0. unfold watch_hit in Hw. rewrite H0 in Hw. done.
    + exists Ls'. split; [by eapply sys_inv_free|]. pose proof (fs_pages _ _ _ _ _ _ Hs') as Hpg.
      unfold managed. setoid_rewrite (owned_page_perm _ _ _ HP). setoid_rewrite owned_page_cons.
      setoid_rewrite Hpg. unfold page_of. simpl. split; [|intros _]; intros p; tauto.
  - exists Ls. split; [|done]. constructor; [by eapply kernel_inv_write| |done].
    eapply Forall_impl; [exact Hh|]. intros b Hb. by apply (held_same_view k).
  - exists Ls. split; [|done]. constructor; [by eapply kernel_inv_ext; [..|exact HK]| |done].
    eapply Forall_impl; [exact Hh|]. intros b Hb. by apply (held_same_view k).
Qed.
