(* ===== verification/BuddyBoot.v ===== *)
(** * The buddy allocator at boot

    [init], [add_region] and [add_to_zone] establish the kernel invariant from
    any boot memory map of disjoint regions: afterwards the free pages are
    exactly the whole pages of the usable regions, page 0 excepted. *)
From S2P Require Import Prelude Addr Zone PageDb Buddy BuddyInv BuddyZone BuddySpec.

(** ** Carving a range into blocks *)

Lemma fit_order_spec order f n :
  0 < n -> let o := fit_order order f (n * 4096) in
  (o <= order)%nat /\ (pow2 o | f) /\ pow2 o <= n.
Proof.
  intros Hn. induction order as [|order IH]; cbn [fit_order].
  { rewrite pow2_0. split; [lia|]. split; [apply Z.divide_1_l|lia]. }
  destruct (Z.leb_spec (pow2 (S order) * FRAME_SIZE) (n * 4096)) as [Hle|]; simpl.
  2: { destruct IH as (? & ? & ?). split_and!; [lia|done..]. }
  rewrite land_mask_mod. destruct (Z.eqb_spec (f mod pow2 (S order)) 0) as [Hm|_].
  - split; [lia|]. split; [|unfold FRAME_SIZE in Hle; lia].
    apply Z.mod_divide; [pose proof (pow2_pos (S order)); lia|done].
  - destruct IH as (? & ? & ?). split_and!; [lia|done..].
Qed.

(** Scrubbing the header of a page that is in no list. *)
Lemma zone_inv_scrub z m db L f :
  zone_inv z m db L -> ~ free_page L f -> zone_inv z (mem_write m (f * 4096) scrubbed_block) db L.
Proof.
  intros Hinv Hn. constructor; try apply Hinv.
  - intros o. eapply seg_frame; [|apply Hinv]. intros g Hg. unfold mem_write.
    destruct (Z.eqb_spec (f * 4096) (g * 4096)); [|done]. assert (g = f) by lia. subst.
    destruct Hn. by eapply listed_free_page.
  - intros p Hp HF Hl. unfold mem_write.
    destruct (f * 4096 =? p * 4096); [done|]. by apply (zi_canary _ _ _ _ Hinv).
Qed.

Record carve_spec (db : option PdbWorld) (z : MemoryZone) (m : Memory) (L : nat -> list Z)
    (f n : Z) (z' : MemoryZone) (m' : Memory) (L' : nat -> list Z) : Prop := {
  cv_inv : zone_inv z' m' db L';
  cv_stats : stats_ok z' L';
  cv_shape : same_shape z z';
  cv_writes : writes_only (fun p => free_page L p \/ f <= p < f + n) m m';
  cv_pages : forall p, free_page L' p <-> free_page L p \/ f <= p < f + n
}.

(** [add_blocks] frees [n] pages from [f] on; one unit of fuel per page and
    one for the final test are enough. *)
Lemma add_blocks_spec db fuel : forall z m s L f n,
  zone_inv z m db L -> stats_ok z L -> 0 < f -> 0 <= n < Z.of_nat fuel ->
  mz_base z <= f * 4096 -> (f + n) * 4096 <= mz_base z + mz_size z ->
  (forall p, f <= p < f + n -> ~ free_page L p) -> (forall p, f <= p < f + n -> Fof db p) ->
  exists z' m' s' L', add_blocks fuel z m s (f * 4096) (n * 4096) = Done (z', m', s') /\
    carve_spec db z m L f n z' m' L'.
Proof.
  induction fuel as [|fuel IH]; intros z m s L f n Hinv Hst Hf0 Hn Hb1 Hb2 Hnf HF; [lia|].
  cbn [add_blocks]. unfold FRAME_SIZE at 1. destruct (Z.ltb_spec (n * 4096) 4096) as [Hz|Hnz].
  { assert (n = 0) as -> by lia. exists z, m, s, L. split; [done|].
    constructor; try done. intros p. intuition lia. }
  rewrite frame_of_mul. set (o := fit_order MAX_ORDER f (n * 4096)).
  destruct (fit_order_spec MAX_ORDER f n ltac:(lia)) as (Ho & Hdiv & Hle). fold o in Ho, Hdiv, Hle.
  pose proof (pow2_pos o) as Hpo.
  assert (forall p, in_block o f p -> ~ free_page L p) as Hblk
    by (intros p Hp; apply Hnf; unfold in_block in Hp; lia).
  pose proof (zone_inv_scrub z m db L f Hinv (Hnf f ltac:(lia))) as Hinv1.
  destruct (add_free_block_spec Hinv1 o f) as (z1 & m1 & -> & Hinv2 & Hsh & Hst1 & Hw); try done.
  { unfold in_range. lia. } { by apply free_page_apart. } { intros p Hp. apply HF. lia. }
  { unfold mem_write. by rewrite Z.eqb_refl. }
  cbn [mbind outcome_bind]. destruct (zi_range _ _ _ _ Hinv) as (? & ? & ?).
  unfold add64, sub64, FRAME_SIZE.
  destruct (Z.ltb_spec (f * 4096 + pow2 o * 4096) U64); [|lia]. cbn [mbind outcome_bind].
  destruct (Z.leb_spec (pow2 o * 4096) (n * 4096)); [|lia]. cbn [mbind outcome_bind].
  replace (f * 4096 + pow2 o * 4096) with ((f + pow2 o) * 4096) by lia.
  replace (n * 4096 - pow2 o * 4096) with ((n - pow2 o) * 4096) by lia.
  destruct Hsh as (Hty & Hba & Hsz).
  edestruct (IH (bump_free_pages (fun p => wadd64 p 1) o z1) m1
    (stats_add_region (pow2 o * 4096) s) (upd L o (f :: L o)) (f + pow2 o) (n - pow2 o))
    as (z' & m' & s' & L' & -> & []).
  { by apply zone_inv_bump. } { by apply (stats_track_added _ _ _ _ _ _ _ _ Hinv1). }
  { lia. } { lia. } { simpl. lia. } { simpl. lia. }
  { intros p Hp. rewrite free_page_upd_cons. intros [Hfp|Hin]; [|lia]. apply (Hnf p); [lia|done]. }
  { intros p Hp. apply HF. lia. }
  eexists _, _, _, L'. split; [reflexivity|]. constructor; try done.
  - eapply same_shape_trans; [|done]. done.
  - intros p Hp. rewrite cv_writes0.
    + rewrite Hw; [|intros [-> | ?]; apply Hp; [right; lia|by left]].
      unfold mem_write. destruct (Z.eqb_spec (f * 4096) (p * 4096)); [|done].
      destruct Hp. right. lia.
    + rewrite free_page_upd_cons. intros Hq. apply Hp. intuition lia.
  - intros p. rewrite cv_pages0, free_page_upd_cons. intuition lia.
Qed.

(** ** Zones while the memory map is being read *)

Definition zone_within (t : ZoneType) (z : MemoryZone) : Prop :=
  mz_size z = 0 \/ (zone_start t <= mz_base z /\ mz_base z + mz_size z <= zone_end t).

Definition clean_page (m : Memory) (p : Z) : Prop := fb_magic (m (p * 4096)) <> FREE_BLOCK_MAGIC.

(** Before the page database exists: the zones lie within their address
    intervals and memory outside them holds no stray free-block magic. *)
Record boot_inv (k : Kernel) (Ls : nat -> nat -> list Z) : Prop := {
  bi_kernel : kernel_inv k Ls;
  bi_within : forall t z, k_zones k !! zone_index t = Some z -> zone_within t z;
  bi_outside : forall p, 0 <= p -> (forall i z, k_zones k !! i = Some z -> ~ page_in_zone z p) ->
    clean_page (k_mem k) p;
  bi_pdb : k_pdb k = None
}.

(** The address interval of a zone, and [for_address] as its inverse. *)
Definition in_interval (t : ZoneType) (a : Z) : Prop := zone_start t <= a < zone_end t.

Lemma for_address_interval t a : in_interval t a -> for_address a = t.
Proof.
  unfold in_interval, for_address, DMA_ZONE_END, NORMAL_ZONE_END.
  destruct t; unfold zone_start, zone_end, DMA_ZONE_END, NORMAL_ZONE_END;
    repeat (case_match; try done); lia.
Qed.

Lemma zone_within_home t z : zone_within t z -> zone_home (zone_index t) z.
Proof.
  intros Hw p Hp. rewrite (for_address_interval t); [done|].
  unfold page_in_zone in Hp. unfold in_interval. destruct Hw; lia.
Qed.

Record grow_spec (t : ZoneType) (z : MemoryZone) (m : Memory) (L : nat -> list Z) (f n : Z)
    (z' : MemoryZone) : Prop := {
  gr_inv : zone_inv z' m None L;
  gr_stats : stats_ok z' L;
  gr_within : zone_within t z';
  gr_low : mz_base z' <= f * 4096;
  gr_high : (f + n) * 4096 <= mz_base z' + mz_size z';
  gr_sub : forall p, page_in_zone z p -> page_in_zone z' p
}.

Lemma zone_bounds t : 0 <= zone_start t /\ zone_end t < U64.
Proof. destruct t; vm_compute; split; congruence. Qed.

(** A zone with the same lists and a range that covers the old one. *)
Lemma zone_inv_range z z' m L :
  zone_inv z m None L -> zone_range_ok z' -> mz_free_lists z' = mz_free_lists z ->
  (forall p, page_in_zone z' p -> ~ page_in_zone z p -> clean_page m p) ->
  (forall o f, in_range z o f -> in_range z' o f) -> zone_inv z' m None L.
Proof.
  intros Hinv Hr Hl Hc Hsub. constructor; rewrite ?Hl; try apply Hinv; [done| |].
  - intros o f Hf. destruct (zi_block _ _ _ _ Hinv o f Hf) as (? & ? & ?). auto.
  - intros p Hp HF Hn. destruct (decide (mz_base z <= p * 4096 < mz_base z + mz_size z)).
    + by apply (zi_canary _ _ _ _ Hinv).
    + by apply Hc.
Qed.

Lemma grow_zone_spec t z m L f n :
  zone_inv z m None L -> stats_ok z L -> zone_within t z -> 0 < n ->
  zone_start t <= f * 4096 -> (f + n) * 4096 <= zone_end t ->
  (forall p, in_interval t (p * 4096) -> ~ page_in_zone z p -> clean_page m p) ->
  exists z', grow_zone z (f * 4096) (n * 4096) = Done z' /\ grow_spec t z m L f n z'.
Proof.
  intros Hinv Hst Hw Hn Hlo Hhi Hc. destruct (zone_bounds t) as [Hz0 Hz1].
  destruct (zi_range _ _ _ _ Hinv) as (Hb0 & Hs0 & Hbs).
  unfold grow_zone, MemoryZone_is_empty. destruct (Z.eqb_spec (mz_size z) 0) as [He|Hne].
  - eexists. split; [reflexivity|]. constructor; simpl; try lia.
    + eapply zone_inv_range; [done| |done| |].
      * unfold zone_range_ok. simpl. lia.
      * unfold page_in_zone, in_interval in *. simpl. intros p Hp Hp'. apply Hc; lia.
      * unfold in_range. intros o g Hg. pose proof (pow2_pos o). lia.
    + done.
    + right. simpl. lia.
    + unfold page_in_zone. simpl. lia.
  - destruct Hw as [?|Hw]; [lia|]. unfold add64, sub64.
    destruct (Z.ltb_spec (f * 4096 + n * 4096) U64); [|lia]. cbn [mbind outcome_bind].
    destruct (Z.ltb_spec (mz_base z + mz_size z) U64); [|lia]. cbn [mbind outcome_bind].
    set (b := Z.min (f * 4096) (mz_base z)).
    set (e := Z.max (f * 4096 + n * 4096) (mz_base z + mz_size z)).
    destruct (Z.leb_spec b e); [|lia]. cbn [mbind outcome_bind].
    eexists. split; [reflexivity|].
    constructor; simpl; try lia.
    + eapply zone_inv_range; [done| |done| |].
      * unfold zone_range_ok. simpl. lia.
      * unfold page_in_zone, in_interval in *. simpl. intros p Hp Hp'. apply Hc; lia.
      * unfold in_range. simpl. lia.
    + done.
    + right. simpl. lia.
    + unfold page_in_zone. simpl. lia.
Qed.

(** ** Adding a range to its zone *)

Lemma lookup_insert_cases {A} (l : list A) i j x y :
  <[i := x]> l !! j = Some y -> (j = i /\ y = x) \/ (j <> i /\ l !! j = Some y).
Proof.
  intros Hl. destruct (decide (i = j)) as [->|Hne].
  - left. split; [done|]. apply list_lookup_insert_Some in Hl. naive_solver.
  - rewrite list_lookup_insert_ne in Hl by done. right. auto.
Qed.

(** Replacing zone [t] by a grown zone into which pages were carved. *)
Lemma boot_inv_set_zone k Ls t z z1 z2 m' L' f n g c s :
  boot_inv k Ls -> k_zones k !! zone_index t = Some z ->
  grow_spec t z (k_mem k) (Ls (zone_index t)) f n z1 ->
  carve_spec None z1 (k_mem k) (Ls (zone_index t)) g c z2 m' L' -> f <= g -> g + c <= f + n ->
  boot_inv (k_map_stats s (k_set_zone (zone_index t) z2 m' k)) (kupd Ls (zone_index t) L').
Proof.
  set (i := zone_index t). intros [HK Hwi Hout Hpdb] Hz [] [] Hg1 Hg2.
  destruct cv_shape0 as (Hty & Hba & Hsz).
  assert (zone_within t z2) as Hw2 by (unfold zone_within in *; by rewrite Hba, Hsz).
  assert (forall p, page_in_zone z1 p -> page_in_zone z2 p) as Hsub
    by (unfold page_in_zone; by rewrite Hba, Hsz).
  assert (forall p, ~ page_in_zone z2 p -> m' (p * 4096) = k_mem k (p * 4096)) as Hw.
  { intros p Hp. apply cv_writes0. intros [Hfp|Hin]; apply Hp, Hsub.
    - by eapply free_page_zone.
    - unfold page_in_zone. lia. }
  constructor.
  - constructor; simpl.
    + rewrite length_insert. apply HK.
    + intros j zj [[-> ->]|[Hne Hj]]%lookup_insert_cases; unfold kupd.
      * rewrite decide_True, Hpdb by done. done.
      * rewrite decide_False by done. eapply zone_inv_frame; [by apply HK|].
        intros p Hp. apply Hw. intros Hp2. apply (zone_within_home t z2 Hw2) in Hp2.
        apply (ki_home _ _ HK j zj Hj) in Hp. unfold i in Hne. congruence.
    + intros j zj [[-> ->]|[Hne Hj]]%lookup_insert_cases; unfold kupd.
      * by rewrite decide_True.
      * rewrite decide_False by done. by apply HK.
    + intros j zj [[-> ->]|[Hne Hj]]%lookup_insert_cases; [by apply zone_within_home|].
      by apply HK.
    + apply HK.
  - intros t' z' [[Ht ->]|[Hne Hj]]%lookup_insert_cases; [|by apply Hwi].
    assert (t' = t) as -> by (unfold i in Ht; by destruct t', t). done.
  - intros p Hp0 Hp. unfold clean_page. simpl in *.
    assert (~ page_in_zone z2 p) as Hp2.
    { apply (Hp i). apply list_lookup_insert_eq. by eapply lookup_lt_Some. }
    rewrite Hw by done. apply Hout; [done|]. intros j zj Hj Hpj.
    destruct (decide (i = j)) as [<-|Hne].
    + rewrite Hz in Hj. simplify_eq. by apply Hp2, Hsub, gr_sub0.
    + apply (Hp j zj); [by rewrite list_lookup_insert_ne|done].
  - done.
Qed.

Lemma add_to_zone_spec k Ls t f n :
  boot_inv k Ls -> 0 <= f -> 0 < n -> zone_start t <= f * 4096 -> (f + n) * 4096 <= zone_end t ->
  (forall p, f <= p < f + n -> ~ kfree Ls p) ->
  exists k' Ls', add_to_zone t (f * 4096) (n * 4096) k = Done k' /\ boot_inv k' Ls' /\
    forall p, kfree Ls' p <-> kfree Ls p \/ (f <= p < f + n /\ p <> 0).
Proof.
  intros HB Hf Hn Hlo Hhi Hnf. pose proof HB as [HK Hwi Hout Hpdb].
  set (i := zone_index t). assert (i < 3)%nat as Hi by (unfold i; destruct t; simpl; lia).
  destruct (kernel_zone _ _ i HK Hi) as [z Hz].
  unfold add_to_zone. fold i. rewrite Hz. cbn [or_fault mbind outcome_bind].
  pose proof (ki_zone _ _ HK i z Hz) as Hinv. rewrite Hpdb in Hinv.
  destruct (grow_zone_spec t z (k_mem k) (Ls i) f n) as (z1 & -> & Hgr);
    [done|by apply (ki_stats _ _ HK)|by apply Hwi|done..| |].
  { intros p Hp Hnp. destruct (zone_bounds t). apply Hout; [unfold in_interval in Hp; lia|].
    intros j zj Hj Hpj. assert (j = i) as ->.
    { rewrite <- (ki_home _ _ HK j zj Hj p Hpj). by rewrite (for_address_interval t). }
    by simplify_eq. }
  cbn [mbind outcome_bind].
  set (g := Z.max 1 f).
  assert ((if (f * 4096 =? 0) && (FRAME_SIZE <=? n * 4096) then (f * 4096 + FRAME_SIZE, n * 4096 - FRAME_SIZE)
           else (f * 4096, n * 4096)) = (g * 4096, (f + n - g) * 4096)) as ->.
  { unfold FRAME_SIZE, g. destruct (Z.eqb_spec (f * 4096) 0); destruct (Z.leb_spec 4096 (n * 4096));
      simpl; f_equal; lia. }
  replace ((f + n - g) * 4096 / FRAME_SIZE) with (f + n - g) by (unfold FRAME_SIZE; by rewrite Z.div_mul).
  pose proof Hgr as [].
  destruct (add_blocks_spec None (S (Z.to_nat (f + n - g))) z1 (k_mem k) (k_stats k) (Ls i) g (f + n - g))
    as (z2 & m2 & s2 & L' & -> & Hcv); try done; try lia.
  { intros p Hp Hfp. apply (Hnf p); [lia|]. by exists i. }
  cbn [mbind outcome_bind]. eexists _, (kupd Ls i L'). split; [reflexivity|]. split.
  - eapply boot_inv_set_zone; try done; lia.
  - intros p. rewrite kfree_kupd, (kfree_split Ls i), (cv_pages _ _ _ _ _ _ _ _ _ Hcv) by done.
    unfold g. assert (g <= p < g + (f + n - g) <-> f <= p < f + n /\ p <> 0) as Hg by lia.
    fold g. rewrite Hg. tauto.
Qed.

(** ** Regions *)

(** Iterations of [add_region_loop] still to come. *)
Definition zones_left (c e : Z) : nat :=
  if c <? e then 3 - zone_index (for_address (c * 4096)) else 0.

(** The part of [c, e) in the zone of [c] is the whole pages [c, e'), and what
    is left needs fewer iterations. *)
Lemma zone_cut c e :
  0 <= c < e -> e * 4096 < U64 ->
  let t := for_address (c * 4096) in
  exists e', Z.min (zone_end t) (e * 4096) = e' * 4096 /\ c < e' <= e /\
    zone_start t <= c * 4096 /\ e' * 4096 <= zone_end t /\ (zones_left e' e < zones_left c e)%nat.
Proof.
  intros Hc He t. unfold zones_left at 2. destruct (Z.ltb_spec c e); [|lia]. fold t.
  destruct (for_address_bounds (c * 4096)) as [H1 H2]; [unfold U64_MAX, U64 in *; lia|].
  fold t in H1, H2.
  assert (exists e', Z.min (zone_end t) (e * 4096) = e' * 4096) as [e' He'].
  { destruct (Z.min_spec (zone_end t) (e * 4096)) as [[Hlt ->]|[_ ->]]; [|by eexists].
    destruct t; [exists 4096|exists 1048576|]; try done.
    unfold zone_end, U64_MAX, U64 in *. lia. }
  exists e'. split; [done|]. split; [lia|]. split; [done|]. split; [lia|].
  unfold zones_left. destruct (Z.ltb_spec e' e).
  - assert (e' * 4096 = zone_end t) as Hez by lia.
    rewrite Hez. destruct t; simpl; [vm_compute; lia..|].
    unfold zone_end, U64_MAX, U64 in *. lia.
  - destruct t; simpl; lia.
Qed.

Lemma add_region_loop_spec fuel : forall k Ls c e,
  boot_inv k Ls -> 0 <= c <= e -> e * 4096 < U64 -> (zones_left c e < fuel)%nat ->
  (forall p, c <= p < e -> ~ kfree Ls p) ->
  exists k' Ls', add_region_loop fuel (c * 4096) (e * 4096) k = Done k' /\ boot_inv k' Ls' /\
    forall p, kfree Ls' p <-> kfree Ls p \/ (c <= p < e /\ p <> 0).
Proof.
  induction fuel as [|fuel IH]; intros k Ls c e HB Hc He Hfuel Hnf; [lia|].
  cbn [add_region_loop]. destruct (Z.ltb_spec (c * 4096) (e * 4096)) as [Hlt|Hge].
  2: { exists k, Ls. split; [done|]. split; [done|]. intros p. intuition lia. }
  destruct (zone_cut c e ltac:(lia) He) as (e' & -> & He' & Hlo & Hhi & Hr).
  unfold sub64. destruct (Z.leb_spec (c * 4096) (e' * 4096)); [|lia]. cbn [mbind outcome_bind].
  replace (e' * 4096 - c * 4096) with ((e' - c) * 4096) by lia.
  unfold FRAME_SIZE. destruct (Z.leb_spec 4096 ((e' - c) * 4096)); [|lia].
  destruct (add_to_zone_spec k Ls (for_address (c * 4096)) c (e' - c)) as (k1 & Ls1 & -> & HB1 & Hp1);
    try done; try lia.
  { intros p Hp. apply Hnf. lia. }
  cbn [mbind outcome_bind].
  destruct (IH k1 Ls1 e' e) as (k2 & Ls2 & -> & HB2 & Hp2); try done; try lia.
  { intros p Hp. rewrite Hp1. intros [Hk|Hk]; [by apply (Hnf p); [lia|]|lia]. }
  exists k2, Ls2. split; [done|]. split; [done|].
  intros p. rewrite Hp2, Hp1. intuition lia.
Qed.

(** ** The memory map *)

(** The whole pages of a usable region. *)
Definition region_page (r : Z * Z * bool) (p : Z) : Prop :=
  let '(start, len, usable) := r in
  usable = true /\ start <= p * 4096 /\ (p + 1) * 4096 <= start + len.

Definition region_ok (r : Z * Z * bool) : Prop :=
  let '(start, len, _) := r in 0 <= start /\ 0 <= len /\ start + len + 4096 < U64.

Fixpoint regions_disjoint (rs : list (Z * Z * bool)) : Prop :=
  match rs with
  | [] => True
  | r :: rs' => Forall (fun r' => forall p, region_page r p -> ~ region_page r' p) rs' /\ regions_disjoint rs'
  end.

Lemma region_bounds start len :
  region_ok (start, len, true) ->
  exists c e, page_align_up start = Done (c * 4096) /\ page_align_down (start + len) = Done (e * 4096) /\
    0 <= c /\ e * 4096 <= start + len /\ forall p, region_page (start, len, true) p <-> c <= p < e.
Proof.
  intros (Hs & Hl & Hsl).
  pose proof (Z.div_mod (start + 4095) 4096). pose proof (Z.div_mod (start + len) 4096).
  pose proof (Z.mod_pos_bound (start + 4095) 4096). pose proof (Z.mod_pos_bound (start + len) 4096).
  exists ((start + 4095) / 4096), ((start + len) / 4096).
  rewrite page_align_up_spec, page_align_down_spec by lia.
  split; [f_equal; lia|]. split; [f_equal; lia|]. split; [lia|]. split; [lia|].
  intros p. simpl. intuition lia.
Qed.

Lemma init_regions_spec rs : forall k Ls,
  boot_inv k Ls -> Forall region_ok rs -> regions_disjoint rs ->
  (forall r p, r ∈ rs -> region_page r p -> ~ kfree Ls p) ->
  exists k' Ls', init_regions rs k = Done k' /\ boot_inv k' Ls' /\
    forall p, kfree Ls' p <-> kfree Ls p \/ (p <> 0 /\ exists r, r ∈ rs /\ region_page r p).
Proof.
  induction rs as [|[[start len] usable] rs IH]; intros k Ls HB Hok Hd Hnf; cbn [init_regions].
  { exists k, Ls. split; [done|]. split; [done|]. set_solver. }
  apply Forall_cons in Hok as [(Hs & Hl & Hsl) Hok]. destruct Hd as [Hd1 Hd2]. rewrite Forall_forall in Hd1.
  assert (forall k1 Ls1, boot_inv k1 Ls1 ->
    (forall p, kfree Ls1 p <-> kfree Ls p \/ (p <> 0 /\ region_page (start, len, usable) p)) ->
    exists k' Ls', init_regions rs k1 = Done k' /\ boot_inv k' Ls' /\
      forall p, kfree Ls' p <-> kfree Ls p \/ (p <> 0 /\ exists r, r ∈ (start, len, usable) :: rs /\ region_page r p))
    as Hrest.
  { intros k1 Ls1 HB1 Hp1. destruct (IH k1 Ls1 HB1 Hok Hd2) as (k' & Ls' & Heq & HB' & Hp').
    - intros r p Hr Hp. rewrite Hp1. intros [Hk|[_ Hk]]; [by apply (Hnf r p); [by right|..]|].
      by apply (Hd1 r Hr p).
    - exists k', Ls'. split; [done|]. split; [done|]. intros p. rewrite Hp', Hp1.
      setoid_rewrite elem_of_cons. naive_solver. }
  destruct (negb usable || (len =? 0)) eqn:Hskip.
  { apply (Hrest k Ls HB). intros p. simpl. destruct usable; simpl in Hskip; [|naive_solver].
    apply Z.eqb_eq in Hskip. intuition lia. }
  destruct usable; [|done].
  destruct (region_bounds start len) as (c & e & -> & Hae & Hc & He & Hrp); [done|].
  cbn [mbind outcome_bind]. unfold add64.
  destruct (Z.ltb_spec (start + len) U64); [|lia]. cbn [mbind outcome_bind].
  rewrite Hae. cbn [mbind outcome_bind].
  destruct (Z.leb_spec (e * 4096) (c * 4096)).
  { apply (Hrest k Ls HB). intros p. rewrite Hrp. intuition lia. }
  unfold add_region, add64. destruct (Z.ltb_spec (c * 4096 + (e * 4096 - c * 4096)) U64); [|lia].
  cbn [mbind outcome_bind]. replace (c * 4096 + (e * 4096 - c * 4096)) with (e * 4096) by lia.
  destruct (add_region_loop_spec 4 k Ls c e) as (k1 & Ls1 & -> & HB1 & Hp1); try done; try lia.
  { unfold zones_left. case_match; lia. }
  { intros p Hp. apply (Hnf (start, len, true)); [left|by apply Hrp]. }
  cbn [mbind outcome_bind]. apply (Hrest k1 Ls1 HB1). intros p. rewrite Hp1, Hrp. tauto.
Qed.

(** The allocator before [init]: three empty zones. *)
Definition unbooted (k : Kernel) : Prop :=
  k_zones k = BuddyAllocator_new /\ k_pdb k = None /\ forall p, 0 <= p -> clean_page (k_mem k) p.

Lemma unbooted_inv k : unbooted k -> boot_inv k (fun _ _ => []).
Proof.
  intros (Hz & Hp & Hc).
  assert (forall i z, k_zones k !! i = Some z -> exists t, i = zone_index t /\ z = MemoryZone_new t) as Hnew.
  { rewrite Hz. intros [|[|[|i]]] z Hi; simpl in Hi; simplify_eq; [by exists Dma|by exists Normal|by exists High]. }
  constructor; [constructor| | |done].
  - by rewrite Hz.
  - intros i z (t & -> & ->)%Hnew. rewrite Hp. constructor; try done.
    + intros o Ho. apply (lookup_replicate_2 (S MAX_ORDER) FreeListHead_new). unfold MAX_ORDER in *. lia.
    + intros o. constructor.
    + intros o f Hf%not_elem_of_nil. done.
    + intros o1 f1 o2 f2 Hf%not_elem_of_nil. done.
    + intros p [H1 H2]. simpl in *. lia.
  - intros i z (t & -> & ->)%Hnew o Ho. apply (lookup_replicate_2 (S MAX_ORDER) 0). unfold MAX_ORDER in *. lia.
  - intros i z (t & -> & ->)%Hnew p [H1 H2]. simpl in *. lia.
  - by rewrite Hp.
  - intros t z (t' & _ & ->)%Hnew. by left.
  - intros p Hp0 _. by apply Hc.
Qed.

Lemma buddy_init_spec rs k :
  unbooted k -> Forall region_ok rs -> regions_disjoint rs ->
  exists k' Ls, buddy_init rs k = Done k' /\ kernel_inv k' Ls /\ k_initialized k' = true /\
    k_pdb k' = None /\ forall p, kfree Ls p <-> p <> 0 /\ exists r, r ∈ rs /\ region_page r p.
Proof.
  intros Hk Hok Hd.
  destruct (init_regions_spec rs k (fun _ _ => []) (unbooted_inv k Hk) Hok Hd) as (k' & Ls & Heq & HB & Hp).
  { intros r p _ _ (i & _ & o & f & Hf & _). by apply not_elem_of_nil in Hf. }
  unfold buddy_init. rewrite Heq. eexists _, Ls. split; [reflexivity|].
  split; [by eapply kernel_inv_ext; [..|apply HB]|]. split; [done|]. split; [apply HB|].
  intros p. rewrite Hp. split; [|tauto]. intros [(i & _ & o & f & Hf & _)|]; [|done].
  by apply not_elem_of_nil in Hf.
Qed.
