(* ===== verification/BuddyCanon.v ===== *)
(** * Maximal coalescing and defence against corruption

    When no two buddies are both free, the free lists are determined by the
    set of free pages, so that an allocation followed by the matching free
    restores them.  For arbitrary, possibly corrupted, lists: allocation
    terminates and never returns a frame the page database has in use. *)
From S2P Require Import Prelude Addr Zone PageDb Buddy BuddyInv BuddyZone BuddySpec.

(** ** Canonical free lists *)

(** Aligned blocks are nested or disjoint. *)
Lemma aligned_nested o o' f g p :
  (o <= o')%nat -> (pow2 o | f) -> (pow2 o' | g) -> f <= p < f + pow2 o -> g <= p < g + pow2 o' ->
  g <= f /\ f + pow2 o <= g + pow2 o'.
Proof.
  intros Ho [a Ha] [b Hb] Hf Hg. pose proof (pow2_pos o). pose proof (pow2_divide o o' Ho) as [c Hc].
  assert (0 < c) by nia. subst f g. rewrite Hc in *.
  assert (b * c <= a) by nia. assert (a < (b + 1) * c) by nia. nia.
Qed.

(** A coalesced list covers every aligned free block by a single entry. *)
Lemma coalesced_covers z m db L o : forall f,
  zone_inv z m db L -> coalesced L -> (o <= MAX_ORDER)%nat -> (pow2 o | f) ->
  (forall p, in_block o f p -> free_page L p) ->
  exists o' g, g ∈ L o' /\ (o <= o')%nat /\ g <= f /\ f + pow2 o <= g + pow2 o'.
Proof.
  induction o as [|o IH]; intros f Hinv Hco Ho Hd Hf.
  { destruct (Hf f) as (o' & g & Hg & Hp); [unfold in_block; rewrite pow2_0; lia|].
    exists o', g. rewrite pow2_0. split_and!; [done|lia..]. }
  pose proof (pow2_pos o). pose proof (pow2_S o) as HS.
  assert ((pow2 o | f)) as Hd' by (eapply divide_order; [|exact Hd]; lia).
  destruct (IH f) as (o1 & g1 & Hg1 & Ho1 & Hl1 & Hh1); [done..|lia|done| |].
  { intros p Hp. apply Hf. unfold in_block in *. lia. }
  destruct (IH (f + pow2 o)) as (o2 & g2 & Hg2 & Ho2 & Hl2 & Hh2); [done..|lia| | |].
  { apply Z.divide_add_r; [done|apply Z.divide_refl]. }
  { intros p Hp. apply Hf. unfold in_block in *. lia. }
  destruct (zi_block _ _ _ _ Hinv o1 g1 Hg1) as (_ & Hdg1 & _).
  destruct (zi_block _ _ _ _ Hinv o2 g2 Hg2) as (_ & Hdg2 & _).
  destruct (decide (S o <= o1)%nat) as [Hle|Hgt].
  { destruct (aligned_nested (S o) o1 f g1 f Hle Hd Hdg1) as [H1 H2]; [lia..|]. eauto 10. }
  destruct (decide (S o <= o2)%nat) as [Hle|Hgt2].
  { destruct (aligned_nested (S o) o2 f g2 (f + pow2 o) Hle Hd Hdg2) as [H1 H2]; [lia..|]. eauto 10. }
  assert (o1 = o) by lia. assert (o2 = o) by lia. subst o1 o2.
  assert (g1 = f) by lia. assert (g2 = f + pow2 o) by lia. subst g1 g2.
  exfalso. apply (Hco o (f + pow2 o)); [lia|done|]. by rewrite buddy_high.
Qed.

Lemma canonical_sub z m db L z' m' db' L' :
  zone_inv z m db L -> coalesced L -> zone_inv z' m' db' L' -> coalesced L' ->
  (forall p, free_page L p <-> free_page L' p) -> forall o f, f ∈ L o -> f ∈ L' o.
Proof.
  intros Hinv Hco Hinv' Hco' Hp o f Hf. pose proof (pow2_pos o).
  destruct (zi_block _ _ _ _ Hinv o f Hf) as (_ & Hd & _).
  destruct (coalesced_covers z' m' db' L' o f) as (o1 & g1 & Hg1 & Ho1 & Hl1 & Hh1); try done.
  { by eapply (listed_order Hinv). } { intros p Hpb. apply Hp. by exists o, f. }
  destruct (zi_block _ _ _ _ Hinv' o1 g1 Hg1) as (_ & Hd1 & _).
  destruct (coalesced_covers z m db L o1 g1) as (o2 & g2 & Hg2 & Ho2 & Hl2 & Hh2); try done.
  { by eapply (listed_order Hinv'). } { intros p Hpb. apply Hp. by exists o1, g1. }
  destruct (listed_interior Hinv o2 g2 f o) as [-> ->]; [done|lia|done|].
  assert (o1 = o2) as -> by lia. assert (g1 = g2) as -> by lia. done.
Qed.

(** ** Corrupted free lists *)

Definition counts_ok (z : MemoryZone) : Prop := Forall (fun l => 0 <= flh_count l) (mz_free_lists z).

Definition list_counts (z : MemoryZone) : nat :=
  sum_list_with (fun l => Z.to_nat (flh_count l)) (mz_free_lists z).

Lemma sum_list_with_insert {A} (g : A -> nat) l i x y :
  l !! i = Some x -> (sum_list_with g (<[i := y]> l) + g x = sum_list_with g l + g y)%nat.
Proof.
  revert i. induction l as [|a l IH]; intros [|i] Hi; simpl in *; simplify_eq; [lia|].
  specialize (IH i Hi). lia.
Qed.

(** Whatever memory holds, popping never increases the list counts, and
    strictly decreases their sum when it yields a block. *)
Lemma pop_free_block_counts z m o r z' m' :
  counts_ok z -> pop_free_block z m o = Done (r, z', m') ->
  counts_ok z' /\ (list_counts z' <= list_counts z)%nat /\
  (r <> None -> (list_counts z' < list_counts z)%nat).
Proof.
  intros Hc. unfold pop_free_block. destruct (mz_free_lists z !! o) as [l|] eqn:Hl; [|done].
  cbn [or_fault mbind outcome_bind].
  assert (0 <= flh_count l) as Hl0 by exact (Forall_lookup_1 _ _ o l Hc Hl).
  assert (forall h c, 0 <= c <= flh_count l ->
    counts_ok (set_free_list z o (mkFLH h c)) /\
    (list_counts (set_free_list z o (mkFLH h c)) + Z.to_nat (flh_count l) = list_counts z + Z.to_nat c)%nat) as Hset.
  { intros h c Hb. split.
    - apply Forall_insert; [done|simpl; lia].
    - exact (sum_list_with_insert (fun l => Z.to_nat (flh_count l)) _ o l (mkFLH h c) Hl). }
  assert (forall h c, 0 <= c <= flh_count l -> z' = set_free_list z o (mkFLH h c) ->
    (r <> None -> c < flh_count l) ->
    counts_ok z' /\ (list_counts z' <= list_counts z)%nat /\
    (r <> None -> (list_counts z' < list_counts z)%nat)) as Hgo.
  { intros h c Hb -> Hr. destruct (Hset h c Hb). split_and!; [done|lia|]. intros Hn%Hr. lia. }
  destruct (Z.eqb_spec (flh_count l) 0); [intros [= <- <- <-]; split_and!; (done || lia)|].
  destruct (flh_head l =? 0); [intros [= <- <- <-]; by eapply Hgo; [|done|done]; lia|].
  destruct (block_in_zone z (addr_of (flh_head l)) o); simpl;
    [|intros [= <- <- <-]; by eapply Hgo; [|done|done]; lia].
  destruct (canary_ok (m (addr_of (flh_head l))) o); simpl.
  2: { unfold salvage_head. destruct (_ && canary_ok _ _); simpl; intros [= <- <- <-];
       (eapply Hgo; [|done|done]); repeat case_match; lia. }
  unfold relink_head, sub64.
  destruct (fb_next _ =? 0); [|destruct (block_in_zone z (addr_of (fb_next _)) o);
    [destruct (canary_ok (mem_write _ _ _ _) o)|]]; cbn [negb];
    repeat (case_match; cbn [mbind outcome_bind]); try done; intros [= <- <- <-];
    (eapply Hgo; [|done|intros _]); lia.
Qed.

(** None of the operations without a fuel argument runs out of fuel. *)
Lemma frames_free_fuel d a n : forall i, frames_free d a i n <> OutOfFuel.
Proof.
  induction n as [|n IH]; intros i; cbn [frames_free]; [done|]. unfold add64.
  case_match; [|done]. cbn [mbind outcome_bind]. case_match; [apply IH|done].
Qed.

Lemma block_is_free_fuel db a o : block_is_free db a o <> OutOfFuel.
Proof. destruct db; [apply frames_free_fuel|done]. Qed.

Lemma already_linked_fuel z b f : already_linked z b f <> OutOfFuel.
Proof. unfold already_linked. case_match; [|done]. by destruct (mz_free_lists z !! _). Qed.

Lemma pop_free_block_fuel z m o : pop_free_block z m o <> OutOfFuel.
Proof.
  unfold pop_free_block, sub64. destruct (mz_free_lists z !! o); [|done]. cbn [or_fault mbind outcome_bind].
  repeat (case_match; cbn [mbind outcome_bind]); done.
Qed.

Lemma add_free_block_fuel z m o a : add_free_block z m o a <> OutOfFuel.
Proof.
  unfold add_free_block. case_match; [done|]. destruct (mz_free_lists z !! o); [|done].
  cbn [or_fault mbind outcome_bind]. case_match; [done|].
  destruct (fb_magic (m a) =? FREE_BLOCK_MAGIC).
  - destruct (already_linked z (m a) (frame_of a)) as [[]| |] eqn:Hl; cbn [mbind outcome_bind]; try done;
      [|by apply already_linked_fuel in Hl].
    unfold link_old_head, add64. repeat (case_match; cbn [mbind outcome_bind]); done.
  - cbn [mbind outcome_bind]. unfold link_old_head, add64.
    repeat (case_match; cbn [mbind outcome_bind mret outcome_ret]); done.
Qed.

Lemma split_down_fuel n : forall z m o a, split_down n z m o a <> OutOfFuel.
Proof.
  induction n as [|n IH]; intros z m o a; cbn [split_down]; [done|]. unfold add64.
  case_match; [|done]. cbn [mbind outcome_bind].
  destruct (add_free_block z m (o + n) _) as [[[ok z'] m']| |] eqn:Ha; cbn [mbind outcome_bind];
    [apply IH|done|by apply add_free_block_fuel in Ha].
Qed.

Lemma alloc_loop_terminates fuel : forall db z m order c,
  counts_ok z -> (list_counts z + (S MAX_ORDER - c) < fuel)%nat ->
  alloc_loop fuel db z m order c <> OutOfFuel.
Proof.
  induction fuel as [|fuel IH]; intros db z m order c Hc Hf; [lia|]. cbn [alloc_loop].
  destruct (Nat.ltb_spec MAX_ORDER c); [done|].
  destruct (mz_free_lists z !! c) as [l|]; [|done]. cbn [or_fault mbind outcome_bind].
  destruct (flh_count l =? 0); [apply IH; [done|lia]|].
  destruct (pop_free_block z m c) as [[[r z1] m1]| |] eqn:Hpop; [|done|].
  2: { exfalso. revert Hpop. apply pop_free_block_fuel. }
  cbn [mbind outcome_bind]. destruct (pop_free_block_counts z m c r z1 m1 Hc Hpop) as (Hc1 & Hle & Hlt).
  destruct r as [addr|]; [|apply IH; [done|lia]].
  destruct (block_is_free db addr c) as [[]| |] eqn:Hb; cbn [mbind outcome_bind]; [| |done|].
  - destruct (split_down (c - order) z1 m1 order addr) as [[z2 m2]| |] eqn:Hs; [done|done|].
    exfalso. revert Hs. apply split_down_fuel.
  - specialize (Hlt ltac:(done)). apply IH; [done|lia].
  - exfalso. revert Hb. apply block_is_free_fuel.
Qed.

(** A block that allocation returns was, before, free in the page database
    frame by frame. *)
Lemma alloc_loop_validated fuel : forall db z m order c a z' m',
  (order <= c)%nat -> alloc_loop fuel db z m order c = Done (Some a, z', m') ->
  exists c', (order <= c')%nat /\ block_is_free db a c' = Done true.
Proof.
  induction fuel as [|fuel IH]; intros db z m order c a z' m' Ho; cbn [alloc_loop]; [done|].
  destruct (Nat.ltb_spec MAX_ORDER c); [done|].
  destruct (mz_free_lists z !! c) as [l|]; [|done]. cbn [or_fault mbind outcome_bind].
  destruct (flh_count l =? 0); [apply IH; lia|].
  destruct (pop_free_block z m c) as [[[[addr|] z1] m1]| |]; cbn [mbind outcome_bind];
    [|apply IH; lia|done|done].
  destruct (block_is_free db addr c) as [[]| |] eqn:Hb; cbn [mbind outcome_bind];
    [|apply IH; lia|done|done].
  destruct (split_down (c - order) z1 m1 order addr) as [[z2 m2]| |]; [|done|done].
  intros [= <- _ _]. eauto.
Qed.

Lemma frames_free_all d a n : forall i,
  frames_free d a i n = Done true ->
  forall j, i <= j < i + Z.of_nat n -> page_free d (a + j * FRAME_SIZE) = true.
Proof.
  induction n as [|n IH]; intros i; cbn [frames_free]; [lia|].
  unfold add64. destruct (a + i * FRAME_SIZE <? U64); [|done]. cbn [mbind outcome_bind].
  destruct (page_free d (a + i * FRAME_SIZE)) eqn:Hp; [|done].
  intros Hf j Hj. destruct (decide (j = i)) as [->|]; [done|]. apply (IH (i + 1)); [done|lia].
Qed.
