(* ===== verification/Machines.v ===== *)
(** * Concrete machines

    Two booted machines on which the general theorems are instantiated: one
    with a realistic memory map and no page database, and one of 64 pages with
    a page database, before and after a two-page allocation. *)
From S2P Require Import Prelude Addr Zone PageDb Buddy BuddyInv BuddyZone BuddySpec BuddySys BuddyBoot.

(** ** A concrete machine *)

Definition blank_kernel : Kernel :=
  mkKernel BuddyAllocator_new MemoryStats_new false (fun _ => scrubbed_block) None 0 (fun _ => 0) None.

(** 32 KiB below 16 MiB, an unusable hole, and 4 MiB above. *)
Definition demo_regions : list (Z * Z * bool) :=
  [(0x100000, 0x8000, true); (0x200000, 0x1000, false); (0x1000123, 0x400000, true)].

Definition demo_kernel : Kernel :=
  match buddy_init demo_regions blank_kernel with Done k => k | _ => blank_kernel end.

Lemma blank_unbooted : unbooted blank_kernel.
Proof. by split_and!. Qed.

Lemma demo_regions_ok : Forall region_ok demo_regions.
Proof. repeat (apply Forall_cons; split; [vm_compute; split_and!; congruence|]). constructor. Qed.

Lemma demo_regions_disjoint : regions_disjoint demo_regions.
Proof.
  unfold demo_regions, regions_disjoint, region_page. rewrite !Forall_cons, !Forall_nil.
  split_and!; try done; intros p (? & ? & ?) (? & ? & ?); lia.
Qed.

Lemma demo_inv : exists Ls, kernel_inv demo_kernel Ls.
Proof.
  destruct (buddy_init_spec demo_regions blank_kernel blank_unbooted demo_regions_ok demo_regions_disjoint)
    as (k & Ls & Heq & HK & _). exists Ls. unfold demo_kernel. by rewrite Heq.
Qed.

Lemma demo_sys : exists Ls, sys_inv demo_kernel [] Ls.
Proof. destruct demo_inv as [Ls HK]. exists Ls. by constructor. Qed.

(** A 64-page machine with a page database. *)
Definition small_kernel : Kernel :=
  match buddy_init [(0x10000, 0x10000, true)] blank_kernel with
  | Done k => k_set_pdb (Some (pdb_init PdbWorld_new (replicate 64 (mkFrame PF_FREE 0 0 0)) 64)) k
  | _ => blank_kernel
  end.

Lemma small_inv : exists Ls, kernel_inv small_kernel Ls.
Proof.
  destruct (buddy_init_spec [(0x10000, 0x10000, true)] blank_kernel blank_unbooted)
    as (k & Ls & Heq & HK & _ & Hn & Hp).
  { apply Forall_singleton. vm_compute. split_and!; congruence. }
  { by split; [apply Forall_nil|]. }
  exists Ls. unfold small_kernel. rewrite Heq. apply kernel_inv_set_pdb; [done|done| |].
  - intros p Hp0 (_ & r & ->%list_elem_of_singleton & _ & H1 & H2)%Hp.
    cbn [Fof pw_db pdb_init set_db]. unfold page_free, pdb_get, phys_to_pfn.
    rewrite shiftr_page, page_div. cbn [pd_count pd_frames].
    destruct (Z.ltb_spec p 64); [|lia]. cbn [mbind option_bind].
    rewrite (lookup_replicate_2 64); [done|lia].
  - intros p Hp0 HF. left. by rewrite Hn.
Qed.

(** The state of the small machine after two pages were handed out. *)
Definition small_alloc : Kernel :=
  match alloc (AllocRequest_new 1) small_kernel with Done (_, k) => k | _ => blank_kernel end.

Lemma small_alloc_eq : alloc (AllocRequest_new 1) small_kernel = Done (Ok 0x10000, small_alloc).
Proof.
  unfold small_alloc. destruct (alloc (AllocRequest_new 1) small_kernel) as [[r k]| |] eqn:He.
  - assert ((x ← alloc (AllocRequest_new 1) small_kernel; mret (fst x)) = Done (Ok 0x10000)) as Hv
      by (vm_compute; reflexivity).
    rewrite He in Hv. by injection Hv as ->.
  - by vm_compute in He.
  - by vm_compute in He.
Qed.

Lemma Done_pair_inj {A B} (a a' : A) (b b' : B) : Done (a, b) = Done (a', b') -> a = a' /\ b = b'.
Proof. by intros [= -> ->]. Qed.

(** A kernel whose only free block is frame 16 at order 4 of zone 0. *)
Definition one_block_lists (j : nat) : list FreeListHead :=
  if decide (j = 0)%nat then <[4%nat := mkFLH 16 1]> (replicate 11 FreeListHead_new)
  else replicate 11 FreeListHead_new.

Lemma one_block_listed k Ls j o f :
  kernel_inv k Ls -> (forall i, (i < 3)%nat -> mz_free_lists <$> k_zones k !! i = Some (one_block_lists i)) ->
  (j < 3)%nat -> f ∈ Ls j o -> o = 4%nat /\ f = 16.
Proof.
  intros HK Hv Hj Hf. destruct (kernel_zone _ _ j HK Hj) as [z Hz].
  pose proof (ki_zone _ _ HK j z Hz) as Hinv. pose proof (listed_order Hinv o f Hf) as Ho.
  pose proof (zi_list _ _ _ _ Hinv o Ho) as Hl. specialize (Hv j Hj). rewrite Hz in Hv.
  simpl in Hv. injection Hv as Hv. rewrite Hv in Hl.
  assert (one_block_lists j !! o = Some (if decide (j = 0 /\ o = 4)%nat then mkFLH 16 1 else FreeListHead_new)) as Hl'.
  { unfold one_block_lists, MAX_ORDER in *. destruct (decide (j = 0)%nat) as [->|].
    - destruct (decide (o = 4)%nat) as [->|]; [done|]. rewrite list_lookup_insert_ne by lia.
      rewrite decide_False by lia. apply lookup_replicate_2. lia.
    - rewrite decide_False by lia. apply lookup_replicate_2. lia. }
  rewrite Hl' in Hl. case_decide as Hjo; injection Hl as Hh Hn;
    destruct (Ls j o) as [|g [|h t]]; simpl in Hh, Hn; try lia; try by apply not_elem_of_nil in Hf.
  apply list_elem_of_singleton in Hf. split; [apply Hjo|lia].
Qed.

Lemma one_block_coalesced k Ls :
  kernel_inv k Ls -> (forall i, (i < 3)%nat -> mz_free_lists <$> k_zones k !! i = Some (one_block_lists i)) ->
  exists Ls', kernel_inv k Ls' /\ forall j, coalesced (Ls' j).
Proof.
  intros HK Hv. exists (fun j => if decide (j < 3)%nat then Ls j else fun _ => []). split.
  - pose proof HK as [Kl Kz Ks Kh Kp]. constructor; try done; intros i z Hz;
      pose proof (lookup_lt_Some _ _ _ Hz) as Hi; rewrite Kl in Hi; rewrite decide_True by done; auto.
  - intros j o f Ho Hf Hb. case_decide; [|by apply not_elem_of_nil in Hf].
    destruct (one_block_listed k Ls j o f) as [-> ->]; [done..|].
    destruct (one_block_listed k Ls j 4%nat (buddy 4 16)) as [_ Hx]; [done..|].
    by vm_compute in Hx.
Qed.

Lemma small_coalesced : exists Ls, kernel_inv small_kernel Ls /\ forall j, coalesced (Ls j).
Proof.
  destruct small_inv as [Ls HK]. apply (one_block_coalesced _ Ls HK).
  intros [|[|[|?]]] Hi; [vm_compute; reflexivity..|lia].
Qed.

(** The small machine with its two pages held. *)
Lemma small_held : exists Ls, sys_inv small_alloc [(1%nat, 0x10)] Ls.
Proof.
  destruct small_inv as [Ls HK].
  destruct (alloc_cases small_kernel Ls (AllocRequest_new 1) HK) as [[_ Heq]|[_ (f & k' & Ls' & Heq & Ha)]].
  { vm_compute. lia. }
  { rewrite small_alloc_eq in Heq. done. }
  rewrite small_alloc_eq in Heq. apply Done_pair_inj in Heq as [Hf Hk].
  injection Hf as Hf. assert (f = 0x10) as -> by lia. exists Ls'. rewrite Hk.
  apply (sys_inv_alloc small_kernel [] Ls 1 0x10 k' Ls'); [|vm_compute; lia|done].
  constructor; [done|by apply Forall_nil|done].
Qed.

Lemma small_alloc_freeable :
  exists Ls, kernel_inv small_alloc Ls /\ freeable small_alloc Ls 1 0x10.
Proof.
  destruct small_held as [Ls [HK Hh _]]. exists Ls. split; [done|].
  apply Forall_cons in Hh as [Hh _]. apply held_freeable; [done| |vm_compute; reflexivity].
  intros p Hp. assert (p = 0x10 \/ p = 0x11) as [-> | ->].
  { change (16 <= p < 16 + 2) in Hp. lia. }
  all: vm_compute; congruence.
Qed.
