(* ===== verification/BuddyThms.v ===== *)
(** * What the buddy allocator guarantees

    The correctness statements of the allocator: boot, allocation, freeing,
    double frees, arbitrary interleavings, canonical free lists, behaviour on
    corrupted lists, and the consistency check. *)
From S2P Require Import Prelude Addr Zone PageDb Buddy BuddyInv BuddyZone BuddySpec BuddySys BuddyBoot BuddyCanon Machines.

(** ** Consistency check *)

Lemma verify_walk_spec m o t : forall n f c p,
  (0 < n <= S (length t))%nat -> seg m o p (f :: t) 0 ->
  (forall g, g ∈ f :: t -> addr_of g = g * 4096 /\ 0 < g) ->
  verify_walk n m o (addr_of f) c = (c + Z.of_nat n, false).
Proof.
  induction t as [|g t IH]; intros [|n] f c p Hn Hs Ha; try lia; cbn [verify_walk];
    destruct (Ha f ltac:(left)) as [-> Hf0]; destruct Hs as [(Hm & Ho & Hnx & _) Hs];
    simpl in Hn, Hnx; rewrite Hm, Ho, Hnx, !Z.eqb_refl; cbn [negb].
  - assert (n = 0%nat) as -> by lia. done.
  - destruct (Ha g ltac:(right; left)) as [_ Hg0]. destruct (Z.eqb_spec g 0); [lia|].
    destruct n as [|n]; [done|]. rewrite (IH (S n) g (c + 1) f).
    + f_equal. lia.
    + lia.
    + done.
    + intros h Hh. apply Ha. by right.
Qed.

Lemma verify_list_spec z m db L o l :
  zone_inv z m db L -> mz_free_lists z !! o = Some l ->
  verify_list m o l = (if decide (L o = []) then 0 else 1, 0).
Proof.
  intros Hinv Hl. assert (o <= MAX_ORDER)%nat as Ho.
  { apply lookup_lt_Some in Hl. rewrite (zi_len _ _ _ _ Hinv) in Hl. lia. }
  rewrite (zi_list _ _ _ _ Hinv o Ho) in Hl. simplify_eq. pose proof (zi_seg _ _ _ _ Hinv o) as Hs.
  assert (forall g, g ∈ L o -> addr_of g = g * 4096 /\ 0 < g) as Ha.
  { intros g Hg. destruct (listed_bounds Hinv o g Hg) as (? & _ & ?). done. }
  unfold verify_list. cbn [flh_count flh_head]. destruct (L o) as [|f t]; [done|]. rewrite decide_False by done.
  set (n := Z.of_nat (length (f :: t))) in *. assert (n = Z.of_nat (S (length t))) as Hn by done.
  destruct (Ha f ltac:(left)) as [Haf Hf0]. cbn [List.hd].
  destruct (Z.eqb_spec n 0); [lia|]. destruct (Z.eqb_spec f 0); [lia|]. cbn [orb].
  unfold canary_ok. pose proof Hs as [(Hm & Hor & _) _]. rewrite Haf, Hm, Hor, !Z.eqb_refl. cbn [andb negb].
  rewrite <- Haf, (verify_walk_spec m o t _ f 0 0); [|destruct (Z.ltb_spec n 256); lia|done|done].
  destruct (Z.ltb_spec n 256); rewrite Z2Nat.id by lia; rewrite Z.add_0_l.
  - by rewrite Z.eqb_refl, andb_false_r.
  - done.
Qed.

Definition sum_pairs : list (Z * Z) -> Z * Z :=
  foldr (fun '(g, b) '(g', b') => (g + g', b + b')) (0, 0).

Lemma sum_pairs_bad l : Forall (fun x => snd x = 0) l -> snd (sum_pairs l) = 0.
Proof.
  induction 1 as [|[g b] l Hb Hl IH]; [done|]. simpl in *.
  destruct (sum_pairs l) as [g' b']. simpl in *. lia.
Qed.

Lemma verify_zone_spec z m db L : zone_inv z m db L -> snd (verify_zone m z) = 0.
Proof.
  intros Hinv. apply sum_pairs_bad, Forall_lookup. intros o x Hx.
  rewrite list_lookup_imap in Hx. apply fmap_Some in Hx as (l & Hl & ->).
  by rewrite (verify_list_spec z m db L o l Hinv Hl).
Qed.

(** ** Theorems *)



(** C5.  Allocation.  On a kernel that satisfies the invariant, [alloc] never
    faults or runs out of fuel.  An order above [MAX_ORDER] is refused without
    a change; otherwise it fails exactly when no zone has a free block of at
    least the requested order, counting the failure and changing nothing else;
    and when it succeeds the block is [2^order] frames long and aligned, was
    free, is no longer free, is marked allocated, and no page that was not free
    has been written. *)
Theorem alloc_correct k Ls req :
  kernel_inv k Ls ->
  exists r k', alloc req k = Done (r, k') /\
    match r with
    | Ok a => (exists i c, (i < 3)%nat /\ (ar_order req <= c)%nat /\ Ls i c <> []) /\
        exists f Ls', a = f * 4096 /\ alloc_spec k Ls (ar_order req) f k' Ls'
    | Err InvalidOrder => (MAX_ORDER < ar_order req)%nat /\ k' = k
    | Err OutOfMemory =>
        (forall i c, (i < 3)%nat -> (ar_order req <= c)%nat -> Ls i c = []) /\
        k' = k_map_stats record_failure k
    | Err _ => False
    end.
Proof.
  intros HK. destruct (decide (ar_order req <= MAX_ORDER)%nat) as [Ho|Ho].
  - destruct (alloc_cases k Ls req HK Ho) as [[He ->]|[Hs (f & k' & Ls' & -> & Ha)]].
    + by eexists _, _.
    + eexists _, _. split; [done|]. split; [done|]. by exists f, Ls'.
  - exists (Err InvalidOrder), k. unfold alloc. destruct (Nat.ltb_spec MAX_ORDER (ar_order req)); [|lia].
    split; [done|]. split; [lia|done].
Qed.

(** Allocating eight pages from the booted machine. *)
Lemma alloc_correct_witness :
  exists Ls k' Ls', alloc (AllocRequest_new 3) demo_kernel = Done (Ok 0x1008000, k') /\
    alloc_spec demo_kernel Ls 3 0x1008 k' Ls'.
Proof.
  destruct demo_inv as [Ls HK].
  destruct (alloc_correct demo_kernel Ls (AllocRequest_new 3) HK) as (r & k' & Heq & Hr).
  assert (r = Ok 0x1008000) as ->.
  { assert ((x ← alloc (AllocRequest_new 3) demo_kernel; mret (fst x)) = Done (Ok 0x1008000)) as Hv
      by (vm_compute; reflexivity).
    rewrite Heq in Hv. by injection Hv. }
  destruct Hr as (_ & f & Ls' & Ha & Hs). assert (f = 0x1008) as -> by lia. eauto.
Defined.

(** C6.  Freeing.  Returning a block that is in use, aligned, recorded as
    unshared by the page database and without a forged header succeeds: its
    pages become free (merged with free buddies), are marked free, and nothing
    else is written or leaves the free lists. *)
Theorem free_correct k Ls order f :
  kernel_inv k Ls -> freeable k Ls order f ->
  exists k' Ls', free (f * 4096) order k = Done (Ok tt, k') /\ free_spec k Ls order f k' Ls'.
Proof. apply free_ok. Qed.

Lemma free_correct_witness :
  exists Ls k' Ls', free 0x10000 1 small_alloc = Done (Ok tt, k') /\
    free_spec small_alloc Ls 1 0x10 k' Ls'.
Proof.
  destruct small_alloc_freeable as (Ls & HK & Hf).
  destruct (free_correct small_alloc Ls 1 0x10 HK Hf) as (k' & Ls' & Heq & Hs). eauto.
Defined.







(** Per zone, the free pages are determined by the global set. *)
Lemma kfree_zone k Ls k' Ls' i p :
  kernel_inv k Ls -> kernel_inv k' Ls' -> (i < 3)%nat ->
  (forall q, kfree Ls q -> kfree Ls' q) -> free_page (Ls i) p -> free_page (Ls' i) p.
Proof.
  intros HK HK' Hi Hsub Hp. destruct (kernel_zone _ _ i HK Hi) as [z Hz].
  destruct (free_page_zone _ _ _ _ _ (ki_zone _ _ HK i z Hz) Hp) as [Hpz _].
  destruct (Hsub p) as (j & Hj & Hpj); [by exists i|].
  destruct (kernel_zone _ _ j HK' Hj) as [z' Hz'].
  destruct (free_page_zone _ _ _ _ _ (ki_zone _ _ HK' j z' Hz') Hpj) as [Hpz' _].
  apply (ki_home _ _ HK i z Hz) in Hpz. apply (ki_home _ _ HK' j z' Hz') in Hpz'.
  by replace i with j by congruence.
Qed.



(** Round trip.  On a fully coalesced kernel, allocating a block and
    giving it back (after arbitrary writes to it that do not forge a header)
    restores every free list: the same blocks at the same orders. *)
Theorem alloc_free_roundtrip k Ls req a k1 m :
  kernel_inv k Ls -> (forall j, coalesced (Ls j)) -> k_watched k = 0 ->
  alloc req k = Done (Ok a, k1) ->
  let block := (ar_order req, frame_of a) in
  (forall p, ~ page_of block p -> m (p * 4096) = k_mem k1 (p * 4096)) ->
  (forall p, page_of block p -> clean m p) ->
  exists k2 Ls2, free a (ar_order req) (k_set_mem m k1) = Done (Ok tt, k2) /\ kernel_inv k2 Ls2 /\
    forall i o f, (i < 3)%nat -> f ∈ Ls2 i o <-> f ∈ Ls i o.
Proof.
  intros HK Hco Hw Ha block Hm Hcl. unfold block in *. clear block.
  assert (ar_order req <= MAX_ORDER)%nat as Ho.
  { unfold alloc in Ha. destruct (Nat.ltb_spec MAX_ORDER (ar_order req)); [done|lia]. }
  destruct (alloc_cases k Ls req HK Ho) as [[_ Heq]|[_ (f & k1' & Ls1 & Heq & Hs)]];
    rewrite Heq in Ha; simplify_eq. rewrite frame_of_mul in *.
  assert (sys_inv k [] Ls) as Hsys by (constructor; [done|apply Forall_nil; done|done]).
  pose proof (sys_inv_alloc k [] Ls _ f k1 Ls1 Hsys Ho Hs) as Hsys1.
  assert (forall p, owned_page [(ar_order req, f)] p <-> page_of (ar_order req, f) p) as Hown.
  { intros p. rewrite owned_page_cons. split; [intros [?|(b & Hb%not_elem_of_nil & _)]; done|by left]. }
  assert (kernel_inv (k_set_mem m k1) Ls1) as HK1.
  { eapply kernel_inv_write; [exact Hsys1|..]; intros; [apply Hm|apply Hcl]; by rewrite <- Hown. }
  pose proof (sy_held _ _ _ Hsys1) as [Hh _]%Forall_cons.
  destruct (free_held (k_set_mem m k1) Ls1 (ar_order req) f HK1) as [[Hwt _]|[_ (k2 & Ls2 & Hf & Hs2)]].
  { by apply (held_same_view k1). } { done. }
  { unfold watch_hit in Hwt. simpl in Hwt. rewrite (as_watched _ _ _ _ _ _ Hs), Hw in Hwt. done. }
  rewrite (proj2 (proj2 (held_bound _ _ _ _ (sy_kernel _ _ _ Hsys1) Hh))) in Hf.
  exists k2, Ls2. split; [done|]. split; [apply Hs2|]. intros i o g Hi.
  pose proof (as_coalesced _ _ _ _ _ _ Hs Hco) as Hco1.
  assert (forall p, free_page (Ls2 i) p <-> free_page (Ls i) p) as Hfp.
  { intros p. split; [eapply (kfree_zone k2 Ls2 k)|eapply (kfree_zone k Ls k2)]; try done; try apply Hs2;
      intros q; rewrite (fs_pages _ _ _ _ _ _ Hs2), (as_pages _ _ _ _ _ _ Hs); tauto. }
  destruct (kernel_zone _ _ i HK Hi) as [z Hz].
  destruct (kernel_zone _ _ i (fs_inv _ _ _ _ _ _ Hs2) Hi) as [z2 Hz2].
  pose proof (fs_coalesced _ _ _ _ _ _ Hs2 Hco1) as Hco2.
  split; eapply canonical_sub; eauto using ki_zone, fs_inv. intros p. by rewrite Hfp.
Qed.

Lemma alloc_free_roundtrip_witness :
  exists (Ls : nat -> nat -> list Z) k2 (Ls2 : nat -> nat -> list Z), kernel_inv small_kernel Ls /\
    free 0x10000 1 (k_set_mem (k_mem small_alloc) small_alloc) = Done (Ok tt, k2) /\
    forall i o f, (i < 3)%nat -> f ∈ Ls2 i o <-> f ∈ Ls i o.
Proof.
  destruct small_coalesced as (Ls & HK & Hc).
  destruct (alloc_free_roundtrip small_kernel Ls (AllocRequest_new 1) 0x10000 small_alloc (k_mem small_alloc))
    as (k2 & Ls2 & Hf & _ & Hl); [exact HK|exact Hc|vm_compute; reflexivity| |reflexivity| |].
  - apply small_alloc_eq.
  - intros p Hp. assert (p = 0x10 \/ p = 0x11) as [-> | ->].
    { change (16 <= p < 16 + 2) in Hp. lia. }
    all: vm_compute; congruence.
  - exists Ls, k2, Ls2. split; [exact HK|]. split; [exact Hf|exact Hl].
Defined.

(** Consistency check.  On a kernel that satisfies the invariant,
    [verify_free_lists] reports no bad block and no count mismatch. *)
Theorem verify_free_lists_clean k Ls :
  kernel_inv k Ls -> snd (verify_free_lists k) = 0.
Proof.
  intros HK. apply sum_pairs_bad, Forall_fmap, Forall_lookup. intros i z Hz.
  apply (verify_zone_spec z (k_mem k) (k_pdb k) (Ls i)). by apply (ki_zone _ _ HK).
Qed.

Lemma verify_free_lists_clean_witness : snd (verify_free_lists demo_kernel) = 0.
Proof.
  destruct demo_inv as [Ls HK]. exact (verify_free_lists_clean demo_kernel Ls HK).
Defined.

(** ** Corrupted lists *)

(** C37.  Allocation from a zone terminates whatever the memory behind the free
    lists holds: cycles, dangling links, overwritten headers, stale counts.
    The fuel of one unit per counted block and per order is enough. *)
Theorem alloc_from_zone_terminates db z m order :
  counts_ok z -> alloc_from_zone db z m order <> OutOfFuel.
Proof.
  intros Hc. apply alloc_loop_terminates; [done|]. unfold alloc_fuel, list_counts. lia.
Qed.

(** A list of claimed length 1000 whose only node points to itself. *)
Definition cyclic_zone : MemoryZone :=
  set_free_list (MemoryZone_init (MemoryZone_new Dma) 0 0x40000) 0 (mkFLH 16 1000).

Definition cyclic_memory : Memory := fun _ => mkFB FREE_BLOCK_MAGIC 16 0 0 PAD0.

Lemma alloc_from_zone_terminates_witness :
  alloc_from_zone (k_pdb small_alloc) cyclic_zone cyclic_memory 0 <> OutOfFuel.
Proof.
  apply (alloc_from_zone_terminates (k_pdb small_alloc) cyclic_zone cyclic_memory 0).
  unfold counts_ok, cyclic_zone. simpl. repeat (apply Forall_cons; split; [simpl; lia|]).
  apply Forall_nil. exact I.
Defined.

(** Whatever the free lists hold, with a page database registered an
    allocation only returns blocks all of whose frames the database records as
    free: a stale or forged list entry never hands out a frame twice. *)
Theorem alloc_from_zone_validated w z m order a z' m' j :
  alloc_from_zone (Some w) z m order = Done (Some a, z', m') -> 0 <= j < pow2 order ->
  page_free (pw_db w) (a + j * FRAME_SIZE) = true.
Proof.
  intros Ha Hj. destruct (alloc_loop_validated _ _ _ _ order order a z' m' ltac:(lia) Ha) as (c & Hc & Hb).
  simpl in Hb. pose proof (pow2_le order c Hc). eapply frames_free_all; [exact Hb|]. lia.
Qed.

(** The self-linked node is frame 16, which the database has in use; once it
    is dropped, frame 18 of the second list is returned. *)
Definition stale_zone : MemoryZone := set_free_list cyclic_zone 1 (mkFLH 18 1).
Definition stale_memory : Memory := fun a =>
  if a =? 18 * 4096 then mkFB FREE_BLOCK_MAGIC 0 0 1 PAD0 else cyclic_memory a.

Lemma alloc_from_zone_validated_witness :
  exists w z' m', alloc_from_zone (Some w) stale_zone stale_memory 0 = Done (Some (18 * 4096), z', m') /\
    page_free (pw_db w) (18 * 4096 + 0 * FRAME_SIZE) = true.
Proof.
  destruct (k_pdb small_alloc) as [w|] eqn:Hw; [|vm_compute in Hw; discriminate].
  exists w. destruct (alloc_from_zone (Some w) stale_zone stale_memory 0) as [[[[a|] z'] m']| |] eqn:Ha.
  - assert ((x ← alloc_from_zone (k_pdb small_alloc) stale_zone stale_memory 0; mret (fst (fst x)))
      = Done (Some (18 * 4096))) as Hv by (vm_compute; reflexivity).
    rewrite Hw, Ha in Hv. injection Hv as ->. exists z', m'. split; [reflexivity|].
    apply (alloc_from_zone_validated w stale_zone stale_memory 0 (18 * 4096) z' m' 0 Ha).
    vm_compute. split; congruence.
  - exfalso. rewrite <- Hw in Ha. vm_compute in Ha. discriminate.
  - exfalso. rewrite <- Hw in Ha. vm_compute in Ha. discriminate.
  - exfalso. rewrite <- Hw in Ha. vm_compute in Ha. discriminate.
Defined.

(** ** A forged header *)

(** What the owner of the block left at the start of its page. *)
Definition forged_memory : Memory :=
  mem_write (k_mem small_alloc) 0x10000 (mkFB FREE_BLOCK_MAGIC 1 0 0 PAD0).

(** A page whose contents begin with the free-block magic, a small order
    and a non-zero link is lost when it is freed: [free] reports success, the
    statistics and the page database count it as free, but no free list grows
    (compare the same free without the forged contents). *)
Theorem free_loses_forged_page :
  let pages k := t ← or_fault (k_zones k !! 0%nat) ≫= total_free_pages; mret t in
  (x ← free 0x10000 1 (k_set_mem forged_memory small_alloc); t ← pages (snd x);
    mret (fst x, t, ms_free_bytes (k_stats (snd x)))) = Done (Ok tt, 14, 16 * 4096) /\
  (x ← free 0x10000 1 small_alloc; t ← pages (snd x);
    mret (fst x, t, ms_free_bytes (k_stats (snd x)))) = Done (Ok tt, 16, 16 * 4096).
Proof. split; vm_compute; reflexivity. Qed.
