(* ===== verification/FrameAlloc.v ===== *)
(** * The [FrameAllocator] trait ([kernel/mm/mm-traits/src/lib.rs])

    The trait as a class of operations, what its clients rely on as a class of
    laws, and the buddy allocator ([impl FrameAllocator for BuddyAllocator]) as
    an instance.  Page-table code is verified against the laws only. *)
From S2P Require Import Prelude Addr Zone PageDb Buddy BuddyInv BuddyZone BuddySpec BuddySys.

Class FrameAllocator (S : Type) := {
  fa_alloc_frame : S -> outcome (option Z * S);
  fa_free_frame : Z -> S -> outcome S;
  fa_alloc_frames : Z -> S -> outcome (option Z * S);
  fa_free_frames : Z -> Z -> S -> outcome S
}.

(** Physical addresses fit the 52 bits of a page-table entry. *)
Definition PHYS_LIMIT : Z := 2 ^ 52.

(** [fa_holds s owned]: [s] is a consistent allocator state in which exactly
    the blocks [owned] are handed out.  [fa_returnable s b]: the contents of
    [b] let it be given back. *)
Class FrameAllocatorLaws (S : Type) `{FrameAllocator S} := {
  fa_holds : S -> list Block -> Prop;
  fa_returnable : S -> Block -> Prop;
  fa_alloc_frame_ok s owned : fa_holds s owned ->
    exists r s', fa_alloc_frame s = Done (r, s') /\
      match r with
      | None => fa_holds s' owned
      | Some a => exists p, a = p * 4096 /\ 0 < p /\ (p + 1) * 4096 <= PHYS_LIMIT /\
          (forall b, b ∈ owned -> ~ page_of b p) /\ fa_holds s' ((0%nat, p) :: owned)
      end;
  fa_alloc_frames_ok s owned n : fa_holds s owned -> 0 < n <= 2 ^ 63 ->
    exists r s', fa_alloc_frames n s = Done (r, s') /\
      match r with
      | None => fa_holds s' owned
      | Some a => exists o p, a = p * 4096 /\ n <= pow2 o < 2 * n /\ (pow2 o | p) /\
          (forall b, b ∈ owned -> disjoint_pages (o, p) b) /\ fa_holds s' ((o, p) :: owned)
      end;
  fa_free_frame_ok s owned p : fa_holds s ((0%nat, p) :: owned) -> fa_returnable s (0%nat, p) ->
    exists s', fa_free_frame (p * 4096) s = Done s' /\ fa_holds s' owned;
  fa_free_frames_ok s owned o p n : fa_holds s ((o, p) :: owned) -> fa_returnable s (o, p) ->
    pow2 o / 2 < n <= pow2 o ->
    exists s', fa_free_frames (p * 4096) n s = Done s' /\ fa_holds s' owned
}.

(** ** [next_power_of_two] and [trailing_zeros] *)

Lemma trailing_zeros_pow2 o : trailing_zeros (pow2 o) = o.
Proof.
  induction o as [|o IH]; [done|]. rewrite pow2_S. pose proof (pow2_pos o).
  destruct (pow2 o) as [|p|p]; [lia| |lia]. exact (f_equal S IH).
Qed.

Lemma frames_order_spec n o :
  0 < n <= 2 ^ 63 -> pow2 o / 2 < n <= pow2 o -> frames_order n = Done o.
Proof.
  intros Hn Ho. unfold frames_order, next_power_of_two.
  assert (Z.log2_up n = Z.of_nat o) as Hl.
  { destruct o as [|o].
    - rewrite pow2_0 in Ho. simpl in Ho. assert (n = 1) as -> by lia. done.
    - apply Z.log2_up_unique; [lia|]. rewrite pow2_S in Ho.
      rewrite Z.mul_comm, Z.div_mul in Ho by lia. split.
      + replace (Z.pred (Z.of_nat (S o))) with (Z.of_nat o) by lia. unfold pow2 in Ho. lia.
      + rewrite Z.mul_comm, <- pow2_S in Ho. unfold pow2 in Ho. lia. }
  rewrite Hl. fold (pow2 o). destruct (Z.ltb_spec (pow2 o) U64).
  - cbn [mbind outcome_bind]. by rewrite trailing_zeros_pow2.
  - exfalso. assert (2 ^ 64 <= pow2 o) as Hge by (unfold U64 in *; lia).
    assert (2 ^ 63 <= pow2 o / 2) by (apply Z.div_le_lower_bound; lia). lia.
Qed.

Lemma frames_order_ok n :
  0 < n <= 2 ^ 63 -> exists o, frames_order n = Done o /\ n <= pow2 o < 2 * n.
Proof.
  intros Hn. exists (Z.to_nat (Z.log2_up n)).
  assert (pow2 (Z.to_nat (Z.log2_up n)) = 2 ^ Z.log2_up n) as Hp
    by (unfold pow2; rewrite Z2Nat.id; [done|apply Z.log2_up_nonneg]).
  assert (n <= 2 ^ Z.log2_up n < 2 * n) as Hb.
  { destruct (decide (n = 1)) as [->|]; [done|].
    pose proof (Z.log2_up_spec n ltac:(lia)) as [H1 H2]. split; [done|].
    pose proof (Z.log2_up_pos n ltac:(lia)). replace (Z.log2_up n) with (Z.succ (Z.pred (Z.log2_up n))) by lia.
    rewrite Z.pow_succ_r by lia. lia. }
  split; [|by rewrite Hp]. apply frames_order_spec; [done|]. rewrite Hp. split; [|lia].
  apply Z.div_lt_upper_bound; lia.
Qed.

(** ** The buddy allocator as an instance *)

#[global] Instance Kernel_FrameAllocator : FrameAllocator Kernel := {
  fa_alloc_frame := alloc_frame;
  fa_free_frame := free_frame;
  fa_alloc_frames := alloc_frames;
  fa_free_frames := free_frames
}.

Definition phys_bounded (k : Kernel) : Prop :=
  forall i z, k_zones k !! i = Some z -> mz_base z + mz_size z <= PHYS_LIMIT.

Definition kernel_holds (k : Kernel) (owned : list Block) : Prop :=
  phys_bounded k /\ exists Ls, sys_inv k owned Ls.

Lemma phys_bounded_shape k k' :
  length (k_zones k') = length (k_zones k) ->
  (forall i z, k_zones k !! i = Some z -> exists z', k_zones k' !! i = Some z' /\ same_shape z z') ->
  phys_bounded k -> phys_bounded k'.
Proof.
  intros Hlen Hsh Hb i z' Hz'.
  assert (is_Some (k_zones k !! i)) as [z Hz].
  { apply lookup_lt_is_Some. rewrite <- Hlen. by eapply lookup_lt_Some. }
  destruct (Hsh i z Hz) as (z'' & Hz'' & _ & Hba & Hsz). simplify_eq.
  rewrite Hba, Hsz. by apply (Hb i).
Qed.

Lemma kernel_alloc_holds k owned req :
  kernel_holds k owned -> exists r k', alloc req k = Done (r, k') /\
    match r with
    | Err _ => kernel_holds k' owned
    | Ok a => exists p, a = p * 4096 /\ 0 < p /\ (p + pow2 (ar_order req)) * 4096 <= PHYS_LIMIT /\
        (pow2 (ar_order req) | p) /\ (forall b, b ∈ owned -> disjoint_pages (ar_order req, p) b) /\
        kernel_holds k' ((ar_order req, p) :: owned)
    end.
Proof.
  intros (Hb & Ls & Hs). pose proof (sy_kernel _ _ _ Hs) as HK.
  destruct (decide (ar_order req <= MAX_ORDER)%nat) as [Ho|Ho].
  2: { exists (Err InvalidOrder), k. unfold alloc. destruct (Nat.ltb_spec MAX_ORDER (ar_order req)); [|lia].
       split; [done|]. split; [done|by exists Ls]. }
  destruct (alloc_cases k Ls req HK Ho) as [[_ Heq]|[_ (f & k' & Ls' & Heq & Ha)]]; rewrite Heq;
    (eexists _, _; split; [reflexivity|]).
  - destruct (step_inv k owned _ owned Ls Hs (step_alloc_err _ _ _ _ _ Heq)) as (Ls' & Hs' & _).
    split; [done|by exists Ls'].
  - destruct (as_zone _ _ _ _ _ _ Ha) as (z & Hz & Hr). pose proof (Hb _ z Hz). exists f.
    split_and!; [done|apply Ha|unfold in_range in Hr; lia|apply Ha| |].
    + intros b Hbo. pose proof (sy_held _ _ _ Hs) as Hh. rewrite Forall_forall in Hh.
      by apply (alloc_keeps _ _ _ _ _ _ b Ha (Hh b Hbo)).
    + split; [|exists Ls'; by eapply sys_inv_alloc].
      eapply phys_bounded_shape; [|apply Ha|done]. by rewrite (ki_len _ _ HK), (ki_len _ _ (as_inv _ _ _ _ _ _ Ha)).
Qed.

(** The block's pages carry no forged free-block header. *)
Definition kernel_returnable (k : Kernel) (b : Block) : Prop :=
  forall p, page_of b p -> clean (k_mem k) p.

Lemma kernel_free_holds k owned o p :
  kernel_holds k ((o, p) :: owned) -> kernel_returnable k (o, p) ->
  exists k', free (p * 4096) o k = Done (Ok tt, k') /\ kernel_holds k' owned.
Proof.
  intros (Hb & Ls & Hs) Hc. pose proof (sy_kernel _ _ _ Hs) as HK.
  pose proof (sy_held _ _ _ Hs) as [Hh _]%Forall_cons.
  rewrite <- (proj2 (proj2 (held_bound k Ls o p HK Hh))).
  destruct (free_held k Ls o p HK Hh Hc) as [[_ Heq]|[_ (k' & Ls' & Heq & Hf)]]; rewrite Heq.
  - eexists. split; [reflexivity|]. split; [done|]. exists Ls.
    destruct Hs as [_ [_ Hh']%Forall_cons [_ Hd]]. by constructor.
  - eexists. split; [reflexivity|]. split; [|exists Ls'; by eapply sys_inv_free].
    eapply phys_bounded_shape; [|apply Hf|done]. by rewrite (ki_len _ _ HK), (ki_len _ _ (fs_inv _ _ _ _ _ _ Hf)).
Qed.

#[global] Program Instance Kernel_FrameAllocatorLaws : FrameAllocatorLaws Kernel := {
  fa_holds := kernel_holds;
  fa_returnable := kernel_returnable
}.
Next Obligation.
  intros k owned Hh. simpl. unfold alloc_frame.
  destruct (kernel_alloc_holds k owned (AllocRequest_new 0) Hh) as ([a|e] & k' & -> & Hr);
    (eexists _, _; split; [reflexivity|]); simpl; [|done].
  destruct Hr as (p & -> & H0 & Hb & _ & Hd & Hh'). simpl in Hb. rewrite pow2_0 in Hb.
  exists p. split_and!; try done. intros b Hbo. apply (Hd b Hbo).
  unfold page_of, in_block. simpl. rewrite pow2_0. lia.
Qed.
Next Obligation.
  intros k owned n Hh Hn. simpl. unfold alloc_frames. destruct (Z.eqb_spec n 0); [lia|].
  destruct (frames_order_ok n Hn) as (o & -> & Ho). cbn [mbind outcome_bind].
  destruct (kernel_alloc_holds k owned (AllocRequest_new o) Hh) as ([a|e] & k' & -> & Hr);
    (eexists _, _; split; [reflexivity|]); simpl; [|done].
  destruct Hr as (p & -> & H0 & Hb & Hd & Hdj & Hh'). exists o, p. split_and!; try done; lia.
Qed.
Next Obligation.
  intros k owned p Hh Hr. simpl. unfold free_frame.
  destruct (kernel_free_holds k owned 0 p Hh Hr) as (k' & -> & Hh'). exists k'. by split.
Qed.
Next Obligation.
  intros k owned o p n Hh Hr Hn. simpl. unfold free_frames. pose proof (pow2_pos o).
  assert (0 <= pow2 o / 2) by (apply Z.div_pos; lia).
  destruct (Z.eqb_spec n 0); [lia|].
  assert (o <= MAX_ORDER)%nat as Ho.
  { destruct Hh as (_ & Ls & Hs). pose proof (sy_held _ _ _ Hs) as [Hb _]%Forall_cons. apply Hb. }
  assert (pow2 o <= 2 ^ 10) by (apply (pow2_le o 10); unfold MAX_ORDER in Ho; lia).
  rewrite (frames_order_spec n o) by lia. cbn [mbind outcome_bind].
  destruct (kernel_free_holds k owned o p Hh Hr) as (k' & -> & Hh'). exists k'. by split.
Qed.
