(* ===== verification/Paging.v ===== *)
(** * Page tables ([kernel/mm/mm-paging/src/{lib,entry,table,mapper}.rs])

    Four-level x86-64 page tables in physical memory, and the operations of
    [PageMapper] on them.  Table memory is a map from the physical address of
    an 8-byte entry to its value: [phys_to_virt] adds a constant (wrapping), so
    the direct map is a bijection and physical addresses identify the memory.
    A page on a free list is never read as a table, so table memory and the
    allocator's view of its free pages ([k_mem]) do not overlap.

    The mapper is verified against the [FrameAllocator] laws: the tables form a
    tree of held frames, [map] installs exactly one translation, [unmap]
    removes exactly one, and the flag operations change none. *)
From S2P Require Import Prelude Addr Zone Buddy BuddySpec BuddySys Machines FrameAlloc.

(** ** Entries ([entry.rs]) *)

Definition PRESENT : Z := Z.shiftl 1 0.
Definition WRITABLE : Z := Z.shiftl 1 1.
Definition USER : Z := Z.shiftl 1 2.
Definition WRITE_THROUGH : Z := Z.shiftl 1 3.
Definition NO_CACHE : Z := Z.shiftl 1 4.
Definition ACCESSED : Z := Z.shiftl 1 5.
Definition DIRTY : Z := Z.shiftl 1 6.
Definition HUGE_PAGE : Z := Z.shiftl 1 7.
Definition GLOBAL : Z := Z.shiftl 1 8.
Definition NO_EXECUTE : Z := Z.shiftl 1 63.
Definition COW : Z := Z.shiftl 1 9.

Definition ADDR_MASK : Z := 0x000FFFFFFFFFF000.

(** The bits [from_bits_truncate] keeps. *)
Definition ALL_FLAGS : Z :=
  foldr Z.lor 0 [PRESENT; WRITABLE; USER; WRITE_THROUGH; NO_CACHE; ACCESSED; DIRTY; HUGE_PAGE;
                 GLOBAL; NO_EXECUTE; COW].

Definition entry_new (addr flags : Z) : Z := Z.lor (Z.land addr ADDR_MASK) flags.
Definition is_present (e : Z) : bool := negb (Z.land e PRESENT =? 0).
Definition is_huge (e : Z) : bool := negb (Z.land e HUGE_PAGE =? 0).
Definition is_cow (e : Z) : bool := negb (Z.land e COW =? 0).
Definition is_writable (e : Z) : bool := negb (Z.land e WRITABLE =? 0).
Definition entry_flags (e : Z) : Z := Z.land e ALL_FLAGS.
Definition entry_addr (e : Z) : Z := Z.land e ADDR_MASK.
Definition entry_set_flags (e flags : Z) : Z := Z.lor (Z.land e ADDR_MASK) flags.
Definition entry_add_flags (e flags : Z) : Z := Z.lor e flags.
Definition entry_remove_flags (e flags : Z) : Z := Z.ldiff e flags.

(** ** Tables ([lib.rs], [table.rs]) *)

Definition ENTRIES_PER_TABLE : Z := 512.

(** [PageLevel::index]; levels are 4 (PML4) down to 1 (PT). *)
Definition level_index (level : nat) (virt : Z) : Z :=
  Z.land (Z.shiftr virt (12 + (Z.of_nat level - 1) * 9)) 0x1FF.

Definition TableMem : Type := Z -> Z.

(** The address of entry [i] of the table at [t]. *)
Definition slot (t i : Z) : Z := t + 8 * i.

Definition twrite (m : TableMem) (t i v : Z) : TableMem :=
  fun a => if a =? slot t i then v else m a.

(** [PageTable::clear] writes all 512 entries. *)
Definition table_clear (m : TableMem) (t : Z) : TableMem :=
  fun a => if (t <=? a) && (a <? t + 8 * ENTRIES_PER_TABLE) then 0 else m a.

(** ** The mapper ([mapper.rs]) *)

Inductive MapError := AlreadyMapped | FrameAllocationFailed | ParentIsHugePage.

Definition get_table (m : TableMem) (parent index : Z) : option Z :=
  let e := m (slot parent index) in
  if is_present e && negb (is_huge e) then Some (entry_addr e) else None.

(** The page table a four-level walk ends in. *)
Definition get_pt (m : TableMem) (root virt : Z) : option Z :=
  pdpt ← get_table m root (level_index 4 virt);
  pd ← get_table m pdpt (level_index 3 virt);
  get_table m pd (level_index 2 virt).

Definition translate (m : TableMem) (root virt : Z) : outcome (option Z) :=
  match get_table m root (level_index 4 virt) with
  | None => mret None
  | Some pdpt =>
      let e3 := m (slot pdpt (level_index 3 virt)) in
      if negb (is_present e3) then mret None else
      if is_huge e3 then a ← add64 (entry_addr e3) (Z.land virt 0x3FFFFFFF); mret (Some a) else
      let e2 := m (slot (entry_addr e3) (level_index 2 virt)) in
      if negb (is_present e2) then mret None else
      if is_huge e2 then a ← add64 (entry_addr e2) (Z.land virt 0x1FFFFF); mret (Some a) else
      let e1 := m (slot (entry_addr e2) (level_index 1 virt)) in
      if negb (is_present e1) then mret None else
      a ← add64 (entry_addr e1) (Z.land virt 0xFFF); mret (Some a)
  end.

Definition unmap (m : TableMem) (root virt : Z) : option Z * TableMem :=
  match get_pt m root virt with
  | None => (None, m)
  | Some pt =>
      let e := m (slot pt (level_index 1 virt)) in
      if negb (is_present e) then (None, m)
      else (Some (entry_addr e), twrite m pt (level_index 1 virt) 0)
  end.

(** The three flag operations differ in when they refuse and what they store. *)
Definition modify_entry (refuse : Z -> bool) (g : Z -> Z) (m : TableMem) (root virt : Z)
    : bool * TableMem :=
  match get_pt m root virt with
  | None => (false, m)
  | Some pt =>
      let e := m (slot pt (level_index 1 virt)) in
      if refuse e then (false, m) else (true, twrite m pt (level_index 1 virt) (g e))
  end.

Definition update_flags (m : TableMem) (root virt add_flags : Z) : bool * TableMem :=
  modify_entry (fun e => negb (is_present e)) (fun e => entry_add_flags e add_flags) m root virt.

Definition remove_flags (m : TableMem) (root virt clear_flags : Z) : bool * TableMem :=
  modify_entry (fun e => negb (is_present e)) (fun e => entry_remove_flags e clear_flags) m root virt.

Definition PERMISSION_MASK : Z := Z.lor (Z.lor (Z.lor PRESENT WRITABLE) USER) NO_EXECUTE.

Definition set_page_flags (m : TableMem) (root virt new_flags : Z) : bool * TableMem :=
  modify_entry
    (fun e => negb (is_present e) && (Z.land new_flags PRESENT =? PRESENT))
    (fun e => entry_set_flags e (Z.lor (Z.ldiff (entry_flags e) PERMISSION_MASK) new_flags))
    m root virt.

Section mapper.
Context {S : Type} `{FrameAllocator S}.

Definition get_or_create_table (m : TableMem) (s : S) (parent index : Z)
    : outcome (result Z MapError * TableMem * S) :=
  let e := m (slot parent index) in
  if is_present e then
    mret (if is_huge e then Err ParentIsHugePage else Ok (entry_addr e), m, s)
  else
    '(r, s') ← fa_alloc_frame s;
    match r with
    | None => mret (Err FrameAllocationFailed, m, s')
    | Some new_table =>
        let m1 := table_clear m new_table in
        mret (Ok new_table,
              twrite m1 parent index (entry_new new_table (Z.lor (Z.lor PRESENT WRITABLE) USER)), s')
    end.

Definition map (m : TableMem) (s : S) (root virt phys flags : Z)
    : outcome (result unit MapError * TableMem * S) :=
  '(r4, m, s) ← get_or_create_table m s root (level_index 4 virt);
  match r4 with
  | Err e => mret (Err e, m, s)
  | Ok pdpt =>
  '(r3, m, s) ← get_or_create_table m s pdpt (level_index 3 virt);
  match r3 with
  | Err e => mret (Err e, m, s)
  | Ok pd =>
  '(r2, m, s) ← get_or_create_table m s pd (level_index 2 virt);
  match r2 with
  | Err e => mret (Err e, m, s)
  | Ok pt =>
      if is_present (m (slot pt (level_index 1 virt))) then mret (Err AlreadyMapped, m, s)
      else mret (Ok tt, twrite m pt (level_index 1 virt) (entry_new phys (Z.lor flags PRESENT)), s)
  end end end.

End mapper.

(** ** Entry arithmetic *)

Definition flags_ok (flags : Z) : Prop := 0 <= flags /\ Z.land flags ADDR_MASK = 0.

(** A frame address an entry can hold. *)
Definition frame_addr (a : Z) : Prop := exists p, a = p * 4096 /\ 0 <= p /\ (p + 1) * 4096 <= PHYS_LIMIT.

Lemma is_present_bit e : is_present e = Z.testbit e 0.
Proof. by apply flag_bit. Qed.

Lemma is_huge_bit e : is_huge e = Z.testbit e 7.
Proof. by apply flag_bit. Qed.

Lemma land_addr_mask a : Z.land a ADDR_MASK = a mod PHYS_LIMIT - (a mod PHYS_LIMIT) mod 4096.
Proof.
  change ADDR_MASK with (Z.ldiff (Z.ones 52) 4095).
  assert (Z.land a (Z.ldiff (Z.ones 52) 4095) = Z.ldiff (Z.land a (Z.ones 52)) 4095) as ->.
  { apply Z.bits_inj'. intros i Hi. rewrite !Z.land_spec, !Z.ldiff_spec, Z.land_spec. apply andb_assoc. }
  rewrite Z.land_ones by lia. by rewrite page_mask.
Qed.

Lemma entry_addr_frame e : frame_addr (entry_addr e).
Proof.
  unfold entry_addr, frame_addr. rewrite land_addr_mask.
  pose proof (Z.mod_pos_bound e PHYS_LIMIT ltac:(done)) as Hb. set (x := e mod PHYS_LIMIT) in *.
  pose proof (Z.div_mod x 4096 ltac:(done)). pose proof (Z.mod_pos_bound x 4096 ltac:(done)).
  exists (x / 4096). split; [lia|]. assert (0 <= x / 4096) by (apply Z.div_pos; lia).
  split; [done|]. unfold PHYS_LIMIT in *. lia.
Qed.

Lemma frame_addr_mask a : frame_addr a -> Z.land a ADDR_MASK = a.
Proof.
  intros (p & -> & Hp & Hb). rewrite land_addr_mask, (Z.mod_small (p * 4096)) by lia.
  rewrite Z.mod_mul by lia. lia.
Qed.

Lemma land_mask_idemp a flags :
  Z.land flags ADDR_MASK = 0 -> Z.land (Z.lor (Z.land a ADDR_MASK) flags) ADDR_MASK = Z.land a ADDR_MASK.
Proof.
  intros Hf. rewrite Z.land_lor_distr_l, Hf, Z.lor_0_r, <- Z.land_assoc, Z.land_diag. done.
Qed.

Lemma entry_new_addr a flags : flags_ok flags -> entry_addr (entry_new a flags) = Z.land a ADDR_MASK.
Proof. intros [_ Hf]. by apply land_mask_idemp. Qed.

Lemma mask_low_bit n : 0 <= n < 12 -> Z.testbit ADDR_MASK n = false.
Proof.
  intros Hn. change ADDR_MASK with (Z.shiftl (Z.ones 40) 12). apply Z.shiftl_spec_low. lia.
Qed.

Lemma entry_new_bit a flags n : 0 <= n < 12 -> Z.testbit (entry_new a flags) n = Z.testbit flags n.
Proof.
  intros Hn. unfold entry_new. by rewrite Z.lor_spec, Z.land_spec, mask_low_bit, andb_false_r.
Qed.

Lemma present_flag flags : Z.testbit (Z.lor flags PRESENT) 0 = true.
Proof. rewrite Z.lor_spec. apply orb_true_r. Qed.

Lemma flags_ok_present flags : flags_ok flags -> flags_ok (Z.lor flags PRESENT).
Proof.
  intros [H0 Hm]. split; [by apply Z.lor_nonneg|]. by rewrite Z.land_lor_distr_l, Hm.
Qed.

(** ** Table memory *)

Lemma level_index_bound l v : 0 <= level_index l v < 512.
Proof.
  unfold level_index. change 0x1FF with (Z.ones 9). rewrite Z.land_ones by lia.
  apply Z.mod_pos_bound. lia.
Qed.

Lemma level_index_div l v : level_index l v = (v / 2 ^ (12 + (Z.of_nat l - 1) * 9)) mod 512.
Proof.
  unfold level_index. change 0x1FF with (Z.ones 9). rewrite Z.land_ones by lia.
  destruct (Z.le_ge_cases 0 (12 + (Z.of_nat l - 1) * 9)); [by rewrite Z.shiftr_div_pow2|lia].
Qed.

Lemma slot_inj t i t' i' :
  frame_addr t -> frame_addr t' -> 0 <= i < 512 -> 0 <= i' < 512 -> slot t i = slot t' i' -> t = t' /\ i = i'.
Proof. unfold slot. intros (p & -> & _) (p' & -> & _) Hi Hi' He. lia. Qed.

Lemma twrite_eq m t i v : twrite m t i v (slot t i) = v.
Proof. unfold twrite. by rewrite Z.eqb_refl. Qed.

Lemma twrite_ne m t i v t' i' :
  frame_addr t -> frame_addr t' -> 0 <= i < 512 -> 0 <= i' < 512 -> (t', i') <> (t, i) ->
  twrite m t i v (slot t' i') = m (slot t' i').
Proof.
  intros Ht Ht' Hi Hi' Hne. unfold twrite. destruct (Z.eqb_spec (slot t' i') (slot t i)) as [He|]; [|done].
  apply slot_inj in He as [-> ->]; done.
Qed.

Lemma table_clear_in m t i : 0 <= i < 512 -> table_clear m t (slot t i) = 0.
Proof.
  intros Hi. unfold table_clear, slot, ENTRIES_PER_TABLE.
  destruct (Z.leb_spec t (t + 8 * i)), (Z.ltb_spec (t + 8 * i) (t + 8 * 512)); simpl; lia.
Qed.

Lemma table_clear_out m t t' i :
  frame_addr t -> frame_addr t' -> 0 <= i < 512 -> t' <> t -> table_clear m t (slot t' i) = m (slot t' i).
Proof.
  intros (p & -> & _) (q & -> & _) Hi Hne. unfold table_clear, slot, ENTRIES_PER_TABLE.
  destruct (Z.leb_spec (p * 4096) (q * 4096 + 8 * i)); [|done].
  destruct (Z.ltb_spec (q * 4096 + 8 * i) (p * 4096 + 8 * 512)); [|done]. lia.
Qed.

Lemma get_table_Some m t i c :
  get_table m t i = Some c <->
    is_present (m (slot t i)) = true /\ is_huge (m (slot t i)) = false /\ c = entry_addr (m (slot t i)).
Proof.
  unfold get_table. destruct (is_present _), (is_huge _); simpl; split; try naive_solver.
Qed.

(** ** The table tree *)

(** [T t = Some l]: the frame at [t] is the table of level [l].  Every present,
    non-huge entry above level 1 leads to a table one level down, and no two
    entries lead to the same table. *)
Record tree (m : TableMem) (root : Z) (T : Z -> option nat) : Prop := {
  tr_root : T root = Some 4%nat;
  tr_level : forall t l, T t = Some l -> (1 <= l <= 4)%nat;
  tr_frame : forall t l, T t = Some l -> frame_addr t;
  tr_child : forall t l i c, T t = Some (S l) -> (1 <= l)%nat -> 0 <= i < 512 ->
    get_table m t i = Some c -> T c = Some l;
  tr_unique : forall t t' l i i' c, T t = Some (S l) -> T t' = Some (S l) -> (1 <= l)%nat ->
    0 <= i < 512 -> 0 <= i' < 512 ->
    get_table m t i = Some c -> get_table m t' i' = Some c -> t = t' /\ i = i'
}.

(** The reference page walk: the level and value of the entry that maps
    [virt], if any.  A huge bit at level 4 is not a mapping. *)
Fixpoint walk (l : nat) (m : TableMem) (t virt : Z) : option (nat * Z) :=
  match l with
  | O => None
  | S l' =>
      let e := m (slot t (level_index l virt)) in
      if negb (is_present e) then None else
      match l' with
      | O => Some (1%nat, e)
      | _ => if is_huge e then (if (l =? 4)%nat then None else Some (l, e))
             else walk l' m (entry_addr e) virt
      end
  end.

Definition page_offset (l : nat) (virt : Z) : Z :=
  match l with 1%nat => Z.land virt 0xFFF | 2%nat => Z.land virt 0x1FFFFF | _ => Z.land virt 0x3FFFFFFF end.

Lemma offset_bound l v : 0 <= page_offset l v < 2 ^ 30.
Proof.
  unfold page_offset.
  change 0xFFF with (Z.ones 12). change 0x1FFFFF with (Z.ones 21). change 0x3FFFFFFF with (Z.ones 30).
  destruct l as [|[|[|l]]]; rewrite Z.land_ones by lia.
  - apply Z.mod_pos_bound. lia.
  - pose proof (Z.mod_pos_bound v (2 ^ 12) ltac:(lia)). lia.
  - pose proof (Z.mod_pos_bound v (2 ^ 21) ltac:(lia)). lia.
  - apply Z.mod_pos_bound. lia.
Qed.

Lemma add_offset e l v : add64 (entry_addr e) (page_offset l v) = Done (entry_addr e + page_offset l v).
Proof.
  destruct (entry_addr_frame e) as (p & -> & Hp & Hb). pose proof (offset_bound l v).
  unfold add64. destruct (Z.ltb_spec (p * 4096 + page_offset l v) U64); [done|].
  unfold PHYS_LIMIT, U64 in *. lia.
Qed.

(** [translate] computes the reference walk, and its additions never overflow. *)
Lemma translate_walk m root v :
  translate m root v =
    Done ((fun le => entry_addr (snd le) + page_offset (fst le) v) <$> walk 4 m root v).
Proof.
  unfold translate, get_table. cbn [walk].
  destruct (is_present (m (slot root (level_index 4 v)))); [|done]. simpl andb.
  destruct (is_huge (m (slot root (level_index 4 v)))); [done|]. cbn [negb].
  set (e3 := m (slot _ (level_index 3 v))). destruct (is_present e3); [|done]. cbn [negb].
  destruct (is_huge e3); [change (Z.land v 0x3FFFFFFF) with (page_offset 3 v); by rewrite add_offset|].
  set (e2 := m (slot _ (level_index 2 v))). destruct (is_present e2); [|done]. cbn [negb].
  destruct (is_huge e2); [change (Z.land v 0x1FFFFF) with (page_offset 2 v); by rewrite add_offset|].
  set (e1 := m (slot _ (level_index 1 v))). destruct (is_present e1); [|done]. cbn [negb].
  change (Z.land v 0xFFF) with (page_offset 1 v). by rewrite add_offset.
Qed.

(** The tables a walk from the root visits. *)
Inductive reach (m : TableMem) (root v : Z) : nat -> Z -> Prop :=
| reach_root : reach m root v 4 root
| reach_down l t c : reach m root v (S l) t -> (1 <= l)%nat ->
    get_table m t (level_index (S l) v) = Some c -> reach m root v l c.

Section tree.
Context {m : TableMem} {root : Z} {T : Z -> option nat}.
Context (Ht : tree m root T).

Lemma reach_table v l t : reach m root v l t -> T t = Some l.
Proof using Ht.
  induction 1 as [|l t c Hr IH Hl Hc]; [apply Ht|].
  eapply (tr_child _ _ _ Ht); [exact IH|done|apply level_index_bound|exact Hc].
Qed.

Lemma reach_le v l t : reach m root v l t -> (1 <= l <= 4)%nat.
Proof using Ht. intros Hr%reach_table. by eapply (tr_level _ _ _ Ht). Qed.

(** Two addresses whose walks meet have the same indices above. *)
Lemma reach_indices v v' l t : reach m root v l t -> reach m root v' l t ->
  forall k, (l < k <= 4)%nat -> level_index k v = level_index k v'.
Proof using Ht.
  intros Hr. induction Hr as [|l t c Hr IH Hl Hc]; intros Hr' k Hk; [lia|].
  inversion Hr' as [|l' t' c' Hr1 Hl1 Hc1]; subst; [lia|].
  destruct (tr_unique _ _ _ Ht t t' l (level_index (S l) v) (level_index (S l) v') c)
    as [<- Hi]; [by eapply reach_table|by eapply reach_table|done|apply level_index_bound..|done|done|].
  destruct (decide (k = S l)) as [->|]; [done|]. apply IH; [done|lia].
Qed.

(** A walk only depends on the entries it visits. *)
Lemma walk_ext m' v l : forall t,
  reach m root v l t ->
  (forall k t', (k <= l)%nat -> reach m root v k t' ->
     m' (slot t' (level_index k v)) = m (slot t' (level_index k v))) ->
  walk l m' t v = walk l m t v.
Proof using Type.
  induction l as [|l IH]; intros t Hr Hm; [done|]. cbn [walk].
  rewrite (Hm (S l) t) by done.
  destruct (is_present (m (slot t (level_index (S l) v)))) eqn:Hp; [|done]. cbn [negb].
  destruct l as [|l]; [done|].
  destruct (is_huge (m (slot t (level_index (S (S l)) v)))) eqn:Hh; [done|].
  apply IH; [|intros k t' Hk; apply Hm; lia].
  eapply reach_down; [exact Hr|lia|]. apply get_table_Some. done.
Qed.

Lemma get_pt_reach v pt : get_pt m root v = Some pt -> reach m root v 1 pt.
Proof using Type.
  unfold get_pt. intros (pdpt & H4 & (pd & H3 & H2)%bind_Some)%bind_Some.
  eapply reach_down; [|lia|exact H2]. eapply reach_down; [|lia|exact H3].
  eapply reach_down; [|lia|exact H4]. apply reach_root.
Qed.

Lemma reach_walk v l t : reach m root v l t -> walk 4 m root v = walk l m t v.
Proof using Type.
  induction 1 as [|l t c Hr IH Hl Hc]; [done|]. rewrite IH. cbn [walk].
  apply get_table_Some in Hc as (-> & Hh & ->). cbn [negb]. destruct l as [|l]; [lia|]. by rewrite Hh.
Qed.

End tree.

(** Two addresses of the same page have the same four indices. *)
Definition same_page (v v' : Z) : Prop :=
  forall k, (1 <= k <= 4)%nat -> level_index k v = level_index k v'.

(** Storing into the last-level entry of [v] changes only the walk of [v]. *)
Lemma leaf_write_other m root T v v' pt x :
  tree m root T -> reach m root v 1 pt -> ~ same_page v v' ->
  walk 4 (twrite m pt (level_index 1 v) x) root v' = walk 4 m root v'.
Proof.
  intros Ht Hr Hne. apply (walk_ext (root := root)); [apply reach_root|]. intros k t' Hk Hr'.
  pose proof (reach_table Ht v 1 pt Hr) as HT. pose proof (reach_table Ht v' k t' Hr') as HT'.
  apply twrite_ne; try apply level_index_bound; try by eapply (tr_frame _ _ _ Ht).
  intros [= -> Hi]. rewrite HT in HT'. injection HT' as <-. apply Hne. intros j Hj.
  destruct (decide (j = 1)%nat) as [->|]; [done|]. eapply (reach_indices Ht); [done|done|lia].
Qed.

(** Last-level stores leave the tables above, hence the walk, in place. *)
Lemma reach_leaf_write m root T v pt i x l t :
  tree m root T -> T pt = Some 1%nat -> 0 <= i < 512 ->
  reach m root v l t -> reach (twrite m pt i x) root v l t.
Proof.
  intros Ht HT Hi. induction 1 as [|l t c Hr IH Hl Hc]; [apply reach_root|].
  pose proof (reach_table Ht v _ _ Hr) as HT'.
  eapply reach_down; [exact IH|done|]. unfold get_table in *. rewrite twrite_ne; [done|..];
    try apply level_index_bound; try done; try by eapply (tr_frame _ _ _ Ht).
  intros [= -> _]. rewrite HT in HT'. injection HT' as <-. lia.
Qed.

Lemma leaf_write_this m root T v pt x :
  tree m root T -> reach m root v 1 pt ->
  walk 4 (twrite m pt (level_index 1 v) x) root v = if is_present x then Some (1%nat, x) else None.
Proof.
  intros Ht Hr. rewrite (reach_walk v 1 pt).
  - cbn [walk]. rewrite twrite_eq. by destruct (is_present x).
  - eapply reach_leaf_write; [done|by eapply (reach_table Ht)|apply level_index_bound|done].
Qed.

Lemma tree_leaf_write m root T pt i x :
  tree m root T -> T pt = Some 1%nat -> 0 <= i < 512 -> tree (twrite m pt i x) root T.
Proof.
  intros Ht HT Hi.
  assert (forall t l j, T t = Some (S l) -> (1 <= l)%nat -> 0 <= j < 512 ->
    get_table (twrite m pt i x) t j = get_table m t j) as Hg.
  { intros t l j HT' Hl Hj. unfold get_table. rewrite twrite_ne; try done;
      try by eapply (tr_frame _ _ _ Ht). intros [= -> _]. rewrite HT in HT'. injection HT' as <-. lia. }
  constructor; try apply Ht.
  - intros t l j c HT' Hl Hj. rewrite (Hg t l j) by done. by apply (tr_child _ _ _ Ht).
  - intros t t' l j j' c HT1 HT2 Hl Hj Hj'. rewrite (Hg t l j), (Hg t' l j') by done.
    by apply (tr_unique _ _ _ Ht t t' l).
Qed.

(** ** Creating intermediate tables *)

(** The memory after a cleared table at [a] is hooked into entry [i] of [t]. *)
Definition hooked (m : TableMem) (t i a : Z) : TableMem :=
  twrite (table_clear m a) t i (entry_new a (Z.lor (Z.lor PRESENT WRITABLE) USER)).

Definition add_table (T : Z -> option nat) (a : Z) (l : nat) : Z -> option nat :=
  fun x => if decide (x = a) then Some l else T x.

Section hook.
Context {m : TableMem} {root : Z} {T : Z -> option nat}.
Context (Ht : tree m root T).
Context (t i a : Z) (l : nat).
Context (HT : T t = Some (S l)) (Hl : (1 <= l)%nat) (Hi : 0 <= i < 512).
Context (Ha : frame_addr a) (Hfresh : T a = None).
Context (Hnp : is_present (m (slot t i)) = false).

Lemma hook_entry t' l' j :
  T t' = Some l' -> 0 <= j < 512 -> (t', j) <> (t, i) -> hooked m t i a (slot t' j) = m (slot t' j).
Proof using All.
  intros HT' Hj Hne. unfold hooked. pose proof (tr_frame _ _ _ Ht t' l' HT').
  rewrite twrite_ne; [|by eapply (tr_frame _ _ _ Ht)|done..].
  apply table_clear_out; try done. intros ->. congruence.
Qed.

Lemma hook_new j : 0 <= j < 512 -> hooked m t i a (slot a j) = 0.
Proof using All.
  intros Hj. unfold hooked. rewrite twrite_ne; [by apply table_clear_in|by eapply (tr_frame _ _ _ Ht)|done..|].
  intros [= -> _]. congruence.
Qed.

Lemma hook_parent : get_table (hooked m t i a) t i = Some a.
Proof using All.
  unfold get_table, hooked. rewrite twrite_eq, is_present_bit, is_huge_bit, !entry_new_bit by lia.
  cbn [andb negb]. rewrite entry_new_addr by done. by rewrite frame_addr_mask.
Qed.

Lemma hook_get t' l' j c :
  add_table T a l t' = Some l' -> 0 <= j < 512 -> get_table (hooked m t i a) t' j = Some c ->
  (t' = t /\ j = i /\ c = a) \/ (T t' = Some l' /\ get_table m t' j = Some c).
Proof using All.
  unfold add_table. intros HT' Hj Hg. case_decide as Hta.
  - exfalso. subst. unfold get_table in Hg. rewrite hook_new in Hg by done. done.
  - destruct (decide ((t', j) = (t, i))) as [[= -> ->]|Hne].
    + left. rewrite hook_parent in Hg. by injection Hg as <-.
    + right. split; [done|]. unfold get_table in *. by rewrite (hook_entry t' l' j) in Hg.
Qed.

Lemma hook_tree : tree (hooked m t i a) root (add_table T a l).
Proof using All.
  assert (forall c l', T c = Some l' -> add_table T a l c = Some l') as Hold.
  { intros c l' Hc. unfold add_table. rewrite decide_False; [done|]. intros ->. congruence. }
  constructor.
  - apply Hold, Ht.
  - intros t' l' HT'. unfold add_table in HT'. case_decide; [|by eapply (tr_level _ _ _ Ht)].
    injection HT' as <-. pose proof (tr_level _ _ _ Ht t _ HT). lia.
  - intros t' l' HT'. unfold add_table in HT'. case_decide; [by subst|by eapply (tr_frame _ _ _ Ht)].
  - intros t' l' j c HT' Hl' Hj [(-> & -> & ->)|[HT1 Hg]]%(hook_get t' (S l')); try done.
    + rewrite (Hold t (S l) HT) in HT'. injection HT' as ->. unfold add_table. by rewrite decide_True.
    + apply Hold. by eapply (tr_child _ _ _ Ht).
  - intros t1 t2 l' j1 j2 c HT1 HT2 Hl' Hj1 Hj2 Hg1%(hook_get t1 (S l')) Hg2%(hook_get t2 (S l')); try done.
    destruct Hg1 as [(-> & -> & ->)|[Ho1 Hg1]], Hg2 as [(-> & -> & Hc)|[Ho2 Hg2]]; try done.
    + pose proof (tr_child _ _ _ Ht t2 l' j2 a Ho2 Hl' Hj2 Hg2). congruence.
    + subst c. pose proof (tr_child _ _ _ Ht t1 l' j1 a Ho1 Hl' Hj1 Hg1). congruence.
    + by eapply (tr_unique _ _ _ Ht).
Qed.

(** No translation changes: the new entry leads to an empty table. *)
Lemma hook_walk v l' : forall t', T t' = Some l' -> walk l' (hooked m t i a) t' v = walk l' m t' v.
Proof using All.
  induction l' as [|l' IH]; intros t' HT'; [done|]. cbn [walk].
  destruct (decide ((t', level_index (S l') v) = (t, i))) as [[= -> He]|Hne].
  - rewrite HT in HT'. injection HT' as <-. pose proof hook_parent as Hp.
    rewrite He, Hnp. apply get_table_Some in Hp as (-> & -> & <-). cbn [negb].
    assert (forall k, hooked m t i a (slot a (level_index k v)) = 0) as H0
      by (intros k; apply hook_new, level_index_bound).
    destruct l as [|l0]; [lia|]. cbn [walk]. by rewrite H0.
  - rewrite (hook_entry t' (S l')) by (done || apply level_index_bound).
    destruct (is_present (m (slot t' (level_index (S l') v)))) eqn:Hp; [|done]. cbn [negb].
    destruct l' as [|l']; [done|].
    destruct (is_huge (m (slot t' (level_index (S (S l')) v)))) eqn:Hh; [done|].
    apply IH. eapply (tr_child _ _ _ Ht); [exact HT'|lia|apply level_index_bound|].
    by apply get_table_Some.
Qed.

Lemma hook_reach v k t' : reach m root v k t' -> reach (hooked m t i a) root v k t'.
Proof using All.
  induction 1 as [|k t' c Hr IH Hk Hc]; [apply reach_root|].
  eapply reach_down; [exact IH|done|]. unfold get_table in *.
  rewrite (hook_entry t' (S k)); [done|by eapply (reach_table Ht)|apply level_index_bound|].
  intros [= -> He]. rewrite He in Hc. by rewrite Hnp in Hc.
Qed.

End hook.

(** ** The mapper against the allocator's laws *)

Section mapper_spec.
Context {S : Type} `{FrameAllocatorLaws S}.

(** The tables form a tree of frames the allocator has handed out. *)
Record pt_inv (m : TableMem) (s : S) (root : Z) (T : Z -> option nat) (owned : list Block) : Prop := {
  pi_tree : tree m root T;
  pi_alloc : fa_holds s owned;
  pi_held : forall t l, T t = Some l -> owned_page owned (t / 4096)
}.

(** What a step of the walk may change: more tables, more frames held, but no
    translation. *)
Record extends (m : TableMem) (root : Z) (T : Z -> option nat) (owned : list Block)
    (m' : TableMem) (T' : Z -> option nat) (owned' : list Block) : Prop := {
  ex_tables : forall t l, T t = Some l -> T' t = Some l;
  ex_owned : exists new, owned' = new ++ owned;
  ex_walk : forall v, walk 4 m' root v = walk 4 m root v;
  ex_reach : forall v k t, reach m root v k t -> reach m' root v k t
}.

Lemma extends_refl m root T owned : extends m root T owned m T owned.
Proof using Type. constructor; try done. by exists []. Qed.

Lemma extends_trans m root T owned m1 T1 owned1 m2 T2 owned2 :
  extends m root T owned m1 T1 owned1 -> extends m1 root T1 owned1 m2 T2 owned2 ->
  extends m root T owned m2 T2 owned2.
Proof using Type.
  intros [A1 [n1 ->] B1 C1] [A2 [n2 ->] B2 C2]. constructor; auto.
  - exists (n2 ++ n1). by rewrite app_assoc.
  - intros v. by rewrite B2.
Qed.

Lemma get_or_create_spec m s root T owned v l t :
  pt_inv m s root T owned -> reach m root v (Datatypes.S l) t -> (1 <= l)%nat ->
  exists r m' s' T' owned',
    get_or_create_table m s t (level_index (Datatypes.S l) v) = Done (r, m', s') /\
    pt_inv m' s' root T' owned' /\ extends m root T owned m' T' owned' /\
    match r with
    | Ok c => reach m' root v l c
    | Err e => e <> AlreadyMapped
    end.
Proof using Type.
  intros [Ht Hs Hh] Hr Hl. pose proof (reach_table Ht v _ t Hr) as HT.
  pose proof (level_index_bound (Datatypes.S l) v) as Hi. set (i := level_index (Datatypes.S l) v) in *.
  unfold get_or_create_table. destruct (is_present (m (slot t i))) eqn:Hp.
  { eexists _, m, s, T, owned. split; [reflexivity|]. split; [done|]. split; [apply extends_refl|].
    destruct (is_huge (m (slot t i))) eqn:Hhu; [done|]. eapply reach_down; [exact Hr|done|].
    by apply get_table_Some. }
  destruct (fa_alloc_frame_ok s owned Hs) as (r & s' & -> & Hal). cbn [mbind outcome_bind].
  destruct r as [a|].
  2: { eexists _, m, s', T, owned. split; [reflexivity|]. split; [done|]. split; [apply extends_refl|done]. }
  destruct Hal as (p & -> & Hp0 & Hpb & Hnew & Hs').
  assert (frame_addr (p * 4096)) as Ha by (exists p; split_and!; [done|lia|lia]).
  assert (T (p * 4096) = None) as Hfresh.
  { destruct (T (p * 4096)) as [l'|] eqn:HTp; [|done]. destruct (Hh _ _ HTp) as (b & Hb & Hpb').
    rewrite Z.div_mul in Hpb' by lia. by apply Hnew in Hpb'. }
  eexists _, (hooked m t i (p * 4096)), s', (add_table T (p * 4096) l), ((0%nat, p) :: owned).
  split; [reflexivity|]. split; [|split].
  - constructor; [by apply hook_tree|done|]. intros t' l' HT'. apply owned_page_cons.
    unfold add_table in HT'. case_decide as Hta; [left|right; by eapply Hh].
    subst. rewrite Z.div_mul by lia. unfold page_of, in_block. simpl. rewrite pow2_0. lia.
  - constructor.
    + intros t' l' HT'. unfold add_table. rewrite decide_False; [done|]. intros ->. congruence.
    + by exists [(0%nat, p)].
    + intros v'. eapply hook_walk; try done. apply Ht.
    + intros v' k t'. by eapply hook_reach.
  - eapply reach_down; [by eapply hook_reach|done|]. by eapply hook_parent.
Qed.

(** The entry [map] writes, or the reason it refuses. *)
Lemma map_spec m s root T owned v phys flags :
  pt_inv m s root T owned ->
  exists r m1 m' s' T' owned',
    map m s root v phys flags = Done (r, m', s') /\
    pt_inv m1 s' root T' owned' /\ extends m root T owned m1 T' owned' /\
    match r with
    | Ok _ => exists pt, reach m1 root v 1 pt /\ is_present (m1 (slot pt (level_index 1 v))) = false /\
        m' = twrite m1 pt (level_index 1 v) (entry_new phys (Z.lor flags PRESENT))
    | Err AlreadyMapped => m' = m1 /\ exists pt, reach m1 root v 1 pt /\
        is_present (m1 (slot pt (level_index 1 v))) = true
    | Err _ => m' = m1
    end.
Proof using Type.
  intros Hi. unfold map.
  destruct (get_or_create_spec m s root T owned v 3 root Hi (reach_root _ _ _) ltac:(lia))
    as (r4 & m4 & s4 & T4 & o4 & -> & Hi4 & He4 & Hr4). cbn [mbind outcome_bind].
  destruct r4 as [pdpt|[]]; try (by destruct Hr4);
    try (eexists _, m4, m4, s4, T4, o4; by split_and!).
  destruct (get_or_create_spec m4 s4 root T4 o4 v 2 pdpt Hi4 Hr4 ltac:(lia))
    as (r3 & m3 & s3 & T3 & o3 & -> & Hi3 & He3 & Hr3). cbn [mbind outcome_bind].
  pose proof (extends_trans _ _ _ _ _ _ _ _ _ _ He4 He3) as He43.
  destruct r3 as [pd|[]]; try (by destruct Hr3);
    try (eexists _, m3, m3, s3, T3, o3; by split_and!).
  destruct (get_or_create_spec m3 s3 root T3 o3 v 1 pd Hi3 Hr3 ltac:(lia))
    as (r2 & m2 & s2 & T2 & o2 & -> & Hi2 & He2 & Hr2). cbn [mbind outcome_bind].
  pose proof (extends_trans _ _ _ _ _ _ _ _ _ _ He43 He2) as He.
  destruct r2 as [pt|[]]; try (by destruct Hr2);
    try (eexists _, m2, m2, s2, T2, o2; by split_and!).
  destruct (is_present (m2 (slot pt (level_index 1 v)))) eqn:Hp;
    (eexists _, m2, _, s2, T2, o2; split; [reflexivity|]); split_and!; try done; eauto.
Qed.

Lemma pt_inv_leaf m s root T owned v pt x :
  pt_inv m s root T owned -> reach m root v 1 pt ->
  pt_inv (twrite m pt (level_index 1 v) x) s root T owned.
Proof using Type.
  intros [Ht Hs Hh] Hr. constructor; [|done|done].
  apply tree_leaf_write; [done|by eapply (reach_table Ht)|apply level_index_bound].
Qed.

End mapper_spec.

(** ** Theorems *)

Lemma reach_get_pt m root v pt : reach m root v 1 pt -> get_pt m root v = Some pt.
Proof.
  intros Hr. inversion Hr as [|l t1 c Hr1 _ Hc1]; subst. inversion Hr1 as [|l t2 c Hr2 _ Hc2]; subst.
  inversion Hr2 as [|l t3 c Hr3 _ Hc3]; subst. inversion Hr3 as [|l t4 c Hr4 Hl Hc4]; subst.
  - unfold get_pt. rewrite Hc3. simpl. by rewrite Hc2.
  - exfalso. clear -Hr4. remember 5%nat as n eqn:Hn. revert Hn.
    assert (forall l t, reach m root v l t -> (l <= 4)%nat) as Hle
      by (induction 1; lia). intros ->. specialize (Hle _ _ Hr4). lia.
Qed.

Lemma walk_same_page m v v' l : (l <= 4)%nat -> same_page v v' ->
  forall t, walk l m t v = walk l m t v'.
Proof.
  intros Hl Hs. induction l as [|l IH]; intros t; [done|]. cbn [walk].
  rewrite (Hs (Datatypes.S l)) by lia. case_match; [done|]. destruct l; [done|]. case_match; [done|].
  apply IH. lia.
Qed.

Lemma leaf_walk m root v pt : reach m root v 1 pt ->
  walk 4 m root v = if is_present (m (slot pt (level_index 1 v)))
                    then Some (1%nat, m (slot pt (level_index 1 v))) else None.
Proof. intros Hr. rewrite (reach_walk v 1 pt Hr). cbn [walk]. by destruct (is_present _). Qed.

(** C7.  [map] on a well-formed table tree never faults.  On success the page
    had no translation, now translates to the given frame, and every other
    page's translation is as before; on failure no translation has changed,
    and [AlreadyMapped] is reported only for a page that has one.  The tables
    stay a tree of frames held from the allocator, and no held frame is lost. *)
Theorem map_correct {S} `{FrameAllocatorLaws S} (m : TableMem) (s : S) root T owned v phys flags :
  pt_inv m s root T owned -> flags_ok flags ->
  exists r m' s' T' owned',
    map m s root v phys flags = Done (r, m', s') /\ pt_inv m' s' root T' owned' /\
    (exists new, owned' = new ++ owned) /\
    (forall v', ~ same_page v v' \/ r <> Ok tt -> translate m' root v' = translate m root v') /\
    match r with
    | Ok _ => translate m root v = Done None /\
        translate m' root v = Done (Some (Z.land phys ADDR_MASK + Z.land v 0xFFF))
    | Err AlreadyMapped => exists a, translate m root v = Done (Some a)
    | Err _ => True
    end.
Proof.
  intros Hi Hf. destruct (map_spec m s root T owned v phys flags Hi)
    as (r & m1 & m' & s' & T' & owned' & Heq & Hi1 & [_ Hown Hwalk _] & Hr).
  exists r, m', s', T', owned'. split; [done|].
  assert (forall v', translate m1 root v' = translate m root v') as Htr
    by (intros v'; by rewrite !translate_walk, Hwalk).
  destruct r as [[]|[]].
  - destruct Hr as (pt & Hr & Hnp & ->). split; [by apply pt_inv_leaf|]. split; [done|]. split_and!.
    + intros v' [Hne|]; [|done]. rewrite <- Htr, !translate_walk.
      by rewrite (leaf_write_other m1 root T' v v' pt) by (done || apply Hi1).
    + by rewrite <- Htr, translate_walk, (leaf_walk m1 root v pt Hr), Hnp.
    + rewrite translate_walk, (leaf_write_this m1 root T' v pt) by (done || apply Hi1).
      rewrite is_present_bit, entry_new_bit, present_flag by lia. simpl.
      by rewrite entry_new_addr by by apply flags_ok_present.
  - destruct Hr as (-> & pt & Hr & Hp). split_and!; try done.
    rewrite <- Htr, translate_walk, (leaf_walk m1 root v pt Hr), Hp. by eexists.
  - subst m'. by split_and!.
  - subst m'. by split_and!.
Qed.

(** An empty tree whose root is the first page held by the small machine. *)
Definition demo_root : Z := 0x10000.
Definition demo_tables : TableMem := fun _ => 0.
Definition demo_T : Z -> option nat := fun t => if decide (t = demo_root) then Some 4%nat else None.

Lemma phys_bounded_check k :
  forallb (fun z => mz_base z + mz_size z <=? PHYS_LIMIT) (k_zones k) = true -> phys_bounded k.
Proof.
  intros Hall i z Hz. rewrite forallb_forall in Hall.
  apply Z.leb_le, Hall, list_elem_of_In. by eapply list_elem_of_lookup_2.
Qed.

Lemma demo_pt_inv : pt_inv demo_tables small_alloc demo_root demo_T [(1%nat, 0x10)].
Proof.
  constructor.
  - assert (forall t l, demo_T t = Some l -> t = demo_root /\ l = 4%nat) as HT.
    { intros t l. unfold demo_T. case_decide; [|done]. intros [= <-]. done. }
    constructor; try done.
    + intros t l [-> ->]%HT. lia.
    + intros t l [-> _]%HT. exists 16. unfold demo_root, PHYS_LIMIT. lia.
  - split; [|apply small_held].
    apply phys_bounded_check. vm_compute. reflexivity.
  - intros t l. unfold demo_T. case_decide as Ht; [|done]. intros _. subst.
    exists (1%nat, 0x10). split; [left|]. unfold page_of, in_block. vm_compute. split; congruence.
Qed.

Lemma demo_map_ok : exists m s,
  map demo_tables small_alloc demo_root 0x400123 0x55555000 WRITABLE = Done (Ok tt, m, s).
Proof. apply outcome_fst_fst. vm_compute. reflexivity. Qed.

Lemma map_correct_witness :
  exists m' s', map demo_tables small_alloc demo_root 0x400123 0x55555000 WRITABLE = Done (Ok tt, m', s') /\
    translate m' demo_root 0x400123 = Done (Some 0x55555123) /\
    translate m' demo_root 0x401000 = Done None.
Proof.
  destruct (map_correct demo_tables small_alloc demo_root demo_T [(1%nat, 0x10)] 0x400123 0x55555000 WRITABLE)
    as (r & m' & s' & T' & owned' & Heq & _ & _ & Hother & Hr); [exact demo_pt_inv|vm_compute; split; congruence|].
  destruct demo_map_ok as (m1 & s1 & Heq1). rewrite Heq in Heq1. injection Heq1 as -> _ _.
  exists m', s'. split; [exact Heq|].
  destruct Hr as [_ Hr]. split; [exact Hr|]. rewrite Hother; [vm_compute; reflexivity|].
  left. intros Hs. specialize (Hs 1%nat ltac:(lia)). vm_compute in Hs. discriminate.
Defined.

(** [unmap] removes exactly one translation: it returns the frame the page
    translated to and leaves the page without a translation and every other
    page as it was, or returns nothing and changes nothing. *)
Theorem unmap_correct m root T v :
  tree m root T ->
  let '(r, m') := unmap m root v in
  tree m' root T /\
  (forall v', ~ same_page v v' -> translate m' root v' = translate m root v') /\
  match r with
  | Some a => translate m root v = Done (Some (a + Z.land v 0xFFF)) /\ translate m' root v = Done None
  | None => m' = m
  end.
Proof.
  intros Ht. unfold unmap. destruct (get_pt m root v) as [pt|] eqn:Hg; [|done].
  apply get_pt_reach in Hg. destruct (is_present (m (slot pt (level_index 1 v)))) eqn:Hp; [|done].
  cbn [negb]. split_and!.
  - apply tree_leaf_write; [done|by eapply (reach_table Ht)|apply level_index_bound].
  - intros v' Hne. rewrite !translate_walk. by rewrite (leaf_write_other m root T v v' pt).
  - by rewrite translate_walk, (leaf_walk m root v pt Hg), Hp.
  - by rewrite translate_walk, (leaf_write_this m root T v pt).
Qed.

(** One page table per level, mapping page [0x400000] to frame [0x55555000]. *)
Definition one_page (last : Z) : TableMem :=
  twrite (twrite (twrite (twrite demo_tables
    0x10000 0 (entry_new 0x11000 PRESENT)) 0x11000 0 (entry_new 0x12000 PRESENT))
    0x12000 2 (entry_new 0x13000 PRESENT)) 0x13000 0 last.

Definition one_page_T (t : Z) : option nat :=
  if decide (t = 0x10000) then Some 4%nat else if decide (t = 0x11000) then Some 3%nat
  else if decide (t = 0x12000) then Some 2%nat else if decide (t = 0x13000) then Some 1%nat else None.

(** The entries above the last level that lead somewhere. *)
Lemma one_page_get last t l i c :
  one_page_T t = Some (S l) -> (1 <= l)%nat -> 0 <= i < 512 -> get_table (one_page last) t i = Some c ->
  (t, i, c, l) ∈ [(0x10000, 0, 0x11000, 3%nat); (0x11000, 0, 0x12000, 2%nat); (0x12000, 2, 0x13000, 1%nat)].
Proof.
  intros HT Hl Hi (Hp & _ & ->)%get_table_Some. unfold one_page_T in HT. revert Hp.
  unfold one_page, twrite, slot, demo_tables.
  repeat (case_decide; [subst t; injection HT as <-|]); [..|done];
    repeat (match goal with |- context [?a =? ?b] => destruct (Z.eqb_spec a b); [try lia|] end);
    intros Hp; try (vm_compute in Hp; discriminate); try lia.
  - assert (i = 0) as -> by lia. left.
  - assert (i = 0) as -> by lia. right; left.
  - assert (i = 2) as -> by lia. right; right; left.
Qed.

Lemma one_page_tree last : tree (one_page last) 0x10000 one_page_T.
Proof.
  assert (forall t l, one_page_T t = Some l -> (1 <= l <= 4)%nat /\ frame_addr t) as HT.
  { intros t l. unfold one_page_T, frame_addr, PHYS_LIMIT.
    repeat (case_decide; [intros [= <-]; subst t; split; [lia|];
      match goal with |- exists p, ?a = _ /\ _ => exists (a / 4096) end; vm_compute; split_and!; congruence|]).
    done. }
  constructor.
  - done.
  - intros t l Ht. by apply (HT t).
  - intros t l Ht. by apply (HT t l).
  - intros t l i c Ht Hl Hi Hg. apply (one_page_get last t l i c) in Hg; try done.
    rewrite !elem_of_cons, elem_of_nil in Hg. destruct Hg as [[= -> -> -> ->]|[[= -> -> -> ->]|[[= -> -> -> ->]|[]]]]; done.
  - intros t t' l i i' c Ht Ht' Hl Hi Hi' Hg Hg'.
    apply (one_page_get last t l i c) in Hg; try done. apply (one_page_get last t' l i' c) in Hg'; try done.
    rewrite !elem_of_cons, elem_of_nil in Hg, Hg'.
    destruct Hg as [[= -> -> -> ->]|[[= -> -> -> ->]|[[= -> -> -> ->]|[]]]];
      destruct Hg' as [[= -> ->]|[[= -> ->]|[[= -> ->]|[]]]]; done.
Qed.

Lemma unmap_correct_witness :
  exists m', unmap (one_page (entry_new 0x55555000 PRESENT)) 0x10000 0x400123 = (Some 0x55555000, m') /\
    translate m' 0x10000 0x400123 = Done None.
Proof.
  pose proof (unmap_correct (one_page (entry_new 0x55555000 PRESENT)) 0x10000 one_page_T 0x400123
    (one_page_tree _)) as Hu.
  destruct (unmap (one_page (entry_new 0x55555000 PRESENT)) 0x10000 0x400123) as [r m'] eqn:He.
  assert (fst (unmap (one_page (entry_new 0x55555000 PRESENT)) 0x10000 0x400123) = Some 0x55555000) as Hr
    by (vm_compute; reflexivity).
  rewrite He in Hr. simpl in Hr. subst r. exists m'. split; [reflexivity|]. apply Hu.
Defined.

(** Mapping a page and unmapping it again returns the mapped frame and
    restores every translation. *)
Theorem map_unmap_roundtrip {S} `{FrameAllocatorLaws S} (m : TableMem) (s : S) root T owned v phys flags m1 s1 :
  pt_inv m s root T owned -> flags_ok flags -> map m s root v phys flags = Done (Ok tt, m1, s1) ->
  exists m2, unmap m1 root v = (Some (Z.land phys ADDR_MASK), m2) /\
    forall v', translate m2 root v' = translate m root v'.
Proof.
  intros Hi Hf Hmap. destruct (map_spec m s root T owned v phys flags Hi)
    as (r & m0 & m' & s' & T' & owned' & Heq & [Ht _ _] & [_ _ Hwalk _] & Hr).
  rewrite Heq in Hmap. injection Hmap as -> -> ->. destruct Hr as (pt & Hr & Hnp & ->).
  set (x := entry_new phys (Z.lor flags PRESENT)) in *.
  assert (T' pt = Some 1%nat) as HT by by eapply (reach_table Ht).
  assert (reach (twrite m0 pt (level_index 1 v) x) root v 1 pt) as Hr1
    by (by eapply reach_leaf_write; [done|done|apply level_index_bound|]).
  unfold unmap. rewrite (reach_get_pt _ _ _ _ Hr1), twrite_eq.
  assert (is_present x = true) as Hx
    by (unfold x; by rewrite is_present_bit, entry_new_bit, present_flag by lia).
  rewrite Hx. cbn [negb]. eexists. split.
  { unfold x. by rewrite entry_new_addr by by apply flags_ok_present. }
  intros v'. rewrite !translate_walk, <- Hwalk. do 2 f_equal.
  assert (tree (twrite m0 pt (level_index 1 v) x) root T') as Ht1
    by (apply tree_leaf_write; [done|done|apply level_index_bound]).
  destruct (decide (Forall (fun k => level_index k v = level_index k v') [1; 2; 3; 4]%nat)) as [Hs|Hs].
  - assert (same_page v v') as Hsp.
    { intros k Hk. rewrite Forall_forall in Hs. apply Hs. set_unfold. lia. }
    rewrite <- !(walk_same_page _ v v' 4) by (lia || done).
    rewrite (leaf_write_this _ root T' v pt) by done. by rewrite (leaf_walk m0 root v pt Hr), Hnp.
  - assert (~ same_page v v') as Hsp.
    { intros Hsp. apply Hs. repeat (apply Forall_cons; split; [apply Hsp; lia|]). by apply Forall_nil. }
    rewrite (leaf_write_other _ root T' v v' pt) by done. by rewrite (leaf_write_other m0 root T' v v' pt).
Qed.

Lemma map_unmap_roundtrip_witness :
  exists m1 s1 m2, map demo_tables small_alloc demo_root 0x400123 0x55555000 WRITABLE = Done (Ok tt, m1, s1) /\
    unmap m1 demo_root 0x400123 = (Some 0x55555000, m2).
Proof.
  destruct demo_map_ok as (m1 & s1 & He). exists m1, s1.
  destruct (map_unmap_roundtrip demo_tables small_alloc demo_root demo_T [(1%nat, 0x10)] 0x400123 0x55555000
    WRITABLE m1 s1) as (m2 & Hu & _); [exact demo_pt_inv|vm_compute; split; congruence|exact He|].
  exists m2. split; [exact He|exact Hu].
Defined.

(** ** Flags *)

(** [contains] and the bit test agree on the single bit PRESENT. *)
Lemma contains_present x : is_present x = true -> (Z.land x PRESENT =? PRESENT) = true.
Proof.
  unfold is_present. pose proof (Z.land_ones x 1 ltac:(lia)) as Hx. change (Z.ones 1) with PRESENT in Hx.
  rewrite Hx. pose proof (Z.mod_pos_bound x (2 ^ 1) ltac:(lia)) as Hb.
  destruct (Z.eqb_spec (x mod 2 ^ 1) 0); [done|]. intros _. apply Z.eqb_eq. change PRESENT with 1. lia.
Qed.

Lemma set_page_flags_entry e new :
  flags_ok new ->
  let e' := entry_set_flags e (Z.lor (Z.ldiff (entry_flags e) PERMISSION_MASK) new) in
  entry_addr e' = entry_addr e /\ Z.land e' PERMISSION_MASK = Z.land new PERMISSION_MASK /\
  is_present e' = is_present new.
Proof.
  intros [H0 Hm] e'.
  assert (Z.land e' PERMISSION_MASK = Z.land new PERMISSION_MASK) as Hperm.
  { unfold e', entry_set_flags. apply Z.bits_inj'. intros i Hi.
    rewrite !Z.land_spec, !Z.lor_spec, Z.ldiff_spec, Z.land_spec.
    destruct (Z.testbit PERMISSION_MASK i) eqn:Hp; [|by rewrite !andb_false_r].
    assert (Z.testbit ADDR_MASK i = false) as ->.
    { assert (Z.testbit (Z.land PERMISSION_MASK ADDR_MASK) i = false) as Hz by apply Z.bits_0.
      by rewrite Z.land_spec, Hp in Hz. }
    by rewrite !andb_false_r. }
  split; [|split; [done|]].
  - apply land_mask_idemp. rewrite Z.land_lor_distr_l, Hm, Z.lor_0_r.
    apply Z.bits_inj'. intros i Hi. rewrite Z.land_spec, Z.ldiff_spec, Z.bits_0.
    unfold entry_flags. rewrite Z.land_spec.
    assert (Z.testbit (Z.land ALL_FLAGS ADDR_MASK) i = false) as Hz by apply Z.bits_0.
    rewrite Z.land_spec in Hz. destruct (Z.testbit e i), (Z.testbit ALL_FLAGS i), (Z.testbit ADDR_MASK i),
      (Z.testbit PERMISSION_MASK i); done.
  - rewrite !is_present_bit. assert (forall x, Z.testbit (Z.land x PERMISSION_MASK) 0 = Z.testbit x 0) as Hb
      by (intros x; rewrite Z.land_spec; apply andb_true_r).
    by rewrite <- (Hb e'), <- (Hb new), Hperm.
Qed.

(** [set_page_flags] (mprotect) replaces the permission bits of one entry
    exactly by the requested ones, keeps the frame address, keeps the page's
    translation when the new flags include PRESENT, and never changes another
    page's. *)
Theorem set_page_flags_exact m root T v new m' :
  tree m root T -> flags_ok new -> set_page_flags m root v new = (true, m') ->
  tree m' root T /\
  (forall v', ~ same_page v v' -> translate m' root v' = translate m root v') /\
  (is_present new = true -> translate m' root v = translate m root v) /\
  exists pt, get_pt m root v = Some pt /\
    let e := m (slot pt (level_index 1 v)) in
    let e' := m' (slot pt (level_index 1 v)) in
    entry_addr e' = entry_addr e /\ Z.land e' PERMISSION_MASK = Z.land new PERMISSION_MASK.
Proof.
  intros Ht Hf. unfold set_page_flags, modify_entry. destruct (get_pt m root v) as [pt|] eqn:Hg; [|done].
  destruct (_ && _) eqn:Href; [done|]. intros [= <-].
  apply get_pt_reach in Hg. set (e := m (slot pt (level_index 1 v))) in *.
  destruct (set_page_flags_entry e new Hf) as (Ha & Hp & Hpr).
  split; [apply tree_leaf_write; [done|by eapply (reach_table Ht)|apply level_index_bound]|].
  split_and!.
  - intros v' Hne. rewrite !translate_walk. by rewrite (leaf_write_other m root T v v' pt).
  - intros Hn. rewrite !translate_walk, (leaf_write_this m root T v pt), (leaf_walk m root v pt) by done.
    rewrite Hpr, Hn. fold e. destruct (is_present e) eqn:He; [simpl; by rewrite Ha|].
    simpl in Href. by rewrite (contains_present new Hn) in Href.
  - exists pt. split; [done|]. cbv zeta. by rewrite twrite_eq.
Qed.

Lemma set_page_flags_exact_witness :
  exists m', set_page_flags (one_page (entry_new 0x55555000 3)) 0x10000 0x400000 PRESENT = (true, m') /\
    translate m' 0x10000 0x400000 = Done (Some 0x55555000).
Proof.
  destruct (set_page_flags (one_page (entry_new 0x55555000 3)) 0x10000 0x400000 PRESENT) as [b m'] eqn:He.
  assert (fst (set_page_flags (one_page (entry_new 0x55555000 3)) 0x10000 0x400000 PRESENT) = true) as Hb
    by (vm_compute; reflexivity).
  rewrite He in Hb. simpl in Hb. subst b. exists m'. split; [reflexivity|].
  destruct (set_page_flags_exact (one_page (entry_new 0x55555000 3)) 0x10000 one_page_T 0x400000 PRESENT m')
    as (_ & _ & Htr & _); [apply one_page_tree|vm_compute; split; congruence|exact He|].
  rewrite Htr by reflexivity. vm_compute. reflexivity.
Defined.

(** Revoking all access is not reversible: after [set_page_flags] with
    flags that lack PRESENT (mprotect with PROT_NONE), every later call that
    would grant access again is refused, and the frame can no longer be reached
    through [translate] or [unmap], although its entry still names it. *)
Theorem prot_none_irreversible m root T v none m' :
  tree m root T -> flags_ok none -> is_present none = false ->
  set_page_flags m root v none = (true, m') ->
  translate m' root v = Done None /\ unmap m' root v = (None, m') /\
  forall again, is_present again = true -> set_page_flags m' root v again = (false, m').
Proof.
  intros Ht Hf Hn. unfold set_page_flags at 1, modify_entry. destruct (get_pt m root v) as [pt|] eqn:Hg; [|done].
  destruct (_ && _); [done|]. intros [= <-]. apply get_pt_reach in Hg.
  set (e := m (slot pt (level_index 1 v))).
  set (e' := entry_set_flags e (Z.lor (Z.ldiff (entry_flags e) PERMISSION_MASK) none)).
  assert (is_present e' = false) as Hp by (by rewrite <- Hn; apply set_page_flags_entry).
  assert (reach (twrite m pt (level_index 1 v) e') root v 1 pt) as Hr
    by (by eapply reach_leaf_write; [done|by eapply (reach_table Ht)|apply level_index_bound|]).
  split_and!.
  - by rewrite translate_walk, (leaf_write_this m root T v pt), Hp by done.
  - unfold unmap. by rewrite (reach_get_pt _ _ _ _ Hr), twrite_eq, Hp.
  - intros again Ha. unfold set_page_flags, modify_entry.
    by rewrite (reach_get_pt _ _ _ _ Hr), twrite_eq, Hp, (contains_present again Ha).
Qed.

Lemma prot_none_irreversible_witness :
  exists m', set_page_flags (one_page (entry_new 0x55555000 7)) 0x10000 0x400000 (Z.lor ACCESSED NO_EXECUTE)
      = (true, m') /\
    set_page_flags m' 0x10000 0x400000 (Z.lor (Z.lor PRESENT USER) WRITABLE) = (false, m').
Proof.
  destruct (set_page_flags (one_page (entry_new 0x55555000 7)) 0x10000 0x400000 (Z.lor ACCESSED NO_EXECUTE))
    as [b m'] eqn:He.
  assert (fst (set_page_flags (one_page (entry_new 0x55555000 7)) 0x10000 0x400000 (Z.lor ACCESSED NO_EXECUTE))
    = true) as Hb by (vm_compute; reflexivity).
  rewrite He in Hb. simpl in Hb. subst b. exists m'. split; [reflexivity|].
  apply (prot_none_irreversible (one_page (entry_new 0x55555000 7)) 0x10000 one_page_T 0x400000
    (Z.lor ACCESSED NO_EXECUTE) m' (one_page_tree _)); [vm_compute; split; congruence|reflexivity|exact He|reflexivity].
Defined.
