(* ===== verification/Vma.v ===== *)
(** * Virtual memory areas ([kernel/mm/mm-vma/src/lib.rs])

    The sorted, non-overlapping list of areas a process maps, with the
    operations of [VmAreaList].  The slice searches of the standard library
    that the code calls ([binary_search_by], [partition_point]) are modelled
    with their own loop. *)
From Stdlib Require Import Sorting.Sorted.
From S2P Require Import Prelude Addr.

(** ** Slice searches *)

(** [while size > 1]: halve the window until one candidate is left. *)
Fixpoint bsearch_loop {A} (fuel : nat) (f : A -> comparison) (l : list A) (base size : nat) : outcome nat :=
  match fuel with
  | O => OutOfFuel
  | S fuel' =>
      if (size <=? 1)%nat then mret base else
      let half := Nat.div2 size in
      let mid := (base + half)%nat in
      x ← or_fault (l !! mid);
      bsearch_loop fuel' f l (match f x with Gt => base | _ => mid end) (size - half)
  end.

Definition binary_search_by {A} (f : A -> comparison) (l : list A) : outcome (result nat nat) :=
  if (length l =? 0)%nat then mret (Err 0%nat) else
  base ← bsearch_loop (length l) f l 0 (length l);
  x ← or_fault (l !! base);
  mret (match f x with Eq => Ok base | Lt => Err (S base) | Gt => Err base end).

Definition partition_point {A} (pred : A -> bool) (l : list A) : outcome nat :=
  r ← binary_search_by (fun x => if pred x then Lt else Gt) l;
  mret (match r with Ok i => i | Err i => i end).

(** ** Areas *)

Definition VM_READ : Z := Z.shiftl 1 0.
Definition VM_WRITE : Z := Z.shiftl 1 1.
Definition VM_EXEC : Z := Z.shiftl 1 2.
Definition VM_SHARED : Z := Z.shiftl 1 3.
Definition VM_GROWSDOWN : Z := Z.shiftl 1 4.
Definition VM_STACK : Z := Z.shiftl 1 5.
Definition VM_DONTCOPY : Z := Z.shiftl 1 6.

Inductive VmType := Text | Data | Bss | Stack | Heap | Anon | FileBacked | Tls | Guard.

Record VmArea := mkVma {
  va_start : Z;
  va_end : Z;
  va_flags : Z;
  va_type : VmType;
  va_name : list Z;      (* 32 bytes *)
  va_name_len : Z
}.

Definition VmArea_new (start stop flags : Z) (t : VmType) : VmArea :=
  mkVma start stop flags t (replicate 32 0) 0.

Definition VmArea_new_named (start stop flags : Z) (t : VmType) (label : list Z) : VmArea :=
  let copy_len := Nat.min (length label) 32 in
  mkVma start stop flags t (take copy_len label ++ replicate (32 - copy_len) 0) (Z.of_nat copy_len).

Definition vma_name (a : VmArea) : list Z := take (Z.to_nat (va_name_len a)) (va_name a).

Definition vma_size (a : VmArea) : outcome Z := sub64 (va_end a) (va_start a).

Definition vma_contains (a : VmArea) (addr : Z) : bool := (va_start a <=? addr) && (addr <? va_end a).

Definition vma_overlaps (a : VmArea) (start stop : Z) : bool := (va_start a <? stop) && (start <? va_end a).

(** The same area with other bounds. *)
Definition vma_with (a : VmArea) (start stop : Z) : VmArea :=
  mkVma start stop (va_flags a) (va_type a) (va_name a) (va_name_len a).

Inductive VmAreaError := Overlap | NotFound | InvalidArgs | NoSpace.

(** ** The list *)

Abbreviation VmAreaList := (list VmArea).

Definition find_cmp (addr : Z) (a : VmArea) : comparison :=
  if addr <? va_start a then Gt else if va_end a <=? addr then Lt else Eq.

Definition vma_find (l : VmAreaList) (addr : Z) : outcome (option VmArea) :=
  r ← binary_search_by (find_cmp addr) l;
  match r with
  | Ok i => a ← or_fault (l !! i); mret (Some a)
  | Err _ => mret None
  end.

(** [find_mut] followed by the caller's update [g] of the area found. *)
Definition vma_find_mut (l : VmAreaList) (addr : Z) (g : VmArea -> VmArea) : outcome (bool * VmAreaList) :=
  r ← binary_search_by (find_cmp addr) l;
  match r with
  | Ok i => a ← or_fault (l !! i); mret (true, <[i := g a]> l)
  | Err _ => mret (false, l)
  end.

Definition page_low (x : Z) : bool := Z.land x 0xFFF =? 0.

Definition vma_insert (l : VmAreaList) (v : VmArea) : outcome (result unit VmAreaError * VmAreaList) :=
  if va_end v <=? va_start v then mret (Ok tt, l) else
  if negb (page_low (va_start v)) || negb (page_low (va_end v)) then mret (Err InvalidArgs, l) else
  pos ← partition_point (fun a => va_start a <? va_start v) l;
  before ← (if (0 <? pos)%nat then p ← or_fault (l !! Nat.pred pos); mret (va_start v <? va_end p)
            else mret false);
  if (before : bool) then mret (Err Overlap, l) else
  after ← (if (pos <? length l)%nat then n ← or_fault (l !! pos); mret (va_start n <? va_end v)
           else mret false);
  if (after : bool) then mret (Err Overlap, l) else
  mret (Ok tt, take pos l ++ v :: drop pos l).

(** What one area contributes to (kept, removed). *)
Definition remove_one (start stop : Z) (a : VmArea) : list VmArea * list VmArea :=
  if (va_end a <=? start) || (stop <=? va_start a) then ([a], [])
  else if (start <=? va_start a) && (va_end a <=? stop) then ([], [a])
  else if (va_start a <? start) && (stop <? va_end a)
  then ([vma_with a (va_start a) start; vma_with a stop (va_end a)], [vma_with a start stop])
  else if va_start a <? start
  then ([vma_with a (va_start a) start], [vma_with a start (Z.min (va_end a) stop)])
  else ([vma_with a stop (va_end a)], [vma_with a (va_start a) (Z.min stop (va_end a))]).

Fixpoint remove_all (start stop : Z) (l : list VmArea) : list VmArea * list VmArea :=
  match l with
  | [] => ([], [])
  | a :: l' =>
      let '(k, r) := remove_one start stop a in
      let '(ks, rs) := remove_all start stop l' in
      (k ++ ks, r ++ rs)
  end.

Definition vma_remove (l : VmAreaList) (start stop : Z) : result (list VmArea) VmAreaError * VmAreaList :=
  if (stop <=? start) || negb (page_low start) || negb (page_low stop) then (Err InvalidArgs, l)
  else let '(kept, removed) := remove_all start stop l in (Ok removed, kept).

(** ** [find_free_region] *)

Definition page_floor (x : Z) : Z := Z.ldiff x 0xFFF.

Definition MMAP_MIN_ADDR : Z := 0x1000.

(** The gaps between adjacent areas, highest first ([i] counts down). *)
Fixpoint scan_gaps (i : nat) (l : VmAreaList) (size : Z) : outcome (option Z) :=
  match i with
  | O => mret None
  | S i' =>
      lo ← or_fault (l !! i');
      hi ← or_fault (l !! i);
      gap ← sub64 (va_start hi) (va_end lo);
      if size <=? gap then
        d ← sub64 (va_start hi) size;
        if va_end lo <=? page_floor d then mret (Some (page_floor d)) else scan_gaps i' l size
      else scan_gaps i' l size
  end.

(** The hint, if one is given and nothing is mapped there. *)
Definition try_hint (l : VmAreaList) (size hint max : Z) : outcome (option Z) :=
  let h := page_floor hint in
  if h =? 0 then mret None else
  e ← add64 h size;
  if (e <=? max) && negb (existsb (fun a => vma_overlaps a h e) l) then mret (Some h) else mret None.

Definition below_first (first : VmArea) (size : Z) : outcome (option Z) :=
  m ← add64 MMAP_MIN_ADDR size;
  if m <=? va_start first then
    d ← sub64 (va_start first) size;
    if MMAP_MIN_ADDR <=? page_floor d then mret (Some (page_floor d)) else mret None
  else mret None.

Definition above_last (last : VmArea) (size max : Z) : outcome (option Z) :=
  e ← add64 (va_end last) size;
  if e <=? max then
    d ← sub64 max size;
    if va_end last <=? page_floor d then mret (Some (page_floor d)) else mret None
  else mret None.

(** The top-down search. *)
Definition search_gaps (l : VmAreaList) (size max : Z) : outcome (option Z) :=
  match l with
  | [] =>
      m ← add64 size MMAP_MIN_ADDR;
      if m <=? max then d ← sub64 max size; mret (Some (page_floor d)) else mret None
  | first :: _ =>
      top ← (z ← or_fault (last l); above_last z size max);
      match top with
      | Some c => mret (Some c)
      | None =>
          mid ← scan_gaps (length l - 1) l size;
          match mid with
          | Some c => mret (Some c)
          | None => below_first first size
          end
      end
  end.

Definition find_free_region (l : VmAreaList) (size hint max : Z) : outcome (option Z) :=
  if (size =? 0) || negb (page_low size) then mret None else
  h ← try_hint l size hint max;
  match h with
  | Some c => mret (Some c)
  | None => search_gaps l size max
  end.

(** ** Binary search *)

Section bsearch.
Context {A : Type} (f : A -> comparison) (l : list A).

(** The verdicts along the slice are [Lt] ... [Eq] ... [Gt]. *)
Context (Hmono : forall i j x y, (i < j)%nat -> l !! i = Some x -> l !! j = Some y ->
  (f y = Lt -> f x = Lt) /\ (f x = Gt -> f y = Gt)).

Lemma bsearch_loop_spec fuel : forall base size,
  (0 < size <= fuel)%nat -> (base + size <= length l)%nat ->
  (forall j x, (base + size <= j)%nat -> l !! j = Some x -> f x = Gt) ->
  (base = 0%nat \/ exists x, l !! base = Some x /\ f x <> Gt) ->
  exists b, bsearch_loop fuel f l base size = Done b /\ (b < length l)%nat /\
    (forall j x, (b < j)%nat -> l !! j = Some x -> f x = Gt) /\
    (b = 0%nat \/ exists x, l !! b = Some x /\ f x <> Gt).
Proof using Hmono.
  induction fuel as [|fuel IH]; intros base size Hs Hb Hhi Hlo; [lia|]. cbn [bsearch_loop].
  destruct (Nat.leb_spec size 1).
  { exists base. split; [done|]. split; [lia|]. split; [|done]. intros j x Hj. apply Hhi. lia. }
  pose proof (Nat.div2_div size) as Hd. pose proof (Nat.div_mod size 2 ltac:(lia)).
  pose proof (Nat.mod_upper_bound size 2 ltac:(lia)). set (half := Nat.div2 size) in *.
  destruct (lookup_lt_is_Some_2 l (base + half)) as [x Hx]; [lia|]. rewrite Hx. cbn [or_fault mbind outcome_bind].
  destruct (f x) eqn:Hf.
  - apply IH; [lia|lia| |right; exists x; split; [done|congruence]]. intros j y Hj. apply Hhi. lia.
  - apply IH; [lia|lia| |right; exists x; split; [done|congruence]]. intros j y Hj. apply Hhi. lia.
  - apply IH; [lia|lia| |done]. intros j y Hj Hy. destruct (decide (base + half = j)%nat) as [<-|]; [congruence|].
    destruct (Hmono (base + half) j x y ltac:(lia) Hx Hy) as [_ HG]. auto.
Qed.

Lemma binary_search_spec :
  exists r, binary_search_by f l = Done r /\
    match r with
    | Ok i => exists x, l !! i = Some x /\ f x = Eq
    | Err i => (i <= length l)%nat /\ (forall j x, (j < i)%nat -> l !! j = Some x -> f x = Lt) /\
        (forall j x, (i <= j)%nat -> l !! j = Some x -> f x = Gt)
    end.
Proof using Hmono.
  unfold binary_search_by. destruct (Nat.eqb_spec (length l) 0) as [Hn|Hn].
  { eexists. split; [reflexivity|]. split; [lia|]. split; [lia|].
    intros j x _ Hx. apply lookup_lt_Some in Hx. lia. }
  destruct (bsearch_loop_spec (length l) 0 (length l)) as (b & -> & Hb & Hhi & Hlo); [lia|lia| |by left|].
  { intros j x Hj Hx. apply lookup_lt_Some in Hx. lia. }
  cbn [mbind outcome_bind]. destruct (lookup_lt_is_Some_2 l b Hb) as [x Hx]. rewrite Hx.
  cbn [or_fault mbind outcome_bind]. eexists. split; [reflexivity|]. destruct (f x) eqn:Hf.
  - eauto.
  - split; [lia|]. split; [|intros j y Hj; apply Hhi; lia]. intros j y Hj Hy.
    destruct (decide (j = b)) as [->|]; [congruence|].
    destruct (Hmono j b y x ltac:(lia) Hy Hx) as [HL _]. auto.
  - assert (b = 0%nat) as -> by (destruct Hlo as [|(x' & Hx' & Hne)]; [done|congruence]).
    split; [lia|]. split; [lia|]. intros j y Hj Hy.
    destruct (decide (j = 0)%nat) as [->|]; [congruence|]. apply (Hhi j); [lia|done].
Qed.

End bsearch.

(** ** Well-formed lists *)

Definition aligned (x : Z) : Prop := x mod 4096 = 0.

Definition vma_ok (a : VmArea) : Prop :=
  0 <= va_start a /\ va_start a < va_end a < U64 /\ aligned (va_start a) /\ aligned (va_end a).

Definition vma_before (a b : VmArea) : Prop := va_end a <= va_start b.

(** Sorted by address and pairwise disjoint. *)
Definition wf_list (l : VmAreaList) : Prop := Forall vma_ok l /\ StronglySorted vma_before l.

Lemma StronglySorted_lookup {A} (R : A -> A -> Prop) l :
  StronglySorted R l <-> forall i j x y, (i < j)%nat -> l !! i = Some x -> l !! j = Some y -> R x y.
Proof.
  split.
  - induction 1 as [|a l Hs IH Hf]; intros i j x y Hij Hx Hy; [done|].
    destruct j as [|j]; [lia|]. destruct i as [|i]; simpl in *; [|apply (IH i j); [lia|done..]].
    simplify_eq. rewrite Forall_lookup in Hf. by apply (Hf j).
  - induction l as [|a l IH]; intros H; constructor.
    + apply IH. intros i j x y Hij. apply (H (S i) (S j)). lia.
    + apply Forall_lookup. intros j y Hy. apply (H 0%nat (S j)); [lia|done..].
Qed.

Lemma wf_lookup l i a : wf_list l -> l !! i = Some a -> vma_ok a.
Proof. intros [Hf _] Ha. rewrite Forall_lookup in Hf. by apply (Hf i). Qed.

Lemma wf_order l i j a b : wf_list l -> (i < j)%nat -> l !! i = Some a -> l !! j = Some b ->
  va_start a < va_end a /\ va_end a <= va_start b /\ va_start b < va_end b.
Proof.
  intros Hw Hij Ha Hb. pose proof (wf_lookup l i a Hw Ha) as (_ & ? & _).
  pose proof (wf_lookup l j b Hw Hb) as (_ & ? & _). destruct Hw as [_ Hs].
  rewrite StronglySorted_lookup in Hs. specialize (Hs i j a b Hij Ha Hb). unfold vma_before in Hs. lia.
Qed.

Lemma find_cmp_mono l addr : wf_list l ->
  forall i j x y, (i < j)%nat -> l !! i = Some x -> l !! j = Some y ->
  (find_cmp addr y = Lt -> find_cmp addr x = Lt) /\ (find_cmp addr x = Gt -> find_cmp addr y = Gt).
Proof.
  intros Hw i j x y Hij Hx Hy. destruct (wf_order l i j x y Hw Hij Hx Hy) as (? & ? & ?).
  unfold find_cmp. repeat match goal with |- context [?a <? ?b] => destruct (Z.ltb_spec a b) | |- context [?a <=? ?b] => destruct (Z.leb_spec a b) end;
    split; try done; lia.
Qed.

Lemma vma_contains_spec a x : vma_contains a x = true <-> va_start a <= x < va_end a.
Proof. unfold vma_contains. rewrite andb_true_iff, Z.leb_le, Z.ltb_lt. lia. Qed.

Lemma vma_overlaps_spec a s e : vma_overlaps a s e = true <-> va_start a < e /\ s < va_end a.
Proof. unfold vma_overlaps. rewrite andb_true_iff, !Z.ltb_lt. done. Qed.

Lemma find_cmp_eq a addr : find_cmp addr a = Eq <-> vma_contains a addr = true.
Proof.
  unfold find_cmp. rewrite vma_contains_spec.
  destruct (Z.ltb_spec addr (va_start a)), (Z.leb_spec (va_end a) addr); split; try done; lia.
Qed.

(** The index the search finds, or that no area contains the address. *)
Lemma find_index l addr : wf_list l ->
  exists r, binary_search_by (find_cmp addr) l = Done r /\
    match r with
    | Ok i => exists a, l !! i = Some a /\ vma_contains a addr = true
    | Err _ => forall a, a ∈ l -> vma_contains a addr = false
    end.
Proof.
  intros Hw. destruct (binary_search_spec (find_cmp addr) l (find_cmp_mono l addr Hw)) as (r & -> & Hr).
  exists r. split; [done|]. destruct r as [i|i].
  - destruct Hr as (a & Ha & Hf). exists a. split; [done|]. by apply find_cmp_eq.
  - destruct Hr as (_ & Hlo & Hhi). intros a [j Hj]%list_elem_of_lookup.
    destruct (vma_contains a addr) eqn:Hc; [|done]. apply find_cmp_eq in Hc.
    destruct (decide (j < i)%nat) as [Hji|Hji].
    + rewrite (Hlo j a Hji Hj) in Hc. done.
    + rewrite (Hhi j a) in Hc; [done|lia|done].
Qed.

(** ** [insert] *)

Lemma page_low_spec x : page_low x = true <-> aligned x.
Proof. unfold page_low, aligned. change 0xFFF with 4095. rewrite page_land. apply Z.eqb_eq. Qed.

(** [partition_point] splits the list at the first area not below [s]. *)
Lemma partition_start l s : wf_list l ->
  exists pos, partition_point (fun a => va_start a <? s) l = Done pos /\ (pos <= length l)%nat /\
    (forall j a, (j < pos)%nat -> l !! j = Some a -> va_start a < s) /\
    (forall j a, (pos <= j)%nat -> l !! j = Some a -> s <= va_start a).
Proof.
  intros Hw. unfold partition_point.
  destruct (binary_search_spec (fun a => if va_start a <? s then Lt else Gt) l) as (r & -> & Hr).
  { intros i j x y Hij Hx Hy. destruct (wf_order l i j x y Hw Hij Hx Hy) as (? & ? & ?).
    destruct (Z.ltb_spec (va_start x) s), (Z.ltb_spec (va_start y) s); split; try done; lia. }
  cbn [mbind outcome_bind]. destruct r as [i|i].
  { destruct Hr as (x & _ & Hx). by destruct (va_start x <? s). }
  destruct Hr as (Hi & Hlo & Hhi). exists i. split; [done|]. split; [done|]. split.
  - intros j a Hj Ha. specialize (Hlo j a Hj Ha). destruct (Z.ltb_spec (va_start a) s); [done|done].
  - intros j a Hj Ha. specialize (Hhi j a Hj Ha). destruct (Z.ltb_spec (va_start a) s); [done|done].
Qed.

(** Splicing an area between two parts of a sorted list. *)
Lemma wf_splice l pos v :
  wf_list l -> vma_ok v -> (pos <= length l)%nat ->
  (forall j a, (j < pos)%nat -> l !! j = Some a -> va_end a <= va_start v) ->
  (forall j a, (pos <= j)%nat -> l !! j = Some a -> va_end v <= va_start a) ->
  wf_list (take pos l ++ v :: drop pos l).
Proof.
  intros Hw Hv Hp Hlo Hhi. pose proof Hw as [Hf Hs]. split.
  - apply Forall_app. split; [by apply Forall_take|]. constructor; [done|by apply Forall_drop].
  - rewrite StronglySorted_lookup in Hs |- *. intros i j x y Hij Hx Hy.
    assert (forall k, (take pos l ++ v :: drop pos l) !! k =
      if decide (k < pos)%nat then l !! k else if decide (k = pos) then Some v else l !! pred k) as Hl.
    { intros k. destruct (decide (k < pos)%nat).
      - rewrite lookup_app_l by (rewrite length_take; lia). apply lookup_take_lt. done.
      - rewrite lookup_app_r by (rewrite length_take; lia). rewrite length_take, Nat.min_l by lia.
        destruct (decide (k = pos)) as [->|]; [by rewrite Nat.sub_diag|].
        destruct (k - pos)%nat as [|d] eqn:Hd; [lia|]. simpl. rewrite lookup_drop. f_equal. lia. }
    rewrite Hl in Hx, Hy. repeat case_decide; try lia.
    + by apply (Hs i j).
    + simplify_eq. by apply (Hlo i).
    + apply (Hs i (pred j)); [lia|done..].
    + simplify_eq. apply (Hhi (pred j)); [lia|done].
    + apply (Hs (pred i) (pred j)); [lia|done..].
Qed.

Definition overlap_exists (l : VmAreaList) (v : VmArea) : Prop :=
  exists a, a ∈ l /\ vma_overlaps a (va_start v) (va_end v) = true.

(** The neighbour checks of [insert] decide overlap with the whole list. *)
Lemma insert_checks l v pos :
  wf_list l -> va_start v < va_end v -> (pos <= length l)%nat ->
  (forall j a, (j < pos)%nat -> l !! j = Some a -> va_start a < va_start v) ->
  (forall j a, (pos <= j)%nat -> l !! j = Some a -> va_start v <= va_start a) ->
  (forall a, l !! pred pos = Some a -> (0 < pos)%nat -> va_end a <= va_start v) ->
  (forall a, l !! pos = Some a -> va_end v <= va_start a) ->
  (forall j a, (j < pos)%nat -> l !! j = Some a -> va_end a <= va_start v) /\
  (forall j a, (pos <= j)%nat -> l !! j = Some a -> va_end v <= va_start a).
Proof.
  intros Hw Hv Hp Hlo Hhi Hpr Hnx. split; intros j a Hj Ha.
  - destruct (lookup_lt_is_Some_2 l (pred pos)) as [b Hb]; [apply lookup_lt_Some in Ha; lia|].
    specialize (Hpr b Hb ltac:(lia)). destruct (decide (j = pred pos)) as [->|]; [by simplify_eq|].
    pose proof (wf_order l j (pred pos) a b Hw ltac:(lia) Ha Hb). lia.
  - destruct (lookup_lt_is_Some_2 l pos) as [b Hb]; [apply lookup_lt_Some in Ha; lia|].
    specialize (Hnx b Hb). destruct (decide (j = pos)) as [->|]; [by simplify_eq|].
    pose proof (wf_order l pos j b a Hw ltac:(lia) Hb Ha). lia.
Qed.

(** Looking at one neighbour, if there is one. *)
Lemma neighbour_check (l : VmAreaList) (c : bool) i (g : VmArea -> bool) :
  (c = true -> (i < length l)%nat) ->
  exists b, (if c then x ← or_fault (l !! i); mret (g x) else mret false) = Done b /\
    (b = true -> exists x, l !! i = Some x /\ g x = true /\ c = true) /\
    (b = false -> forall x, l !! i = Some x -> c = true -> g x = false).
Proof.
  intros Hc. destruct c; [|by exists false].
  destruct (lookup_lt_is_Some_2 l i (Hc eq_refl)) as [x Hx]. rewrite Hx. exists (g x). split; [done|].
  split; [eauto|]. intros Hg y Hy _. by simplify_eq.
Qed.

Lemma vma_insert_spec l v :
  wf_list l -> 0 <= va_start v -> va_end v < U64 ->
  exists r l', vma_insert l v = Done (r, l') /\
    match r with
    | Ok _ => (va_end v <= va_start v /\ l' = l) \/
        (vma_ok v /\ wf_list l' /\ l' ≡ₚ v :: l /\ ~ overlap_exists l v)
    | Err InvalidArgs => va_start v < va_end v /\ ~ (aligned (va_start v) /\ aligned (va_end v)) /\ l' = l
    | Err Overlap => vma_ok v /\ overlap_exists l v /\ l' = l
    | Err _ => False
    end.
Proof.
  intros Hw H0 Hb. unfold vma_insert. destruct (Z.leb_spec (va_end v) (va_start v)); [exists (Ok tt), l; auto|].
  destruct (negb (page_low (va_start v)) || negb (page_low (va_end v))) eqn:Hal.
  { exists (Err InvalidArgs), l. split; [done|]. split; [done|]. split; [|done]. intros [H1 H2].
    apply page_low_spec in H1, H2. by rewrite H1, H2 in Hal. }
  apply orb_false_iff in Hal as [Ha1%negb_false_iff Ha2%negb_false_iff].
  apply page_low_spec in Ha1, Ha2. assert (vma_ok v) as Hv by by unfold vma_ok.
  destruct (partition_start l (va_start v) Hw) as (pos & -> & Hpos & Hlo & Hhi). cbn [mbind outcome_bind].
  assert (forall i a, l !! i = Some a -> vma_overlaps a (va_start v) (va_end v) = true -> overlap_exists l v) as Hex.
  { intros i a Ha Ho. exists a. split; [|done]. by eapply list_elem_of_lookup_2. }
  destruct (neighbour_check l (0 <? pos)%nat (pred pos) (fun p => va_start v <? va_end p)) as (b1 & -> & Ht1 & Hf1).
  { rewrite Nat.ltb_lt. lia. }
  cbn [mbind outcome_bind]. destruct b1.
  { destruct (Ht1 eq_refl) as (p & Hp & Hpe%Z.ltb_lt & Hc%Nat.ltb_lt).
    exists (Err Overlap), l. split; [done|]. split; [done|]. split; [|done]. apply (Hex _ p Hp), vma_overlaps_spec.
    pose proof (Hlo (pred pos) p ltac:(lia) Hp). lia. }
  destruct (neighbour_check l (pos <? length l)%nat pos (fun x => va_start x <? va_end v)) as (b2 & -> & Ht2 & Hf2).
  { rewrite Nat.ltb_lt. lia. }
  cbn [mbind outcome_bind]. destruct b2.
  { destruct (Ht2 eq_refl) as (x & Hx & Hxs%Z.ltb_lt & _).
    exists (Err Overlap), l. split; [done|]. split; [done|]. split; [|done]. apply (Hex _ x Hx), vma_overlaps_spec.
    pose proof (Hhi pos x ltac:(lia) Hx). pose proof (wf_lookup l pos x Hw Hx) as (_ & ? & _). lia. }
  destruct (insert_checks l v pos Hw ltac:(lia) Hpos Hlo Hhi) as [Hl Hr].
  { intros a Ha Hp0. apply Z.ltb_ge, (Hf1 eq_refl a Ha), Nat.ltb_lt. done. }
  { intros a Ha. apply Z.ltb_ge, (Hf2 eq_refl a Ha), Nat.ltb_lt. by eapply lookup_lt_Some. }
  eexists (Ok tt), _. split; [reflexivity|]. right. split; [done|]. split; [by apply wf_splice|]. split.
  - rewrite <- Permutation_middle, take_drop. done.
  - intros (a & [j Hj]%list_elem_of_lookup & Ho%vma_overlaps_spec).
    destruct (decide (j < pos)%nat); [pose proof (Hl j a ltac:(done) Hj)|pose proof (Hr j a ltac:(lia) Hj)]; lia.
Qed.

(** ** [remove] *)

(** What an area says about its addresses, apart from its bounds. *)
Definition attr (a : VmArea) : Z * VmType * list Z * Z := (va_flags a, va_type a, va_name a, va_name_len a).

(** Address [x] lies in an area of [l] with attributes [t]. *)
Definition mapped_as (l : VmAreaList) (x : Z) (t : Z * VmType * list Z * Z) : Prop :=
  exists a, a ∈ l /\ vma_contains a x = true /\ attr a = t.

Lemma wf_nil : wf_list [].
Proof. split; constructor. Qed.

Lemma wf_one a : vma_ok a -> wf_list [a].
Proof. intros Ha. split; [by apply Forall_singleton|]. repeat constructor. Qed.

Lemma wf_two a b : vma_ok a -> vma_ok b -> vma_before a b -> wf_list [a; b].
Proof. intros Ha Hb Hab. split; repeat (constructor; try done). Qed.

Lemma mapped_nil x t : mapped_as [] x t <-> False.
Proof. unfold mapped_as. setoid_rewrite elem_of_nil. naive_solver. Qed.

Lemma mapped_app k l x t : mapped_as (k ++ l) x t <-> mapped_as k x t \/ mapped_as l x t.
Proof. unfold mapped_as. setoid_rewrite elem_of_app. naive_solver. Qed.

Lemma mapped_cons a l x t :
  mapped_as (a :: l) x t <-> (va_start a <= x < va_end a /\ attr a = t) \/ mapped_as l x t.
Proof. unfold mapped_as. setoid_rewrite elem_of_cons. rewrite <- vma_contains_spec. naive_solver. Qed.

(** The pieces lie within the area they came from and partition it. *)
Definition pieces (s e : Z) (a : VmArea) (k r : list VmArea) : Prop :=
  wf_list k /\ wf_list r /\
  Forall (fun b => va_start a <= va_start b /\ va_end b <= va_end a) (k ++ r) /\
  (forall x t, mapped_as k x t <-> va_start a <= x < va_end a /\ attr a = t /\ ~ (s <= x < e)) /\
  (forall x t, mapped_as r x t <-> va_start a <= x < va_end a /\ attr a = t /\ s <= x < e).

Ltac solve_pieces s e :=
  unfold pieces; split_and!;
  [ first [apply wf_nil | apply wf_one | apply wf_two]; unfold vma_ok, vma_before; simpl; try split_and!; (done || lia)
  | first [apply wf_nil | apply wf_one]; unfold vma_ok; simpl; try split_and!; (done || lia)
  | repeat (apply Forall_cons; split; [simpl; lia|]); by apply Forall_nil
  | intros x ?; rewrite ?mapped_cons, mapped_nil; unfold attr; simpl;
    destruct (decide (x < s)), (decide (x < e)); intuition (lia || auto)
  | intros x ?; rewrite ?mapped_cons, mapped_nil; unfold attr; simpl;
    destruct (decide (x < s)), (decide (x < e)); intuition (lia || auto) ].

Lemma remove_one_spec s e a :
  vma_ok a -> 0 <= s < e -> e < U64 -> aligned s -> aligned e ->
  let '(k, r) := remove_one s e a in pieces s e a k r.
Proof.
  intros (H0 & [Hse1 Hse2] & Ha1 & Ha2) Hs He Has Hae. unfold remove_one.
  destruct (Z.leb_spec (va_end a) s); cbn [andb orb]; [solve_pieces s e|].
  destruct (Z.leb_spec e (va_start a)); cbn [andb orb]; [solve_pieces s e|].
  destruct (Z.leb_spec s (va_start a)); cbn [andb orb].
  - destruct (Z.leb_spec (va_end a) e); [solve_pieces s e|].
    destruct (Z.ltb_spec (va_start a) s); [lia|]. cbn [andb orb]. rewrite Z.min_l by lia. solve_pieces s e.
  - destruct (Z.ltb_spec (va_start a) s); [|lia]. cbn [andb orb].
    destruct (Z.ltb_spec e (va_end a)); cbn [andb orb]; [solve_pieces s e|]. rewrite Z.min_l by lia. solve_pieces s e.
Qed.

Lemma wf_app k l :
  wf_list k -> wf_list l -> (forall a b, a ∈ k -> b ∈ l -> vma_before a b) -> wf_list (k ++ l).
Proof.
  intros [Hk1 Hk2] [Hl1 Hl2] Hkl. split; [by apply Forall_app|].
  induction Hk2 as [|a k Hs IH Hf]; simpl; [done|].
  apply Forall_cons in Hk1 as [_ Hk1]. constructor.
  - apply IH; [done|]. intros b c Hb Hc. apply Hkl; [by right|done].
  - apply Forall_app. split; [done|]. apply Forall_forall. intros c Hc. apply Hkl; [left|done].
Qed.

Lemma wf_cons a l : wf_list (a :: l) <-> vma_ok a /\ Forall (vma_before a) l /\ wf_list l.
Proof.
  split.
  - intros [[Ha Hf]%Forall_cons Hs]. inversion Hs; subst. done.
  - intros (Ha & Hb & [Hf Hs]). split; [by apply Forall_cons|by constructor].
Qed.

Lemma remove_all_spec s e l :
  wf_list l -> 0 <= s < e -> e < U64 -> aligned s -> aligned e ->
  let '(k, r) := remove_all s e l in
  wf_list k /\ wf_list r /\
  (forall b, b ∈ k ++ r -> exists a, a ∈ l /\ va_start a <= va_start b /\ va_end b <= va_end a) /\
  (forall x t, mapped_as k x t <-> mapped_as l x t /\ ~ (s <= x < e)) /\
  (forall x t, mapped_as r x t <-> mapped_as l x t /\ s <= x < e).
Proof.
  intros Hw Hs He Has Hae. induction l as [|a l IH]; simpl.
  { split_and!; try apply wf_nil; intros; rewrite ?mapped_nil in *; naive_solver by set_solver. }
  apply wf_cons in Hw as (Ha & Hb & Hw). specialize (IH Hw).
  pose proof (remove_one_spec s e a Ha Hs He Has Hae) as H1.
  destruct (remove_one s e a) as [k1 r1], (remove_all s e l) as [k2 r2].
  destruct H1 as (Hk1 & Hr1 & Hin1 & Hmk1 & Hmr1), IH as (Hk2 & Hr2 & Hin2 & Hmk2 & Hmr2).
  rewrite Forall_forall in Hb, Hin1.
  assert (forall b c, b ∈ k1 ++ r1 -> c ∈ k2 ++ r2 -> vma_before b c) as Hord.
  { intros b c Hbk Hc. destruct (Hin1 b Hbk) as [_ ?]. destruct (Hin2 c Hc) as (d & Hd & ? & _).
    specialize (Hb d Hd). unfold vma_before in *. lia. }
  split_and!.
  - apply wf_app; [done..|]. intros b c Hbk Hc. apply Hord; apply elem_of_app; by left.
  - apply wf_app; [done..|]. intros b c Hbk Hc. apply Hord; apply elem_of_app; by right.
  - intros b Hbk. assert (b ∈ k1 ++ r1 \/ b ∈ k2 ++ r2) as [Hx|Hx] by set_solver.
    + exists a. split; [left|]. by apply Hin1.
    + destruct (Hin2 b Hx) as (d & Hd & ?). exists d. split; [by right|done].
  - intros x t. rewrite mapped_app, mapped_cons, Hmk1, Hmk2. tauto.
  - intros x t. rewrite mapped_app, mapped_cons, Hmr1, Hmr2. tauto.
Qed.

(** ** [find_free_region] *)

Lemma page_floor_spec x : aligned (page_floor x) /\ page_floor x <= x < page_floor x + 4096.
Proof.
  unfold page_floor, aligned. change 0xFFF with 4095. rewrite page_mask.
  pose proof (Z.mod_pos_bound x 4096 ltac:(lia)). pose proof (Z.div_mod x 4096 ltac:(lia)).
  split; [|lia]. replace (x - x mod 4096) with (x / 4096 * 4096) by lia. apply Z.mod_mul. lia.
Qed.

(** An aligned bound is not crossed by rounding down. *)
Lemma page_floor_ge x y : aligned y -> y <= x -> y <= page_floor x.
Proof.
  unfold page_floor, aligned. change 0xFFF with 4095. rewrite page_mask. intros Hy Hle.
  pose proof (Z.div_mod x 4096 ltac:(lia)). pose proof (Z.div_mod y 4096 ltac:(lia)).
  pose proof (Z.div_le_mono y x 4096 ltac:(lia) Hle). lia.
Qed.

(** Nothing of [l] lies in [c, c + size). *)
Definition region_free (l : VmAreaList) (c size : Z) : Prop :=
  forall a, a ∈ l -> vma_overlaps a c (c + size) = false.

Lemma region_free_spec l c size :
  region_free l c size <-> forall i a, l !! i = Some a -> c + size <= va_start a \/ va_end a <= c.
Proof.
  unfold region_free. split.
  - intros H i a Ha. specialize (H a (list_elem_of_lookup_2 _ _ _ Ha)). apply not_true_iff_false in H.
    rewrite vma_overlaps_spec in H. lia.
  - intros H a [i Ha]%list_elem_of_lookup. apply not_true_iff_false. rewrite vma_overlaps_spec.
    specialize (H i a Ha). lia.
Qed.

Section region.
Context {l : VmAreaList} (Hw : wf_list l) (size : Z) (Hsize : 0 < size) (Hal : aligned size).

Lemma scan_gaps_spec i : (i < length l)%nat ->
  exists r, scan_gaps i l size = Done r /\
    match r with
    | Some c => aligned c /\ exists j lo hi, l !! j = Some lo /\ l !! S j = Some hi /\
        va_end lo <= c /\ c + size <= va_start hi
    | None => forall j lo hi, (j < i)%nat -> l !! j = Some lo -> l !! S j = Some hi ->
        va_start hi - va_end lo < size
    end.
Proof using Hw Hsize Hal.
  induction i as [|i IH]; intros Hi; cbn [scan_gaps].
  { exists None. split; [done|]. intros j lo hi Hj. lia. }
  destruct (lookup_lt_is_Some_2 l i ltac:(lia)) as [lo Hlo], (lookup_lt_is_Some_2 l (S i) Hi) as [hi Hhi].
  rewrite Hlo, Hhi. cbn [or_fault mbind outcome_bind].
  destruct (wf_order l i (S i) lo hi Hw ltac:(lia) Hlo Hhi) as (? & ? & ?).
  destruct (wf_lookup l i lo Hw Hlo) as (? & _ & _ & Hae).
  rewrite (sub64_ok (va_start hi) (va_end lo)) by lia. cbn [mbind outcome_bind].
  destruct (IH ltac:(lia)) as (r & Hr & Hs).
  destruct (Z.leb_spec size (va_start hi - va_end lo)) as [Hfit|Hsmall].
  - rewrite sub64_ok by lia. cbn [mbind outcome_bind].
    destruct (page_floor_spec (va_start hi - size)) as [Hc1 Hc2].
    pose proof (page_floor_ge (va_start hi - size) (va_end lo) Hae ltac:(lia)).
    destruct (Z.leb_spec (va_end lo) (page_floor (va_start hi - size))); [|lia].
    eexists. split; [reflexivity|]. split; [done|]. exists i, lo, hi. split_and!; [done|done|lia|lia].
  - exists r. split; [done|]. destruct r as [c|]; [done|]. intros j lo' hi' Hj Hlo' Hhi'.
    destruct (decide (j = i)) as [->|]; [simplify_eq; lia|]. apply (Hs j); [lia|done..].
Qed.

Lemma gap_free j lo hi c : l !! j = Some lo -> l !! S j = Some hi -> va_end lo <= c ->
  c + size <= va_start hi -> region_free l c size.
Proof using Hw.
  intros Hlo Hhi H1 H2. apply region_free_spec. intros k a Ha.
  destruct (decide (k <= j)%nat) as [Hk|Hk].
  - right. destruct (decide (k = j)) as [->|]; [by simplify_eq|].
    pose proof (wf_order l k j a lo Hw ltac:(lia) Ha Hlo). lia.
  - left. destruct (decide (k = S j)) as [->|]; [by simplify_eq|].
    pose proof (wf_order l (S j) k hi a Hw ltac:(lia) Hhi Ha). lia.
Qed.

(** When neither the top nor a gap fits, a free region must lie below all areas. *)
Lemma only_below c z : last l = Some z -> region_free l c size ->
  (va_end z <= c -> False) ->
  (forall j lo hi, (j < length l - 1)%nat -> l !! j = Some lo -> l !! S j = Some hi ->
     va_start hi - va_end lo < size) ->
  forall i a, l !! i = Some a -> c + size <= va_start a.
Proof using Type.
  intros Hz Hfree Htop Hgap i a Ha. rewrite region_free_spec in Hfree.
  assert (forall d, forall i a, (i + d = length l - 1)%nat -> l !! i = Some a -> ~ va_end a <= c) as Hall.
  { induction d as [|d IH]; intros i' b Hid Hb Hle.
    - apply Htop. rewrite last_lookup in Hz. replace (pred (length l)) with i' in Hz by lia. by simplify_eq.
    - destruct (lookup_lt_is_Some_2 l (S i')) as [hi Hhi]; [lia|].
      destruct (Hfree (S i') hi Hhi) as [Hs|He].
      + pose proof (Hgap i' b hi ltac:(lia) Hb Hhi). lia.
      + by apply (IH (S i') hi ltac:(lia) Hhi). }
  pose proof (lookup_lt_Some _ _ _ Ha). destruct (Hfree i a Ha) as [|He]; [done|].
  exfalso. by apply (Hall (length l - 1 - i)%nat i a ltac:(lia) Ha).
Qed.

End region.

(** A region the search may return. *)
Definition good_region (l : VmAreaList) (size max c : Z) : Prop :=
  aligned c /\ MMAP_MIN_ADDR <= c /\ c + size <= max /\ region_free l c size.

Lemma try_hint_spec l size hint max :
  page_floor hint + size < U64 -> 0 <= hint ->
  exists r, try_hint l size hint max = Done r /\
    match r with Some c => good_region l size max c | None => True end.
Proof.
  intros Hh H0. unfold try_hint. destruct (page_floor_spec hint) as [Ha Hb].
  destruct (Z.eqb_spec (page_floor hint) 0) as [|Hnz]; [by exists None|].
  unfold add64. destruct (Z.ltb_spec (page_floor hint + size) U64); [|lia]. cbn [mbind outcome_bind].
  destruct (_ && _) eqn:Hc; [|by exists None]. apply andb_true_iff in Hc as [Hle%Z.leb_le Hn%negb_true_iff].
  eexists. split; [reflexivity|]. split; [done|]. split.
  { pose proof (page_floor_ge hint 0 ltac:(done) H0). unfold MMAP_MIN_ADDR, aligned in *.
    pose proof (Z.div_mod (page_floor hint) 4096 ltac:(lia)). lia. }
  split; [done|]. intros a Hin. apply not_true_iff_false. intros Ho. apply not_true_iff_false in Hn.
  apply Hn, existsb_exists. exists a. split; [by apply list_elem_of_In|done].
Qed.

Lemma above_last_spec z size max :
  0 < size -> 0 <= va_end z -> va_end z + size < U64 -> aligned (va_end z) ->
  exists r, above_last z size max = Done r /\
    match r with
    | Some c => aligned c /\ va_end z <= c /\ c + size <= max
    | None => max < va_end z + size
    end.
Proof.
  intros H0 Hz0 Hb Ha. unfold above_last, add64. destruct (Z.ltb_spec (va_end z + size) U64); [|lia].
  cbn [mbind outcome_bind]. destruct (Z.leb_spec (va_end z + size) max); [|exists None; split; [done|lia]].
  unfold sub64. destruct (page_floor_spec (max - size)) as [Hc1 Hc2].
  pose proof (page_floor_ge (max - size) (va_end z) Ha ltac:(lia)).
  destruct (Z.leb_spec size max) as [|]; [|lia]. cbn [mbind outcome_bind].
  destruct (Z.leb_spec (va_end z) (page_floor (max - size))); [|lia].
  eexists. split; [reflexivity|]. split; [done|]. lia.
Qed.

Lemma below_first_spec a size :
  0 < size -> MMAP_MIN_ADDR + size < U64 ->
  exists r, below_first a size = Done r /\
    match r with
    | Some c => aligned c /\ MMAP_MIN_ADDR <= c /\ c + size <= va_start a
    | None => va_start a < MMAP_MIN_ADDR + size
    end.
Proof.
  intros H0 Hb. unfold below_first, add64. destruct (Z.ltb_spec (MMAP_MIN_ADDR + size) U64); [|lia].
  cbn [mbind outcome_bind]. destruct (Z.leb_spec (MMAP_MIN_ADDR + size) (va_start a)); [|exists None; split; [done|lia]].
  unfold sub64. destruct (page_floor_spec (va_start a - size)) as [Hc1 Hc2].
  pose proof (page_floor_ge (va_start a - size) MMAP_MIN_ADDR ltac:(done) ltac:(lia)).
  destruct (Z.leb_spec size (va_start a)) as [|]; [|unfold MMAP_MIN_ADDR in *; lia]. cbn [mbind outcome_bind].
  destruct (Z.leb_spec MMAP_MIN_ADDR (page_floor (va_start a - size))); [|lia].
  eexists. split; [reflexivity|]. split; [done|]. lia.
Qed.

Lemma search_gaps_spec l size max :
  wf_list l -> 0 < size -> aligned size -> 0 <= max -> max + size < U64 -> MMAP_MIN_ADDR + size < U64 ->
  (forall a, a ∈ l -> va_end a <= max) ->
  exists r, search_gaps l size max = Done r /\
    match r with
    | Some c => good_region l size max c
    | None => forall c, ~ good_region l size max c
    end.
Proof.
  intros Hw Hs Hal Hm0 Hm Hmin Hmax. unfold search_gaps. destruct l as [|a0 l0].
  { rewrite add64_ok by lia. cbn [mbind outcome_bind].
    destruct (Z.leb_spec (size + MMAP_MIN_ADDR) max).
    - rewrite sub64_ok by (unfold MMAP_MIN_ADDR in *; lia). cbn [mbind outcome_bind].
      destruct (page_floor_spec (max - size)) as [Hc1 Hc2].
      pose proof (page_floor_ge (max - size) MMAP_MIN_ADDR ltac:(done) ltac:(lia)).
      eexists. split; [reflexivity|]. split_and!; [done|done|lia|]. by intros a ?%not_elem_of_nil.
    - exists None. split; [done|]. intros c (_ & ? & ? & _). lia. }
  set (l := a0 :: l0) in *. destruct (last l) as [z|] eqn:Hz; [|by apply last_None in Hz].
  cbn [or_fault mbind outcome_bind].
  assert (l !! (length l - 1)%nat = Some z) as Hzl.
  { rewrite last_lookup in Hz. by replace (length l - 1)%nat with (pred (length l)) by lia. }
  destruct (wf_lookup l _ z Hw Hzl) as (? & ? & _ & Hze).
  pose proof (Hmax z (list_elem_of_lookup_2 _ _ _ Hzl)).
  assert (forall i a, l !! i = Some a -> MMAP_MIN_ADDR <= va_end a /\ va_end a <= va_end z) as Hall.
  { intros i a Ha. destruct (wf_lookup l i a Hw Ha) as (? & ? & Hx1 & Hx2). split.
    - unfold MMAP_MIN_ADDR, aligned in *. pose proof (Z.div_mod (va_end a) 4096 ltac:(lia)). lia.
    - pose proof (lookup_lt_Some _ _ _ Ha). destruct (decide (i = length l - 1)%nat) as [->|]; [by simplify_eq|].
      pose proof (wf_order l i (length l - 1) a z Hw ltac:(lia) Ha Hzl). lia. }
  destruct (above_last_spec z size max) as (r & -> & Hr); [lia|lia|lia|done|]. cbn [mbind outcome_bind].
  destruct r as [c|].
  { exists (Some c). split; [done|]. destruct Hr as (Hc1 & Hc2 & Hc3). destruct (Hall _ z Hzl).
    split_and!; [done|lia|done|]. apply region_free_spec. intros i a Ha. right. destruct (Hall i a Ha). lia. }
  destruct (scan_gaps_spec Hw size Hs Hal (length l - 1)) as (r2 & -> & Hr2); [simpl; lia|].
  cbn [mbind outcome_bind]. destruct r2 as [c|].
  { exists (Some c). split; [done|]. destruct Hr2 as (Hc1 & j & lo & hi & Hlo & Hhi & Hx1 & Hx2).
    pose proof (Hall j lo Hlo). pose proof (Hall (S j) hi Hhi).
    pose proof (wf_lookup l (S j) hi Hw Hhi) as (_ & ? & _).
    split_and!; [done|lia|lia|]. by eapply (gap_free Hw size j lo hi). }
  destruct (below_first_spec a0 size Hs Hmin) as (r3 & -> & Hr3). exists r3. split; [done|].
  assert (l !! 0%nat = Some a0) as Ha0 by done.
  pose proof (wf_lookup l 0 a0 Hw Ha0) as (_ & ? & _). pose proof (Hall 0%nat a0 Ha0).
  destruct r3 as [c|].
  - destruct Hr3 as (Hc1 & Hc2 & Hc3). split_and!; [done|done|lia|]. apply region_free_spec.
    intros i a Ha. left. destruct (decide (i = 0)%nat) as [->|]; [by simplify_eq|].
    pose proof (wf_order l 0 i a0 a Hw ltac:(lia) Ha0 Ha). lia.
  - intros c (Hc1 & Hc2 & Hc3 & Hfree).
    pose proof (only_below size c z Hz Hfree ltac:(lia) Hr2 0 a0 Ha0). lia.
Qed.

(** ** Theorems *)

(** [find] is exact on a well-formed list: the binary search returns an
    area iff one contains the address, and then that one. *)
Theorem vma_find_correct l addr :
  wf_list l ->
  exists r, vma_find l addr = Done r /\
    match r with
    | Some a => a ∈ l /\ vma_contains a addr = true
    | None => forall a, a ∈ l -> vma_contains a addr = false
    end.
Proof.
  intros Hw. unfold vma_find. destruct (find_index l addr Hw) as ([i|i] & -> & Hr); cbn [mbind outcome_bind].
  - destruct Hr as (a & Ha & Hc). rewrite Ha. exists (Some a). split; [done|]. split; [|done].
    by eapply list_elem_of_lookup_2.
  - by exists None.
Qed.

(** A process with text, heap and stack. *)
Definition demo_vmas : VmAreaList :=
  [VmArea_new 0x400000 0x401000 5 Text; VmArea_new 0x600000 0x604000 3 Heap;
   VmArea_new 0x7FFFFFFE0000 0x7FFFFFFF0000 3 Stack].

Lemma demo_vmas_wf : wf_list demo_vmas.
Proof.
  split.
  - repeat (apply Forall_cons; split; [vm_compute; split_and!; congruence|]). by apply Forall_nil.
  - repeat (constructor; try (vm_compute; congruence)).
Qed.

Lemma vma_find_correct_witness :
  exists a, vma_find demo_vmas 0x603FFF = Done (Some a) /\ va_type a = Heap.
Proof.
  destruct (vma_find_correct demo_vmas 0x603FFF demo_vmas_wf) as (r & Heq & Hr).
  assert (vma_find demo_vmas 0x603FFF = Done (Some (VmArea_new 0x600000 0x604000 3 Heap))) as Hv
    by (vm_compute; reflexivity).
  rewrite Heq in Hv. injection Hv as ->. eexists. split; [exact Heq|reflexivity].
Defined.

(** [insert] adds the area exactly when it is non-empty, page-aligned and
    overlaps nothing; the list stays sorted and disjoint.  Empty areas are
    accepted without effect, misaligned ones are [InvalidArgs], and [Overlap]
    is reported only for a real overlap. *)
Theorem vma_insert_correct l v :
  wf_list l -> 0 <= va_start v -> va_end v < U64 ->
  exists r l', vma_insert l v = Done (r, l') /\
    match r with
    | Ok _ => (va_end v <= va_start v /\ l' = l) \/
        (vma_ok v /\ wf_list l' /\ l' ≡ₚ v :: l /\ ~ overlap_exists l v)
    | Err InvalidArgs => va_start v < va_end v /\ ~ (aligned (va_start v) /\ aligned (va_end v)) /\ l' = l
    | Err Overlap => vma_ok v /\ overlap_exists l v /\ l' = l
    | Err _ => False
    end.
Proof. apply vma_insert_spec. Qed.

Lemma vma_insert_correct_witness :
  exists l', vma_insert demo_vmas (VmArea_new 0x500000 0x502000 1 Anon) = Done (Ok tt, l') /\ wf_list l'.
Proof.
  destruct (vma_insert_correct demo_vmas (VmArea_new 0x500000 0x502000 1 Anon) demo_vmas_wf)
    as (r & l' & Heq & Hr); [vm_compute; congruence|vm_compute; reflexivity|].
  destruct (outcome_fst (vma_insert demo_vmas (VmArea_new 0x500000 0x502000 1 Anon)) (Ok tt)) as [l2 H2];
    [vm_compute; reflexivity|].
  rewrite Heq in H2. injection H2 as -> ->. exists l2. split; [exact Heq|].
  destruct Hr as [[Hbad _]|(_ & Hw & _)]; [exfalso; vm_compute in Hbad; congruence|exact Hw].
Defined.

(** [remove] (munmap) unmaps exactly the given range: afterwards no address
    in it belongs to an area, every other address belongs to an area with the
    same flags, type and name as before, and the areas returned describe
    exactly what was cut out.  Splitting keeps both lists sorted and disjoint;
    bad arguments change nothing. *)
Theorem vma_remove_correct l s e :
  wf_list l -> 0 <= s -> e < U64 ->
  match vma_remove l s e with
  | (Err err, l') => err = InvalidArgs /\ l' = l /\ ~ (s < e /\ aligned s /\ aligned e)
  | (Ok removed, l') =>
      wf_list l' /\ wf_list removed /\
      (forall x t, mapped_as l' x t <-> mapped_as l x t /\ ~ (s <= x < e)) /\
      (forall x t, mapped_as removed x t <-> mapped_as l x t /\ s <= x < e)
  end.
Proof.
  intros Hw H0 Hu. unfold vma_remove.
  destruct (_ || _) eqn:Hbad.
  - split; [done|]. split; [done|]. intros (Hlt & H1%page_low_spec & H2%page_low_spec).
    rewrite H1, H2 in Hbad. destruct (Z.leb_spec e s); [lia|done].
  - apply orb_false_iff in Hbad as [[Hlt H1%negb_false_iff]%orb_false_iff H2%negb_false_iff].
    apply Z.leb_gt in Hlt. apply page_low_spec in H1, H2.
    pose proof (remove_all_spec s e l Hw ltac:(lia) Hu H1 H2) as Hr.
    destruct (remove_all s e l) as [k r]. destruct Hr as (? & ? & _ & ? & ?). done.
Qed.

(** Cutting the middle of the heap. *)
Lemma vma_remove_correct_witness :
  wf_list (snd (vma_remove demo_vmas 0x601000 0x602000)) /\
  exists removed, fst (vma_remove demo_vmas 0x601000 0x602000) = Ok removed /\ length removed = 1%nat /\
    forall x t, mapped_as removed x t <-> mapped_as demo_vmas x t /\ 0x601000 <= x < 0x602000.
Proof.
  pose proof (vma_remove_correct demo_vmas 0x601000 0x602000 demo_vmas_wf ltac:(lia) ltac:(reflexivity)) as H.
  destruct (vma_remove demo_vmas 0x601000 0x602000) as [[removed|err] l'] eqn:He.
  - destruct H as (Hw & _ & _ & Hr). split; [exact Hw|]. exists removed. split; [reflexivity|].
    split; [|exact Hr]. vm_compute in He. injection He as <- _. reflexivity.
  - exfalso. vm_compute in He. discriminate.
Defined.

(** [find_free_region] (mmap without MAP_FIXED) is sound and complete when
    every area ends at or below [max]: the address it returns is page-aligned,
    not below the minimum, ends by [max] and overlaps no area; and it returns
    nothing only when the size is not a positive multiple of the page size or
    no such address exists. *)
Theorem find_free_region_correct l size hint max :
  wf_list l -> 0 <= size -> 0 <= hint -> page_floor hint + size < U64 ->
  0 <= max -> max + size < U64 -> MMAP_MIN_ADDR + size < U64 -> (forall a, a ∈ l -> va_end a <= max) ->
  exists r, find_free_region l size hint max = Done r /\
    match r with
    | Some c => good_region l size max c
    | None => size = 0 \/ ~ aligned size \/ forall c, ~ good_region l size max c
    end.
Proof.
  intros Hw Hs Hh Hhs Hm0 Hm Hmin Hmax. unfold find_free_region.
  destruct (Z.eqb_spec size 0); simpl; [exists None; auto|].
  destruct (page_low size) eqn:Hp; simpl.
  2: { exists None. split; [done|]. right; left. rewrite <- page_low_spec. congruence. }
  apply page_low_spec in Hp.
  destruct (try_hint_spec l size hint max Hhs Hh) as ([c|] & -> & Hr); cbn [mbind outcome_bind].
  { by exists (Some c). }
  destruct (search_gaps_spec l size max Hw ltac:(lia) Hp Hm0 Hm Hmin Hmax) as (r & -> & Hr').
  exists r. split; [done|]. destruct r; auto.
Qed.

(** The top of the gap below the stack. *)
Lemma find_free_region_correct_witness :
  good_region demo_vmas 0x2000 0x7FFFFFFFF000 0x7FFFFFFFD000.
Proof.
  destruct (find_free_region_correct demo_vmas 0x2000 0 0x7FFFFFFFF000 demo_vmas_wf) as (r & Heq & Hr);
    [lia|lia|reflexivity|lia|reflexivity|reflexivity| |].
  - intros a Ha. unfold demo_vmas in Ha. rewrite !elem_of_cons, elem_of_nil in Ha.
    destruct Ha as [-> | [-> | [-> | []]]]; vm_compute; congruence.
  - assert (find_free_region demo_vmas 0x2000 0 0x7FFFFFFFF000 = Done (Some 0x7FFFFFFFD000)) as Hv
      by (vm_compute; reflexivity).
    rewrite Heq in Hv. injection Hv as ->. exact Hr.
Defined.

(** The bound [max] is not enforced below an area that lies above it, and
    the sum of a hint and a size is not checked: with a stack above [max] the
    region returned ends beyond [max], and a hint near the top of the address
    space overflows. *)
Theorem find_free_region_limits :
  find_free_region demo_vmas 0x1000 0 0x700000000000 = Done (Some 0x7FFFFFFDF000) /\
  0x700000000000 < 0x7FFFFFFDF000 + 0x1000 /\
  find_free_region demo_vmas 0x2000 0xFFFFFFFFFFFFF000 0x7FFFFFFFF000 = Fault.
Proof. split_and!; vm_compute; reflexivity. Qed.
