(* ===== verification/Signal.v ===== *)
(** * Signals ([kernel/signal/signal/src/*.rs], [kernel/syscall/syscall/src/signal.rs])

    Signal sets, the pending queue, dispositions, the delivery decision, the
    signal frame and its restoration, and the mask update of [sigprocmask].
    A [SigSet] is the 64-bit mask it wraps; signal numbers are [i32]. *)
From S2P Require Import Prelude Addr.

(** ** Signal numbers ([signal.rs]) *)

Definition NSIG : Z := 64.
Definition SIGRTMIN : Z := 32.
Definition SIGRTMAX : Z := 64.

Definition SIGHUP : Z := 1.
Definition SIGINT : Z := 2.
Definition SIGQUIT : Z := 3.
Definition SIGILL : Z := 4.
Definition SIGTRAP : Z := 5.
Definition SIGABRT : Z := 6.
Definition SIGBUS : Z := 7.
Definition SIGFPE : Z := 8.
Definition SIGKILL : Z := 9.
Definition SIGUSR1 : Z := 10.
Definition SIGSEGV : Z := 11.
Definition SIGUSR2 : Z := 12.
Definition SIGPIPE : Z := 13.
Definition SIGALRM : Z := 14.
Definition SIGTERM : Z := 15.
Definition SIGSTKFLT : Z := 16.
Definition SIGCHLD : Z := 17.
Definition SIGCONT : Z := 18.
Definition SIGSTOP : Z := 19.
Definition SIGTSTP : Z := 20.
Definition SIGTTIN : Z := 21.
Definition SIGTTOU : Z := 22.
Definition SIGURG : Z := 23.
Definition SIGXCPU : Z := 24.
Definition SIGXFSZ : Z := 25.
Definition SIGVTALRM : Z := 26.
Definition SIGPROF : Z := 27.
Definition SIGWINCH : Z := 28.
Definition SIGIO : Z := 29.
Definition SIGPWR : Z := 30.
Definition SIGSYS : Z := 31.

Inductive DefaultAction := DaTerminate | DaCoreDump | DaIgnore | DaStop | DaContinue.

#[global] Instance DefaultAction_eq_dec : EqDecision DefaultAction.
Proof. solve_decision. Defined.

Definition one_of (sig : Z) (l : list Z) : bool := existsb (Z.eqb sig) l.

Definition default_action (sig : Z) : DefaultAction :=
  if one_of sig [SIGHUP; SIGINT; SIGPIPE; SIGALRM; SIGTERM; SIGUSR1; SIGUSR2; SIGPROF; SIGVTALRM;
                 SIGSTKFLT; SIGIO; SIGPWR] then DaTerminate
  else if one_of sig [SIGQUIT; SIGILL; SIGTRAP; SIGABRT; SIGBUS; SIGFPE; SIGSEGV; SIGXCPU; SIGXFSZ; SIGSYS]
  then DaCoreDump
  else if one_of sig [SIGCHLD; SIGURG; SIGWINCH] then DaIgnore
  else if one_of sig [SIGSTOP; SIGTSTP; SIGTTIN; SIGTTOU] then DaStop
  else if sig =? SIGCONT then DaContinue
  else if sig =? SIGKILL then DaTerminate
  else if (SIGRTMIN <=? sig) && (sig <=? SIGRTMAX) then DaTerminate
  else DaIgnore.

Definition can_catch (sig : Z) : bool := negb (sig =? SIGKILL) && negb (sig =? SIGSTOP).
Definition can_block (sig : Z) : bool := negb (sig =? SIGKILL) && negb (sig =? SIGSTOP).
Definition is_valid (sig : Z) : bool := (1 <=? sig) && (sig <=? SIGRTMAX).

(** ** Signal sets ([sigset.rs]) *)

Definition SigSet : Type := Z.

Definition in_bounds (sig : Z) : bool := (1 <=? sig) && (sig <=? NSIG).

Definition sigbit (sig : Z) : Z := Z.shiftl 1 (sig - 1).

Definition ss_empty : SigSet := 0.
Definition ss_full : SigSet := U64_MAX.
Definition ss_add (s : SigSet) (sig : Z) : SigSet := if in_bounds sig then Z.lor s (sigbit sig) else s.
Definition ss_remove (s : SigSet) (sig : Z) : SigSet := if in_bounds sig then Z.ldiff s (sigbit sig) else s.
Definition ss_contains (s : SigSet) (sig : Z) : bool :=
  if in_bounds sig then negb (Z.land s (sigbit sig) =? 0) else false.
Definition ss_is_empty (s : SigSet) : bool := s =? 0.
Definition ss_union (s t : SigSet) : SigSet := Z.lor s t.
Definition ss_intersection (s t : SigSet) : SigSet := Z.land s t.
Definition ss_difference (s t : SigSet) : SigSet := Z.ldiff s t.
Definition remove_unblockable (s : SigSet) : SigSet := ss_remove (ss_remove s SIGKILL) SIGSTOP.
Definition ss_first (s : SigSet) : option Z :=
  if s =? 0 then None else Some (Z.of_nat (trailing_zeros s) + 1).

(** [SigSetIter::next] called until it returns [None]; [n] signals are left
    after [current]. *)
Fixpoint iter_from (n : nat) (s : SigSet) (current : Z) : list Z :=
  match n with
  | O => []
  | S n' =>
      let c := current + 1 in
      if negb (Z.land s (sigbit c) =? 0) then c :: iter_from n' s c else iter_from n' s c
  end.

Definition ss_iter (s : SigSet) : list Z := iter_from (Z.to_nat NSIG) s 0.

Inductive SigHow := How_Block | How_Unblock | How_SetMask.

Definition how_from_i32 (v : Z) : option SigHow :=
  if v =? 0 then Some How_Block else if v =? 1 then Some How_Unblock
  else if v =? 2 then Some How_SetMask else None.

(** The new mask [sys_sigprocmask] installs. *)
Definition sigprocmask_mask (how : SigHow) (current new_set : SigSet) : SigSet :=
  let m := match how with
           | How_Block => ss_union current new_set
           | How_Unblock => ss_difference current new_set
           | How_SetMask => new_set
           end in
  ss_remove (ss_remove m SIGKILL) SIGSTOP.

(** ** Dispositions ([action.rs]) *)

Inductive SigHandler := H_Default | H_Ignore | H_Handler (addr : Z).

Definition handler_from_raw (h : Z) : SigHandler :=
  if h =? 0 then H_Default else if h =? 1 then H_Ignore else H_Handler h.

Definition handler_to_raw (h : SigHandler) : Z :=
  match h with H_Default => 0 | H_Ignore => 1 | H_Handler a => a end.

Definition SA_NOCLDSTOP : Z := 0x00000001.
Definition SA_NOCLDWAIT : Z := 0x00000002.
Definition SA_SIGINFO : Z := 0x00000004.
Definition SA_ONSTACK : Z := 0x08000000.
Definition SA_RESTART : Z := 0x10000000.
Definition SA_NODEFER : Z := 0x40000000.
Definition SA_RESETHAND : Z := 0x80000000.
Definition SA_RESTORER : Z := 0x04000000.

Definition SIGFLAGS_ALL : Z :=
  foldr Z.lor 0 [SA_NOCLDSTOP; SA_NOCLDWAIT; SA_SIGINFO; SA_ONSTACK; SA_RESTART; SA_NODEFER;
                 SA_RESETHAND; SA_RESTORER].

Record SigAction := mkSigAction {
  sa_handler : Z;
  sa_flags : Z;
  sa_restorer : Z;
  sa_mask : SigSet
}.

Definition SigAction_default : SigAction := mkSigAction 0 0 0 ss_empty.

Definition action_handler (a : SigAction) : SigHandler := handler_from_raw (sa_handler a).

(** [from_bits_truncate], and [contains] for a single-bit flag. *)
Definition action_flags (a : SigAction) : Z := Z.land (sa_flags a) SIGFLAGS_ALL.
Definition flags_contain (flags f : Z) : bool := Z.land flags f =? f.
Definition is_user_handler (h : SigHandler) : bool :=
  match h with H_Handler _ => true | _ => false end.
Definition set_handler (h : SigHandler) (a : SigAction) : SigAction :=
  mkSigAction (handler_to_raw h) (sa_flags a) (sa_restorer a) (sa_mask a).
Definition is_siginfo (a : SigAction) : bool := flags_contain (action_flags a) SA_SIGINFO.
Definition is_restart (a : SigAction) : bool := flags_contain (action_flags a) SA_RESTART.
Definition is_nodefer (a : SigAction) : bool := flags_contain (action_flags a) SA_NODEFER.
Definition is_resethand (a : SigAction) : bool := flags_contain (action_flags a) SA_RESETHAND.
Definition is_onstack (a : SigAction) : bool := flags_contain (action_flags a) SA_ONSTACK.

Record SigInfo := mkSigInfo {
  si_signo : Z; si_errno : Z; si_code : Z; si_pid : Z; si_uid : Z; si_status : Z;
  si_utime : Z; si_stime : Z; si_value : Z; si_addr : Z
}.

Definition SigInfo_default : SigInfo := mkSigInfo 0 0 0 0 0 0 0 0 0 0.

Definition SI_USER : Z := 0.
Definition CLD_EXITED : Z := 1.

Definition SigInfo_new (signo : Z) : SigInfo := mkSigInfo signo 0 0 0 0 0 0 0 0 0.
Definition SigInfo_kill (signo pid uid : Z) : SigInfo := mkSigInfo signo 0 SI_USER pid uid 0 0 0 0 0.
Definition SigInfo_child (signo pid uid status : Z) : SigInfo :=
  mkSigInfo signo 0 CLD_EXITED pid uid status 0 0 0 0.
Definition SigInfo_fault (signo addr code : Z) : SigInfo := mkSigInfo signo 0 code 0 0 0 0 0 0 addr.

(** ** Pending signals ([pending.rs]) *)

Record PendingSignal := mkPending { ps_signo : Z; ps_info : option SigInfo }.

Record PendingSignals := mkPendingSet {
  pd_pending : SigSet;
  pd_info : list (option SigInfo)      (* NSIG entries *)
}.

Definition Pending_new : PendingSignals := mkPendingSet ss_empty (replicate (Z.to_nat NSIG) None).

Definition pending_add (p : PendingSignals) (sig : Z) (info : option SigInfo) : PendingSignals :=
  if in_bounds sig
  then mkPendingSet (ss_add (pd_pending p) sig) (<[Z.to_nat (sig - 1) := info]> (pd_info p))
  else p.

Definition pending_remove (p : PendingSignals) (sig : Z) : outcome (option SigInfo * PendingSignals) :=
  if in_bounds sig
  then
    info ← or_fault (pd_info p !! Z.to_nat (sig - 1));
    mret (info, mkPendingSet (ss_remove (pd_pending p) sig) (<[Z.to_nat (sig - 1) := None]> (pd_info p)))
  else mret (None, p).

Definition is_pending (p : PendingSignals) (sig : Z) : bool := ss_contains (pd_pending p) sig.

Definition deliverable (p : PendingSignals) (blocked : SigSet) : SigSet := ss_difference (pd_pending p) blocked.

Definition next_deliverable (p : PendingSignals) (blocked : SigSet) : option Z := ss_first (deliverable p blocked).

Definition dequeue (p : PendingSignals) (blocked : SigSet) : outcome (option PendingSignal * PendingSignals) :=
  match next_deliverable p blocked with
  | Some sig => '(info, p') ← pending_remove p sig; mret (Some (mkPending sig info), p')
  | None => mret (None, p)
  end.

Definition pending_clear (p : PendingSignals) : PendingSignals :=
  mkPendingSet 0 (replicate (Z.to_nat NSIG) None).

Definition has_deliverable (p : PendingSignals) (blocked : SigSet) : bool :=
  negb (ss_is_empty (deliverable p blocked)).

Definition pending_is_empty (p : PendingSignals) : bool := ss_is_empty (pd_pending p).

Definition get_info (p : PendingSignals) (sig : Z) : outcome (option SigInfo) :=
  if in_bounds sig then or_fault (pd_info p !! Z.to_nat (sig - 1)) else mret None.

(** ** Delivery ([delivery.rs]) *)

Record SavedRegisters := mkRegs {
  rax : Z; rbx : Z; rcx : Z; rdx : Z; rsi : Z; rdi : Z; rbp : Z;
  r8 : Z; r9 : Z; r10 : Z; r11 : Z; r12 : Z; r13 : Z; r14 : Z; r15 : Z
}.

Record SignalFrame := mkFrameS {
  sf_retaddr : Z;
  sf_signo : Z;
  sf_info : SigInfo;
  saved_mask : SigSet;
  saved_rip : Z;
  saved_rsp : Z;
  saved_rflags : Z;
  saved_rax : Z; saved_rbx : Z; saved_rcx : Z; saved_rdx : Z; saved_rsi : Z; saved_rdi : Z; saved_rbp : Z;
  saved_r8 : Z; saved_r9 : Z; saved_r10 : Z; saved_r11 : Z; saved_r12 : Z; saved_r13 : Z; saved_r14 : Z;
  saved_r15 : Z
}.

(** [size_of::<SignalFrame>()]: 16 bytes, the 96-byte [SigInfo], the mask,
    3 + 15 registers. *)
Definition FRAME_BYTES : Z := 16 + 96 + 8 + 8 * 18.

Inductive SignalResult :=
| R_None
| R_Terminate
| R_CoreDump
| R_Stop
| R_Continue
| R_Ignore
| R_UserHandler (handler signo : Z) (info : option SigInfo) (flags : Z) (handler_mask : SigSet).

Definition determine_action (signal : PendingSignal) (action : SigAction) (current_mask : SigSet) : SignalResult :=
  let sig := ps_signo signal in
  if sig =? SIGKILL then R_Terminate
  else if sig =? SIGSTOP then R_Stop
  else match action_handler action with
  | H_Ignore => R_Ignore
  | H_Default =>
      match default_action sig with
      | DaTerminate => R_Terminate
      | DaCoreDump => R_CoreDump
      | DaIgnore => R_Ignore
      | DaStop => R_Stop
      | DaContinue => R_Continue
      end
  | H_Handler addr =>
      let flags := action_flags action in
      let m := ss_union current_mask (sa_mask action) in
      let handler_mask := if flags_contain flags SA_NODEFER then m else ss_add m sig in
      R_UserHandler addr sig (ps_info signal) flags handler_mask
  end.

(** Returns (new_rip, new_rsp, frame). *)
Definition setup_signal_handler (handler signo : Z) (info : option SigInfo) (flags restorer : Z)
    (mask : SigSet) (rip rsp rflags : Z) (regs : SavedRegisters) : outcome (Z * Z * SignalFrame) :=
  let frame := mkFrameS restorer signo (default SigInfo_default info) mask rip rsp rflags
    (rax regs) (rbx regs) (rcx regs) (rdx regs) (rsi regs) (rdi regs) (rbp regs)
    (r8 regs) (r9 regs) (r10 regs) (r11 regs) (r12 regs) (r13 regs) (r14 regs) (r15 regs) in
  a ← sub64 rsp FRAME_BYTES;
  new_rsp ← sub64 (Z.ldiff a 0xF) 8;
  mret (handler, new_rsp, frame).

Definition restore_from_frame (f : SignalFrame) : Z * Z * Z * SigSet * SavedRegisters :=
  (saved_rip f, saved_rsp f, saved_rflags f, saved_mask f,
   mkRegs (saved_rax f) (saved_rbx f) (saved_rcx f) (saved_rdx f) (saved_rsi f) (saved_rdi f) (saved_rbp f)
     (saved_r8 f) (saved_r9 f) (saved_r10 f) (saved_r11 f) (saved_r12 f) (saved_r13 f) (saved_r14 f)
     (saved_r15 f)).

(** Does this deliverable signal interrupt a blocking call? *)
Definition interrupts (sig : Z) (action : SigAction) : bool :=
  if (sig =? SIGKILL) || (sig =? SIGSTOP) then true
  else match action_handler action with
  | H_Ignore => false
  | H_Default => match default_action sig with DaIgnore => false | _ => true end
  | H_Handler _ => true
  end.

Fixpoint any_interrupts (sigs : list Z) (actions : list SigAction) : outcome bool :=
  match sigs with
  | [] => mret false
  | sig :: sigs' =>
      if in_bounds sig then
        action ← or_fault (actions !! Z.to_nat (sig - 1));
        if interrupts sig action then mret true else any_interrupts sigs' actions
      else any_interrupts sigs' actions
  end.

Definition should_interrupt_for_signal (pending blocked : SigSet) (actions : list SigAction) : outcome bool :=
  any_interrupts (ss_iter (ss_difference pending blocked)) actions.

(** The deferred sigreturn slot. *)
Definition set_sigreturn_frame (f : SignalFrame) (slot : option SignalFrame) : option SignalFrame := Some f.
Definition take_sigreturn_frame (slot : option SignalFrame) : option SignalFrame * option SignalFrame := (slot, None).

(** ** Sets as predicates *)

Lemma in_bounds_spec sig : in_bounds sig = true <-> 1 <= sig <= 64.
Proof. unfold in_bounds, NSIG. rewrite andb_true_iff, !Z.leb_le. done. Qed.

Lemma in_bounds_false sig : in_bounds sig = false <-> ~ (1 <= sig <= 64).
Proof. rewrite <- not_true_iff_false. by rewrite in_bounds_spec. Qed.

Lemma sigbit_test sig n : 1 <= sig -> Z.testbit (sigbit sig) n = bool_decide (n = sig - 1).
Proof.
  intros Hs. unfold sigbit. rewrite Z.shiftl_1_l. case_bool_decide as He.
  - subst. apply Z.pow2_bits_true. lia.
  - apply Z.pow2_bits_false. lia.
Qed.

Lemma land_sigbit s sig : 1 <= sig -> negb (Z.land s (sigbit sig) =? 0) = Z.testbit s (sig - 1).
Proof.
  intros Hs. destruct (Z.eqb_spec (Z.land s (sigbit sig)) 0) as [He|He]; simpl.
  - assert (Z.testbit (Z.land s (sigbit sig)) (sig - 1) = false) as Hb by (rewrite He; apply Z.bits_0).
    rewrite Z.land_spec, sigbit_test, bool_decide_true, andb_true_r in Hb by done. done.
  - destruct (Z.testbit s (sig - 1)) eqn:Hb; [done|]. destruct He. apply Z.bits_inj'. intros i Hi.
    rewrite Z.land_spec, sigbit_test, Z.bits_0 by done. case_bool_decide; [subst; by rewrite Hb|apply andb_false_r].
Qed.

Lemma ss_contains_test s sig : ss_contains s sig = in_bounds sig && Z.testbit s (sig - 1).
Proof.
  unfold ss_contains. destruct (in_bounds sig) eqn:Hb; [|done]. apply in_bounds_spec in Hb.
  by rewrite land_sigbit by lia.
Qed.

Lemma ss_contains_add s sig x :
  ss_contains (ss_add s sig) x = (in_bounds sig && (x =? sig)) || ss_contains s x.
Proof.
  unfold ss_add. destruct (in_bounds sig) eqn:Hb; [|done]. rewrite !ss_contains_test, Z.lor_spec.
  apply in_bounds_spec in Hb. rewrite sigbit_test by lia. simpl.
  destruct (in_bounds x) eqn:Hx; simpl; [|destruct (Z.eqb_spec x sig); [|done]].
  - destruct (Z.eqb_spec x sig); case_bool_decide; try lia; simpl; by rewrite ?orb_true_r, ?orb_false_r.
  - subst. apply in_bounds_false in Hx. lia.
Qed.

Lemma ss_contains_remove s sig x :
  ss_contains (ss_remove s sig) x = negb (in_bounds sig && (x =? sig)) && ss_contains s x.
Proof.
  unfold ss_remove. destruct (in_bounds sig) eqn:Hb; [|done]. rewrite !ss_contains_test, Z.ldiff_spec.
  apply in_bounds_spec in Hb. rewrite sigbit_test by lia. simpl.
  destruct (in_bounds x); simpl; [|by rewrite andb_false_r].
  destruct (Z.eqb_spec x sig); case_bool_decide; try lia; simpl; by rewrite ?andb_true_r, ?andb_false_r.
Qed.

Lemma ss_contains_union s t x : ss_contains (ss_union s t) x = ss_contains s x || ss_contains t x.
Proof.
  rewrite !ss_contains_test. unfold ss_union. rewrite Z.lor_spec. by destruct (in_bounds x).
Qed.

Lemma ss_contains_intersection s t x : ss_contains (ss_intersection s t) x = ss_contains s x && ss_contains t x.
Proof.
  rewrite !ss_contains_test. unfold ss_intersection. rewrite Z.land_spec. by destruct (in_bounds x).
Qed.

Lemma ss_contains_difference s t x :
  ss_contains (ss_difference s t) x = ss_contains s x && negb (ss_contains t x).
Proof.
  rewrite !ss_contains_test. unfold ss_difference. rewrite Z.ldiff_spec. by destruct (in_bounds x).
Qed.

(** A set is its members: 64-bit masks with the same members are equal. *)
Definition ss_wf (s : SigSet) : Prop := 0 <= s < U64.

Lemma u64_high_bit s n : ss_wf s -> 64 <= n -> Z.testbit s n = false.
Proof.
  intros Hs Hn. destruct (decide (s = 0)) as [->|]; [apply Z.bits_0|].
  unfold ss_wf in Hs. apply Z.bits_above_log2; [lia|]. apply Z.log2_lt_pow2; [lia|].
  eapply Z.lt_le_trans; [apply Hs|]. change U64 with (2 ^ 64). apply Z.pow_le_mono_r; lia.
Qed.

Lemma ss_ext s t : ss_wf s -> ss_wf t -> (forall x, ss_contains s x = ss_contains t x) -> s = t.
Proof.
  intros Hs Ht Hx. apply Z.bits_inj'. intros n Hn. destruct (decide (n < 64)) as [Hlt|Hge].
  - specialize (Hx (n + 1)). rewrite !ss_contains_test in Hx.
    replace (n + 1 - 1) with n in Hx by lia.
    rewrite (proj2 (in_bounds_spec (n + 1))) in Hx by lia. done.
  - by rewrite !u64_high_bit by (done || lia).
Qed.

(** ** The lowest member *)

Lemma ss_first_spec s :
  ss_wf s ->
  match ss_first s with
  | Some sig => ss_contains s sig = true /\ forall x, ss_contains s x = true -> sig <= x
  | None => forall x, ss_contains s x = false
  end.
Proof.
  intros Hs. unfold ss_first. destruct (Z.eqb_spec s 0) as [->|Hne].
  { intros x. rewrite ss_contains_test, Z.bits_0. apply andb_false_r. }
  destruct s as [|p|p]; [done| |by destruct Hs; lia]. cbn [trailing_zeros].
  destruct (pos_ctz_spec p) as [H1 H2]. set (n := Z.of_nat (pos_ctz p)) in *.
  assert (n < 64) as Hn.
  { destruct (decide (n < 64)); [done|]. rewrite (u64_high_bit _ n Hs) in H1 by lia. done. }
  split.
  - rewrite ss_contains_test. replace (n + 1 - 1) with n by lia. rewrite H1.
    by rewrite (proj2 (in_bounds_spec (n + 1))) by lia.
  - intros x Hx. rewrite ss_contains_test in Hx. apply andb_true_iff in Hx as [Hb%in_bounds_spec Hx].
    destruct (decide (n + 1 <= x)); [done|]. rewrite H2 in Hx by lia. done.
Qed.

(** ** Iteration *)

Lemma iter_from_spec n : forall s c x, 0 <= c ->
  x ∈ iter_from n s c <-> c < x <= c + Z.of_nat n /\ Z.testbit s (x - 1) = true.
Proof.
  induction n as [|n IH]; intros s c x Hc; cbn [iter_from].
  { rewrite elem_of_nil. split; [done|lia]. }
  rewrite land_sigbit by lia. replace (c + 1 - 1) with c by lia.
  destruct (Z.testbit s c) eqn:Hb; rewrite ?elem_of_cons, IH by lia.
  - split; [intros [->|?]; [replace (c + 1 - 1) with c by lia; split; [lia|done]|intuition lia]|].
    intros [H1 H2]. destruct (decide (x = c + 1)); [by left|right]. split; [lia|done].
  - split; [intuition lia|]. intros [H1 H2]. split; [|done].
    destruct (decide (x = c + 1)) as [->|]; [|lia]. replace (c + 1 - 1) with c in H2 by lia. congruence.
Qed.

Lemma ss_iter_spec s x : x ∈ ss_iter s <-> ss_contains s x = true.
Proof.
  unfold ss_iter. rewrite iter_from_spec, ss_contains_test, andb_true_iff, in_bounds_spec by lia.
  change (Z.of_nat (Z.to_nat NSIG)) with 64. intuition lia.
Qed.

Lemma ss_wf_bits s : 0 <= s -> (forall i, 64 <= i -> Z.testbit s i = false) -> ss_wf s.
Proof.
  intros Hs Hb. split; [done|]. assert (s mod 2 ^ 64 = s) as Hm.
  { apply Z.bits_inj'. intros i Hi. destruct (decide (i < 64)).
    - apply Z.mod_pow2_bits_low. lia.
    - rewrite Z.mod_pow2_bits_high by lia. by rewrite Hb by lia. }
  rewrite <- Hm. change U64 with (2 ^ 64). apply Z.mod_pos_bound. lia.
Qed.

Lemma difference_wf s t : ss_wf s -> ss_wf (ss_difference s t).
Proof.
  intros Hs. apply ss_wf_bits; [apply Z.ldiff_nonneg; left; apply Hs|].
  intros i Hi. unfold ss_difference. by rewrite Z.ldiff_spec, u64_high_bit.
Qed.

Lemma remove_wf s sig : ss_wf s -> ss_wf (ss_remove s sig).
Proof. intros Hs. unfold ss_remove. case_match; [by apply difference_wf|done]. Qed.

Lemma add_wf s sig : ss_wf s -> ss_wf (ss_add s sig).
Proof.
  intros Hs. unfold ss_add. destruct (in_bounds sig) eqn:Hb; [|done]. apply in_bounds_spec in Hb.
  apply ss_wf_bits.
  - apply Z.lor_nonneg. split; [apply Hs|]. unfold sigbit. rewrite Z.shiftl_1_l. lia.
  - intros i Hi. rewrite Z.lor_spec, u64_high_bit, sigbit_test by (done || lia).
    case_bool_decide; [lia|done].
Qed.

(** ** Pending signals *)

Definition pending_wf (p : PendingSignals) : Prop := ss_wf (pd_pending p) /\ length (pd_info p) = 64%nat.

(** The information recorded for a pending signal. *)
Definition info_of (p : PendingSignals) (sig : Z) : option SigInfo :=
  if in_bounds sig then default None (pd_info p !! Z.to_nat (sig - 1)) else None.

Lemma pending_add_spec p sig info :
  pending_wf p -> in_bounds sig = true ->
  pending_wf (pending_add p sig info) /\
  (forall x, is_pending (pending_add p sig info) x = (x =? sig) || is_pending p x) /\
  (forall x, info_of (pending_add p sig info) x = if x =? sig then info else info_of p x).
Proof.
  intros [Hw Hl] Hb. unfold pending_add. rewrite Hb. split; [|split].
  - split; simpl; [by apply add_wf|by rewrite length_insert].
  - intros x. unfold is_pending. simpl. by rewrite ss_contains_add, Hb.
  - intros x. unfold info_of. simpl. apply in_bounds_spec in Hb as Hr. destruct (Z.eqb_spec x sig) as [->|Hne].
    + rewrite Hb, list_lookup_insert_eq by lia. done.
    + destruct (in_bounds x) eqn:Hx; [|done]. apply in_bounds_spec in Hx.
      by rewrite list_lookup_insert_ne by lia.
Qed.

Lemma pending_remove_spec p sig :
  pending_wf p -> in_bounds sig = true ->
  exists p', pending_remove p sig = Done (info_of p sig, p') /\ pending_wf p' /\
    (forall x, is_pending p' x = negb (x =? sig) && is_pending p x) /\
    (forall x, info_of p' x = if x =? sig then None else info_of p x).
Proof.
  intros [Hw Hl] Hb. apply in_bounds_spec in Hb as Hr. unfold pending_remove, info_of at 1. rewrite Hb.
  destruct (lookup_lt_is_Some_2 (pd_info p) (Z.to_nat (sig - 1))) as [i Hi]; [lia|]. rewrite Hi.
  eexists. split; [reflexivity|]. split; [|split].
  - split; simpl; [by apply remove_wf|by rewrite length_insert].
  - intros x. unfold is_pending. simpl. by rewrite ss_contains_remove, Hb.
  - intros x. unfold info_of. simpl. destruct (Z.eqb_spec x sig) as [->|Hne].
    + rewrite Hb, list_lookup_insert_eq by lia. done.
    + destruct (in_bounds x) eqn:Hx; [|done]. apply in_bounds_spec in Hx.
      by rewrite list_lookup_insert_ne by lia.
Qed.

(** ** Theorems *)

(** Signal sets behave as sets of the numbers 1 to 64: membership after
    each operation is the boolean combination of memberships, numbers out of
    range are never members, and a 64-bit mask is determined by its members. *)
Theorem sigset_is_set s t sig x :
  ss_contains (ss_add s sig) x = (in_bounds sig && (x =? sig)) || ss_contains s x /\
  ss_contains (ss_remove s sig) x = negb (in_bounds sig && (x =? sig)) && ss_contains s x /\
  ss_contains (ss_union s t) x = ss_contains s x || ss_contains t x /\
  ss_contains (ss_intersection s t) x = ss_contains s x && ss_contains t x /\
  ss_contains (ss_difference s t) x = ss_contains s x && negb (ss_contains t x) /\
  (ss_contains s x = true -> 1 <= x <= 64) /\
  (x ∈ ss_iter s <-> ss_contains s x = true) /\
  (ss_wf s -> ss_wf t -> (forall y, ss_contains s y = ss_contains t y) -> s = t).
Proof.
  split; [apply ss_contains_add|]. split; [apply ss_contains_remove|]. split; [apply ss_contains_union|].
  split; [apply ss_contains_intersection|]. split; [apply ss_contains_difference|].
  split; [|split; [apply ss_iter_spec|apply ss_ext]].
  rewrite ss_contains_test. intros [Hb _]%andb_true_iff. by apply in_bounds_spec.
Qed.

(** [dequeue] takes the lowest-numbered pending signal that is not
    blocked, with the information it was sent with, and nothing else; it
    returns nothing exactly when every pending signal is blocked. *)
Theorem dequeue_correct p blocked :
  pending_wf p ->
  exists r p', dequeue p blocked = Done (r, p') /\ pending_wf p' /\
    match r with
    | Some (mkPending sig info) =>
        is_pending p sig = true /\ ss_contains blocked sig = false /\ info = info_of p sig /\
        (forall x, is_pending p x = true -> ss_contains blocked x = false -> sig <= x) /\
        (forall x, is_pending p' x = negb (x =? sig) && is_pending p x) /\
        (forall x, x <> sig -> info_of p' x = info_of p x)
    | None => p' = p /\ forall x, is_pending p x = true -> ss_contains blocked x = true
    end.
Proof.
  intros Hw. unfold dequeue, next_deliverable.
  pose proof (ss_first_spec (deliverable p blocked) (difference_wf _ _ (proj1 Hw))) as Hf.
  destruct (ss_first (deliverable p blocked)) as [sig|]; unfold deliverable in Hf.
  - destruct Hf as [Hc Hmin]. rewrite ss_contains_difference in Hc.
    apply andb_true_iff in Hc as [Hp Hnb%negb_true_iff].
    assert (in_bounds sig = true) as Hb.
    { rewrite ss_contains_test in Hp. by apply andb_true_iff in Hp as [? _]. }
    destruct (pending_remove_spec p sig Hw Hb) as (p' & -> & Hw' & Hr1 & Hr2). cbn [mbind outcome_bind].
    eexists _, p'. split; [reflexivity|]. split; [done|]. split_and!; try done.
    + intros x Hx Hxb. apply Hmin. unfold is_pending in Hx. by rewrite ss_contains_difference, Hx, Hxb.
    + intros x Hne. rewrite Hr2. by destruct (Z.eqb_spec x sig).
  - exists None, p. split; [done|]. split; [done|]. split; [done|]. intros x Hx. specialize (Hf x).
    rewrite ss_contains_difference in Hf. unfold is_pending in Hx. rewrite Hx in Hf. simpl in Hf.
    by destruct (ss_contains blocked x).
Qed.

Lemma dequeue_correct_witness :
  exists p', dequeue (pending_add (pending_add Pending_new SIGTERM None) SIGINT None) (ss_add ss_empty SIGINT)
    = Done (Some (mkPending SIGTERM None), p') /\ is_pending p' SIGINT = true.
Proof.
  destruct (dequeue_correct (pending_add (pending_add Pending_new SIGTERM None) SIGINT None) (ss_add ss_empty SIGINT))
    as (r & p' & Heq & _ & Hr).
  { vm_compute. split; [split; congruence|reflexivity]. }
  destruct (outcome_fst (dequeue (pending_add (pending_add Pending_new SIGTERM None) SIGINT None)
    (ss_add ss_empty SIGINT)) (Some (mkPending SIGTERM None))) as [p2 H2]; [vm_compute; reflexivity|].
  rewrite Heq in H2. injection H2 as -> ->. exists p2. split; [exact Heq|].
  destruct Hr as (_ & _ & _ & _ & Hp & _). rewrite Hp. vm_compute. reflexivity.
Defined.

(** Whatever set a process passes to [sigprocmask], the mask installed
    never blocks SIGKILL or SIGSTOP, and on every other signal it is the
    requested combination of the old mask and the set. *)
Theorem sigprocmask_spares_kill how current new_set x :
  ss_contains (sigprocmask_mask how current new_set) x =
    can_block x &&
    match how with
    | How_Block => ss_contains current x || ss_contains new_set x
    | How_Unblock => ss_contains current x && negb (ss_contains new_set x)
    | How_SetMask => ss_contains new_set x
    end.
Proof.
  unfold sigprocmask_mask, can_block. rewrite !ss_contains_remove.
  assert (forall b, negb (in_bounds SIGSTOP && (x =? SIGSTOP)) && (negb (in_bounds SIGKILL && (x =? SIGKILL)) && b)
    = negb (x =? SIGKILL) && negb (x =? SIGSTOP) && b) as ->.
  { intros b. simpl. destruct (x =? SIGSTOP), (x =? SIGKILL), b; done. }
  f_equal. destruct how; [apply ss_contains_union|apply ss_contains_difference|done].
Qed.

(** SIGKILL always terminates and SIGSTOP always stops, whatever the
    disposition and mask; a user handler runs only for a catchable signal whose
    disposition is that handler, with the signal itself blocked unless
    SA_NODEFER is set. *)
Theorem determine_action_spec signal action mask :
  (ps_signo signal = SIGKILL -> determine_action signal action mask = R_Terminate) /\
  (ps_signo signal = SIGSTOP -> determine_action signal action mask = R_Stop) /\
  forall h signo info flags hm, determine_action signal action mask = R_UserHandler h signo info flags hm ->
    can_catch signo = true /\ signo = ps_signo signal /\ info = ps_info signal /\ h = sa_handler action /\
    h <> 0 /\ h <> 1 /\
    (forall x, ss_contains hm x = ss_contains mask x || ss_contains (sa_mask action) x ||
      (negb (flags_contain (action_flags action) SA_NODEFER) && in_bounds signo && (x =? signo))).
Proof.
  unfold determine_action. split; [by intros ->|]. split; [by intros ->|]. intros h signo info flags hm.
  destruct (Z.eqb_spec (ps_signo signal) SIGKILL) as [|Hk]; [done|].
  destruct (Z.eqb_spec (ps_signo signal) SIGSTOP) as [|Hs]; [done|].
  unfold action_handler, handler_from_raw.
  destruct (Z.eqb_spec (sa_handler action) 0); [by destruct (default_action _)|].
  destruct (Z.eqb_spec (sa_handler action) 1); [done|]. intros [= <- <- <- <- <-].
  split_and!; try done.
  - unfold can_catch. by destruct (Z.eqb_spec (ps_signo signal) SIGKILL), (Z.eqb_spec (ps_signo signal) SIGSTOP).
  - intros x. destruct (flags_contain _ _); simpl; rewrite ?ss_contains_add, ss_contains_union;
      [by rewrite orb_false_r|]. apply orb_comm.
Qed.



Lemma interrupts_action sig info action mask :
  interrupts sig action = true <-> determine_action (mkPending sig info) action mask <> R_Ignore.
Proof.
  unfold interrupts, determine_action. simpl. destruct (sig =? SIGKILL); [done|]. destruct (sig =? SIGSTOP); [done|].
  simpl. destruct (action_handler action); [|done|done]. by destruct (default_action sig).
Qed.

Lemma any_interrupts_spec sigs actions :
  length actions = 64%nat ->
  exists b, any_interrupts sigs actions = Done b /\
    (b = true <-> exists sig a, sig ∈ sigs /\ in_bounds sig = true /\
       actions !! Z.to_nat (sig - 1) = Some a /\ interrupts sig a = true).
Proof.
  intros Hl. induction sigs as [|sig sigs (b & Hb & IH)]; cbn [any_interrupts].
  { exists false. split; [done|]. split; [done|]. intros (? & ? & Hx%not_elem_of_nil & _). done. }
  destruct (in_bounds sig) eqn:Hin.
  - apply in_bounds_spec in Hin as Hr. destruct (lookup_lt_is_Some_2 actions (Z.to_nat (sig - 1))) as [a Ha]; [lia|].
    rewrite Ha. cbn [or_fault mbind outcome_bind]. destruct (interrupts sig a) eqn:Hi.
    + exists true. split; [done|]. split; [|done]. intros _. exists sig, a. split; [left|done].
    + exists b. split; [done|]. rewrite IH. setoid_rewrite elem_of_cons. split; [naive_solver|].
      intros (s & a' & [->|Hs] & ? & ? & ?); [|eauto 10]. congruence.
  - exists b. split; [done|]. rewrite IH. setoid_rewrite elem_of_cons. split; [naive_solver|].
    intros (s & a' & [->|Hs] & ? & ? & ?); [|eauto 10]. congruence.
Qed.

(** A blocking call is interrupted exactly when some pending, unblocked
    signal would do something: the test agrees with the delivery decision. *)
Theorem should_interrupt_iff pending blocked actions mask :
  length actions = 64%nat ->
  exists b, should_interrupt_for_signal pending blocked actions = Done b /\
    (b = true <-> exists sig a, ss_contains pending sig = true /\ ss_contains blocked sig = false /\
       actions !! Z.to_nat (sig - 1) = Some a /\
       determine_action (mkPending sig None) a mask <> R_Ignore).
Proof.
  intros Hl. unfold should_interrupt_for_signal.
  destruct (any_interrupts_spec (ss_iter (ss_difference pending blocked)) actions Hl) as (b & -> & Hb).
  exists b. split; [done|]. rewrite Hb. apply exist_proper. intros sig. apply exist_proper. intros a.
  rewrite ss_iter_spec, ss_contains_difference, andb_true_iff, negb_true_iff, (interrupts_action _ None _ mask).
  split; [intros ([] & ? & ? & ?); done|]. intros (H1 & H2 & H3 & H4). split_and!; try done.
  rewrite ss_contains_test in H1. by apply andb_true_iff in H1 as [? _].
Qed.

Lemma should_interrupt_iff_witness :
  exists b, should_interrupt_for_signal (ss_add ss_empty SIGCHLD) ss_empty (replicate 64 SigAction_default) = Done b /\
    b = false.
Proof.
  destruct (should_interrupt_iff (ss_add ss_empty SIGCHLD) ss_empty (replicate 64 SigAction_default) ss_empty)
    as (b & Heq & _); [reflexivity|].
  exists b. split; [exact Heq|]. vm_compute in Heq. congruence.
Defined.

(** An action whose mask names every signal. *)
Definition block_all_action : SigAction := mkSigAction 0x401000 0 0 ss_full.

(** The handler mask is not sanitised: a process that installs a handler
    with a full [sa_mask] has SIGKILL and SIGSTOP blocked while the handler
    runs, so that a pending SIGKILL is not even dequeued. *)
Theorem handler_mask_blocks_kill :
  exists hm, determine_action (mkPending SIGUSR1 None) block_all_action ss_empty
      = R_UserHandler 0x401000 SIGUSR1 None 0 hm /\
    ss_contains hm SIGKILL = true /\ ss_contains hm SIGSTOP = true /\
    dequeue (pending_add Pending_new SIGKILL None) hm = Done (None, pending_add Pending_new SIGKILL None).
Proof. eexists. split; [vm_compute; reflexivity|]. split_and!; vm_compute; reflexivity. Qed.

(** The user stack pointer is not checked when a frame is placed: a stack
    pointer below the frame size faults the subtraction, one in the kernel half
    places the frame there, and the 128-byte red zone below the stack pointer
    is always overwritten. *)
Theorem signal_stack_unchecked handler signo info flags restorer mask rip rflags regs :
  setup_signal_handler handler signo info flags restorer mask rip 0x100 rflags regs = Fault /\
  (exists frame, setup_signal_handler handler signo info flags restorer mask rip 0xFFFF800000200000 rflags regs
     = Done (handler, 0xFFFF8000001FFEE8, frame)) /\
  forall rsp new_rsp frame,
    setup_signal_handler handler signo info flags restorer mask rip rsp rflags regs = Done (handler, new_rsp, frame) ->
    new_rsp < rsp - 128 < new_rsp + FRAME_BYTES.
Proof.
  split; [vm_compute; reflexivity|]. split; [eexists; vm_compute; reflexivity|].
  intros rsp new_rsp frame. unfold setup_signal_handler, sub64.
  destruct (Z.leb_spec FRAME_BYTES rsp); [|done]. cbn [mbind outcome_bind].
  assert (Z.ldiff (rsp - FRAME_BYTES) 0xF = (rsp - FRAME_BYTES) - (rsp - FRAME_BYTES) mod 16) as ->
    by apply (ldiff_mask (rsp - FRAME_BYTES) 4).
  pose proof (Z.mod_pos_bound (rsp - FRAME_BYTES) 16 ltac:(lia)).
  destruct (Z.leb_spec 8 (rsp - FRAME_BYTES - (rsp - FRAME_BYTES) mod 16)); [|done]. cbn [mbind outcome_bind].
  intros [= <- _]. unfold FRAME_BYTES in *. lia.
Qed.
