(* ===== verification/WaitQueue.v ===== *)
(** * Wait queues ([kernel/core/waitqueue/src/lib.rs])

    A fixed array of sixteen process-id slots and a counter.  The scheduler's
    wake function is registered once at boot; the model lists the process ids
    [do_wake] is called with instead ([wq_wake_all], [wq_wake_one]).  The slots
    are atomics: every call below is a sequence of single-slot exchanges, and
    here a call is one transition. *)
From S2P Require Import Prelude.

Definition PID_NONE : Z := U32_MAX.
Definition MAX_WAITERS : nat := 16.

Record WaitQueue := mkWq {
  wq_slots : list Z;
  wq_len : Z
}.

Definition wq_new : WaitQueue := mkWq (replicate MAX_WAITERS PID_NONE) 0.

(** The first free slot from index [i] on, filled with [pid]. *)
Fixpoint register_loop (slots : list Z) (pid : Z) (i : nat) : option (nat * list Z) :=
  match slots with
  | [] => None
  | s :: rest =>
      if s =? PID_NONE then Some (i, pid :: rest)
      else match register_loop rest pid (S i) with
           | Some (j, rest') => Some (j, s :: rest')
           | None => None
           end
  end.

Definition wq_register (q : WaitQueue) (pid : Z) : option nat * WaitQueue :=
  match register_loop (wq_slots q) pid 0 with
  | Some (i, slots) => (Some i, mkWq slots (wadd32 (wq_len q) 1))
  | None => (None, q)
  end.

Definition wq_unregister (q : WaitQueue) (slot : nat) : outcome WaitQueue :=
  if (slot <? MAX_WAITERS)%nat then
    old ← or_fault (wq_slots q !! slot);
    mret (mkWq (<[slot := PID_NONE]> (wq_slots q))
            (if old =? PID_NONE then wq_len q else wsub32 (wq_len q) 1))
  else mret q.

(** Remove the first occurrence of [pid]. *)
Fixpoint unregister_loop (slots : list Z) (pid : Z) : option (list Z) :=
  match slots with
  | [] => None
  | s :: rest =>
      if s =? pid then Some (PID_NONE :: rest)
      else match unregister_loop rest pid with Some rest' => Some (s :: rest') | None => None end
  end.

Definition wq_unregister_pid (q : WaitQueue) (pid : Z) : WaitQueue :=
  match unregister_loop (wq_slots q) pid with
  | Some slots => mkWq slots (wsub32 (wq_len q) 1)
  | None => q
  end.

(** The process ids that are registered, in slot order. *)
Definition waiters (q : WaitQueue) : list Z := filter (fun p => p <> PID_NONE) (wq_slots q).

(** Swap every slot with [PID_NONE] and wake what was in it. *)
Fixpoint wake_all_loop (slots : list Z) (len : Z) : list Z * list Z * Z :=
  match slots with
  | [] => ([], [], len)
  | pid :: rest =>
      if pid =? PID_NONE
      then let '(woken, rest', len') := wake_all_loop rest len in (woken, PID_NONE :: rest', len')
      else let '(woken, rest', len') := wake_all_loop rest (wsub32 len 1) in
           (pid :: woken, PID_NONE :: rest', len')
  end.

Definition wq_wake_all (q : WaitQueue) : list Z * WaitQueue :=
  let '(woken, slots, len) := wake_all_loop (wq_slots q) (wq_len q) in (woken, mkWq slots len).

Fixpoint wake_one_loop (slots : list Z) : option (Z * list Z) :=
  match slots with
  | [] => None
  | pid :: rest =>
      if pid =? PID_NONE
      then match wake_one_loop rest with
           | Some (p, rest') => Some (p, PID_NONE :: rest')
           | None => None
           end
      else Some (pid, PID_NONE :: rest)
  end.

Definition wq_wake_one (q : WaitQueue) : option Z * WaitQueue :=
  match wake_one_loop (wq_slots q) with
  | Some (p, slots) => (Some p, mkWq slots (wsub32 (wq_len q) 1))
  | None => (None, q)
  end.

Definition has_waiters (q : WaitQueue) : bool := 0 <? wq_len q.

(** ** Poll tables

    A table remembers on which queues (numbered here) a poll call registered
    its process, and in which slots. *)
Definition MAX_POLL_ENTRIES : nat := 32.

Record PollTable := mkPt {
  pt_entries : list (nat * nat);      (* queue, slot; [count] is the length *)
  pt_pid : Z
}.

Definition PollTable_new (pid : Z) : PollTable := mkPt [] pid.

Definition pt_register (t : PollTable) (w : nat) (q : WaitQueue) : PollTable * WaitQueue :=
  if (MAX_POLL_ENTRIES <=? length (pt_entries t))%nat then (t, q) else
  match wq_register q (pt_pid t) with
  | (Some slot, q') => (mkPt (pt_entries t ++ [(w, slot)]) (pt_pid t), q')
  | (None, _) => (t, q)
  end.

Fixpoint unregister_entries (es : list (nat * nat)) (qs : gmap nat WaitQueue) : outcome (gmap nat WaitQueue) :=
  match es with
  | [] => mret qs
  | (w, slot) :: es' =>
      q ← or_fault (qs !! w);
      q' ← wq_unregister q slot;
      unregister_entries es' (<[w := q']> qs)
  end.

Definition pt_unregister_all (t : PollTable) (qs : gmap nat WaitQueue) : outcome (PollTable * gmap nat WaitQueue) :=
  qs' ← unregister_entries (pt_entries t) qs;
  mret (mkPt [] (pt_pid t), qs').

(** ** Invariant and specifications *)

Definition wq_inv (q : WaitQueue) : Prop :=
  length (wq_slots q) = MAX_WAITERS /\ wq_len q = Z.of_nat (length (waiters q)).

Lemma waiters_cons p l :
  filter (fun p => p <> PID_NONE) (p :: l) =
  (if p =? PID_NONE then [] else [p]) ++ filter (fun p => p <> PID_NONE) l.
Proof.
  destruct (Z.eqb_spec p PID_NONE) as [->|Hne].
  - by rewrite filter_cons_False by naive_solver.
  - by rewrite filter_cons_True.
Qed.

Lemma waiters_bound q : length (wq_slots q) = MAX_WAITERS -> (length (waiters q) <= 16)%nat.
Proof. intros H. unfold waiters. pose proof (length_filter (fun p => p <> PID_NONE) (wq_slots q)). unfold MAX_WAITERS in H. lia. Qed.

Lemma register_loop_spec slots pid i :
  pid <> PID_NONE ->
  match register_loop slots pid i with
  | Some (j, slots') => exists l1 l2, slots = l1 ++ PID_NONE :: l2 /\ slots' = l1 ++ pid :: l2 /\
      j = (i + length l1)%nat /\ PID_NONE ∉ l1
  | None => PID_NONE ∉ slots
  end.
Proof.
  intros Hp. revert i. induction slots as [|s rest IH]; intros i; simpl; [apply not_elem_of_nil|].
  destruct (Z.eqb_spec s PID_NONE) as [->|Hne].
  { exists [], rest. split_and!; [done|done|simpl; lia|apply not_elem_of_nil]. }
  specialize (IH (S i)). destruct (register_loop rest pid (S i)) as [[j rest']|].
  - destruct IH as (l1 & l2 & -> & -> & -> & Hn). exists (s :: l1), l2.
    split_and!; [done|done|simpl; lia|]. rewrite elem_of_cons. intros [?|?]; [by subst|done].
  - rewrite elem_of_cons. intros [?|?]; [by subst|done].
Qed.

Lemma waiters_full slots : PID_NONE ∉ slots -> length (filter (fun p => p <> PID_NONE) slots) = length slots.
Proof.
  induction slots as [|s l IH]; [done|]. rewrite elem_of_cons. intros Hn. rewrite waiters_cons.
  destruct (Z.eqb_spec s PID_NONE) as [->|]; [tauto|]. simpl. rewrite IH; tauto.
Qed.

(** Registration fails only when all sixteen slots are taken; otherwise the
    process joins the waiters and nobody leaves. *)
Lemma wq_register_spec q pid :
  wq_inv q -> pid <> PID_NONE ->
  match wq_register q pid with
  | (Some slot, q') => wq_inv q' /\ (slot < MAX_WAITERS)%nat /\ wq_slots q !! slot = Some PID_NONE /\
      wq_slots q' = <[slot := pid]> (wq_slots q) /\ waiters q' ≡ₚ pid :: waiters q
  | (None, q') => q' = q /\ length (waiters q) = MAX_WAITERS
  end.
Proof.
  intros [Hl Hn] Hp. unfold wq_register. pose proof (register_loop_spec (wq_slots q) pid 0 Hp) as Hr.
  destruct (register_loop (wq_slots q) pid 0) as [[j slots]|].
  - destruct Hr as (l1 & l2 & Hs & -> & -> & _). simpl in *.
    assert (waiters (mkWq (l1 ++ pid :: l2) (wadd32 (wq_len q) 1)) ≡ₚ pid :: waiters q) as Hw.
    { unfold waiters; simpl. rewrite Hs, !filter_app, !waiters_cons.
      destruct (Z.eqb_spec pid PID_NONE); [done|]. rewrite Z.eqb_refl. simpl. by rewrite <- Permutation_middle. }
    pose proof (waiters_bound q Hl). split_and!.
    + split; simpl; [rewrite <- Hl, Hs; by rewrite !length_app|]. rewrite Hw, Hn. simpl.
      unfold wadd32. rewrite Z.mod_small; unfold U32; lia.
    + rewrite <- Hl, Hs, length_app. simpl. lia.
    + rewrite Hs, lookup_app_r, Nat.sub_diag by lia. done.
    + rewrite Hs, insert_app_r_alt, Nat.sub_diag by lia. done.
    + done.
  - split; [done|]. unfold waiters. rewrite waiters_full; done.
Qed.

Lemma waiters_insert slots i x :
  slots !! i = Some x ->
  filter (fun p => p <> PID_NONE) slots ≡ₚ
  (if x =? PID_NONE then [] else [x]) ++ filter (fun p => p <> PID_NONE) (<[i := PID_NONE]> slots).
Proof.
  intros Hx. rewrite <- (take_drop_middle _ _ _ Hx) at 1.
  rewrite (insert_take_drop _ _ _ (lookup_lt_Some _ _ _ Hx)), !filter_app, !waiters_cons, Z.eqb_refl.
  simpl. by rewrite Permutation_app_swap_app.
Qed.

(** Unregistering a slot removes whoever is in it, and nobody else. *)
Lemma wq_unregister_spec q slot x :
  wq_inv q -> wq_slots q !! slot = Some x ->
  exists q', wq_unregister q slot = Done q' /\ wq_inv q' /\
    wq_slots q' = <[slot := PID_NONE]> (wq_slots q) /\
    waiters q ≡ₚ (if x =? PID_NONE then [] else [x]) ++ waiters q'.
Proof.
  intros [Hl Hn] Hx. unfold wq_unregister. pose proof (lookup_lt_Some _ _ _ Hx) as Hlt.
  rewrite (proj2 (Nat.ltb_lt _ _)) by lia. rewrite Hx. cbn [or_fault mbind outcome_bind].
  eexists. split; [done|]. pose proof (waiters_insert _ _ _ Hx) as Hw. pose proof (waiters_bound q Hl) as Hb.
  split_and!; [|done|done]. split; simpl; [by rewrite length_insert|].
  unfold waiters in *. cbn [wq_slots wq_len]. rewrite Hn. apply Permutation_length in Hw. rewrite length_app in Hw.
  destruct (Z.eqb_spec x PID_NONE); simpl in Hw; [lia|]. unfold wsub32. rewrite Z.mod_small; unfold U32; lia.
Qed.

Lemma wake_all_loop_spec slots len :
  Z.of_nat (length slots) < U32 -> Z.of_nat (length (filter (fun p => p <> PID_NONE) slots)) <= len < U32 ->
  wake_all_loop slots len =
    (filter (fun p => p <> PID_NONE) slots, replicate (length slots) PID_NONE,
     len - Z.of_nat (length (filter (fun p => p <> PID_NONE) slots))).
Proof.
  revert len. induction slots as [|p rest IH]; intros len Hs Hl; cbn [wake_all_loop length replicate].
  { f_equal. simpl. lia. }
  rewrite waiters_cons in *. cbn [length] in Hs. destruct (Z.eqb_spec p PID_NONE) as [->|Hne]; simpl in *.
  - rewrite IH by lia. done.
  - assert (wsub32 len 1 = len - 1) as -> by (unfold wsub32; rewrite Z.mod_small; lia).
    rewrite IH by lia. f_equal. lia.
Qed.

Lemma waiters_none n : filter (fun p => p <> PID_NONE) (replicate n PID_NONE) = [].
Proof. induction n as [|n IH]; [done|]. cbn [replicate]. by rewrite waiters_cons, Z.eqb_refl. Qed.

Lemma wq_wake_all_spec q :
  wq_inv q -> wq_wake_all q = (waiters q, wq_new).
Proof.
  intros [Hl Hn]. unfold wq_wake_all. pose proof (waiters_bound q Hl). unfold waiters in *.
  rewrite wake_all_loop_spec, Hl, Hn by (rewrite ?Hl, ?Hn; unfold MAX_WAITERS, U32; lia).
  do 2 f_equal. unfold wq_new. f_equal. lia.
Qed.

Lemma wq_new_inv : wq_inv wq_new.
Proof. split; [done|]. unfold waiters, wq_new; simpl. reflexivity. Qed.

Lemma wake_one_loop_spec slots :
  match wake_one_loop slots with
  | Some (p, slots') => exists l1 l2, p <> PID_NONE /\ slots = l1 ++ p :: l2 /\ slots' = l1 ++ PID_NONE :: l2 /\
      filter (fun p => p <> PID_NONE) l1 = []
  | None => filter (fun p => p <> PID_NONE) slots = []
  end.
Proof.
  induction slots as [|s rest IH]; [done|]. cbn [wake_one_loop]. destruct (Z.eqb_spec s PID_NONE) as [->|Hne].
  - destruct (wake_one_loop rest) as [[p rest']|].
    + destruct IH as (l1 & l2 & Hp & -> & -> & Hf). exists (PID_NONE :: l1), l2.
      split_and!; [done|done|done|]. by rewrite waiters_cons, Z.eqb_refl.
    + by rewrite waiters_cons, Z.eqb_refl.
  - exists [], rest. done.
Qed.

(** [wake_one] wakes the waiter in the lowest slot, if there is one. *)
Lemma wq_wake_one_spec q :
  wq_inv q ->
  match wq_wake_one q with
  | (Some p, q') => wq_inv q' /\ waiters q = p :: waiters q'
  | (None, q') => q' = q /\ waiters q = []
  end.
Proof.
  intros [Hl Hn]. unfold wq_wake_one. pose proof (wake_one_loop_spec (wq_slots q)) as Hw.
  destruct (wake_one_loop (wq_slots q)) as [[p slots]|]; [|done].
  destruct Hw as (l1 & l2 & Hp & Hs & -> & Hf).
  assert (waiters q = p :: filter (fun p => p <> PID_NONE) l2) as Heq.
  { unfold waiters. rewrite Hs, filter_app, waiters_cons, Hf. by destruct (Z.eqb_spec p PID_NONE). }
  assert (waiters (mkWq (l1 ++ PID_NONE :: l2) (wsub32 (wq_len q) 1)) = filter (fun p => p <> PID_NONE) l2) as Heq'.
  { unfold waiters; simpl. by rewrite filter_app, waiters_cons, Hf, Z.eqb_refl. }
  pose proof (waiters_bound q Hl) as Hb. rewrite Heq in *. rewrite Heq'. split; [|done]. split.
  - simpl. rewrite <- Hl, Hs. by rewrite !length_app.
  - rewrite Heq'. simpl in *. rewrite Hn. unfold wsub32. rewrite Z.mod_small; unfold U32; lia.
Qed.

(** ** Claims *)

(** Wait queues.  A process that registers is woken, once, by the next
    [wake_all] together with exactly the processes registered before, the queue
    is empty afterwards, and registration fails only when all sixteen slots are
    taken. *)
Theorem wake_all_wakes_registered q pid :
  wq_inv q -> pid <> PID_NONE ->
  match wq_register q pid with
  | (Some slot, q') =>
      exists woken, wq_wake_all q' = (woken, wq_new) /\ woken ≡ₚ pid :: waiters q /\ wq_inv wq_new
  | (None, q') => q' = q /\ length (waiters q) = MAX_WAITERS
  end.
Proof.
  intros Hq Hp. pose proof (wq_register_spec q pid Hq Hp) as Hr.
  destruct (wq_register q pid) as [[slot|] q']; [|done]. destruct Hr as (Hq' & _ & _ & _ & Hw).
  exists (waiters q'). split; [by apply wq_wake_all_spec|]. split; [done|apply wq_new_inv].
Qed.

Lemma wake_all_wakes_registered_witness :
  exists q' woken, wq_register wq_new 7 = (Some 0%nat, q') /\ wq_wake_all q' = (woken, wq_new) /\ woken ≡ₚ [7].
Proof.
  pose proof (wake_all_wakes_registered wq_new 7 wq_new_inv ltac:(vm_compute; congruence)) as H.
  destruct (wq_register wq_new 7) as [[slot|] q'] eqn:He; [|vm_compute in He; discriminate].
  destruct H as (woken & H1 & H2 & _). exists q', woken.
  assert (slot = 0%nat) as -> by (vm_compute in He; congruence).
  split; [reflexivity|]. split; [exact H1|exact H2].
Defined.

(** A slot outlives its registration: when a process is woken (which
    frees its slot), another process can register in the same slot, and the
    first one's [unregister] of the slot it was given removes the other
    process, which no later [wake_all] reaches. *)
Theorem stale_unregister_evicts a b :
  a <> PID_NONE -> b <> PID_NONE ->
  exists q1 q2 q3,
    wq_register wq_new a = (Some 0%nat, q1) /\ wq_wake_all q1 = ([a], wq_new) /\
    wq_register wq_new b = (Some 0%nat, q2) /\ waiters q2 = [b] /\
    wq_unregister q2 0 = Done q3 /\ waiters q3 = [] /\ fst (wq_wake_all q3) = [].
Proof.
  intros Ha Hb. exists (mkWq (a :: replicate 15 PID_NONE) 1), (mkWq (b :: replicate 15 PID_NONE) 1), wq_new.
  assert (forall p, p <> PID_NONE -> wq_inv (mkWq (p :: replicate 15 PID_NONE) 1) /\
    waiters (mkWq (p :: replicate 15 PID_NONE) 1) = [p]) as Hone.
  { intros p Hp. assert (waiters (mkWq (p :: replicate 15 PID_NONE) 1) = [p]) as Hw.
    { unfold waiters. cbn [wq_slots]. rewrite waiters_cons, waiters_none. by destruct (Z.eqb_spec p PID_NONE). }
    split; [|done]. split; [done|]. by rewrite Hw. }
  split; [reflexivity|]. split; [rewrite wq_wake_all_spec by apply Hone, Ha; by rewrite (proj2 (Hone a Ha))|].
  split; [reflexivity|]. split; [apply Hone, Hb|]. split; [|split; vm_compute; reflexivity].
  unfold wq_unregister. cbn [Nat.ltb Nat.leb MAX_WAITERS wq_slots lookup list_lookup or_fault mbind outcome_bind wq_len].
  by destruct (Z.eqb_spec b PID_NONE).
Qed.

Lemma stale_unregister_evicts_witness :
  exists q1 q2 q3,
    wq_register wq_new 7 = (Some 0%nat, q1) /\ wq_wake_all q1 = ([7], wq_new) /\
    wq_register wq_new 8 = (Some 0%nat, q2) /\ waiters q2 = [8] /\
    wq_unregister q2 0 = Done q3 /\ waiters q3 = [] /\ fst (wq_wake_all q3) = [].
Proof. apply (stale_unregister_evicts 7 8); vm_compute; congruence. Defined.
