(* ===== verification/Pipe.v ===== *)
(** * Pipes ([kernel/vfs/vfs/src/pipe.rs])

    The ring buffer behind an anonymous pipe, the two ends' [read] and [write]
    as sequences of atomic actions (one per critical section, wait-queue call
    or block), and the system of all operations in flight on one pipe.  A
    blocked operation may resume at any time: woken by the other end or by a
    signal.  The buffer is shown to be a bounded FIFO for every interleaving. *)
From S2P Require Import Prelude WaitQueue.

Definition PIPE_BUF_SIZE : Z := 65536.

(** ** The ring buffer *)

Record PipeBuffer := mkPipe {
  pb_data : list Z;
  pb_read_pos : Z;
  pb_write_pos : Z;
  pb_count : Z;
  pb_readers : Z;
  pb_writers : Z
}.

Definition PipeBuffer_new : PipeBuffer := mkPipe (replicate (Z.to_nat PIPE_BUF_SIZE) 0) 0 0 0 1 1.

(** [n] bytes starting at [pos]: what the copy loop stores, and where it ends. *)
Fixpoint read_loop (n : nat) (data : list Z) (pos : Z) : outcome (list Z * Z) :=
  match n with
  | O => mret ([], pos)
  | S n' =>
      x ← or_fault (data !! Z.to_nat pos);
      '(rest, pos') ← read_loop n' data ((pos + 1) mod PIPE_BUF_SIZE);
      mret (x :: rest, pos')
  end.

(** [len] is the length of the caller's buffer. *)
Definition buffer_read (b : PipeBuffer) (len : nat) : outcome (list Z * PipeBuffer) :=
  if pb_count b =? 0 then mret ([], b) else
  let to_read := Nat.min len (Z.to_nat (pb_count b)) in
  '(bytes, pos) ← read_loop to_read (pb_data b) (pb_read_pos b);
  c ← sub64 (pb_count b) (Z.of_nat (length bytes));
  mret (bytes, mkPipe (pb_data b) pos (pb_write_pos b) c (pb_readers b) (pb_writers b)).

Fixpoint write_loop (buf : list Z) (data : list Z) (pos : Z) : outcome (list Z * Z) :=
  match buf with
  | [] => mret (data, pos)
  | x :: buf' =>
      _ ← or_fault (data !! Z.to_nat pos);
      write_loop buf' (<[Z.to_nat pos := x]> data) ((pos + 1) mod PIPE_BUF_SIZE)
  end.

(** The number of bytes taken from the front of [buf]. *)
Definition buffer_write (b : PipeBuffer) (buf : list Z) : outcome (nat * PipeBuffer) :=
  available ← sub64 PIPE_BUF_SIZE (pb_count b);
  if available =? 0 then mret (0%nat, b) else
  let to_write := Nat.min (length buf) (Z.to_nat available) in
  '(data, pos) ← write_loop (take to_write buf) (pb_data b) (pb_write_pos b);
  c ← add64 (pb_count b) (Z.of_nat to_write);
  mret (to_write, mkPipe data (pb_read_pos b) pos c (pb_readers b) (pb_writers b)).

Definition has_writers (b : PipeBuffer) : bool := 0 <? pb_writers b.
Definition has_readers (b : PipeBuffer) : bool := 0 <? pb_readers b.

(** ** Shared state, and the two ends *)

Record PipeShared := mkShared {
  sh_buffer : PipeBuffer;
  sh_read_wq : WaitQueue;
  sh_write_wq : WaitQueue
}.

Definition create_pipe : PipeShared := mkShared PipeBuffer_new wq_new wq_new.

Definition set_buffer (b : PipeBuffer) (s : PipeShared) : PipeShared := mkShared b (sh_read_wq s) (sh_write_wq s).
Definition set_read_wq (q : WaitQueue) (s : PipeShared) : PipeShared := mkShared (sh_buffer s) q (sh_write_wq s).
Definition set_write_wq (q : WaitQueue) (s : PipeShared) : PipeShared := mkShared (sh_buffer s) (sh_read_wq s) q.

Definition read_poll_ready (s : PipeShared) : bool :=
  (0 <? pb_count (sh_buffer s)) || negb (has_writers (sh_buffer s)).
Definition write_poll_ready (s : PipeShared) : bool :=
  (pb_count (sh_buffer s) <? PIPE_BUF_SIZE) && has_readers (sh_buffer s).

(** [poll_register_wait] of the two ends; [w] names the queue in the table. *)
Definition read_poll_register_wait (t : PollTable) (w : nat) (s : PipeShared) : PollTable * PipeShared :=
  let '(t', q) := pt_register t w (sh_read_wq s) in (t', set_read_wq q s).
Definition write_poll_register_wait (t : PollTable) (w : nat) (s : PipeShared) : PollTable * PipeShared :=
  let '(t', q) := pt_register t w (sh_write_wq s) in (t', set_write_wq q s).

(** Where an operation is.  [Sleep] is inside [sched_block_interruptible]. *)
Inductive reader_pc :=
| RTry | RWake (bytes : list Z) | RRegister (pid : Z) | RRecheck (slot : nat) | RCancel (slot : nat)
| RBlock (slot : nat) | RSleep (slot : nat) | RUnregister (slot : nat) | RDone (bytes : list Z).

Inductive writer_pc :=
| WTry | WWake (n : nat) | WRegister (pid : Z) | WRecheck (slot : nat) | WCancel (slot : nat)
| WBlock (slot : nat) | WSleep (slot : nat) | WUnregister (slot : nat) | WDone (n : nat) | WBroken.

(** What an action tells the rest of the world. *)
Inductive event := Delivered (bytes : list Z) | Accepted (bytes : list Z) | Woken (pids : list Z).

(** One action of [PipeRead::read] by a process with id [pid] (if the scheduler
    knows one) and a buffer of [len] bytes. *)
Definition read_step (pid : option Z) (len : nat) (pc : reader_pc) (s : PipeShared)
    : outcome (reader_pc * PipeShared * list event) :=
  let b := sh_buffer s in
  match pc with
  | RTry =>
      if (pb_count b =? 0) && negb (has_writers b) then mret (RDone [], s, []) else
      let was_full := pb_count b =? PIPE_BUF_SIZE in
      '(bytes, b') ← buffer_read b len;
      let s' := set_buffer b' s in
      match bytes with
      | _ :: _ => mret (if was_full then RWake bytes else RDone bytes, s', [Delivered bytes])
      | [] =>
          if has_writers b'
          then mret (match pid with Some p => RRegister p | None => RTry end, s', [])
          else mret (RDone [], s', [])
      end
  | RWake bytes =>
      let '(woken, q) := wq_wake_all (sh_write_wq s) in
      mret (RDone bytes, set_write_wq q s, [Woken woken])
  | RRegister p =>
      match wq_register (sh_read_wq s) p with
      | (Some slot, q) => mret (RRecheck slot, set_read_wq q s, [])
      | (None, _) => mret (RTry, s, [])
      end
  | RRecheck slot =>
      if (0 <? pb_count b) || negb (has_writers b) then mret (RCancel slot, s, []) else mret (RBlock slot, s, [])
  | RBlock slot => mret (RSleep slot, s, [])
  | RSleep slot => mret (RUnregister slot, s, [])
  | RCancel slot | RUnregister slot =>
      q ← wq_unregister (sh_read_wq s) slot; mret (RTry, set_read_wq q s, [])
  | RDone bytes => mret (RDone bytes, s, [])
  end.

(** One action of [PipeWrite::write]. *)
Definition write_step (pid : option Z) (buf : list Z) (pc : writer_pc) (s : PipeShared)
    : outcome (writer_pc * PipeShared * list event) :=
  let b := sh_buffer s in
  match pc with
  | WTry =>
      if negb (has_readers b) then mret (WBroken, s, []) else
      '(n, b') ← buffer_write b buf;
      let s' := set_buffer b' s in
      if (0 <? n)%nat then mret (WWake n, s', [Accepted (take n buf)])
      else if has_readers b'
      then mret (match pid with Some p => WRegister p | None => WTry end, s', [])
      else mret (WBroken, s', [])
  | WWake n =>
      let '(woken, q) := wq_wake_all (sh_read_wq s) in
      mret (WDone n, set_read_wq q s, [Woken woken])
  | WRegister p =>
      match wq_register (sh_write_wq s) p with
      | (Some slot, q) => mret (WRecheck slot, set_write_wq q s, [])
      | (None, _) => mret (WTry, s, [])
      end
  | WRecheck slot =>
      if (pb_count b <? PIPE_BUF_SIZE) || negb (has_readers b) then mret (WCancel slot, s, []) else mret (WBlock slot, s, [])
  | WBlock slot => mret (WSleep slot, s, [])
  | WSleep slot => mret (WUnregister slot, s, [])
  | WCancel slot | WUnregister slot =>
      q ← wq_unregister (sh_write_wq s) slot; mret (WTry, set_write_wq q s, [])
  | WDone n => mret (WDone n, s, [])
  | WBroken => mret (WBroken, s, [])
  end.

(** [Drop] of the last reference to an end. *)
Definition drop_reader (s : PipeShared) : PipeShared * list event :=
  let b := sh_buffer s in
  let b' := mkPipe (pb_data b) (pb_read_pos b) (pb_write_pos b) (pb_count b) (wsub64 (pb_readers b) 1) (pb_writers b) in
  let '(woken, q) := wq_wake_all (sh_write_wq s) in
  (mkShared b' (sh_read_wq s) q, [Woken woken]).

Definition drop_writer (s : PipeShared) : PipeShared * list event :=
  let b := sh_buffer s in
  let b' := mkPipe (pb_data b) (pb_read_pos b) (pb_write_pos b) (pb_count b) (pb_readers b) (wsub64 (pb_writers b) 1) in
  let '(woken, q) := wq_wake_all (sh_read_wq s) in
  (mkShared b' q (sh_write_wq s), [Woken woken]).

(** ** All operations in flight on one pipe *)

Inductive op :=
| OpRead (pid : option Z) (len : nat) (pc : reader_pc)
| OpWrite (pid : option Z) (buf : list Z) (pc : writer_pc).

Definition op_step (o : op) (s : PipeShared) : outcome (op * PipeShared * list event) :=
  match o with
  | OpRead pid len pc => '(pc', s', ev) ← read_step pid len pc s; mret (OpRead pid len pc', s', ev)
  | OpWrite pid buf pc => '(pc', s', ev) ← write_step pid buf pc s; mret (OpWrite pid buf pc', s', ev)
  end.

Definition is_read (o : op) : bool := match o with OpRead _ _ _ => true | OpWrite _ _ _ => false end.

(** Finished operations have returned to their caller. *)
Definition finished (o : op) : bool :=
  match o with
  | OpRead _ _ (RDone _) | OpWrite _ _ (WDone _) | OpWrite _ _ WBroken => true
  | _ => false
  end.

Definition fresh (o : op) : bool :=
  match o with OpRead _ _ RTry | OpWrite _ _ WTry => true | _ => false end.

Record System := mkSys {
  sy_shared : PipeShared;
  sy_ops : list op;
  sy_log : list event                (* oldest first *)
}.

(** The end of a pipe is dropped with its last reference, so no operation on
    that end is in flight then. *)
Inductive pstep : System -> System -> Prop :=
| step_start s ops log o :
    fresh o = true -> (if is_read o then has_readers (sh_buffer s) else has_writers (sh_buffer s)) = true ->
    pstep (mkSys s ops log) (mkSys s (ops ++ [o]) log)
| step_op s ops log i o o' s' ev :
    ops !! i = Some o -> op_step o s = Done (o', s', ev) ->
    pstep (mkSys s ops log) (mkSys s' (<[i := o']> ops) (log ++ ev))
| step_drop_reader s ops log s' ev :
    (forall o, o ∈ ops -> is_read o = true -> finished o = true) -> has_readers (sh_buffer s) = true ->
    drop_reader s = (s', ev) -> pstep (mkSys s ops log) (mkSys s' ops (log ++ ev))
| step_drop_writer s ops log s' ev :
    (forall o, o ∈ ops -> is_read o = false -> finished o = true) -> has_writers (sh_buffer s) = true ->
    drop_writer s = (s', ev) -> pstep (mkSys s ops log) (mkSys s' ops (log ++ ev)).

Definition accepted (log : list event) : list Z :=
  flat_map (fun e => match e with Accepted l => l | _ => [] end) log.
Definition delivered (log : list event) : list Z :=
  flat_map (fun e => match e with Delivered l => l | _ => [] end) log.

(** ** The ring buffer is a bounded queue *)

Definition byte_at (data : list Z) (pos : Z) : Z := default 0 (data !! Z.to_nat pos).

(** The [n] bytes from position [pos] on, wrapping around. *)
Fixpoint ring (data : list Z) (pos : Z) (n : nat) : list Z :=
  match n with
  | O => []
  | S n' => byte_at data pos :: ring data ((pos + 1) mod PIPE_BUF_SIZE) n'
  end.

(** What the buffer holds, oldest byte first. *)
Definition contents (b : PipeBuffer) : list Z := ring (pb_data b) (pb_read_pos b) (Z.to_nat (pb_count b)).

Record pipe_inv (b : PipeBuffer) : Prop := {
  pi_len : Z.of_nat (length (pb_data b)) = PIPE_BUF_SIZE;
  pi_read : 0 <= pb_read_pos b < PIPE_BUF_SIZE;
  pi_count : 0 <= pb_count b <= PIPE_BUF_SIZE;
  pi_write : pb_write_pos b = (pb_read_pos b + pb_count b) mod PIPE_BUF_SIZE;
  pi_readers : 0 <= pb_readers b <= 1;
  pi_writers : 0 <= pb_writers b <= 1
}.

Lemma size_bounds : 1 < PIPE_BUF_SIZE < U64.
Proof. unfold PIPE_BUF_SIZE, U64. lia. Qed.

Lemma mod_pos x : 0 <= x mod PIPE_BUF_SIZE < PIPE_BUF_SIZE.
Proof. apply Z.mod_pos_bound. pose proof size_bounds. lia. Qed.

Lemma mod_step a b : ((a mod PIPE_BUF_SIZE) + b) mod PIPE_BUF_SIZE = (a + b) mod PIPE_BUF_SIZE.
Proof. apply Zplus_mod_idemp_l. Qed.

Lemma mod_distinct p i j :
  0 <= i < j -> j < PIPE_BUF_SIZE -> (p + i) mod PIPE_BUF_SIZE <> (p + j) mod PIPE_BUF_SIZE.
Proof.
  intros Hi Hj He. pose proof size_bounds as Hs.
  assert ((j - i) mod PIPE_BUF_SIZE = 0) as H0.
  { replace (j - i) with ((p + j) - (p + i)) by lia. rewrite Zminus_mod, He, Z.sub_diag. apply Z.mod_0_l. lia. }
  rewrite Z.mod_small in H0 by lia. lia.
Qed.

Lemma ring_length data pos n : length (ring data pos n) = n.
Proof. revert pos. induction n as [|n IH]; intros pos; simpl; [done|]. by rewrite IH. Qed.

Lemma ring_app data pos n m :
  0 <= pos < PIPE_BUF_SIZE ->
  ring data pos (n + m) = ring data pos n ++ ring data ((pos + Z.of_nat n) mod PIPE_BUF_SIZE) m.
Proof.
  revert pos. induction n as [|n IH]; intros pos Hp.
  { simpl. by rewrite Z.add_0_r, Z.mod_small. }
  cbn [Nat.add ring app]. f_equal. rewrite IH by apply mod_pos. f_equal. f_equal. rewrite mod_step. f_equal. lia.
Qed.

Lemma ring_insert_out data pos n p x :
  0 <= pos < PIPE_BUF_SIZE -> 0 <= p < PIPE_BUF_SIZE ->
  (forall i, 0 <= i < Z.of_nat n -> (pos + i) mod PIPE_BUF_SIZE <> p) ->
  ring (<[Z.to_nat p := x]> data) pos n = ring data pos n.
Proof.
  revert pos. induction n as [|n IH]; intros pos Hpos Hp Hout; [done|]. cbn [ring]. f_equal.
  - unfold byte_at. rewrite list_lookup_insert_ne; [done|].
    pose proof (Hout 0 ltac:(lia)) as H0. rewrite Z.add_0_r, Z.mod_small in H0 by lia. lia.
  - apply IH; [apply mod_pos|done|]. intros i Hi. rewrite mod_step.
    replace (pos + 1 + i) with (pos + (i + 1)) by lia. apply Hout. lia.
Qed.

Lemma byte_lookup data pos :
  Z.of_nat (length data) = PIPE_BUF_SIZE -> 0 <= pos < PIPE_BUF_SIZE ->
  data !! Z.to_nat pos = Some (byte_at data pos).
Proof.
  intros Hl Hp. unfold byte_at. destruct (lookup_lt_is_Some_2 data (Z.to_nat pos)) as [x Hx]; [lia|]. by rewrite Hx.
Qed.

Lemma read_loop_spec n data pos :
  Z.of_nat (length data) = PIPE_BUF_SIZE -> 0 <= pos < PIPE_BUF_SIZE ->
  read_loop n data pos = Done (ring data pos n, (pos + Z.of_nat n) mod PIPE_BUF_SIZE).
Proof.
  intros Hl. revert pos. induction n as [|n IH]; intros pos Hp.
  { simpl. by rewrite Z.add_0_r, Z.mod_small. }
  cbn [read_loop ring]. rewrite (byte_lookup _ _ Hl Hp). cbn [or_fault mbind outcome_bind].
  rewrite IH by apply mod_pos. cbn [mbind outcome_bind]. rewrite mod_step. do 3 f_equal. lia.
Qed.

Lemma write_loop_spec buf data rp c :
  Z.of_nat (length data) = PIPE_BUF_SIZE -> 0 <= rp < PIPE_BUF_SIZE ->
  Z.of_nat (c + length buf) <= PIPE_BUF_SIZE ->
  exists data', write_loop buf data ((rp + Z.of_nat c) mod PIPE_BUF_SIZE)
      = Done (data', (rp + Z.of_nat (c + length buf)) mod PIPE_BUF_SIZE) /\
    length data' = length data /\ ring data' rp (c + length buf) = ring data rp c ++ buf.
Proof.
  revert data c. induction buf as [|x buf IH]; intros data c Hl Hrp Hc.
  { exists data. rewrite Nat.add_0_r, app_nil_r. done. }
  cbn [write_loop length] in *. set (p := (rp + Z.of_nat c) mod PIPE_BUF_SIZE).
  pose proof (mod_pos (rp + Z.of_nat c)) as Hp. fold p in Hp.
  rewrite (byte_lookup data p Hl Hp). cbn [or_fault mbind outcome_bind].
  assert ((p + 1) mod PIPE_BUF_SIZE = (rp + Z.of_nat (S c)) mod PIPE_BUF_SIZE) as ->
    by (unfold p; rewrite mod_step; f_equal; lia).
  destruct (IH (<[Z.to_nat p := x]> data) (S c)) as (data' & -> & Hl' & Hr).
  { by rewrite length_insert. } { done. } { lia. }
  exists data'. replace (c + S (length buf))%nat with (S c + length buf)%nat by lia.
  split; [done|]. split; [by rewrite Hl', length_insert|]. rewrite Hr.
  replace (S c) with (c + 1)%nat by lia. rewrite ring_app by done. fold p. simpl.
  rewrite ring_insert_out by (try done; intros i Hi; apply mod_distinct; lia).
  unfold byte_at at 1. rewrite list_lookup_insert_eq by lia. simpl. by rewrite <- app_assoc.
Qed.

(** [read] takes the oldest bytes, as many as fit the caller's buffer. *)
Lemma buffer_read_spec b len :
  pipe_inv b ->
  exists b', buffer_read b len = Done (take len (contents b), b') /\ pipe_inv b' /\
    contents b' = drop len (contents b) /\ pb_readers b' = pb_readers b /\ pb_writers b' = pb_writers b.
Proof.
  intros [Hl Hr Hc Hw Hrd Hwr]. unfold buffer_read. destruct (Z.eqb_spec (pb_count b) 0) as [H0|H0].
  { exists b. assert (contents b = []) as -> by (unfold contents; by rewrite H0). by rewrite take_nil, drop_nil. }
  set (k := Nat.min len (Z.to_nat (pb_count b))). rewrite read_loop_spec by done. cbn [mbind outcome_bind].
  rewrite ring_length, sub64_ok by lia. cbn [mbind outcome_bind].
  assert (contents b = ring (pb_data b) (pb_read_pos b) k ++
    ring (pb_data b) ((pb_read_pos b + Z.of_nat k) mod PIPE_BUF_SIZE) (Z.to_nat (pb_count b) - k)) as Hs.
  { unfold contents. rewrite <- ring_app by done. f_equal. lia. }
  assert (length (contents b) = Z.to_nat (pb_count b)) as Hlen by apply ring_length.
  assert (take len (contents b) = ring (pb_data b) (pb_read_pos b) k) as ->.
  { destruct (decide (len <= Z.to_nat (pb_count b))%nat).
    - rewrite Hs, take_app_le, take_ge by (rewrite ring_length; lia). done.
    - rewrite take_ge by lia. unfold contents. f_equal. lia. }
  eexists. split; [done|]. split; [|split; [|done]].
  - split; cbn; [done|apply mod_pos|lia| |done|done]. rewrite Hw, mod_step. f_equal. lia.
  - unfold contents at 1. cbn. replace (Z.to_nat (pb_count b - Z.of_nat k)) with (Z.to_nat (pb_count b) - k)%nat by lia.
    destruct (decide (len <= Z.to_nat (pb_count b))%nat).
    + rewrite Hs. rewrite drop_app_ge by (rewrite ring_length; lia). rewrite ring_length.
      replace (len - k)%nat with 0%nat by lia. done.
    + rewrite drop_ge by lia. replace (Z.to_nat (pb_count b) - k)%nat with 0%nat by lia. done.
Qed.

Lemma contents_length b : pipe_inv b -> Z.of_nat (length (contents b)) = pb_count b.
Proof. intros Hb. unfold contents. rewrite ring_length. pose proof (pi_count _ Hb). lia. Qed.

(** [write] appends the longest prefix there is room for. *)
Lemma buffer_write_spec b buf :
  pipe_inv b ->
  let n := Nat.min (length buf) (Z.to_nat PIPE_BUF_SIZE - length (contents b)) in
  exists b', buffer_write b buf = Done (n, b') /\ pipe_inv b' /\
    contents b' = contents b ++ take n buf /\ pb_readers b' = pb_readers b /\ pb_writers b' = pb_writers b.
Proof.
  intros Hb n. pose proof (contents_length b Hb) as Hcl. destruct Hb as [Hl Hr Hc Hw Hrd Hwr]. unfold buffer_write.
  rewrite sub64_ok by lia. cbn [mbind outcome_bind].
  destruct (Z.eqb_spec (PIPE_BUF_SIZE - pb_count b) 0) as [H0|H0].
  { exists b. assert (n = 0%nat) as -> by (subst n; lia). by rewrite take_0, app_nil_r. }
  assert (Nat.min (length buf) (Z.to_nat (PIPE_BUF_SIZE - pb_count b)) = n) as -> by (subst n; lia).
  assert (length (take n buf) = n) as Htl by (rewrite length_take; lia).
  destruct (write_loop_spec (take n buf) (pb_data b) (pb_read_pos b) (Z.to_nat (pb_count b))) as (d & Hd & Hdl & Hdr).
  { done. } { done. } { lia. }
  rewrite Htl in *. rewrite Z2Nat.id in Hd by lia. rewrite <- Hw in Hd. rewrite Hd. cbn [mbind outcome_bind].
  rewrite add64_ok by (pose proof size_bounds; lia). cbn [mbind outcome_bind].
  eexists. split; [done|]. split; [|split; [|done]].
  - split; cbn; [lia|done|lia| |done|done]. f_equal. lia.
  - unfold contents. cbn. rewrite <- Hdr. f_equal. lia.
Qed.

(** ** Every interleaving *)

(** Both queues keep their sixteen slots. *)
Definition queues_ok (s : PipeShared) : Prop :=
  length (wq_slots (sh_read_wq s)) = MAX_WAITERS /\ length (wq_slots (sh_write_wq s)) = MAX_WAITERS.

Definition shared_inv (s : PipeShared) : Prop := pipe_inv (sh_buffer s) /\ queues_ok s.

Lemma register_loop_length slots pid i j slots' :
  register_loop slots pid i = Some (j, slots') -> length slots' = length slots.
Proof.
  revert i j slots'. induction slots as [|x l IH]; intros i j slots'; simpl; [done|].
  destruct (x =? PID_NONE); [intros [= _ <-]; done|].
  destruct (register_loop l pid (S i)) as [[k l']|] eqn:E; [|done]. intros [= _ <-]. simpl. f_equal. by eapply IH.
Qed.

Lemma wake_all_loop_length slots len : length (snd (fst (wake_all_loop slots len))) = length slots.
Proof.
  revert len. induction slots as [|p l IH]; intros len; simpl; [done|].
  destruct (p =? PID_NONE).
  - specialize (IH len). destruct (wake_all_loop l len) as [[? ?] ?]. simpl in *. lia.
  - specialize (IH (wsub32 len 1)). destruct (wake_all_loop l (wsub32 len 1)) as [[? ?] ?]. simpl in *. lia.
Qed.

Lemma wake_all_length q : length (wq_slots (snd (wq_wake_all q))) = length (wq_slots q).
Proof.
  unfold wq_wake_all. pose proof (wake_all_loop_length (wq_slots q) (wq_len q)) as H.
  by destruct (wake_all_loop (wq_slots q) (wq_len q)) as [[? ?] ?].
Qed.

Lemma register_length q pid : length (wq_slots (snd (wq_register q pid))) = length (wq_slots q).
Proof.
  unfold wq_register. destruct (register_loop (wq_slots q) pid 0) as [[j l]|] eqn:E; [|done].
  by eapply register_loop_length.
Qed.

Lemma unregister_total q slot :
  length (wq_slots q) = MAX_WAITERS ->
  exists q', wq_unregister q slot = Done q' /\ length (wq_slots q') = MAX_WAITERS.
Proof.
  intros Hl. unfold wq_unregister. destruct (Nat.ltb_spec slot MAX_WAITERS) as [Hs|Hs]; [|by eauto].
  destruct (lookup_lt_is_Some_2 (wq_slots q) slot) as [x ->]; [lia|]. eexists. split; [done|].
  simpl. by rewrite length_insert.
Qed.

Definition logs_match (s : PipeShared) (log : list event) : Prop :=
  accepted log = delivered log ++ contents (sh_buffer s).

Lemma accepted_app l1 l2 : accepted (l1 ++ l2) = accepted l1 ++ accepted l2.
Proof. apply flat_map_app. Qed.
Lemma delivered_app l1 l2 : delivered (l1 ++ l2) = delivered l1 ++ delivered l2.
Proof. apply flat_map_app. Qed.

(** What one action does to the data: it moves bytes from the buffer to the
    reader, or from the writer to the buffer, or neither. *)
Definition moves (s s' : PipeShared) (ev : list event) : Prop :=
  contents (sh_buffer s) ++ accepted ev = delivered ev ++ contents (sh_buffer s').

Lemma moves_none s s' ev :
  contents (sh_buffer s') = contents (sh_buffer s) -> accepted ev = [] -> delivered ev = [] -> moves s s' ev.
Proof. unfold moves. intros -> -> ->. by rewrite app_nil_r. Qed.

Lemma moves_log s s' ev log : logs_match s log -> moves s s' ev -> logs_match s' (log ++ ev).
Proof.
  unfold logs_match, moves. intros Hl Hm. rewrite accepted_app, delivered_app, Hl, <- !app_assoc. by f_equal.
Qed.

Ltac quiet_step :=
  eexists _, _, _; split; [done|]; split;
    [split; [done|split; cbn [sh_read_wq sh_write_wq set_read_wq set_write_wq set_buffer] in *; try done]
    |by apply moves_none].

Lemma read_step_ok pid len pc s :
  shared_inv s ->
  exists pc' s' ev, read_step pid len pc s = Done (pc', s', ev) /\ shared_inv s' /\ moves s s' ev.
Proof.
  intros (Hb & Hr & Hw). destruct pc as [|bytes|p|slot|slot|slot|slot|slot|bytes]; cbn [read_step].
  - destruct ((pb_count (sh_buffer s) =? 0) && negb (has_writers (sh_buffer s))); [quiet_step|].
    destruct (buffer_read_spec (sh_buffer s) len Hb) as (b' & -> & Hb' & Hc & _). cbn [mbind outcome_bind].
    destruct (take len (contents (sh_buffer s))) as [|x l] eqn:Ht.
    + assert (contents b' = contents (sh_buffer s)) as He
        by (rewrite Hc; rewrite <- (take_drop len (contents (sh_buffer s))) at 2; by rewrite Ht).
      destruct (has_writers b'); quiet_step.
    + eexists _, _, _. split; [done|]. split; [done|]. unfold moves. cbn. rewrite !app_nil_r, Hc.
      rewrite <- (take_drop len (contents (sh_buffer s))) at 1. by rewrite Ht.
  - pose proof (wake_all_length (sh_write_wq s)) as Hq. destruct (wq_wake_all (sh_write_wq s)) as [woken q].
    quiet_step. simpl in Hq. lia.
  - pose proof (register_length (sh_read_wq s) p) as Hq.
    destruct (wq_register (sh_read_wq s) p) as [[slot|] q]; quiet_step. simpl in Hq. lia.
  - destruct ((0 <? pb_count (sh_buffer s)) || negb (has_writers (sh_buffer s))); quiet_step.
  - destruct (unregister_total (sh_read_wq s) slot Hr) as (q & -> & Hq). cbn [mbind outcome_bind]. quiet_step.
  - quiet_step.
  - quiet_step.
  - destruct (unregister_total (sh_read_wq s) slot Hr) as (q & -> & Hq). cbn [mbind outcome_bind]. quiet_step.
  - quiet_step.
Qed.

Lemma write_step_ok pid buf pc s :
  shared_inv s ->
  exists pc' s' ev, write_step pid buf pc s = Done (pc', s', ev) /\ shared_inv s' /\ moves s s' ev.
Proof.
  intros (Hb & Hr & Hw). destruct pc as [|n|p|slot|slot|slot|slot|slot|n|]; cbn [write_step].
  - destruct (negb (has_readers (sh_buffer s))); [quiet_step|].
    destruct (buffer_write_spec (sh_buffer s) buf Hb) as (b' & -> & Hb' & Hc & _). cbn [mbind outcome_bind].
    destruct (Nat.ltb_spec 0 (Nat.min (length buf) (Z.to_nat PIPE_BUF_SIZE - length (contents (sh_buffer s))))) as [Hn|Hn].
    + eexists _, _, _. split; [done|]. split; [done|]. unfold moves. cbn. by rewrite app_nil_r, Hc.
    + assert (contents b' = contents (sh_buffer s)) as He.
      { rewrite Hc. replace (Nat.min _ _) with 0%nat by lia. by rewrite take_0, app_nil_r. }
      destruct (has_readers b'); quiet_step.
  - pose proof (wake_all_length (sh_read_wq s)) as Hq. destruct (wq_wake_all (sh_read_wq s)) as [woken q].
    quiet_step. simpl in Hq. lia.
  - pose proof (register_length (sh_write_wq s) p) as Hq.
    destruct (wq_register (sh_write_wq s) p) as [[slot|] q]; quiet_step. simpl in Hq. lia.
  - destruct ((pb_count (sh_buffer s) <? PIPE_BUF_SIZE) || negb (has_readers (sh_buffer s))); quiet_step.
  - destruct (unregister_total (sh_write_wq s) slot Hw) as (q & -> & Hq). cbn [mbind outcome_bind]. quiet_step.
  - quiet_step.
  - quiet_step.
  - destruct (unregister_total (sh_write_wq s) slot Hw) as (q & -> & Hq). cbn [mbind outcome_bind]. quiet_step.
  - quiet_step.
  - quiet_step.
Qed.

Lemma op_step_ok o s :
  shared_inv s -> exists o' s' ev, op_step o s = Done (o', s', ev) /\ shared_inv s' /\ moves s s' ev.
Proof.
  intros Hs. destruct o as [pid len pc|pid buf pc]; cbn [op_step].
  - destruct (read_step_ok pid len pc s Hs) as (pc' & s' & ev & -> & H). by eexists _, _, _.
  - destruct (write_step_ok pid buf pc s Hs) as (pc' & s' & ev & -> & H). by eexists _, _, _.
Qed.

Lemma drop_reader_ok s :
  shared_inv s -> has_readers (sh_buffer s) = true ->
  shared_inv (fst (drop_reader s)) /\ moves s (fst (drop_reader s)) (snd (drop_reader s)).
Proof.
  intros (Hb & Hr & Hw) Hrd. unfold has_readers in Hrd. apply Z.ltb_lt in Hrd. unfold drop_reader.
  pose proof (wake_all_length (sh_write_wq s)) as Hq. destruct (wq_wake_all (sh_write_wq s)) as [woken q]. simpl in *.
  destruct Hb. split; [|by apply moves_none]. split; [|split; simpl; lia].
  split; simpl; try done. unfold wsub64. rewrite Z.mod_small; unfold U64; lia.
Qed.

Lemma drop_writer_ok s :
  shared_inv s -> has_writers (sh_buffer s) = true ->
  shared_inv (fst (drop_writer s)) /\ moves s (fst (drop_writer s)) (snd (drop_writer s)).
Proof.
  intros (Hb & Hr & Hw) Hwr. unfold has_writers in Hwr. apply Z.ltb_lt in Hwr. unfold drop_writer.
  pose proof (wake_all_length (sh_read_wq s)) as Hq. destruct (wq_wake_all (sh_read_wq s)) as [woken q]. simpl in *.
  destruct Hb. split; [|by apply moves_none]. split; [|split; simpl; lia].
  split; simpl; try done. unfold wsub64. rewrite Z.mod_small; unfold U64; lia.
Qed.

Definition system_inv (y : System) : Prop :=
  shared_inv (sy_shared y) /\ logs_match (sy_shared y) (sy_log y).

Lemma pstep_inv y y' : pstep y y' -> system_inv y -> system_inv y'.
Proof.
  intros Hst [Hs Hl]. destruct Hst as [s ops log o Hf Ho|s ops log i o o' s' ev Hi He|s ops log s' ev _ Hr He|s ops log s' ev _ Hr He];
    cbn [sy_shared sy_log] in Hs, Hl.
  - done.
  - destruct (op_step_ok o s Hs) as (o2 & s2 & ev2 & He2 & Hs2 & Hm). rewrite He in He2. simplify_eq. split; [done|]. by eapply moves_log.
  - destruct (drop_reader_ok s Hs Hr) as [Hs2 Hm]. rewrite He in Hs2, Hm. split; [exact Hs2|]. by eapply moves_log.
  - destruct (drop_writer_ok s Hs Hr) as [Hs2 Hm]. rewrite He in Hs2, Hm. split; [exact Hs2|]. by eapply moves_log.
Qed.

Lemma psteps_inv y y' : rtc pstep y y' -> system_inv y -> system_inv y'.
Proof. induction 1 as [|y1 y2 y3 H12 _ IH]; [done|]. intros H1. apply IH. by eapply pstep_inv. Qed.

Lemma create_pipe_inv : system_inv (mkSys create_pipe [] []).
Proof.
  split; [|done]. split; [|done]. pose proof size_bounds as Hs.
  split; cbn [create_pipe sh_buffer sy_shared PipeBuffer_new pb_data pb_read_pos pb_write_pos pb_count pb_readers pb_writers];
    [|lia|lia| |lia|lia].
  - rewrite length_replicate. lia.
  - symmetry. apply Z.mod_0_l. lia.
Qed.

(** C14.  Pipes are bounded FIFOs under every interleaving.  From a fresh pipe,
    whatever operations are started, however their actions interleave, whenever
    blocked ones resume and ends are closed: the bytes the writers were told
    were written are exactly the bytes delivered to readers followed by the
    ones still buffered, in order; at most [PIPE_BUF_SIZE] are buffered; and
    the next action of every operation in flight runs without a fault. *)
Theorem pipe_fifo y :
  rtc pstep (mkSys create_pipe [] []) y ->
  accepted (sy_log y) = delivered (sy_log y) ++ contents (sh_buffer (sy_shared y)) /\
  Z.of_nat (length (contents (sh_buffer (sy_shared y)))) <= PIPE_BUF_SIZE /\
  (forall o, o ∈ sy_ops y -> exists r, op_step o (sy_shared y) = Done r).
Proof.
  intros Hst. destruct (psteps_inv _ _ Hst create_pipe_inv) as [Hs Hl].
  split; [done|]. split.
  - rewrite (contents_length _ (proj1 Hs)). apply (pi_count _ (proj1 Hs)).
  - intros o _. destruct (op_step_ok o _ Hs) as (o' & s' & ev & -> & _). by eexists.
Qed.

(** A scheduler for witnesses: start operations and run their actions. *)
Inductive choice := Start (o : op) | Go (i : nat).

Definition run1 (c : choice) (y : System) : option System :=
  match c with
  | Start o =>
      if fresh o && (if is_read o then has_readers (sh_buffer (sy_shared y)) else has_writers (sh_buffer (sy_shared y)))
      then Some (mkSys (sy_shared y) (sy_ops y ++ [o]) (sy_log y)) else None
  | Go i =>
      o ← sy_ops y !! i;
      match op_step o (sy_shared y) with
      | Done (o', s', ev) => Some (mkSys s' (<[i := o']> (sy_ops y)) (sy_log y ++ ev))
      | _ => None
      end
  end.

Fixpoint run (cs : list choice) (y : System) : option System :=
  match cs with [] => Some y | c :: cs' => y' ← run1 c y; run cs' y' end.

Lemma run_sound cs y y' : run cs y = Some y' -> rtc pstep y y'.
Proof.
  revert y. induction cs as [|c cs IH]; intros y; simpl; [intros [= ->]; apply rtc_refl|].
  destruct (run1 c y) as [y1|] eqn:H1; simpl; [|done]. intros Hr. eapply rtc_l; [|by apply IH].
  destruct y as [s ops log], c as [o|i]; unfold run1 in H1; cbn [sy_shared sy_ops sy_log] in H1.
  - case_match eqn:Hc; [|done]. apply andb_true_iff in Hc as [Hf Hh]. simplify_eq. by apply step_start.
  - destruct (ops !! i) as [o|] eqn:Hi; simpl in H1; [|done].
    destruct (op_step o s) as [[[o' s'] ev]| |] eqn:Ho; simplify_eq. by eapply step_op.
Qed.

Definition demo_trace : list choice :=
  [Start (OpWrite (Some 9) [10; 20; 30] WTry); Go 0; Start (OpRead (Some 8) 2 RTry); Go 1; Go 0].

Lemma run_observe {A} (f : System -> A) cs y v :
  option_map f (run cs y) = Some v -> exists y', run cs y = Some y' /\ f y' = v.
Proof. destruct (run cs y) as [y'|]; [|done]. intros [= <-]. by exists y'. Qed.

Lemma pipe_fifo_witness :
  exists y, rtc pstep (mkSys create_pipe [] []) y /\
    accepted (sy_log y) = delivered (sy_log y) ++ contents (sh_buffer (sy_shared y)) /\
    delivered (sy_log y) = [10; 20].
Proof.
  destruct (run_observe (fun y => delivered (sy_log y)) demo_trace (mkSys create_pipe [] []) [10; 20]) as (y & Hr & Hd);
    [vm_compute; reflexivity|].
  exists y. split; [exact (run_sound _ _ _ Hr)|]. split; [|exact Hd].
  exact (proj1 (pipe_fifo y (run_sound _ _ _ Hr))).
Defined.

(** One attempt of a reader.  With a non-empty buffer and room in the
    caller's buffer, [read] delivers the oldest bytes, as many as fit, leaves the rest and
    returns them (waking the writers first when the pipe was full); on an empty
    pipe it reports end of file exactly when there is no writer, and otherwise
    goes on to wait without touching the data. *)
Theorem pipe_read_attempt pid len s :
  shared_inv s ->
  exists pc s' ev, read_step pid (S len) RTry s = Done (pc, s', ev) /\
    contents (sh_buffer s') = drop (S len) (contents (sh_buffer s)) /\
    match contents (sh_buffer s) with
    | [] => ev = [] /\ (pc = RDone [] <-> has_writers (sh_buffer s) = false)
    | l => ev = [Delivered (take (S len) l)] /\
        (pc = RWake (take (S len) l) \/ pc = RDone (take (S len) l)) /\
        (pc = RWake (take (S len) l) <-> pb_count (sh_buffer s) = PIPE_BUF_SIZE)
    end.
Proof.
  intros (Hb & _). cbn [read_step]. pose proof (contents_length _ Hb) as Hcl.
  destruct (buffer_read_spec (sh_buffer s) (S len) Hb) as (b' & Hr & Hb' & Hc & Hrd & Hwr).
  assert (has_writers b' = has_writers (sh_buffer s)) as Hw by (unfold has_writers; by rewrite Hwr).
  destruct (contents (sh_buffer s)) as [|x l] eqn:Hcs; simpl in Hcl.
  - rewrite <- Hcl, Z.eqb_refl. destruct (has_writers (sh_buffer s)) eqn:Hh; cbn [andb negb].
    + rewrite Hr. cbn [mbind outcome_bind take]. rewrite Hw. eexists _, _, _. split; [done|]. split; [done|].
      split; [done|]. destruct pid; naive_solver.
    + eexists _, _, _. split; [done|]. rewrite Hcs. split; [done|]. done.
  - destruct (Z.eqb_spec (pb_count (sh_buffer s)) 0) as [H0|_]; [lia|]. cbn [andb]. rewrite Hr. cbn [mbind outcome_bind take].
    eexists _, _, _. split; [done|]. split; [done|]. split; [done|].
    destruct (Z.eqb_spec (pb_count (sh_buffer s)) PIPE_BUF_SIZE); naive_solver.
Qed.

Lemma pipe_read_attempt_witness :
  exists pc s' ev, read_step (Some 8) 1 RTry create_pipe = Done (pc, s', ev) /\ contents (sh_buffer s') = [].
Proof.
  destruct (pipe_read_attempt (Some 8) 0 create_pipe (proj1 create_pipe_inv)) as (pc & s' & ev & H1 & H2 & _).
  exists pc, s', ev. split; [exact H1|]. rewrite H2. reflexivity.
Defined.

(** The history of a lost wake-up: process 7 waits in slot 0 and is woken; before
    it runs again process 8 reads that byte and waits in the same slot; process
    7 resumes, gives up "its" slot and takes the next byte. *)
Definition lost_wakeup_trace : list choice :=
  [Start (OpRead (Some 7) 1 RTry); Go 0; Go 0; Go 0; Go 0;
   Start (OpWrite (Some 9) [1] WTry); Go 1; Go 1;
   Start (OpRead (Some 8) 1 RTry); Go 2;
   Start (OpRead (Some 8) 1 RTry); Go 3; Go 3; Go 3; Go 3;
   Go 0; Go 0;
   Start (OpWrite (Some 9) [2] WTry); Go 4; Go 4;
   Go 0;
   Start (OpWrite (Some 9) [3] WTry); Go 5; Go 5].

Definition woken (log : list event) : list Z :=
  flat_map (fun e => match e with Woken l => l | _ => [] end) log.

(** A reader can sleep through a write: a reachable state has a byte in
    the pipe and a reader asleep on it that is not registered on the wait
    queue and was never woken, while every other operation has returned. *)
Theorem pipe_lost_wakeup :
  exists y, rtc pstep (mkSys create_pipe [] []) y /\
    sy_ops y !! 3%nat = Some (OpRead (Some 8) 1 (RSleep 0)) /\
    contents (sh_buffer (sy_shared y)) = [3] /\ waiters (sh_read_wq (sy_shared y)) = [] /\
    woken (sy_log y) = [7] /\ finished <$> sy_ops y = [true; true; true; false; true; true].
Proof.
  destruct (run_observe (fun y => (sy_ops y !! 3%nat, contents (sh_buffer (sy_shared y)),
      waiters (sh_read_wq (sy_shared y)), woken (sy_log y), finished <$> sy_ops y)) lost_wakeup_trace
      (mkSys create_pipe [] []) (Some (OpRead (Some 8) 1 (RSleep 0)), [3], [], [7], [true; true; true; false; true; true]))
    as (y & Hr & Ho); [vm_compute; reflexivity|].
  injection Ho as H1 H2 H3 H4 H5. exists y. split; [exact (run_sound _ _ _ Hr)|]. by split_and!.
Qed.
