(* ===== verification/Path.v ===== *)
(** * Path names ([kernel/vfs/vfs/src/path.rs])

    Strings are lists of bytes.  The separator and the dot are ASCII, so the
    character-wise operations of Rust on UTF-8 strings agree with byte-wise
    ones.  A path denotes a walk through the directory tree ([walk]); parsing,
    printing, joining and normalising are verified against that meaning. *)
From S2P Require Import Prelude.

Definition str : Type := list Z.

Definition SLASH : Z := 47.
Definition DOT : str := [46].
Definition DOTDOT : str := [46; 46].

Record Path := mkPath {
  p_components : list str;
  p_absolute : bool
}.

Definition MAX_NAME : nat := 255.

(** [str::split('/')]: always at least one piece. *)
Fixpoint split_slash (s : str) : list str :=
  match s with
  | [] => [[]]
  | c :: s' =>
      if c =? SLASH then [] :: split_slash s'
      else match split_slash s' with
           | w :: ws => (c :: w) :: ws
           | [] => [[c]]
           end
  end.

Definition keep_component (s : str) : bool := negb (bool_decide (s = [])) && negb (bool_decide (s = DOT)).

Definition starts_with_slash (s : str) : bool :=
  match s with c :: _ => c =? SLASH | [] => false end.

Definition Path_new (path : str) : Path :=
  mkPath (filter (fun s => keep_component s = true) (split_slash path)) (starts_with_slash path).

Definition filename (p : Path) : option str := last (p_components p).

(** [Vec::pop] without its result. *)
Definition pop {A} (l : list A) : list A := take (length l - 1) l.

Definition parent (p : Path) : option Path :=
  match p_components p with
  | [] => None
  | _ => Some (mkPath (pop (p_components p)) (p_absolute p))
  end.

Definition join (p other : Path) : Path :=
  if p_absolute other then other
  else mkPath (p_components p ++ p_components other) (p_absolute p).

(** One round of the loop of [normalize]. *)
Definition normalize_step (absolute : bool) (normalized : list str) (component : str) : list str :=
  if bool_decide (component = DOTDOT) then
    if negb (bool_decide (normalized = [])) && negb (bool_decide (last normalized = Some DOTDOT))
    then pop normalized
    else if negb absolute then normalized ++ [component] else normalized
  else normalized ++ [component].

Definition normalize (p : Path) : Path :=
  mkPath (foldl (normalize_step (p_absolute p)) [] (p_components p)) (p_absolute p).

(** [components.join("/")] *)
Fixpoint join_slash (l : list str) : str :=
  match l with
  | [] => []
  | [w] => w
  | w :: l' => w ++ SLASH :: join_slash l'
  end.

Definition path_to_string (p : Path) : str :=
  match p_components p with
  | [] => if p_absolute p then [SLASH] else DOT
  | cs => (if p_absolute p then [SLASH] else []) ++ join_slash cs
  end.

(** [path.rfind('/')]: the index of the last separator. *)
Fixpoint rfind_slash (s : str) : option nat :=
  match s with
  | [] => None
  | c :: s' =>
      match rfind_slash s' with
      | Some i => Some (S i)
      | None => if c =? SLASH then Some 0%nat else None
      end
  end.

Definition split_path (path : str) : option str * str :=
  match rfind_slash path with
  | Some pos =>
      if (pos =? 0)%nat then (Some [SLASH], drop 1 path)
      else (Some (take pos path), drop (pos + 1) path)
  | None => (None, path)
  end.

Definition is_valid_name (name : str) : bool :=
  negb (bool_decide (name = [])) && (length name <=? MAX_NAME)%nat
  && negb (existsb (Z.eqb SLASH) name) && negb (existsb (Z.eqb 0) name)
  && negb (bool_decide (name = DOT)) && negb (bool_decide (name = DOTDOT)).

(** ** Parsing and printing *)

(** What [Path_new] produces: non-empty pieces without a separator, not ".". *)
Definition component_ok (s : str) : Prop := s <> [] /\ s <> DOT /\ SLASH ∉ s.
Definition path_ok (p : Path) : Prop := Forall component_ok (p_components p).

Lemma keep_component_spec s : keep_component s = true <-> s <> [] /\ s <> DOT.
Proof. unfold keep_component. rewrite andb_true_iff, !negb_true_iff, !bool_decide_eq_false. done. Qed.

Lemma split_slash_pieces s : Forall (fun w => SLASH ∉ w) (split_slash s).
Proof.
  induction s as [|c s IH]; simpl; [constructor; [apply not_elem_of_nil|constructor]|].
  destruct (Z.eqb_spec c SLASH) as [->|Hc]; [constructor; [apply not_elem_of_nil|done]|].
  destruct (split_slash s) as [|w ws].
  - constructor; [|constructor]. rewrite list_elem_of_singleton. congruence.
  - inversion_clear IH. constructor; [|done]. rewrite elem_of_cons. intros [?|?]; congruence || done.
Qed.

Lemma Path_new_ok s : path_ok (Path_new s).
Proof.
  unfold path_ok, Path_new. simpl. apply Forall_forall. intros w Hw.
  apply list_elem_of_filter in Hw as [Hk Hin]. apply keep_component_spec in Hk as [H1 H2].
  pose proof (split_slash_pieces s) as Hp. rewrite Forall_forall in Hp. split_and!; auto.
Qed.

Lemma split_slash_word w s : SLASH ∉ w -> split_slash (w ++ SLASH :: s) = w :: split_slash s.
Proof.
  induction w as [|c w IH]; simpl; intros Hn; [done|].
  rewrite elem_of_cons in Hn. destruct (Z.eqb_spec c SLASH) as [->|Hc]; [tauto|]. rewrite IH by tauto. done.
Qed.

Lemma split_slash_one w : SLASH ∉ w -> split_slash w = [w].
Proof.
  induction w as [|c w IH]; simpl; intros Hn; [done|].
  rewrite elem_of_cons in Hn. destruct (Z.eqb_spec c SLASH) as [->|Hc]; [tauto|]. by rewrite IH by tauto.
Qed.

Lemma split_join l : l <> [] -> Forall component_ok l -> split_slash (join_slash l) = l.
Proof.
  induction l as [|w l IH]; [done|]. intros _ Hok. inversion Hok as [|? ? (H1 & H2 & H3) Hl]; subst.
  destruct l as [|w' l].
  - simpl. by apply split_slash_one.
  - change (join_slash (w :: w' :: l)) with (w ++ SLASH :: join_slash (w' :: l)).
    by rewrite split_slash_word, IH.
Qed.

Lemma filter_components l : Forall component_ok l -> filter (fun s => keep_component s = true) l = l.
Proof.
  induction 1 as [|w l (H1 & H2 & _) _ IH]; [done|]. rewrite filter_cons_True by by apply keep_component_spec.
  by rewrite IH.
Qed.

Lemma join_slash_start l : Forall component_ok l -> starts_with_slash (join_slash l) = false.
Proof.
  destruct 1 as [|w l (H1 & _ & H3) _]; [done|]. destruct w as [|c w]; [done|].
  rewrite elem_of_cons in H3. destruct l; simpl; apply Z.eqb_neq; intros ->; tauto.
Qed.

(** ** The walk a path denotes *)

(** A directory is the list of names from the root to it; ".." from the root
    stays at the root. *)
Definition walk_step (dir : list str) (component : str) : list str :=
  if bool_decide (component = DOTDOT) then pop dir else dir ++ [component].

Definition walk (cwd : list str) (p : Path) : list str :=
  foldl walk_step (if p_absolute p then [] else cwd) (p_components p).

Lemma pop_snoc {A} (l : list A) x : pop (l ++ [x]) = l.
Proof. unfold pop. rewrite length_app. simpl. rewrite Nat.add_sub. apply take_app_length. Qed.

(** Leading ".."s, none in an absolute path, then proper names. *)
Definition normal_form (absolute : bool) (l : list str) : Prop :=
  exists k names, l = replicate k DOTDOT ++ names /\ (DOTDOT ∉ names) /\ (absolute = true -> k = 0%nat).

Lemma walk_snoc d l c : foldl walk_step d (l ++ [c]) = walk_step (foldl walk_step d l) c.
Proof. by rewrite foldl_app. Qed.

Lemma replicate_snoc {A} k (x : A) : replicate k x ++ [x] = replicate (S k) x.
Proof. by rewrite replicate_S_end. Qed.

(** One round keeps the form, and the walk of what has been read. *)
Lemma normalize_step_spec absolute acc c d :
  normal_form absolute acc -> (absolute = true -> d = []) ->
  normal_form absolute (normalize_step absolute acc c) /\
  foldl walk_step d (normalize_step absolute acc c) = walk_step (foldl walk_step d acc) c.
Proof.
  intros (k & names & -> & Hn & Hk) Hd. unfold normalize_step, walk_step at 2.
  destruct (decide (c = DOTDOT)) as [->|Hc].
  2: { rewrite !bool_decide_eq_false_2 by done. split; [|by rewrite walk_snoc; unfold walk_step; rewrite bool_decide_eq_false_2].
       exists k, (names ++ [c]). rewrite app_assoc. split_and!; [done| |done]. rewrite elem_of_app, list_elem_of_singleton.
       intros [?|?]; congruence. }
  rewrite (bool_decide_eq_true_2 (DOTDOT = DOTDOT)) by done.
  destruct (decide (names = [])) as [->|Hne].
  - rewrite app_nil_r. assert (forall b, negb (bool_decide (replicate k DOTDOT = [])) && negb (bool_decide (last (replicate k DOTDOT) = Some DOTDOT)) = b -> b = false) as Hb.
    { intros b <-. destruct k as [|k]; [done|]. rewrite <- replicate_snoc, last_snoc, (bool_decide_eq_true_2 (Some DOTDOT = _)) by done.
      apply andb_false_r. }
    rewrite (Hb _ eq_refl). destruct absolute; simpl.
    + rewrite (Hk eq_refl), (Hd eq_refl). split; [|done]. by exists 0%nat, [].
    + rewrite replicate_snoc. split; [exists (S k), []; by rewrite app_nil_r|].
      rewrite <- replicate_snoc, walk_snoc. unfold walk_step at 1. by rewrite bool_decide_eq_true_2.
  - destruct names as [|n names _] using rev_ind; [done|]. rewrite elem_of_app, list_elem_of_singleton in Hn.
    rewrite app_assoc, last_snoc, (bool_decide_eq_false_2 (_ = [])), (bool_decide_eq_false_2 (Some n = _)), pop_snoc
      by (try (intros [=]; subst; tauto); by destruct (replicate k DOTDOT ++ names)).
    simpl. split; [exists k, names; tauto|]. rewrite walk_snoc. unfold walk_step at 2.
    rewrite bool_decide_eq_false_2 by (intros ->; tauto). by rewrite pop_snoc.
Qed.

Lemma normalize_loop_spec absolute cs acc d :
  normal_form absolute acc -> (absolute = true -> d = []) ->
  normal_form absolute (foldl (normalize_step absolute) acc cs) /\
  foldl walk_step d (foldl (normalize_step absolute) acc cs) = foldl walk_step (foldl walk_step d acc) cs.
Proof.
  revert acc. induction cs as [|c cs IH]; intros acc Ha Hd; [done|]. simpl.
  destruct (normalize_step_spec absolute acc c d Ha Hd) as [Hf Hw]. destruct (IH _ Hf Hd) as [Hf' Hw'].
  split; [done|]. by rewrite Hw', Hw.
Qed.

Lemma normalize_fixed absolute l :
  normal_form absolute l -> foldl (normalize_step absolute) [] l = l.
Proof.
  intros (k & names & -> & Hn & Hk). rewrite foldl_app.
  assert (foldl (normalize_step absolute) [] (replicate k DOTDOT) = replicate k DOTDOT) as ->.
  { destruct absolute; [by rewrite Hk|]. clear. induction k as [|k IH]; [done|].
    rewrite <- replicate_snoc, foldl_app, IH. simpl. unfold normalize_step. rewrite bool_decide_eq_true_2 by done.
    destruct k as [|k]; [done|]. rewrite <- replicate_snoc, last_snoc, (bool_decide_eq_true_2 (Some DOTDOT = _)) by done.
    by rewrite andb_false_r. }
  clear Hk. revert Hn. generalize (replicate k DOTDOT) as acc. induction names as [|n names IH]; intros acc Hn; simpl.
  { by rewrite app_nil_r. }
  rewrite elem_of_cons in Hn. unfold normalize_step at 2. rewrite bool_decide_eq_false_2 by (intros ->; tauto).
  rewrite IH by tauto. by rewrite <- app_assoc.
Qed.

Lemma valid_name_component name : is_valid_name name = true -> component_ok name /\ name <> DOTDOT.
Proof.
  unfold is_valid_name. rewrite !andb_true_iff, !negb_true_iff, !bool_decide_eq_false.
  intros (((((H1 & _) & H2) & _) & H3) & H4). split; [|done]. split_and!; [done|done|].
  intros Hin%list_elem_of_In. assert (existsb (Z.eqb SLASH) name = true) by (apply existsb_exists; eauto). congruence.
Qed.

Lemma component_ok_dotdot : component_ok DOTDOT.
Proof. split_and!; [done|done|]. unfold DOTDOT, SLASH. rewrite !elem_of_cons, elem_of_nil. lia. Qed.

(** ** Claims *)

(** C33.  Normalisation.  From every working directory the normalised path
    leads to the same directory as the original; it has no ".." at all when
    absolute and only leading ones when relative; normalising again changes
    nothing; and joining two paths walks the first and then the second. *)
Theorem normalize_correct p q cwd :
  walk cwd (normalize p) = walk cwd p /\
  normal_form (p_absolute p) (p_components (normalize p)) /\
  normalize (normalize p) = normalize p /\
  walk cwd (join p q) = walk (walk cwd p) q.
Proof.
  destruct (normalize_loop_spec (p_absolute p) (p_components p) [] (if p_absolute p then [] else cwd)) as [Hf Hw].
  { exists 0%nat, []. split_and!; [done|apply not_elem_of_nil|done]. } { by destruct (p_absolute p). }
  split; [exact Hw|]. split; [exact Hf|]. split.
  - unfold normalize in *. cbn [p_components p_absolute] in *. f_equal. by apply normalize_fixed.
  - unfold walk at 1, join. destruct (p_absolute q) eqn:Hq; simpl.
    + rewrite Hq. unfold walk. by rewrite Hq.
    + rewrite foldl_app. unfold walk. by rewrite Hq.
Qed.

(** C34.  Parsing and printing.  Every string parses to a well-formed path, and
    printing a well-formed path and parsing the text gives the path back; a
    valid file name parses to the relative path of that one component. *)
Theorem path_print_parse s p name :
  path_ok (Path_new s) /\
  (path_ok p -> Path_new (path_to_string p) = p) /\
  (is_valid_name name = true -> Path_new name = mkPath [name] false).
Proof.
  split; [apply Path_new_ok|]. split.
  - intros Hp. destruct p as [cs a]. unfold path_ok in Hp. simpl in Hp. unfold path_to_string. cbn [p_components p_absolute].
    destruct cs as [|w cs]; [by destruct a|]. unfold Path_new. destruct a; cbn [app].
    + cbn [split_slash starts_with_slash]. rewrite Z.eqb_refl, filter_cons_False by done.
      by rewrite split_join, filter_components.
    + rewrite join_slash_start, split_join, filter_components by done. done.
  - intros [Hok _]%valid_name_component. pose proof Hok as (H1 & _ & Hs).
    unfold Path_new. rewrite split_slash_one, filter_components by (try done; by apply Forall_singleton).
    f_equal. destruct name as [|c l]; [done|]. simpl. apply Z.eqb_neq. intros ->. apply Hs. left.
Qed.

Lemma rfind_slash_spec s :
  match rfind_slash s with
  | Some i => s = take i s ++ SLASH :: drop (S i) s /\ (SLASH ∉ drop (S i) s)
  | None => SLASH ∉ s
  end.
Proof.
  induction s as [|c s IH]; simpl; [apply not_elem_of_nil|]. destruct (rfind_slash s) as [i|].
  - destruct IH as [IH1 IH2]. simpl. split; [by f_equal|done].
  - destruct (Z.eqb_spec c SLASH) as [->|Hc]; [by rewrite drop_0|].
    rewrite elem_of_cons. intros [?|?]; [congruence|done].
Qed.

(** [split_path] cuts at the last separator; only the root keeps its slash. *)
Lemma split_path_spec s :
  let '(dir, name) := split_path s in
  (SLASH ∉ name) /\
  match dir with
  | Some d => (d = [SLASH] /\ s = SLASH :: name) \/ s = d ++ SLASH :: name
  | None => s = name
  end.
Proof.
  unfold split_path. pose proof (rfind_slash_spec s) as Hr. destruct (rfind_slash s) as [[|i]|]; simpl.
  - rewrite take_0 in Hr. destruct Hr as [H1 H2]. split; [done|]. by left.
  - destruct Hr as [H1 H2]. replace (i + 1)%nat with (S i) by lia. split; [done|]. right. done.
  - done.
Qed.
