(* ===== verification/Resolve.v ===== *)
(** * Path resolution of the system calls
    ([resolve_path] and its helpers in [kernel/syscall/syscall/src/vfs.rs])

    The system calls do not use [Path]: they normalise text in one pass, into
    one buffer with an array of component ends.  [resolve_correct] shows for
    which paths the pass computes the walk that [Path] defines, and
    [resolve_dotdot] what it computes for the others. *)
From S2P Require Import Prelude Path.

Definition MAX_DEPTH : nat := 64.

Record RState := mkR {
  rs_result : str;
  rs_depth : nat;
  rs_comp_ends : list nat               (* [usize; 64] *)
}.

Definition rs_init : RState := mkR [] 0 (replicate MAX_DEPTH 0%nat).

(** The body of the loops over components. *)
Definition resolve_step (s : RState) (component : str) : RState :=
  if negb (keep_component component) then s
  else if bool_decide (component = DOTDOT) then
    if (0 <? rs_depth s)%nat then mkR (rs_result s) (rs_depth s - 1) (rs_comp_ends s) else s
  else if (rs_depth s <? MAX_DEPTH)%nat then
    let result := rs_result s ++ SLASH :: component in
    mkR result (rs_depth s + 1) (<[rs_depth s := length result]> (rs_comp_ends s))
  else s.

(** [result.truncate(comp_ends[depth - 1])] *)
Definition resolve_finish (s : RState) : str :=
  if (rs_depth s =? 0)%nat then [SLASH]
  else take (default 0%nat (rs_comp_ends s !! (rs_depth s - 1)%nat)) (rs_result s).

Definition normalize_path_direct (path : str) : str :=
  resolve_finish (foldl resolve_step rs_init (split_slash path)).

Definition normalize_path_relative (cwd rel_path : str) : str :=
  resolve_finish (foldl resolve_step (foldl resolve_step rs_init (split_slash cwd)) (split_slash rel_path)).

(** [cwd] is [None] when there is no current process. *)
Definition resolve_path (cwd : option str) (path : str) : str :=
  if starts_with_slash path then normalize_path_direct path
  else match cwd with
       | Some c => normalize_path_relative c path
       | None => normalize_path_direct path
       end.

(** ** The components that count *)

Definition components_of (s : str) : list str := p_components (Path_new s).

Lemma resolve_components st l :
  foldl resolve_step st l = foldl resolve_step st (filter (fun s => keep_component s = true) l).
Proof.
  revert st. induction l as [|c l IH]; intros st; [done|]. cbn [foldl]. rewrite filter_cons.
  destruct (decide (keep_component c = true)) as [Hk|Hk]; cbn [foldl]; [apply IH|].
  rewrite IH. f_equal. unfold resolve_step. by destruct (keep_component c).
Qed.

(** What a resolution reads, in order. *)
Definition resolved_components (cwd : option str) (path : str) : list str :=
  if starts_with_slash path then components_of path
  else match cwd with Some c => components_of c ++ components_of path | None => components_of path end.

Lemma resolve_path_fold cwd path :
  resolve_path cwd path = resolve_finish (foldl resolve_step rs_init (resolved_components cwd path)).
Proof.
  unfold resolve_path, resolved_components, normalize_path_direct, normalize_path_relative.
  destruct (starts_with_slash path); [by rewrite resolve_components|].
  destruct cwd as [c|]; [|by rewrite resolve_components].
  by rewrite foldl_app, (resolve_components _ (split_slash path)), (resolve_components _ (split_slash c)).
Qed.

Lemma components_of_ok s : Forall component_ok (components_of s).
Proof. exact (Path_new_ok s). Qed.

Lemma resolved_components_ok cwd path : Forall component_ok (resolved_components cwd path).
Proof.
  unfold resolved_components. destruct (starts_with_slash path); [apply components_of_ok|].
  destruct cwd; [apply Forall_app; split|]; apply components_of_ok.
Qed.

(** ** The buffer *)

(** The text of an absolute path, "" for the root. *)
Fixpoint render (l : list str) : str :=
  match l with [] => [] | w :: l' => SLASH :: w ++ render l' end.

Lemma render_app l l' : render (l ++ l') = render l ++ render l'.
Proof. induction l as [|w l IH]; [done|]. cbn [app render]. by rewrite IH, <- app_assoc. Qed.

Lemma render_string l : path_to_string (mkPath l true) = match l with [] => [SLASH] | _ => render l end.
Proof.
  unfold path_to_string. cbn [p_components p_absolute]. destruct l as [|w l]; [done|]. cbn [app]. f_equal.
  revert w. induction l as [|w' l IH]; intros w; cbn [render join_slash].
  - by rewrite app_nil_r.
  - f_equal. f_equal. apply (IH w').
Qed.

(** [l] has been pushed, [depth] components of it are live. *)
Definition tracks (s : RState) (l : list str) (depth : nat) : Prop :=
  rs_result s = render l /\ rs_depth s = depth /\ length (rs_comp_ends s) = MAX_DEPTH /\
  forall i, (i < length l)%nat -> rs_comp_ends s !! i = Some (length (render (take (S i) l))).

Lemma resolve_step_name s w :
  component_ok w -> w <> DOTDOT -> (rs_depth s < MAX_DEPTH)%nat ->
  resolve_step s w = mkR (rs_result s ++ SLASH :: w) (rs_depth s + 1)
    (<[rs_depth s := length (rs_result s ++ SLASH :: w)]> (rs_comp_ends s)).
Proof.
  intros (H1 & H2 & _) Hw Hl. unfold resolve_step.
  rewrite (proj2 (keep_component_spec w) (conj H1 H2)), bool_decide_eq_false_2 by done. cbn [negb].
  by rewrite (proj2 (Nat.ltb_lt _ _) Hl).
Qed.

Lemma resolve_push s l w :
  tracks s l (length l) -> component_ok w -> w <> DOTDOT -> (length l < MAX_DEPTH)%nat ->
  tracks (resolve_step s w) (l ++ [w]) (length (l ++ [w])).
Proof.
  intros (Hr & Hd & Hlen & He) Hok Hw Hl. rewrite resolve_step_name, Hd by (try rewrite Hd; done).
  assert (rs_result s ++ SLASH :: w = render (l ++ [w])) as E.
  { rewrite render_app, Hr. cbn [render]. by rewrite app_nil_r. }
  unfold tracks. cbn [rs_result rs_depth rs_comp_ends]. rewrite E, length_app, length_insert. cbn [length].
  split_and!; [done|done|done|]. intros i Hi. destruct (decide (i = length l)) as [->|Hne].
  - rewrite list_lookup_insert_eq by lia. do 2 f_equal. rewrite take_ge; [done|]. rewrite length_app. simpl. lia.
  - rewrite list_lookup_insert_ne by done. rewrite He by lia. by rewrite take_app_le by lia.
Qed.

Lemma resolve_names s l ws :
  tracks s l (length l) -> Forall component_ok ws -> (DOTDOT ∉ ws) -> (length l + length ws <= MAX_DEPTH)%nat ->
  tracks (foldl resolve_step s ws) (l ++ ws) (length (l ++ ws)).
Proof.
  revert s l. induction ws as [|w ws IH]; intros s l Ht Hok Hnd Hlen; cbn [foldl]; [by rewrite app_nil_r|].
  inversion_clear Hok. rewrite elem_of_cons in Hnd. cbn [length] in Hlen.
  replace (l ++ w :: ws) with ((l ++ [w]) ++ ws) by by rewrite <- app_assoc. apply IH; [|done|tauto|].
  - apply resolve_push; [done|done|intros ->; tauto|lia].
  - rewrite length_app. simpl. lia.
Qed.

Lemma resolve_dots s l d m :
  tracks s l d -> tracks (foldl resolve_step s (replicate m DOTDOT)) l (d - m).
Proof.
  revert s d. induction m as [|m IH]; intros s d Ht; cbn [replicate foldl]; [by rewrite Nat.sub_0_r|].
  replace (d - S m)%nat with ((d - 1) - m)%nat by lia. apply IH. destruct Ht as (Hr & Hd & Hl & He).
  unfold resolve_step. cbn [keep_component]. rewrite Hd. change (negb (keep_component DOTDOT)) with false. cbn iota.
  rewrite bool_decide_eq_true_2 by done.
  destruct (Nat.ltb_spec 0 d) as [|Hz]; unfold tracks; cbn [rs_result rs_depth rs_comp_ends]; split_and!; auto; lia.
Qed.

Lemma resolve_finish_tracks s l d :
  tracks s l d -> (d <= length l)%nat -> resolve_finish s = path_to_string (mkPath (take d l) true).
Proof.
  intros (Hr & Hd & Hl & He) Hle. unfold resolve_finish. rewrite Hd, render_string. destruct d as [|d]; [done|].
  cbn [Nat.eqb]. rewrite Nat.sub_1_r. cbn [pred]. rewrite He by lia. cbn [default from_option id].
  rewrite Hr. rewrite <- (take_drop (S d) l) at 2. rewrite render_app, take_app_length.
  destruct l as [|w l]; [simpl in Hle; lia|done].
Qed.

Lemma tracks_init : tracks rs_init [] 0.
Proof. split_and!; [done|done|done|]. simpl. lia. Qed.

(** ** The walk *)

Lemma walk_names d ws : (DOTDOT ∉ ws) -> foldl walk_step d ws = d ++ ws.
Proof.
  revert d. induction ws as [|w ws IH]; intros d Hn; cbn [foldl]; [by rewrite app_nil_r|].
  rewrite elem_of_cons in Hn. unfold walk_step at 2. rewrite bool_decide_eq_false_2 by (intros ->; tauto).
  rewrite IH by tauto. by rewrite <- app_assoc.
Qed.

Lemma walk_dots d m : foldl walk_step d (replicate m DOTDOT) = take (length d - m) d.
Proof.
  revert d. induction m as [|m IH]; intros d; cbn [replicate foldl]; [by rewrite Nat.sub_0_r, take_ge|].
  rewrite IH. unfold walk_step. rewrite bool_decide_eq_true_2 by done. unfold pop.
  rewrite length_take, take_take. f_equal. lia.
Qed.

(** Leading ".."s, then at most 64 names, then ".."s: no name after a ".." that
    left a directory. *)
Definition one_descent (cs : list str) : Prop :=
  exists k names m, cs = replicate k DOTDOT ++ names ++ replicate m DOTDOT /\
    (DOTDOT ∉ names) /\ (length names <= MAX_DEPTH)%nat.

(** ** Claims *)

(** C35.  Path resolution.  A path that descends at most once, through at most
    64 names (leading and trailing ".."s and any "." or empty component
    allowed), resolves to the text of the directory that walking it from the
    root or the working directory reaches. *)
Theorem resolve_correct cwd path (H : one_descent (resolved_components cwd path)) :
  resolve_path cwd path = path_to_string (mkPath (foldl walk_step [] (resolved_components cwd path)) true).
Proof.
  pose proof (resolved_components_ok cwd path) as Hok. rewrite resolve_path_fold.
  destruct H as (k & names & m & E & Hn & Hl). rewrite E in *. clear E.
  rewrite !foldl_app, (walk_dots [] k), take_nil, (walk_names _ names), walk_dots by done. cbn [app].
  apply resolve_finish_tracks; [|lia]. apply resolve_dots.
  apply (resolve_names _ []); [|by apply Forall_app in Hok as [_ [Hok _]%Forall_app]|done|done].
  exact (resolve_dots _ [] 0 k tracks_init).
Qed.

Lemma resolve_correct_witness :
  resolve_path (Some [47; 97; 47; 98]) [46; 47; 99; 47; 46; 46] = [47; 97; 47; 98].
Proof.
  rewrite (resolve_correct (Some [47; 97; 47; 98]) [46; 47; 99; 47; 46; 46]); [vm_compute; reflexivity|].
  exists 0%nat, [[97]; [98]; [99]], 1%nat. split_and!; [vm_compute; reflexivity| |vm_compute; lia].
  rewrite !elem_of_cons, elem_of_nil. intros [E|[E|[E|E]]]; [discriminate E..|exact E].
Defined.

(** A name after a ".." that left a directory is appended to the text of
    the directory left: "/a/../b" resolves to "/a/b" for all names [a] and [b],
    where walking it leads to "/b". *)
Theorem resolve_dotdot cwd a b (Ha : is_valid_name a = true) (Hb : is_valid_name b = true) :
  let path := SLASH :: a ++ SLASH :: DOTDOT ++ SLASH :: b in
  resolve_path cwd path = SLASH :: a ++ SLASH :: b /\
  path_to_string (mkPath (foldl walk_step [] (resolved_components cwd path)) true) = SLASH :: b.
Proof.
  cbn zeta. apply valid_name_component in Ha as [Ha Ha'], Hb as [Hb Hb'].
  assert (resolved_components cwd (SLASH :: a ++ SLASH :: DOTDOT ++ SLASH :: b) = [a; DOTDOT; b]) as E.
  { unfold resolved_components, components_of, Path_new. cbn [starts_with_slash p_components split_slash].
    rewrite Z.eqb_refl, filter_cons_False by done.
    rewrite split_slash_word by apply Ha. rewrite (split_slash_word DOTDOT) by apply component_ok_dotdot.
    rewrite split_slash_one by apply Hb.
    apply filter_components. repeat (constructor; [by auto using component_ok_dotdot|]). constructor. }
  split.
  - rewrite resolve_path_fold, E. cbn [foldl]. rewrite (resolve_step_name rs_init a) by (done || (vm_compute; lia)).
    change (resolve_step (mkR _ _ _) DOTDOT) with
      (mkR (SLASH :: a) 0 (<[0%nat := S (length a)]> (replicate MAX_DEPTH 0%nat))).
    rewrite resolve_step_name by (done || (vm_compute; lia)). unfold resolve_finish.
    cbn [rs_depth rs_result rs_comp_ends Nat.add Nat.eqb Nat.sub]. rewrite list_lookup_insert_eq by (vm_compute; lia).
    cbn [default from_option id]. by rewrite take_ge.
  - rewrite E. cbn [foldl]. unfold walk_step. rewrite (bool_decide_eq_true_2 (DOTDOT = DOTDOT)), !bool_decide_eq_false_2 by done.
    cbn [app]. change (pop [a]) with (@nil str). cbn [app]. rewrite render_string. cbn [render]. by rewrite app_nil_r.
Qed.

Lemma resolve_dotdot_witness :
  resolve_path None [47; 97; 47; 46; 46; 47; 98] = [47; 97; 47; 98].
Proof.
  destruct (resolve_dotdot None [97] [98]) as [H _]; [vm_compute; reflexivity..|]. exact H.
Defined.
