(* ===== verification/Vnode.v ===== *)
(** * The vnode interface
    ([kernel/vfs/vfs/src/{error,vnode,permission}.rs])

    Error codes, file types and statistics, discretionary access control, and
    the part of the [VnodeOps] trait that open files use, as a type class.  The
    class [RegularFile] states what a vnode that stores bytes promises to its
    clients: positional reads and writes of a byte sequence. *)
From S2P Require Import Prelude.

Inductive VfsError :=
| NotFound | PermissionDenied | AlreadyExists | NotDirectory | IsDirectory | InvalidArgument | NoSpace | ReadOnly
| TooManyOpenFiles | BadFd | NotEmpty | CrossDevice | NameTooLong | IoError | NotSupported | Busy | NoDevice
| BrokenPipe | WouldBlock | Interrupted | NotConnected | InvalidOperation | InvalidFilesystem | CorruptedFilesystem.

#[global] Instance VfsError_eq_dec : EqDecision VfsError.
Proof. solve_decision. Defined.

Definition to_errno (e : VfsError) : Z :=
  match e with
  | NotFound => -2 | PermissionDenied => -13 | AlreadyExists => -17 | NotDirectory => -20 | IsDirectory => -21
  | InvalidArgument => -22 | NoSpace => -28 | ReadOnly => -30 | TooManyOpenFiles => -24 | BadFd => -9
  | NotEmpty => -39 | CrossDevice => -18 | NameTooLong => -36 | IoError => -5 | NotSupported => -95 | Busy => -16
  | NoDevice => -19 | BrokenPipe => -32 | WouldBlock => -11 | Interrupted => -4 | NotConnected => -107
  | InvalidOperation => -22 | InvalidFilesystem => -22 | CorruptedFilesystem => -5
  end.

Inductive VnodeType := VtFile | VtDirectory | VtSymlink | VtCharDevice | VtBlockDevice | VtFifo | VtSocket.

Definition Mode_new (mode : Z) : Z := Z.land mode 0xFFF.       (* 0o7777 *)

Record Stat := mkStat {
  st_dev : Z; st_ino : Z; st_mode : Z; st_nlink : Z; st_uid : Z; st_gid : Z; st_rdev : Z; st_size : Z;
  st_blksize : Z; st_blocks : Z; st_atime : Z; st_mtime : Z; st_ctime : Z
}.

Definition type_bits (t : VnodeType) : Z :=
  match t with
  | VtFile => 0x8000 | VtDirectory => 0x4000 | VtSymlink => 0xA000 | VtCharDevice => 0x2000
  | VtBlockDevice => 0x6000 | VtFifo => 0x1000 | VtSocket => 0xC000
  end.

Definition Stat_new (t : VnodeType) (mode size ino : Z) : outcome Stat :=
  s ← add64 size 511;
  mret (mkStat 0 ino (Z.lor (type_bits t) mode) 1 0 0 0 size 4096 (s / 512) 0 0 0).

(** ** Permissions ([permission.rs]) *)

Definition R_OK : Z := 4.
Definition W_OK : Z := 2.
Definition X_OK : Z := 1.
Definition F_OK : Z := 0.

Definition check_permission (file_uid file_gid file_mode caller_uid caller_gid access : Z) : bool :=
  if caller_uid =? 0 then true else
  let perm_bits :=
    if caller_uid =? file_uid then Z.land (Z.shiftr file_mode 6) 7
    else if caller_gid =? file_gid then Z.land (Z.shiftr file_mode 3) 7
    else Z.land file_mode 7 in
  if access =? F_OK then true else
  let needed := Z.land access 7 in
  Z.land perm_bits needed =? needed.

Definition can_signal (sender_euid target_uid : Z) : bool :=
  if sender_euid =? 0 then true else sender_euid =? target_uid.

Definition access_from_open_flags (flags : Z) : Z :=
  match Z.land flags 3 with
  | 0 => R_OK
  | 1 => W_OK
  | 2 => Z.lor R_OK W_OK
  | _ => Z.lor R_OK W_OK
  end.

(** ** The trait

    Offsets are 64-bit; a read is given the length of the caller's buffer and
    returns the bytes it stores there. *)
Class VnodeOps (V : Type) := {
  vn_read : V -> Z -> nat -> outcome (result (list Z) VfsError * V);
  vn_write : V -> Z -> list Z -> outcome (result nat VfsError * V);
  vn_truncate : V -> Z -> outcome (result unit VfsError * V);
  vn_stat : V -> outcome (result Stat VfsError);
  vn_size : V -> outcome Z;
  vn_poll_read_ready : V -> bool;
  vn_poll_write_ready : V -> bool
}.

(** The default [size] of the trait. *)
Definition default_size (stat : outcome (result Stat VfsError)) : outcome Z :=
  r ← stat; mret (match r with Ok s => st_size s | Err _ => 0 end).

(** [bytes] overwritten with [buf] from [off] on; a gap is filled with zeros. *)
Definition splice (bytes : list Z) (off : nat) (buf : list Z) : list Z :=
  take off (bytes ++ replicate (off - length bytes) 0) ++ buf ++ drop (off + length buf) bytes.

(** Allocations above [isize::MAX] bytes panic. *)
Definition ISIZE_MAX : Z := 2 ^ 63 - 1.

Class RegularFile (V : Type) `{VnodeOps V} := {
  rf_bytes : V -> list Z;
  rf_writable : V -> Prop;
  rf_read_ok v off len :
    0 <= off -> vn_read v off len = Done (Ok (take len (drop (Z.to_nat off) (rf_bytes v))), v);
  rf_write_ok v off buf :
    rf_writable v -> 0 <= off -> off + Z.of_nat (length buf) <= ISIZE_MAX ->
    exists v', vn_write v off buf = Done (Ok (length buf), v') /\ rf_writable v' /\
      rf_bytes v' = splice (rf_bytes v) (Z.to_nat off) buf;
  rf_size_ok v : vn_size v = Done (Z.of_nat (length (rf_bytes v)))
}.

Lemma splice_length bytes off buf :
  length (splice bytes off buf) = Nat.max (length bytes) (off + length buf).
Proof. unfold splice. rewrite !length_app, length_take, length_drop, length_app, length_replicate. lia. Qed.

(** Reading where one has written gives what was written. *)
Lemma splice_read bytes off buf : take (length buf) (drop off (splice bytes off buf)) = buf.
Proof.
  unfold splice. rewrite drop_app_ge by (rewrite length_take, length_app, length_replicate; lia).
  rewrite length_take, length_app, length_replicate. replace (off - _)%nat with 0%nat by lia.
  rewrite drop_0. apply take_app_length.
Qed.

(** Everything else is as before. *)
Lemma splice_other bytes off buf i :
  (i < length bytes)%nat -> (i < off \/ off + length buf <= i)%nat -> splice bytes off buf !! i = bytes !! i.
Proof.
  intros Hi Hout. unfold splice.
  assert (length (take off (bytes ++ replicate (off - length bytes) 0)) = off) as Hl
    by (rewrite length_take, length_app, length_replicate; lia).
  destruct Hout as [Hlo|Hhi].
  - rewrite lookup_app_l by lia. rewrite lookup_take_lt by lia. by rewrite lookup_app_l.
  - rewrite lookup_app_r by lia. rewrite Hl, lookup_app_r, lookup_drop by lia. f_equal. lia.
Qed.

(** Writing in two adjacent pieces is writing at once. *)
Lemma splice_splice bytes off a b :
  splice (splice bytes off a) (off + length a) b = splice bytes off (a ++ b).
Proof.
  unfold splice at 1. rewrite splice_length. replace (off + length a - _)%nat with 0%nat by lia.
  cbn [replicate]. rewrite app_nil_r. unfold splice.
  set (front := take off (bytes ++ replicate (off - length bytes) 0)).
  assert (length front = off) as Hl by (unfold front; rewrite length_take, length_app, length_replicate; lia).
  rewrite (app_assoc front a (drop _ bytes)).
  rewrite take_app_length' by (rewrite length_app; lia). rewrite drop_app_ge by (rewrite length_app; lia).
  rewrite drop_drop, length_app, Hl, (length_app a b), <- !app_assoc. do 4 f_equal. lia.
Qed.

Lemma splice_nil bytes off : (off <= length bytes)%nat -> splice bytes off [] = bytes.
Proof.
  intros Ho. unfold splice. replace (off - length bytes)%nat with 0%nat by lia. cbn [replicate length app].
  rewrite app_nil_r, Nat.add_0_r. apply take_drop.
Qed.
