(* ===== verification/MemFd.v ===== *)
(** * Memory files and event counters
    ([kernel/vfs/vfs/src/{memfd,eventfd}.rs])

    Two implementations of the vnode interface: anonymous memory files, which
    satisfy the laws of a regular file, and event counters. *)
From S2P Require Import Prelude Vnode.

(** ** [memfd] *)

Definition F_SEAL_SEAL : Z := 0x0001.
Definition F_SEAL_SHRINK : Z := 0x0002.
Definition F_SEAL_GROW : Z := 0x0004.
Definition F_SEAL_WRITE : Z := 0x0008.

Record MemFd := mkMemFd {
  mf_data : list Z;
  mf_seals : Z
}.

Definition MemFd_new : MemFd := mkMemFd [] 0.

Definition sealed (m : MemFd) (flag : Z) : bool := negb (Z.land (mf_seals m) flag =? 0).

Definition memfd_len (m : MemFd) : Z := Z.of_nat (length (mf_data m)).

(** [data.resize(n, 0)] *)
Definition vec_resize (l : list Z) (n : Z) : outcome (list Z) :=
  if n <=? ISIZE_MAX then mret (take (Z.to_nat n) (l ++ replicate (Z.to_nat n - length l) 0)) else Fault.

Definition memfd_read (m : MemFd) (offset : Z) (len : nat) : outcome (result (list Z) VfsError * MemFd) :=
  if memfd_len m <=? offset then mret (Ok [], m) else
  let to_read := Nat.min len (Z.to_nat (memfd_len m - offset)) in
  mret (Ok (take to_read (drop (Z.to_nat offset) (mf_data m))), m).

Definition memfd_write (m : MemFd) (offset : Z) (buf : list Z) : outcome (result nat VfsError * MemFd) :=
  if sealed m F_SEAL_WRITE then mret (Err PermissionDenied, m) else
  required_len ← add64 offset (Z.of_nat (length buf));
  if (memfd_len m <? required_len) && sealed m F_SEAL_GROW then mret (Err PermissionDenied, m) else
  data ← (if memfd_len m <? required_len then vec_resize (mf_data m) required_len else mret (mf_data m));
  let off := Z.to_nat offset in
  mret (Ok (length buf), mkMemFd (take off data ++ buf ++ drop (off + length buf) data) (mf_seals m)).

Definition memfd_truncate (m : MemFd) (size : Z) : outcome (result unit VfsError * MemFd) :=
  if sealed m F_SEAL_SHRINK && (size <? memfd_len m) then mret (Err PermissionDenied, m) else
  if sealed m F_SEAL_GROW && (memfd_len m <? size) then mret (Err PermissionDenied, m) else
  data ← vec_resize (mf_data m) size;
  mret (Ok tt, mkMemFd data (mf_seals m)).

Definition memfd_stat (m : MemFd) : outcome (result Stat VfsError) :=
  s ← Stat_new VtFile (Mode_new 0x180) (memfd_len m) 0; mret (Ok s).

#[global] Instance MemFd_VnodeOps : VnodeOps MemFd := {
  vn_read := memfd_read;
  vn_write := memfd_write;
  vn_truncate := memfd_truncate;
  vn_stat := memfd_stat;
  vn_size m := mret (memfd_len m);
  vn_poll_read_ready _ := true;
  vn_poll_write_ready m := negb (sealed m F_SEAL_WRITE)
}.

(** ** [eventfd] *)

Definition EFD_SEMAPHORE : Z := 0x00000001.

Record EventFd := mkEventFd {
  ev_counter : Z;
  ev_flags : Z
}.

Definition EventFd_new (initval flags : Z) : EventFd := mkEventFd initval flags.

(** [to_ne_bytes] and [from_ne_bytes] on the little-endian targets. *)
Fixpoint to_bytes (n : nat) (x : Z) : list Z :=
  match n with O => [] | S n' => x mod 256 :: to_bytes n' (x / 256) end.
Fixpoint from_bytes (l : list Z) : Z :=
  match l with [] => 0 | b :: l' => b + 256 * from_bytes l' end.

Definition eventfd_read (e : EventFd) (offset : Z) (len : nat) : outcome (result (list Z) VfsError * EventFd) :=
  if (len <? 8)%nat then mret (Err InvalidArgument, e) else
  if ev_counter e =? 0 then mret (Err WouldBlock, e) else
  if negb (Z.land (ev_flags e) EFD_SEMAPHORE =? 0) then
    c ← sub64 (ev_counter e) 1;
    mret (Ok (to_bytes 8 1), mkEventFd c (ev_flags e))
  else mret (Ok (to_bytes 8 (ev_counter e)), mkEventFd 0 (ev_flags e)).

Definition eventfd_write (e : EventFd) (offset : Z) (buf : list Z) : outcome (result nat VfsError * EventFd) :=
  if (length buf <? 8)%nat then mret (Err InvalidArgument, e) else
  let val := from_bytes (take 8 buf) in
  if val =? U64_MAX then mret (Err InvalidArgument, e) else
  limit ← sub64 (U64_MAX - 1) val;
  if limit <? ev_counter e then mret (Err WouldBlock, e) else
  c ← add64 (ev_counter e) val;
  mret (Ok 8%nat, mkEventFd c (ev_flags e)).

Definition eventfd_stat (e : EventFd) : outcome (result Stat VfsError) :=
  s ← Stat_new VtFile (Mode_new 0x180) 0 0; mret (Ok s).

#[global] Instance EventFd_VnodeOps : VnodeOps EventFd := {
  vn_read := eventfd_read;
  vn_write := eventfd_write;
  vn_truncate e _ := mret (Err NotSupported, e);
  vn_stat := eventfd_stat;
  vn_size e := default_size (eventfd_stat e);
  vn_poll_read_ready e := 0 <? ev_counter e;
  vn_poll_write_ready e := ev_counter e <? U64_MAX - 1
}.

(** ** Memory files are regular files *)

(** Writing into the grown vector is writing past the end of the old one. *)
Lemma resize_splice data off buf :
  (length data < off + length buf)%nat ->
  let grown := take (off + length buf) (data ++ replicate (off + length buf - length data) 0) in
  take off grown ++ buf ++ drop (off + length buf) grown = splice data off buf.
Proof.
  intros Hl grown. unfold splice. rewrite (drop_ge data) by lia.
  rewrite (drop_ge grown) by (unfold grown; rewrite length_take, length_app, length_replicate; lia).
  f_equal. unfold grown. rewrite take_take. replace (off `min` (off + length buf))%nat with off by lia.
  destruct (decide (off <= length data)%nat).
  - by rewrite !take_app_le by lia.
  - rewrite !take_app_ge by lia. f_equal. rewrite !take_replicate. f_equal. lia.
Qed.

Lemma memfd_write_splice m offset buf :
  sealed m F_SEAL_WRITE = false -> sealed m F_SEAL_GROW = false -> 0 <= offset ->
  offset + Z.of_nat (length buf) <= ISIZE_MAX ->
  memfd_write m offset buf =
    Done (Ok (length buf), mkMemFd (splice (mf_data m) (Z.to_nat offset) buf) (mf_seals m)).
Proof.
  intros Hw Hg Ho Hb. unfold memfd_write. rewrite Hw, Hg.
  rewrite add64_ok by (unfold ISIZE_MAX, U64 in *; lia). cbn [mbind outcome_bind]. rewrite andb_false_r.
  unfold memfd_len in *.
  destruct (Z.ltb_spec (Z.of_nat (length (mf_data m))) (offset + Z.of_nat (length buf))) as [Hlt|Hge].
  - unfold vec_resize. rewrite (proj2 (Z.leb_le _ _)) by lia. cbn [mbind outcome_bind mret outcome_ret].
    replace (Z.to_nat (offset + Z.of_nat (length buf))) with (Z.to_nat offset + length buf)%nat by lia.
    rewrite resize_splice by lia. done.
  - cbn [mbind outcome_bind]. unfold splice. replace (Z.to_nat offset - length (mf_data m))%nat with 0%nat by lia.
    by rewrite app_nil_r.
Qed.

#[global] Program Instance MemFd_RegularFile : RegularFile MemFd := {
  rf_bytes := mf_data;
  rf_writable m := sealed m F_SEAL_WRITE = false /\ sealed m F_SEAL_GROW = false
}.
Next Obligation.
  intros m off len Ho. simpl. unfold memfd_read, memfd_len. destruct (Z.leb_spec (Z.of_nat (length (mf_data m))) off).
  - rewrite drop_ge, take_nil by lia. done.
  - do 3 f_equal. destruct (decide (len <= length (drop (Z.to_nat off) (mf_data m)))%nat) as [Hl|Hl];
      rewrite length_drop in Hl.
    + f_equal. lia.
    + rewrite !take_ge; [done| |]; rewrite length_drop; lia.
Qed.
Next Obligation.
  intros m off buf [Hw Hg] Ho Hb. simpl. rewrite memfd_write_splice by done. by eexists.
Qed.
Next Obligation. done. Qed.

(** A write whose end passes the address range stops the kernel, whatever the
    file holds: the sum of offset and length is not checked. *)
Lemma memfd_write_overflow m offset buf :
  sealed m F_SEAL_WRITE = false -> U64 <= offset + Z.of_nat (length buf) ->
  memfd_write m offset buf = Fault.
Proof.
  intros Hw Ho. unfold memfd_write, add64. rewrite Hw. by rewrite (proj2 (Z.ltb_ge _ _)).
Qed.
