(* ===== verification/OpenFile.v ===== *)
(** * Open files ([kernel/vfs/vfs/src/file.rs])

    An open file description: position, flags and lock identity over a vnode.
    The vnode is shared between descriptions, so its state is passed next to
    the description.  Positions are proved against the laws of a regular file,
    whatever vnode implements them. *)
From S2P Require Import Prelude Vnode MemFd.

Definition O_RDONLY : Z := 0.
Definition O_WRONLY : Z := 1.
Definition O_RDWR : Z := 2.
Definition O_ACCMODE : Z := 3.
Definition O_APPEND : Z := 0x400.          (* 0o2000 *)

(** The bits [from_bits_truncate] keeps. *)
Definition FILE_FLAGS_ALL : Z :=
  foldr Z.lor 0 [O_ACCMODE; 0x40; 0x80; 0x100; 0x200; O_APPEND; 0x800; 0x10000; 0x20000; 0x80000].

Definition readable (flags : Z) : bool :=
  let mode := Z.land flags O_ACCMODE in (mode =? O_RDONLY) || (mode =? O_RDWR).
Definition writable (flags : Z) : bool :=
  let mode := Z.land flags O_ACCMODE in (mode =? O_WRONLY) || (mode =? O_RDWR).

(** [Start] takes a [u64], the others an [i64]. *)
Inductive SeekFrom := Start (pos : Z) | End_ (offset : Z) | Current (offset : Z).

Record File := mkFile {
  f_position : Z;
  f_flags : Z;
  f_mount_ref : option nat;          (* which mount's open-file counter *)
  f_owner_id : Z;
  f_has_flock : bool
}.

Definition File_new (owner_id flags : Z) : File := mkFile 0 flags None owner_id false.

Definition file_flags (f : File) : Z := Z.land (f_flags f) FILE_FLAGS_ALL.
Definition set_file_flags (flags : Z) (f : File) : File :=
  mkFile (f_position f) flags (f_mount_ref f) (f_owner_id f) (f_has_flock f).
Definition set_position (pos : Z) (f : File) : File :=
  mkFile pos (f_flags f) (f_mount_ref f) (f_owner_id f) (f_has_flock f).
Definition mark_flock_held (f : File) : File :=
  mkFile (f_position f) (f_flags f) (f_mount_ref f) (f_owner_id f) true.
Definition clear_flock_held (f : File) : File :=
  mkFile (f_position f) (f_flags f) (f_mount_ref f) (f_owner_id f) false.

(** [-offset] of an [i64]. *)
Definition neg64 (offset : Z) : outcome Z := if offset =? - 2 ^ 63 then Fault else mret (- offset).

(** [base.checked_sub] or [base.checked_add] of a signed offset. *)
Definition seek_rel (base offset : Z) : outcome (option Z) :=
  if offset <? 0 then
    n ← neg64 offset;
    mret (if n <=? base then Some (base - n) else None)
  else mret (if base + offset <? U64 then Some (base + offset) else None).

Section file.
Context {V : Type} `{VnodeOps V}.

Definition file_read (f : File) (v : V) (len : nat) : outcome (result (list Z) VfsError * File * V) :=
  if negb (readable (file_flags f)) then mret (Err PermissionDenied, f, v) else
  '(r, v') ← vn_read v (f_position f) len;
  match r with
  | Err e => mret (Err e, f, v')
  | Ok bytes => mret (Ok bytes, set_position (wadd64 (f_position f) (Z.of_nat (length bytes))) f, v')
  end.

Definition file_write (f : File) (v : V) (buf : list Z) : outcome (result nat VfsError * File * V) :=
  if negb (writable (file_flags f)) then mret (Err PermissionDenied, f, v) else
  pos ← (if Z.land (file_flags f) O_APPEND =? O_APPEND then vn_size v else mret (f_position f));
  '(r, v') ← vn_write v pos buf;
  match r with
  | Err e => mret (Err e, f, v')
  | Ok n => p ← add64 pos (Z.of_nat n); mret (Ok n, set_position p f, v')
  end.

Definition file_seek (f : File) (v : V) (from : SeekFrom) : outcome (result Z VfsError * File) :=
  size ← vn_size v;
  target ← match from with
           | Start pos => mret (Some pos)
           | End_ offset => seek_rel size offset
           | Current offset => seek_rel (f_position f) offset
           end;
  match target with
  | Some p => mret (Ok p, set_position p f)
  | None => mret (Err InvalidArgument, f)
  end.

Definition file_truncate (f : File) (v : V) (size : Z) : outcome (result unit VfsError * V) :=
  if negb (writable (file_flags f)) then mret (Err PermissionDenied, v) else vn_truncate v size.

Definition can_read (f : File) (v : V) : bool := readable (file_flags f) && vn_poll_read_ready v.
Definition can_write (f : File) (v : V) : bool := writable (file_flags f) && vn_poll_write_ready v.

End file.

(** ** Claims *)

Lemma seek_rel_spec base offset :
  0 <= base < U64 -> - 2 ^ 63 <= offset < 2 ^ 63 ->
  seek_rel base offset =
    if offset =? - 2 ^ 63 then Fault
    else Done (if (0 <=? base + offset) && (base + offset <? U64) then Some (base + offset) else None).
Proof.
  intros Hb Ho. unfold seek_rel, neg64. destruct (Z.ltb_spec offset 0).
  - destruct (Z.eqb_spec offset (- 2 ^ 63)); [done|]. cbn [mbind outcome_bind mret outcome_ret].
    destruct (Z.leb_spec (- offset) base), (Z.leb_spec 0 (base + offset)), (Z.ltb_spec (base + offset) U64);
      cbn [andb]; try lia; [|done]. do 2 f_equal. lia.
  - destruct (Z.eqb_spec offset (- 2 ^ 63)); [lia|]. rewrite (proj2 (Z.leb_le 0 (base + offset))) by lia. done.
Qed.

Section claims.
Context {V : Type} `{RegularFile V}.
Implicit Types (f : File) (v : V).

Lemma file_write_ok f v buf :
  rf_writable v -> writable (file_flags f) = true ->
  let pos := if Z.land (file_flags f) O_APPEND =? O_APPEND then Z.of_nat (length (rf_bytes v)) else f_position f in
  0 <= pos -> pos + Z.of_nat (length buf) <= ISIZE_MAX ->
  exists v', file_write f v buf = Done (Ok (length buf), set_position (pos + Z.of_nat (length buf)) f, v') /\
    rf_writable v' /\ rf_bytes v' = splice (rf_bytes v) (Z.to_nat pos) buf.
Proof.
  intros Hv Hw pos Hp Hb. unfold file_write. rewrite Hw. cbn [negb].
  assert ((if Z.land (file_flags f) O_APPEND =? O_APPEND then vn_size v else mret (f_position f)) = Done pos) as ->
    by (unfold pos; destruct (_ =? _); [by rewrite rf_size_ok|done]).
  cbn [mbind outcome_bind]. destruct (rf_write_ok v pos buf Hv Hp Hb) as (v' & -> & Hv' & Hs). cbn [mbind outcome_bind].
  rewrite add64_ok by (unfold ISIZE_MAX, U64 in *; lia). cbn [mbind outcome_bind]. by exists v'.
Qed.

Lemma readable_position f pos : readable (file_flags (set_position pos f)) = readable (file_flags f).
Proof. done. Qed.

End claims.

(** Files.  On every vnode that satisfies the laws of a regular file: what
    is written through a read-write description is read back after seeking
    back over it, the position ends where the write left it, and every other
    byte of the file is as before; with [O_APPEND] the bytes go to the end of
    the file, wherever the position was. *)
Theorem file_write_seek_read {V} `{RegularFile V} (f : File) (v : V) buf :
  rf_writable v -> readable (file_flags f) = true -> writable (file_flags f) = true ->
  let pos := if Z.land (file_flags f) O_APPEND =? O_APPEND then Z.of_nat (length (rf_bytes v)) else f_position f in
  0 <= pos -> pos + Z.of_nat (length buf) <= ISIZE_MAX ->
  exists f1 f2 f3 v',
    file_write f v buf = Done (Ok (length buf), f1, v') /\
    file_seek f1 v' (Current (- Z.of_nat (length buf))) = Done (Ok pos, f2) /\
    file_read f2 v' (length buf) = Done (Ok buf, f3, v') /\
    f_position f3 = f_position f1 /\
    length (rf_bytes v') = Nat.max (length (rf_bytes v)) (Z.to_nat pos + length buf) /\
    forall i, (i < length (rf_bytes v))%nat -> (i < Z.to_nat pos \/ Z.to_nat pos + length buf <= i)%nat ->
      rf_bytes v' !! i = rf_bytes v !! i.
Proof.
  intros Hv Hr Hw pos Hp Hb. destruct (file_write_ok f v buf Hv Hw Hp Hb) as (v' & Hwr & Hv' & Hs). fold pos in Hwr, Hs.
  exists (set_position (pos + Z.of_nat (length buf)) f), (set_position pos f),
    (set_position (pos + Z.of_nat (length buf)) f), v'.
  split; [exact Hwr|]. split; [|split; [|split; [done|split]]].
  - unfold file_seek. rewrite rf_size_ok. cbn [mbind outcome_bind f_position set_position].
    rewrite seek_rel_spec by (unfold ISIZE_MAX, U64 in *; lia).
    destruct (Z.eqb_spec (- Z.of_nat (length buf)) (- 2 ^ 63)); [unfold ISIZE_MAX in *; lia|]. cbn [mbind outcome_bind].
    replace (pos + Z.of_nat (length buf) + - Z.of_nat (length buf)) with pos by lia.
    rewrite (proj2 (Z.leb_le 0 pos)), (proj2 (Z.ltb_lt pos U64)) by (unfold ISIZE_MAX, U64 in *; lia). done.
  - unfold file_read. rewrite readable_position, Hr. cbn [negb f_position set_position].
    rewrite rf_read_ok by done. cbn [mbind outcome_bind]. rewrite Hs, splice_read. do 3 f_equal.
    unfold wadd64. rewrite Z.mod_small by (unfold ISIZE_MAX, U64 in *; lia). done.
  - rewrite Hs. apply splice_length.
  - intros i Hi Ho. rewrite Hs. by apply splice_other.
Qed.

Lemma file_write_seek_read_witness :
  exists f1 v', file_write (File_new 1 O_RDWR) MemFd_new [1; 2; 3] = Done (Ok 3%nat, f1, v') /\
    length (mf_data v') = 3%nat.
Proof.
  destruct (file_write_seek_read (File_new 1 O_RDWR) MemFd_new [1; 2; 3]) as (f1 & f2 & f3 & v' & H1 & _ & _ & _ & H5 & _).
  - split; reflexivity.
  - reflexivity.
  - reflexivity.
  - vm_compute. congruence.
  - vm_compute. congruence.
  - exists f1, v'. split; [exact H1|]. simpl in H5. exact H5.
Defined.

(** Seeking.  Relative to the position or to the end, a seek succeeds
    exactly when the target is a 64-bit offset and then moves the position
    there; otherwise it reports an invalid argument and changes nothing.  The
    one exception is the offset [i64::MIN], whose negation stops the kernel. *)
Theorem file_seek_exact {V} `{RegularFile V} (f : File) (v : V) offset :
  0 <= f_position f < U64 -> Z.of_nat (length (rf_bytes v)) < U64 -> - 2 ^ 63 <= offset < 2 ^ 63 ->
  let seek_from base r :=
    (offset = - 2 ^ 63 -> r = Fault) /\
    (offset <> - 2 ^ 63 -> 0 <= base + offset < U64 -> r = Done (Ok (base + offset), set_position (base + offset) f)) /\
    (offset <> - 2 ^ 63 -> ~ (0 <= base + offset < U64) -> r = Done (Err InvalidArgument, f)) in
  seek_from (f_position f) (file_seek f v (Current offset)) /\
  seek_from (Z.of_nat (length (rf_bytes v))) (file_seek f v (End_ offset)).
Proof.
  intros Hp Hl Ho seek_from.
  assert (forall base r, 0 <= base < U64 ->
    r = (target ← seek_rel base offset; match target with Some p => mret (Ok p, set_position p f)
          | None => mret (Err InvalidArgument, f) end) -> seek_from base r) as Hgen.
  { intros base r Hb ->. rewrite seek_rel_spec by done. split; [|split]; intros Hoff.
    - by rewrite Hoff.
    - intros Ht. rewrite (proj2 (Z.eqb_neq _ _) Hoff). cbn [mbind outcome_bind].
      by rewrite (proj2 (Z.leb_le _ _)), (proj2 (Z.ltb_lt _ _)) by lia.
    - intros Ht. rewrite (proj2 (Z.eqb_neq _ _) Hoff). cbn [mbind outcome_bind].
      destruct (Z.leb_spec 0 (base + offset)), (Z.ltb_spec (base + offset) U64); cbn [andb]; try done. lia. }
  split; apply Hgen; try lia; unfold file_seek; rewrite rf_size_ok; done.
Qed.

Lemma file_seek_exact_witness :
  file_seek (File_new 1 O_RDWR) MemFd_new (Current (- 2 ^ 63)) = Fault.
Proof.
  destruct (file_seek_exact (File_new 1 O_RDWR) MemFd_new (- 2 ^ 63)) as [[H _] _].
  - split; [vm_compute; congruence|reflexivity].
  - reflexivity.
  - split; [vm_compute; congruence|reflexivity].
  - apply H. reflexivity.
Defined.
