(* ===== verification/FdTable.v ===== *)
(** * File descriptor tables ([kernel/vfs/vfs/src/fd.rs])

    A table maps small integers to open file descriptions.  Descriptions are
    shared ([Arc<File>]), so a table holds references to them; [F] is the type
    of references.  Each operation is shown to act on the table as on a partial
    map from descriptors.  The counters kept for debugging are left out. *)
From S2P Require Import Prelude Vnode.

(** [x as i32] *)
Definition as_i32 (x : Z) : Z := (x + 2 ^ 31) mod U32 - 2 ^ 31.

Section fd_table.
Context {F : Type}.

Record FileDescriptor := mkFd {
  fd_file : F;
  fd_cloexec : bool
}.

Definition FileDescriptor_new (file : F) : FileDescriptor := mkFd file false.

Record FdTable := mkTable {
  ft_entries : list (option FileDescriptor);
  ft_max_fds : nat
}.

Definition DEFAULT_MAX_FDS : nat := 256.
Definition FdTable_new : FdTable := mkTable [] DEFAULT_MAX_FDS.
Definition FdTable_with_max (max_fds : nat) : FdTable := mkTable [] max_fds.

(** The index of the first empty entry at or above [min_fd]. *)
Fixpoint find_free (entries : list (option FileDescriptor)) (i min_fd : nat) : option nat :=
  match entries with
  | [] => None
  | e :: rest =>
      if (min_fd <=? i)%nat && (match e with None => true | Some _ => false end) then Some i
      else find_free rest (S i) min_fd
  end.

(** [entries.resize(n, None)] *)
Definition resize_entries (entries : list (option FileDescriptor)) (n : nat) : list (option FileDescriptor) :=
  take n (entries ++ replicate (n - length entries) None).

Definition alloc_at_least (t : FdTable) (min_fd : Z) (file : F) : result Z VfsError * FdTable :=
  let min := Z.to_nat (Z.max min_fd 0) in
  match find_free (ft_entries t) 0 min with
  | Some i =>
      (Ok (as_i32 (Z.of_nat i)), mkTable (<[i := Some (FileDescriptor_new file)]> (ft_entries t)) (ft_max_fds t))
  | None =>
      let new_fd := Nat.max (length (ft_entries t)) min in
      if (ft_max_fds t <=? new_fd)%nat then (Err TooManyOpenFiles, t)
      else (Ok (as_i32 (Z.of_nat new_fd)),
            mkTable (<[new_fd := Some (FileDescriptor_new file)]> (resize_entries (ft_entries t) (new_fd + 1)))
              (ft_max_fds t))
  end.

Definition fd_alloc (t : FdTable) (file : F) : result Z VfsError * FdTable := alloc_at_least t 0 file.

Definition fd_insert (t : FdTable) (fd : Z) (file : F) : result unit VfsError * FdTable :=
  if fd <? 0 then (Err BadFd, t) else
  let i := Z.to_nat fd in
  if (ft_max_fds t <=? i)%nat then (Err BadFd, t) else
  let entries := if (length (ft_entries t) <=? i)%nat then resize_entries (ft_entries t) (i + 1) else ft_entries t in
  (Ok tt, mkTable (<[i := Some (FileDescriptor_new file)]> entries) (ft_max_fds t)).

Definition fd_get (t : FdTable) (fd : Z) : result FileDescriptor VfsError :=
  if fd <? 0 then Err BadFd else
  match ft_entries t !! Z.to_nat fd with
  | Some (Some d) => Ok d
  | _ => Err BadFd
  end.

(** [get_mut] followed by a write of [g] through the reference. *)
Definition fd_update (t : FdTable) (fd : Z) (g : FileDescriptor -> FileDescriptor) : result unit VfsError * FdTable :=
  match fd_get t fd with
  | Ok d => (Ok tt, mkTable (<[Z.to_nat fd := Some (g d)]> (ft_entries t)) (ft_max_fds t))
  | Err e => (Err e, t)
  end.

Definition fd_close (t : FdTable) (fd : Z) : result unit VfsError * FdTable :=
  if fd <? 0 then (Err BadFd, t) else
  match ft_entries t !! Z.to_nat fd with
  | Some (Some _) => (Ok tt, mkTable (<[Z.to_nat fd := None]> (ft_entries t)) (ft_max_fds t))
  | _ => (Err BadFd, t)
  end.

Definition fd_dup (t : FdTable) (old_fd : Z) : result Z VfsError * FdTable :=
  match fd_get t old_fd with
  | Ok d => fd_alloc t (fd_file d)
  | Err e => (Err e, t)
  end.

Definition fd_dup2 (t : FdTable) (old_fd new_fd : Z) : result Z VfsError * FdTable :=
  match fd_get t old_fd with
  | Err e => (Err e, t)
  | Ok d =>
      if old_fd =? new_fd then (Ok new_fd, t) else
      let '(_, t1) := fd_close t new_fd in
      match fd_insert t1 new_fd (fd_file d) with
      | (Ok _, t2) => (Ok new_fd, t2)
      | (Err e, t2) => (Err e, t2)
      end
  end.

Definition get_file (t : FdTable) (fd : Z) : option F :=
  match fd_get t fd with Ok d => Some (fd_file d) | Err _ => None end.

Definition clone_for_fork (t : FdTable) : FdTable := mkTable (ft_entries t) (ft_max_fds t).

Definition close_cloexec (t : FdTable) : FdTable :=
  mkTable ((fun e => match e with
                     | Some d => if fd_cloexec d then None else Some d
                     | None => None
                     end) <$> ft_entries t) (ft_max_fds t).

(** ** The table as a partial map *)

(** What descriptor [fd] refers to. *)
Definition look (t : FdTable) (fd : Z) : option FileDescriptor :=
  if fd <? 0 then None else mjoin (ft_entries t !! Z.to_nat fd).

(** Descriptors fit an [i32]; the table is never longer than its limit. *)
Definition table_ok (t : FdTable) : Prop :=
  (length (ft_entries t) <= ft_max_fds t)%nat /\ Z.of_nat (ft_max_fds t) < 2 ^ 31.

Lemma as_i32_small x : 0 <= x < 2 ^ 31 -> as_i32 x = x.
Proof. intros Hx. unfold as_i32. rewrite Z.mod_small by (unfold U32; lia). lia. Qed.

Lemma fd_get_look t fd : fd_get t fd = match look t fd with Some d => Ok d | None => Err BadFd end.
Proof. unfold fd_get, look. destruct (fd <? 0); [done|]. by destruct (ft_entries t !! Z.to_nat fd) as [[d|]|]. Qed.

Lemma find_free_spec entries i min_fd :
  match find_free entries i min_fd with
  | Some j => (min_fd <= j)%nat /\ (i <= j)%nat /\ entries !! (j - i)%nat = Some None /\
      forall k, (i <= k < j)%nat -> (min_fd <= k)%nat -> is_Some (mjoin (entries !! (k - i)%nat))
  | None => forall k, (i <= k < i + length entries)%nat -> (min_fd <= k)%nat -> is_Some (mjoin (entries !! (k - i)%nat))
  end.
Proof.
  revert i. induction entries as [|e rest IH]; intros i; cbn [find_free length]; [intros k Hk; lia|].
  assert (forall k, (S i <= k)%nat -> (e :: rest) !! (k - i)%nat = rest !! (k - S i)%nat) as Hsh.
  { intros k Hk. by replace (k - i)%nat with (S (k - S i)) by lia. }
  destruct (Nat.leb_spec min_fd i) as [Hm|Hm], e as [d|]; cbn [andb].
  2: { split_and!; [done|lia|by rewrite Nat.sub_diag|intros k Hk; lia]. }
  all: specialize (IH (S i)); destruct (find_free rest (S i) min_fd) as [j|].
  1, 3, 5: destruct IH as (H1 & H2 & H3 & H4); split_and!; [done|lia|by rewrite Hsh by lia|];
    intros k Hk Hmk; destruct (decide (k = i)) as [->|]; [rewrite Nat.sub_diag|rewrite Hsh by lia; apply H4; lia];
    first [by eexists|lia].
  all: intros k Hk Hmk; destruct (decide (k = i)) as [->|]; [rewrite Nat.sub_diag|rewrite Hsh by lia; apply IH; lia];
    first [by eexists|lia].
Qed.

Lemma lookup_resize entries n i :
  (length entries <= n)%nat -> mjoin (resize_entries entries n !! i) = mjoin (entries !! i).
Proof.
  intros Hn. unfold resize_entries. rewrite take_ge by (rewrite length_app, length_replicate; lia).
  destruct (decide (i < length entries)%nat).
  - by rewrite lookup_app_l.
  - rewrite lookup_app_r, (lookup_ge_None_2 entries) by lia.
    destruct (replicate (n - length entries) None !! (i - length entries)%nat) as [x|] eqn:E; [|done].
    by apply lookup_replicate in E as [-> _].
Qed.

Lemma length_resize entries n : (length entries <= n)%nat -> length (resize_entries entries n) = n.
Proof. intros. unfold resize_entries. rewrite length_take, length_app, length_replicate. lia. Qed.

(** Storing [e] at [i] changes exactly what descriptor [i] refers to. *)
Lemma look_insert entries max i e fd :
  (i < length entries)%nat ->
  look (mkTable (<[i := e]> entries) max) fd = if fd =? Z.of_nat i then e else look (mkTable entries max) fd.
Proof.
  intros Hi. unfold look. cbn [ft_entries]. destruct (Z.ltb_spec fd 0); [by rewrite (proj2 (Z.eqb_neq _ _)) by lia|].
  destruct (Z.eqb_spec fd (Z.of_nat i)) as [->|Hne].
  - rewrite Nat2Z.id, list_lookup_insert_eq by done. done.
  - rewrite list_lookup_insert_ne by lia. done.
Qed.

Lemma look_resize entries max n fd :
  (length entries <= n)%nat -> look (mkTable (resize_entries entries n) max) fd = look (mkTable entries max) fd.
Proof. intros Hn. unfold look. cbn [ft_entries]. by rewrite lookup_resize. Qed.

Lemma look_out t fd : Z.of_nat (length (ft_entries t)) <= fd -> look t fd = None.
Proof. intros Hf. unfold look. destruct (Z.ltb_spec fd 0); [done|]. by rewrite lookup_ge_None_2 by lia. Qed.

End fd_table.
Arguments FileDescriptor : clear implicits.
Arguments FdTable : clear implicits.

(** ** Claims *)

Section specs.
Context {F : Type}.
Implicit Types (t : FdTable F).

Lemma fd_close_spec t fd :
  table_ok t ->
  let '(r, t') := fd_close t fd in
  table_ok t' /\ ft_max_fds t' = ft_max_fds t /\
  (forall x, look t' x = if x =? fd then None else look t x) /\
  (r = match look t fd with Some _ => Ok tt | None => Err BadFd end).
Proof.
  intros Hok. unfold fd_close. assert (look t fd = if fd <? 0 then None else mjoin (ft_entries t !! Z.to_nat fd)) as Hl by done.
  destruct (Z.ltb_spec fd 0).
  { rewrite Hl. split_and!; try done. intros x. destruct (Z.eqb_spec x fd) as [->|]; done. }
  destruct (ft_entries t !! Z.to_nat fd) as [[d|]|] eqn:He; rewrite Hl; simpl.
  - split_and!; try done.
    + destruct Hok. split; simpl; [by rewrite length_insert|done].
    + intros x. rewrite (look_insert (ft_entries t)) by by eapply lookup_lt_Some.
      rewrite Z2Nat.id by lia. destruct t. done.
  - split_and!; try done. intros x. destruct (Z.eqb_spec x fd) as [->|]; done.
  - split_and!; try done. intros x. destruct (Z.eqb_spec x fd) as [->|]; done.
Qed.

Lemma fd_insert_spec t fd file :
  table_ok t ->
  let '(r, t') := fd_insert t fd file in
  table_ok t' /\ ft_max_fds t' = ft_max_fds t /\
  ((0 <= fd < Z.of_nat (ft_max_fds t) /\ r = Ok tt /\
      forall x, look t' x = if x =? fd then Some (FileDescriptor_new file) else look t x) \/
   (~ (0 <= fd < Z.of_nat (ft_max_fds t)) /\ r = Err BadFd /\ t' = t)).
Proof.
  intros [Hok Hmax]. unfold fd_insert. destruct (Z.ltb_spec fd 0). { split_and!; [done|done|]. right. split; [lia|done]. }
  destruct (Nat.leb_spec (ft_max_fds t) (Z.to_nat fd)). { split_and!; [done|done|]. right. split; [lia|done]. }
  set (entries := if (length (ft_entries t) <=? Z.to_nat fd)%nat then _ else _).
  assert ((Z.to_nat fd < length entries)%nat /\ (length entries <= ft_max_fds t)%nat /\
    forall x, look (mkTable entries (ft_max_fds t)) x = look t x) as (Hl & Hm & Hx).
  { unfold entries. destruct (Nat.leb_spec (length (ft_entries t)) (Z.to_nat fd)).
    - rewrite length_resize by lia. split_and!; [lia|lia|]. intros x. rewrite look_resize by lia. by destruct t.
    - split_and!; [lia|lia|]. intros x. by destruct t. }
  split_and!; [split; simpl; [by rewrite length_insert|done]|done|]. left. split_and!; [lia|lia|done|].
  intros x. rewrite look_insert, Hx, Z2Nat.id by lia. done.
Qed.

End specs.

(** Descriptor allocation.  [alloc_at_least] returns the lowest free
    descriptor at or above the requested one, which afterwards (and only it)
    refers to the new file; it fails exactly when every descriptor from there
    to the limit is in use, and then changes nothing. *)
Theorem fd_alloc_lowest {F} (t : FdTable F) min_fd file :
  table_ok t ->
  let '(r, t') := alloc_at_least t min_fd file in
  table_ok t' /\
  match r with
  | Ok fd => Z.max min_fd 0 <= fd < Z.of_nat (ft_max_fds t) /\ look t fd = None /\
      (forall x, Z.max min_fd 0 <= x < fd -> look t x <> None) /\
      forall x, look t' x = if x =? fd then Some (FileDescriptor_new file) else look t x
  | Err e => e = TooManyOpenFiles /\ t' = t /\
      forall x, Z.max min_fd 0 <= x < Z.of_nat (ft_max_fds t) -> look t x <> None
  end.
Proof.
  intros [Hlen Hmax]. unfold alloc_at_least. set (min := Z.to_nat (Z.max min_fd 0)).
  pose proof (find_free_spec (ft_entries t) 0 min) as Hf.
  assert (forall x, 0 <= x -> is_Some (mjoin (ft_entries t !! (Z.to_nat x - 0)%nat)) -> look t x <> None) as Hsome.
  { intros x Hx [d Hd]. unfold look. rewrite (proj2 (Z.ltb_ge x 0)) by lia. rewrite Nat.sub_0_r in Hd. rewrite Hd. done. }
  destruct (find_free (ft_entries t) 0 min) as [i|].
  - destruct Hf as (H1 & _ & H3 & H4). rewrite Nat.sub_0_r in H3. pose proof (lookup_lt_Some _ _ _ H3) as Hi.
    rewrite as_i32_small by lia. split; [split; simpl; [by rewrite length_insert|done]|]. split_and!; [lia|lia| | |].
    + unfold look. rewrite (proj2 (Z.ltb_ge _ 0)), Nat2Z.id, H3 by lia. done.
    + intros x Hx. apply Hsome; [lia|]. apply H4; lia.
    + intros x. rewrite look_insert by done. by destruct t.
  - destruct (Nat.leb_spec (ft_max_fds t) (Nat.max (length (ft_entries t)) min)) as [Hfull|Hroom].
    + split; [done|]. split_and!; [done|done|]. intros x Hx. apply Hsome; [lia|]. apply Hf; lia.
    + set (n := Nat.max (length (ft_entries t)) min) in *. rewrite as_i32_small by lia.
      split; [split; simpl; [rewrite length_insert, length_resize; lia|done]|]. split_and!; [lia|lia| | |].
      * apply look_out. lia.
      * intros x Hx. destruct (decide (x < Z.of_nat (length (ft_entries t)))); [apply Hsome; [lia|]; apply Hf; lia|lia].
      * intros x. rewrite look_insert, look_resize by (rewrite ?length_resize; lia). by destruct t.
Qed.

Definition demo_table : FdTable nat := mkTable [Some (mkFd 0%nat false); None; Some (mkFd 1%nat true)] 4.

Lemma demo_table_ok : table_ok demo_table.
Proof. split; simpl; lia. Qed.

Lemma fd_alloc_lowest_witness :
  fst (alloc_at_least demo_table 0 7%nat) = Ok 1 /\ table_ok (snd (alloc_at_least demo_table 0 7%nat)).
Proof.
  pose proof (fd_alloc_lowest demo_table 0 7%nat demo_table_ok) as H.
  split; [reflexivity|]. destruct (alloc_at_least demo_table 0 7%nat) as [r t']. exact (proj1 H).
Defined.

(** C30.  The table implements a partial map from descriptors to files: [close]
    removes one binding, [dup2] adds the old descriptor's file under the new
    one with close-on-exec cleared (and nothing when they are equal), exec
    drops exactly the close-on-exec bindings, and each operation that fails
    reports a bad descriptor and changes no binding. *)
Theorem fd_table_refines {F} (t : FdTable F) fd old_fd new_fd :
  table_ok t ->
  (let '(r, t') := fd_close t fd in
    (r = Ok tt <-> look t fd <> None) /\ (r = Ok tt \/ r = Err BadFd) /\
    forall x, look t' x = if x =? fd then None else look t x) /\
  (let '(r, t') := fd_dup2 t old_fd new_fd in
    table_ok t' /\
    match r with
    | Ok n => n = new_fd /\ exists d, look t old_fd = Some d /\
        forall x, look t' x = if (x =? new_fd) && negb (old_fd =? new_fd) then Some (mkFd (fd_file d) false) else look t x
    | Err e => e = BadFd /\ (look t old_fd = None \/ ~ (0 <= new_fd < Z.of_nat (ft_max_fds t))) /\
        forall x, look t' x = look t x
    end) /\
  (forall x, look (close_cloexec t) x = match look t x with Some d => if fd_cloexec d then None else Some d | None => None end).
Proof.
  intros Hok. split; [|split].
  - pose proof (fd_close_spec t fd Hok) as Hc. destruct (fd_close t fd) as [r t']. destruct Hc as (_ & _ & Hx & ->).
    destruct (look t fd); split_and!; try done; naive_solver.
  - unfold fd_dup2. rewrite fd_get_look. destruct (look t old_fd) as [d|] eqn:Ho; [|by split_and!; auto].
    destruct (Z.eqb_spec old_fd new_fd) as [Heq|Hne].
    { split; [done|]. split; [done|]. exists d. split; [done|]. intros x. by rewrite andb_false_r. }
    pose proof (fd_close_spec t new_fd Hok) as Hc. destruct (fd_close t new_fd) as [r1 t1]. destruct Hc as (Hok1 & Hm & Hx1 & _).
    pose proof (fd_insert_spec t1 new_fd (fd_file d) Hok1) as Hi. destruct (fd_insert t1 new_fd (fd_file d)) as [r2 t2].
    destruct Hi as (Hok2 & _ & [(Hr & -> & Hx2)|(Hr & -> & ->)]).
    + split; [done|]. split; [done|]. exists d. split; [done|]. intros x. rewrite Hx2, Hx1, andb_true_r.
      by destruct (x =? new_fd).
    + split; [done|]. rewrite Hm in Hr. split; [done|]. split; [by right|]. intros x. rewrite Hx1.
      destruct (Z.eqb_spec x new_fd) as [->|]; [|done]. unfold look. destruct (Z.ltb_spec new_fd 0); [done|].
      destruct Hok as [Hl _]. by rewrite lookup_ge_None_2 by lia.
  - intros x. unfold look, close_cloexec. cbn [ft_entries]. destruct (x <? 0); [done|]. rewrite list_lookup_fmap.
    by destruct (ft_entries t !! Z.to_nat x) as [[d|]|].
Qed.

Lemma fd_table_refines_witness :
  fst (fd_dup2 demo_table 0 3) = Ok 3 /\ table_ok (snd (fd_dup2 demo_table 0 3)).
Proof.
  destruct (fd_table_refines demo_table 0 0 3 demo_table_ok) as (_ & H & _).
  split; [reflexivity|]. destruct (fd_dup2 demo_table 0 3) as [r t']. exact (proj1 H).
Defined.
