(* ===== verification/Flock.v ===== *)
(** * Advisory file locks ([kernel/vfs/vfs/src/flock.rs], [Drop] of [file.rs])

    The registry maps inodes to the locks held on them and the processes
    waiting.  It is shown to implement reader/writer locks: at every moment of
    every history an exclusive holder is the only holder. *)
From S2P Require Import Prelude Vnode MemFd OpenFile.

(** (dev, ino) *)
Definition InodeId : Type := (Z * Z).

Inductive LockType := Shared | Exclusive.

#[global] Instance LockType_eq_dec : EqDecision LockType.
Proof. solve_decision. Defined.

Record LockEntry := mkLock {
  le_owner_id : Z;
  le_lock_type : LockType
}.

Record InodeLockState := mkLocks {
  ls_locks : list LockEntry;
  ls_waiters : list Z
}.

Definition InodeLockState_new : InodeLockState := mkLocks [] [].

(** The index of the owner's lock. *)
Fixpoint find_owner (l : list LockEntry) (owner_id : Z) : option nat :=
  match l with
  | [] => None
  | e :: l' => if le_owner_id e =? owner_id then Some 0%nat else S <$> find_owner l' owner_id
  end.

Definition has_foreign_exclusive (s : InodeLockState) (owner_id : Z) : bool :=
  existsb (fun e => bool_decide (le_lock_type e = Exclusive) && negb (le_owner_id e =? owner_id)) (ls_locks s).

Definition has_foreign_lock (s : InodeLockState) (owner_id : Z) : bool :=
  existsb (fun e => negb (le_owner_id e =? owner_id)) (ls_locks s).

Definition state_is_empty (s : InodeLockState) : bool :=
  bool_decide (ls_locks s = []) && bool_decide (ls_waiters s = []).

Definition add_waiter (pid : Z) (s : InodeLockState) : InodeLockState :=
  if existsb (Z.eqb pid) (ls_waiters s) then s else mkLocks (ls_locks s) (ls_waiters s ++ [pid]).

Definition remove_waiter (pid : Z) (s : InodeLockState) : InodeLockState :=
  mkLocks (ls_locks s) (filter (fun w => w <> pid) (ls_waiters s)).

#[global] Instance LockEntry_eq_dec : EqDecision LockEntry.
Proof. solve_decision. Defined.

Abbreviation Registry := (gmap (Z * Z) InodeLockState).

(** [map.entry(inode).or_insert_with(new)] *)
Definition state_of (r : Registry) (i : InodeId) : InodeLockState := default InodeLockState_new (r !! i).

(** Record the lock: in place when the owner has one, at the end otherwise. *)
Definition put_lock (l : list LockEntry) (owner_id : Z) (t : LockType) : list LockEntry :=
  match find_owner l owner_id with
  | Some idx => <[idx := mkLock owner_id t]> l
  | None => l ++ [mkLock owner_id t]
  end.

Definition try_lock_shared (r : Registry) (i : InodeId) (owner_id : Z) : result unit VfsError * Registry :=
  let s := state_of r i in
  if has_foreign_exclusive s owner_id then (Err WouldBlock, <[i := s]> r)
  else (Ok tt, <[i := mkLocks (put_lock (ls_locks s) owner_id Shared) (ls_waiters s)]> r).

Definition try_lock_exclusive (r : Registry) (i : InodeId) (owner_id : Z) : result unit VfsError * Registry :=
  let s := state_of r i in
  if has_foreign_lock s owner_id then (Err WouldBlock, <[i := s]> r)
  else (Ok tt, <[i := mkLocks (put_lock (ls_locks s) owner_id Exclusive) (ls_waiters s)]> r).

(** Returns the processes to wake. *)
Definition unlock (r : Registry) (i : InodeId) (owner_id : Z) : list Z * Registry :=
  match r !! i with
  | Some s =>
      let s' := mkLocks (filter (fun e => le_owner_id e <> owner_id) (ls_locks s)) [] in
      (ls_waiters s, if state_is_empty s' then delete i r else <[i := s']> r)
  | None => ([], r)
  end.

Definition register_waiter (r : Registry) (i : InodeId) (pid : Z) : Registry :=
  <[i := add_waiter pid (state_of r i)]> r.

Definition unregister_waiter (r : Registry) (i : InodeId) (pid : Z) : Registry :=
  match r !! i with
  | Some s => let s' := remove_waiter pid s in if state_is_empty s' then delete i r else <[i := s']> r
  | None => r
  end.

(** The owner identity counter. *)
Definition next_owner_id (counter : Z) : Z * Z := (counter, wadd64 counter 1).

(** [Drop] of a [File]: release a lock it holds (the waiters returned are not
    woken), and give back the mount's open-file count. *)
Definition drop_flock (f : File) (inode : option InodeId) (r : Registry) : Registry :=
  if f_has_flock f then
    match inode with
    | Some i => snd (unlock r i (f_owner_id f))
    | None => r
    end
  else r.

(** The vnode is asked for its identity only when the file holds a lock. *)
Definition file_drop {V} `{VnodeOps V} (f : File) (v : V) (r : Registry) (mounts : gmap nat Z)
    : outcome (Registry * gmap nat Z) :=
  inode ← (if f_has_flock f then
             st ← vn_stat v; mret (match st with Ok s => Some (st_dev s, st_ino s) | Err _ => None end)
           else mret None);
  mret (drop_flock f inode r,
        match f_mount_ref f with
        | Some m => alter (fun c => wsub64 c 1) m mounts
        | None => mounts
        end).

(** Opening a file under a mount counts it there. *)
Definition File_new_with_mount_ref (owner_id flags : Z) (mount : nat) (mounts : gmap nat Z) : File * gmap nat Z :=
  (mkFile 0 flags (Some mount) owner_id false, alter (fun c => wadd64 c 1) mount mounts).

(** Opening and dropping leaves the mount's count as it was. *)
Lemma mount_ref_balanced {V} `{VnodeOps V} owner_id flags mount (mounts : gmap nat Z) (v : V) r c :
  mounts !! mount = Some c -> 0 <= c < U64 ->
  let '(f, mounts1) := File_new_with_mount_ref owner_id flags mount mounts in
  file_drop f v r mounts1 = Done (r, mounts).
Proof.
  intros Hc Hr. unfold File_new_with_mount_ref, file_drop. cbn [f_has_flock f_mount_ref mbind outcome_bind mret outcome_ret].
  do 2 f_equal. apply map_eq. intros i. rewrite lookup_alter. destruct (decide (mount = i)) as [<-|].
  - rewrite lookup_alter_eq, Hc. simpl. f_equal. unfold wadd64, wsub64.
    rewrite Zminus_mod_idemp_l. replace (c + 1 - 1) with c by lia. by apply Z.mod_small.
  - by rewrite lookup_alter_ne.
Qed.

(** ** Which lock an owner holds *)

Fixpoint owner_lock (l : list LockEntry) (owner_id : Z) : option LockType :=
  match l with
  | [] => None
  | e :: l' => if le_owner_id e =? owner_id then Some (le_lock_type e) else owner_lock l' owner_id
  end.

Definition holds (r : Registry) (i : InodeId) (owner_id : Z) : option LockType :=
  owner_lock (ls_locks (state_of r i)) owner_id.

(** Owners are listed once, and an exclusive lock is the only lock. *)
Definition locks_ok (l : list LockEntry) : Prop :=
  NoDup (le_owner_id <$> l) /\ forall e, e ∈ l -> le_lock_type e = Exclusive -> l = [e].

Definition registry_ok (r : Registry) : Prop := forall i s, r !! i = Some s -> locks_ok (ls_locks s).

Lemma locks_ok_nil : locks_ok [].
Proof. split; [constructor|]. intros e He. by apply not_elem_of_nil in He. Qed.

Lemma state_of_ok r i : registry_ok r -> locks_ok (ls_locks (state_of r i)).
Proof. intros Hr. unfold state_of. destruct (r !! i) as [s|] eqn:E; [by eapply Hr|apply locks_ok_nil]. Qed.

Lemma state_of_insert r i j s : state_of (<[i := s]> r) j = if decide (j = i) then s else state_of r j.
Proof. unfold state_of. destruct (decide (j = i)) as [->|]; [by rewrite lookup_insert_eq|by rewrite lookup_insert_ne]. Qed.

Lemma find_owner_spec l o :
  match find_owner l o with
  | Some i => exists e, l !! i = Some e /\ le_owner_id e = o
  | None => forall e, e ∈ l -> le_owner_id e <> o
  end.
Proof.
  induction l as [|e l IH]; simpl; [intros e He; by apply not_elem_of_nil in He|].
  destruct (Z.eqb_spec (le_owner_id e) o) as [He|He]; [by exists e|].
  destruct (find_owner l o) as [i|]; simpl; [done|]. intros e' [->|Hin]%elem_of_cons; auto.
Qed.

Lemma owner_lock_app l1 l2 o :
  owner_lock (l1 ++ l2) o = match owner_lock l1 o with Some t => Some t | None => owner_lock l2 o end.
Proof. induction l1 as [|e l1 IH]; simpl; [done|]. by destruct (_ =? _). Qed.

Lemma owner_lock_None l o : (forall e, e ∈ l -> le_owner_id e <> o) -> owner_lock l o = None.
Proof.
  induction l as [|e l IH]; simpl; [done|]. intros He. rewrite (proj2 (Z.eqb_neq _ _)) by (apply He; left).
  apply IH. intros e' H'. apply He. by right.
Qed.

Lemma owner_lock_elem l o t : owner_lock l o = Some t -> exists e, e ∈ l /\ le_owner_id e = o /\ le_lock_type e = t.
Proof.
  induction l as [|e l IH]; simpl; [done|]. destruct (Z.eqb_spec (le_owner_id e) o) as [He|He].
  - intros [= <-]. exists e. split; [left|done].
  - intros (e' & Hin & H')%IH. exists e'. split; [by right|done].
Qed.

(** [put_lock] gives the owner the lock and leaves the others theirs. *)
Lemma owner_lock_put l o t o' :
  owner_lock (put_lock l o t) o' = if o' =? o then Some t else owner_lock l o'.
Proof.
  unfold put_lock. destruct (find_owner l o) as [i|] eqn:Hf.
  - revert i Hf. induction l as [|e l IH]; intros i; simpl; [done|].
    destruct (Z.eqb_spec (le_owner_id e) o) as [He|He].
    + intros [= <-]. simpl. rewrite He. by rewrite (Z.eqb_sym o o'); destruct (o' =? o).
    + destruct (find_owner l o) as [k|]; [|done]. intros [= <-]. simpl. rewrite (IH k eq_refl).
      destruct (Z.eqb_spec (le_owner_id e) o'), (Z.eqb_spec o' o); congruence.
  - pose proof (find_owner_spec l o) as Hn. rewrite Hf in Hn. rewrite owner_lock_app. simpl. rewrite (Z.eqb_sym o o').
    destruct (Z.eqb_spec o' o) as [->|]; [by rewrite owner_lock_None|by destruct (owner_lock l o')].
Qed.

Lemma put_lock_owners l o t :
  NoDup (le_owner_id <$> l) -> NoDup (le_owner_id <$> put_lock l o t).
Proof.
  intros Hn. unfold put_lock. pose proof (find_owner_spec l o) as Hf. destruct (find_owner l o) as [i|].
  - destruct Hf as (e & Hi & He). rewrite list_fmap_insert. simpl. rewrite list_insert_id; [done|].
    by rewrite list_lookup_fmap, Hi, <- He.
  - rewrite fmap_app. apply NoDup_app. split; [done|]. split; [|apply NoDup_singleton].
    intros x Hx Hx'. apply list_elem_of_singleton in Hx'. simpl in Hx'. subst x.
    apply list_elem_of_fmap in Hx as (e & -> & Hin). by apply (Hf e).
Qed.

Lemma put_lock_elem l o t e : e ∈ put_lock l o t -> e ∈ l \/ e = mkLock o t.
Proof.
  unfold put_lock. destruct (find_owner l o) as [i|].
  - intros [j Hj]%list_elem_of_lookup. destruct (decide (i = j)) as [<-|Hij].
    + apply list_lookup_insert_Some in Hj as [(_ & -> & _)|[? ?]]; [by right|done].
    + rewrite list_lookup_insert_ne in Hj by done. left. by eapply list_elem_of_lookup_2.
  - intros [?|?%list_elem_of_singleton]%elem_of_app; auto.
Qed.

(** A list all of whose owners are [o], each listed once, holds at most one lock. *)
Lemma locks_all_own l o :
  NoDup (le_owner_id <$> l) -> (forall e, e ∈ l -> le_owner_id e = o) -> l = [] \/ exists e, l = [e].
Proof.
  destruct l as [|e [|e' l]]; [by left|by right; exists e|]. intros Hn Ho. exfalso.
  simpl in Hn. apply NoDup_cons in Hn as [Hn _]. apply Hn.
  rewrite (Ho e), (Ho e') by set_solver. left.
Qed.

Lemma foreign_lock_false s o : has_foreign_lock s o = false <-> forall e, e ∈ ls_locks s -> le_owner_id e = o.
Proof.
  unfold has_foreign_lock. rewrite <- not_true_iff_false, existsb_exists. split.
  - intros H e He. destruct (Z.eqb_spec (le_owner_id e) o) as [|Hne]; [done|]. exfalso. apply H. exists e.
    split; [by apply list_elem_of_In|]. by rewrite (proj2 (Z.eqb_neq _ _) Hne).
  - intros H (e & He%list_elem_of_In & Hne). by rewrite (H e He), Z.eqb_refl in Hne.
Qed.

Lemma foreign_exclusive_false s o :
  has_foreign_exclusive s o = false <->
  forall e, e ∈ ls_locks s -> le_lock_type e = Exclusive -> le_owner_id e = o.
Proof.
  unfold has_foreign_exclusive. rewrite <- not_true_iff_false, existsb_exists. split.
  - intros H e He Ht. destruct (Z.eqb_spec (le_owner_id e) o) as [|Hne]; [done|]. exfalso. apply H. exists e.
    split; [by apply list_elem_of_In|]. by rewrite (proj2 (Z.eqb_neq _ _) Hne), bool_decide_true.
  - intros H (e & He%list_elem_of_In & [Ht%bool_decide_eq_true Hne]%andb_true_iff).
    by rewrite (H e He Ht), Z.eqb_refl in Hne.
Qed.

(** ** Operations preserve the invariant *)

Lemma registry_ok_insert r i s : registry_ok r -> locks_ok (ls_locks s) -> registry_ok (<[i := s]> r).
Proof. intros Hr Hs j s' [[-> ->]|[_ H]]%lookup_insert_Some; [done|by eapply Hr]. Qed.

Lemma registry_ok_delete r i : registry_ok r -> registry_ok (delete i r).
Proof. intros Hr j s [_ H]%lookup_delete_Some. by eapply Hr. Qed.

Lemma registry_ok_empty : registry_ok ∅.
Proof. intros i s H. by rewrite lookup_empty in H. Qed.

(** Where the other owners' locks allow it, recording a lock keeps the list well formed. *)
Lemma put_shared_ok s o :
  locks_ok (ls_locks s) -> has_foreign_exclusive s o = false -> locks_ok (put_lock (ls_locks s) o Shared).
Proof.
  intros [Hn Hx] Hf. split; [by apply put_lock_owners|]. intros e He Ht. exfalso.
  rewrite foreign_exclusive_false in Hf. pose proof He as He'.
  apply put_lock_elem in He' as [Hin| ->]; [|done].
  pose proof (Hx e Hin Ht) as Hl. pose proof (Hf e Hin Ht) as Ho.
  rewrite Hl in He. unfold put_lock in He. simpl in He. rewrite Ho, Z.eqb_refl in He.
  apply list_elem_of_singleton in He. by rewrite He in Ht.
Qed.

Lemma put_exclusive_ok s o :
  locks_ok (ls_locks s) -> has_foreign_lock s o = false -> locks_ok (put_lock (ls_locks s) o Exclusive).
Proof.
  intros [Hn _] Hf. rewrite foreign_lock_false in Hf. split; [by apply put_lock_owners|].
  assert (put_lock (ls_locks s) o Exclusive = [mkLock o Exclusive]) as ->.
  { destruct (locks_all_own _ o Hn Hf) as [->|[e He]]; [done|].
    rewrite He in *. unfold put_lock. simpl. by rewrite (Hf e ltac:(left)), Z.eqb_refl. }
  by intros e ->%list_elem_of_singleton.
Qed.

Lemma filter_locks_ok l o : locks_ok l -> locks_ok (filter (fun e => le_owner_id e <> o) l).
Proof.
  intros [Hn Hx]. split.
  - eapply sublist_NoDup; [exact Hn|apply fmap_sublist, sublist_filter].
  - intros e [Ho He]%list_elem_of_filter Ht. rewrite (Hx e He Ht). by rewrite filter_cons_True.
Qed.

Lemma try_lock_shared_ok r i o : registry_ok r -> registry_ok (snd (try_lock_shared r i o)).
Proof.
  intros Hr. pose proof (state_of_ok r i Hr) as Hs. unfold try_lock_shared.
  destruct (has_foreign_exclusive _ o) eqn:Hf; cbn [snd]; apply registry_ok_insert; cbn [ls_locks]; auto using put_shared_ok.
Qed.

Lemma try_lock_exclusive_ok r i o : registry_ok r -> registry_ok (snd (try_lock_exclusive r i o)).
Proof.
  intros Hr. pose proof (state_of_ok r i Hr) as Hs. unfold try_lock_exclusive.
  destruct (has_foreign_lock _ o) eqn:Hf; cbn [snd]; apply registry_ok_insert; cbn [ls_locks]; auto using put_exclusive_ok.
Qed.

Lemma unlock_ok r i o : registry_ok r -> registry_ok (snd (unlock r i o)).
Proof.
  intros Hr. unfold unlock. destruct (r !! i) as [s|] eqn:E; [|done]. cbn [snd].
  destruct (state_is_empty _); [by apply registry_ok_delete|].
  apply registry_ok_insert; [done|]. apply filter_locks_ok. by eapply Hr.
Qed.

Lemma register_waiter_ok r i pid : registry_ok r -> registry_ok (register_waiter r i pid).
Proof.
  intros Hr. apply registry_ok_insert; [done|]. unfold add_waiter.
  destruct (existsb _ _); by apply state_of_ok.
Qed.

Lemma unregister_waiter_ok r i pid : registry_ok r -> registry_ok (unregister_waiter r i pid).
Proof.
  intros Hr. unfold unregister_waiter. destruct (r !! i) as [s|] eqn:E; [|done]. cbn zeta.
  destruct (state_is_empty _); [by apply registry_ok_delete|]. apply registry_ok_insert; [done|].
  simpl. by eapply Hr.
Qed.

Create HintDb flock.
#[export] Hint Resolve try_lock_shared_ok try_lock_exclusive_ok unlock_ok register_waiter_ok unregister_waiter_ok
  registry_ok_empty : flock.

(** ** What each operation does to the locks held and to the waiters *)

Definition waiting (r : Registry) (i : InodeId) : list Z := ls_waiters (state_of r i).

(** An owner other than [o] holds a lock, or an exclusive lock, on [i]. *)
Definition conflicts (r : Registry) (i : InodeId) (o : Z) (t : LockType) : Prop :=
  exists o' t', o' <> o /\ holds r i o' = Some t' /\ (t = Exclusive \/ t' = Exclusive).

Definition try_lock (t : LockType) (r : Registry) (i : InodeId) (o : Z) : result unit VfsError * Registry :=
  match t with Shared => try_lock_shared r i o | Exclusive => try_lock_exclusive r i o end.

Lemma holds_insert r i s j o :
  holds (<[i := s]> r) j o = if decide (j = i) then owner_lock (ls_locks s) o else holds r j o.
Proof. unfold holds. rewrite state_of_insert. by destruct (decide (j = i)). Qed.

Lemma waiting_insert r i s j : waiting (<[i := s]> r) j = if decide (j = i) then ls_waiters s else waiting r j.
Proof. unfold waiting. rewrite state_of_insert. by destruct (decide (j = i)). Qed.

(** Dropping an empty state cannot be seen. *)
Lemma state_of_tidy r i s j :
  state_of (if state_is_empty s then delete i r else <[i := s]> r) j = if decide (j = i) then s else state_of r j.
Proof.
  destruct (state_is_empty s) eqn:E; [|apply state_of_insert].
  unfold state_is_empty in E. apply andb_true_iff in E as [E1%bool_decide_eq_true E2%bool_decide_eq_true].
  unfold state_of. destruct (decide (j = i)) as [->|]; [|by rewrite lookup_delete_ne].
  rewrite lookup_delete_eq. destruct s. simpl in *. by subst.
Qed.

Lemma owner_lock_of_elem l e :
  NoDup (le_owner_id <$> l) -> e ∈ l -> owner_lock l (le_owner_id e) = Some (le_lock_type e).
Proof.
  induction l as [|e' l IH]; simpl; [by intros _ ?%not_elem_of_nil|].
  intros [Hn Hl]%NoDup_cons [->|Hin]%elem_of_cons; [by rewrite Z.eqb_refl|].
  destruct (Z.eqb_spec (le_owner_id e') (le_owner_id e)) as [He|]; [|auto].
  destruct Hn. rewrite He. by apply list_elem_of_fmap_2.
Qed.

Lemma owner_lock_filter l o o' :
  owner_lock (filter (fun e => le_owner_id e <> o) l) o' = if o' =? o then None else owner_lock l o'.
Proof.
  induction l as [|e l IH]; simpl; [by destruct (o' =? o)|].
  rewrite filter_cons. destruct (decide (le_owner_id e <> o)) as [He|He]; simpl; rewrite IH;
    destruct (Z.eqb_spec (le_owner_id e) o'), (Z.eqb_spec o' o); try done; exfalso; apply He; congruence.
Qed.

Lemma foreign_iff_conflict r i o t :
  registry_ok r ->
  (match t with
   | Shared => has_foreign_exclusive (state_of r i) o
   | Exclusive => has_foreign_lock (state_of r i) o
   end) = true <-> conflicts r i o t.
Proof.
  intros Hr. destruct (state_of_ok r i Hr) as [Hn _]. unfold conflicts, holds. split.
  - intros H. assert (exists e, e ∈ ls_locks (state_of r i) /\ le_owner_id e <> o /\
      (t = Exclusive \/ le_lock_type e = Exclusive)) as (e & He & Ho & Ht).
    { destruct t; apply existsb_exists in H as (e & He%list_elem_of_In & H); exists e.
      - apply andb_true_iff in H as [Ht%bool_decide_eq_true Hne%negb_true_iff%Z.eqb_neq]. auto.
      - apply negb_true_iff, Z.eqb_neq in H. auto. }
    exists (le_owner_id e), (le_lock_type e). split_and!; [done|by apply owner_lock_of_elem|done].
  - intros (o' & t' & Ho & (e & He & <- & <-)%owner_lock_elem & Ht).
    destruct t; apply existsb_exists; exists e; (split; [by apply list_elem_of_In|]).
    + destruct Ht as [Ht|Ht]; [done|]. by rewrite Ht, bool_decide_true, (proj2 (Z.eqb_neq _ _) Ho).
    + by rewrite (proj2 (Z.eqb_neq _ _) Ho).
Qed.

(** A lock request by its cases: who is granted, who holds what, who waits. *)
Lemma try_lock_spec t r i o :
  registry_ok r ->
  (conflicts r i o t /\ fst (try_lock t r i o) = Err WouldBlock /\
     forall j o', holds (snd (try_lock t r i o)) j o' = holds r j o') \/
  (~ conflicts r i o t /\ fst (try_lock t r i o) = Ok tt /\
     forall j o', holds (snd (try_lock t r i o)) j o' =
       if decide (j = i /\ o' = o) then Some t else holds r j o').
Proof.
  intros Hr. rewrite <- (foreign_iff_conflict r i o t Hr).
  assert (forall j o', holds (<[i := state_of r i]> r) j o' = holds r j o') as Hsame.
  { intros j o'. rewrite holds_insert. destruct (decide (j = i)) as [->|]; done. }
  assert (forall j o' w, holds (<[i := mkLocks (put_lock (ls_locks (state_of r i)) o t) w]> r) j o' =
    if decide (j = i /\ o' = o) then Some t else holds r j o') as Hput.
  { intros j o' w. rewrite holds_insert. cbn [ls_locks]. rewrite owner_lock_put.
    destruct (decide (j = i)) as [->|], (Z.eqb_spec o' o) as [->|]; destruct (decide _) as [[]|]; try done; tauto. }
  destruct t; unfold try_lock, try_lock_shared, try_lock_exclusive; cbn zeta.
  - destruct (has_foreign_exclusive _ o); [left|right]; (split_and!; [done|done|intros; cbn [snd]; auto]).
  - destruct (has_foreign_lock _ o); [left|right]; (split_and!; [done|done|intros; cbn [snd]; auto]).
Qed.

Lemma try_lock_waiting t r i o j : waiting (snd (try_lock t r i o)) j = waiting r j.
Proof.
  destruct t; unfold try_lock, try_lock_shared, try_lock_exclusive; cbn zeta; destruct (_ (state_of r i) o);
    cbn [snd]; rewrite waiting_insert; by destruct (decide (j = i)) as [->|].
Qed.

Lemma try_lock_ok t r i o : registry_ok r -> registry_ok (snd (try_lock t r i o)).
Proof. destruct t; simpl; auto with flock. Qed.

Lemma unlock_state r i o j :
  state_of (snd (unlock r i o)) j =
  if decide (j = i) then mkLocks (filter (fun e => le_owner_id e <> o) (ls_locks (state_of r i))) []
  else state_of r j.
Proof.
  unfold unlock. destruct (r !! i) as [s|] eqn:E; cbn [snd].
  - rewrite state_of_tidy. unfold state_of at 2. by rewrite E.
  - destruct (decide (j = i)) as [->|]; [|done]. unfold state_of. by rewrite E.
Qed.

Lemma unlock_waiters r i o : fst (unlock r i o) = waiting r i.
Proof. unfold unlock, waiting, state_of. by destruct (r !! i). Qed.

Lemma unlock_holds r i o j o' :
  holds (snd (unlock r i o)) j o' = if decide (j = i /\ o' = o) then None else holds r j o'.
Proof.
  unfold holds. rewrite unlock_state. destruct (decide (j = i)) as [->|].
  - cbn [ls_locks]. rewrite owner_lock_filter. destruct (Z.eqb_spec o' o), (decide _) as [[]|]; try done; tauto.
  - destruct (decide _) as [[]|]; done.
Qed.

Lemma unlock_waiting r i o j : waiting (snd (unlock r i o)) j = if decide (j = i) then [] else waiting r j.
Proof. unfold waiting. rewrite unlock_state. by destruct (decide (j = i)). Qed.

Lemma register_holds r i pid j o : holds (register_waiter r i pid) j o = holds r j o.
Proof.
  unfold register_waiter. rewrite holds_insert. destruct (decide (j = i)) as [->|]; [|done].
  unfold add_waiter. by destruct (existsb _ _).
Qed.

Lemma register_waiting r i pid j p :
  p ∈ waiting (register_waiter r i pid) j <-> p ∈ waiting r j \/ (j = i /\ p = pid).
Proof.
  unfold register_waiter. rewrite waiting_insert. destruct (decide (j = i)) as [->|]; [|tauto].
  unfold add_waiter, waiting. destruct (existsb _ _) eqn:E; [|set_solver].
  apply existsb_exists in E as (x & Hx%list_elem_of_In & ->%Z.eqb_eq). naive_solver.
Qed.

Lemma unregister_state r i pid j :
  state_of (unregister_waiter r i pid) j =
  if decide (j = i) then remove_waiter pid (state_of r i) else state_of r j.
Proof.
  unfold unregister_waiter. destruct (r !! i) as [s|] eqn:E; cbn zeta.
  - rewrite state_of_tidy. unfold state_of at 2. by rewrite E.
  - destruct (decide (j = i)) as [->|]; [|done]. unfold state_of. by rewrite E.
Qed.

Lemma unregister_holds r i pid j o : holds (unregister_waiter r i pid) j o = holds r j o.
Proof. unfold holds. rewrite unregister_state. by destruct (decide (j = i)) as [->|]. Qed.

Lemma unregister_waiting r i pid j p :
  p ∈ waiting (unregister_waiter r i pid) j <-> p ∈ waiting r j /\ ~ (j = i /\ p = pid).
Proof.
  unfold waiting. rewrite unregister_state. destruct (decide (j = i)) as [->|]; [|naive_solver].
  cbn [remove_waiter ls_waiters]. rewrite list_elem_of_filter. naive_solver.
Qed.

#[export] Hint Resolve try_lock_ok : flock.

Lemma exclusive_sole l o o' t :
  locks_ok l -> owner_lock l o = Some Exclusive -> owner_lock l o' = Some t -> o' = o.
Proof.
  intros [_ Hx] (e & He & <- & Ht)%owner_lock_elem (e' & He' & <- & _)%owner_lock_elem.
  rewrite (Hx e He Ht) in He'. by apply list_elem_of_singleton in He' as ->.
Qed.

(** ** Claims *)

(** C32.  The registry implements advisory reader/writer locks.  A request is
    granted exactly when no other owner holds a conflicting lock; a granted
    request gives the owner that lock (upgrading or downgrading one it had) and
    leaves every other lock alone, a refused one changes no lock and is
    [WouldBlock].  Unlocking removes the owner's lock on that inode and no
    other, and returns every process waiting there. *)
Theorem flock_refines t r i o (Hr : registry_ok r) :
  (fst (try_lock t r i o) = Ok tt <-> ~ conflicts r i o t) /\
  (fst (try_lock t r i o) <> Ok tt -> fst (try_lock t r i o) = Err WouldBlock) /\
  (forall j o', holds (snd (try_lock t r i o)) j o' =
     match fst (try_lock t r i o) with
     | Ok _ => if decide (j = i /\ o' = o) then Some t else holds r j o'
     | Err _ => holds r j o'
     end) /\
  (forall j o', holds (snd (unlock r i o)) j o' = if decide (j = i /\ o' = o) then None else holds r j o') /\
  fst (unlock r i o) = waiting r i /\ waiting (snd (unlock r i o)) i = [] /\
  registry_ok (snd (try_lock t r i o)) /\ registry_ok (snd (unlock r i o)).
Proof.
  split; [|split; [|split; [|split_and!; [apply unlock_holds|apply unlock_waiters| |auto with flock..]]]].
  4: { rewrite unlock_waiting. by destruct (decide (i = i)). }
  all: destruct (try_lock_spec t r i o Hr) as [(Hc & Hf & Hh)|(Hc & Hf & Hh)]; rewrite Hf; done.
Qed.

Lemma flock_refines_witness :
  fst (try_lock Shared (snd (try_lock Shared ∅ (1, 2) 7)) (1, 2) 8) = Ok tt.
Proof.
  destruct (flock_refines Shared (snd (try_lock Shared ∅ (1, 2) 7)) (1, 2) 8) as [H _].
  { apply try_lock_shared_ok, registry_ok_empty. }
  apply H. rewrite <- foreign_iff_conflict by (apply try_lock_shared_ok, registry_ok_empty).
  vm_compute. discriminate.
Defined.

(** Two distinct memory files, stat'ed, name the same inode: a lock on one
    excludes locks on the other. *)
Theorem memfd_locks_collide m1 m2 (H1 : memfd_len m1 < U64 - 511) (H2 : memfd_len m2 < U64 - 511) :
  exists s1 s2, memfd_stat m1 = Done (Ok s1) /\ memfd_stat m2 = Done (Ok s2) /\
    (st_dev s1, st_ino s1) = (st_dev s2, st_ino s2) /\
    fst (try_lock Exclusive (snd (try_lock Exclusive ∅ (st_dev s1, st_ino s1) 1)) (st_dev s2, st_ino s2) 2) =
      Err WouldBlock.
Proof.
  unfold memfd_stat, Stat_new, add64.
  rewrite !(proj2 (Z.ltb_lt _ _)) by lia. cbn [mbind outcome_bind mret outcome_ret].
  eexists _, _. split_and!; [done|done|done|]. vm_compute. reflexivity.
Qed.
