(* ===== verification/SysFile.v ===== *)
(** * System calls on descriptors
    ([kernel/syscall/syscall/src/{vfs,vfs_ext,uaccess}.rs])

    The calls that work through an open descriptor: they find the open file in
    the current process's table, act on the file and its vnode, and turn the
    outcome into a return value.  User memory is passed by value: a call gets
    the bytes it would copy in, and returns those it copies out. *)
From S2P Require Import Prelude Vnode MemFd OpenFile FdTable.

(** [errno] *)
Definition EBADF : Z := -9.
Definition EFAULT : Z := -14.
Definition EINVAL : Z := -22.
Definition ESRCH : Z := -3.
Definition EAGAIN : Z := -11.
Definition EMFILE : Z := -24.
Definition EINTR : Z := -4.

Definition USER_SPACE_END : Z := 0x800000000000.

(** [ptr.saturating_add(len)] *)
Definition saturating_add64 (a b : Z) : Z := Z.min (a + b) (U64 - 1).

Definition validate_user_buffer (ptr len : Z) : bool :=
  if ptr =? 0 then false
  else if USER_SPACE_END <=? ptr then false
  else negb (USER_SPACE_END <? saturating_add64 ptr len).

Definition KBUF_SIZE : nat := 2048.
Definition O_NONBLOCK : Z := 0x800.        (* 0o4000 *)
Definition O_CLOEXEC : Z := 0x80000.       (* 0o2000000 *)

Section syscalls.
Context {V : Type} `{VnodeOps V}.

(** The vnode's type, and its [ioctl] (an argument, a result, a new state). *)
Context (vn_vtype : V -> VnodeType) (vn_ioctl : V -> Z -> Z -> result Z VfsError * V).

(** Open file descriptions and vnodes are shared, so tables refer to them. *)
Record Kernel := mkKernel {
  k_table : option (@FdTable nat);         (* the current process's, when there is one *)
  k_files : gmap nat (File * nat);         (* description, its vnode *)
  k_vnodes : gmap nat V
}.

Definition set_table (t : @FdTable nat) (k : Kernel) : Kernel := mkKernel (Some t) (k_files k) (k_vnodes k).
Definition put_file (id : nat) (f : File) (vid : nat) (v : V) (k : Kernel) : Kernel :=
  mkKernel (k_table k) (<[id := (f, vid)]> (k_files k)) (<[vid := v]> (k_vnodes k)).

(** What a reference leads to; it is never dangling. *)
Definition deref (k : Kernel) (id : nat) : outcome (File * nat * V) :=
  match k_files k !! id with
  | Some (f, vid) => match k_vnodes k !! vid with Some v => mret (f, vid, v) | None => Fault end
  | None => Fault
  end.

(** [with_current_meta(|meta| meta.fd_table.get(fd).map(|e| e.file.clone()))],
    [none] when there is no current process. *)
Definition find_file (k : Kernel) (fd none : Z) : result nat Z :=
  match k_table k with
  | None => Err none
  | Some t => match fd_get t fd with Ok d => Ok (fd_file d) | Err e => Err (to_errno e) end
  end.

Definition sys_read_vfs (k : Kernel) (fd buf : Z) (count : nat) : outcome (Z * list Z * Kernel) :=
  if (count =? 0)%nat then mret (0, [], k) else
  if negb (validate_user_buffer buf (Z.of_nat count)) then mret (EFAULT, [], k) else
  match find_file k fd EBADF with
  | Err e => mret (e, [], k)
  | Ok id =>
      '(f, vid, v) ← deref k id;
      if (Z.land (file_flags f) O_NONBLOCK =? O_NONBLOCK) && negb (vn_poll_read_ready v) then mret (EAGAIN, [], k) else
      '(r, f', v') ← file_read f v (Nat.min count KBUF_SIZE);
      match r with
      | Ok bytes => mret (Z.of_nat (length bytes), bytes, put_file id f' vid v' k)
      | Err e => mret (to_errno e, [], put_file id f' vid v' k)
      end
  end.

(** [data] is the content of the caller's buffer, [count] bytes. *)
Definition sys_write_vfs (k : Kernel) (fd buf : Z) (data : list Z) : outcome (Z * Kernel) :=
  if (length data =? 0)%nat then mret (0, k) else
  if negb (validate_user_buffer buf (Z.of_nat (length data))) then mret (EFAULT, k) else
  match find_file k fd EBADF with
  | Err e => mret (e, k)
  | Ok id =>
      '(f, vid, v) ← deref k id;
      if (Z.land (file_flags f) O_NONBLOCK =? O_NONBLOCK) && negb (vn_poll_write_ready v) then mret (EAGAIN, k) else
      '(r, f', v') ← file_write f v (take KBUF_SIZE data);
      match r with
      | Ok n => mret (Z.of_nat n, put_file id f' vid v' k)
      | Err e => mret (to_errno e, put_file id f' vid v' k)
      end
  end.

(** The loop of [sys_writev] over (address, content) pairs. *)
Fixpoint writev_loop (k : Kernel) (fd : Z) (iovs : list (Z * list Z)) (total : Z) : outcome (Z * Kernel) :=
  match iovs with
  | [] => mret (total, k)
  | (base, data) :: rest =>
      if (length data =? 0)%nat then writev_loop k fd rest total else
      '(n, k') ← sys_write_vfs k fd base data;
      if n <? 0 then mret (if 0 <? total then total else n, k') else
      let total' := total + n in
      if n <? Z.of_nat (length data) then mret (total', k') else writev_loop k' fd rest total'
  end.

Definition sys_writev (k : Kernel) (fd iov_ptr : Z) (iovs : list (Z * list Z)) : outcome (Z * Kernel) :=
  let iovcnt := Z.of_nat (length iovs) in
  if (iovcnt <=? 0) || (1024 <? iovcnt) then mret (if iovcnt =? 0 then 0 else EINVAL, k) else
  if negb (validate_user_buffer iov_ptr (iovcnt * 16)) then mret (EFAULT, k) else
  writev_loop k fd iovs 0.

(** The loop of [sys_readv] over (address, length) pairs: what goes where. *)
Fixpoint readv_loop (k : Kernel) (fd : Z) (iovs : list (Z * nat)) (total : Z) (out : list (Z * list Z))
    : outcome (Z * list (Z * list Z) * Kernel) :=
  match iovs with
  | [] => mret (total, out, k)
  | (base, len) :: rest =>
      if (len =? 0)%nat then readv_loop k fd rest total out else
      '(n, bytes, k') ← sys_read_vfs k fd base len;
      let out' := out ++ [(base, bytes)] in
      if n <? 0 then mret (if 0 <? total then total else n, out', k') else
      let total' := total + n in
      if n <? Z.of_nat len then mret (total', out', k') else readv_loop k' fd rest total' out'
  end.

Definition sys_readv (k : Kernel) (fd iov_ptr : Z) (iovs : list (Z * nat)) : outcome (Z * list (Z * list Z) * Kernel) :=
  let iovcnt := Z.of_nat (length iovs) in
  if (iovcnt <=? 0) || (1024 <? iovcnt) then mret (if iovcnt =? 0 then 0 else EINVAL, [], k) else
  if negb (validate_user_buffer iov_ptr (iovcnt * 16)) then mret (EFAULT, [], k) else
  readv_loop k fd iovs 0 [].

Definition sys_pread64 (k : Kernel) (fd buf : Z) (count : nat) (offset : Z) : outcome (Z * list Z * Kernel) :=
  if offset <? 0 then mret (EINVAL, [], k) else
  if (count =? 0)%nat then mret (0, [], k) else
  if negb (validate_user_buffer buf (Z.of_nat count)) then mret (EFAULT, [], k) else
  match find_file k fd ESRCH with
  | Err e => mret (e, [], k)
  | Ok id =>
      '(f, vid, v) ← deref k id;
      '(r, v') ← vn_read v offset count;
      match r with
      | Ok bytes => mret (Z.of_nat (length bytes), bytes, put_file id f vid v' k)
      | Err e => mret (to_errno e, [], put_file id f vid v' k)
      end
  end.

Definition sys_pwrite64 (k : Kernel) (fd buf : Z) (data : list Z) (offset : Z) : outcome (Z * Kernel) :=
  if offset <? 0 then mret (EINVAL, k) else
  if (length data =? 0)%nat then mret (0, k) else
  if negb (validate_user_buffer buf (Z.of_nat (length data))) then mret (EFAULT, k) else
  match find_file k fd ESRCH with
  | Err e => mret (e, k)
  | Ok id =>
      '(f, vid, v) ← deref k id;
      '(r, v') ← vn_write v offset data;
      match r with
      | Ok n => mret (Z.of_nat n, put_file id f vid v' k)
      | Err e => mret (to_errno e, put_file id f vid v' k)
      end
  end.

Definition sys_lseek (k : Kernel) (fd offset whence : Z) : outcome (Z * Kernel) :=
  match find_file k fd ESRCH with
  | Err e => mret (e, k)
  | Ok id =>
      '(f, vid, v) ← deref k id;
      match (match whence with
             | 0 => Some (Start (offset mod U64))
             | 1 => Some (Current offset)
             | 2 => Some (End_ offset)
             | _ => None
             end) with
      | None => mret (EINVAL, k)
      | Some from =>
          '(r, f') ← file_seek f v from;
          match r with
          | Ok pos => mret (as_i64 pos, put_file id f' vid v k)
          | Err e => mret (to_errno e, put_file id f' vid v k)
          end
      end
  end.

Definition sys_ftruncate (k : Kernel) (fd length : Z) : outcome (Z * Kernel) :=
  match find_file k fd ESRCH with
  | Err e => mret (e, k)
  | Ok id =>
      '(f, vid, v) ← deref k id;
      '(r, v') ← file_truncate f v length;
      mret (match r with Ok _ => 0 | Err e => to_errno e end, put_file id f vid v' k)
  end.

Definition sys_dup (k : Kernel) (old_fd : Z) : Z * Kernel :=
  match k_table k with
  | None => (ESRCH, k)
  | Some t =>
      let '(r, t') := fd_dup t old_fd in
      (match r with Ok fd => fd | Err e => to_errno e end, set_table t' k)
  end.

Definition sys_fsync (k : Kernel) (fd : Z) : Z :=
  match k_table k with
  | None => ESRCH
  | Some t => match fd_get t fd with Ok _ => 0 | Err _ => EBADF end
  end.

(** ** [fcntl] *)

Definition F_DUPFD : Z := 0.
Definition F_GETFD : Z := 1.
Definition F_SETFD : Z := 2.
Definition F_GETFL : Z := 3.
Definition F_SETFL : Z := 4.
Definition F_DUPFD_CLOEXEC : Z := 1030.
Definition FD_CLOEXEC : Z := 1.
Definition TIOC_SET_NONBLOCK : Z := 0x5490.

(** [set_flags(from_bits_truncate(bits))] on an open file. *)
Definition store_flags (id : nat) (bits : Z) (k : Kernel) : Kernel :=
  mkKernel (k_table k) (alter (fun p => (set_file_flags (Z.land bits FILE_FLAGS_ALL) (fst p), snd p)) id (k_files k))
    (k_vnodes k).

(** [arg] is a [u64]; [arg as u32] and [arg as i32] truncate it. *)
Definition fcntl_setfl (k : Kernel) (id : nat) (arg : Z) : outcome (Z * Kernel) :=
  let flags_to_set := Z.land (arg mod U32) (Z.lor O_APPEND O_NONBLOCK) in
  '(f, vid, v) ← deref k id;
  let access_mode := Z.land (file_flags f) O_ACCMODE in
  let new_combined := Z.lor access_mode flags_to_set in
  let old_nonblock := Z.land (file_flags f) O_NONBLOCK =? O_NONBLOCK in
  let new_nonblock := negb (Z.land flags_to_set O_NONBLOCK =? 0) in
  match (if negb (Bool.eqb old_nonblock new_nonblock) then
           match vn_vtype v with
           | VtCharDevice => vn_ioctl v TIOC_SET_NONBLOCK (Z.b2z new_nonblock)
           | _ => (Ok 0, v)
           end
         else (Ok 0, v)) with
  | (Err e, v') => mret (to_errno e, put_file id f vid v' k)
  | (Ok _, v') => mret (0, store_flags id new_combined (put_file id f vid v' k))
  end.

(** A missing process and a bad descriptor give the same value. *)
Definition fcntl_file (k : Kernel) (fd : Z) : option (@FdTable nat * nat) :=
  t ← k_table k; id ← get_file t fd; Some (t, id).

Definition sys_fcntl (k : Kernel) (fd cmd arg : Z) : outcome (Z * Kernel) :=
  if cmd =? F_GETFD then
    match fcntl_file k fd with
    | Some (_, id) =>
        '(f, _, _) ← deref k id;
        mret (if Z.land (file_flags f) O_CLOEXEC =? 0 then 0 else FD_CLOEXEC, k)
    | None => mret (- EBADF, k)
    end
  else if cmd =? F_SETFD then
    match fcntl_file k fd with
    | Some (_, id) =>
        '(f, _, _) ← deref k id;
        let current := file_flags f in
        let new_flags := if Z.land (arg mod U32) FD_CLOEXEC =? 0 then Z.ldiff current O_CLOEXEC
                         else Z.lor current O_CLOEXEC in
        mret (0, store_flags id new_flags k)
    | None => mret (- EBADF, k)
    end
  else if (cmd =? F_DUPFD) || (cmd =? F_DUPFD_CLOEXEC) then
    match fcntl_file k fd with
    | Some (t, id) =>
        '(f, _, _) ← deref k id;
        let k1 := if cmd =? F_DUPFD_CLOEXEC then store_flags id (Z.lor (file_flags f) O_CLOEXEC) k else k in
        match alloc_at_least t (as_i32 arg) id with
        | (Ok new_fd, t') => mret (new_fd, set_table t' k1)
        | (Err _, t') => mret (- EMFILE, set_table t' k1)
        end
    | None => mret (- EBADF, k)
    end
  else if cmd =? F_GETFL then
    match fcntl_file k fd with
    | Some (_, id) => '(f, _, _) ← deref k id; mret (file_flags f, k)
    | None => mret (- EBADF, k)
    end
  else if cmd =? F_SETFL then
    match fcntl_file k fd with
    | Some (_, id) => fcntl_setfl k id arg
    | None => mret (- EBADF, k)
    end
  else mret (- EINVAL, k).

End syscalls.

(** ** What a descriptor refers to *)

Section opened.
Context {V : Type} `{RegularFile V}.
Implicit Types (k : @Kernel V) (v : V).

(** Descriptor [fd] of the current process is open on [f], over vnode [v]. *)
Record opened k (fd : Z) (id : nat) (f : File) (vid : nat) (v : V) : Prop := {
  op_file : exists t, k_table k = Some t /\ get_file t fd = Some id;
  op_desc : k_files k !! id = Some (f, vid);
  op_vnode : k_vnodes k !! vid = Some v
}.

Lemma opened_find k fd id f vid v none : opened k fd id f vid v -> find_file k fd none = Ok id.
Proof.
  intros [(t & Ht & Hg) _ _]. unfold find_file. rewrite Ht. unfold get_file in Hg.
  destruct (fd_get t fd) as [d|]; [|done]. by injection Hg as <-.
Qed.

Lemma opened_deref k fd id f vid v : opened k fd id f vid v -> deref k id = Done (f, vid, v).
Proof. intros [_ Hd Hv]. unfold deref. by rewrite Hd, Hv. Qed.

Lemma opened_fcntl k fd id f vid v :
  opened k fd id f vid v -> exists t, k_table k = Some t /\ fcntl_file k fd = Some (t, id).
Proof. intros [(t & Ht & Hg) _ _]. exists t. split; [done|]. unfold fcntl_file. rewrite Ht. simpl. by rewrite Hg. Qed.

Lemma opened_put k fd id f vid v f' v' :
  opened k fd id f vid v -> opened (put_file id f' vid v' k) fd id f' vid v'.
Proof. intros [Ht _ _]. split; [done|apply lookup_insert_eq|apply lookup_insert_eq]. Qed.

Lemma opened_store k fd id f vid v bits :
  opened k fd id f vid v ->
  opened (store_flags id bits k) fd id (set_file_flags (Z.land bits FILE_FLAGS_ALL) f) vid v.
Proof. intros [Ht Hd Hv]. split; [done| |done]. simpl. by rewrite lookup_alter_eq, Hd. Qed.

Lemma put_put k id f vid v f' v' : put_file id f' vid v' (put_file id f vid v k) = put_file id f' vid v' k.
Proof. unfold put_file. simpl. by rewrite !insert_insert_eq. Qed.

(** Where the next write goes. *)
Definition write_pos (f : File) (v : V) : Z :=
  if Z.land (file_flags f) O_APPEND =? O_APPEND then Z.of_nat (length (rf_bytes v)) else f_position f.

(** The vnode takes a write without blocking. *)
Definition ready_to_write (f : File) (v : V) : Prop :=
  (Z.land (file_flags f) O_NONBLOCK =? O_NONBLOCK) = false \/ vn_poll_write_ready v = true.

(** A write of [data], at most a buffer's worth of it. *)
Lemma sys_write_ok k fd id f vid v buf data :
  opened k fd id f vid v -> validate_user_buffer buf (Z.of_nat (length data)) = true ->
  ready_to_write f v -> rf_writable v -> writable (file_flags f) = true -> data <> [] ->
  0 <= write_pos f v -> write_pos f v + Z.of_nat (length (take KBUF_SIZE data)) <= ISIZE_MAX ->
  exists v', rf_writable v' /\
    sys_write_vfs k fd buf data =
      Done (Z.of_nat (length (take KBUF_SIZE data)),
            put_file id (set_position (write_pos f v + Z.of_nat (length (take KBUF_SIZE data))) f) vid v' k) /\
    rf_bytes v' = splice (rf_bytes v) (Z.to_nat (write_pos f v)) (take KBUF_SIZE data).
Proof.
  intros Ho Hb Hr Hv Hw Hd Hp Hm. unfold sys_write_vfs. destruct data as [|c data]; [done|]. cbn [length Nat.eqb].
  cbn [length] in Hb. rewrite Hb, (opened_find _ _ _ _ _ _ _ Ho), (opened_deref _ _ _ _ _ _ Ho).
  cbn [negb mbind outcome_bind].
  assert ((Z.land (file_flags f) O_NONBLOCK =? O_NONBLOCK) && negb (vn_poll_write_ready v) = false) as ->.
  { destruct Hr as [->| ->]; [done|apply andb_false_r]. }
  destruct (file_write_ok f v (take KBUF_SIZE (c :: data)) Hv Hw Hp Hm) as (v' & -> & Hv' & Hs).
  cbn [mbind outcome_bind mret outcome_ret]. by exists v'.
Qed.

(** The bytes a gathering write takes: whole buffers up to the first one that
    is longer than the kernel's, and the start of that one. *)
Fixpoint gather (bufs : list (list Z)) : list Z :=
  match bufs with
  | [] => []
  | d :: rest => take KBUF_SIZE d ++ (if (length d <=? KBUF_SIZE)%nat then gather rest else [])
  end.

(** [k'] is [k] after [g] was written through the file. *)
Definition wrote (id : nat) (f : File) (vid : nat) (v : V) (g : list Z) k k' (v' : V) : Prop :=
  (g = [] /\ k' = k /\ v' = v) \/
  (g <> [] /\ k' = put_file id (set_position (write_pos f v + Z.of_nat (length g)) f) vid v' k /\
   rf_bytes v' = splice (rf_bytes v) (Z.to_nat (write_pos f v)) g).

(** The position after a write is where the next one goes. *)
Lemma write_pos_next f v v' g :
  0 <= write_pos f v -> rf_bytes v' = splice (rf_bytes v) (Z.to_nat (write_pos f v)) g ->
  write_pos (set_position (write_pos f v + Z.of_nat (length g)) f) v' = write_pos f v + Z.of_nat (length g).
Proof.
  intros Hp Hs. unfold write_pos in *.
  change (file_flags (set_position _ f)) with (file_flags f). destruct (_ =? _); [|done].
  rewrite Hs, splice_length. lia.
Qed.

Lemma wrote_trans id f vid v g k v1 h k' v' :
  g <> [] -> 0 <= write_pos f v -> rf_bytes v1 = splice (rf_bytes v) (Z.to_nat (write_pos f v)) g ->
  let f1 := set_position (write_pos f v + Z.of_nat (length g)) f in
  wrote id f1 vid v1 h (put_file id f1 vid v1 k) k' v' -> wrote id f vid v (g ++ h) k k' v'.
Proof.
  intros Hg Hp Hs f1 [(-> & -> & ->)|(Hh & -> & Hs')]; right.
  - rewrite app_nil_r. auto.
  - split; [by destruct g|]. unfold f1 in *. rewrite (write_pos_next f v v1 g Hp Hs) in *. rewrite put_put.
    split; [f_equal; unfold set_position; simpl; f_equal; rewrite length_app; lia|].
    rewrite Hs', Hs, Z2Nat.inj_add, Nat2Z.id by lia. apply splice_splice.
Qed.

Lemma writev_loop_ok iovs : forall k fd id f vid v total,
  opened k fd id f vid v -> Forall (fun p => validate_user_buffer (fst p) (Z.of_nat (length (snd p))) = true) iovs ->
  (Z.land (file_flags f) O_NONBLOCK =? O_NONBLOCK) = false -> rf_writable v -> writable (file_flags f) = true ->
  0 <= write_pos f v -> write_pos f v + Z.of_nat (length (gather (snd <$> iovs))) <= ISIZE_MAX ->
  exists k' v', rf_writable v' /\ wrote id f vid v (gather (snd <$> iovs)) k k' v' /\
    writev_loop k fd iovs total = Done (total + Z.of_nat (length (gather (snd <$> iovs))), k').
Proof.
  induction iovs as [|[base data] iovs IH]; intros k fd id f vid v total Ho Hb Hn Hv Hw Hp Hm; cbn [writev_loop].
  { exists k, v. rewrite Z.add_0_r. split_and!; [done|by left|done]. }
  apply Forall_cons in Hb as [Hb Hbs]. cbn [fst snd fmap list_fmap gather] in *.
  destruct data as [|c data]; cbn [length Nat.eqb]; [exact (IH k fd id f vid v total Ho Hbs Hn Hv Hw Hp Hm)|].
  set (d := c :: data) in *. rewrite length_app in Hm.
  destruct (sys_write_ok k fd id f vid v base d Ho Hb (or_introl Hn) Hv Hw ltac:(done) Hp ltac:(lia))
    as (v1 & Hv1 & -> & Hs). cbn [mbind outcome_bind].
  rewrite (proj2 (Z.ltb_ge _ _)) by lia. set (g := take KBUF_SIZE d) in *.
  assert (length g = Nat.min KBUF_SIZE (length d)) as Hg by apply length_take.
  assert (g <> []) as Hne by done.
  change (S (length data)) with (length d).
  destruct (le_lt_dec (length d) KBUF_SIZE) as [Hle|Hgt].
  - rewrite (proj2 (Nat.leb_le _ _) Hle) in *. rewrite (proj2 (Z.ltb_ge _ _)) by lia.
    pose proof (write_pos_next f v v1 g Hp Hs) as Hnext.
    destruct (IH _ fd id _ vid v1 (total + Z.of_nat (length g)) (opened_put k fd id f vid v
      (set_position (write_pos f v + Z.of_nat (length g)) f) v1 Ho) Hbs Hn Hv1 Hw)
      as (k' & v' & Hv' & Hwr & ->); [rewrite Hnext; lia..|].
    exists k', v'. split_and!; [done|exact (wrote_trans id f vid v g k v1 _ k' v' Hne Hp Hs Hwr)|]. rewrite length_app. do 2 f_equal. lia.
  - rewrite (proj2 (Nat.leb_gt _ _) Hgt) in *.
    rewrite (proj2 (Z.ltb_lt _ _)) by lia.
    rewrite app_nil_r. exists (put_file id (set_position (write_pos f v + Z.of_nat (length g)) f) vid v1 k), v1.
    split_and!; [done|by right|done].
Qed.

Lemma gather_prefix bufs : gather bufs `prefix_of` concat bufs.
Proof.
  induction bufs as [|d bufs IH]; [done|]. cbn [gather concat]. destruct (Nat.leb_spec (length d) KBUF_SIZE).
  - rewrite take_ge by lia. by apply prefix_app.
  - rewrite app_nil_r. etrans; [apply prefix_take|]. by apply prefix_app_r.
Qed.

Lemma gather_all bufs : Forall (fun d => (length d <= KBUF_SIZE)%nat) bufs -> gather bufs = concat bufs.
Proof.
  induction 1 as [|d bufs Hd _ IH]; [done|]. cbn [gather concat]. by rewrite (proj2 (Nat.leb_le _ _) Hd), take_ge, IH.
Qed.

End opened.

(** ** Claims *)

(** A process with one descriptor, 0, open with [flags] on a memory file. *)
Definition one_file (flags : Z) (m : MemFd) : @Kernel MemFd :=
  mkKernel (Some (mkTable [Some (FileDescriptor_new 0%nat)] 256)) {[0%nat := (File_new 1 flags, 0%nat)]} {[0%nat := m]}.

Lemma one_file_opened flags m : opened (one_file flags m) 0 0 (File_new 1 flags) 0 m.
Proof.
  split; [|apply lookup_singleton_eq..]. exists (mkTable [Some (FileDescriptor_new 0%nat)] 256). split; reflexivity.
Qed.

(** C31.  Gathering writes.  [writev] through a blocking, writable descriptor of
    a regular file writes, without gap or overlap from the position (the end of
    the file with [O_APPEND]), a prefix of the concatenated buffers, all of
    them when none is longer than the kernel's buffer; it returns the number of
    bytes written, leaves the position behind them, and touches no other file
    or vnode. *)
Theorem writev_gathers {V} `{RegularFile V} (k : @Kernel V) fd id f vid v iov_ptr iovs
    (Ho : opened k fd id f vid v) (Hn : 0 < Z.of_nat (length iovs) <= 1024)
    (Hi : validate_user_buffer iov_ptr (Z.of_nat (length iovs) * 16) = true)
    (Hb : Forall (fun p => validate_user_buffer (fst p) (Z.of_nat (length (snd p))) = true) iovs)
    (Hnb : (Z.land (file_flags f) O_NONBLOCK =? O_NONBLOCK) = false)
    (Hv : rf_writable v) (Hw : writable (file_flags f) = true) (Hp : 0 <= write_pos f v)
    (Hm : write_pos f v + Z.of_nat (length (concat (snd <$> iovs))) <= ISIZE_MAX) :
  exists g k' v', g `prefix_of` concat (snd <$> iovs) /\
    (Forall (fun p => (length (snd p) <= KBUF_SIZE)%nat) iovs -> g = concat (snd <$> iovs)) /\
    sys_writev k fd iov_ptr iovs = Done (Z.of_nat (length g), k') /\ wrote id f vid v g k k' v'.
Proof.
  pose proof (gather_prefix (snd <$> iovs)) as Hpre. pose proof (prefix_length _ _ Hpre) as Hlen.
  destruct (writev_loop_ok iovs k fd id f vid v 0 Ho Hb Hnb Hv Hw Hp ltac:(lia)) as (k' & v' & _ & Hwr & Hloop).
  exists (gather (snd <$> iovs)), k', v'. split_and!; [done| | |done].
  - intros Hs. apply gather_all. by apply Forall_fmap.
  - unfold sys_writev. rewrite (proj2 (Z.leb_gt _ _)), (proj2 (Z.ltb_ge _ _)), Hi by lia. exact Hloop.
Qed.

Lemma writev_gathers_witness :
  exists k' v', sys_writev (one_file O_RDWR MemFd_new) 0 4096 [(8192, [1; 2]); (8200, []); (8300, [3])] = Done (3, k') /\
    k_vnodes k' !! 0%nat = Some v' /\ mf_data v' = [1; 2; 3].
Proof.
  destruct (writev_gathers (one_file O_RDWR MemFd_new) 0 0%nat (File_new 1 O_RDWR) 0%nat MemFd_new 4096
    [(8192, [1; 2]); (8200, []); (8300, [3])]) as (g & k' & v' & _ & Hg & Hs & Hw).
  - apply one_file_opened.
  - vm_compute. split; congruence.
  - vm_compute. reflexivity.
  - repeat constructor.
  - vm_compute. reflexivity.
  - split; reflexivity.
  - vm_compute. reflexivity.
  - vm_compute. congruence.
  - vm_compute. congruence.
  - assert (g = [1; 2; 3]) as ->. { rewrite Hg; [reflexivity|]. repeat constructor; vm_compute; lia. }
    exists k', v'. split; [exact Hs|]. destruct Hw as [(? & _)|(_ & -> & Hb)]; [discriminate|].
    split; [apply lookup_insert_eq|]. exact Hb.
Defined.

(** Positional writes.  [pwrite64] then [pread64] at the same offset gives
    the bytes back and moves no position; neither consults the access mode: it
    also works through a descriptor opened read-only (where [write] is refused)
    or write-only (where [read] is). *)
Theorem pwrite_pread {V} `{RegularFile V} (k : @Kernel V) fd id f vid v buf data offset
    (Ho : opened k fd id f vid v) (Hb : validate_user_buffer buf (Z.of_nat (length data)) = true)
    (Hv : rf_writable v) (Hd : data <> []) (Hoff : 0 <= offset) (Hm : offset + Z.of_nat (length data) <= ISIZE_MAX) :
  exists k' v', sys_pwrite64 k fd buf data offset = Done (Z.of_nat (length data), k') /\
    opened k' fd id f vid v' /\ rf_bytes v' = splice (rf_bytes v) (Z.to_nat offset) data /\
    exists k'', sys_pread64 k' fd buf (length data) offset = Done (Z.of_nat (length data), data, k'') /\
      opened k'' fd id f vid v'.
Proof.
  destruct (rf_write_ok v offset data Hv Hoff Hm) as (v' & Hwr & _ & Hs).
  pose proof (opened_put k fd id f vid v f v' Ho) as Ho'. set (k' := put_file id f vid v' k) in *.
  exists k', v'. split_and!; [|done|done|].
  - unfold sys_pwrite64. rewrite (proj2 (Z.ltb_ge offset 0)), Hb by done. destruct data as [|c data]; [done|].
    cbn [length Nat.eqb negb]. rewrite (opened_find _ _ _ _ _ _ _ Ho), (opened_deref _ _ _ _ _ _ Ho).
    cbn [mbind outcome_bind]. rewrite Hwr. done.
  - exists (put_file id f vid v' k'). split; [|by eapply opened_put].
    unfold sys_pread64. rewrite (proj2 (Z.ltb_ge offset 0)), Hb by done.
    destruct (Nat.eqb_spec (length data) 0) as [E|_]; [by apply nil_length_inv in E|].
    cbn [negb]. rewrite (opened_find _ _ _ _ _ _ _ Ho'), (opened_deref _ _ _ _ _ _ Ho').
    cbn [mbind outcome_bind]. rewrite rf_read_ok, Hs, splice_read by done. done.
Qed.

Lemma pwrite_pread_witness :
  (exists k', sys_pwrite64 (one_file O_RDONLY MemFd_new) 0 4096 [7; 8] 0 = Done (2, k') /\
     option_map mf_data (k_vnodes k' !! 0%nat) = Some [7; 8]) /\
  (exists k', sys_write_vfs (one_file O_RDONLY MemFd_new) 0 4096 [7; 8] = Done (to_errno PermissionDenied, k')).
Proof.
  split; [|eexists; vm_compute; reflexivity].
  destruct (pwrite_pread (one_file O_RDONLY MemFd_new) 0 0%nat (File_new 1 O_RDONLY) 0%nat MemFd_new 4096 [7; 8] 0)
    as (k' & v' & Hw & Ho & Hs & _).
  - apply one_file_opened.
  - vm_compute. reflexivity.
  - split; reflexivity.
  - discriminate.
  - vm_compute. congruence.
  - vm_compute. congruence.
  - exists k'. split; [exact Hw|]. destruct Ho as [_ _ ->]. simpl in Hs |- *. rewrite Hs. reflexivity.
Defined.

(** [lseek] to a negative absolute offset succeeds: the position becomes that
    number modulo 2^64, and the value returned is the negative offset. *)
Theorem lseek_negative {V} `{RegularFile V} (k : @Kernel V) fd id f vid v offset
    (Ho : opened k fd id f vid v) (Hoff : - 2 ^ 63 <= offset < 0) :
  sys_lseek k fd offset 0 = Done (offset, put_file id (set_position (offset + U64) f) vid v k).
Proof.
  unfold sys_lseek. rewrite (opened_find _ _ _ _ _ _ _ Ho), (opened_deref _ _ _ _ _ _ Ho).
  cbn [mbind outcome_bind]. unfold file_seek. rewrite rf_size_ok. cbn [mbind outcome_bind mret outcome_ret].
  assert (offset mod U64 = offset + U64) as ->.
  { rewrite <- (Z.mod_add offset 1 U64), Z.mul_1_l, Z.mod_small by (unfold U64; lia). done. }
  unfold as_i64. replace (offset + U64 + 2 ^ 63) with (offset + 2 ^ 63 + 1 * U64) by lia.
  rewrite Z.mod_add, Z.mod_small by (unfold U64; lia). do 3 f_equal. lia.
Qed.

(** ** [fcntl] *)

Lemma file_flags_stored bits f : file_flags (set_file_flags (Z.land bits FILE_FLAGS_ALL) f) = Z.land bits FILE_FLAGS_ALL.
Proof. unfold file_flags. simpl. by rewrite <- Z.land_assoc, Z.land_diag. Qed.

Lemma setfl_bits ff a :
  Z.land (Z.lor (Z.land ff O_ACCMODE) (Z.land a (Z.lor O_APPEND O_NONBLOCK))) FILE_FLAGS_ALL =
  Z.lor (Z.land ff O_ACCMODE) (Z.land a (Z.lor O_APPEND O_NONBLOCK)).
Proof. rewrite Z.land_lor_distr_l, <- !Z.land_assoc. reflexivity. Qed.

Lemma setfl_accmode ff a :
  Z.land (Z.lor (Z.land ff O_ACCMODE) (Z.land a (Z.lor O_APPEND O_NONBLOCK))) O_ACCMODE = Z.land ff O_ACCMODE.
Proof.
  rewrite Z.land_lor_distr_l, <- !Z.land_assoc. change (Z.land (Z.lor O_APPEND O_NONBLOCK) O_ACCMODE) with 0.
  by rewrite Z.land_0_r, Z.lor_0_r.
Qed.

Lemma setfd_on ff : Z.land (Z.land (Z.lor ff O_CLOEXEC) FILE_FLAGS_ALL) O_CLOEXEC = O_CLOEXEC.
Proof.
  rewrite <- Z.land_assoc. change (Z.land FILE_FLAGS_ALL O_CLOEXEC) with O_CLOEXEC.
  apply Z.bits_inj'. intros n _. rewrite Z.land_spec, Z.lor_spec. by destruct (Z.testbit ff n), (Z.testbit O_CLOEXEC n).
Qed.

Lemma setfd_off ff : Z.land (Z.land (Z.ldiff ff O_CLOEXEC) FILE_FLAGS_ALL) O_CLOEXEC = 0.
Proof.
  rewrite <- Z.land_assoc. change (Z.land FILE_FLAGS_ALL O_CLOEXEC) with O_CLOEXEC.
  apply Z.bits_inj'. intros n _. rewrite Z.land_spec, Z.ldiff_spec, Z.bits_0.
  by destruct (Z.testbit ff n), (Z.testbit O_CLOEXEC n).
Qed.

Lemma land_cloexec_arg a : Z.land a FD_CLOEXEC = if Z.land a FD_CLOEXEC =? 0 then 0 else 1.
Proof.
  unfold FD_CLOEXEC. change 1 with (Z.ones 1) at 1 2. rewrite Z.land_ones by lia.
  pose proof (Z.mod_pos_bound a (2 ^ 1) ltac:(lia)). destruct (Z.eqb_spec (a mod 2 ^ 1) 0); lia.
Qed.

Section fcntl.
Context {V : Type} `{RegularFile V} (vtype : V -> VnodeType) (ioctl : V -> Z -> Z -> result Z VfsError * V).
Implicit Types (k : @Kernel V) (v : V).

Lemma fcntl_getfl_ok k fd id f vid v :
  opened k fd id f vid v -> sys_fcntl vtype ioctl k fd F_GETFL 0 = Done (file_flags f, k).
Proof.
  intros Ho. destruct (opened_fcntl _ _ _ _ _ _ Ho) as (t & _ & Hf). unfold sys_fcntl.
  cbn [F_GETFL F_GETFD F_SETFD F_DUPFD F_DUPFD_CLOEXEC Z.eqb Pos.eqb orb].
  rewrite Hf, (opened_deref _ _ _ _ _ _ Ho). done.
Qed.

Lemma fcntl_setfl_ok k fd id f vid v arg :
  opened k fd id f vid v -> vtype v <> VtCharDevice ->
  let bits := Z.lor (Z.land (file_flags f) O_ACCMODE) (Z.land (arg mod U32) (Z.lor O_APPEND O_NONBLOCK)) in
  exists k', sys_fcntl vtype ioctl k fd F_SETFL arg = Done (0, k') /\
    (forall e, opened k e id f vid v -> opened k' e id (set_file_flags (Z.land bits FILE_FLAGS_ALL) f) vid v) /\
    k_table k' = k_table k.
Proof.
  intros Ho Ht bits. destruct (opened_fcntl _ _ _ _ _ _ Ho) as (t & _ & Hf).
  exists (store_flags id bits (put_file id f vid v k)). split_and!; [|intros e He; by eapply opened_store, opened_put|done].
  unfold sys_fcntl. cbn [F_SETFL F_GETFL F_GETFD F_SETFD F_DUPFD F_DUPFD_CLOEXEC Z.eqb Pos.eqb orb]. rewrite Hf.
  unfold fcntl_setfl. rewrite (opened_deref _ _ _ _ _ _ Ho). cbn [mbind outcome_bind].
  destruct (negb (Bool.eqb _ _)); [|done]. by destruct (vtype v).
Qed.

Lemma fcntl_setfd_ok k fd id f vid v arg :
  opened k fd id f vid v ->
  let bits := if Z.land (arg mod U32) FD_CLOEXEC =? 0 then Z.ldiff (file_flags f) O_CLOEXEC
              else Z.lor (file_flags f) O_CLOEXEC in
  exists k', sys_fcntl vtype ioctl k fd F_SETFD arg = Done (0, k') /\
    forall e, opened k e id f vid v -> opened k' e id (set_file_flags (Z.land bits FILE_FLAGS_ALL) f) vid v.
Proof.
  intros Ho bits. destruct (opened_fcntl _ _ _ _ _ _ Ho) as (t & _ & Hf).
  exists (store_flags id bits k). split; [|intros e He; by eapply opened_store].
  unfold sys_fcntl. cbn [F_GETFD F_SETFD Z.eqb Pos.eqb]. rewrite Hf, (opened_deref _ _ _ _ _ _ Ho). done.
Qed.

End fcntl.

(** Descriptor flags.  [F_SETFL] succeeds on every vnode that is not a
    character device; [F_GETFL] then reports the access mode the file was
    opened with and exactly the requested ones of [O_APPEND] and [O_NONBLOCK].
    [F_GETFD] reports what [F_SETFD] last set.  The flags live in the open file
    description: the answers hold for every descriptor that shares it. *)
Theorem fcntl_flags {V} `{RegularFile V} (vtype : V -> VnodeType) ioctl (k : @Kernel V) fd fd' id f vid v arg
    (Ho : opened k fd id f vid v) (Ho' : opened k fd' id f vid v) (Ht : vtype v <> VtCharDevice) :
  (exists k', sys_fcntl vtype ioctl k fd F_SETFL arg = Done (0, k') /\
     sys_fcntl vtype ioctl k' fd' F_GETFL 0 =
       Done (Z.lor (Z.land (file_flags f) O_ACCMODE) (Z.land (arg mod U32) (Z.lor O_APPEND O_NONBLOCK)), k') /\
     exists f', opened k' fd id f' vid v /\ Z.land (file_flags f') O_ACCMODE = Z.land (file_flags f) O_ACCMODE /\
       f_position f' = f_position f) /\
  (exists k', sys_fcntl vtype ioctl k fd F_SETFD arg = Done (0, k') /\
     sys_fcntl vtype ioctl k' fd' F_GETFD 0 = Done (Z.land (arg mod U32) FD_CLOEXEC, k')).
Proof.
  split.
  - destruct (fcntl_setfl_ok vtype ioctl k fd id f vid v arg Ho Ht) as (k' & Hs & Hk' & _). exists k'.
    pose proof (Hk' fd' Ho') as Hopen'. split_and!; [done| |].
    { by rewrite (fcntl_getfl_ok _ _ _ _ _ _ _ _ Hopen'), file_flags_stored, setfl_bits. }
    eexists. split; [exact (Hk' fd Ho)|]. rewrite file_flags_stored, setfl_bits. split; [apply setfl_accmode|done].
  - destruct (fcntl_setfd_ok vtype ioctl k fd id f vid v arg Ho) as (k' & Hs & Hk'). exists k'. split; [done|].
    destruct (opened_fcntl _ _ _ _ _ _ (Hk' fd' Ho')) as (t & _ & Hf).
    unfold sys_fcntl. cbn [F_GETFD Z.eqb Pos.eqb]. rewrite Hf, (opened_deref _ _ _ _ _ _ (Hk' fd' Ho')).
    cbn [mbind outcome_bind]. rewrite file_flags_stored. pose proof (land_cloexec_arg (arg mod U32)) as E.
    destruct (Z.land (arg mod U32) FD_CLOEXEC =? 0); rewrite E; [by rewrite setfd_off|by rewrite setfd_on].
Qed.

Lemma fcntl_flags_witness :
  exists k', sys_fcntl (fun _ => VtFile) (fun m _ _ => (Ok 0, m)) (one_file O_RDWR MemFd_new) 0 F_SETFL 0xC00 = Done (0, k') /\
    sys_fcntl (fun _ => VtFile) (fun m _ _ => (Ok 0, m)) k' 0 F_GETFL 0 = Done (0xC02, k').
Proof.
  destruct (fcntl_flags (fun _ => VtFile) (fun m _ _ => (Ok 0, m)) (one_file O_RDWR MemFd_new) 0 0 0%nat
    (File_new 1 O_RDWR) 0%nat MemFd_new 0xC00) as [(k' & H1 & H2 & _) _];
    [apply one_file_opened|apply one_file_opened|discriminate|]. exists k'. split; [exact H1|exact H2].
Defined.

(** The error values of [sys_fcntl] are positive: the constants of [errno] are
    negative, and it negates them once more.  On a descriptor that is not open
    every command but an unknown one returns 9, which for [F_DUPFD] is a
    descriptor number. *)
Theorem fcntl_errors_positive {V} (vtype : V -> VnodeType) ioctl (k : @Kernel V) fd cmd arg
    (Hf : fcntl_file k fd = None) :
  exists e, 0 < e /\ sys_fcntl vtype ioctl k fd cmd arg = Done (e, k) /\
    (cmd = F_DUPFD -> e = 9).
Proof.
  unfold sys_fcntl. rewrite Hf.
  destruct (Z.eqb_spec cmd F_GETFD) as [->|]; [exists 9; done|]. destruct (Z.eqb_spec cmd F_SETFD) as [->|]; [exists 9; done|].
  destruct (Z.eqb_spec cmd F_DUPFD) as [->|]; [exists 9; done|].
  destruct (cmd =? F_DUPFD_CLOEXEC); cbn [orb]; [exists 9; split_and!; done|].
  destruct (cmd =? F_GETFL); [exists 9; split_and!; done|]. destruct (cmd =? F_SETFL); [exists 9; split_and!; done|].
  exists 22. split_and!; done.
Qed.

(** [F_SETFL] clears the close-on-exec flag that [F_SETFD] set. *)
Theorem setfl_clears_cloexec :
  let call := sys_fcntl (fun _ : MemFd => VtFile) (fun m _ _ => (Ok 0, m)) in
  ('(_, k1) ← call (one_file O_RDWR MemFd_new) 0 F_SETFD FD_CLOEXEC;
   '(before, _) ← call k1 0 F_GETFD 0;
   '(_, k2) ← call k1 0 F_SETFL O_APPEND;
   '(after, _) ← call k2 0 F_GETFD 0;
   mret (before, after)) = Done (FD_CLOEXEC, 0).
Proof. vm_compute. reflexivity. Qed.
