(* ===== verification/FlockSys.v ===== *)
(** * The [flock] system call under interleaving
    ([sys_flock], [sys_flock_blocking] of [kernel/syscall/syscall/src/vfs.rs])

    Tasks run [sys_flock] on shared open files; every access to the registry or
    to a file's flag is one step, and steps of different tasks interleave
    freely.  A history is a list of events; [run] executes it.  Whether a
    signal is pending when a waiter looks is chosen by the event.  [HLT] may
    end at any moment, so a sleeper may always continue; [s_woken] records
    which tasks were woken since they last registered. *)
From S2P Require Import Prelude Vnode OpenFile Flock SysFile.

(** Where a task is inside [sys_flock], on the file with owner identity [o]. *)
Inductive Pc :=
| PNb (o : Z) (t : LockType)          (* LOCK_NB: about to try *)
| PTop (o : Z) (t : LockType)         (* head of the blocking loop *)
| PTry (o : Z) (t : LockType)         (* registered as a waiter *)
| PGot (o : Z) (t : LockType)         (* granted, still registered *)
| PCheck (o : Z) (t : LockType)       (* refused *)
| PSleep (o : Z) (t : LockType)
| PMark (o : Z) (t : LockType)        (* about to mark_flock_held *)
| PUnlock (o : Z)
| PClear (o : Z) (ws : list Z)        (* about to clear_flock_held *)
| PWake (o : Z) (ws : list Z).        (* about to wake the waiters *)

Definition pc_owner (pc : Pc) : Z :=
  match pc with
  | PNb o _ | PTop o _ | PTry o _ | PGot o _ | PCheck o _ | PSleep o _ | PMark o _
  | PUnlock o | PClear o _ | PWake o _ => o
  end.

Record Sys := mkSys {
  s_reg : Registry;
  s_next : Z;                               (* NEXT_OWNER_ID *)
  s_files : gmap Z (InodeId * File);        (* open files by owner identity, with what stat answers *)
  s_tasks : gmap Z Pc;                      (* by pid *)
  s_woken : gset Z;
  s_rets : list (Z * Z)                     (* pid, value returned; newest first *)
}.

Definition sys_init : Sys := mkSys ∅ 1 ∅ ∅ ∅ [].

Definition set_reg (r : Registry) (s : Sys) : Sys :=
  mkSys r (s_next s) (s_files s) (s_tasks s) (s_woken s) (s_rets s).
Definition goto (pid : Z) (pc : Pc) (s : Sys) : Sys :=
  mkSys (s_reg s) (s_next s) (s_files s) (<[pid := pc]> (s_tasks s)) (s_woken s) (s_rets s).
Definition return_ (pid v : Z) (s : Sys) : Sys :=
  mkSys (s_reg s) (s_next s) (s_files s) (delete pid (s_tasks s)) (s_woken s) ((pid, v) :: s_rets s).
Definition set_woken (w : gset Z) (s : Sys) : Sys :=
  mkSys (s_reg s) (s_next s) (s_files s) (s_tasks s) w (s_rets s).
Definition on_file (o : Z) (g : File -> File) (s : Sys) : Sys :=
  mkSys (s_reg s) (s_next s) (alter (fun p => (fst p, g (snd p))) o (s_files s)) (s_tasks s) (s_woken s) (s_rets s).

(** The start of the call: [file] is the open file the descriptor refers to,
    if any: its owner identity and the inode that [stat] answers.  Where the
    call goes on, or the error it returns. *)
Definition sys_flock (file : option (Z * result InodeId VfsError)) (operation : Z) : result Pc Z :=
  match file with
  | None => Err EBADF
  | Some (_, Err e) => Err (to_errno e)
  | Some (o, Ok _) =>
      let non_blocking := negb (Z.land operation 4 =? 0) in
      match Z.land operation (Z.lnot 4) with
      | 8 => Ok (PUnlock o)
      | 1 => Ok (if non_blocking then PNb o Shared else PTop o Shared)
      | 2 => Ok (if non_blocking then PNb o Exclusive else PTop o Exclusive)
      | _ => Err EINVAL
      end
  end.

(** What the descriptor lookup and [stat] give for owner [o]. *)
Definition flock_file (o : Z) (s : Sys) : option (Z * result InodeId VfsError) :=
  (fun p => (o, Ok (fst p))) <$> s_files s !! o.

(** One step of task [pid] at [pc], its file being on inode [i]. *)
Definition task_step (pid : Z) (pc : Pc) (signal : bool) (i : InodeId) (s : Sys) : Sys :=
  match pc with
  | PNb o t =>
      let '(res, r) := try_lock t (s_reg s) i o in
      match res with
      | Ok _ => goto pid (PMark o t) (set_reg r s)
      | Err e => return_ pid (to_errno e) (set_reg r s)
      end
  | PTop o t =>
      goto pid (PTry o t) (set_woken (s_woken s ∖ {[pid]}) (set_reg (register_waiter (s_reg s) i pid) s))
  | PTry o t =>
      let '(res, r) := try_lock t (s_reg s) i o in
      match res with
      | Ok _ => goto pid (PGot o t) (set_reg r s)
      | Err WouldBlock => goto pid (PCheck o t) (set_reg r s)
      | Err e => return_ pid (to_errno e) (set_reg (unregister_waiter r i pid) s)
      end
  | PGot o t => goto pid (PMark o t) (set_reg (unregister_waiter (s_reg s) i pid) s)
  | PCheck o t =>
      if signal then return_ pid EINTR (set_reg (unregister_waiter (s_reg s) i pid) s)
      else goto pid (PSleep o t) s
  | PSleep o t => goto pid (PTop o t) s
  | PMark o t => return_ pid 0 (on_file o mark_flock_held s)
  | PUnlock o => let '(ws, r) := unlock (s_reg s) i o in goto pid (PClear o ws) (set_reg r s)
  | PClear o ws => goto pid (PWake o ws) (on_file o clear_flock_held s)
  | PWake o ws => return_ pid 0 (set_woken (s_woken s ∪ list_to_set ws) s)
  end.

Inductive Event :=
| EvOpen (i : InodeId)
| EvFlock (pid o operation : Z)
| EvStep (pid : Z) (signal : bool)
| EvClose (o : Z).                          (* the last reference to the file is dropped *)

(** Restrictions a history may obey: calls on one file do not overlap; files
    are closed only after their lock is released. *)
Record Discipline := mkDiscipline { d_serial : bool; d_unlock_first : bool }.
Definition any_history : Discipline := mkDiscipline false false.

Definition in_use (o : Z) (s : Sys) : bool :=
  existsb (fun p => pc_owner (snd p) =? o) (map_to_list (s_tasks s)).

(** [None] when the event cannot happen: a task makes one call at a time, a
    call keeps its file open, identities are not exhausted. *)
Definition exec (d : Discipline) (ev : Event) (s : Sys) : option Sys :=
  match ev with
  | EvOpen i =>
      let '(o, next) := next_owner_id (s_next s) in
      if next =? 0 then None else
      Some (mkSys (s_reg s) next (<[o := (i, File_new o 2)]> (s_files s)) (s_tasks s) (s_woken s) (s_rets s))
  | EvFlock pid o operation =>
      match s_tasks s !! pid with
      | None =>
          if d_serial d && in_use o s then None else
          match sys_flock (flock_file o s) operation with
          | Ok pc => Some (goto pid pc s)
          | Err e => Some (return_ pid e s)
          end
      | Some _ => None
      end
  | EvStep pid signal =>
      match s_tasks s !! pid with
      | Some pc =>
          match s_files s !! pc_owner pc with
          | Some (i, _) => Some (task_step pid pc signal i s)
          | None => None
          end
      | None => None
      end
  | EvClose o =>
      match s_files s !! o with
      | Some (i, f) =>
          if in_use o s || (d_unlock_first d && f_has_flock f) then None else
          Some (mkSys (drop_flock f (Some i) (s_reg s)) (s_next s) (delete o (s_files s)) (s_tasks s)
                  (s_woken s) (s_rets s))
      | None => None
      end
  end.

Fixpoint run (d : Discipline) (evs : list Event) (s : Sys) : option Sys :=
  match evs with
  | [] => Some s
  | ev :: evs' => match exec d ev s with Some s' => run d evs' s' | None => None end
  end.

(** ** Invariants by induction on histories *)

Lemma run_invariant (P : Sys -> Prop) d :
  (forall ev s s', P s -> exec d ev s = Some s' -> P s') ->
  forall evs s s', P s -> run d evs s = Some s' -> P s'.
Proof.
  intros Hstep evs. induction evs as [|ev evs IH]; intros s s' Hs; simpl; [by intros [= <-]|].
  destruct (exec d ev s) as [s1|] eqn:E; [|done]. apply IH. by eapply Hstep.
Qed.

Lemma in_use_spec o s : in_use o s = true <-> exists p pc, s_tasks s !! p = Some pc /\ pc_owner pc = o.
Proof.
  unfold in_use. rewrite existsb_exists. split.
  - intros ([p pc] & Hin%list_elem_of_In%elem_of_map_to_list & H%Z.eqb_eq). eauto.
  - intros (p & pc & H & Ho). exists (p, pc). split; [|by apply Z.eqb_eq].
    by apply list_elem_of_In, elem_of_map_to_list.
Qed.

(** The cases of a step: where the task is, and what the registry answers. *)
Ltac step_cases pc := destruct pc; simpl; repeat (case_match; simpl).

(** Every event leaves the registry well formed. *)
Lemma task_step_reg_ok pid pc signal i s :
  registry_ok (s_reg s) -> registry_ok (s_reg (task_step pid pc signal i s)).
Proof.
  intros Hr. destruct pc as [o t|o t|o t|o t|o t|o t|o t|o|o ws|o ws]; simpl; auto with flock.
  - pose proof (try_lock_ok t _ i o Hr) as H. destruct (try_lock t _ i o) as [[[]|e] r]; done.
  - pose proof (try_lock_ok t _ i o Hr) as H. destruct (try_lock t _ i o) as [[[]|[]] r]; simpl; auto with flock.
  - destruct signal; simpl; auto with flock.
  - pose proof (unlock_ok _ i o Hr) as H. by destruct (unlock _ i o).
Qed.

Lemma exec_reg_ok d ev s s' : registry_ok (s_reg s) -> exec d ev s = Some s' -> registry_ok (s_reg s').
Proof.
  intros Hr. destruct ev as [i|pid o op|pid signal|o]; simpl.
  - destruct (_ =? 0); [done|]. by intros [= <-].
  - destruct (s_tasks s !! pid); [done|]. destruct (_ && _); [done|].
    destruct (sys_flock _ op); by intros [= <-].
  - destruct (s_tasks s !! pid) as [pc|]; [|done]. destruct (s_files s !! _) as [[i f]|]; [|done].
    intros [= <-]. by apply task_step_reg_ok.
  - destruct (s_files s !! o) as [[i f]|]; [|done]. destruct (_ || _); [done|]. intros [= <-]. simpl.
    unfold drop_flock. destruct (f_has_flock f); auto with flock.
Qed.

Lemma run_reg_ok d evs s : run d evs sys_init = Some s -> registry_ok (s_reg s).
Proof.
  apply (run_invariant (fun s => registry_ok (s_reg s)) d); [intros; by eapply exec_reg_ok|apply registry_ok_empty].
Qed.

(** Identities are handed out once, and a call keeps its file open. *)
Record sys_ok (s : Sys) : Prop := {
  ok_reg : registry_ok (s_reg s);
  ok_next : 1 <= s_next s < U64;
  ok_fresh o i f : s_files s !! o = Some (i, f) -> o < s_next s /\ f_owner_id f = o;
  ok_open p pc : s_tasks s !! p = Some pc -> is_Some (s_files s !! pc_owner pc)
}.

(** What a step does to the files: it may set or clear a flag. *)
Lemma task_step_files pid pc signal i s o :
  exists g, s_files (task_step pid pc signal i s) !! o = (fun p => (fst p, g (snd p))) <$> (s_files s !! o) /\
    forall f, f_owner_id (g f) = f_owner_id f.
Proof.
  assert (forall m : gmap Z (InodeId * File), exists g, m !! o = (fun p => (fst p, g (snd p))) <$> (m !! o) /\
    forall f, f_owner_id (g f) = f_owner_id f) as Hid.
  { intros m. exists id. split; [|done]. by destruct (m !! o) as [[]|]. }
  assert (forall o' (g : File -> File) (m : gmap Z (InodeId * File)), (forall f, f_owner_id (g f) = f_owner_id f) ->
    exists g', alter (fun p => (fst p, g (snd p))) o' m !! o = (fun p => (fst p, g' (snd p))) <$> (m !! o) /\
    forall f, f_owner_id (g' f) = f_owner_id f) as Halter.
  { intros o' g m Hg. destruct (decide (o = o')) as [->|]; [rewrite lookup_alter_eq; eauto|].
    rewrite lookup_alter_ne by done. apply Hid. }
  step_cases pc; try apply Hid; by apply Halter.
Qed.

Lemma task_step_inode pid pc signal i s o j f :
  s_files (task_step pid pc signal i s) !! o = Some (j, f) -> exists f', s_files s !! o = Some (j, f').
Proof.
  destruct (task_step_files pid pc signal i s o) as (g & -> & _).
  destruct (s_files s !! o) as [[j' f']|]; [|done]. intros [= -> <-]. eauto.
Qed.

(** The task returns, or moves on with the same file; the others stay. *)
Lemma task_step_tasks pid pc signal i s :
  s_tasks (task_step pid pc signal i s) = delete pid (s_tasks s) \/
  exists pc', s_tasks (task_step pid pc signal i s) = <[pid := pc']> (s_tasks s) /\ pc_owner pc' = pc_owner pc.
Proof.
  step_cases pc; eauto.
Qed.

Lemma task_step_others pid pc signal i s q :
  q <> pid -> s_tasks (task_step pid pc signal i s) !! q = s_tasks s !! q.
Proof.
  intros Hq. destruct (task_step_tasks pid pc signal i s) as [->|(pc' & -> & _)];
    [by rewrite lookup_delete_ne|by rewrite lookup_insert_ne].
Qed.

Lemma task_step_next pid pc signal i s : s_next (task_step pid pc signal i s) = s_next s.
Proof. step_cases pc; done. Qed.

(** A call starts in one of three ways. *)
Lemma sys_flock_cases s o op pc :
  sys_flock (flock_file o s) op = Ok pc ->
  is_Some (s_files s !! o) /\ (pc = PUnlock o \/ exists t, pc = PNb o t \/ pc = PTop o t).
Proof.
  unfold sys_flock, flock_file. destruct (s_files s !! o) as [p|]; [|done]. cbn [fmap option_fmap option_map].
  generalize (negb (Z.land op 4 =? 0)); intros nb. intros H. split; [done|]. revert H.
  destruct (Z.land op (Z.lnot 4)) as [|q|q]; [done| |done].
  repeat (destruct q as [q|q|]; try done); destruct nb; intros [= <-]; eauto.
Qed.

Lemma sys_flock_owner s o op pc : sys_flock (flock_file o s) op = Ok pc -> pc_owner pc = o.
Proof. by intros [_ [->|(t & [->| ->])]]%sys_flock_cases. Qed.

Lemma step_sys_ok pid pc signal i s :
  sys_ok s -> s_tasks s !! pid = Some pc -> sys_ok (task_step pid pc signal i s).
Proof.
  intros [Hr Hn Hf Ho] Hpc. split.
  - by apply task_step_reg_ok.
  - by rewrite task_step_next.
  - intros o j f H.
    rewrite task_step_next.
    destruct (task_step_files pid pc signal i s o) as (g & E & Hg). rewrite E in H.
    destruct (s_files s !! o) as [[j' f']|] eqn:E'; [|done]. simplify_eq/=. rewrite Hg. by eapply Hf.
  - intros q pc' H.
    assert (exists pc0, s_tasks s !! q = Some pc0 /\ pc_owner pc0 = pc_owner pc') as (pc0 & H0 & Hown).
    { destruct (task_step_tasks pid pc signal i s) as [E|(pc1 & E & Hown)]; rewrite E in H.
      - apply lookup_delete_Some in H as [_ H]. eauto.
      - apply lookup_insert_Some in H as [[<- <-]|[_ H]]; eauto. }
    rewrite <- Hown. destruct (task_step_files pid pc signal i s (pc_owner pc0)) as (g & -> & _).
    destruct (Ho q pc0 H0) as [x ->]. done.
Qed.

Lemma exec_sys_ok d ev s s' : sys_ok s -> exec d ev s = Some s' -> sys_ok s'.
Proof.
  intros Hs He. pose proof (exec_reg_ok d ev s s' (ok_reg s Hs) He) as Hr'. destruct Hs as [Hr Hn Hf Ho].
  destruct ev as [i|pid o op|pid signal|o]; simpl in He.
  - destruct (Z.eqb_spec (wadd64 (s_next s) 1) 0) as [|Hw]; simplify_eq.
    assert (wadd64 (s_next s) 1 = s_next s + 1) as E.
    { unfold wadd64 in *. destruct (decide (s_next s + 1 = U64)) as [E|]; [by rewrite E, Z_mod_same_full in Hw|].
      rewrite Z.mod_small; lia. }
    split; simpl; rewrite ?E; [done| | |].
    + unfold wadd64 in E. pose proof (Z.mod_pos_bound (s_next s + 1) U64 ltac:(done)). lia.
    + intros o j f [[<- [= <- <-]]|[_ H]]%lookup_insert_Some; simpl; [lia|]. apply Hf in H. lia.
    + intros p pc H. apply Ho in H. rewrite lookup_insert_is_Some'. auto.
  - destruct (s_tasks s !! pid) eqn:Et; [done|]. destruct (_ && _); [done|].
    destruct (sys_flock (flock_file o s) op) as [pc|e] eqn:Es; simplify_eq; split; simpl; try done.
    + intros p pc' [[<- <-]|[_ H]]%lookup_insert_Some; [|eauto]. rewrite (sys_flock_owner _ _ _ _ Es).
      by apply sys_flock_cases in Es as [? _].
    + intros p pc' [_ H]%lookup_delete_Some. eauto.
  - destruct (s_tasks s !! pid) as [pc|] eqn:Et; [|done]. destruct (s_files s !! _) as [[i f]|]; simplify_eq.
    by apply step_sys_ok.
  - destruct (s_files s !! o) as [[i f]|] eqn:Ef; [|done]. destruct (in_use o s) eqn:Eu; [done|].
    destruct (_ || _); simplify_eq. split; simpl; try done.
    + intros o' j f' [_ H]%lookup_delete_Some. eauto.
    + intros p pc H. rewrite lookup_delete_ne; [eauto|]. intros E.
      assert (in_use o s = true) as Hc by (apply in_use_spec; eauto). congruence.
Qed.

Lemma init_sys_ok : sys_ok sys_init.
Proof. split; simpl; [apply registry_ok_empty|unfold U64; lia|by intros ???; rewrite lookup_empty..]. Qed.

Lemma run_sys_ok d evs s : run d evs sys_init = Some s -> sys_ok s.
Proof. apply (run_invariant sys_ok d); [intros; by eapply exec_sys_ok|apply init_sys_ok]. Qed.

(** ** Locks and the files that own them *)

(** What one owner's file, locks ([h]) and pending call have to do with each
    other when calls on the file do not overlap. *)
Definition owner_ok (file : option (InodeId * File)) (h : InodeId -> option LockType) (pc : option Pc) : Prop :=
  match file with
  | None => forall j, h j = None
  | Some (i, f) =>
      (forall j, j <> i -> h j = None) /\
      match pc with
      | Some (PGot _ t) | Some (PMark _ t) => h i = Some t
      | Some (PClear _ _) => h i = None
      | _ => is_Some (h i) -> f_has_flock f = true
      end
  end.

Lemma owner_ok_ext file h h' pc : (forall j, h j = h' j) -> owner_ok file h pc -> owner_ok file h' pc.
Proof.
  intros Hh. destruct file as [[i f]|]; simpl; [|intros H j; by rewrite <- Hh].
  intros [Hj Hpc]. split; [intros j; rewrite <- Hh; auto|]. rewrite <- Hh. exact Hpc.
Qed.

(** A step touches the locks and the file of its own owner only. *)
Lemma task_step_frame pid pc signal i s o :
  registry_ok (s_reg s) -> o <> pc_owner pc ->
  s_files (task_step pid pc signal i s) !! o = s_files s !! o /\
  forall j, holds (s_reg (task_step pid pc signal i s)) j o = holds (s_reg s) j o.
Proof.
  intros Hr Ho.
  assert (forall t o' j, o <> o' -> holds (snd (try_lock t (s_reg s) i o')) j o = holds (s_reg s) j o) as Htry.
  { intros t o' j Hne. destruct (try_lock_spec t _ i o' Hr) as [(_ & _ & ->)|(_ & _ & ->)]; [done|].
    destruct (decide _) as [[]|]; done. }
  destruct pc as [o' t|o' t|o' t|o' t|o' t|o' t|o' t|o'|o' ws|o' ws]; simpl in *.
  - specialize (Htry t o'). destruct (try_lock t _ i o') as [[[]|e] r]; simpl; auto.
  - split; [done|]. intros j. apply register_holds.
  - specialize (Htry t o'). destruct (try_lock t _ i o') as [[[]|[]] r]; simpl; (split; [done|]); intros j;
      rewrite ?unregister_holds; auto.
  - split; [done|]. intros j. apply unregister_holds.
  - destruct signal; simpl; (split; [done|]); intros j; rewrite ?unregister_holds; done.
  - done.
  - by rewrite lookup_alter_ne.
  - pose proof (unlock_holds (s_reg s) i o') as H. destruct (unlock _ i o') as [ws r]. simpl in *.
    split; [done|]. intros j. rewrite H. destruct (decide _) as [[]|]; done.
  - by rewrite lookup_alter_ne.
  - done.
Qed.

(** A step keeps its own owner in order. *)
Lemma task_step_owner pid pc signal i f s :
  registry_ok (s_reg s) -> s_files s !! pc_owner pc = Some (i, f) ->
  owner_ok (Some (i, f)) (fun j => holds (s_reg s) j (pc_owner pc)) (Some pc) ->
  owner_ok (s_files (task_step pid pc signal i s) !! pc_owner pc)
    (fun j => holds (s_reg (task_step pid pc signal i s)) j (pc_owner pc))
    (s_tasks (task_step pid pc signal i s) !! pid).
Proof.
  intros Hr Hf [Hj Hpc].
  destruct pc as [o t|o t|o t|o t|o t|o t|o t|o|o ws|o ws]; simpl in *.
  - pose proof (try_lock_spec t _ i o Hr) as Ht.
    destruct (try_lock t _ i o) as [[[]|e] r]; simpl in *; rewrite Hf; simpl.
    + destruct Ht as [(_ & ? & _)|(_ & _ & Hh)]; [done|]. rewrite lookup_insert_eq.
      split; [intros j Hne|]; rewrite Hh; destruct (decide _); naive_solver.
    + destruct Ht as [(_ & _ & Hh)|(_ & ? & _)]; [|done]. rewrite lookup_delete_eq.
      split; [intros j Hne|]; rewrite Hh; auto.
  - rewrite Hf, lookup_insert_eq. split; [intros j Hne|]; rewrite register_holds; auto.
  - pose proof (try_lock_spec t _ i o Hr) as Ht.
    destruct (try_lock t _ i o) as [[[]|e] r]; simpl in *.
    + destruct Ht as [(_ & ? & _)|(_ & _ & Hh)]; [done|]. rewrite Hf, lookup_insert_eq.
      split; [intros j Hne|]; rewrite Hh; destruct (decide _); naive_solver.
    + destruct Ht as [(_ & [= ->] & Hh)|(_ & ? & _)]; [|done]. simpl. rewrite Hf, lookup_insert_eq.
      split; [intros j Hne|]; rewrite Hh; auto.
  - rewrite Hf, lookup_insert_eq. split; [intros j Hne|]; rewrite unregister_holds; auto.
  - destruct signal; simpl; rewrite Hf, ?lookup_insert_eq, ?lookup_delete_eq;
      (split; [intros j Hne|]); rewrite ?unregister_holds; auto.
  - rewrite Hf, lookup_insert_eq. by split.
  - rewrite lookup_alter_eq, Hf, lookup_delete_eq. by split.
  - pose proof (unlock_holds (s_reg s) i o) as Hh. destruct (unlock _ i o) as [ws r]. simpl in *.
    rewrite Hf, lookup_insert_eq. split; [intros j Hne|]; rewrite Hh; destruct (decide _); naive_solver.
  - rewrite lookup_alter_eq, Hf, lookup_insert_eq. simpl. split; [done|]. rewrite Hpc. by intros [].
  - rewrite Hf, lookup_delete_eq. by split.
Qed.

(** Calls on one file do not overlap, and every owner is in order. *)
Record locks_owned (s : Sys) : Prop := {
  lo_ok : sys_ok s;
  lo_serial p q pc pc' :
    s_tasks s !! p = Some pc -> s_tasks s !! q = Some pc' -> pc_owner pc = pc_owner pc' -> p = q;
  lo_busy p pc :
    s_tasks s !! p = Some pc ->
    owner_ok (s_files s !! pc_owner pc) (fun j => holds (s_reg s) j (pc_owner pc)) (Some pc);
  lo_idle o :
    (forall p pc, s_tasks s !! p = Some pc -> pc_owner pc <> o) ->
    owner_ok (s_files s !! o) (fun j => holds (s_reg s) j o) None
}.

Lemma step_locks_owned pid pc signal i f s :
  locks_owned s -> s_tasks s !! pid = Some pc -> s_files s !! pc_owner pc = Some (i, f) ->
  locks_owned (task_step pid pc signal i s).
Proof.
  intros [Hok Hser Hbusy Hidle] Hpc Hf. pose proof (Hbusy _ _ Hpc) as Hown. rewrite Hf in Hown.
  pose proof (task_step_owner pid pc signal i f s (ok_reg s Hok) Hf Hown) as Hnew.
  assert (forall q pc', s_tasks (task_step pid pc signal i s) !! q = Some pc' ->
    exists pc0, s_tasks s !! q = Some pc0 /\ pc_owner pc0 = pc_owner pc' /\ (q <> pid -> pc0 = pc')) as Hback.
  { intros q pc' H. destruct (decide (q = pid)) as [->|Hq].
    - destruct (task_step_tasks pid pc signal i s) as [E|(pc1 & E & Ho)]; rewrite E in H;
        [by rewrite lookup_delete_eq in H|]. rewrite lookup_insert_eq in H. simplify_eq. by exists pc.
    - rewrite task_step_others in H by done. eauto. }
  split.
  - by apply step_sys_ok.
  - intros p q pc1 pc2 (pc1' & H1 & E1 & _)%Hback (pc2' & H2 & E2 & _)%Hback E. apply (Hser p q pc1' pc2'); congruence.
  - intros q pc' Hq. destruct (Hback q pc' Hq) as (pc0 & H0 & E & Hsame). destruct (decide (q = pid)) as [->|Hne].
    + rewrite Hpc in H0. simplify_eq. rewrite <- E, <- Hq. done.
    + rewrite (Hsame Hne) in *. assert (pc_owner pc' <> pc_owner pc) as Ho.
      { intros Eo. apply Hne. by apply (Hser q pid pc' pc). }
      destruct (task_step_frame pid pc signal i s (pc_owner pc') (ok_reg s Hok) Ho) as [-> Hh].
      exact (owner_ok_ext _ _ _ _ (fun j => eq_sym (Hh j)) (Hbusy _ _ H0)).
  - intros o Hno. destruct (decide (o = pc_owner pc)) as [->|Ho].
    + destruct (task_step_tasks pid pc signal i s) as [E|(pc1 & E & Ho)].
      * by rewrite E, lookup_delete_eq in Hnew.
      * destruct (Hno pid pc1); [|done]. by rewrite E, lookup_insert_eq.
    + destruct (task_step_frame pid pc signal i s o (ok_reg s Hok) Ho) as [-> Hh].
      assert (owner_ok (s_files s !! o) (fun j => holds (s_reg s) j o) None) as H.
      { apply Hidle. intros q pc' Hq Hqo. destruct (decide (q = pid)) as [->|Hne]; [congruence|].
        apply (Hno q pc'); [by rewrite task_step_others|done]. }
      exact (owner_ok_ext _ _ _ _ (fun j => eq_sym (Hh j)) H).
Qed.

Lemma not_in_use o s p pc : in_use o s = false -> s_tasks s !! p = Some pc -> pc_owner pc <> o.
Proof.
  intros Hu Hp Ho. assert (in_use o s = true) as H by (apply in_use_spec; eauto). congruence.
Qed.

(** A call that has just begun is in order if its idle file was. *)
Lemma sys_flock_start s o op pc file h :
  sys_flock (flock_file o s) op = Ok pc -> owner_ok file h None -> owner_ok file h (Some pc).
Proof.
  intros [_ [->|(t & [->| ->])]]%sys_flock_cases; by destruct file as [[]|].
Qed.

(** Closing an idle file releases what it held. *)
Lemma drop_flock_holds f i r j o :
  holds (drop_flock f (Some i) r) j o =
  if f_has_flock f then (if decide (j = i /\ o = f_owner_id f) then None else holds r j o) else holds r j o.
Proof. unfold drop_flock. destruct (f_has_flock f); [apply unlock_holds|done]. Qed.

Lemma open_locks_owned d i s s' : locks_owned s -> exec d (EvOpen i) s = Some s' -> locks_owned s'.
Proof.
  intros Hl He. pose proof (exec_sys_ok _ _ _ _ (lo_ok s Hl) He) as Hok'. destruct Hl as [Hok Hser Hbusy Hidle].
  simpl in He. destruct (_ =? 0); simplify_eq.
  assert (s_files s !! s_next s = None) as Hnew.
  { destruct (s_files s !! s_next s) as [[j f]|] eqn:E; [|done]. apply (ok_fresh s Hok) in E. lia. }
  split; [done|done| |]; simpl.
  - intros p pc Hp. rewrite lookup_insert_ne; [by eauto|]. intros E.
    destruct (ok_open s Hok p pc Hp) as [x Hx]. congruence.
  - intros o Ho. specialize (Hidle o Ho). destruct (decide (o = s_next s)) as [->|]; [|by rewrite lookup_insert_ne].
    rewrite Hnew in Hidle. simpl in Hidle. rewrite lookup_insert_eq. split; [auto|]. rewrite Hidle. by intros [].
Qed.

Lemma call_locks_owned d pid o op s s' :
  d_serial d = true -> locks_owned s -> exec d (EvFlock pid o op) s = Some s' -> locks_owned s'.
Proof.
  intros Hd Hl He. pose proof (exec_sys_ok _ _ _ _ (lo_ok s Hl) He) as Hok'. destruct Hl as [Hok Hser Hbusy Hidle].
  simpl in He. destruct (s_tasks s !! pid) eqn:Et; [done|]. rewrite Hd in He.
  destruct (in_use o s) eqn:Eu; [done|]. simpl in He.
  pose proof (fun p pc => not_in_use o s p pc Eu) as Hfree.
  destruct (sys_flock (flock_file o s) op) as [pc|e] eqn:Es; simplify_eq; (split; [done|..]); simpl.
  - pose proof (sys_flock_owner _ _ _ _ Es) as Eo.
    intros p q pc1 pc2 [[<- <-]|[Hp H1]]%lookup_insert_Some [[<- <-]|[Hq H2]]%lookup_insert_Some E; [done|..].
    + destruct (Hfree _ _ H2). congruence.
    + destruct (Hfree _ _ H1). congruence.
    + eauto.
  - intros p pc' [[<- <-]|[Hp H]]%lookup_insert_Some; [|eauto]. rewrite (sys_flock_owner _ _ _ _ Es).
    eapply sys_flock_start; [done|]. apply Hidle. eauto.
  - intros o' Ho'. apply Hidle. intros p pc' Hp. apply (Ho' p). apply lookup_insert_Some. right.
    split; [congruence|done].
  - intros p q pc1 pc2 [_ H1]%lookup_delete_Some [_ H2]%lookup_delete_Some. eauto.
  - intros p pc' [_ H]%lookup_delete_Some. eauto.
  - intros o' Ho'. apply Hidle. intros p pc' Hp. apply (Ho' p). apply lookup_delete_Some. split; [congruence|done].
Qed.

Lemma close_locks_owned d o s s' : locks_owned s -> exec d (EvClose o) s = Some s' -> locks_owned s'.
Proof.
  intros Hl He. pose proof (exec_sys_ok _ _ _ _ (lo_ok s Hl) He) as Hok'. destruct Hl as [Hok Hser Hbusy Hidle].
  simpl in He. destruct (s_files s !! o) as [[i f]|] eqn:Ef; [|done]. destruct (in_use o s) eqn:Eu; [done|].
  destruct (_ || _); simplify_eq. pose proof (fun p pc => not_in_use o s p pc Eu) as Hfree.
  destruct (ok_fresh s Hok o i f Ef) as [_ Hown].
  assert (forall o' j, o' <> o -> holds (drop_flock f (Some i) (s_reg s)) j o' = holds (s_reg s) j o') as Hother.
  { intros o' j Hne. rewrite drop_flock_holds. destruct (f_has_flock f); [|done].
    destruct (decide _) as [[]|]; [congruence|done]. }
  split; [done|done| |]; simpl.
  - intros p pc Hp. pose proof (Hfree p pc Hp) as Hne. rewrite lookup_delete_ne by done.
    refine (owner_ok_ext _ _ _ _ (fun j => eq_sym (Hother _ j Hne)) (Hbusy p pc Hp)).
  - intros o' Ho'. specialize (Hidle o' Ho'). destruct (decide (o' = o)) as [->|Hne].
    + rewrite lookup_delete_eq. rewrite Ef in Hidle. destruct Hidle as [Hj Hi]. intros j.
      rewrite drop_flock_holds. destruct (decide (j = i)) as [->|Hji].
      * destruct (f_has_flock f); [by rewrite decide_True by (by split)|].
        destruct (holds (s_reg s) i o); [by discriminate Hi|done].
      * destruct (f_has_flock f); [|auto]. destruct (decide _) as [[]|]; auto.
    + rewrite lookup_delete_ne by done.
      refine (owner_ok_ext _ _ _ _ (fun j => eq_sym (Hother _ j Hne)) Hidle).
Qed.

Lemma run_locks_owned d evs s : d_serial d = true -> run d evs sys_init = Some s -> locks_owned s.
Proof.
  intros Hd. apply (run_invariant locks_owned d).
  - intros [i|pid o op|pid signal|o] s1 s2 H1 He;
      [by eapply open_locks_owned|by eapply call_locks_owned| |by eapply close_locks_owned].
    simpl in He. destruct (s_tasks s1 !! pid) as [pc|] eqn:Et; [|done].
    destruct (s_files s1 !! pc_owner pc) as [[i f]|] eqn:Ef; simplify_eq. by eapply step_locks_owned.
  - split; [apply init_sys_ok|..]; simpl; [by intros ????; rewrite lookup_empty|by intros ??; rewrite lookup_empty|].
    intros o _. by rewrite lookup_empty.
Qed.

(** ** Waiters are woken *)

(** [p] is in a list of waiters that an unlock has drained and is about to wake. *)
Definition about_to_wake (s : Sys) (p : Z) : Prop :=
  exists q o ws, (s_tasks s !! q = Some (PClear o ws) \/ s_tasks s !! q = Some (PWake o ws)) /\ p ∈ ws.

(** The next unlock of inode [i] reaches [p], or one already has. *)
Definition alerted (s : Sys) (p : Z) (i : InodeId) : Prop :=
  p ∈ waiting (s_reg s) i \/ p ∈ s_woken s \/ about_to_wake s p.

(** The task has registered and not yet looked at the lock's release. *)
Definition waits (pc : Pc) : bool :=
  match pc with PTry _ _ | PCheck _ _ | PSleep _ _ => true | _ => false end.

Definition waiters_alerted (s : Sys) : Prop :=
  forall p pc i f, s_tasks s !! p = Some pc -> waits pc = true -> s_files s !! pc_owner pc = Some (i, f) -> alerted s p i.

(** A wake-up under way stays under way, or is delivered. *)
Lemma task_step_about pid pc signal i s p :
  s_tasks s !! pid = Some pc -> about_to_wake s p ->
  about_to_wake (task_step pid pc signal i s) p \/ p ∈ s_woken (task_step pid pc signal i s).
Proof.
  intros Hpc (q & o & ws & Hq & Hp). destruct (decide (q = pid)) as [->|Hne].
  - rewrite Hpc in Hq. destruct Hq as [Hq|Hq]; simplify_eq; simpl.
    + left. exists pid, o, ws. split; [right; apply lookup_insert_eq|done].
    + right. set_solver.
  - left. exists q, o, ws. by rewrite task_step_others.
Qed.

(** A step of another task leaves [p] alerted. *)
Lemma task_step_alerted pid pc signal i s p j :
  s_tasks s !! pid = Some pc -> p <> pid -> alerted s p j -> alerted (task_step pid pc signal i s) p j.
Proof.
  intros Hpc Hne [Hw|[Hw|Ha]].
  - assert (p ∈ waiting (s_reg (task_step pid pc signal i s)) j \/ exists o ws, p ∈ ws /\
      s_tasks (task_step pid pc signal i s) !! pid = Some (PClear o ws)) as [H|(o & ws & Hin & H)].
    + destruct pc as [o t|o t|o t|o t|o t|o t|o t|o|o ws|o ws]; simpl; try (by left).
      * pose proof (try_lock_waiting t (s_reg s) i o j) as E. left.
        destruct (try_lock t _ i o) as [[[]|e] r]; simpl in *; by rewrite E.
      * left. apply register_waiting. by left.
      * pose proof (try_lock_waiting t (s_reg s) i o j) as E. left.
        destruct (try_lock t _ i o) as [[[]|[]] r]; simpl in *; rewrite ?unregister_waiting, E; naive_solver.
      * left. apply unregister_waiting. naive_solver.
      * left. destruct signal; simpl; rewrite ?unregister_waiting; naive_solver.
      * pose proof (unlock_waiting (s_reg s) i o j) as E. pose proof (unlock_waiters (s_reg s) i o) as Ew.
        destruct (unlock _ i o) as [ws r]. simpl in *. rewrite E. destruct (decide (j = i)) as [->|]; [|by left].
        right. exists o, ws. rewrite lookup_insert_eq. by rewrite Ew.
    + by left.
    + right; right. exists pid, o, ws. auto.
  - right; left. step_cases pc; set_solver.
  - right. destruct (task_step_about pid pc signal i s p Hpc Ha); auto.
Qed.

(** A task is alerted from its registration on. *)
Lemma task_step_own pid pc pc' signal i s :
  s_tasks s !! pid = Some pc -> s_tasks (task_step pid pc signal i s) !! pid = Some pc' -> waits pc' = true ->
  (waits pc = true -> alerted s pid i) -> alerted (task_step pid pc signal i s) pid i.
Proof.
  intros Hpc Hpc' Hw Hal. pose proof (task_step_about pid pc signal i s pid Hpc) as Hab. unfold alerted in *.
  destruct pc as [o t|o t|o t|o t|o t|o t|o t|o|o ws|o ws]; simpl in *;
    try (rewrite ?lookup_insert_eq, ?lookup_delete_eq in Hpc'; by simplify_eq/=).
  - destruct (try_lock t _ i o) as [[[]|e] r]; simpl in Hpc';
      rewrite ?lookup_insert_eq, ?lookup_delete_eq in Hpc'; by simplify_eq/=.
  - left. apply register_waiting. by right.
  - pose proof (try_lock_waiting t (s_reg s) i o i) as E.
    destruct (try_lock t _ i o) as [[[]|[]] r]; simpl in *;
      rewrite ?lookup_insert_eq, ?lookup_delete_eq in Hpc'; simplify_eq/=.
    rewrite E. naive_solver.
  - destruct signal; simpl in *; rewrite ?lookup_insert_eq, ?lookup_delete_eq in Hpc'; simplify_eq/=. naive_solver.
  - destruct (unlock _ i o) as [ws r]. simpl in Hpc'. rewrite lookup_insert_eq in Hpc'. by simplify_eq/=.
Qed.

Lemma step_waiters_alerted pid pc signal i f s :
  waiters_alerted s -> s_tasks s !! pid = Some pc -> s_files s !! pc_owner pc = Some (i, f) ->
  waiters_alerted (task_step pid pc signal i s).
Proof.
  intros Hs Hpc Hf p pc' j f' Hp Hw Hj. apply task_step_inode in Hj as [f0 Hj].
  destruct (decide (p = pid)) as [->|Hne].
  - assert (pc_owner pc' = pc_owner pc) as Ho.
    { destruct (task_step_tasks pid pc signal i s) as [E|(pc1 & E & Ho)]; rewrite E in Hp.
      - by rewrite lookup_delete_eq in Hp.
      - rewrite lookup_insert_eq in Hp. by simplify_eq. }
    rewrite Ho, Hf in Hj. simplify_eq. eapply task_step_own; [done..|]. intros Hw'. by eapply Hs.
  - rewrite task_step_others in Hp by done. apply task_step_alerted; [done|done|]. by eapply Hs.
Qed.

Lemma alerted_same s s' p i :
  s_reg s' = s_reg s -> s_woken s' = s_woken s ->
  (forall q pc, s_tasks s !! q = Some pc -> s_tasks s' !! q = Some pc) -> alerted s p i -> alerted s' p i.
Proof.
  intros Hr Hw Ht. unfold alerted. rewrite Hr, Hw. intros [H|[H|(q & o & ws & Hq & Hp)]]; [auto..|].
  right; right. exists q, o, ws. destruct Hq as [Hq|Hq]; apply Ht in Hq; auto.
Qed.

Lemma exec_waiters_alerted d ev s s' :
  d_unlock_first d = true -> sys_ok s -> waiters_alerted s -> exec d ev s = Some s' -> waiters_alerted s'.
Proof.
  intros Hd Hok Hs He. destruct ev as [i|pid o op|pid signal|o]; simpl in He.
  - destruct (_ =? 0); simplify_eq. intros p pc j f; simpl. intros Hp Hw [[E _]|[_ Hj]]%lookup_insert_Some.
    + destruct (ok_open s Hok p pc Hp) as [[j' f'] Hx]. apply (ok_fresh s Hok) in Hx. simpl in E. lia.
    + eapply alerted_same; [..|by eapply Hs]; done.
  - destruct (s_tasks s !! pid) eqn:Et; [done|]. destruct (_ && _); [done|].
    destruct (sys_flock (flock_file o s) op) as [pc|e] eqn:Es; simplify_eq; intros p pc' j f; simpl.
    + intros [[<- <-]|[Hne Hp]]%lookup_insert_Some Hw Hj.
      * by apply sys_flock_cases in Es as [_ [->|(t & [->| ->])]].
      * eapply alerted_same; [..|by eapply Hs]; [done|done|]. intros q pc1 H1. simpl.
        rewrite lookup_insert_ne by congruence. done.
    + intros [Hne Hp]%lookup_delete_Some Hw Hj. eapply alerted_same; [..|by eapply Hs]; [done|done|].
      intros q pc1 H1. simpl. rewrite lookup_delete_ne by congruence. done.
  - destruct (s_tasks s !! pid) as [pc|] eqn:Et; [|done].
    destruct (s_files s !! pc_owner pc) as [[i f]|] eqn:Ef; simplify_eq. by eapply step_waiters_alerted.
  - destruct (s_files s !! o) as [[i f]|]; [|done]. rewrite Hd in He. destruct (in_use o s); [done|].
    destruct (f_has_flock f) eqn:Hf; simplify_eq/=. intros p pc j f'; simpl. intros Hp Hw [_ Hj]%lookup_delete_Some.
    eapply alerted_same; [..|by eapply Hs]; simpl; [|done|done]. unfold drop_flock. by rewrite Hf.
Qed.

Lemma run_waiters_alerted d evs s :
  d_unlock_first d = true -> run d evs sys_init = Some s -> waiters_alerted s.
Proof.
  intros Hd H. apply (run_invariant (fun s => sys_ok s /\ waiters_alerted s) d) in H as [_ H]; [done|..].
  - intros ev s1 s2 [Hok Hs] He. split; [by eapply exec_sys_ok|by eapply exec_waiters_alerted].
  - split; [apply init_sys_ok|]. intros p pc i f; simpl. by rewrite lookup_empty.
Qed.

(** ** Running a concrete history *)

(** What can be read off the state a history ends in. *)
Lemma history_observe {A} d evs (f : Sys -> A) v :
  option_map f (run d evs sys_init) = Some v -> exists s, run d evs sys_init = Some s /\ f s = v.
Proof. destruct (run d evs sys_init) as [s|]; [|done]. intros [= <-]. eauto. Qed.

(** Owner 1 takes the exclusive lock; task 11 waits for it as owner 2. *)
Definition hist_wait : list Event :=
  [EvOpen (0, 5); EvOpen (0, 5); EvFlock 10 1 6; EvStep 10 false; EvStep 10 false;
   EvFlock 11 2 2; EvStep 11 false; EvStep 11 false; EvStep 11 false].

(** Tasks 10 and 11 share file 1: task 11 has unlocked but not yet cleared the
    flag when task 10 locks again and sets it. *)
Definition hist_overlap : list Event :=
  [EvOpen (0, 5); EvOpen (0, 5); EvFlock 10 1 6; EvStep 10 false; EvStep 10 false;
   EvFlock 11 1 8; EvStep 11 false;
   EvFlock 10 1 6; EvStep 10 false; EvStep 10 false;
   EvStep 11 false; EvStep 11 false].

(** A lock whose owner is closed can no longer be released. *)
Lemma orphan_lock_stays d evs s s' o i t :
  sys_ok s -> s_files s !! o = None -> o < s_next s -> holds (s_reg s) i o = Some t ->
  run d evs s = Some s' -> holds (s_reg s') i o = Some t.
Proof.
  intros Hok Hf Ho Ht H.
  apply (run_invariant (fun s => sys_ok s /\ s_files s !! o = None /\ o < s_next s /\ holds (s_reg s) i o = Some t) d)
    in H as (_ & _ & _ & H); [done|clear|done].
  intros ev s s' (Hok & Hf & Ho & Ht) He. split; [by eapply exec_sys_ok|].
  destruct ev as [j|pid o' op|pid signal|o']; simpl in He.
  - pose proof (exec_sys_ok d (EvOpen j) s s' Hok He) as Hok'. destruct (Z.eqb_spec (wadd64 (s_next s) 1) 0) as [|Hw];
      simplify_eq/=. rewrite lookup_insert_ne by lia. split_and!; [done| |done].
    assert (s_next s < wadd64 (s_next s) 1) as Hlt; [|lia].
    eapply (ok_fresh _ Hok' (s_next s)). simpl. apply lookup_insert_eq.
  - destruct (s_tasks s !! pid); [done|]. destruct (_ && _); [done|].
    destruct (sys_flock _ op); by simplify_eq.
  - destruct (s_tasks s !! pid) as [pc|] eqn:Et; [|done]. destruct (ok_open s Hok pid pc Et) as [[j f] Hj].
    rewrite Hj in He. simplify_eq. assert (o <> pc_owner pc) as Hne by congruence.
    destruct (task_step_frame pid pc signal j s o (ok_reg s Hok) Hne) as [-> ->]. by rewrite task_step_next.
  - destruct (s_files s !! o') as [[j f]|] eqn:Ef; [|done]. destruct (_ || _); simplify_eq/=.
    split_and!; [by apply lookup_delete_None; right|done|]. rewrite drop_flock_holds.
    destruct (ok_fresh s Hok _ _ _ Ef) as [_ Hown].
    destruct (f_has_flock f); [|done]. destruct (decide _) as [[_ E]|]; [congruence|done].
Qed.

(** ** Claims *)

(** C13.  Mutual exclusion.  In every history of opens, closes, [flock] calls of
    any kind, interrupted or not, interleaved in any way: an owner that holds
    the exclusive lock of an inode is the only holder of a lock on it. *)
Theorem flock_exclusion d evs s i o o' t (H : run d evs sys_init = Some s)
    (Hx : holds (s_reg s) i o = Some Exclusive) (Hh : holds (s_reg s) i o' = Some t) :
  o' = o.
Proof. exact (exclusive_sole _ _ _ _ (state_of_ok _ i (run_reg_ok _ _ _ H)) Hx Hh). Qed.

Lemma flock_exclusion_witness :
  exists s, run any_history hist_wait sys_init = Some s /\ holds (s_reg s) (0, 5) 1 = Some Exclusive /\
    forall t, holds (s_reg s) (0, 5) 2 <> Some t.
Proof.
  destruct (history_observe any_history hist_wait (fun s => holds (s_reg s) (0, 5) 1) (Some Exclusive))
    as (s & H & Hx); [vm_compute; reflexivity|].
  exists s. split; [exact H|]. split; [exact Hx|]. intros t Ht.
  pose proof (flock_exclusion any_history hist_wait s (0, 5) 1 2 t H Hx Ht) as E. discriminate E.
Defined.

(** C29.  No wake-up is lost.  When files are closed only after they were
    unlocked, a task asleep in [sys_flock_blocking] is always on the list of
    waiters that the next unlock of its inode wakes, or has been woken since it
    registered, or an unlock has taken it from the list and is about to wake
    it: registering before trying the lock closes the race with unlock. *)
Theorem flock_no_lost_wakeup d evs s p o t i f (Hd : d_unlock_first d = true) (H : run d evs sys_init = Some s)
    (Hp : s_tasks s !! p = Some (PSleep o t)) (Hf : s_files s !! o = Some (i, f)) :
  p ∈ waiting (s_reg s) i \/ p ∈ s_woken s \/ about_to_wake s p.
Proof. exact (run_waiters_alerted d evs s Hd H p _ i f Hp eq_refl Hf). Qed.

Lemma flock_no_lost_wakeup_witness :
  exists s, run (mkDiscipline false true) hist_wait sys_init = Some s /\
    (11 ∈ waiting (s_reg s) (0, 5) \/ 11 ∈ s_woken s \/ about_to_wake s 11).
Proof.
  destruct (history_observe (mkDiscipline false true) hist_wait (fun s => (s_tasks s !! 11, s_files s !! 2))
    (Some (PSleep 2 Exclusive), Some ((0, 5), File_new 2 2))) as (s & H & E); [vm_compute; reflexivity|].
  exists s. split; [exact H|]. injection E as Ep Ef.
  exact (flock_no_lost_wakeup (mkDiscipline false true) hist_wait s 11 2 Exclusive (0, 5) _ eq_refl H Ep Ef).
Defined.

(** Closing releases.  When calls on one open file do not overlap, every
    lock in the registry belongs to a file that is still open and is on that
    file's inode (so the last close has released it), and a lock call about to
    return success holds the lock it asked for. *)
Theorem flock_released_on_close d evs s (Hd : d_serial d = true) (H : run d evs sys_init = Some s) :
  (forall i o t, holds (s_reg s) i o = Some t -> exists f, s_files s !! o = Some (i, f)) /\
  (forall p o t, s_tasks s !! p = Some (PMark o t) -> exists i f, s_files s !! o = Some (i, f) /\
     holds (s_reg s) i o = Some t).
Proof.
  destruct (run_locks_owned d evs s Hd H) as [Hok _ Hbusy Hidle].
  assert (forall o, exists pc, owner_ok (s_files s !! o) (fun j => holds (s_reg s) j o) pc) as Howner.
  { intros o. destruct (in_use o s) eqn:Eu; [|exists None; apply Hidle; intros p pc; by apply not_in_use].
    apply in_use_spec in Eu as (p & pc & Hp & <-). eauto. }
  split.
  - intros i o t Ht. destruct (Howner o) as [pc Ho]. destruct (s_files s !! o) as [[j f]|]; simpl in Ho.
    + destruct (decide (i = j)) as [->|Hij]; [eauto|]. destruct Ho as [Ho _]. rewrite Ho in Ht by done. done.
    + by rewrite Ho in Ht.
  - intros p o t Hp. specialize (Hbusy p _ Hp). destruct (ok_open s Hok p _ Hp) as [[i f] Hf].
    rewrite Hf in Hbusy. destruct Hbusy as [_ Hb]. exists i, f. split; [done|exact Hb].
Qed.

Lemma flock_released_on_close_witness :
  exists s, run (mkDiscipline true false) (hist_wait ++ [EvClose 1]) sys_init = Some s /\
    forall t, holds (s_reg s) (0, 5) 1 <> Some t.
Proof.
  destruct (history_observe (mkDiscipline true false) (hist_wait ++ [EvClose 1]) (fun s => s_files s !! 1) None)
    as (s & H & E); [vm_compute; reflexivity|].
  exists s. split; [exact H|]. intros t Ht.
  destruct (flock_released_on_close (mkDiscipline true false) _ s eq_refl H) as [Hown _].
  destruct (Hown _ _ _ Ht) as [f Hf]. rewrite E in Hf. discriminate Hf.
Defined.

(** Dropping a file releases its lock but discards the waiters: a task can
    sleep on a free lock, on no list of waiters and not woken, until the next
    interrupt. *)
Theorem flock_close_skips_wakeup :
  exists s, run any_history (hist_wait ++ [EvClose 1]) sys_init = Some s /\
    s_tasks s !! 11 = Some (PSleep 2 Exclusive) /\ s_reg s = ∅ /\ s_woken s = ∅ /\ ~ about_to_wake s 11.
Proof.
  destruct (history_observe any_history (hist_wait ++ [EvClose 1])
    (fun s => (map_to_list (s_tasks s), map_to_list (s_reg s), elements (s_woken s)))
    ([(11, PSleep 2 Exclusive)], [], [])) as (s & H & E); [vm_compute; reflexivity|].
  injection E as Et Er Ew. exists s.
  assert (s_tasks s = {[11 := PSleep 2 Exclusive]}) as Ht.
  { rewrite <- (list_to_map_to_list (s_tasks s)), Et. reflexivity. }
  split_and!; [done|by rewrite Ht, lookup_singleton_eq|by apply map_to_list_empty_iff| |].
  - apply leibniz_equiv, elements_empty_iff. done.
  - intros (q & o & ws & Hq & _). rewrite Ht in Hq. rewrite !lookup_singleton_Some in Hq. naive_solver.
Qed.

(** A leaked lock.  When two tasks share an open file (after [fork] or
    [dup]), an unlock whose [clear_flock_held] comes after the other task's
    [mark_flock_held] leaves a lock whose file does not know it: closing the
    file does not release the lock, and no later history does. *)
Theorem flock_leak :
  exists s, run any_history (hist_overlap ++ [EvClose 1]) sys_init = Some s /\
    s_files s !! 1 = None /\ s_tasks s = ∅ /\
    forall evs s', run any_history evs s = Some s' -> holds (s_reg s') (0, 5) 1 = Some Exclusive.
Proof.
  destruct (history_observe any_history (hist_overlap ++ [EvClose 1])
    (fun s => (s_files s !! 1, map_to_list (s_tasks s), holds (s_reg s) (0, 5) 1, s_next s))
    (None, [], Some Exclusive, 3)) as (s & H & E); [vm_compute; reflexivity|].
  injection E as Ef Et Eh En. exists s. split_and!; [done|done|by apply map_to_list_empty_iff|].
  intros evs s' H'. eapply (orphan_lock_stays any_history evs s s'); [by eapply run_sys_ok|done|lia|done|done].
Qed.
