(* ===== verification/Cow.v ===== *)
(** * Copy-on-write tracking
    ([kernel/mm/mm-cow/src/lib.rs], and the release of an unmapped page in
    [sys_brk] and [sys_munmap] of [kernel/syscall/syscall/src/memory.rs])

    The tracker counts the owners of shared frames and mirrors the counts into
    the page frame database.  Its operations are shown to implement owner
    counting: a frame may be written in place exactly when it has one owner,
    and is freed exactly when its last owner leaves. *)
From S2P Require Import Prelude Zone PageDb.

Definition COW_FRAME_SIZE : Z := 4096.

(** [cw_pdb] is [None] while the global database is not installed. *)
Record Cow := mkCow {
  cw_counts : gmap Z Z;
  cw_pdb : option PdbWorld
}.

Definition CowTracker_new : gmap Z Z := ∅.

Definition frame_of (phys : Z) : Z := phys / COW_FRAME_SIZE.

Definition ref_count (s : Cow) (phys : Z) : Z := default 0 (cw_counts s !! frame_of phys).

(** A store through the entry [db.get(phys)] returned. *)
Definition on_frame (w : PdbWorld) (phys : Z) (g : PageFrame -> PageFrame) : PdbWorld :=
  set_db w (update_frame (pw_db w) phys g).

(** [*count += 1] on a [u32] *)
Definition bump (counts : gmap Z Z) (frame : Z) : outcome (gmap Z Z) :=
  let count := default 1 (counts !! frame) in
  if count + 1 <? U32 then mret (<[frame := count + 1]> counts) else Fault.

Definition increment (s : Cow) (phys : Z) : outcome Cow :=
  counts ← bump (cw_counts s) (frame_of phys);
  match cw_pdb s with
  | None => mret (mkCow counts None)
  | Some w =>
      '(_, w) ← ref_inc w phys;
      mret (mkCow counts (Some (on_frame w phys (set_flag PF_COW))))
  end.

(** The entry is stale: the frame was freed, or became a page table. *)
Definition stale (w : PdbWorld) (phys : Z) : bool :=
  match pdb_get (pw_db w) phys with
  | Some pf => ((pf_flags pf =? PF_FREE) && (pf_refcount pf =? 0)) || negb (Z.land (pf_flags pf) PF_PAGETABLE =? 0)
  | None => false
  end.

Definition decrement (s : Cow) (phys : Z) : Z * Cow :=
  match cw_counts s !! frame_of phys with
  | None => (0, s)
  | Some count =>
      let new_count := Z.max (count - 1) 0 in
      let counts := if new_count =? 0 then delete (frame_of phys) (cw_counts s)
                    else <[frame_of phys := new_count]> (cw_counts s) in
      (new_count,
       mkCow counts
         (match cw_pdb s with
          | None => None
          | Some w =>
              if stale w phys then Some w
              else let '(_, w) := ref_dec w phys in
                   Some (if new_count <=? 1 then on_frame w phys (clear_flag PF_COW) else w)
          end))
  end.

Definition is_shared (s : Cow) (phys : Z) : bool := 1 <? ref_count s phys.

Definition set_exclusive (s : Cow) (phys : Z) : Cow := mkCow (<[frame_of phys := 1]> (cw_counts s)) (cw_pdb s).

Definition cow_remove (s : Cow) (phys : Z) : Cow := mkCow (delete (frame_of phys) (cw_counts s)) (cw_pdb s).

(** [count] frames from [start]; the database is not told. *)
Fixpoint increment_frames (counts : gmap Z Z) (frame : Z) (count : nat) : outcome (gmap Z Z) :=
  match count with
  | O => mret counts
  | S n => counts ← bump counts frame; increment_frames counts (frame + 1) n
  end.

Definition increment_range (s : Cow) (start : Z) (count : nat) : outcome Cow :=
  counts ← increment_frames (cw_counts s) (frame_of start) count; mret (mkCow counts (cw_pdb s)).

Definition try_claim_exclusive (s : Cow) (phys : Z) : bool * Cow :=
  match cw_counts s !! frame_of phys with
  | None => (true, s)
  | Some count =>
      if count <=? 1 then
        (true, mkCow (delete (frame_of phys) (cw_counts s))
                 (match cw_pdb s with
                  | Some w => Some (on_frame w phys (clear_flag PF_COW))
                  | None => None
                  end))
      else
        let count := count - 1 in
        (false, mkCow (<[frame_of phys := count]> (cw_counts s))
                  (match cw_pdb s with
                   | None => None
                   | Some w =>
                       let w := if stale w phys then w else snd (ref_dec w phys) in
                       Some (if count <=? 1 then on_frame w phys (clear_flag PF_COW) else w)
                   end))
  end.

Definition tracked_count (s : Cow) : nat := size (cw_counts s).

(** [remaining = cow.decrement(phys); if remaining == 0 { free_frame(phys) }],
    with what freeing does to the database; was the frame freed? *)
Definition release (s : Cow) (phys : Z) : outcome (bool * Cow) :=
  let '(remaining, s) := decrement s phys in
  if remaining =? 0 then
    match cw_pdb s with
    | None => mret (true, s)
    | Some w =>
        '(r, w) ← validate_free w phys;
        match r with
        | Err _ => mret (false, mkCow (cw_counts s) (Some w))
        | Ok _ => '(_, w) ← mark_free w phys; mret (true, mkCow (cw_counts s) (Some w))
        end
    end
  else mret (false, s).

(** ** Owner counts *)

(** A frame in use as data: allocated, neither page table nor reserved. *)
Definition data_page (pf : PageFrame) : Prop :=
  has_flag PF_ALLOCATED pf = true /\ has_flag PF_PAGETABLE pf = false /\ has_flag PF_RESERVED pf = false.

(** Frame [f] has [n] owners as far as the tracker and the database know. *)
Definition owned (s : Cow) (f n : Z) : Prop :=
  if n =? 0 then cw_counts s !! f = None
  else (cw_counts s !! f = Some n \/ (n = 1 /\ cw_counts s !! f = None)) /\ 1 <= n < U32 /\
    exists w pf, cw_pdb s = Some w /\ pdb_get (pw_db w) (f * 4096) = Some pf /\ pf_refcount pf = n /\
      data_page pf.

(** The database covers [frames] frames. *)
Definition db_ok (frames : Z) (w : PdbWorld) : Prop := db_wf (pw_db w) /\ pd_count (pw_db w) = frames.

(** Every frame has the owners [own] says. *)
Definition tracks_owners (frames : Z) (s : Cow) (own : Z -> Z) : Prop :=
  (exists w, cw_pdb s = Some w /\ db_ok frames w) /\ forall f, 0 <= f -> owned s f (own f).

Lemma flag_cow_set q (pf : PageFrame) : Z.land PF_COW q = 0 -> has_flag q (set_flag PF_COW pf) = has_flag q pf.
Proof. intros Hq. unfold has_flag, set_flag. simpl. by rewrite Z.land_lor_distr_l, Hq, Z.lor_0_r. Qed.

Lemma flag_cow_clear q (pf : PageFrame) : Z.land PF_COW q = 0 -> has_flag q (clear_flag PF_COW pf) = has_flag q pf.
Proof.
  intros Hq. unfold has_flag, clear_flag. simpl. do 2 f_equal. apply Z.bits_inj'. intros n _.
  rewrite !Z.land_spec, Z.ldiff_spec. pose proof (f_equal (fun z => Z.testbit z n) Hq) as Hn. simpl in Hn.
  rewrite Z.land_spec, Z.bits_0 in Hn. by destruct (Z.testbit (pf_flags pf) n), (Z.testbit PF_COW n), (Z.testbit q n).
Qed.

Lemma data_page_set pf : data_page pf -> data_page (set_flag PF_COW pf).
Proof. unfold data_page. by rewrite !flag_cow_set. Qed.

Lemma data_page_clear pf : data_page pf -> data_page (clear_flag PF_COW pf).
Proof. unfold data_page. by rewrite !flag_cow_clear. Qed.

Lemma data_page_refcount n pf : data_page pf -> data_page (set_refcount n pf).
Proof. done. Qed.

Create HintDb cow.
#[export] Hint Resolve data_page_set data_page_clear data_page_refcount : cow.

(** [w'] is [w] with [g] applied to the entry of the page at [a]. *)
Definition frame_update (w w' : PdbWorld) (a : Z) (g : PageFrame -> PageFrame) : Prop :=
  (forall frames, db_ok frames w -> db_ok frames w') /\
  forall b, 0 <= b -> pdb_get (pw_db w') b =
    if decide (a / 4096 = b / 4096) then g <$> pdb_get (pw_db w) b else pdb_get (pw_db w) b.

Lemma db_ok_update w w' a g :
  pw_db w' = update_frame (pw_db w) a g -> forall frames, db_ok frames w -> db_ok frames w'.
Proof. unfold db_ok. intros -> frames [Hwf <-]. split; [by apply update_frame_wf|apply update_frame_count]. Qed.

Lemma frame_update_on w a g : 0 <= a -> frame_update w (on_frame w a g) a g.
Proof.
  intros Ha. split; [by eapply db_ok_update|]. intros b Hb. unfold on_frame. simpl. by apply pdb_get_update.
Qed.

Lemma frame_update_trans w1 w2 w3 a g h :
  frame_update w1 w2 a g -> frame_update w2 w3 a h -> frame_update w1 w3 a (fun f => h (g f)).
Proof.
  intros [Hwf1 H1] [Hwf2 H2]. split; [auto|]. intros b Hb. rewrite H2, H1 by done.
  destruct (decide _); [by destruct (pdb_get (pw_db w1) b)|done].
Qed.

Lemma frame_update_ref_inc w a f :
  0 <= a -> pdb_get (pw_db w) a = Some f -> 0 <= pf_refcount f < U32_MAX ->
  exists w', ref_inc w a = Done (pf_refcount f + 1, w') /\
    frame_update w w' a (fun f => set_refcount (wadd32 (pf_refcount f) 1) f).
Proof.
  intros Ha Hf Hr. unfold ref_inc. rewrite Hf. rewrite (proj2 (Z.ltb_lt _ _)) by (unfold U32, U32_MAX in *; lia).
  eexists. split; [done|]. split; [by eapply db_ok_update|]. intros b Hb. simpl. by apply pdb_get_update.
Qed.

Lemma frame_update_ref_dec w a f :
  0 <= a -> pdb_get (pw_db w) a = Some f -> 0 < pf_refcount f ->
  frame_update w (snd (ref_dec w a)) a (fun f => set_refcount (wsub32 (pf_refcount f) 1) f).
Proof.
  intros Ha Hf Hr. unfold ref_dec. rewrite Hf. destruct (Z.eqb_spec (pf_refcount f) 0) as [|_]; [lia|].
  rewrite andb_false_r. split; [by eapply db_ok_update|]. intros b Hb. simpl. by apply pdb_get_update.
Qed.

(** An owned frame is alive in the database. *)
Lemma alive_not_stale w phys pf :
  pdb_get (pw_db w) phys = Some pf -> data_page pf -> stale w phys = false.
Proof.
  intros Hg (Ha & Hp & _). unfold stale. rewrite Hg. unfold has_flag in *. apply orb_false_iff. split; [|done].
  destruct (Z.eqb_spec (pf_flags pf) PF_FREE) as [E|]; [by rewrite E in Ha|done].
Qed.

Section owners.
Context (frames : Z).
Abbreviation tracks := (tracks_owners frames).

(** The same with [n] owners for frame [f]. *)
Definition with_owners (own : Z -> Z) (f n : Z) : Z -> Z := fun x => if x =? f then n else own x.

Lemma frame_page f : f * 4096 / 4096 = f.
Proof. by apply Z.div_mul. Qed.

(** Changing one frame's count and entry changes that frame's owners only. *)
Lemma tracks_change s own phys w w' g counts' n' :
  tracks s own -> cw_pdb s = Some w -> 0 <= phys -> frame_update w w' phys g ->
  (forall f, f <> frame_of phys -> counts' !! f = cw_counts s !! f) ->
  owned (mkCow counts' (Some w')) (frame_of phys) n' ->
  tracks (mkCow counts' (Some w')) (with_owners own (frame_of phys) n').
Proof.
  intros [(w0 & Hw0 & Hwf) Hown] Hw Hp [Hwf' Hget] Hc Hn. simplify_eq. split; [exists w'; split; [done|auto]|].
  intros f Hf. unfold with_owners. destruct (Z.eqb_spec f (frame_of phys)) as [->|Hne]; [done|].
  specialize (Hown f Hf). unfold owned in *. cbn [cw_counts cw_pdb] in *. rewrite Hc by done.
  destruct (own f =? 0); [done|]. destruct Hown as (Hcnt & Hrange & w1 & pf & Hw1 & Hpf & Hrest).
  split_and!; [done|lia|lia|]. exists w', pf. simplify_eq. split_and!; [done| |tauto..].
  rewrite Hget by lia. rewrite decide_False; [done|]. rewrite frame_page. unfold frame_of, COW_FRAME_SIZE in Hne. congruence.
Qed.

(** What the tracker and the database hold for a frame that has owners. *)
Lemma owned_entry s own phys :
  tracks s own -> 0 <= phys -> own (frame_of phys) <> 0 ->
  let n := own (frame_of phys) in
  exists w pf, cw_pdb s = Some w /\ pdb_get (pw_db w) phys = Some pf /\ pf_refcount pf = n /\ 1 <= n < U32 /\
    (cw_counts s !! frame_of phys = Some n \/ (n = 1 /\ cw_counts s !! frame_of phys = None)) /\
    data_page pf.
Proof.
  intros [_ Hown] Hp Hn n. assert (0 <= frame_of phys) as Hf by (unfold frame_of; by apply Z.div_pos).
  specialize (Hown _ Hf). unfold owned in Hown. rewrite (proj2 (Z.eqb_neq _ _) Hn) in Hown.
  destruct Hown as (Hc & Hr & w & pf & Hw & Hpf & Href & Hfl). exists w, pf. split_and!; try tauto; try lia.
  rewrite <- Hpf. apply pdb_get_same_page. by rewrite frame_page.
Qed.

(** The entry after an update, at the frame's own address. *)
Lemma updated_entry w w' phys g pf :
  0 <= phys -> frame_update w w' phys g -> pdb_get (pw_db w) phys = Some pf ->
  pdb_get (pw_db w') (frame_of phys * 4096) = Some (g pf).
Proof.
  intros Hp [_ Hget] Hpf. assert (0 <= frame_of phys) by (unfold frame_of; by apply Z.div_pos).
  rewrite Hget by lia. rewrite frame_page. rewrite decide_True by done.
  rewrite (pdb_get_same_page _ (frame_of phys * 4096) phys), Hpf; [done|]. by rewrite frame_page.
Qed.

(** A changed frame with [n'] owners is owned, given its new count and entry. *)
Lemma owned_intro counts' w w' phys g pf n' :
  0 <= phys -> frame_update w w' phys g -> pdb_get (pw_db w) phys = Some pf -> 1 <= n' < U32 ->
  (counts' !! frame_of phys = Some n' \/ (n' = 1 /\ counts' !! frame_of phys = None)) ->
  pf_refcount (g pf) = n' -> data_page (g pf) ->
  owned (mkCow counts' (Some w')) (frame_of phys) n'.
Proof.
  intros Hp Hu Hpf Hr Hc Hn Hd. unfold owned. rewrite (proj2 (Z.eqb_neq n' 0)) by lia. cbn [cw_counts cw_pdb].
  split_and!; [done|lia|lia|]. exists w', (g pf). split_and!; try done. by eapply updated_entry.
Qed.

Lemma insert_other (counts : gmap Z Z) f n x : x <> f -> <[f := n]> counts !! x = counts !! x.
Proof. intros. by rewrite lookup_insert_ne. Qed.
Lemma delete_other (counts : gmap Z Z) f x : x <> f -> delete f counts !! x = counts !! x.
Proof. intros. by rewrite lookup_delete_ne. Qed.

(** ** Each operation counts owners *)

Lemma increment_owners s own phys :
  tracks s own -> 0 <= phys -> 1 <= own (frame_of phys) -> own (frame_of phys) + 1 < U32 ->
  exists s', increment s phys = Done s' /\ tracks s' (with_owners own (frame_of phys) (own (frame_of phys) + 1)).
Proof.
  intros Ht Hp Hn Hmax. destruct (owned_entry s own phys Ht Hp ltac:(lia)) as (w & pf & Hw & Hpf & Href & _ & Hc & Hd).
  set (n := own (frame_of phys)) in *. unfold increment, bump.
  assert (default 1 (cw_counts s !! frame_of phys) = n) as ->. { destruct Hc as [->|[-> ->]]; done. }
  rewrite (proj2 (Z.ltb_lt _ _)) by done. cbn [mbind outcome_bind mret outcome_ret]. rewrite Hw.
  destruct (frame_update_ref_inc w phys pf Hp Hpf) as (w1 & -> & Hu1); [unfold U32, U32_MAX in *; lia|].
  cbn [mbind outcome_bind mret outcome_ret]. eexists. split; [done|].
  pose proof (frame_update_trans _ _ _ _ _ _ Hu1 (frame_update_on w1 phys (set_flag PF_COW) Hp)) as Hu.
  eapply tracks_change; [done|done|done|exact Hu|intros; by apply insert_other|].
  eapply owned_intro; [done|exact Hu|done|lia|left; apply lookup_insert_eq|..].
  - simpl. unfold wadd32. rewrite Z.mod_small by lia. lia.
  - cbn beta. auto with cow.
Qed.

(** The database after a mirrored decrement, with the COW mark perhaps cleared. *)
Lemma mirror_dec w phys pf (b : bool) n :
  0 <= phys -> pdb_get (pw_db w) phys = Some pf -> pf_refcount pf = n -> 1 <= n < U32 ->
  data_page pf ->
  let w1 := snd (ref_dec w phys) in
  exists g, frame_update w (if b then on_frame w1 phys (clear_flag PF_COW) else w1) phys g /\
    pf_refcount (g pf) = n - 1 /\ data_page (g pf).
Proof.
  intros Hp Hpf Hn Hr Hd w1. pose proof (frame_update_ref_dec w phys pf Hp Hpf ltac:(lia)) as Hu1. fold w1 in Hu1.
  assert (wsub32 (pf_refcount pf) 1 = n - 1) as Hs. { unfold wsub32. rewrite Z.mod_small; lia. }
  destruct b.
  - eexists. split; [exact (frame_update_trans _ _ _ _ _ _ Hu1 (frame_update_on w1 phys _ Hp))|]. cbn beta.
    split; [done|]. auto with cow.
  - eexists. split; [exact Hu1|]. split; [done|]. auto with cow.
Qed.

Lemma claim_owners s own phys :
  tracks s own -> 0 <= phys -> own (frame_of phys) <> 0 ->
  let n := own (frame_of phys) in
  fst (try_claim_exclusive s phys) = (n =? 1) /\
  tracks (snd (try_claim_exclusive s phys)) (with_owners own (frame_of phys) (if n =? 1 then 1 else n - 1)).
Proof.
  intros Ht Hp Hn n. destruct (owned_entry s own phys Ht Hp Hn) as (w & pf & Hw & Hpf & Href & Hr & Hc & Hd).
  fold n in Href, Hr, Hc. unfold try_claim_exclusive. destruct Hc as [Hc|[Hn1 Hc]]; rewrite Hc.
  - destruct (Z.eqb_spec n 1) as [E|E].
    + rewrite (proj2 (Z.leb_le n 1)) by lia. cbn [fst snd]. split; [done|]. rewrite Hw.
      pose proof (frame_update_on w phys (clear_flag PF_COW) Hp) as Hu.
      eapply tracks_change; [done|done|done|exact Hu|intros; by apply delete_other|].
      eapply owned_intro; [done|exact Hu|done|unfold U32 in *; lia|right; split; [done|apply lookup_delete_eq]|..].
      * simpl. lia.
      * auto with cow.
    + rewrite (proj2 (Z.leb_gt n 1)) by lia. cbn [fst snd]. split; [done|]. rewrite Hw.
      rewrite (alive_not_stale w phys pf Hpf Hd).
      destruct (mirror_dec w phys pf (n - 1 <=? 1) n Hp Hpf Href Hr Hd) as (g & Hu & Hg & Hgd).
      eapply tracks_change; [done|done|done|exact Hu|intros; by apply insert_other|].
      eapply owned_intro; [done|exact Hu|done|lia|left; apply lookup_insert_eq|done..].
  - rewrite Hn1. cbn [fst snd Z.eqb Pos.eqb]. split; [done|]. destruct Ht as [Hwf Hown]. split; [done|].
    intros f Hf. unfold with_owners. destruct (Z.eqb_spec f (frame_of phys)) as [->|]; [|auto].
    rewrite <- Hn1. by apply Hown.
Qed.

Lemma decrement_owners s own phys :
  tracks s own -> 0 <= phys -> own (frame_of phys) <> 0 ->
  let n := own (frame_of phys) in
  fst (decrement s phys) = n - 1 /\
  (1 < n -> tracks (snd (decrement s phys)) (with_owners own (frame_of phys) (n - 1))).
Proof.
  intros Ht Hp Hn n. destruct (owned_entry s own phys Ht Hp Hn) as (w & pf & Hw & Hpf & Href & Hr & Hc & Hd).
  fold n in Href, Hr, Hc. unfold decrement. destruct Hc as [Hc|[Hn1 Hc]]; rewrite Hc; cbn [fst snd].
  - rewrite Z.max_l by lia. split; [done|]. intros H1. rewrite (proj2 (Z.eqb_neq (n - 1) 0)) by lia.
    rewrite Hw, (alive_not_stale w phys pf Hpf Hd).
    destruct (mirror_dec w phys pf (n - 1 <=? 1) n Hp Hpf Href Hr Hd) as (g & Hu & Hg & Hgd).
    destruct (ref_dec w phys) as [rc w1]. cbn [snd] in Hu.
    eapply tracks_change; [done|done|done|exact Hu|intros; by apply insert_other|].
    eapply owned_intro; [done|exact Hu|done|lia|left; apply lookup_insert_eq|done..].
  - rewrite Hn1. split; [done|lia].
Qed.

Lemma has_flag_free pf : has_flag PF_ALLOCATED pf = true -> is_free pf = false.
Proof.
  intros Ha. unfold is_free, has_flag in *. by destruct (Z.eqb_spec (pf_flags pf) PF_FREE) as [E|]; [rewrite E in Ha|].
Qed.

(** The last owner's decrement leaves a frame that can be given back. *)
Lemma decrement_last s own phys :
  tracks s own -> 0 <= phys -> own (frame_of phys) = 1 ->
  exists w w' g pf, cw_pdb s = Some w /\ cw_pdb (snd (decrement s phys)) = Some w' /\ frame_update w w' phys g /\
    pdb_get (pw_db w) phys = Some pf /\ data_page (g pf) /\ pf_refcount (g pf) <= 1 /\
    cw_counts (snd (decrement s phys)) = delete (frame_of phys) (cw_counts s).
Proof.
  intros Ht Hp Hn. destruct (owned_entry s own phys Ht Hp ltac:(lia)) as (w & pf & Hw & Hpf & Href & Hr & Hc & Hd).
  rewrite Hn in *. unfold decrement. destruct Hc as [Hc|[_ Hc]]; rewrite Hc; cbn [fst snd cw_counts cw_pdb].
  - rewrite Hw, (alive_not_stale w phys pf Hpf Hd).
    destruct (mirror_dec w phys pf true 1 Hp Hpf Href Hr Hd) as (g & Hu & Hg & Hgd).
    destruct (ref_dec w phys) as [rc w1]. cbn [snd] in Hu. eexists w, _, g, pf. split_and!; try done. lia.
  - exists w, w, id, pf. split_and!; try done; [split; [done|]|simpl; lia|by rewrite delete_id].
    intros b Hb. destruct (decide _); [by rewrite option_fmap_id|done].
Qed.

Lemma release_owners s own phys :
  tracks s own -> 0 <= phys -> own (frame_of phys) <> 0 ->
  let n := own (frame_of phys) in
  exists s', release s phys = Done (n =? 1, s') /\ tracks s' (with_owners own (frame_of phys) (n - 1)).
Proof.
  intros Ht Hp Hn n. destruct (decrement_owners s own phys Ht Hp Hn) as [Hret Htr]. fold n in Hret, Htr. unfold release.
  destruct (owned_entry s own phys Ht Hp Hn) as (_ & _ & _ & _ & _ & Hr & _). fold n in Hr.
  destruct (Z.eqb_spec n 1) as [E|E].
  - destruct (decrement_last s own phys Ht Hp E) as (w & w' & g & pf & Hw & Hw' & Hu & Hpf & Hd & Hrc & Hcnt).
    destruct (decrement s phys) as [ret s1]. cbn [fst snd] in *. rewrite Hret, E, Hw'. cbn [Z.sub Z.add Z.opp Z.pos_sub Z.eqb].
    destruct Ht as [(w0 & Hw0 & Hwf) Hown]. assert (w0 = w) as -> by congruence. pose proof (proj1 Hu _ Hwf) as Hwf'.
    assert (pdb_get (pw_db w') phys = Some (g pf)) as Hg.
    { rewrite (proj2 Hu phys Hp), decide_True, Hpf by done. done. }
    destruct (validate_free_spec w' phys (proj1 Hwf') Hp) as (r & w2 & -> & Hdb & Hok). cbn [mbind outcome_bind].
    assert (r = Ok tt) as ->.
    { apply Hok. exists (g pf). destruct Hd as (Ha & _ & Hres). auto using has_flag_free. }
    destruct (mark_free_spec w2 phys) as (r' & w3 & -> & Hwf3 & Hcnt3 & Hget); [rewrite Hdb; apply Hwf'|done|].
    cbn [mbind outcome_bind]. eexists. split; [done|].
    assert (frame_update w w3 phys (fun f => freed_frame (g f))) as Hu3.
    { apply (frame_update_trans w w' w3); [done|]. rewrite Hdb in *. split; [|done].
      intros fr [_ <-]. by split. }
    eapply tracks_change; [split; [by exists w|exact Hown]|done|done|exact Hu3| |].
    + intros f Hf. rewrite Hcnt. by apply delete_other.
    + unfold owned. simpl. rewrite Hcnt. apply lookup_delete_eq.
  - destruct (decrement s phys) as [ret s1]. cbn [fst snd] in *. rewrite Hret, (proj2 (Z.eqb_neq (n - 1) 0)) by lia.
    eexists. split; [done|]. apply Htr. lia.
Qed.

(** A frame the allocator hands out has one owner. *)
Lemma allocated_owners s own w phys owner :
  tracks s own -> cw_pdb s = Some w -> 0 <= phys -> frame_of phys < frames ->
  own (frame_of phys) = 0 ->
  tracks (mkCow (cw_counts s) (Some (mark_allocated w phys owner))) (with_owners own (frame_of phys) 1).
Proof.
  intros Ht Hw Hp Hlt Hn. pose proof Ht as [(w0 & Hw0 & Hwf) Hown]. assert (w0 = w) as -> by congruence.
  destruct Hwf as [Hwf Hcount].
  destruct (pdb_get_is_Some (pw_db w) phys Hwf Hp) as [pf Hpf]; [by rewrite Hcount|].
  assert (frame_update w (mark_allocated w phys owner) phys
    (fun f => set_owner owner (set_refcount 1 (set_flags PF_ALLOCATED f)))) as Hu.
  { split; [|intros b Hb; by apply mark_allocated_get].
    intros fr [H1 <-]. split; [by apply mark_allocated_wf|apply mark_allocated_count]. }
  eapply tracks_change; [done|done|done|exact Hu|done|].
  eapply owned_intro; [done|exact Hu|done|unfold U32; lia| |done|done].
  right. split; [done|]. assert (0 <= frame_of phys) as Hf by (unfold frame_of; by apply Z.div_pos).
  specialize (Hown _ Hf). by rewrite Hn in Hown.
Qed.

End owners.

(** ** Histories *)

Inductive CowOp :=
| CAlloc (phys owner : Z)     (* the allocator hands the frame out *)
| CShare (phys : Z)           (* fork maps it once more *)
| CFault (phys : Z)           (* an owner writes: in place, or it leaves for a copy *)
| CRelease (phys : Z).        (* an owner unmaps it *)

Definition cow_step (s : Cow) (op : CowOp) : outcome (bool * Cow) :=
  match op with
  | CAlloc phys owner =>
      mret (true, mkCow (cw_counts s) ((fun w => mark_allocated w phys owner) <$> cw_pdb s))
  | CShare phys => s ← increment s phys; mret (true, s)
  | CFault phys => mret (try_claim_exclusive s phys)
  | CRelease phys => release s phys
  end.

(** The contract: [None] where the operation is not one an owner may make. *)
Definition own_step (frames : Z) (own : Z -> Z) (op : CowOp) : option (bool * (Z -> Z)) :=
  let change (guard : bool) phys answer n :=
    if (0 <=? phys) && guard then Some (answer, with_owners own (frame_of phys) n) else None in
  match op with
  | CAlloc phys _ => change ((frame_of phys <? frames) && (own (frame_of phys) =? 0)) phys true 1
  | CShare phys =>
      let n := own (frame_of phys) in change ((1 <=? n) && (n + 1 <? U32)) phys true (n + 1)
  | CFault phys =>
      let n := own (frame_of phys) in change (negb (n =? 0)) phys (n =? 1) (if n =? 1 then 1 else n - 1)
  | CRelease phys =>
      let n := own (frame_of phys) in change (negb (n =? 0)) phys (n =? 1) (n - 1)
  end.

Fixpoint cow_run (s : Cow) (ops : list CowOp) : outcome (list bool * Cow) :=
  match ops with
  | [] => mret ([], s)
  | op :: ops' => '(b, s) ← cow_step s op; '(bs, s) ← cow_run s ops'; mret (b :: bs, s)
  end.

Fixpoint own_run (frames : Z) (own : Z -> Z) (ops : list CowOp) : option (list bool * (Z -> Z)) :=
  match ops with
  | [] => Some ([], own)
  | op :: ops' =>
      '(b, own) ← own_step frames own op; '(bs, own) ← own_run frames own ops'; Some (b :: bs, own)
  end.

(** One step of the contract is one step of the tracker. *)
Lemma cow_step_refines frames s own op b own' :
  tracks_owners frames s own -> own_step frames own op = Some (b, own') ->
  exists s', cow_step s op = Done (b, s') /\ tracks_owners frames s' own'.
Proof.
  intros Ht. destruct op as [phys owner|phys|phys|phys]; simpl; destruct (Z.leb_spec 0 phys) as [Hp|]; try done; cbn [andb].
  - destruct (Z.ltb_spec (frame_of phys) frames) as [Hlt|]; [|done].
    destruct (Z.eqb_spec (own (frame_of phys)) 0) as [Hn|]; [|done]. intros [= <- <-].
    destruct Ht as [(w & Hw & Hok) Hown]. rewrite Hw. cbn [fmap option_fmap option_map]. eexists. split; [done|].
    eapply allocated_owners; [split; [by exists w|done]|done..].
  - destruct (Z.leb_spec 1 (own (frame_of phys))) as [Hn|]; [|done].
    destruct (Z.ltb_spec (own (frame_of phys) + 1) U32) as [Hm|]; [|done]. intros [= <- <-].
    destruct (increment_owners frames s own phys Ht Hp Hn Hm) as (s' & -> & Ht'). cbn [mbind outcome_bind]. eauto.
  - destruct (Z.eqb_spec (own (frame_of phys)) 0) as [|Hn]; [done|]. intros [= <- <-].
    destruct (claim_owners frames s own phys Ht Hp Hn) as [Hb Ht']. destruct (try_claim_exclusive s phys) as [b s'].
    simpl in *. exists s'. split; [by rewrite Hb|done].
  - destruct (Z.eqb_spec (own (frame_of phys)) 0) as [|Hn]; [done|]. intros [= <- <-].
    by apply release_owners.
Qed.

(** ** Claims *)

(** C8.  Copy-on-write owners.  Along every history of allocations, forks,
    write faults and unmappings by owners, the tracker and the database
    together implement a count of owners: a write fault is resolved in place
    exactly when the writer is the only owner (otherwise it is told to copy and
    leaves), a frame is given back exactly when its last owner leaves, and no
    operation overflows, underflows or is refused. *)
Theorem cow_refines frames ops s own bs own' (Ht : tracks_owners frames s own)
    (Hr : own_run frames own ops = Some (bs, own')) :
  exists s', cow_run s ops = Done (bs, s') /\ tracks_owners frames s' own'.
Proof.
  revert s own bs Ht Hr. induction ops as [|op ops IH]; intros s own bs Ht; cbn [own_run cow_run].
  { intros [= <- <-]. by exists s. }
  destruct (own_step frames own op) as [[b own1]|] eqn:E; [|done]. cbn [mbind option_bind].
  destruct (own_run frames own1 ops) as [[bs1 own2]|] eqn:E2; [|done]. intros [= <- <-].
  destruct (cow_step_refines frames s own op b own1 Ht E) as (s1 & -> & Ht1).
  destruct (IH s1 own1 bs1 Ht1 E2) as (s2 & Hrun & Ht2). cbn [mbind outcome_bind]. rewrite Hrun. by exists s2.
Qed.

(** A database of four free frames, nothing shared. *)
Definition cow_demo : Cow :=
  mkCow CowTracker_new (Some (pdb_init PdbWorld_new (replicate 4 PageFrame_new) 4)).

Lemma cow_demo_tracks : tracks_owners 4 cow_demo (fun _ => 0).
Proof. split; [eexists; split; [reflexivity|by split]|]. intros f _. by apply lookup_empty. Qed.

Definition cow_demo_ops : list CowOp :=
  [CAlloc 4096 1; CShare 4096; CShare 4096; CFault 4096; CRelease 4096; CFault 4096; CRelease 4096].

Lemma cow_refines_witness :
  exists s', cow_run cow_demo cow_demo_ops = Done ([true; true; true; false; false; true; true], s').
Proof.
  assert (exists own', own_run 4 (fun _ => 0) cow_demo_ops = Some ([true; true; true; false; false; true; true], own'))
    as [own' Hr] by (eexists; reflexivity).
  destruct (cow_refines 4 cow_demo_ops cow_demo (fun _ => 0) _ own' cow_demo_tracks Hr) as (s' & Hs & _).
  exists s'. exact Hs.
Defined.

(** A private file mapping counts its one mapping twice: after [mmap]'s
    [increment] the unmapping of the only owner does not free the frame. *)
Theorem private_mapping_leaks frames s own phys (Ht : tracks_owners frames s own) (Hp : 0 <= phys)
    (Hn : own (frame_of phys) = 1) :
  exists s1 s2, increment s phys = Done s1 /\ release s1 phys = Done (false, s2).
Proof.
  destruct (increment_owners frames s own phys Ht Hp) as (s1 & H1 & Ht1); [lia|rewrite Hn; unfold U32; lia|].
  assert (with_owners own (frame_of phys) (own (frame_of phys) + 1) (frame_of phys) = 2) as E.
  { unfold with_owners. rewrite Z.eqb_refl. lia. }
  destruct (release_owners frames s1 _ phys Ht1 Hp) as (s2 & H2 & _); [lia|]. rewrite E in H2. eauto.
Qed.
