(* ===== verification/CowFault.v ===== *)
(** * Copy-on-write faults ([handle_cow_fault] of [kernel/proc/proc/src/fork.rs])

    The handler walks the page tables to the faulting entry, claims the frame
    or copies it, and rewrites the entry.  It is generic in the allocator,
    which here acts on the tracker's state, with [alloc_lawful] for what the
    handler relies on.  The contents of frames are [data]; the lock, which
    makes the handler atomic, and the TLB are left out, as is the check for
    null pointers, which direct-mapped addresses never are. *)
From S2P Require Import Prelude Zone PageDb FrameAlloc Paging Cow.

Section handler.
Context {D : Type} (alloc : Cow -> outcome (option Z * Cow)).

(** A mapped frame found FREE is marked allocated again. *)
Definition heal (c : Cow) (old_phys : Z) : Cow :=
  match cw_pdb c with
  | Some w =>
      match pdb_get (pw_db w) old_phys with
      | Some pf =>
          if is_free pf
          then mkCow (cw_counts c) (Some (on_frame w old_phys
                 (fun f => set_refcount 1 (set_flags (Z.lor PF_ALLOCATED PF_MAPPED) f))))
          else c
      | None => c
      end
  | None => c
  end.

(** The allocation loop: [attempts] more tries, eight in all. *)
Fixpoint alloc_copy (attempts : nat) (c : Cow) (old_phys : Z) : outcome (option Z * Cow) :=
  match attempts with
  | O => mret (None, c)
  | S n =>
      '(r, c) ← alloc c;
      match r with
      | None => mret (None, c)
      | Some candidate =>
          if negb (candidate =? old_phys) then mret (Some candidate, c)
          else alloc_copy n (heal c old_phys) old_phys
      end
  end.

Definition COW_RETRIES : nat := 8.

(** The flags of the entry after the fault: writable, not COW. *)
Definition private_flags (e : Z) : Z := Z.ldiff (Z.lor (entry_flags e) WRITABLE) COW.

(** [copy_nonoverlapping(src, dst, 4096)] *)
Definition copy_frame (data : Z -> D) (src dst : Z) : Z -> D :=
  fun f => if f =? frame_of dst then data (frame_of src) else data f.

(** The last-level entry: the tables on the way must be present, and the
    mapping not a huge page; the top level has no huge pages. *)
Definition fault_pt (m : TableMem) (root virt : Z) : option Z :=
  let e4 := m (slot root (level_index 4 virt)) in
  if negb (is_present e4) then None else
  let e3 := m (slot (entry_addr e4) (level_index 3 virt)) in
  if negb (is_present e3) || is_huge e3 then None else
  let e2 := m (slot (entry_addr e3) (level_index 2 virt)) in
  if negb (is_present e2) || is_huge e2 then None else Some (entry_addr e2).

Definition handle_cow_fault (m : TableMem) (c : Cow) (data : Z -> D) (root virt : Z)
    : outcome (bool * TableMem * Cow * (Z -> D)) :=
  match fault_pt m root virt with
  | None => mret (false, m, c, data)
  | Some pt =>
      let i := level_index 1 virt in
      let e := m (slot pt i) in
      if negb (is_present e) then mret (false, m, c, data) else
      if negb (is_cow e) then mret (is_writable e, m, c, data) else
      let old_phys := entry_addr e in
      let '(exclusive, c) := try_claim_exclusive c old_phys in
      if exclusive then mret (true, twrite m pt i (entry_set_flags e (private_flags e)), c, data)
      else
        '(r, c) ← alloc_copy COW_RETRIES c old_phys;
        match r with
        | None => mret (false, m, c, data)
        | Some new_phys =>
            mret (true, twrite m pt i (entry_new new_phys (private_flags e)), c, copy_frame data old_phys new_phys)
        end
  end.

(** What the handler relies on: a frame handed out is one that nobody owns,
    and is then owned once. *)
Definition alloc_lawful (frames : Z) : Prop :=
  forall c own, tracks_owners frames c own ->
  exists r c', alloc c = Done (r, c') /\
    match r with
    | None => tracks_owners frames c' own
    | Some a => exists p, a = p * 4096 /\ 0 <= p /\ (p + 1) * 4096 <= PHYS_LIMIT /\ own p = 0 /\
        tracks_owners frames c' (with_owners own p 1)
    end.

End handler.

(** ** Entries *)

Lemma private_flags_writable e a : is_writable (Z.lor (Z.land a ADDR_MASK) (private_flags e)) = true.
Proof.
  unfold is_writable, private_flags. apply negb_true_iff, Z.eqb_neq. intros E.
  apply (f_equal (fun z => Z.testbit z 1)) in E. rewrite Z.land_spec, Z.lor_spec, Z.ldiff_spec, Z.lor_spec, Z.bits_0 in E.
  change (Z.testbit WRITABLE 1) with true in E. change (Z.testbit COW 1) with false in E.
  by rewrite orb_true_r, andb_true_r, orb_true_r in E.
Qed.

Lemma private_flags_cow e a : is_cow (Z.lor (Z.land a ADDR_MASK) (private_flags e)) = false.
Proof.
  unfold is_cow, private_flags. apply negb_false_iff, Z.eqb_eq.
  rewrite Z.land_lor_distr_l, <- Z.land_assoc. change (Z.land ADDR_MASK COW) with 0. rewrite Z.land_0_r, Z.lor_0_l.
  apply Z.bits_inj'. intros n _. rewrite Z.land_spec, Z.ldiff_spec, Z.bits_0.
  destruct (Z.testbit COW n); [by rewrite andb_false_r|apply andb_false_r].
Qed.

Lemma private_flags_addr e a : entry_addr (Z.lor (Z.land a ADDR_MASK) (private_flags e)) = Z.land a ADDR_MASK.
Proof.
  unfold entry_addr, private_flags, entry_flags. apply Z.bits_inj'. intros n _.
  rewrite !Z.land_spec, Z.lor_spec, Z.land_spec, Z.ldiff_spec, Z.lor_spec, Z.land_spec.
  assert (Z.testbit ADDR_MASK n && (Z.testbit ALL_FLAGS n || Z.testbit WRITABLE n) = false) as Hd.
  { rewrite <- Z.lor_spec, <- Z.land_spec. change (Z.land ADDR_MASK (Z.lor ALL_FLAGS WRITABLE)) with 0. apply Z.bits_0. }
  destruct (Z.testbit ADDR_MASK n); simpl in *; [|by rewrite !andb_false_r].
  apply orb_false_iff in Hd as [-> ->]. by rewrite !andb_true_r, andb_false_r, orb_false_r.
Qed.

(** With the law, the loop ends at the first answer: the source of a copy is
    still owned, so it is not handed out. *)
Lemma alloc_copy_lawful alloc frames n c own old :
  alloc_lawful alloc frames -> tracks_owners frames c own -> 0 <= old -> own (frame_of old) <> 0 ->
  exists r c', alloc_copy alloc (S n) c old = Done (r, c') /\
    match r with
    | None => tracks_owners frames c' own /\ alloc c = Done (None, c')
    | Some a => frame_addr a /\ own (frame_of a) = 0 /\ tracks_owners frames c' (with_owners own (frame_of a) 1)
    end.
Proof.
  intros Hlaw Ht Hold Hn. destruct (Hlaw c own Ht) as (r & c' & Hal & Hr). exists r, c'.
  cbn [alloc_copy]. rewrite Hal. cbn [mbind outcome_bind]. destruct r as [a|]; [|done].
  destruct Hr as (p & -> & Hp & Hlim & Hfree & Ht'). assert (frame_of (p * 4096) = p) as E by apply frame_page.
  destruct (Z.eqb_spec (p * 4096) old) as [<-|_]; [congruence|]. cbn [negb]. split; [done|]. rewrite E.
  split_and!; [by exists p|done|done].
Qed.

(** An entry with [e]'s flags made private, for the frame at [a]. *)
Lemma private_entry a e :
  frame_addr a -> is_present e = true -> let e' := entry_new a (private_flags e) in
  entry_addr e' = a /\ is_present e' = true /\ is_writable e' = true /\ is_cow e' = false.
Proof.
  intros Ha Hp e'. unfold e'. assert (is_present (entry_new a (private_flags e)) = true) as ->.
  { rewrite is_present_bit in *. rewrite entry_new_bit by done. unfold private_flags, entry_flags.
    rewrite Z.ldiff_spec, Z.lor_spec, Z.land_spec, Hp. done. }
  unfold entry_new. rewrite private_flags_addr, private_flags_writable, private_flags_cow.
  by rewrite frame_addr_mask.
Qed.

(** The outcome of a fault on entry [i] of the table [pt]. *)
Definition fault_outcome {D} (alloc : Cow -> outcome (option Z * Cow)) (frames : Z) (m : TableMem) (own : Z -> Z) (data : Z -> D) (pt i : Z)
    (handled : bool) (m' : TableMem) (c' : Cow) (data' : Z -> D) : Prop :=
  let old := entry_addr (m (slot pt i)) in
  let n := own (frame_of old) in
  (n = 1 -> handled = true /\ data' = data /\ tracks_owners frames c' (with_owners own (frame_of old) 1) /\
     exists e', m' = twrite m pt i e' /\ entry_addr e' = old /\ is_present e' = true /\ is_writable e' = true /\ is_cow e' = false) /\
  (n <> 1 -> handled = true -> exists new e', own (frame_of new) = 0 /\ frame_of new <> frame_of old /\
     tracks_owners frames c' (with_owners (with_owners own (frame_of old) (n - 1)) (frame_of new) 1) /\
     m' = twrite m pt i e' /\ entry_addr e' = new /\ is_present e' = true /\ is_writable e' = true /\ is_cow e' = false /\
     data' (frame_of new) = data (frame_of old) /\ forall f, f <> frame_of new -> data' f = data f) /\
  (handled = false -> n <> 1 /\ m' = m /\ data' = data /\
     tracks_owners frames c' (with_owners own (frame_of old) (n - 1)) /\ exists c1, alloc c1 = Done (None, c')).

Lemma handle_cow_fault_spec {D} alloc frames m c own (data : Z -> D) root virt pt :
  alloc_lawful alloc frames -> tracks_owners frames c own -> fault_pt m root virt = Some pt ->
  is_present (m (slot pt (level_index 1 virt))) = true -> is_cow (m (slot pt (level_index 1 virt))) = true ->
  own (frame_of (entry_addr (m (slot pt (level_index 1 virt))))) <> 0 ->
  exists handled m' c' data', handle_cow_fault alloc m c data root virt = Done (handled, m', c', data') /\
    fault_outcome alloc frames m own data pt (level_index 1 virt) handled m' c' data'.
Proof.
  intros Hlaw Ht Hpt Hp Hc Hn. unfold fault_outcome. set (i := level_index 1 virt) in *.
  set (old := entry_addr (m (slot pt i))) in *. set (n := own (frame_of old)) in *. pose proof (entry_addr_frame (m (slot pt i))) as Hfr. fold old in Hfr.
  assert (0 <= old) as Hold. { destruct Hfr as (p & -> & ? & _). lia. }
  destruct (claim_owners frames c own old Ht Hold Hn) as [Hret Htr]. fold n in Hret, Htr.
  unfold handle_cow_fault. rewrite Hpt. fold i. rewrite Hp, Hc. cbn [negb]. fold old.
  destruct (try_claim_exclusive c old) as [exclusive c1]. cbn [fst snd] in *. subst exclusive.
  destruct (Z.eqb_spec n 1) as [E|E].
  - eexists _, _, _, _. split; [done|]. split_and!; try done.
    intros _. split_and!; try done. eexists. split; [done|].
    pose proof (private_entry old (m (slot pt i)) Hfr Hp) as Hpe. unfold entry_set_flags.
    unfold entry_new in Hpe. rewrite (frame_addr_mask old Hfr) in Hpe. exact Hpe.
  - assert (with_owners own (frame_of old) (n - 1) (frame_of old) <> 0) as Hn1.
    { unfold with_owners. rewrite Z.eqb_refl. destruct (owned_entry frames c own old Ht Hold Hn) as (_ & _ & _ & _ & _ & Hr & _).
      fold n in Hr. lia. }
    destruct (alloc_copy_lawful alloc frames 7 c1 _ old Hlaw Htr Hold Hn1) as (r & c2 & Hal & Hr).
    change COW_RETRIES with 8%nat. rewrite Hal. cbn [mbind outcome_bind]. destruct r as [new|].
    + destruct Hr as (Hfn & Hfree & Ht2). assert (frame_of new <> frame_of old) as Hne by (intros En; congruence).
      assert (own (frame_of new) = 0) as Hown0.
      { unfold with_owners in Hfree. by rewrite (proj2 (Z.eqb_neq _ _) Hne) in Hfree. }
      destruct (private_entry new (m (slot pt i)) Hfn Hp) as (Hea & Hep & Hew & Hec).
      eexists _, _, _, _. split; [done|]. split_and!; try done. intros _ _. exists new, (entry_new new (private_flags (m (slot pt i)))).
      split_and!; try done; unfold copy_frame.
      * by rewrite Z.eqb_refl.
      * intros f Hf. by rewrite (proj2 (Z.eqb_neq _ _) Hf).
    + destruct Hr. eexists _, _, _, _. split; [done|]. split_and!; [done|done|]. intros _. split_and!; [done..|]. by exists c1.
Qed.

(** ** Claims *)

(** C15.  Copy-on-write faults.  A write fault on a COW entry whose frame has
    [n] owners: with one owner the entry becomes writable in place; with more
    the faulting process gets its own writable copy of the contents in a frame
    nobody owned, the shared frame keeps its contents and loses this owner;
    only when memory runs out is the fault refused, with tables and contents
    unchanged.  No other entry and no other frame is touched. *)
Theorem cow_fault_correct {D} alloc frames m c own (data : Z -> D) root virt pt
    (Hlaw : alloc_lawful alloc frames) (Ht : tracks_owners frames c own)
    (Hpt : fault_pt m root virt = Some pt)
    (Hp : is_present (m (slot pt (level_index 1 virt))) = true)
    (Hc : is_cow (m (slot pt (level_index 1 virt))) = true)
    (Hn : own (frame_of (entry_addr (m (slot pt (level_index 1 virt))))) <> 0) :
  exists handled m' c' data', handle_cow_fault alloc m c data root virt = Done (handled, m', c', data') /\
    fault_outcome alloc frames m own data pt (level_index 1 virt) handled m' c' data'.
Proof. by apply handle_cow_fault_spec. Qed.

(** An allocator that knows one frame, and tables that map address 0 to frame 1. *)
Definition demo_alloc (c : Cow) : outcome (option Z * Cow) :=
  match cw_pdb c with
  | Some w =>
      match pdb_get (pw_db w) 0x2000 with
      | Some pf => if is_free pf then mret (Some 0x2000, mkCow (cw_counts c) (Some (mark_allocated w 0x2000 1)))
                   else mret (None, c)
      | None => mret (None, c)
      end
  | None => mret (None, c)
  end.

Lemma demo_alloc_lawful : alloc_lawful demo_alloc 4.
Proof.
  intros c own Ht. pose proof Ht as [(w & Hw & Hok) Hown]. unfold demo_alloc. rewrite Hw.
  destruct (pdb_get (pw_db w) 0x2000) as [pf|] eqn:Hpf; [|by eexists _, _].
  destruct (is_free pf) eqn:Hfree; [|by eexists _, _].
  assert (own 2 = 0) as H0.
  { destruct (decide (own 2 = 0)) as [|Hne]; [done|]. specialize (Hown 2 ltac:(lia)). unfold owned in Hown.
    rewrite (proj2 (Z.eqb_neq _ _) Hne) in Hown. destruct Hown as (_ & _ & w' & pf' & Hw' & Hpf' & _ & Ha & _).
    simplify_eq. assert (pf' = pf) as -> by (change (2 * 4096) with 0x2000 in Hpf'; congruence).
    by rewrite (has_flag_free pf Ha) in Hfree. }
  eexists _, _. split; [done|]. exists 2. split_and!; [done|done|done|done|].
  by apply (allocated_owners 4 c own w 0x2000 1).
Qed.

Definition demo_map : TableMem := fun a =>
  if a =? slot 0x100000 0 then entry_new 0x101000 (Z.lor PRESENT USER)
  else if a =? slot 0x101000 0 then entry_new 0x102000 (Z.lor PRESENT USER)
  else if a =? slot 0x102000 0 then entry_new 0x103000 (Z.lor PRESENT USER)
  else if a =? slot 0x103000 0 then entry_new 0x1000 (Z.lor (Z.lor PRESENT USER) COW)
  else 0.

Lemma cow_fault_correct_witness :
  exists c own handled m' c' data', tracks_owners 4 c own /\ own 1 = 2 /\
    handle_cow_fault demo_alloc demo_map c (fun f => f) 0x100000 0 = Done (handled, m', c', data') /\
    (handled = true -> exists f, own f = 0 /\ data' f = 1).
Proof.
  destruct (cow_step_refines 4 cow_demo _ (CAlloc 0x1000 1) _ _ cow_demo_tracks eq_refl) as (c1 & _ & Ht1).
  destruct (cow_step_refines 4 c1 _ (CShare 0x1000) _ _ Ht1 eq_refl) as (c2 & _ & Ht2).
  destruct (cow_fault_correct demo_alloc 4 demo_map c2 _ (fun f => f) 0x100000 0 0x103000 demo_alloc_lawful Ht2)
    as (handled & m' & c' & data' & H & _ & Hcopy & _);
    [vm_compute; reflexivity|vm_compute; reflexivity|vm_compute; reflexivity|vm_compute; discriminate|].
  eexists c2, _, handled, m', c', data'. split; [exact Ht2|]. split; [vm_compute; reflexivity|]. split; [exact H|].
  intros Hh. destruct (Hcopy ltac:(vm_compute; discriminate) Hh) as (new & e' & Hn & _ & _ & _ & _ & _ & _ & _ & Hd & _).
  exists (frame_of new). split; [exact Hn|]. rewrite Hd. vm_compute. reflexivity.
Defined.

(** When the copy fails for lack of memory the count has already dropped
    although the entry still refers to the frame: with two owners, unmapping
    by the process that faulted then frees the frame under the other owner. *)
Theorem cow_oom_frees_shared {D} alloc frames m c own (data : Z -> D) root virt pt
    (Hnone : forall c, alloc c = Done (None, c)) (Ht : tracks_owners frames c own)
    (Hpt : fault_pt m root virt = Some pt)
    (Hp : is_present (m (slot pt (level_index 1 virt))) = true)
    (Hc : is_cow (m (slot pt (level_index 1 virt))) = true)
    (Hn : own (frame_of (entry_addr (m (slot pt (level_index 1 virt))))) = 2) :
  exists c1 c2, handle_cow_fault alloc m c data root virt = Done (false, m, c1, data) /\
    release c1 (entry_addr (m (slot pt (level_index 1 virt)))) = Done (true, c2).
Proof.
  assert (alloc_lawful alloc frames) as Hlaw. { intros c0 own0 H0. exists None, c0. by rewrite Hnone. }
  set (old := entry_addr (m (slot pt (level_index 1 virt)))) in *.
  destruct (entry_addr_frame (m (slot pt (level_index 1 virt)))) as (p & Hold & Hpos & _). fold old in Hold.
  destruct (claim_owners frames c own old Ht ltac:(lia) ltac:(lia)) as [Hret Htr]. rewrite Hn in Hret, Htr.
  unfold handle_cow_fault. rewrite Hpt, Hp, Hc. cbn [negb]. fold old.
  destruct (try_claim_exclusive c old) as [exclusive c1]. cbn [fst snd] in *. subst exclusive. cbn [Z.eqb Pos.eqb] in *.
  change COW_RETRIES with 8%nat. cbn [alloc_copy]. rewrite Hnone. cbn [mbind outcome_bind].
  assert (with_owners own (frame_of old) (2 - 1) (frame_of old) = 1) as E by (unfold with_owners; by rewrite Z.eqb_refl).
  destruct (release_owners frames c1 _ old Htr ltac:(lia)) as (c2 & H2 & _); [lia|]. rewrite E in H2. eauto.
Qed.
