(* ===== verification/CfsHeap.v ===== *)
(** * The fair run queue

    [sched/sched/src/fair.rs]: the fixed array of [MAX_CFS_TASKS] entries that
    holds the runnable fair tasks of a CPU as a binary min-heap ordered by
    virtual runtime, ties broken by the lower pid.  The operations keep the
    array and its live length apart, as the source does, and panic ([Fault])
    on an index past the end of the array.

    The file proves that every operation keeps the heap order and that the
    queue refines a sorted list of entries: enqueuing inserts, dequeuing
    removes, and picking and popping give the least entry. *)
From stdpp Require Import sorting.
From S2P Require Import Prelude.

Definition SCHED_MIN_GRANULARITY_NS : Z := 1000000.
Definition SCHED_LATENCY_NS : Z := 6000000.
Definition MAX_CFS_TASKS : nat := 256.
Definition NICE_0_WEIGHT : Z := 1024.

(** [u64::saturating_add], [u64::saturating_sub], [u32::saturating_sub]. *)
Definition sat_add64 (a b : Z) : Z := Z.min (a + b) U64_MAX.
Definition sat_sub (a b : Z) : Z := Z.max (a - b) 0.

Record CfsEntry := CfsEnt { ce_vruntime : Z; ce_pid : Z }.

#[global] Instance CfsEntry_eq_dec : EqDecision CfsEntry.
Proof. solve_decision. Defined.

(** The sentinel of an unoccupied heap slot. *)
Definition EMPTY : CfsEntry := CfsEnt U64_MAX 0.

#[global] Instance CfsEntry_inhabited : Inhabited CfsEntry := populate EMPTY.

(** [Ord for CfsEntry]. *)
Definition cfs_cmp (a b : CfsEntry) : comparison :=
  match Z.compare (ce_vruntime a) (ce_vruntime b) with
  | Eq => Z.compare (ce_pid a) (ce_pid b)
  | ord => ord
  end.

Definition cfs_lt (a b : CfsEntry) : bool :=
  match cfs_cmp a b with Lt => true | _ => false end.

Record CfsRunQueue := {
  heap : list CfsEntry;
  len : nat;
  load_weight : Z;
  min_vruntime : Z;
  cfs_nr_running : Z
}.

Definition cfs_new : CfsRunQueue :=
  {| heap := replicate MAX_CFS_TASKS EMPTY; len := 0; load_weight := 0;
     min_vruntime := 0; cfs_nr_running := 0 |}.

Definition set_heap (q : CfsRunQueue) (h : list CfsEntry) : CfsRunQueue :=
  {| heap := h; len := len q; load_weight := load_weight q;
     min_vruntime := min_vruntime q; cfs_nr_running := cfs_nr_running q |}.

(** [heap[i]] and [heap[i] = e], which panic past the end of the array, and
    [slice::swap]. *)
Definition heap_get (h : list CfsEntry) (i : nat) : outcome CfsEntry := or_fault (h !! i).

Definition heap_set (h : list CfsEntry) (i : nat) (e : CfsEntry) : outcome (list CfsEntry) :=
  if decide (i < length h)%nat then Done (<[i := e]> h) else Fault.

Definition swap (h : list CfsEntry) (i j : nat) : outcome (list CfsEntry) :=
  a ← heap_get h i; b ← heap_get h j;
  h' ← heap_set h i b; heap_set h' j a.

Fixpoint sift_up (fuel : nat) (h : list CfsEntry) (idx : nat) : outcome (list CfsEntry) :=
  match fuel with
  | O => OutOfFuel
  | S fuel =>
      if decide (idx = 0)%nat then Done h else
      let parent := ((idx - 1) / 2)%nat in
      a ← heap_get h idx; b ← heap_get h parent;
      if cfs_lt a b then h' ← swap h idx parent; sift_up fuel h' parent
      else Done h
  end.

(** One comparison of [sift_down]: the index [i] replaces the smallest so far
    when it is live and its entry is smaller. *)
Definition smaller_of (h : list CfsEntry) (n i smallest : nat) : outcome nat :=
  if decide (i < n)%nat then
    a ← heap_get h i; b ← heap_get h smallest;
    Done (if cfs_lt a b then i else smallest)
  else Done smallest.

Fixpoint sift_down (fuel : nat) (h : list CfsEntry) (n idx : nat) : outcome (list CfsEntry) :=
  match fuel with
  | O => OutOfFuel
  | S fuel =>
      s1 ← smaller_of h n (2 * idx + 1) idx;
      smallest ← smaller_of h n (2 * idx + 2) s1;
      if decide (smallest = idx) then Done h else
      h' ← swap h idx smallest; sift_down fuel h' n smallest
  end.

Definition enqueue (q : CfsRunQueue) (pid vruntime weight : Z) : outcome (CfsRunQueue * Z) :=
  let adjusted := Z.max vruntime (sat_sub (min_vruntime q) SCHED_LATENCY_NS) in
  '(h, n) ← (if decide (len q < MAX_CFS_TASKS)%nat then
               h ← heap_set (heap q) (len q) (CfsEnt adjusted pid);
               h' ← sift_up (S (len q)) h (len q);
               Done (h', S (len q))
             else Done (heap q, len q));
  nr ← add32 (cfs_nr_running q) 1;
  Done ({| heap := h; len := n; load_weight := sat_add64 (load_weight q) weight;
           min_vruntime := min_vruntime q; cfs_nr_running := nr |}, adjusted).

(** [(0..len).find(|&i| heap[i].pid == pid)]. *)
Fixpoint find_pid (h : list CfsEntry) (n : nat) (pid : Z) : option nat :=
  match n, h with
  | S n, e :: h => if Z.eqb (ce_pid e) pid then Some 0%nat else S <$> find_pid h n pid
  | _, _ => None
  end.

(** The removal of the entry at [pos] from a heap of [S n] entries. *)
Definition remove_at (h : list CfsEntry) (n pos : nat) : outcome (list CfsEntry) :=
  if decide (pos < n)%nat then
    e ← heap_get h n; h ← heap_set h pos e; h ← heap_set h n EMPTY;
    x ← heap_get h pos; y ← heap_get h ((pos - 1) / 2);
    if bool_decide (0 < pos)%nat && cfs_lt x y then sift_up (S pos) h pos
    else sift_down (S n) h n pos
  else heap_set h n EMPTY.

Definition dequeue (q : CfsRunQueue) (pid weight : Z) : outcome (CfsRunQueue * bool) :=
  match find_pid (heap q) (len q) pid with
  | None => Done (q, false)
  | Some pos =>
      let n := (len q - 1)%nat in
      h ← remove_at (heap q) n pos;
      Done ({| heap := h; len := n; load_weight := sat_sub (load_weight q) weight;
               min_vruntime := min_vruntime q;
               cfs_nr_running := sat_sub (cfs_nr_running q) 1 |}, true)
  end.

Definition pick_next (q : CfsRunQueue) : outcome (option Z) :=
  if decide (0 < len q)%nat then e ← heap_get (heap q) 0; Done (Some (ce_pid e))
  else Done None.

Definition pop_next (q : CfsRunQueue) (weight : Z) : outcome (CfsRunQueue * option Z) :=
  if decide (len q = 0)%nat then Done (q, None) else
  e ← heap_get (heap q) 0;
  let n := (len q - 1)%nat in
  h ← (if decide (0 < n)%nat then
         l ← heap_get (heap q) n; h ← heap_set (heap q) 0 l; h ← heap_set h n EMPTY;
         sift_down (S n) h n 0
       else heap_set (heap q) 0 EMPTY);
  Done ({| heap := h; len := n; load_weight := sat_sub (load_weight q) weight;
           min_vruntime := min_vruntime q;
           cfs_nr_running := sat_sub (cfs_nr_running q) 1 |}, Some (ce_pid e)).

Definition update_min_vruntime (q : CfsRunQueue) (curr_vruntime : Z) : outcome CfsRunQueue :=
  new_min ← (if decide (0 < len q)%nat then e ← heap_get (heap q) 0; Done (ce_vruntime e)
             else Done curr_vruntime);
  Done {| heap := heap q; len := len q; load_weight := load_weight q;
          min_vruntime := Z.max (min_vruntime q) new_min;
          cfs_nr_running := cfs_nr_running q |}.

Definition set_min_vruntime (q : CfsRunQueue) (vruntime : Z) : CfsRunQueue :=
  {| heap := heap q; len := len q; load_weight := load_weight q;
     min_vruntime := vruntime; cfs_nr_running := cfs_nr_running q |}.

Definition calc_ideal_runtime (q : CfsRunQueue) (weight : Z) : Z :=
  if load_weight q =? 0 then SCHED_LATENCY_NS
  else Z.max ((weight * SCHED_LATENCY_NS / load_weight q) mod U64) SCHED_MIN_GRANULARITY_NS.

(** [FairSchedClass::calc_vruntime_delta]. *)
Definition calc_vruntime_delta (delta_exec weight : Z) : Z :=
  if weight =? 0 then delta_exec
  else (delta_exec * NICE_0_WEIGHT / weight) mod U64.

(** ** The order of entries *)

Definition cfs_le (a b : CfsEntry) : Prop :=
  ce_vruntime a < ce_vruntime b \/ (ce_vruntime a = ce_vruntime b /\ ce_pid a <= ce_pid b).

#[global] Instance cfs_le_dec : RelDecision cfs_le.
Proof. intros a b. unfold cfs_le. apply _. Defined.
#[global] Instance cfs_le_preorder : PreOrder cfs_le.
Proof. unfold cfs_le. split; [intros ?; lia|intros ???; lia]. Qed.
#[global] Instance cfs_le_total : Total cfs_le.
Proof. intros ??. unfold cfs_le. lia. Qed.
#[global] Instance cfs_le_antisymm : AntiSymm (=) cfs_le.
Proof. intros [v p] [w q]. unfold cfs_le; simpl. intros. f_equal; lia. Qed.

Lemma cfs_lt_spec a b : if cfs_lt a b then cfs_le a b else cfs_le b a.
Proof.
  unfold cfs_lt, cfs_cmp, cfs_le.
  destruct (Z.compare_spec (ce_vruntime a) (ce_vruntime b)); try lia.
  destruct (Z.compare_spec (ce_pid a) (ce_pid b)); lia.
Qed.

Lemma cfs_lt_irrefl a : cfs_lt a a = false.
Proof. unfold cfs_lt, cfs_cmp. by rewrite !Z.compare_refl. Qed.

(** ** Arrays *)

Lemma heap_get_ok h i : (i < length h)%nat -> exists e, heap_get h i = Done e /\ h !! i = Some e.
Proof. intros [e He]%lookup_lt_is_Some_2. exists e. unfold heap_get. by rewrite He. Qed.

Lemma heap_get_Some h i e : h !! i = Some e -> heap_get h i = Done e.
Proof. intros He. unfold heap_get. by rewrite He. Qed.

Lemma heap_set_ok h i e : (i < length h)%nat -> heap_set h i e = Done (<[i := e]> h).
Proof. intros. unfold heap_set. by rewrite decide_True. Qed.

(** The array with the entries [a] of [i] and [b] of [j] exchanged. *)
Definition exchange (h : list CfsEntry) (i j : nat) (a b : CfsEntry) : list CfsEntry :=
  <[j := a]> (<[i := b]> h).

Lemma swap_ok h i j a b :
  h !! i = Some a -> h !! j = Some b -> swap h i j = Done (exchange h i j a b).
Proof.
  intros Ha Hb. unfold swap. rewrite (heap_get_Some _ _ _ Ha), (heap_get_Some _ _ _ Hb).
  cbn [mbind outcome_bind]. rewrite heap_set_ok by by eapply lookup_lt_Some.
  cbn [mbind outcome_bind]. apply heap_set_ok. rewrite length_insert. by eapply lookup_lt_Some.
Qed.

Lemma exchange_lookup h i j a b k :
  h !! i = Some a -> h !! j = Some b ->
  exchange h i j a b !! k =
    if decide (k = j) then Some a else if decide (k = i) then Some b else h !! k.
Proof.
  intros Ha%lookup_lt_Some Hb%lookup_lt_Some. unfold exchange.
  destruct (decide (k = j)) as [->|].
  { apply list_lookup_insert_eq. by rewrite length_insert. }
  rewrite list_lookup_insert_ne by done. destruct (decide (k = i)) as [->|].
  - by apply list_lookup_insert_eq.
  - by apply list_lookup_insert_ne.
Qed.

Lemma insert_middle {A} (l1 l2 : list A) x y : <[length l1 := y]> (l1 ++ x :: l2) = l1 ++ y :: l2.
Proof. by rewrite insert_app_r_alt, Nat.sub_diag by lia. Qed.

Lemma exchange_perm_lt h i j a b :
  (i < j)%nat -> h !! i = Some a -> h !! j = Some b -> exchange h i j a b ≡ₚ h.
Proof.
  intros Hij Ha Hb. unfold exchange.
  apply list_elem_of_split_length in Ha as (l1 & l2 & -> & ->).
  rewrite lookup_app_r in Hb by lia. destruct (j - length l1)%nat as [|m] eqn:Em; [lia|].
  simpl in Hb. apply list_elem_of_split_length in Hb as (l3 & l4 & -> & ->).
  rewrite insert_middle.
  replace (l1 ++ b :: l3 ++ b :: l4) with ((l1 ++ b :: l3) ++ b :: l4) by by rewrite <- app_assoc.
  replace j with (length (l1 ++ b :: l3)) by (rewrite length_app; simpl; lia).
  rewrite insert_middle, <- app_assoc; simpl.
  apply Permutation_app_head. rewrite <- !Permutation_middle. constructor.
Qed.

Lemma exchange_comm h i j a b :
  h !! i = Some a -> h !! j = Some b -> exchange h i j a b = exchange h j i b a.
Proof.
  intros Ha Hb. unfold exchange. destruct (decide (i = j)) as [->|].
  - by simplify_eq.
  - by rewrite list_insert_insert_ne.
Qed.

Lemma exchange_perm h i j a b :
  h !! i = Some a -> h !! j = Some b -> exchange h i j a b ≡ₚ h.
Proof.
  intros Ha Hb. destruct (decide (i < j)%nat); [by apply exchange_perm_lt|].
  destruct (decide (j < i)%nat).
  - rewrite exchange_comm by done. by apply exchange_perm_lt.
  - assert (i = j) as -> by lia. simplify_eq. unfold exchange.
    by rewrite list_insert_insert_eq, list_insert_id.
Qed.

(** ** Heap order

    [child i j] says that [j] is a child of [i].  [heap_ok h n] is the order of
    the first [n] entries; [up_ok h n k] is the order of a heap whose entry at
    [k] may be smaller than its parent, [down_ok h n k] of one whose entry at
    [k] may be larger than its children. *)
Definition child (i j : nat) : Prop := (j = 2 * i + 1 \/ j = 2 * i + 2)%nat.

Definition heap_ok (h : list CfsEntry) (n : nat) : Prop :=
  forall i j x y, child i j -> (j < n)%nat -> h !! i = Some x -> h !! j = Some y -> cfs_le x y.

Definition grand_ok (h : list CfsEntry) (n k : nat) : Prop :=
  forall g j x y, child g k -> child k j -> (j < n)%nat ->
    h !! g = Some x -> h !! j = Some y -> cfs_le x y.

Definition up_ok (h : list CfsEntry) (n k : nat) : Prop :=
  (forall i j x y, child i j -> (j < n)%nat -> j <> k ->
     h !! i = Some x -> h !! j = Some y -> cfs_le x y) /\ grand_ok h n k.

Definition down_ok (h : list CfsEntry) (n k : nat) : Prop :=
  (forall i j x y, child i j -> (j < n)%nat -> i <> k ->
     h !! i = Some x -> h !! j = Some y -> cfs_le x y) /\ grand_ok h n k.

(** Two arrays with the same entries up to [n], in any order, and the same
    array from there on. *)
Definition same_upto (n : nat) (h h' : list CfsEntry) : Prop :=
  length h' = length h /\ take n h' ≡ₚ take n h /\ drop n h' = drop n h.

#[global] Instance same_upto_preorder n : PreOrder (same_upto n).
Proof.
  split; [by intros h|]. intros h1 h2 h3 (L1 & P1 & D1) (L2 & P2 & D2).
  split_and!; [congruence|by rewrite P2|congruence].
Qed.

Lemma parent_child k : (0 < k)%nat -> child ((k - 1) / 2) k.
Proof.
  intros Hk. unfold child.
  pose proof (Nat.div_mod (k - 1) 2 ltac:(lia)). pose proof (Nat.mod_upper_bound (k - 1) 2). lia.
Qed.

Lemma child_inj p q k : child p k -> child q k -> p = q.
Proof. unfold child. lia. Qed.

Lemma exchange_same_upto n h i j a b :
  (i < n)%nat -> (j < n)%nat -> h !! i = Some a -> h !! j = Some b ->
  same_upto n h (exchange h i j a b).
Proof.
  intros Hi Hj Ha Hb. unfold same_upto, exchange. rewrite !length_insert.
  rewrite !take_insert_lt, !drop_insert_lt by lia. split_and!; [done| |done].
  apply exchange_perm; rewrite lookup_take_lt; done.
Qed.

(** Splits a lookup in an exchanged array into its three cases. *)
Ltac exchange_cases :=
  repeat match goal with
  | H : exchange ?h ?i ?j ?a ?b !! ?k = Some _ |- _ =>
      rewrite (exchange_lookup h i j a b k) in H by done;
      destruct (decide (k = j)) as [->|?]; [injection H as <-|
        destruct (decide (k = i)) as [->|?]; [injection H as <-|]]
  end.

Ltac child_lia := unfold child in *; lia.

Lemma up_ok_exchange h n k p a b :
  child p k -> (k < n)%nat -> up_ok h n k -> h !! k = Some a -> h !! p = Some b ->
  cfs_le a b -> up_ok (exchange h k p a b) n p.
Proof.
  intros Hp Hk [Ho Hg] Ha Hb Hle. split.
  - intros i j x y Hc Hj Hjp Hx Hy. exchange_cases; try child_lia; try done.
    + etrans; [apply Hle|]. by eapply (Ho p j).
    + by eapply (Hg p j).
    + by eapply (Ho i j).
  - intros g j x y Hc Hc' Hj Hx Hy. exchange_cases; try child_lia.
    + eapply (Ho g p); child_lia || done.
    + etrans; [eapply (Ho g p)|eapply (Ho p j)]; child_lia || done.
Qed.

Lemma sift_up_ok fuel : forall h n k,
  (k < fuel)%nat -> (k < n <= length h)%nat -> up_ok h n k ->
  exists h', sift_up fuel h k = Done h' /\ heap_ok h' n /\ same_upto n h h'.
Proof.
  induction fuel as [|fuel IH]; [lia|]. intros h n k Hf Hk Hok; cbn [sift_up]; cbv zeta.
  destruct (decide (k = 0)%nat) as [->|Hk0].
  { exists h. split_and!; [done| |done]. intros i j x y Hc Hj Hx Hy. eapply (proj1 Hok i j); child_lia || done. }
  assert (child ((k - 1) / 2) k) as Hp by (apply parent_child; lia).
  set (p := ((k - 1) / 2)%nat) in *. clearbody p.
  destruct (heap_get_ok h k) as (a & -> & Ha); [lia|].
  destruct (heap_get_ok h p) as (b & -> & Hb); [child_lia|].
  cbn [mbind outcome_bind]. pose proof (cfs_lt_spec a b) as Hlt.
  destruct (cfs_lt a b).
  - rewrite (swap_ok _ _ _ _ _ Ha Hb). cbn [mbind outcome_bind].
    assert (same_upto n h (exchange h k p a b)) as Hs
      by (apply exchange_same_upto; [lia|child_lia|done..]).
    destruct (IH (exchange h k p a b) n p) as (h' & -> & Ho & Hs').
    + child_lia.
    + destruct Hs as [-> _]. child_lia.
    + apply up_ok_exchange; [done|lia|done..].
    + exists h'. split_and!; [done..|]. by etrans.
  - exists h. split_and!; [done| |done]. intros i j x y Hc Hj Hx Hy.
    destruct (decide (j = k)) as [->|]; [|by eapply (proj1 Hok i j)].
    assert (i = p) as -> by child_lia. by simplify_eq.
Qed.

(** What the two comparisons of [sift_down] choose: the entry itself when it is
    below its children, else the smaller child. *)
Definition least_of (h : list CfsEntry) (n k s : nat) : Prop :=
  (s = k \/ (child k s /\ (s < n)%nat)) /\
  (forall x y, h !! s = Some x -> h !! k = Some y -> cfs_le x y) /\
  (forall j x y, child k j -> (j < n)%nat -> h !! s = Some x -> h !! j = Some y -> cfs_le x y).

Lemma smaller_of_ok h n i s :
  (n <= length h)%nat -> (s < length h)%nat ->
  exists s', smaller_of h n i s = Done s' /\ (s' = s \/ (s' = i /\ (i < n)%nat)) /\
    (forall x y, h !! s' = Some x -> h !! s = Some y -> cfs_le x y) /\
    (forall x y, (i < n)%nat -> h !! s' = Some x -> h !! i = Some y -> cfs_le x y).
Proof.
  intros Hn Hs. unfold smaller_of. destruct (decide (i < n)%nat).
  - destruct (heap_get_ok h i) as (a & -> & Ha); [lia|].
    destruct (heap_get_ok h s) as (b & -> & Hb); [lia|]. cbn [mbind outcome_bind].
    pose proof (cfs_lt_spec a b) as Hlt. eexists. split; [done|].
    destruct (cfs_lt a b); split_and!; auto; intros; by simplify_eq.
  - exists s. split_and!; [done|auto|intros; by simplify_eq|lia].
Qed.

Lemma least_of_ok h n k :
  (k < n <= length h)%nat ->
  exists s1 s, smaller_of h n (2 * k + 1) k = Done s1 /\
    smaller_of h n (2 * k + 2) s1 = Done s /\ least_of h n k s.
Proof.
  intros Hk. destruct (smaller_of_ok h n (2 * k + 1) k) as (s1 & E1 & H1 & L1 & M1); [lia..|].
  destruct (smaller_of_ok h n (2 * k + 2) s1) as (s & E & H2 & L2 & M2); [lia..|].
  exists s1, s. split_and!; [done..|].
  assert (exists z, h !! s1 = Some z) as [z Hz] by (apply lookup_lt_is_Some_2; lia).
  split_and!.
  - unfold child. lia.
  - intros x y Hx Hy. etrans; [by eapply L2|by eapply L1].
  - intros j x y [-> | ->] Hj Hx Hy; [|by eapply M2].
    etrans; [by eapply L2|by eapply M1].
Qed.

Lemma down_ok_exchange h n k s a b :
  child k s -> (s < n)%nat -> down_ok h n k -> least_of h n k s ->
  h !! k = Some a -> h !! s = Some b -> down_ok (exchange h k s a b) n s.
Proof.
  intros Hs Hn [Ho Hg] (_ & Hle & Hl) Ha Hb. split.
  - intros i j x y Hc Hj Hi Hx Hy. exchange_cases; try child_lia.
    + by eapply Hle.
    + by eapply (Hg i s).
    + by eapply (Hl j).
    + by eapply (Ho i j).
  - intros g j x y Hc Hc' Hj Hx Hy. exchange_cases; try child_lia.
    by eapply (Ho s j); child_lia || done.
Qed.

Lemma sift_down_ok fuel : forall h n k,
  (n < fuel + k)%nat -> (k < n <= length h)%nat -> down_ok h n k ->
  exists h', sift_down fuel h n k = Done h' /\ heap_ok h' n /\ same_upto n h h'.
Proof.
  induction fuel as [|fuel IH]; [lia|]. intros h n k Hf Hk Hok; cbn [sift_down].
  destruct (least_of_ok h n k Hk) as (s1 & s & -> & E & Hl). cbn [mbind outcome_bind].
  rewrite E. cbn [mbind outcome_bind]. destruct (decide (s = k)) as [->|Hne].
  - exists h. split_and!; [done| |done]. intros i j x y Hc Hj Hx Hy.
    destruct (decide (i = k)) as [->|]; [by eapply (proj2 (proj2 Hl) j)|by eapply (proj1 Hok i j)].
  - destruct (proj1 Hl) as [?|[Hc Hs]]; [done|].
    destruct (heap_get_ok h k) as (a & _ & Ha); [lia|].
    destruct (heap_get_ok h s) as (b & _ & Hb); [lia|].
    rewrite (swap_ok _ _ _ _ _ Ha Hb). cbn [mbind outcome_bind].
    assert (same_upto n h (exchange h k s a b)) as Hsu by (apply exchange_same_upto; [lia..|done|done]).
    destruct (IH (exchange h k s a b) n s) as (h' & -> & Ho & Hs').
    + child_lia.
    + destruct Hsu as [-> _]. lia.
    + by apply down_ok_exchange.
    + exists h'. split_and!; [done..|]. by etrans.
Qed.

Lemma root_least h n i x y :
  heap_ok h n -> (i < n <= length h)%nat -> h !! 0%nat = Some x -> h !! i = Some y -> cfs_le x y.
Proof.
  intros Ho Hi Hx. revert y. induction (lt_wf i) as [i _ IH]; intros y Hy.
  destruct (decide (i = 0)%nat) as [->|Hi0]; [by simplify_eq|].
  pose proof (parent_child i ltac:(lia)) as Hp. set (p := ((i - 1) / 2)%nat) in *. clearbody p.
  destruct (lookup_lt_is_Some_2 h p) as [z Hz]; [child_lia|].
  etrans; [apply (IH p); [child_lia|child_lia|done]|]. eapply (Ho p i); child_lia || done.
Qed.

(** ** Operations on a consistent queue

    [entries q] are the live entries, [cfs_wf] the invariant: the array has its
    full size, the live entries are a heap and the task count is their number. *)
Definition entries (q : CfsRunQueue) : list CfsEntry := take (len q) (heap q).

Definition cfs_wf (q : CfsRunQueue) : Prop :=
  length (heap q) = MAX_CFS_TASKS /\ (len q <= MAX_CFS_TASKS)%nat /\
  heap_ok (heap q) (len q) /\ cfs_nr_running q = Z.of_nat (len q).

Lemma cfs_new_wf : cfs_wf cfs_new.
Proof.
  split_and!; [apply length_replicate|simpl; lia| |done].
  intros i j x y _ Hj. simpl in Hj. lia.
Qed.

Lemma length_entries q : cfs_wf q -> length (entries q) = len q.
Proof. intros (Hl & Hn & _). unfold entries. rewrite length_take. lia. Qed.

Lemma up_ok_last h n e :
  (n < length h)%nat -> heap_ok h n -> up_ok (<[n := e]> h) (S n) n.
Proof.
  intros Hn Ho. split.
  - intros i j x y Hc Hj Hne Hx Hy. rewrite !list_lookup_insert_ne in * by child_lia.
    eapply (Ho i j); child_lia || done.
  - intros g j x y _ Hc Hj. child_lia.
Qed.

Lemma enqueue_ok q pid vruntime weight :
  cfs_wf q -> (len q < MAX_CFS_TASKS)%nat ->
  let adjusted := Z.max vruntime (sat_sub (min_vruntime q) SCHED_LATENCY_NS) in
  exists q', enqueue q pid vruntime weight = Done (q', adjusted) /\ cfs_wf q' /\
    entries q' ≡ₚ CfsEnt adjusted pid :: entries q /\ min_vruntime q' = min_vruntime q /\
    load_weight q' = sat_add64 (load_weight q) weight.
Proof.
  intros (Hl & Hn & Ho & Hnr) Hlt adj. unfold enqueue. fold adj.
  rewrite decide_True by done. rewrite heap_set_ok by lia. cbn [mbind outcome_bind].
  destruct (sift_up_ok (S (len q)) (<[len q := CfsEnt adj pid]> (heap q)) (S (len q)) (len q))
    as (h & -> & Ho' & (Hlen & Hperm & _)); [lia|rewrite length_insert; lia|apply up_ok_last; [lia|done]|].
  cbn [mbind outcome_bind]. rewrite add32_ok by (unfold MAX_CFS_TASKS, U32 in *; lia).
  cbn [mbind outcome_bind]. eexists. split; [done|]. rewrite length_insert in Hlen.
  split_and!; unfold entries; simpl; [unfold cfs_wf; simpl; split_and!; [lia|lia|done|lia]| |done|done].
  rewrite Hperm, (take_S_r _ _ (CfsEnt adj pid)) by (apply list_lookup_insert_eq; lia).
  rewrite take_insert_ge by lia. rewrite Permutation_app_comm. done.
Qed.

(** Replacing the entry at [pos] by the last one leaves a heap in which only the
    new entry is out of place: upwards if it is below its parent, else downwards. *)
Section Replace.
Context (h : list CfsEntry) (n pos : nat) (old last : CfsEntry).
Context (Hn : (S n <= length h)%nat) (Hpos : (pos < n)%nat) (Ho : heap_ok h (S n)).
Context (Hold : h !! pos = Some old) (Hlast : h !! n = Some last).

Let h1 : list CfsEntry := <[n := EMPTY]> (<[pos := last]> h).

Lemma replaced_eq : h1 !! pos = Some last.
Proof using All.
  unfold h1. rewrite list_lookup_insert_ne by lia.
  apply list_lookup_insert_eq. by eapply lookup_lt_Some.
Qed.

Lemma replaced_ne i : (i < n)%nat -> i <> pos -> h1 !! i = h !! i.
Proof using All.
  intros. unfold h1. by rewrite !list_lookup_insert_ne by lia.
Qed.

Lemma replaced_grand : grand_ok h1 n pos.
Proof using All.
  intros g j x y Hg Hj Hjn. rewrite !replaced_ne by child_lia. intros Hx Hy.
  etrans; [eapply (Ho g pos)|eapply (Ho pos j)]; child_lia || done.
Qed.

Lemma replaced_up y :
  (0 < pos)%nat -> h1 !! ((pos - 1) / 2)%nat = Some y -> cfs_le last y -> up_ok h1 n pos.
Proof using All.
  intros H0 Hy Hle. split; [|apply replaced_grand].
  pose proof (parent_child pos H0) as Hp. revert Hp Hy.
  generalize ((pos - 1) / 2)%nat as p. intros p Hp Hy i j x z Hc Hj Hne Hx Hz. rewrite replaced_ne in Hz by lia.
  destruct (decide (i = pos)) as [->|].
  - rewrite replaced_eq in Hx. injection Hx as <-. rewrite replaced_ne in Hy by child_lia.
    etrans; [done|]. etrans; [eapply (Ho p pos)|eapply (Ho pos j)]; child_lia || done.
  - rewrite replaced_ne in Hx by child_lia. eapply (Ho i j); child_lia || done.
Qed.

Lemma replaced_down :
  (forall p y, child p pos -> h1 !! p = Some y -> cfs_le y last) -> down_ok h1 n pos.
Proof using All.
  intros Hle. split; [|apply replaced_grand]. intros i j x y Hc Hj Hne Hx Hy.
  destruct (decide (j = pos)) as [->|].
  - rewrite replaced_eq in Hy. injection Hy as <-. by eapply Hle.
  - rewrite replaced_ne in Hx by child_lia. rewrite replaced_ne in Hy by done.
    eapply (Ho i j); child_lia || done.
Qed.

Lemma replaced_entries : take (S n) h ≡ₚ old :: take n h1.
Proof using All.
  unfold h1. rewrite take_insert_ge, take_insert_lt by lia.
  rewrite (take_S_r _ _ last) by done.
  assert (take n h !! pos = Some old) as Hp by by rewrite lookup_take_lt.
  apply list_elem_of_split_length in Hp as (l1 & l2 & E & ->). rewrite E, insert_middle.
  rewrite Permutation_app_comm; simpl. rewrite <- !Permutation_middle. constructor.
Qed.

Lemma replaced_length : length h1 = length h.
Proof using All. unfold h1. by rewrite !length_insert. Qed.
End Replace.

Lemma remove_at_ok h n pos e :
  (S n <= length h)%nat -> (pos <= n)%nat -> heap_ok h (S n) -> h !! pos = Some e ->
  exists h', remove_at h n pos = Done h' /\ heap_ok h' n /\ length h' = length h /\
    take (S n) h ≡ₚ e :: take n h'.
Proof.
  intros Hn Hpos Ho He. unfold remove_at. destruct (decide (pos < n)%nat) as [Hlt|].
  - destruct (heap_get_ok h n) as (l & -> & Hl); [lia|]. cbn [mbind outcome_bind].
    rewrite heap_set_ok by lia. cbn [mbind outcome_bind].
    rewrite heap_set_ok by (rewrite length_insert; lia). cbn [mbind outcome_bind].
    set (h1 := <[n := EMPTY]> (<[pos := l]> h)).
    assert (h1 !! pos = Some l) as Hx by by eapply (replaced_eq h n pos).
    assert (length h1 = length h) as Hlen by by eapply (replaced_length h n pos e).
    rewrite (heap_get_Some _ _ _ Hx). cbn [mbind outcome_bind].
    destruct (heap_get_ok h1 ((pos - 1) / 2)) as (y & -> & Hy).
    { pose proof (Nat.Div0.div_le_upper_bound (pos - 1) 2 pos ltac:(lia)). lia. }
    cbn [mbind outcome_bind]. pose proof (cfs_lt_spec l y) as Hs.
    assert (exists h', (if bool_decide (0 < pos)%nat && cfs_lt l y then sift_up (S pos) h1 pos
                        else sift_down (S n) h1 n pos) = Done h' /\ heap_ok h' n /\ same_upto n h1 h')
      as (h' & -> & Ho' & (Hl' & Hp' & _)).
    { destruct (bool_decide_reflect (0 < pos)%nat) as [H0|H0]; cbn [andb].
      - destruct (cfs_lt l y).
        + apply sift_up_ok; [lia..|]. by eapply replaced_up.
        + apply sift_down_ok; [lia..|]. eapply replaced_down; try done.
          intros p z Hc Hz. rewrite (child_inj p _ pos Hc (parent_child pos H0)) in Hz.
          unfold h1 in Hy. rewrite Hz in Hy. by injection Hy as ->.
      - apply sift_down_ok; [lia..|]. eapply replaced_down; try done. intros p z Hc.
        exfalso. clear - Hc H0. child_lia. }
    exists h'. split_and!; [done..|congruence|]. rewrite Hp'. by apply replaced_entries.
  - assert (pos = n) as -> by lia. rewrite heap_set_ok by lia. eexists. split; [done|].
    rewrite length_insert, take_insert_ge by lia. split_and!; [|done|].
    + intros i j x y Hc Hj. rewrite !list_lookup_insert_ne by child_lia. intros Hx Hy.
      eapply (Ho i j); child_lia || done.
    + rewrite (take_S_r _ _ e) by done. by rewrite Permutation_app_comm.
Qed.

Lemma find_pid_Some h n pid pos :
  find_pid h n pid = Some pos -> (pos < n)%nat /\ exists e, h !! pos = Some e /\ ce_pid e = pid.
Proof.
  revert n pos. induction h as [|e h IH]; intros [|n] pos; simpl; try done.
  destruct (Z.eqb_spec (ce_pid e) pid).
  - intros [= <-]. split; [lia|]. by exists e.
  - intros (k & Hk & ->)%fmap_Some. apply IH in Hk as [? ?]. split; [lia|done].
Qed.

Lemma find_pid_None h n pid :
  find_pid h n pid = None -> forall e, e ∈ take n h -> ce_pid e <> pid.
Proof.
  revert n. induction h as [|e h IH]; intros [|n]; simpl; try set_solver.
  destruct (Z.eqb_spec (ce_pid e) pid); [done|]. intros Hf%fmap_None x [->|Hx]%elem_of_cons; [done|].
  by eapply IH.
Qed.

(** A queue after the removal of one entry. *)
Definition removed_from (q : CfsRunQueue) (weight : Z) (h : list CfsEntry) : CfsRunQueue :=
  {| heap := h; len := (len q - 1)%nat; load_weight := sat_sub (load_weight q) weight;
     min_vruntime := min_vruntime q; cfs_nr_running := sat_sub (cfs_nr_running q) 1 |}.

Lemma removed_from_ok q weight pos e :
  cfs_wf q -> (pos < len q)%nat -> heap q !! pos = Some e ->
  exists h, remove_at (heap q) (len q - 1) pos = Done h /\ cfs_wf (removed_from q weight h) /\
    entries q ≡ₚ e :: entries (removed_from q weight h).
Proof.
  intros (Hl & Hn & Ho & Hnr) Hp He.
  assert (S (len q - 1) = len q) as E by lia.
  destruct (remove_at_ok (heap q) (len q - 1) pos e) as (h & Hr & Ho' & Hl' & Hperm);
    [lia|lia|by rewrite E|done|].
  exists h. rewrite E in Hperm. split_and!; [done| |done].
  unfold cfs_wf; simpl. rewrite Hnr. unfold sat_sub. split_and!; [lia|lia|done|lia].
Qed.

Lemma dequeue_ok q pid weight :
  cfs_wf q ->
  (dequeue q pid weight = Done (q, false) /\ pid ∉ ce_pid <$> entries q) \/
  exists q' e, dequeue q pid weight = Done (q', true) /\ ce_pid e = pid /\ cfs_wf q' /\
    entries q ≡ₚ e :: entries q' /\ min_vruntime q' = min_vruntime q /\
    load_weight q' = sat_sub (load_weight q) weight.
Proof.
  intros Hwf. unfold dequeue. destruct (find_pid _ _ _) as [pos|] eqn:Ef.
  - right. apply find_pid_Some in Ef as (Hp & e & He & Hpid).
    destruct (removed_from_ok q weight pos e Hwf Hp He) as (h & -> & Hwf' & Hperm).
    cbn [mbind outcome_bind]. exists (removed_from q weight h), e. by split_and!.
  - left. split; [done|]. intros (e & -> & He)%list_elem_of_fmap. by eapply find_pid_None.
Qed.

Lemma pick_next_ok q :
  cfs_wf q ->
  (pick_next q = Done None /\ entries q = []) \/
  exists e, pick_next q = Done (Some (ce_pid e)) /\ heap q !! 0%nat = Some e /\ e ∈ entries q /\
    forall x, x ∈ entries q -> cfs_le e x.
Proof.
  intros (Hl & Hn & Ho & _). unfold pick_next, entries. destruct (decide (0 < len q)%nat).
  - right. destruct (heap_get_ok (heap q) 0) as (e & -> & He); [lia|]. exists e.
    split_and!; [done|done| |].
    + eapply (list_elem_of_lookup_2 _ 0). by rewrite lookup_take_lt.
    + intros x [i Hi]%list_elem_of_lookup_1. apply lookup_take_Some in Hi as [Hi Hlt].
      eapply (root_least (heap q) (len q) i); [done|lia|done..].
  - left. by replace (len q) with 0%nat by lia.
Qed.

(** Popping is removal at the root. *)
Lemma pop_remove_at h n :
  (n < length h)%nat ->
  (if decide (0 < n)%nat then
     l ← heap_get h n; h ← heap_set h 0 l; h ← heap_set h n EMPTY; sift_down (S n) h n 0
   else heap_set h 0 EMPTY) = remove_at h n 0.
Proof.
  intros Hn. unfold remove_at. destruct (decide (0 < n)%nat) as [H0|H0].
  - destruct (heap_get_ok h n) as (l & -> & Hl); [lia|]. cbn [mbind outcome_bind].
    rewrite heap_set_ok by lia. cbn [mbind outcome_bind].
    rewrite heap_set_ok by (rewrite length_insert; lia). cbn [mbind outcome_bind].
    destruct (heap_get_ok (<[n := EMPTY]> (<[0%nat := l]> h)) 0) as (x & E & _);
      [rewrite !length_insert; lia|].
    change ((0 - 1) / 2)%nat with 0%nat. by rewrite E.
  - by replace n with 0%nat by lia.
Qed.

Lemma pop_next_ok q weight :
  cfs_wf q ->
  (pop_next q weight = Done (q, None) /\ entries q = []) \/
  exists q' e, pop_next q weight = Done (q', Some (ce_pid e)) /\ cfs_wf q' /\
    entries q ≡ₚ e :: entries q' /\ (forall x, x ∈ entries q -> cfs_le e x) /\
    min_vruntime q' = min_vruntime q /\ load_weight q' = sat_sub (load_weight q) weight.
Proof.
  intros Hwf. unfold pop_next. destruct (decide (len q = 0)%nat) as [E|Hne].
  { left. split; [done|]. unfold entries. by rewrite E. }
  right. destruct (pick_next_ok q Hwf) as [[_ He]|(e & _ & He & _ & Hmin)].
  { exfalso. apply Hne. by rewrite <- length_entries, He. }
  destruct (removed_from_ok q weight 0 e Hwf) as (h & Hr & Hwf' & Hperm); [lia|done|].
  rewrite (heap_get_Some _ _ _ He). cbn [mbind outcome_bind].
  rewrite (pop_remove_at (heap q) (len q - 1)), Hr by (destruct Hwf; lia).
  cbn [mbind outcome_bind]. exists (removed_from q weight h), e. by split_and!.
Qed.

Lemma update_min_vruntime_ok q v :
  cfs_wf q ->
  exists q', update_min_vruntime q v = Done q' /\ cfs_wf q' /\ entries q' = entries q /\
    min_vruntime q <= min_vruntime q' /\ load_weight q' = load_weight q /\
    ((entries q = [] /\ min_vruntime q' = Z.max (min_vruntime q) v) \/
     exists e, e ∈ entries q /\ (forall x, x ∈ entries q -> cfs_le e x) /\
       min_vruntime q' = Z.max (min_vruntime q) (ce_vruntime e)).
Proof.
  intros Hwf. unfold update_min_vruntime.
  destruct (pick_next_ok q Hwf) as [[_ He]|(e & _ & He & Hin & Hmin)].
  - assert (len q = 0)%nat as E by by rewrite <- length_entries, He.
    rewrite decide_False by lia. cbn [mbind outcome_bind]. eexists. split; [done|].
    split_and!; [done|done|simpl; lia|done|by left].
  - assert (0 < len q)%nat as Hlen.
    { rewrite <- length_entries by done. destruct (entries q); [by apply elem_of_nil in Hin|simpl; lia]. }
    rewrite decide_True, (heap_get_Some _ _ _ He) by done. cbn [mbind outcome_bind].
    eexists. split; [done|]. split_and!; [done|done|simpl; lia|done|right; by exists e].
Qed.

(** ** Refinement of a sorted list

    The abstract fair queue is the list of its entries in increasing order with
    the floor [min_vruntime]. *)
Record FairSpec := { fs_entries : list CfsEntry; fs_min : Z }.

Fixpoint insert_sorted (e : CfsEntry) (l : list CfsEntry) : list CfsEntry :=
  match l with
  | [] => [e]
  | x :: l => if decide (cfs_le e x) then e :: x :: l else x :: insert_sorted e l
  end.

Inductive cfs_op :=
| OpEnqueue (pid vruntime weight : Z)
| OpDequeue (pid weight : Z)
| OpPick
| OpPop (weight : Z)
| OpUpdateMin (curr_vruntime : Z).

Inductive cfs_reply :=
| RVruntime (v : Z)
| RRemoved (b : bool)
| RPid (p : option Z)
| RUnit.

Definition cfs_exec (q : CfsRunQueue) (op : cfs_op) : outcome (CfsRunQueue * cfs_reply) :=
  match op with
  | OpEnqueue p v w => '(q, a) ← enqueue q p v w; Done (q, RVruntime a)
  | OpDequeue p w => '(q, b) ← dequeue q p w; Done (q, RRemoved b)
  | OpPick => p ← pick_next q; Done (q, RPid p)
  | OpPop w => '(q, p) ← pop_next q w; Done (q, RPid p)
  | OpUpdateMin v => q ← update_min_vruntime q v; Done (q, RUnit)
  end.

Definition spec_exec (s : FairSpec) (op : cfs_op) : FairSpec * cfs_reply :=
  let l := fs_entries s in
  match op with
  | OpEnqueue p v w =>
      let a := Z.max v (sat_sub (fs_min s) SCHED_LATENCY_NS) in
      ({| fs_entries := insert_sorted (CfsEnt a p) l; fs_min := fs_min s |}, RVruntime a)
  | OpDequeue p w =>
      ({| fs_entries := filter (fun e => ce_pid e <> p) l; fs_min := fs_min s |},
       RRemoved (bool_decide (p ∈ ce_pid <$> l)))
  | OpPick => (s, RPid (ce_pid <$> head l))
  | OpPop w => ({| fs_entries := tail l; fs_min := fs_min s |}, RPid (ce_pid <$> head l))
  | OpUpdateMin v =>
      ({| fs_entries := l;
          fs_min := Z.max (fs_min s) (from_option ce_vruntime v (head l)) |}, RUnit)
  end.

(** The callers enqueue a task at most once and never more than the capacity. *)
Definition cfs_allowed (s : FairSpec) (op : cfs_op) : Prop :=
  match op with
  | OpEnqueue p _ _ => (p ∉ ce_pid <$> fs_entries s) /\ (length (fs_entries s) < MAX_CFS_TASKS)%nat
  | _ => True
  end.

Definition cfs_refine (q : CfsRunQueue) (s : FairSpec) : Prop :=
  cfs_wf q /\ fs_entries s = merge_sort cfs_le (entries q) /\ fs_min s = min_vruntime q /\
  NoDup (ce_pid <$> entries q).

Lemma insert_sorted_perm e l : insert_sorted e l ≡ₚ e :: l.
Proof.
  induction l as [|x l IH]; simpl; [done|]. destruct (decide (cfs_le e x)); [done|].
  rewrite IH. constructor.
Qed.

Lemma insert_sorted_sorted e l : Sorted cfs_le l -> Sorted cfs_le (insert_sorted e l).
Proof.
  induction l as [|x l IH]; simpl; [by repeat constructor|]. intros Hs.
  destruct (decide (cfs_le e x)) as [Hle|Hgt]; [by constructor; [|constructor]|].
  apply Sorted_inv in Hs as [Hs Hd].
  assert (cfs_le x e) as Hxe by (destruct (total cfs_le x e); done).
  constructor; [by apply IH|]. destruct l as [|y l]; simpl; [by constructor|].
  destruct (decide (cfs_le e y)); constructor; [done|]. by inversion Hd.
Qed.

Lemma filter_sorted (P : CfsEntry -> Prop) `{forall e, Decision (P e)} l :
  Sorted cfs_le l -> Sorted cfs_le (filter P l).
Proof.
  intros Hs%Sorted_StronglySorted; [|apply _]. apply StronglySorted_Sorted.
  induction Hs as [|x l Hs IH Hx]; [constructor|]. rewrite filter_cons.
  destruct (decide (P x)); [|done]. constructor; [done|].
  apply Forall_forall. intros y [_ Hy]%list_elem_of_filter. rewrite Forall_forall in Hx. by apply Hx.
Qed.

(** A sorted list with the entries of the queue is the abstraction of the queue. *)
Lemma cfs_refine_intro q l m :
  cfs_wf q -> Sorted cfs_le l -> l ≡ₚ entries q -> m = min_vruntime q -> NoDup (ce_pid <$> l) ->
  cfs_refine q {| fs_entries := l; fs_min := m |}.
Proof.
  intros Hwf Hs Hp Hm Hnd. split_and!; [done| |done|by rewrite <- Hp].
  apply (Sorted_unique cfs_le); [done|by apply Sorted_merge_sort, _|].
  by rewrite merge_sort_Permutation.
Qed.

Lemma cfs_refine_perm q s : cfs_refine q s -> fs_entries s ≡ₚ entries q.
Proof. intros (_ & -> & _). apply merge_sort_Permutation. Qed.

Lemma cfs_refine_sorted q s : cfs_refine q s -> Sorted cfs_le (fs_entries s).
Proof. intros (_ & -> & _). by apply Sorted_merge_sort, _. Qed.

(** The least entry of the queue is the head of the list. *)
Lemma cfs_refine_head q s e :
  cfs_refine q s -> e ∈ entries q -> (forall x, x ∈ entries q -> cfs_le e x) ->
  exists l, fs_entries s = e :: l.
Proof.
  intros Hr He Hmin. pose proof (cfs_refine_perm _ _ Hr) as Hp.
  pose proof (cfs_refine_sorted _ _ Hr) as Hs. destruct (fs_entries s) as [|x l].
  { apply Permutation_nil_l in Hp. rewrite <- Hp in He. by apply elem_of_nil in He. }
  exists l. f_equal. apply (anti_symm cfs_le).
  - apply Sorted_StronglySorted in Hs; [|apply _]. apply StronglySorted_inv in Hs as [_ Hf].
    rewrite <- Hp in He. apply elem_of_cons in He as [->|He]; [done|].
    rewrite Forall_forall in Hf. by apply Hf.
  - apply Hmin. rewrite <- Hp. by left.
Qed.

Lemma cfs_refine_nil q s : cfs_refine q s -> entries q = [] -> fs_entries s = [].
Proof. intros Hr He. pose proof (cfs_refine_perm _ _ Hr) as Hp. rewrite He in Hp. by apply Permutation_nil_r. Qed.

Lemma filter_id (P : CfsEntry -> Prop) `{forall e, Decision (P e)} (l : list CfsEntry) :
  (forall x, x ∈ l -> P x) -> filter P l = l.
Proof.
  induction l as [|x l IH]; intros Hl; [done|]. rewrite filter_cons_True by (apply Hl; by left).
  f_equal. apply IH. intros y Hy. apply Hl. by right.
Qed.

Lemma NoDup_pids_filter e l (p := ce_pid e) :
  NoDup (ce_pid <$> e :: l) -> filter (fun x => ce_pid x <> p) (e :: l) = l.
Proof.
  intros Hnd. rewrite fmap_cons in Hnd. apply NoDup_cons in Hnd as [Hni _].
  rewrite filter_cons_False by (intros Hne; by apply Hne).
  apply filter_id. intros x Hx Heq. apply Hni. unfold p in Heq. rewrite <- Heq.
  by apply list_elem_of_fmap_2.
Qed.

(** Every operation of the queue gives the reply of the sorted list. *)
Lemma cfs_exec_simulates q s op :
  cfs_refine q s -> cfs_allowed s op ->
  exists q', cfs_exec q op = Done (q', (spec_exec s op).2) /\ cfs_refine q' (spec_exec s op).1.
Proof.
  intros Hr Ha. pose proof Hr as (Hwf & _ & Hm & Hnd). pose proof (cfs_refine_perm _ _ Hr) as Hp.
  pose proof (cfs_refine_sorted _ _ Hr) as Hs. rewrite <- Hp in Hnd.
  destruct op as [p v w|p w| |w|v]; cbn [cfs_exec spec_exec fst snd].
  - destruct Ha as [Hni Hlen]. destruct (enqueue_ok q p v w) as (q' & E & Hwf' & Hp' & Hm' & _).
    { done. } { rewrite <- length_entries, <- Hp by done. done. }
    rewrite E, Hm. cbn [mbind outcome_bind]. eexists. split; [done|].
    apply cfs_refine_intro; [done|by apply insert_sorted_sorted| |congruence|].
    + by rewrite insert_sorted_perm, Hp, Hp'.
    + rewrite insert_sorted_perm. simpl. by apply NoDup_cons.
  - destruct (dequeue_ok q p w Hwf) as [[-> Hni]|(q' & e & -> & <- & Hwf' & Hp' & Hm' & _)];
      cbn [mbind outcome_bind]; rewrite <- Hp in *.
    + rewrite bool_decide_false by done. eexists. split; [done|].
      rewrite filter_id by (intros x Hx <-; by apply Hni, list_elem_of_fmap_2).
      by destruct s.
    + rewrite bool_decide_true by (rewrite Hp'; by left). eexists. split; [done|].
      assert (filter (fun x => ce_pid x <> ce_pid e) (fs_entries s) ≡ₚ entries q') as Hf.
      { rewrite Hp', NoDup_pids_filter; [done|]. by rewrite <- Hp'. }
      apply cfs_refine_intro; [done|by apply filter_sorted|done|congruence|].
      rewrite Hf. rewrite Hp' in Hnd. by apply NoDup_cons in Hnd as [_ ?].
  - destruct (pick_next_ok q Hwf) as [[-> He]|(e & -> & _ & He & Hmin)]; cbn [mbind outcome_bind].
    + rewrite (cfs_refine_nil _ _ Hr He). eauto.
    + destruct (cfs_refine_head _ _ _ Hr He Hmin) as [l ->]. eauto.
  - destruct (pop_next_ok q w Hwf) as [[-> He]|(q' & e & -> & Hwf' & Hp' & Hmin & Hm' & _)];
      cbn [mbind outcome_bind].
    + rewrite (cfs_refine_nil _ _ Hr He). eexists. split; [done|].
      destruct s as [l m]; simpl in *. rewrite He in Hp. apply Permutation_nil_r in Hp as ->. done.
    + destruct (cfs_refine_head _ _ e Hr) as [l El]; [rewrite Hp'; by left|done|].
      rewrite El in *. eexists. split; [done|]. rewrite Hp' in Hp. apply (inj (cons e)) in Hp.
      apply cfs_refine_intro; [done|by apply Sorted_inv in Hs as [? _]|done|congruence|].
      by apply NoDup_cons in Hnd as [_ ?].
  - destruct (update_min_vruntime_ok q v Hwf) as (q' & -> & Hwf' & He' & _ & _ & Hmin).
    cbn [mbind outcome_bind]. eexists. split; [done|].
    apply cfs_refine_intro; [done|done|by rewrite He'| |done].
    destruct Hmin as [[He ->]|(e & He & Hmin & ->)]; rewrite Hm.
    + by rewrite (cfs_refine_nil _ _ Hr He).
    + by destruct (cfs_refine_head _ _ _ Hr He Hmin) as [l ->].
Qed.

(** ** Histories *)

Fixpoint cfs_run (q : CfsRunQueue) (ops : list cfs_op) : outcome (CfsRunQueue * list cfs_reply) :=
  match ops with
  | [] => Done (q, [])
  | op :: ops => '(q, r) ← cfs_exec q op; '(q, rs) ← cfs_run q ops; Done (q, r :: rs)
  end.

Fixpoint spec_run (s : FairSpec) (ops : list cfs_op) : FairSpec * list cfs_reply :=
  match ops with
  | [] => (s, [])
  | op :: ops => let '(s, r) := spec_exec s op in let '(s, rs) := spec_run s ops in (s, r :: rs)
  end.

Fixpoint cfs_disciplined (s : FairSpec) (ops : list cfs_op) : Prop :=
  match ops with
  | [] => True
  | op :: ops => cfs_allowed s op /\ cfs_disciplined (spec_exec s op).1 ops
  end.

Definition fair_empty : FairSpec := {| fs_entries := []; fs_min := 0 |}.

Lemma cfs_new_refines : cfs_refine cfs_new fair_empty.
Proof. apply cfs_refine_intro; [apply cfs_new_wf|constructor|done|done|constructor]. Qed.

Lemma cfs_run_simulates ops : forall q s,
  cfs_refine q s -> cfs_disciplined s ops ->
  exists q', cfs_run q ops = Done (q', (spec_run s ops).2) /\ cfs_refine q' (spec_run s ops).1.
Proof.
  induction ops as [|op ops IH]; intros q s Hr Hd; simpl; [eauto|].
  destruct Hd as [Ha Hd]. destruct (cfs_exec_simulates q s op Hr Ha) as (q1 & -> & Hr1).
  destruct (spec_exec s op) as [s1 r]; simpl in *.
  destruct (IH q1 s1 Hr1 Hd) as (q2 & -> & Hr2). cbn [mbind outcome_bind].
  destruct (spec_run s1 ops) as [s2 rs]; simpl in *. eauto.
Qed.

(** C20.  The fixed-capacity binary heap of the fair scheduler refines a sorted
    list: for every sequence of operations that enqueues a pid at most once at a
    time and at most [MAX_CFS_TASKS] of them, the heap never faults and gives
    the replies of the list that keeps the entries ordered by virtual runtime
    and pid, inserts with the wake-up credit, and picks and pops the head. *)
Theorem cfs_queue_refines (ops : list cfs_op) :
  cfs_disciplined fair_empty ops ->
  exists q, cfs_run cfs_new ops = Done (q, (spec_run fair_empty ops).2) /\
    cfs_refine q (spec_run fair_empty ops).1.
Proof. apply cfs_run_simulates, cfs_new_refines. Qed.

Definition sample_ops : list cfs_op :=
  [OpEnqueue 1 9000000 1024; OpEnqueue 2 8000000 1024; OpEnqueue 3 9500000 1024;
   OpUpdateMin 0; OpPick; OpPop 1024; OpEnqueue 2 100 1024; OpDequeue 1 1024; OpPop 1024; OpPop 1024].

Lemma cfs_queue_refines_witness :
  exists q, cfs_run cfs_new sample_ops = Done (q, (spec_run fair_empty sample_ops).2) /\
    cfs_refine q (spec_run fair_empty sample_ops).1.
Proof.
  apply (cfs_queue_refines sample_ops).
  repeat (split; [try exact I; try (split; [vm_compute; set_solver|vm_compute; lia])|]).
  exact I.
Defined.
