(* ===== verification/RtQueue.v ===== *)
(** * The real-time run queue

    [sched/sched/src/rt.rs]: 99 priority levels, each a FIFO in a fixed array of
    [MAX_RT_PER_PRIO] pids, and a bitmap of the non-empty levels from which the
    highest one is found by counting leading zeros.

    [level q i] is the content of level [i].  Every operation is shown to change
    exactly one level, in FIFO order, and to keep the bitmap, the lengths and the
    task count in agreement with the levels. *)
From S2P Require Import Prelude CfsHeap.

Definition RT_PRIO_MAX : Z := 99.
Definition RT_PRIO_LEVELS : nat := 99.
Definition MAX_RT_PER_PRIO : nat := 8.

Record RtRunQueue := {
  queues : list (list Z);
  queue_lens : list nat;
  bitmap : Z;
  rt_nr_running : Z
}.

Definition rt_new : RtRunQueue :=
  {| queues := replicate RT_PRIO_LEVELS (replicate MAX_RT_PER_PRIO 0);
     queue_lens := replicate RT_PRIO_LEVELS 0%nat; bitmap := 0; rt_nr_running := 0 |}.

(** Priorities 1 to 99 are the levels 0 to 98; other values are clamped. *)
Definition priority_to_index (priority : Z) : nat :=
  Z.to_nat (Z.max 1 (Z.min priority RT_PRIO_MAX) - 1).

Definition index_to_priority (idx : nat) : Z := (Z.of_nat idx + 1) mod 2 ^ 8.

(** [u128::leading_zeros] and the index of the highest bit that is set. *)
Definition leading_zeros128 (b : Z) : Z := if b =? 0 then 128 else 127 - Z.log2 b.

Definition highest_bit (b : Z) : nat := Z.to_nat (127 - leading_zeros128 b).

(** [row[i] = x], which panics past the end, and the loop
    [for i in pos..pos + k { row[i] = row[i + 1] }]. *)
Definition row_set (row : list Z) (i : nat) (x : Z) : outcome (list Z) :=
  if decide (i < length row)%nat then Done (<[i := x]> row) else Fault.

Fixpoint shift_left (row : list Z) (pos k : nat) : outcome (list Z) :=
  match k with
  | O => Done row
  | S k =>
      x ← or_fault (row !! S pos);
      row ← row_set row pos x;
      shift_left row (S pos) k
  end.

Definition rt_enqueue (q : RtRunQueue) (pid priority : Z) : outcome RtRunQueue :=
  let idx := priority_to_index priority in
  n ← or_fault (queue_lens q !! idx);
  if decide (n < MAX_RT_PER_PRIO)%nat then
    row ← or_fault (queues q !! idx);
    row ← row_set row n pid;
    nr ← add32 (rt_nr_running q) 1;
    Done {| queues := <[idx := row]> (queues q); queue_lens := <[idx := S n]> (queue_lens q);
            bitmap := Z.lor (bitmap q) (Z.shiftl 1 (Z.of_nat idx)); rt_nr_running := nr |}
  else Done q.

(** [queue_lens[idx] -= 1], clearing the bit of a level that becomes empty, and
    [nr_running -= 1]. *)
Definition shrink (q : RtRunQueue) (idx : nat) (row : list Z) (n : nat) : outcome RtRunQueue :=
  nr ← sub64 (rt_nr_running q) 1;
  let n := (n - 1)%nat in
  Done {| queues := <[idx := row]> (queues q); queue_lens := <[idx := n]> (queue_lens q);
          bitmap := if decide (n = 0)%nat then Z.ldiff (bitmap q) (Z.shiftl 1 (Z.of_nat idx))
                    else bitmap q;
          rt_nr_running := nr |}.

(** [(0..len).find(|&i| queues[idx][i] == pid)]. *)
Definition find_pos (row : list Z) (n : nat) (pid : Z) : option nat :=
  fst <$> list_find (fun x => x = pid) (take n row).

Definition rt_dequeue (q : RtRunQueue) (pid priority : Z) : outcome (RtRunQueue * bool) :=
  let idx := priority_to_index priority in
  n ← or_fault (queue_lens q !! idx);
  row ← or_fault (queues q !! idx);
  match find_pos row n pid with
  | Some pos =>
      row ← shift_left row pos (n - 1 - pos);
      q ← shrink q idx row n;
      Done (q, true)
  | None => Done (q, false)
  end.

Definition rt_pick_next (q : RtRunQueue) : outcome (option Z) :=
  if bitmap q =? 0 then Done None else
  let idx := highest_bit (bitmap q) in
  n ← or_fault (queue_lens q !! idx);
  if decide (0 < n)%nat then
    row ← or_fault (queues q !! idx); x ← or_fault (row !! 0%nat); Done (Some x)
  else Done None.

Definition rt_pop_next (q : RtRunQueue) : outcome (RtRunQueue * option Z) :=
  if bitmap q =? 0 then Done (q, None) else
  let idx := highest_bit (bitmap q) in
  n ← or_fault (queue_lens q !! idx);
  if decide (n = 0)%nat then Done (q, None) else
  row ← or_fault (queues q !! idx);
  pid ← or_fault (row !! 0%nat);
  row ← shift_left row 0 (n - 1);
  q ← shrink q idx row n;
  Done (q, Some pid).

Definition requeue_tail (q : RtRunQueue) (pid priority : Z) : outcome RtRunQueue :=
  let idx := priority_to_index priority in
  n ← or_fault (queue_lens q !! idx);
  row ← or_fault (queues q !! idx);
  match find_pos row n pid with
  | Some pos =>
      row ← shift_left row pos (n - 1 - pos);
      row ← row_set row (n - 1) pid;
      Done {| queues := <[idx := row]> (queues q); queue_lens := queue_lens q;
              bitmap := bitmap q; rt_nr_running := rt_nr_running q |}
  | None => Done q
  end.

Definition highest_priority (q : RtRunQueue) : Z :=
  if bitmap q =? 0 then 0 else index_to_priority (highest_bit (bitmap q)).

(** ** Levels *)

Definition level (q : RtRunQueue) (i : nat) : list Z :=
  take (queue_lens q !!! i) (queues q !!! i).

Definition rt_wf (q : RtRunQueue) : Prop :=
  length (queues q) = RT_PRIO_LEVELS /\ length (queue_lens q) = RT_PRIO_LEVELS /\
  (forall i row, queues q !! i = Some row -> length row = MAX_RT_PER_PRIO) /\
  (forall i n, queue_lens q !! i = Some n -> (n <= MAX_RT_PER_PRIO)%nat) /\
  0 <= bitmap q /\
  (forall i : nat, Z.testbit (bitmap q) (Z.of_nat i) = bool_decide (level q i <> [])) /\
  rt_nr_running q = Z.of_nat (sum_list (queue_lens q)).

Lemma rt_level q i :
  rt_wf q -> (i < RT_PRIO_LEVELS)%nat ->
  exists n row, queue_lens q !! i = Some n /\ queues q !! i = Some row /\
    length row = MAX_RT_PER_PRIO /\ (n <= MAX_RT_PER_PRIO)%nat /\ level q i = take n row /\
    length (level q i) = n.
Proof.
  intros (Hq & Hl & Hrow & Hn & _) Hi.
  destruct (lookup_lt_is_Some_2 (queue_lens q) i) as [n En]; [lia|].
  destruct (lookup_lt_is_Some_2 (queues q) i) as [row Er]; [lia|].
  exists n, row. pose proof (Hrow _ _ Er). pose proof (Hn _ _ En).
  assert (level q i = take n row) as E.
  { unfold level. by rewrite (list_lookup_total_correct _ _ _ En), (list_lookup_total_correct _ _ _ Er). }
  rewrite E, length_take. split_and!; try done. lia.
Qed.

Lemma level_beyond q i : rt_wf q -> (RT_PRIO_LEVELS <= i)%nat -> level q i = [].
Proof.
  intros (_ & Hl & _) Hi. unfold level. rewrite list_lookup_total_alt.
  by rewrite lookup_ge_None_2 by lia.
Qed.

Lemma sum_list_insert (l : list nat) i n m :
  l !! i = Some m -> (sum_list (<[i := n]> l) + m = sum_list l + n)%nat.
Proof.
  revert i. induction l as [|x l IH]; intros [|i]; simpl; try done.
  - intros [= ->]. lia.
  - intros Hi. specialize (IH i Hi). lia.
Qed.

(** Replacing one level keeps the invariant when the bitmap and the count follow. *)
Lemma rt_update q idx row n m bm nr :
  rt_wf q -> queue_lens q !! idx = Some m -> (idx < RT_PRIO_LEVELS)%nat ->
  length row = MAX_RT_PER_PRIO -> (n <= MAX_RT_PER_PRIO)%nat -> 0 <= bm ->
  (forall i : nat, Z.testbit bm (Z.of_nat i) =
     if decide (i = idx) then bool_decide (n <> 0%nat) else Z.testbit (bitmap q) (Z.of_nat i)) ->
  nr + Z.of_nat m = rt_nr_running q + Z.of_nat n ->
  let q' := {| queues := <[idx := row]> (queues q); queue_lens := <[idx := n]> (queue_lens q);
               bitmap := bm; rt_nr_running := nr |} in
  rt_wf q' /\ forall j, level q' j = if decide (j = idx) then take n row else level q j.
Proof.
  intros (Hq & Hl & Hrow & Hn & _ & Hbit & Hnr) Hm Hidx Hlr Hnn Hbm Htb Hsum q'.
  assert (forall j, level q' j = if decide (j = idx) then take n row else level q j) as Hlev.
  { intros j. unfold level; simpl. destruct (decide (j = idx)) as [->|].
    - by rewrite !list_lookup_total_insert_eq by lia.
    - by rewrite !list_lookup_total_insert_ne by done. }
  split; [|done]. split_and!; simpl.
  - by rewrite length_insert.
  - by rewrite length_insert.
  - intros i r [(-> & <- & _)|[_ Hr]]%list_lookup_insert_Some; [done|by eapply Hrow].
  - intros i k [(-> & <- & _)|[_ Hr]]%list_lookup_insert_Some; [done|by eapply Hn].
  - done.
  - intros i. rewrite Htb, Hlev. destruct (decide (i = idx)); [|apply Hbit].
    apply bool_decide_ext. rewrite <- length_zero_iff_nil, length_take. unfold MAX_RT_PER_PRIO in *. lia.
  - pose proof (sum_list_insert (queue_lens q) idx n m Hm). lia.
Qed.

Lemma rt_new_level i : level rt_new i = [].
Proof.
  unfold level. cbn [queue_lens rt_new]. rewrite (list_lookup_total_alt (replicate _ 0%nat) i).
  destruct (replicate RT_PRIO_LEVELS 0%nat !! i) as [n|] eqn:E; [|done].
  apply (lookup_replicate_1 RT_PRIO_LEVELS) in E as [-> _]. done.
Qed.

Lemma rt_new_wf : rt_wf rt_new.
Proof.
  split_and!; [done|done| | |done| |done]; simpl.
  - intros i row E. apply (lookup_replicate_1 RT_PRIO_LEVELS) in E as [-> _]. done.
  - intros i n E. apply (lookup_replicate_1 RT_PRIO_LEVELS) in E as [-> _]. unfold MAX_RT_PER_PRIO. lia.
  - intros i. rewrite Z.testbit_0_l, rt_new_level. done.
Qed.

(** ** Shifting a row *)

Lemma shift_left_spec k : forall row pos,
  (pos + k < length row)%nat ->
  shift_left row pos k =
    Done (take pos row ++ take k (drop (S pos) row) ++ drop (pos + k) row).
Proof.
  induction k as [|k IH]; intros row pos Hk; cbn [shift_left].
  - simpl. by rewrite Nat.add_0_r, take_drop.
  - destruct (lookup_lt_is_Some_2 row (S pos)) as [x Hx]; [lia|]. rewrite Hx.
    cbn [mbind outcome_bind or_fault]. unfold row_set. rewrite decide_True by lia.
    cbn [mbind outcome_bind]. rewrite IH by (rewrite length_insert; lia). f_equal.
    rewrite !drop_insert_lt by lia. rewrite (take_S_r _ pos x) by (apply list_lookup_insert_eq; lia).
    rewrite take_insert_ge by lia. rewrite (drop_S row x (S pos)) by done. simpl.
    rewrite <- app_assoc. by replace (S (pos + k)) with (pos + S k)%nat by lia.
Qed.

(** Closing the gap at [length l1] removes that pid from the level. *)
Lemma shift_left_remove row n l1 x l2 :
  take n row = l1 ++ x :: l2 -> (n <= length row)%nat ->
  exists row', shift_left row (length l1) (n - 1 - length l1) = Done row' /\
    length row' = length row /\ take (n - 1) row' = l1 ++ l2.
Proof.
  intros E Hn. assert (length (take n row) = length (l1 ++ x :: l2)) as Hlen by by rewrite E.
  rewrite length_take, length_app in Hlen. simpl in Hlen.
  rewrite shift_left_spec by lia. eexists. split; [done|].
  assert (take (length l1) row = l1) as E1.
  { rewrite <- (take_app_length l1 (x :: l2)) at 2. rewrite <- E, take_take. f_equal. lia. }
  assert (take (n - 1 - length l1) (drop (S (length l1)) row) = l2) as E2.
  { replace (n - 1 - length l1)%nat with (n - S (length l1))%nat by lia.
    rewrite <- skipn_firstn_comm. rewrite E. replace (l1 ++ x :: l2) with ((l1 ++ [x]) ++ l2)
      by by rewrite <- app_assoc.
    rewrite drop_app_length' by (rewrite length_app; simpl; lia). done. }
  rewrite E1, E2. split.
  - rewrite !length_app, length_drop. lia.
  - rewrite app_assoc, take_app_length' by (rewrite length_app; lia). done.
Qed.

(** ** The bitmap *)

Lemma priority_to_index_lt p : (priority_to_index p < RT_PRIO_LEVELS)%nat.
Proof. unfold priority_to_index, RT_PRIO_MAX, RT_PRIO_LEVELS. lia. Qed.

Lemma testbit_one_shift (i j : nat) :
  Z.testbit (Z.shiftl 1 (Z.of_nat i)) (Z.of_nat j) = bool_decide (j = i).
Proof.
  rewrite Z.shiftl_1_l, Z.pow2_bits_eqb by lia.
  destruct (Z.eqb_spec (Z.of_nat i) (Z.of_nat j)), (bool_decide_reflect (j = i)); try done; lia.
Qed.

Lemma testbit_set b (i j : nat) :
  Z.testbit (Z.lor b (Z.shiftl 1 (Z.of_nat i))) (Z.of_nat j) =
    if decide (j = i) then true else Z.testbit b (Z.of_nat j).
Proof.
  rewrite Z.lor_spec, testbit_one_shift.
  destruct (decide (j = i)); [by rewrite bool_decide_true, orb_true_r|by rewrite bool_decide_false, orb_false_r].
Qed.

Lemma testbit_clear b (i j : nat) :
  Z.testbit (Z.ldiff b (Z.shiftl 1 (Z.of_nat i))) (Z.of_nat j) =
    if decide (j = i) then false else Z.testbit b (Z.of_nat j).
Proof.
  rewrite Z.ldiff_spec, testbit_one_shift.
  destruct (decide (j = i)); [by rewrite bool_decide_true, andb_false_r|by rewrite bool_decide_false, andb_true_r].
Qed.

Lemma highest_bit_log2 b : 0 < b -> highest_bit b = Z.to_nat (Z.log2 b).
Proof.
  intros Hb. unfold highest_bit, leading_zeros128.
  destruct (Z.eqb_spec b 0); [lia|]. f_equal. lia.
Qed.

(** The bitmap finds the highest level that has a task. *)
Lemma highest_level q :
  rt_wf q -> bitmap q <> 0 ->
  let i := highest_bit (bitmap q) in
  (i < RT_PRIO_LEVELS)%nat /\ level q i <> [] /\ forall j, (i < j)%nat -> level q j = [].
Proof.
  intros Hwf Hb. pose proof Hwf as (_ & _ & _ & _ & H0 & Hbit & _).
  rewrite highest_bit_log2 by lia. simpl. pose proof (Z.log2_nonneg (bitmap q)).
  assert (level q (Z.to_nat (Z.log2 (bitmap q))) <> []) as Hne.
  { apply (bool_decide_unpack _). rewrite <- Hbit, Z2Nat.id by lia.
    apply Is_true_eq_left, Z.bit_log2. lia. }
  split_and!; [|done|].
  - apply dec_stable. intros Hge. apply Hne, level_beyond; [done|lia].
  - intros j Hj. apply dec_stable. intros Hn. apply (bool_decide_eq_true_2 _) in Hn.
    rewrite <- Hbit, Z.bits_above_log2 in Hn by lia. done.
Qed.

Lemma bitmap_zero q : rt_wf q -> bitmap q = 0 -> forall i, level q i = [].
Proof.
  intros (_ & _ & _ & _ & _ & Hbit & _) E i. specialize (Hbit i).
  rewrite E, Z.testbit_0_l in Hbit. symmetry in Hbit. apply bool_decide_eq_false in Hbit.
  by apply dec_stable.
Qed.

Lemma rt_nr_bound q : rt_wf q -> rt_nr_running q <= 99 * 8.
Proof.
  intros (_ & Hl & _ & Hn & _ & _ & ->).
  assert (forall l, (forall i n, l !! i = Some n -> (n <= 8)%nat) -> (sum_list l <= length l * 8)%nat) as Hs.
  { induction l as [|x l IH]; intros Hb; simpl; [lia|].
    pose proof (Hb 0%nat x eq_refl). pose proof (IH (fun i => Hb (S i))). lia. }
  specialize (Hs _ Hn). rewrite Hl in Hs. unfold RT_PRIO_LEVELS in Hs. lia.
Qed.

(** ** Operations on a consistent queue *)

Lemma rt_enqueue_ok q pid priority (idx := priority_to_index priority) :
  rt_wf q -> (length (level q idx) < MAX_RT_PER_PRIO)%nat ->
  exists q', rt_enqueue q pid priority = Done q' /\ rt_wf q' /\
    rt_nr_running q' = rt_nr_running q + 1 /\
    forall j, level q' j = if decide (j = idx) then level q idx ++ [pid] else level q j.
Proof.
  intros Hwf Hlt. destruct (rt_level q idx Hwf) as (n & row & En & Er & Hr & Hn & El & Hlen); [apply priority_to_index_lt|].
  unfold rt_enqueue. fold idx. rewrite En, Er. cbn [mbind outcome_bind or_fault].
  rewrite decide_True by lia. unfold row_set. rewrite decide_True by lia. cbn [mbind outcome_bind].
  pose proof (rt_nr_bound q Hwf). rewrite add32_ok by (unfold U32; lia). cbn [mbind outcome_bind].
  eexists. split; [done|].
  destruct (rt_update q idx (<[n := pid]> row) (S n) n
              (Z.lor (bitmap q) (Z.shiftl 1 (Z.of_nat idx))) (rt_nr_running q + 1)) as [Hwf' Hlev];
    [done|done|apply priority_to_index_lt|by rewrite length_insert|lia| | |lia|].
  - apply Z.lor_nonneg. split; [apply Hwf|]. apply Z.shiftl_nonneg. lia.
  - intros i. rewrite testbit_set. by destruct (decide (i = idx)).
  - split_and!; [done|done|]. intros j. rewrite Hlev. destruct (decide (j = idx)); [|done].
    rewrite (take_S_r _ _ pid) by (apply list_lookup_insert_eq; lia).
    by rewrite take_insert_ge, El by lia.
Qed.

(** A full level drops the task: the queue stays as it was. *)
Lemma rt_enqueue_full q pid priority :
  rt_wf q -> length (level q (priority_to_index priority)) = MAX_RT_PER_PRIO ->
  rt_enqueue q pid priority = Done q.
Proof.
  intros Hwf Hlen. destruct (rt_level q (priority_to_index priority) Hwf)
    as (n & row & En & _ & _ & _ & _ & E); [apply priority_to_index_lt|].
  unfold rt_enqueue. rewrite En. cbn [mbind outcome_bind or_fault]. by rewrite decide_False by lia.
Qed.

Lemma shrink_ok q idx row n l :
  rt_wf q -> queue_lens q !! idx = Some n -> (0 < n)%nat -> (idx < RT_PRIO_LEVELS)%nat ->
  length row = MAX_RT_PER_PRIO -> take (n - 1) row = l ->
  exists q', shrink q idx row n = Done q' /\ rt_wf q' /\
    rt_nr_running q' = rt_nr_running q - 1 /\
    forall j, level q' j = if decide (j = idx) then l else level q j.
Proof.
  intros Hwf En Hn Hidx Hr Hl. pose proof Hwf as (_ & Hll & _ & Hnb & H0 & Hbit & Hnr).
  pose proof (sum_list_insert _ _ 0%nat _ En). unfold shrink. rewrite sub64_ok by lia.
  cbn [mbind outcome_bind]. eexists. split; [done|].
  destruct (rt_update q idx row (n - 1) n
    (if decide ((n - 1)%nat = 0%nat) then Z.ldiff (bitmap q) (Z.shiftl 1 (Z.of_nat idx)) else bitmap q)
    (rt_nr_running q - 1)) as [Hwf' Hlev]; [done..| | | |lia|].
  - pose proof (Hnb _ _ En). lia.
  - destruct (decide _); [|done]. apply Z.ldiff_nonneg. by left.
  - intros i. destruct (rt_level q idx Hwf Hidx) as (m & row' & Em & _ & _ & _ & _ & Hm).
    assert (m = n) as -> by congruence.
    destruct (decide ((n - 1)%nat = 0%nat)) as [E|E].
    + rewrite testbit_clear. destruct (decide (i = idx)); [|done]. by rewrite bool_decide_false by lia.
    + destruct (decide (i = idx)) as [->|]; [|done]. rewrite Hbit.
      apply bool_decide_ext. rewrite <- length_zero_iff_nil. lia.
  - split_and!; [done|done|]. intros j. rewrite Hlev. by subst.
Qed.

Lemma find_pos_Some row n pid pos :
  find_pos row n pid = Some pos ->
  exists l1 l2, take n row = l1 ++ pid :: l2 /\ pos = length l1 /\ pid ∉ l1.
Proof.
  unfold find_pos. intros ([i x] & E & ->)%fmap_Some.
  apply list_find_Some in E as (Hi & -> & Hfirst).
  apply list_elem_of_split_length in Hi as (l1 & l2 & E & ->). exists l1, l2.
  split_and!; [done|done|]. intros [k Hk]%list_elem_of_lookup_1.
  pose proof (lookup_lt_Some _ _ _ Hk). apply (Hfirst k pid); [|done|done].
  rewrite E. by apply lookup_app_l_Some.
Qed.

Lemma find_pos_None row n pid : find_pos row n pid = None -> pid ∉ take n row.
Proof.
  unfold find_pos. intros E%fmap_None%list_find_None Hin.
  rewrite Forall_forall in E. by eapply E.
Qed.

Lemma rt_dequeue_ok q pid priority (idx := priority_to_index priority) :
  rt_wf q ->
  (rt_dequeue q pid priority = Done (q, false) /\ pid ∉ level q idx) \/
  exists q' l1 l2, rt_dequeue q pid priority = Done (q', true) /\ rt_wf q' /\
    rt_nr_running q' = rt_nr_running q - 1 /\
    level q idx = l1 ++ pid :: l2 /\ (pid ∉ l1) /\
    forall j, level q' j = if decide (j = idx) then l1 ++ l2 else level q j.
Proof.
  intros Hwf. pose proof (priority_to_index_lt priority) as Hidx. fold idx in Hidx.
  destruct (rt_level q idx Hwf Hidx) as (n & row & En & Er & Hr & Hn & El & Hlen).
  unfold rt_dequeue. fold idx. rewrite En, Er. cbn [mbind outcome_bind or_fault].
  destruct (find_pos row n pid) as [pos|] eqn:Ef.
  - right. apply find_pos_Some in Ef as (l1 & l2 & E & -> & Hni).
    destruct (shift_left_remove row n l1 pid l2) as (row' & -> & Hr' & Ht); [done|lia|].
    cbn [mbind outcome_bind].
    assert (0 < n)%nat by (rewrite El, E, length_app in Hlen; simpl in Hlen; lia).
    destruct (shrink_ok q idx row' n (l1 ++ l2)) as (q' & -> & Hwf' & Hnr & Hlev); [done..|lia|done|].
    cbn [mbind outcome_bind]. exists q', l1, l2. split_and!; try done. congruence.
  - left. split; [done|]. rewrite El. by apply find_pos_None.
Qed.

(** The head of the highest level that has a task. *)
Lemma rt_pick_next_ok q :
  rt_wf q ->
  (rt_pick_next q = Done None /\ forall i, level q i = []) \/
  exists i pid l, rt_pick_next q = Done (Some pid) /\ level q i = pid :: l /\
    (i < RT_PRIO_LEVELS)%nat /\ forall j, (i < j)%nat -> level q j = [].
Proof.
  intros Hwf. unfold rt_pick_next. destruct (Z.eqb_spec (bitmap q) 0) as [E|Hne].
  { left. split; [done|]. by apply bitmap_zero. }
  right. destruct (highest_level q Hwf Hne) as (Hi & Hnil & Hab).
  set (i := highest_bit (bitmap q)) in *. clearbody i.
  destruct (rt_level q i Hwf Hi) as (n & row & En & Er & Hr & Hn & El & Hlen).
  rewrite En, Er. cbn [mbind outcome_bind or_fault].
  destruct (level q i) as [|pid l] eqn:Elev; [done|]. simpl in Hlen. rewrite decide_True by lia.
  assert (row !! 0%nat = Some pid) as ->.
  { rewrite <- (lookup_take_lt row n) by lia. by rewrite <- El. }
  cbn [mbind outcome_bind or_fault]. exists i, pid, l. by split_and!.
Qed.

Lemma rt_pop_next_ok q :
  rt_wf q ->
  (rt_pop_next q = Done (q, None) /\ forall i, level q i = []) \/
  exists q' i pid l, rt_pop_next q = Done (q', Some pid) /\ rt_wf q' /\
    rt_nr_running q' = rt_nr_running q - 1 /\ level q i = pid :: l /\
    (i < RT_PRIO_LEVELS)%nat /\ (forall j, (i < j)%nat -> level q j = []) /\
    forall j, level q' j = if decide (j = i) then l else level q j.
Proof.
  intros Hwf. unfold rt_pop_next. destruct (Z.eqb_spec (bitmap q) 0) as [E|Hne].
  { left. split; [done|]. by apply bitmap_zero. }
  right. destruct (highest_level q Hwf Hne) as (Hi & Hnil & Hab).
  set (i := highest_bit (bitmap q)) in *. clearbody i.
  destruct (rt_level q i Hwf Hi) as (n & row & En & Er & Hr & Hn & El & Hlen).
  rewrite En, Er. cbn [mbind outcome_bind or_fault].
  destruct (level q i) as [|pid l] eqn:Elev; [done|]. simpl in Hlen. rewrite decide_False by lia.
  assert (row !! 0%nat = Some pid) as ->.
  { rewrite <- (lookup_take_lt row n) by lia. by rewrite <- El. }
  cbn [mbind outcome_bind or_fault].
  destruct (shift_left_remove row n [] pid l) as (row' & E & Hr' & Ht); [done|lia|].
  simpl in E. rewrite Nat.sub_0_r in E. rewrite E. cbn [mbind outcome_bind].
  destruct (shrink_ok q i row' n l) as (q' & -> & Hwf' & Hnr & Hlev); [done|done|lia|done|lia|done|].
  cbn [mbind outcome_bind]. exists q', i, pid, l. by split_and!.
Qed.

(** Requeueing moves a task to the back of its level. *)
Lemma requeue_tail_ok q pid priority (idx := priority_to_index priority) :
  rt_wf q ->
  (requeue_tail q pid priority = Done q /\ pid ∉ level q idx) \/
  exists q' l1 l2, requeue_tail q pid priority = Done q' /\ rt_wf q' /\
    level q idx = l1 ++ pid :: l2 /\ (pid ∉ l1) /\
    forall j, level q' j = if decide (j = idx) then l1 ++ l2 ++ [pid] else level q j.
Proof.
  intros Hwf. pose proof (priority_to_index_lt priority) as Hidx. fold idx in Hidx.
  destruct (rt_level q idx Hwf Hidx) as (n & row & En & Er & Hr & Hn & El & Hlen).
  unfold requeue_tail. fold idx. rewrite En, Er. cbn [mbind outcome_bind or_fault].
  destruct (find_pos row n pid) as [pos|] eqn:Ef.
  2:{ left. split; [done|]. rewrite El. by apply find_pos_None. }
  right. apply find_pos_Some in Ef as (l1 & l2 & E & -> & Hni).
  destruct (shift_left_remove row n l1 pid l2) as (row' & -> & Hr' & Ht); [done|lia|].
  cbn [mbind outcome_bind].
  assert (0 < n)%nat by (rewrite El, E, length_app in Hlen; simpl in Hlen; lia).
  unfold row_set. rewrite decide_True by lia. cbn [mbind outcome_bind].
  destruct (rt_update q idx (<[(n - 1)%nat := pid]> row') n n (bitmap q) (rt_nr_running q))
    as [Hwf' Hlev]; [done..|rewrite length_insert; lia|done|apply Hwf| |lia|].
  { intros i. destruct (decide (i = idx)) as [->|]; [|done].
    destruct Hwf as (_ & _ & _ & _ & _ & Hbit & _). rewrite Hbit.
    apply bool_decide_ext. rewrite <- length_zero_iff_nil. lia. }
  rewrite (list_insert_id _ _ _ En) in Hwf', Hlev.
  eexists _, l1, l2. split_and!; [done|done|congruence|done|]. intros j. rewrite Hlev.
  destruct (decide (j = idx)); [|done]. replace n with (S (n - 1)) at 1 by lia.
  rewrite (take_S_r _ _ pid) by (apply list_lookup_insert_eq; lia).
  rewrite take_insert_ge, Ht by lia. by rewrite <- app_assoc.
Qed.

Lemma highest_priority_ok q :
  rt_wf q ->
  (highest_priority q = 0 /\ forall i, level q i = []) \/
  exists i, highest_priority q = Z.of_nat i + 1 /\ level q i <> [] /\
    forall j, (i < j)%nat -> level q j = [].
Proof.
  intros Hwf. unfold highest_priority. destruct (Z.eqb_spec (bitmap q) 0) as [E|Hne].
  - left. split; [done|]. by apply bitmap_zero.
  - right. destruct (highest_level q Hwf Hne) as (Hi & Hnil & Hab).
    exists (highest_bit (bitmap q)). split_and!; [|done|done].
    unfold index_to_priority, RT_PRIO_LEVELS in *. rewrite Z.mod_small; lia.
Qed.
