(* ===== verification/CpuSets.v ===== *)
(** * CPU sets

    [CpuSet] of [sched/sched-traits/src/lib.rs]: four words of 64 bits, with the
    set each value stands for and the operations as operations on sets. *)
From S2P Require Import Prelude.

Definition CpuSet : Type := list Z.

Definition cpuset_empty : CpuSet := [0; 0; 0; 0].
Definition cpuset_all : CpuSet := [U64_MAX; U64_MAX; U64_MAX; U64_MAX].

Definition cpuset_set (s : CpuSet) (cpu : Z) : CpuSet :=
  if cpu <? 256 then
    alter (fun w => Z.lor w (Z.shiftl 1 (cpu mod 64))) (Z.to_nat (cpu / 64)) s
  else s.

Definition cpuset_clear (s : CpuSet) (cpu : Z) : CpuSet :=
  if cpu <? 256 then
    alter (fun w => Z.ldiff w (Z.shiftl 1 (cpu mod 64))) (Z.to_nat (cpu / 64)) s
  else s.

Definition cpuset_is_set (s : CpuSet) (cpu : Z) : bool :=
  if 256 <=? cpu then false
  else negb (Z.land (s !!! Z.to_nat (cpu / 64)) (Z.shiftl 1 (cpu mod 64)) =? 0).

Definition cpuset_single (cpu : Z) : CpuSet :=
  if cpu <? 256 then <[Z.to_nat (cpu / 64) := Z.shiftl 1 (cpu mod 64)]> cpuset_empty
  else cpuset_empty.

(** [first_set]: the lowest bit of the first word that is not zero. *)
Fixpoint first_set_from (i : Z) (s : CpuSet) : option Z :=
  match s with
  | [] => None
  | w :: s => if w =? 0 then first_set_from (i + 1) s
              else Some (i * 64 + Z.of_nat (trailing_zeros w))
  end.
Definition cpuset_first_set (s : CpuSet) : option Z := first_set_from 0 s.

Definition cpuset_range (first last : Z) : CpuSet :=
  foldl cpuset_set cpuset_empty (seqZ first (last - first + 1)).

Definition cpuset_is_empty (s : CpuSet) : bool := forallb (Z.eqb 0) s.

Definition cpuset_and (s t : CpuSet) : CpuSet := zip_with Z.land s t.
Definition cpuset_or (s t : CpuSet) : CpuSet := zip_with Z.lor s t.

(** ** The set a value stands for *)

Definition cpuset_wf (s : CpuSet) : Prop := length s = 4%nat /\ Forall (fun w => 0 <= w < U64) s.

Lemma cpuset_word s c : cpuset_wf s -> 0 <= c < 256 -> exists w, s !! Z.to_nat (c / 64) = Some w.
Proof.
  intros [Hl _] Hc. destruct (lookup_lt_is_Some_2 s (Z.to_nat (c / 64))) as [w Hw]; [|eauto].
  rewrite Hl. pose proof (Z.div_lt_upper_bound c 64 4). pose proof (Z.div_pos c 64). lia.
Qed.

Lemma is_set_bit s c w :
  0 <= c < 256 -> s !! Z.to_nat (c / 64) = Some w -> cpuset_is_set s c = Z.testbit w (c mod 64).
Proof.
  intros Hc Hw. unfold cpuset_is_set. destruct (Z.leb_spec 256 c); [lia|].
  rewrite (list_lookup_total_correct _ _ _ Hw). apply flag_bit. apply Z.mod_pos_bound. lia.
Qed.

Lemma is_set_range s c : cpuset_wf s -> 0 <= c -> cpuset_is_set s c = true -> c < 256.
Proof. unfold cpuset_is_set. destruct (Z.leb_spec 256 c); [done|lia]. Qed.

(** Two CPUs of the same word differ in their bit. *)
Lemma same_word c d :
  0 <= c -> 0 <= d -> Z.to_nat (c / 64) = Z.to_nat (d / 64) -> c mod 64 = d mod 64 -> c = d.
Proof.
  intros Hc Hd Hw Hb. pose proof (Z.div_pos c 64). pose proof (Z.div_pos d 64).
  rewrite (Z.div_mod c 64), (Z.div_mod d 64) by lia. rewrite Hb. f_equal. lia.
Qed.

Lemma cpuset_alter_is_set f s c d v :
  cpuset_wf s -> 0 <= c < 256 -> 0 <= d < 256 ->
  (forall w i, 0 <= i -> Z.testbit (f w) i = if decide (i = d mod 64) then v else Z.testbit w i) ->
  cpuset_is_set (alter f (Z.to_nat (d / 64)) s) c = if decide (c = d) then v else cpuset_is_set s c.
Proof.
  intros Hwf Hc Hd Hf. destruct (cpuset_word s c Hwf Hc) as [w Hw].
  pose proof (Z.mod_pos_bound c 64 ltac:(lia)). rewrite (is_set_bit s c w) by done.
  destruct (decide (Z.to_nat (d / 64) = Z.to_nat (c / 64))) as [E|E].
  - rewrite (is_set_bit _ c (f w)); [|done|unfold CpuSet in *; by rewrite E, list_lookup_alter_eq, Hw]. rewrite Hf by lia.
    destruct (decide (c = d)) as [->|Hne]; [by rewrite decide_True|].
    rewrite decide_False; [done|]. intros Hb. apply Hne. apply same_word; try lia; done.
  - rewrite (is_set_bit _ c w); [|done|unfold CpuSet in *; by rewrite list_lookup_alter_ne].
    rewrite decide_False; [done|]. by intros ->.
Qed.

Lemma cpuset_set_is_set s c d :
  cpuset_wf s -> 0 <= c < 256 -> 0 <= d < 256 ->
  cpuset_is_set (cpuset_set s d) c = bool_decide (c = d) || cpuset_is_set s c.
Proof.
  intros Hwf Hc Hd. unfold cpuset_set. destruct (Z.ltb_spec d 256); [|lia].
  rewrite (cpuset_alter_is_set _ s c d true); try done.
  - by destruct (decide (c = d)); [rewrite bool_decide_true|rewrite bool_decide_false].
  - intros w i Hi. pose proof (Z.mod_pos_bound d 64 ltac:(lia)).
    rewrite Z.lor_spec, Z.shiftl_1_l, Z.pow2_bits_eqb by lia.
    destruct (Z.eqb_spec (d mod 64) i), (decide (i = d mod 64)); try lia; apply orb_false_r.
Qed.

Lemma cpuset_clear_is_set s c d :
  cpuset_wf s -> 0 <= c < 256 -> 0 <= d < 256 ->
  cpuset_is_set (cpuset_clear s d) c = negb (bool_decide (c = d)) && cpuset_is_set s c.
Proof.
  intros Hwf Hc Hd. unfold cpuset_clear. destruct (Z.ltb_spec d 256); [|lia].
  rewrite (cpuset_alter_is_set _ s c d false); try done.
  - by destruct (decide (c = d)); [rewrite bool_decide_true|rewrite bool_decide_false].
  - intros w i Hi. pose proof (Z.mod_pos_bound d 64 ltac:(lia)).
    rewrite Z.ldiff_spec, Z.shiftl_1_l, Z.pow2_bits_eqb by lia.
    destruct (Z.eqb_spec (d mod 64) i), (decide (i = d mod 64)); try lia; apply andb_true_r.
Qed.

Lemma cpuset_empty_is_set c : 0 <= c -> cpuset_is_set cpuset_empty c = false.
Proof.
  intros Hc. destruct (decide (c < 256)); [|unfold cpuset_is_set; by destruct (Z.leb_spec 256 c); [|lia]].
  destruct (cpuset_word cpuset_empty c) as [w Hw]; [split; [done|repeat constructor; unfold U64; lia]|lia|].
  rewrite (is_set_bit _ c w) by (done || lia).
  assert (Forall (eq 0) cpuset_empty) as Hz by repeat constructor.
  rewrite <- (Forall_lookup_1 _ _ _ _ Hz Hw). apply Z.bits_0.
Qed.

Lemma cpuset_set_wf s d : cpuset_wf s -> 0 <= d -> cpuset_wf (cpuset_set s d).
Proof.
  intros [Hl Hs] Hd. unfold cpuset_set, cpuset_wf, CpuSet in *. destruct (d <? 256); [|done]. split; [by rewrite length_alter|].
  apply Forall_alter; [done|]. intros w _ Hw. pose proof (Z.mod_pos_bound d 64 ltac:(lia)).
  split; [apply Z.lor_nonneg; split; [lia|apply Z.shiftl_nonneg; lia]|].
  destruct (decide (w = 0)) as [->|].
  - rewrite Z.lor_0_l, Z.shiftl_1_l. change U64 with (2 ^ 64). apply Z.pow_lt_mono_r; lia.
  - change U64 with (2 ^ 64). apply Z.log2_lt_cancel. rewrite Z.log2_lor by (try apply Z.shiftl_nonneg; lia).
    rewrite Z.shiftl_1_l, Z.log2_pow2 by lia. rewrite Z.log2_pow2 by lia.
    assert (Z.log2 w < 64) by (apply Z.log2_lt_pow2; [lia|apply Hw]). lia.
Qed.

Lemma cpuset_single_set cpu : 0 <= cpu -> cpuset_single cpu = cpuset_set cpuset_empty cpu.
Proof.
  intros Hc. unfold cpuset_single, cpuset_set. destruct (Z.ltb_spec cpu 256) as [Hlt|]; [|done].
  assert (cpu / 64 = 0 \/ cpu / 64 = 1 \/ cpu / 64 = 2 \/ cpu / 64 = 3) as [-> | [-> | [-> | ->]]]; [|done..].
  pose proof (Z.div_lt_upper_bound cpu 64 4). pose proof (Z.div_pos cpu 64). lia.
Qed.

Lemma cpuset_zip_is_set f g s t c :
  cpuset_wf s -> cpuset_wf t -> 0 <= c < 256 ->
  (forall a b i, 0 <= i -> Z.testbit (f a b) i = g (Z.testbit a i) (Z.testbit b i)) ->
  cpuset_is_set (zip_with f s t) c = g (cpuset_is_set s c) (cpuset_is_set t c).
Proof.
  intros Hs Ht Hc Hf. destruct (cpuset_word s c Hs Hc) as [a Ha], (cpuset_word t c Ht Hc) as [b Hb].
  rewrite (is_set_bit s c a), (is_set_bit t c b), (is_set_bit _ c (f a b))
    by (try done; unfold CpuSet in *; by rewrite lookup_zip_with, Ha; simpl; rewrite Hb).
  apply Hf. apply Z.mod_pos_bound. lia.
Qed.

(** [range(first, last)] has the CPUs between its bounds. *)
Lemma cpuset_range_is_set first last c :
  0 <= first -> last < 256 -> 0 <= c < 256 ->
  cpuset_is_set (cpuset_range first last) c = bool_decide (first <= c <= last).
Proof.
  intros Hf Hl Hc. unfold cpuset_range.
  assert (forall l s, cpuset_wf s -> (forall d, d ∈ l -> 0 <= d < 256) ->
    cpuset_is_set (foldl cpuset_set s l) c = bool_decide (c ∈ l) || cpuset_is_set s c) as Hfold.
  { induction l as [|d l IH]; intros s Hs Hd; simpl; [done|].
    assert (0 <= d < 256) by (apply Hd; by left).
    rewrite IH; [|apply cpuset_set_wf; [done|lia]|intros; apply Hd; by right].
    rewrite cpuset_set_is_set by done.
    destruct (bool_decide_reflect (c = d)), (bool_decide_reflect (c ∈ l)), (bool_decide_reflect (c ∈ d :: l));
      set_solver. }
  rewrite Hfold.
  - rewrite cpuset_empty_is_set, orb_false_r by lia. apply bool_decide_ext. rewrite elem_of_seqZ. lia.
  - split; [done|]. repeat constructor; unfold U64; lia.
  - intros d Hd%elem_of_seqZ. lia.
Qed.

(** The lowest bit of a word of 64 bits. *)
Lemma trailing_zeros_spec w :
  0 < w < U64 -> Z.of_nat (trailing_zeros w) < 64 /\ Z.testbit w (Z.of_nat (trailing_zeros w)) = true /\
  forall i, 0 <= i < Z.of_nat (trailing_zeros w) -> Z.testbit w i = false.
Proof.
  intros Hw. destruct w as [|p|p]; try lia. cbn [trailing_zeros]. destruct (pos_ctz_spec p) as [H1 H2].
  split_and!; [|done..]. destruct (decide (Z.of_nat (pos_ctz p) < 64)); [done|].
  rewrite Z.bits_above_log2 in H1; [done|lia|]. assert (Z.log2 (Zpos p) < 64); [|lia].
  apply Z.log2_lt_pow2; [lia|]. apply Hw.
Qed.

Lemma first_set_from_spec s : forall i, 0 <= i -> Forall (fun w => 0 <= w < U64) s ->
  match first_set_from i s with
  | Some c => exists k w, s !! k = Some w /\ c = (i + Z.of_nat k) * 64 + Z.of_nat (trailing_zeros w) /\
      0 < w < U64 /\ forall j u, (j < k)%nat -> s !! j = Some u -> u = 0
  | None => forall j u, s !! j = Some u -> u = 0
  end.
Proof.
  induction s as [|w s IH]; intros i Hi Hs; simpl; [done|]. apply Forall_cons in Hs as [Hw Hs].
  destruct (Z.eqb_spec w 0) as [->|Hne].
  - specialize (IH (i + 1) ltac:(lia) Hs). destruct (first_set_from (i + 1) s) as [c|].
    + destruct IH as (k & u & Hk & -> & Hu & Hz). exists (S k), u. split_and!; [done|lia|lia|lia|].
      intros [|j] x Hj Hx; [by injection Hx|]. apply (Hz j); [lia|done].
    + intros [|j] x Hx; [by injection Hx|by eapply IH].
  - exists 0%nat, w. split_and!; [done|lia|lia|lia|]. intros j x Hj. lia.
Qed.

(** [first_set] is the least CPU of the set, if there is one. *)
Lemma first_set_spec s :
  cpuset_wf s ->
  match cpuset_first_set s with
  | Some f => 0 <= f < 256 /\ cpuset_is_set s f = true /\ forall c, 0 <= c -> cpuset_is_set s c = true -> f <= c
  | None => forall c, 0 <= c -> cpuset_is_set s c = false
  end.
Proof.
  intros Hwf. pose proof Hwf as [Hl Hs]. unfold cpuset_first_set.
  pose proof (first_set_from_spec s 0 ltac:(lia) Hs) as Hf. destruct (first_set_from 0 s) as [f|].
  - destruct Hf as (k & w & Hk & -> & Hw & Hz). destruct (trailing_zeros_spec w Hw) as (T1 & T2 & T3).
    set (b := Z.of_nat (trailing_zeros w)) in *. apply lookup_lt_Some in Hk as Hlt. rewrite Hl in Hlt.
    assert ((0 + Z.of_nat k) * 64 + b = b + Z.of_nat k * 64) as -> by lia.
    assert ((b + Z.of_nat k * 64) / 64 = Z.of_nat k) as Ed by (rewrite Z.div_add, Z.div_small; lia).
    assert ((b + Z.of_nat k * 64) mod 64 = b) as Em by (rewrite Z.mod_add, Z.mod_small; lia).
    split_and!; try lia.
    + rewrite (is_set_bit s _ w) by (try lia; by rewrite Ed, Nat2Z.id). by rewrite Em.
    + intros c Hc Hset. pose proof (is_set_range s c Hwf Hc Hset) as Hc'.
      destruct (cpuset_word s c Hwf ltac:(lia)) as [u Hu]. rewrite (is_set_bit s c u) in Hset by (done || lia).
      pose proof (Z.mod_pos_bound c 64 ltac:(lia)). pose proof (Z.div_mod c 64 ltac:(lia)).
      pose proof (Z.div_pos c 64 ltac:(lia) ltac:(lia)).
      destruct (Nat.lt_trichotomy (Z.to_nat (c / 64)) k) as [Hlt'|[Heq|Hgt]]; [| |lia].
      * rewrite (Hz _ u Hlt' Hu), Z.bits_0 in Hset. done.
      * rewrite Heq in Hu. assert (u = w) as -> by (unfold CpuSet in *; congruence).
        destruct (decide (b <= c mod 64)); [lia|]. rewrite T3 in Hset by lia. done.
  - intros c Hc. destruct (cpuset_is_set s c) eqn:E; [|done].
    pose proof (is_set_range s c Hwf Hc E). destruct (cpuset_word s c Hwf ltac:(lia)) as [u Hu].
    rewrite (is_set_bit s c u), (Hf _ _ Hu), Z.bits_0 in E by (done || lia). done.
Qed.

Lemma is_empty_first s : cpuset_is_empty s = true <-> cpuset_first_set s = None.
Proof.
  unfold cpuset_is_empty, cpuset_first_set.
  enough (forall i, forallb (Z.eqb 0) s = true <-> first_set_from i s = None) as H by apply H.
  induction s as [|w s IH]; intros i; cbn [forallb first_set_from]; [done|]. rewrite (Z.eqb_sym 0 w).
  destruct (w =? 0); [apply IH|done].
Qed.
