(* ===== verification/SchedTask.v ===== *)
(** * Tasks as the scheduler sees them

    [sched/sched-traits/src/lib.rs] and [sched/sched/src/task.rs]: task states
    as a bit mask, scheduling policies, the nice-to-weight table, and
    the fields and methods of [Task] the scheduler uses.  The saved register
    file is reduced to what scheduling reads of it; the FPU area, the page table
    root, the stacks and the process metadata are only stored there and are left
    out. *)
From S2P Require Import Prelude CfsHeap RtQueue CpuSets.

(** ** States and policies *)

Definition TASK_RUNNING : Z := 0.
Definition TASK_INTERRUPTIBLE : Z := 1.
Definition TASK_UNINTERRUPTIBLE : Z := 2.
Definition TASK_DEAD : Z := 16.
Definition TASK_ZOMBIE : Z := 32.

Definition is_runnable (s : Z) : bool := s =? TASK_RUNNING.
Definition is_sleeping (s : Z) : bool :=
  negb (Z.land s (Z.lor TASK_INTERRUPTIBLE TASK_UNINTERRUPTIBLE) =? 0).
Definition is_interruptible (s : Z) : bool := s =? TASK_INTERRUPTIBLE.
Definition is_dead (s : Z) : bool := negb (Z.land s (Z.lor TASK_DEAD TASK_ZOMBIE) =? 0).

Inductive SchedPolicy := Normal | Fifo | RoundRobin | Batch | Idle.

#[global] Instance SchedPolicy_eq_dec : EqDecision SchedPolicy.
Proof. solve_decision. Defined.

Definition is_realtime (p : SchedPolicy) : bool :=
  match p with Fifo | RoundRobin => true | _ => false end.
Definition is_fair (p : SchedPolicy) : bool :=
  match p with Normal | Batch => true | _ => false end.
Definition is_idle_policy (p : SchedPolicy) : bool :=
  match p with Idle => true | _ => false end.

Definition default_time_slice (p : SchedPolicy) : Z :=
  match p with RoundRobin => 10 | _ => 0 end.

Definition policy_try_from (v : Z) : result SchedPolicy unit :=
  match v with
  | 0 => Ok Normal | 1 => Ok Fifo | 2 => Ok RoundRobin | 3 => Ok Batch | 5 => Ok Idle
  | _ => Err tt
  end.

(** ** Weights *)

Definition NICE_TO_WEIGHT : list Z :=
  [88761; 71755; 56483; 46273; 36291; 29154; 23254; 18705; 14949; 11916;
   9548; 7620; 6100; 4904; 3906; 3121; 2501; 1991; 1586; 1277;
   1024; 820; 655; 526; 423; 335; 272; 215; 172; 137;
   110; 87; 70; 56; 45; 36; 29; 23; 18; 15].

Definition nice_to_weight (nice : Z) : Z :=
  NICE_TO_WEIGHT !!! Z.to_nat (Z.max 0 (Z.min (nice + 20) 39)).

Definition TICK_NS : Z := 10000000.

(** ** Tasks *)

(** No link in a sibling list ([u32::MAX]). *)
Definition PID_NONE : Z := U32_MAX.

(** What scheduling reads of the saved registers. *)
Record TaskContext := { rip : Z; rsp : Z; cs : Z }.

Definition default_context : TaskContext := {| rip := 0; rsp := 0; cs := 8 |}.

Definition is_schedulable (c : TaskContext) : bool :=
  negb (rip c =? 0) && negb (rsp c =? 0) && ((cs c =? 8) || (cs c =? 35)).

Record Task := MkTask {
  t_pid : Z;
  ppid : Z;
  state : Z;
  policy : SchedPolicy;
  context : TaskContext;
  rt_priority : Z;
  time_slice : Z;
  nice : Z;
  weight : Z;
  vruntime : Z;
  cpu_affinity : CpuSet;
  last_cpu : Z;
  exec_start : Z;
  sum_exec_runtime : Z;
  start_time : Z;
  preempt_count : Z;
  vruntime_charged_this_tick : bool;
  on_rq : bool;
  first_child : Z;
  sibling_next : Z;
  sibling_prev : Z;
  exit_status : Z;
  waiting_for_child : Z
}.

(** Assignments to the fields that the scheduler changes. *)
Definition with_state (x : Z) (t : Task) : Task :=
  MkTask (t_pid t) (ppid t) x (policy t) (context t) (rt_priority t) (time_slice t) (nice t)
    (weight t) (vruntime t) (cpu_affinity t) (last_cpu t) (exec_start t) (sum_exec_runtime t)
    (start_time t) (preempt_count t) (vruntime_charged_this_tick t) (on_rq t) (first_child t)
    (sibling_next t) (sibling_prev t) (exit_status t) (waiting_for_child t).
Definition with_policy (x : SchedPolicy) (t : Task) : Task :=
  MkTask (t_pid t) (ppid t) (state t) x (context t) (rt_priority t) (time_slice t) (nice t)
    (weight t) (vruntime t) (cpu_affinity t) (last_cpu t) (exec_start t) (sum_exec_runtime t)
    (start_time t) (preempt_count t) (vruntime_charged_this_tick t) (on_rq t) (first_child t)
    (sibling_next t) (sibling_prev t) (exit_status t) (waiting_for_child t).
Definition with_context (x : TaskContext) (t : Task) : Task :=
  MkTask (t_pid t) (ppid t) (state t) (policy t) x (rt_priority t) (time_slice t) (nice t)
    (weight t) (vruntime t) (cpu_affinity t) (last_cpu t) (exec_start t) (sum_exec_runtime t)
    (start_time t) (preempt_count t) (vruntime_charged_this_tick t) (on_rq t) (first_child t)
    (sibling_next t) (sibling_prev t) (exit_status t) (waiting_for_child t).
Definition with_rt_priority (x : Z) (t : Task) : Task :=
  MkTask (t_pid t) (ppid t) (state t) (policy t) (context t) x (time_slice t) (nice t)
    (weight t) (vruntime t) (cpu_affinity t) (last_cpu t) (exec_start t) (sum_exec_runtime t)
    (start_time t) (preempt_count t) (vruntime_charged_this_tick t) (on_rq t) (first_child t)
    (sibling_next t) (sibling_prev t) (exit_status t) (waiting_for_child t).
Definition with_time_slice (x : Z) (t : Task) : Task :=
  MkTask (t_pid t) (ppid t) (state t) (policy t) (context t) (rt_priority t) x (nice t)
    (weight t) (vruntime t) (cpu_affinity t) (last_cpu t) (exec_start t) (sum_exec_runtime t)
    (start_time t) (preempt_count t) (vruntime_charged_this_tick t) (on_rq t) (first_child t)
    (sibling_next t) (sibling_prev t) (exit_status t) (waiting_for_child t).
Definition with_nice (x : Z) (t : Task) : Task :=
  MkTask (t_pid t) (ppid t) (state t) (policy t) (context t) (rt_priority t) (time_slice t) x
    (weight t) (vruntime t) (cpu_affinity t) (last_cpu t) (exec_start t) (sum_exec_runtime t)
    (start_time t) (preempt_count t) (vruntime_charged_this_tick t) (on_rq t) (first_child t)
    (sibling_next t) (sibling_prev t) (exit_status t) (waiting_for_child t).
Definition with_weight (x : Z) (t : Task) : Task :=
  MkTask (t_pid t) (ppid t) (state t) (policy t) (context t) (rt_priority t) (time_slice t)
    (nice t) x (vruntime t) (cpu_affinity t) (last_cpu t) (exec_start t) (sum_exec_runtime t)
    (start_time t) (preempt_count t) (vruntime_charged_this_tick t) (on_rq t) (first_child t)
    (sibling_next t) (sibling_prev t) (exit_status t) (waiting_for_child t).
Definition with_vruntime (x : Z) (t : Task) : Task :=
  MkTask (t_pid t) (ppid t) (state t) (policy t) (context t) (rt_priority t) (time_slice t)
    (nice t) (weight t) x (cpu_affinity t) (last_cpu t) (exec_start t) (sum_exec_runtime t)
    (start_time t) (preempt_count t) (vruntime_charged_this_tick t) (on_rq t) (first_child t)
    (sibling_next t) (sibling_prev t) (exit_status t) (waiting_for_child t).
Definition with_cpu_affinity (x : CpuSet) (t : Task) : Task :=
  MkTask (t_pid t) (ppid t) (state t) (policy t) (context t) (rt_priority t) (time_slice t)
    (nice t) (weight t) (vruntime t) x (last_cpu t) (exec_start t) (sum_exec_runtime t)
    (start_time t) (preempt_count t) (vruntime_charged_this_tick t) (on_rq t) (first_child t)
    (sibling_next t) (sibling_prev t) (exit_status t) (waiting_for_child t).
Definition with_last_cpu (x : Z) (t : Task) : Task :=
  MkTask (t_pid t) (ppid t) (state t) (policy t) (context t) (rt_priority t) (time_slice t)
    (nice t) (weight t) (vruntime t) (cpu_affinity t) x (exec_start t) (sum_exec_runtime t)
    (start_time t) (preempt_count t) (vruntime_charged_this_tick t) (on_rq t) (first_child t)
    (sibling_next t) (sibling_prev t) (exit_status t) (waiting_for_child t).
Definition with_exec_start (x : Z) (t : Task) : Task :=
  MkTask (t_pid t) (ppid t) (state t) (policy t) (context t) (rt_priority t) (time_slice t)
    (nice t) (weight t) (vruntime t) (cpu_affinity t) (last_cpu t) x (sum_exec_runtime t)
    (start_time t) (preempt_count t) (vruntime_charged_this_tick t) (on_rq t) (first_child t)
    (sibling_next t) (sibling_prev t) (exit_status t) (waiting_for_child t).
Definition with_sum_exec_runtime (x : Z) (t : Task) : Task :=
  MkTask (t_pid t) (ppid t) (state t) (policy t) (context t) (rt_priority t) (time_slice t)
    (nice t) (weight t) (vruntime t) (cpu_affinity t) (last_cpu t) (exec_start t) x
    (start_time t) (preempt_count t) (vruntime_charged_this_tick t) (on_rq t) (first_child t)
    (sibling_next t) (sibling_prev t) (exit_status t) (waiting_for_child t).
Definition with_start_time (x : Z) (t : Task) : Task :=
  MkTask (t_pid t) (ppid t) (state t) (policy t) (context t) (rt_priority t) (time_slice t)
    (nice t) (weight t) (vruntime t) (cpu_affinity t) (last_cpu t) (exec_start t)
    (sum_exec_runtime t) x (preempt_count t) (vruntime_charged_this_tick t) (on_rq t)
    (first_child t) (sibling_next t) (sibling_prev t) (exit_status t) (waiting_for_child t).
Definition with_preempt_count (x : Z) (t : Task) : Task :=
  MkTask (t_pid t) (ppid t) (state t) (policy t) (context t) (rt_priority t) (time_slice t)
    (nice t) (weight t) (vruntime t) (cpu_affinity t) (last_cpu t) (exec_start t)
    (sum_exec_runtime t) (start_time t) x (vruntime_charged_this_tick t) (on_rq t)
    (first_child t) (sibling_next t) (sibling_prev t) (exit_status t) (waiting_for_child t).
Definition with_vruntime_charged_this_tick (x : bool) (t : Task) : Task :=
  MkTask (t_pid t) (ppid t) (state t) (policy t) (context t) (rt_priority t) (time_slice t)
    (nice t) (weight t) (vruntime t) (cpu_affinity t) (last_cpu t) (exec_start t)
    (sum_exec_runtime t) (start_time t) (preempt_count t) x (on_rq t) (first_child t)
    (sibling_next t) (sibling_prev t) (exit_status t) (waiting_for_child t).
Definition with_on_rq (x : bool) (t : Task) : Task :=
  MkTask (t_pid t) (ppid t) (state t) (policy t) (context t) (rt_priority t) (time_slice t)
    (nice t) (weight t) (vruntime t) (cpu_affinity t) (last_cpu t) (exec_start t)
    (sum_exec_runtime t) (start_time t) (preempt_count t) (vruntime_charged_this_tick t) x
    (first_child t) (sibling_next t) (sibling_prev t) (exit_status t) (waiting_for_child t).
Definition with_first_child (x : Z) (t : Task) : Task :=
  MkTask (t_pid t) (ppid t) (state t) (policy t) (context t) (rt_priority t) (time_slice t)
    (nice t) (weight t) (vruntime t) (cpu_affinity t) (last_cpu t) (exec_start t)
    (sum_exec_runtime t) (start_time t) (preempt_count t) (vruntime_charged_this_tick t)
    (on_rq t) x (sibling_next t) (sibling_prev t) (exit_status t) (waiting_for_child t).
Definition with_sibling_next (x : Z) (t : Task) : Task :=
  MkTask (t_pid t) (ppid t) (state t) (policy t) (context t) (rt_priority t) (time_slice t)
    (nice t) (weight t) (vruntime t) (cpu_affinity t) (last_cpu t) (exec_start t)
    (sum_exec_runtime t) (start_time t) (preempt_count t) (vruntime_charged_this_tick t)
    (on_rq t) (first_child t) x (sibling_prev t) (exit_status t) (waiting_for_child t).
Definition with_sibling_prev (x : Z) (t : Task) : Task :=
  MkTask (t_pid t) (ppid t) (state t) (policy t) (context t) (rt_priority t) (time_slice t)
    (nice t) (weight t) (vruntime t) (cpu_affinity t) (last_cpu t) (exec_start t)
    (sum_exec_runtime t) (start_time t) (preempt_count t) (vruntime_charged_this_tick t)
    (on_rq t) (first_child t) (sibling_next t) x (exit_status t) (waiting_for_child t).
Definition with_exit_status (x : Z) (t : Task) : Task :=
  MkTask (t_pid t) (ppid t) (state t) (policy t) (context t) (rt_priority t) (time_slice t)
    (nice t) (weight t) (vruntime t) (cpu_affinity t) (last_cpu t) (exec_start t)
    (sum_exec_runtime t) (start_time t) (preempt_count t) (vruntime_charged_this_tick t)
    (on_rq t) (first_child t) (sibling_next t) (sibling_prev t) x (waiting_for_child t).
Definition with_waiting_for_child (x : Z) (t : Task) : Task :=
  MkTask (t_pid t) (ppid t) (state t) (policy t) (context t) (rt_priority t) (time_slice t)
    (nice t) (weight t) (vruntime t) (cpu_affinity t) (last_cpu t) (exec_start t)
    (sum_exec_runtime t) (start_time t) (preempt_count t) (vruntime_charged_this_tick t)
    (on_rq t) (first_child t) (sibling_next t) (sibling_prev t) (exit_status t) x.

Definition task_new (pid ppid : Z) : Task :=
  MkTask pid ppid TASK_RUNNING Normal default_context 0 0 0 NICE_0_WEIGHT 0 cpuset_all 0 0 0 0 0
    false false PID_NONE PID_NONE PID_NONE 0 0.

Definition task_new_idle (pid cpu : Z) : Task :=
  MkTask pid 0 TASK_RUNNING Idle default_context 0 0 19 (nice_to_weight 19) 0 (cpuset_single cpu)
    cpu 0 0 0 0 false false PID_NONE PID_NONE PID_NONE 0 0.

Definition set_policy (p : SchedPolicy) (t : Task) : Task :=
  let t := with_policy p t in
  if decide (p = RoundRobin) then with_time_slice (default_time_slice p) t else t.

Definition set_nice (n : Z) (t : Task) : Task :=
  let n := Z.max (-20) (Z.min n 19) in
  with_weight (nice_to_weight n) (with_nice n t).

Definition set_rt_priority (p : Z) (t : Task) : Task :=
  with_rt_priority (Z.max 1 (Z.min p 99)) t.

Definition can_run_on (t : Task) (cpu : Z) : bool := cpuset_is_set (cpu_affinity t) cpu.

Definition preempt_disable (t : Task) : Task :=
  with_preempt_count (Z.min (preempt_count t + 1) U32_MAX) t.
Definition preempt_enable (t : Task) : Task :=
  with_preempt_count (sat_sub (preempt_count t) 1) t.

(** [account_stop]: the time since [exec_start], and the task with it charged. *)
Definition account_stop (now : Z) (t : Task) : Z * Task :=
  let delta := sat_sub now (exec_start t) in
  (delta, with_exec_start 0 (with_sum_exec_runtime (sat_add64 (sum_exec_runtime t) delta) t)).

(** The charge of [delta] nanoseconds, scaled by the weight. *)
Definition weighted_delta (w delta : Z) : Z :=
  if 0 <? w then (delta * NICE_0_WEIGHT / w) mod U64 else delta.

Definition update_vruntime (delta : Z) (t : Task) : Task :=
  with_vruntime (sat_add64 (vruntime t) (weighted_delta (weight t) delta)) t.

Definition wait_for_child (child : Z) (t : Task) : Task :=
  let t := with_waiting_for_child child t in
  if child =? 0 then t else with_state TASK_INTERRUPTIBLE t.

Definition is_waiting_for (t : Task) (child : Z) : bool :=
  if waiting_for_child t =? 0 then false
  else if waiting_for_child t =? -1 then true
  else waiting_for_child t mod U32 =? child.

Definition clear_waiting (t : Task) : Task :=
  with_state TASK_RUNNING (with_waiting_for_child 0 t).

Definition task_exit (status : Z) (t : Task) : Task :=
  with_state TASK_ZOMBIE (with_exit_status status t).

Definition unlink_first_child (child replacement : Z) (t : Task) : Task :=
  if first_child t =? child then with_first_child replacement t else t.
