(* ===== verification/RunQueue.v ===== *)
(** * The run queue of a CPU

    [sched/sched/src/runqueue.rs]: the task slots with their free stack and the
    global table [PID_TO_SLOT], the real-time and fair queues, and the
    operations on them.

    A run queue is passed together with the table, of which [slot_of p] is the
    slot of pid [p] and an absent entry is [SLOT_NONE].  The slots are allocated
    once with [MAX_TASKS_PER_RQ] elements, so that a guarded index is in range. *)
From S2P Require Import Prelude CfsHeap RtQueue CpuSets SchedTask.

Definition MAX_TASKS_PER_RQ : nat := 256.
Definition MAX_PIDS : Z := 4096.

(** The table [PID_TO_SLOT]. *)
Abbreviation PidToSlot := (gmap Z nat).

Record RunQueue := MkRq {
  rq_cpu : Z;
  curr : option Z;
  idle : Z;
  nr_running : Z;
  rt_rq : RtRunQueue;
  cfs_rq : CfsRunQueue;
  clock : Z;
  slots : list (option Task);
  free_stack : list nat;
  need_resched : bool
}.

Definition set_curr (c : option Z) (r : RunQueue) : RunQueue :=
  MkRq (rq_cpu r) c (idle r) (nr_running r) (rt_rq r) (cfs_rq r) (clock r) (slots r)
    (free_stack r) (need_resched r).
Definition set_nr (n : Z) (r : RunQueue) : RunQueue :=
  MkRq (rq_cpu r) (curr r) (idle r) n (rt_rq r) (cfs_rq r) (clock r) (slots r)
    (free_stack r) (need_resched r).
Definition set_rt (q : RtRunQueue) (r : RunQueue) : RunQueue :=
  MkRq (rq_cpu r) (curr r) (idle r) (nr_running r) q (cfs_rq r) (clock r) (slots r)
    (free_stack r) (need_resched r).
Definition set_cfs (q : CfsRunQueue) (r : RunQueue) : RunQueue :=
  MkRq (rq_cpu r) (curr r) (idle r) (nr_running r) (rt_rq r) q (clock r) (slots r)
    (free_stack r) (need_resched r).
Definition update_clock (now : Z) (r : RunQueue) : RunQueue :=
  MkRq (rq_cpu r) (curr r) (idle r) (nr_running r) (rt_rq r) (cfs_rq r) now (slots r)
    (free_stack r) (need_resched r).
Definition set_slots (l : list (option Task)) (r : RunQueue) : RunQueue :=
  MkRq (rq_cpu r) (curr r) (idle r) (nr_running r) (rt_rq r) (cfs_rq r) (clock r) l
    (free_stack r) (need_resched r).
Definition set_free (l : list nat) (r : RunQueue) : RunQueue :=
  MkRq (rq_cpu r) (curr r) (idle r) (nr_running r) (rt_rq r) (cfs_rq r) (clock r) (slots r)
    l (need_resched r).
Definition set_need_resched (b : bool) (r : RunQueue) : RunQueue :=
  MkRq (rq_cpu r) (curr r) (idle r) (nr_running r) (rt_rq r) (cfs_rq r) (clock r) (slots r)
    (free_stack r) b.

(** The free stack as a list with the top first: slot 0 is popped first. *)
Definition rq_new (cpu idle_pid : Z) : RunQueue :=
  MkRq cpu None idle_pid 0 rt_new cfs_new 0 (replicate MAX_TASKS_PER_RQ None)
    (seq 0 MAX_TASKS_PER_RQ) false.

(** ** Slots *)

Definition slot_of (m : PidToSlot) (pid : Z) : option nat :=
  if MAX_PIDS <=? pid then None else
  s ← m !! pid;
  if decide (s < MAX_TASKS_PER_RQ)%nat then Some s else None.

(** [slot_get]: the task of the slot, if it is the task of that pid. *)
Definition slot_get (m : PidToSlot) (r : RunQueue) (pid : Z) : option Task :=
  s ← slot_of m pid; o ← slots r !! s; t ← o;
  if t_pid t =? pid then Some t else None.

(** [if let Some(t) = self.slot_get_mut(pid) { *t = f(t) }]. *)
Definition slot_upd (m : PidToSlot) (r : RunQueue) (pid : Z) (f : Task -> Task) : RunQueue :=
  match slot_of m pid, slot_get m r pid with
  | Some s, Some t => set_slots (<[s := Some (f t)]> (slots r)) r
  | _, _ => r
  end.

Definition count_running (r : RunQueue) : Z := Z.min (nr_running r) (Z.of_nat MAX_TASKS_PER_RQ).

Definition all_pids (r : RunQueue) : list Z :=
  omap (fun o => t_pid <$> o) (slots r).

Definition has_runnable (r : RunQueue) : bool := 0 <? nr_running r.

(** ** Queueing *)

Definition enqueue_task (m : PidToSlot) (r : RunQueue) (pid : Z) : outcome RunQueue :=
  match slot_get m r pid with
  | None => Done r
  | Some t =>
      if on_rq t then Done r else
      r ← (if is_realtime (policy t) then
             q ← rt_enqueue (rt_rq r) pid (rt_priority t);
             nr ← add32 (nr_running r) 1;
             Done (set_nr nr (set_rt q r))
           else if is_fair (policy t) then
             '(q, adjusted) ← enqueue (cfs_rq r) pid (vruntime t) (weight t);
             let r := slot_upd m (set_cfs q r) pid (with_vruntime adjusted) in
             nr ← add32 (nr_running r) 1;
             Done (set_nr nr r)
           else Done r);
      Done (slot_upd m r pid (with_on_rq true))
  end.

(** The removal of a queued task from the queue of its class. *)
Definition class_dequeue (r : RunQueue) (t : Task) : outcome RunQueue :=
  if is_realtime (policy t) then
    '(q, _) ← rt_dequeue (rt_rq r) (t_pid t) (rt_priority t); Done (set_rt q r)
  else if is_fair (policy t) then
    '(q, _) ← dequeue (cfs_rq r) (t_pid t) (weight t); Done (set_cfs q r)
  else Done r.

Definition dequeue_task (m : PidToSlot) (r : RunQueue) (pid : Z) : outcome RunQueue :=
  match slot_get m r pid with
  | None => Done r
  | Some t =>
      if negb (on_rq t) then Done r else
      r ← class_dequeue r t;
      let r := if is_realtime (policy t) || is_fair (policy t)
               then set_nr (sat_sub (nr_running r) 1) r else r in
      Done (slot_upd m r pid (with_on_rq false))
  end.

Definition add_task (m : PidToSlot) (now_ns : Z) (r : RunQueue) (t : Task) :
    outcome (PidToSlot * RunQueue) :=
  let t := if start_time t =? 0 then with_start_time now_ns t else t in
  let pid := t_pid t in
  match free_stack r with
  | [] => Done (m, r)
  | s :: free =>
      let r := set_slots (<[s := Some t]> (slots r)) (set_free free r) in
      let m := if pid <? MAX_PIDS then <[pid := s]> m else m in
      r ← enqueue_task m r pid;
      Done (m, r)
  end.

Definition remove_task (m : PidToSlot) (r : RunQueue) (pid : Z) :
    outcome (PidToSlot * RunQueue * option Task) :=
  match slot_of m pid with
  | None => Done (m, r, None)
  | Some s =>
      match mjoin (slots r !! s) with
      | None => Done (m, r, None)
      | Some t =>
          if negb (t_pid t =? pid) then Done (m, r, None) else
          let r := set_slots (<[s := None]> (slots r)) r in
          r ← (if on_rq t then
                 r ← class_dequeue r t; Done (set_nr (sat_sub (nr_running r) 1) r)
               else Done r);
          Done (delete pid m, set_free (s :: free_stack r) r, Some (with_on_rq false t))
      end
  end.

(** ** Choosing a task *)

Definition pick_next_task (r : RunQueue) : outcome Z :=
  p ← rt_pick_next (rt_rq r);
  match p with
  | Some pid => Done pid
  | None =>
      p ← pick_next (cfs_rq r);
      match p with Some pid => Done pid | None => Done (idle r) end
  end.

Definition popped (m : PidToSlot) (r : RunQueue) (pid : Z) : RunQueue :=
  let r := slot_upd m r pid (with_on_rq false) in set_nr (sat_sub (nr_running r) 1) r.

Definition pop_next_task (m : PidToSlot) (r : RunQueue) : outcome (RunQueue * Z) :=
  '(q, p) ← rt_pop_next (rt_rq r);
  match p with
  | Some pid => Done (popped m (set_rt q r) pid, pid)
  | None =>
      let r := set_rt q r in
      p ← pick_next (cfs_rq r);
      match p with
      | Some pid =>
          let w := from_option weight NICE_0_WEIGHT (slot_get m r pid) in
          '(c, p) ← pop_next (cfs_rq r) w;
          let r := set_cfs c r in
          match p with
          | Some pid => Done (popped m r pid, pid)
          | None => Done (r, idle r)
          end
      | None => Done (r, idle r)
      end
  end.

Definition put_prev_task (m : PidToSlot) (r : RunQueue) (pid : Z) : outcome RunQueue :=
  match slot_get m r pid with
  | None => Done r
  | Some t => if is_idle_policy (policy t) || is_dead (state t) then Done r
              else enqueue_task m r pid
  end.

(** ** Stealing and ticks *)

Definition stealable (r : RunQueue) (dest_cpu : Z) (t : Task) : bool :=
  negb (bool_decide (Some (t_pid t) = curr r)) && bool_decide (policy t = Normal) && on_rq t &&
  negb (is_dead (state t)) && can_run_on t dest_cpu.

(** The loop over the slots: the last of the stealable tasks with the largest
    virtual runtime seen so far. *)
Definition steal_better (r : RunQueue) (dest_cpu : Z) (best : option (Z * Z)) (o : option Task) :
    option (Z * Z) :=
  match o with
  | Some t =>
      if stealable r dest_cpu t then
        match best with
        | None => Some (t_pid t, vruntime t)
        | Some (_, v) => if v <? vruntime t then Some (t_pid t, vruntime t) else best
        end
      else best
  | None => best
  end.

Definition steal_victim (r : RunQueue) (dest_cpu : Z) : option Z :=
  fst <$> foldl (steal_better r dest_cpu) None (slots r).

Definition steal_task (m : PidToSlot) (r : RunQueue) (dest_cpu : Z) :
    outcome (PidToSlot * RunQueue * option Task) :=
  if nr_running r <=? 1 then Done (m, r, None) else
  match steal_victim r dest_cpu with
  | None => Done (m, r, None)
  | Some pid => remove_task m r pid
  end.

(** The tick of a fair task: charge a tick, advance the floor, and ask for
    preemption when the least queued task is a millisecond behind. *)
Definition fair_tick (m : PidToSlot) (r : RunQueue) (pid : Z) (t : Task) (in_blocking_wait : bool) :
    outcome (RunQueue * bool) :=
  let t := with_vruntime_charged_this_tick true (update_vruntime TICK_NS t) in
  t ← (if in_blocking_wait then Done t
       else s ← add64 (sum_exec_runtime t) TICK_NS; Done (with_sum_exec_runtime s t));
  let t := with_exec_start (clock r) t in
  let r := slot_upd m r pid (fun _ => t) in
  q ← update_min_vruntime (cfs_rq r) (vruntime t);
  let r := set_cfs q r in
  p ← pick_next q;
  match p with
  | Some next =>
      if next =? pid then Done (r, false) else
      let curr_vr := from_option vruntime 0 (slot_get m r pid) in
      let next_vr := from_option vruntime 0 (slot_get m r next) in
      x ← add64 next_vr 1000000;
      if x <? curr_vr then Done (set_need_resched true r, true) else Done (r, false)
  | None => Done (r, false)
  end.

Definition rr_tick (m : PidToSlot) (r : RunQueue) (pid : Z) (t : Task) : outcome (RunQueue * bool) :=
  if 0 <? time_slice t then
    let left := time_slice t - 1 in
    if left =? 0 then
      Done (set_need_resched true
              (slot_upd m r pid (with_time_slice (default_time_slice RoundRobin))), true)
    else Done (slot_upd m r pid (with_time_slice left), false)
  else Done (r, false).

Definition scheduler_tick (m : PidToSlot) (r : RunQueue) (in_blocking_wait : bool) :
    outcome (RunQueue * bool) :=
  match curr r with
  | None => Done (r, false)
  | Some pid =>
      match slot_get m r pid with
      | None => Done (r, false)
      | Some t =>
          match policy t with
          | Fifo => Done (r, false)
          | RoundRobin => rr_tick m r pid t
          | Normal | Batch => fair_tick m r pid t in_blocking_wait
          | Idle => Done (r, has_runnable r)
          end
      end
  end.
