(* ===== verification/RunQueueInv.v ===== *)
(** * Consistency of a run queue

    The invariant of [RunQueue] and the effect of each operation under it.

    [slots_wf] relates the slots, the free stack and [PID_TO_SLOT].  [queues_wf]
    says that the queues hold exactly the tasks marked [on_rq], each once, in the
    queue of its class: the level of its priority for a real-time task, the heap
    for a fair one.  It is stated over the function [qs] that gives the class in
    which a pid is queued, so that the lemmas on the queues do not mention slots. *)
From S2P Require Import Prelude CfsHeap RtQueue CpuSets SchedTask RunQueue.

Inductive qclass := QRt (i : nat) | QFair.

#[global] Instance qclass_eq_dec : EqDecision qclass.
Proof. solve_decision. Defined.

(** The queue a task belongs to, and the one it is marked to be in. *)
Definition class_of (t : Task) : option qclass :=
  if is_realtime (policy t) then Some (QRt (priority_to_index (rt_priority t)))
  else if is_fair (policy t) then Some QFair else None.

Definition queued (t : Task) : option qclass := if on_rq t then class_of t else None.

Definition fair_pids (q : CfsRunQueue) : list Z := ce_pid <$> entries q.

Record queues_wf (qs : Z -> option qclass) (rt : RtRunQueue) (cfs : CfsRunQueue) (nr : Z) : Prop := {
  qwf_rt : rt_wf rt;
  qwf_cfs : cfs_wf cfs;
  qwf_level_nodup : forall i, NoDup (level rt i);
  qwf_level : forall i p, p ∈ level rt i <-> qs p = Some (QRt i);
  qwf_fair_nodup : NoDup (fair_pids cfs);
  qwf_fair : forall p, p ∈ fair_pids cfs <-> qs p = Some QFair;
  qwf_nr : nr = rt_nr_running rt + cfs_nr_running cfs
}.

(** [qs] with the class of [p] replaced. *)
Definition qs_set (qs : Z -> option qclass) (p : Z) (c : option qclass) (qs' : Z -> option qclass) : Prop :=
  forall q, qs' q = if decide (q = p) then c else qs q.

Lemma queues_wf_ext qs qs' rt cfs nr :
  (forall p, qs' p = qs p) -> queues_wf qs rt cfs nr -> queues_wf qs' rt cfs nr.
Proof.
  intros E [? ? ? Hl ? Hf ?]. split; try done.
  - intros i p. by rewrite E.
  - intros p. by rewrite E.
Qed.

Lemma length_fair_pids cfs : cfs_wf cfs -> cfs_nr_running cfs = Z.of_nat (length (fair_pids cfs)).
Proof.
  intros Hwf. unfold fair_pids. rewrite length_fmap, length_entries by done. apply Hwf.
Qed.

(** ** Effects on the queues *)

Section Queues.
Context (qs : Z -> option qclass) (rt : RtRunQueue) (cfs : CfsRunQueue) (nr : Z).
Context (Hwf : queues_wf qs rt cfs nr).

(** A change of one level, the fair queue staying as it is. *)
Lemma queues_set_level p i c rt' nr' qs' :
  rt_wf rt' -> nr' = rt_nr_running rt' + cfs_nr_running cfs ->
  qs_set qs p c qs' -> qs p <> Some QFair -> c <> Some QFair ->
  (forall j, j <> i -> level rt' j = level rt j /\ qs p <> Some (QRt j) /\ c <> Some (QRt j)) ->
  NoDup (level rt' i) -> (forall q, q ∈ level rt' i <-> qs' q = Some (QRt i)) ->
  queues_wf qs' rt' cfs nr'.
Proof using Hwf.
  intros Hrt Hnr Hset Hp Hc Hother Hnd Hin. destruct Hwf as [_ Hcfs Hlnd Hl Hfnd Hf _].
  split; [done|done| | |done| |done].
  - intros j. destruct (decide (j = i)) as [->|Hne]; [done|]. destruct (Hother j Hne) as [-> _]. done.
  - intros j q. destruct (decide (j = i)) as [->|Hne]; [done|].
    destruct (Hother j Hne) as (-> & H1 & H2). rewrite Hl, (Hset q).
    destruct (decide (q = p)) as [->|]; [|done]. split; intros; congruence.
  - intros q. rewrite Hf, (Hset q). destruct (decide (q = p)) as [->|]; [|done].
    split; intros; congruence.
Qed.

Lemma queues_rt_enqueue p prio (i := priority_to_index prio) :
  qs p = None -> (length (level rt i) < MAX_RT_PER_PRIO)%nat ->
  exists rt', rt_enqueue rt p prio = Done rt' /\
    (forall j, level rt' j = if decide (j = i) then level rt i ++ [p] else level rt j) /\
    forall qs', qs_set qs p (Some (QRt i)) qs' -> queues_wf qs' rt' cfs (nr + 1).
Proof using Hwf.
  intros Hp Hroom.
  destruct (rt_enqueue_ok rt p prio (qwf_rt _ _ _ _ Hwf) Hroom) as (rt' & E & Hrt' & Hnr & Hlev).
  fold i in Hlev. exists rt'. split_and!; [done|done|]. intros qs' Hset.
  assert (p ∉ level rt i) as Hni by (rewrite (qwf_level _ _ _ _ Hwf); congruence).
  apply (queues_set_level p i (Some (QRt i)) rt'); try done; try congruence.
  - pose proof (qwf_nr _ _ _ _ Hwf). lia.
  - intros j Hj. rewrite Hlev, decide_False by done. split_and!; [done|congruence..].
  - rewrite Hlev, decide_True by done. apply NoDup_app.
    split_and!; [apply (qwf_level_nodup _ _ _ _ Hwf)| |apply NoDup_singleton].
    intros x Hx ->%list_elem_of_singleton. done.
  - intros q. rewrite Hlev, decide_True by done. rewrite elem_of_app, list_elem_of_singleton.
    rewrite (qwf_level _ _ _ _ Hwf), (Hset q). destruct (decide (q = p)); naive_solver.
Qed.

(** Removing [p] from level [i], wherever it stands in it. *)
Lemma queues_rt_remove p i l1 l2 rt' :
  rt_wf rt' -> rt_nr_running rt' = rt_nr_running rt - 1 ->
  level rt i = l1 ++ p :: l2 ->
  (forall j, level rt' j = if decide (j = i) then l1 ++ l2 else level rt j) ->
  forall qs', qs_set qs p None qs' -> queues_wf qs' rt' cfs (nr - 1).
Proof using Hwf.
  intros Hrt' Hnr El Hlev qs' Hset.
  assert (qs p = Some (QRt i)) as Hp.
  { apply (qwf_level _ _ _ _ Hwf). rewrite El. apply elem_of_app. right. by left. }
  pose proof (qwf_level_nodup _ _ _ _ Hwf i) as Hnd. rewrite El in Hnd.
  apply (queues_set_level p i None rt'); try done; try congruence.
  - pose proof (qwf_nr _ _ _ _ Hwf). lia.
  - intros j Hj. rewrite Hlev, decide_False by done. split_and!; [done|congruence..].
  - rewrite Hlev, decide_True by done. rewrite <- Permutation_middle in Hnd.
    by apply NoDup_cons in Hnd as [_ ?].
  - intros q. rewrite Hlev, decide_True by done. rewrite (Hset q).
    assert (q ∈ l1 ++ l2 <-> q ∈ level rt i /\ q <> p) as ->.
    { rewrite El. rewrite <- Permutation_middle in Hnd |- *. apply NoDup_cons in Hnd as [Hni _].
      rewrite elem_of_cons. split; [intros Hq; split; [by right|by intros ->]|naive_solver]. }
    rewrite (qwf_level _ _ _ _ Hwf). destruct (decide (q = p)) as [->|]; naive_solver.
Qed.

(** A change of the fair queue, the levels staying as they are. *)
Lemma queues_set_fair p c cfs' nr' qs' :
  cfs_wf cfs' -> nr' = rt_nr_running rt + cfs_nr_running cfs' ->
  qs_set qs p c qs' -> (forall i, qs p <> Some (QRt i) /\ c <> Some (QRt i)) ->
  NoDup (fair_pids cfs') -> (forall q, q ∈ fair_pids cfs' <-> qs' q = Some QFair) ->
  queues_wf qs' rt cfs' nr'.
Proof using Hwf.
  intros Hcfs Hnr Hset Hp Hnd Hin. destruct Hwf as [Hrt _ Hlnd Hl _ _ _].
  split; try done. intros i q. rewrite Hl, (Hset q). destruct (Hp i).
  destruct (decide (q = p)) as [->|]; [|done]. split; intros; congruence.
Qed.

Lemma queues_fair_enqueue p v w :
  qs p = None -> (len cfs < MAX_CFS_TASKS)%nat ->
  let adjusted := Z.max v (sat_sub (min_vruntime cfs) SCHED_LATENCY_NS) in
  exists cfs', enqueue cfs p v w = Done (cfs', adjusted) /\
    entries cfs' ≡ₚ CfsEnt adjusted p :: entries cfs /\ min_vruntime cfs' = min_vruntime cfs /\
    forall qs', qs_set qs p (Some QFair) qs' -> queues_wf qs' rt cfs' (nr + 1).
Proof using Hwf.
  intros Hp Hroom adj.
  destruct (enqueue_ok cfs p v w (qwf_cfs _ _ _ _ Hwf) Hroom) as (cfs' & E & Hwf' & Hperm & Hm & _).
  fold adj in E, Hperm. exists cfs'. split_and!; [done..|]. intros qs' Hset.
  assert (fair_pids cfs' ≡ₚ p :: fair_pids cfs) as Hfp by (unfold fair_pids; by rewrite Hperm).
  assert (p ∉ fair_pids cfs) as Hni by (rewrite (qwf_fair _ _ _ _ Hwf); congruence).
  apply (queues_set_fair p (Some QFair) cfs'); try done.
  - rewrite (length_fair_pids cfs'), Hfp by done. simpl.
    pose proof (qwf_nr _ _ _ _ Hwf) as Hnr. rewrite length_fair_pids in Hnr by apply Hwf. lia.
  - intros i. split; congruence.
  - rewrite Hfp. apply NoDup_cons. split; [done|apply Hwf].
  - intros q. rewrite Hfp, elem_of_cons, (qwf_fair _ _ _ _ Hwf), (Hset q).
    destruct (decide (q = p)); naive_solver.
Qed.

Lemma queues_fair_remove e cfs' :
  cfs_wf cfs' -> entries cfs ≡ₚ e :: entries cfs' ->
  forall qs', qs_set qs (ce_pid e) None qs' -> queues_wf qs' rt cfs' (nr - 1).
Proof using Hwf.
  intros Hwf' Hperm qs' Hset.
  assert (fair_pids cfs ≡ₚ ce_pid e :: fair_pids cfs') as Hfp by (unfold fair_pids; by rewrite Hperm).
  assert (qs (ce_pid e) = Some QFair) as Hp.
  { apply (qwf_fair _ _ _ _ Hwf). rewrite Hfp. by left. }
  pose proof (qwf_fair_nodup _ _ _ _ Hwf) as Hnd. rewrite Hfp in Hnd.
  apply NoDup_cons in Hnd as [Hni Hnd].
  apply (queues_set_fair (ce_pid e) None cfs'); try done.
  - pose proof (qwf_nr _ _ _ _ Hwf) as Hnr. rewrite length_fair_pids in Hnr by apply Hwf.
    rewrite Hfp in Hnr. simpl in Hnr. rewrite length_fair_pids by done. lia.
  - intros i. split; congruence.
  - intros q. rewrite (Hset q).
    assert (q ∈ fair_pids cfs' <-> q ∈ fair_pids cfs /\ q <> ce_pid e) as ->.
    { rewrite Hfp, elem_of_cons. split; [intros Hq; split; [by right|by intros ->]|naive_solver]. }
    rewrite (qwf_fair _ _ _ _ Hwf). destruct (decide (q = ce_pid e)) as [->|]; naive_solver.
Qed.
End Queues.

(** ** Slots *)

Record slots_wf (m : PidToSlot) (r : RunQueue) : Prop := {
  swf_len : length (slots r) = MAX_TASKS_PER_RQ;
  swf_free_nodup : NoDup (free_stack r);
  swf_free : forall s, s ∈ free_stack r <-> slots r !! s = Some None;
  swf_task : forall s t, slots r !! s = Some (Some t) -> t_pid t < MAX_PIDS /\ m !! t_pid t = Some s
}.

Lemma slot_of_task m r s t :
  slots_wf m r -> slots r !! s = Some (Some t) -> slot_of m (t_pid t) = Some s.
Proof.
  intros Hwf Hs. destruct (swf_task _ _ Hwf _ _ Hs) as [Hp Hm]. unfold slot_of.
  destruct (Z.leb_spec MAX_PIDS (t_pid t)); [lia|]. rewrite Hm. simpl.
  rewrite decide_True; [done|]. rewrite <- (swf_len _ _ Hwf). by eapply lookup_lt_Some.
Qed.

Lemma slot_get_inv m r p t :
  slot_get m r p = Some t -> exists s, slot_of m p = Some s /\ slots r !! s = Some (Some t) /\ t_pid t = p.
Proof.
  unfold slot_get. intros (s & Hs & (o & Ho & (t' & -> & E)%bind_Some)%bind_Some)%bind_Some.
  destruct (Z.eqb_spec (t_pid t') p); [|done]. injection E as ->. eauto.
Qed.

Lemma slot_get_pid m r p t : slot_get m r p = Some t -> t_pid t = p.
Proof. intros (s & _ & _ & ?)%slot_get_inv. done. Qed.

Lemma slot_get_task m r s t :
  slots_wf m r -> slots r !! s = Some (Some t) -> slot_get m r (t_pid t) = Some t.
Proof.
  intros Hwf Hs. unfold slot_get. rewrite (slot_of_task _ _ _ _ Hwf Hs). simpl. rewrite Hs. simpl.
  by rewrite Z.eqb_refl.
Qed.

(** [slot_get] depends on the slots alone. *)
Lemma slot_get_slots m r r' p : slots r' = slots r -> slot_get m r' p = slot_get m r p.
Proof. intros E. unfold slot_get. by rewrite E. Qed.

Lemma slots_wf_frame m r r' :
  slots r' = slots r -> free_stack r' = free_stack r -> slots_wf m r -> slots_wf m r'.
Proof. intros Es Ef [? ? ? ?]. split; by rewrite ?Es, ?Ef. Qed.

(** Updates that keep the pid. *)
Definition keeps_pid (f : Task -> Task) : Prop := forall t, t_pid (f t) = t_pid t.

Lemma slot_upd_eq m r p f t :
  slot_get m r p = Some t ->
  exists s, slot_of m p = Some s /\ slots r !! s = Some (Some t) /\
    slot_upd m r p f = set_slots (<[s := Some (f t)]> (slots r)) r.
Proof.
  intros Hg. destruct (slot_get_inv _ _ _ _ Hg) as (s & Hs & Ht & _). exists s.
  split_and!; [done..|]. unfold slot_upd. by rewrite Hs, Hg.
Qed.

Lemma slot_upd_none m r p f : slot_get m r p = None -> slot_upd m r p f = r.
Proof. intros Hg. unfold slot_upd. rewrite Hg. by destruct (slot_of m p). Qed.

Lemma slot_upd_get m r p f t q :
  slots_wf m r -> slot_get m r p = Some t -> t_pid (f t) = p ->
  slot_get m (slot_upd m r p f) q = if decide (q = p) then Some (f t) else slot_get m r q.
Proof.
  intros Hwf Hg Hf. destruct (slot_upd_eq m r p f t Hg) as (s & Hs & Ht & ->).
  pose proof (slot_get_pid _ _ _ _ Hg) as Hp. unfold slot_get. simpl.
  destruct (decide (q = p)) as [->|Hne].
  - rewrite Hs. simpl. rewrite list_lookup_insert_eq by by eapply lookup_lt_Some. simpl.
    by rewrite Hf, Z.eqb_refl.
  - destruct (slot_of m q) as [s'|] eqn:Eq; [|done]. simpl.
    destruct (decide (s' = s)) as [->|].
    + rewrite list_lookup_insert_eq by by eapply lookup_lt_Some. rewrite Ht. simpl.
      rewrite Hf, Hp. by destruct (Z.eqb_spec p q).
    + by rewrite list_lookup_insert_ne.
Qed.

Lemma slot_upd_wf m r p f t :
  slots_wf m r -> slot_get m r p = Some t -> t_pid (f t) = p -> slots_wf m (slot_upd m r p f).
Proof.
  intros Hwf Hg Hf. destruct (slot_upd_eq m r p f t Hg) as (s & Hs & Ht & ->).
  pose proof (slot_get_pid _ _ _ _ Hg) as Hp. split; simpl.
  - rewrite length_insert. apply Hwf.
  - apply Hwf.
  - intros k. rewrite (swf_free _ _ Hwf). destruct (decide (k = s)) as [->|].
    + rewrite list_lookup_insert_eq, Ht by by eapply lookup_lt_Some. done.
    + by rewrite list_lookup_insert_ne.
  - intros k u [(-> & E & _)|[_ Hk]]%list_lookup_insert_Some; [|by apply (swf_task _ _ Hwf)].
    injection E as <-. rewrite Hf, <- Hp. by apply (swf_task _ _ Hwf).
Qed.

(** A slot update leaves the rest of the run queue alone. *)
Lemma slot_upd_frame m r p f :
  let r' := slot_upd m r p f in
  rq_cpu r' = rq_cpu r /\ curr r' = curr r /\ idle r' = idle r /\ nr_running r' = nr_running r /\
  rt_rq r' = rt_rq r /\ cfs_rq r' = cfs_rq r /\ clock r' = clock r /\
  free_stack r' = free_stack r /\ need_resched r' = need_resched r.
Proof.
  unfold slot_upd. destruct (slot_of m p); [|done]. by destruct (slot_get m r p).
Qed.

Lemma slots_bound m r (l : list Z) :
  slots_wf m r -> NoDup l -> (forall p, p ∈ l -> is_Some (slot_get m r p)) ->
  (length l <= MAX_TASKS_PER_RQ)%nat.
Proof.
  intros Hwf Hnd Hl. rewrite <- (swf_len _ _ Hwf).
  assert (l ⊆+ all_pids r) as Hsub%submseteq_length.
  { apply NoDup_submseteq; [done|]. intros p Hp. destruct (Hl p Hp) as [t Ht].
    destruct (slot_get_inv _ _ _ _ Ht) as (s & _ & Hs & <-). apply list_elem_of_omap.
    exists (Some t). split; [by eapply list_elem_of_lookup_2|done]. }
  etrans; [done|]. unfold all_pids. clear. induction (slots r) as [|[t|] l IH]; csimpl; lia.
Qed.

(** ** The invariant *)

Definition qstate (m : PidToSlot) (r : RunQueue) (p : Z) : option qclass := slot_get m r p ≫= queued.

Record rq_wf (m : PidToSlot) (r : RunQueue) : Prop := {
  rq_slots : slots_wf m r;
  rq_queues : queues_wf (qstate m r) (rt_rq r) (cfs_rq r) (nr_running r)
}.

(** Room for a real-time task of that priority. *)
Definition rt_room (r : RunQueue) (t : Task) : Prop :=
  is_realtime (policy t) = true ->
  (length (level (rt_rq r) (priority_to_index (rt_priority t))) < MAX_RT_PER_PRIO)%nat.

(** Everything of a run queue but its queues, count and slots. *)
Definition same_env (r r' : RunQueue) : Prop :=
  rq_cpu r' = rq_cpu r /\ curr r' = curr r /\ idle r' = idle r /\ clock r' = clock r /\
  free_stack r' = free_stack r /\ need_resched r' = need_resched r.

(** The tasks of [r'] are those of [r] with the task of [p] replaced. *)
Definition task_set (m : PidToSlot) (r : RunQueue) (p : Z) (o : option Task) (r' : RunQueue) : Prop :=
  forall q, slot_get m r' q = if decide (q = p) then o else slot_get m r q.

Lemma task_set_qs m r p o r' :
  task_set m r p o r' -> qs_set (qstate m r) p (o ≫= queued) (qstate m r').
Proof. intros Hs q. unfold qstate. rewrite (Hs q). by destruct (decide (q = p)). Qed.

Lemma nr_bound m r : rq_wf m r -> nr_running r <= 99 * 8 + 256.
Proof.
  intros [Hs Hq]. rewrite (qwf_nr _ _ _ _ Hq). pose proof (rt_nr_bound _ (qwf_rt _ _ _ _ Hq)).
  destruct (qwf_cfs _ _ _ _ Hq) as (_ & Hl & _ & ->). unfold MAX_CFS_TASKS in Hl. lia.
Qed.

(** The heap has room for every task that has a slot and is not in it: it is as
    large as the slot array. *)
Lemma fair_room m r p t :
  rq_wf m r -> slot_get m r p = Some t -> queued t <> Some QFair ->
  (len (cfs_rq r) < MAX_CFS_TASKS)%nat.
Proof.
  intros [Hs Hq] Hp Hn. rewrite <- length_entries by apply Hq.
  assert (length (p :: fair_pids (cfs_rq r)) <= MAX_TASKS_PER_RQ)%nat as Hb.
  { apply (slots_bound m r); [done| |].
    - apply NoDup_cons. split; [|apply Hq]. rewrite (qwf_fair _ _ _ _ Hq). unfold qstate. by rewrite Hp.
    - intros q [->|Hq']%elem_of_cons; [eauto|]. rewrite (qwf_fair _ _ _ _ Hq) in Hq'.
      apply bind_Some in Hq' as (u & -> & _). eauto. }
  simpl in Hb. unfold fair_pids in Hb. rewrite length_fmap in Hb.
  unfold MAX_TASKS_PER_RQ, MAX_CFS_TASKS in *. lia.
Qed.

(** An update of the task of [p] after the queues were changed: it suffices that
    the queues agree with the new class of [p]. *)
Lemma slot_upd_finish m r r1 p f t :
  rq_wf m r -> slots r1 = slots r -> same_env r r1 -> slot_get m r p = Some t -> t_pid (f t) = p ->
  (forall qs', qs_set (qstate m r) p (queued (f t)) qs' ->
     queues_wf qs' (rt_rq r1) (cfs_rq r1) (nr_running r1)) ->
  let r' := slot_upd m r1 p f in
  rq_wf m r' /\ same_env r r' /\ task_set m r p (Some (f t)) r' /\
  rt_rq r' = rt_rq r1 /\ cfs_rq r' = cfs_rq r1.
Proof.
  intros [Hs _] Es He Hp Hf Hq r'.
  assert (slot_get m r1 p = Some t) as Hp1 by by rewrite (slot_get_slots m r r1).
  assert (slots_wf m r1) as Hs1 by (eapply slots_wf_frame; [done|apply He|done]).
  destruct (slot_upd_frame m r1 p f) as (F1 & F2 & F3 & F4 & F5 & F6 & F7 & F8 & F9).
  assert (task_set m r p (Some (f t)) r') as Hts.
  { intros q. unfold r'. rewrite (slot_upd_get m r1 p _ t) by done.
    destruct (decide (q = p)); [done|by apply slot_get_slots]. }
  split_and!; [| |done..].
  2:{ destruct He as (E1 & E2 & E3 & E4 & E5 & E6). unfold same_env, r'. split_and!; congruence. }
  split; [by eapply slot_upd_wf|]. unfold r' at 2 3 4. rewrite F4, F5, F6. apply Hq.
  apply (task_set_qs _ _ _ _ _ Hts).
Qed.

Lemma slot_upd_set_nr m r p f n : set_nr n (slot_upd m r p f) = slot_upd m (set_nr n r) p f.
Proof.
  unfold slot_upd. rewrite (slot_get_slots m r (set_nr n r)) by done.
  destruct (slot_of m p); [|done]. by destruct (slot_get m r p).
Qed.

Lemma slot_upd_upd m r p f g t :
  slot_get m r p = Some t -> t_pid (f t) = p ->
  slot_upd m (slot_upd m r p f) p g = slot_upd m r p (fun t => g (f t)).
Proof.
  intros Hp Hf. destruct (slot_upd_eq m r p f t Hp) as (s & Hs & Ht & ->).
  destruct (slot_upd_eq m r p (fun t => g (f t)) t Hp) as (s' & Hs' & _ & ->).
  assert (s' = s) as -> by congruence.
  unfold slot_upd, slot_get. rewrite Hs. simpl.
  rewrite list_lookup_insert_eq by by eapply lookup_lt_Some. simpl. rewrite Hf, Z.eqb_refl.
  unfold set_slots; simpl. by rewrite list_insert_insert_eq.
Qed.

(** ** [enqueue_task] *)

(** The task as it is after being enqueued. *)
Definition enqueued (r : RunQueue) (t : Task) : Task :=
  with_on_rq true
    (if is_fair (policy t)
     then with_vruntime (Z.max (vruntime t) (sat_sub (min_vruntime (cfs_rq r)) SCHED_LATENCY_NS)) t
     else t).

(** The queues after the task [t] joined the one of its class. *)
Definition joined (r r' : RunQueue) (t : Task) : Prop :=
  min_vruntime (cfs_rq r') = min_vruntime (cfs_rq r) /\
  match class_of t with
  | Some (QRt i) =>
      cfs_rq r' = cfs_rq r /\
      forall j, level (rt_rq r') j = if decide (j = i) then level (rt_rq r) i ++ [t_pid t]
                                    else level (rt_rq r) j
  | Some QFair =>
      rt_rq r' = rt_rq r /\
      entries (cfs_rq r') ≡ₚ CfsEnt (vruntime (enqueued r t)) (t_pid t) :: entries (cfs_rq r)
  | None => rt_rq r' = rt_rq r /\ cfs_rq r' = cfs_rq r
  end.

Lemma is_realtime_not_fair p : is_realtime p = true -> is_fair p = false.
Proof. by destruct p. Qed.

Lemma enqueue_task_idle m r p :
  (forall t, slot_get m r p = Some t -> on_rq t = true) -> enqueue_task m r p = Done r.
Proof.
  intros H. unfold enqueue_task. destruct (slot_get m r p) as [t|]; [|done]. by rewrite (H t).
Qed.

Lemma enqueue_task_ok m r p t :
  rq_wf m r -> slot_get m r p = Some t -> on_rq t = false -> rt_room r t ->
  exists r', enqueue_task m r p = Done r' /\ rq_wf m r' /\ same_env r r' /\
    task_set m r p (Some (enqueued r t)) r' /\ joined r r' t.
Proof.
  intros Hwf Hp Hoff Hroom. pose proof (slot_get_pid _ _ _ _ Hp) as Hpid.
  pose proof (nr_bound _ _ Hwf) as Hnb. pose proof Hwf as [Hs Hq].
  assert (qstate m r p = None) as Hqs by (unfold qstate, queued; rewrite Hp; simpl; by rewrite Hoff).
  unfold enqueue_task. rewrite Hp, Hoff. unfold joined, class_of, enqueued.
  destruct (is_realtime (policy t)) eqn:Ert; [|destruct (is_fair (policy t)) eqn:Ef].
  - rewrite (is_realtime_not_fair _ Ert).
    destruct (queues_rt_enqueue _ _ _ _ Hq p (rt_priority t) Hqs (Hroom Ert)) as (rt' & -> & Hlev & Hwf').
    cbn [mbind outcome_bind]. rewrite add32_ok by (unfold U32; lia). cbn [mbind outcome_bind].
    eexists. split; [done|].
    destruct (slot_upd_finish m r (set_nr (nr_running r + 1) (set_rt rt' r)) p (with_on_rq true) t)
      as (Hw & He & Hts & Frt & Fcfs); [done..| |].
    { unfold queued, class_of; simpl. rewrite Ert. apply Hwf'. }
    rewrite Frt, Fcfs. split_and!; try done. intros j. rewrite Hpid. apply Hlev.
  - destruct (queues_fair_enqueue _ _ _ _ Hq p (vruntime t) (weight t) Hqs) as (cfs' & -> & Hperm & Hm & Hwf').
    { eapply fair_room; [done..|]. unfold queued. by rewrite Hoff. }
    cbn [mbind outcome_bind].
    destruct (slot_upd_frame m (set_cfs cfs' r) p (with_vruntime (Z.max (vruntime t)
      (sat_sub (min_vruntime (cfs_rq r)) SCHED_LATENCY_NS)))) as (_ & _ & _ & -> & _).
    cbn [nr_running set_cfs]. rewrite add32_ok by (unfold U32; lia). cbn [mbind outcome_bind].
    rewrite slot_upd_set_nr, (slot_upd_upd m _ p _ _ t) by done.
    eexists. split; [done|].
    destruct (slot_upd_finish m r (set_nr (nr_running r + 1) (set_cfs cfs' r)) p
      (fun u => with_on_rq true (with_vruntime (Z.max (vruntime t)
         (sat_sub (min_vruntime (cfs_rq r)) SCHED_LATENCY_NS)) u)) t)
      as (Hw & He & Hts & Frt & Fcfs); [done..| |].
    { unfold queued, class_of; simpl. rewrite Ert, Ef. apply Hwf'. }
    rewrite Frt, Fcfs, Hpid. by split_and!.
  - cbn [mbind outcome_bind]. eexists. split; [done|].
    destruct (slot_upd_finish m r r p (with_on_rq true) t) as (Hw & He & Hts & Frt & Fcfs); [done..| |].
    { unfold queued, class_of; simpl. rewrite Ert, Ef. intros qs' Hset.
      eapply queues_wf_ext; [|done]. intros q. rewrite (Hset q).
      destruct (decide (q = p)) as [->|]; done. }
    rewrite Frt, Fcfs. by split_and!.
Qed.

(** ** [dequeue_task] *)

(** The queues after the task [t] left the one of its class. *)
Definition left_queue (r r' : RunQueue) (t : Task) : Prop :=
  min_vruntime (cfs_rq r') = min_vruntime (cfs_rq r) /\
  match class_of t with
  | Some (QRt i) =>
      cfs_rq r' = cfs_rq r /\
      exists l1 l2, level (rt_rq r) i = l1 ++ t_pid t :: l2 /\
        forall j, level (rt_rq r') j = if decide (j = i) then l1 ++ l2 else level (rt_rq r) j
  | Some QFair =>
      rt_rq r' = rt_rq r /\
      exists v, entries (cfs_rq r) ≡ₚ CfsEnt v (t_pid t) :: entries (cfs_rq r')
  | None => rt_rq r' = rt_rq r /\ cfs_rq r' = cfs_rq r
  end.

Lemma class_dequeue_ok m r p t :
  rq_wf m r -> slot_get m r p = Some t -> on_rq t = true ->
  exists r', class_dequeue r t = Done r' /\ slots r' = slots r /\ same_env r r' /\
    nr_running r' = nr_running r /\ left_queue r r' t /\
    forall qs', qs_set (qstate m r) p None qs' ->
      queues_wf qs' (rt_rq r') (cfs_rq r')
        (if class_of t is Some _ then nr_running r - 1 else nr_running r).
Proof.
  intros [Hs Hq] Hp Hon. pose proof (slot_get_pid _ _ _ _ Hp) as Hpid.
  assert (qstate m r p = class_of t) as Hqs by (unfold qstate, queued; rewrite Hp; simpl; by rewrite Hon).
  unfold class_dequeue, left_queue. unfold class_of in *. rewrite Hpid.
  destruct (is_realtime (policy t)) eqn:Ert; [|destruct (is_fair (policy t)) eqn:Ef].
  - destruct (rt_dequeue_ok (rt_rq r) p (rt_priority t) (qwf_rt _ _ _ _ Hq))
      as [[_ Hni]|(rt' & l1 & l2 & -> & Hrt' & Hnr & El & Hni & Hlev)].
    { exfalso. apply Hni. by apply (qwf_level _ _ _ _ Hq). }
    cbn [mbind outcome_bind]. eexists. split; [done|]. split_and!; try done; [by exists l1, l2|].
    by apply (queues_rt_remove _ _ _ _ Hq p (priority_to_index (rt_priority t)) l1 l2).
  - destruct (dequeue_ok (cfs_rq r) p (weight t) (qwf_cfs _ _ _ _ Hq))
      as [[_ Hni]|(cfs' & e & -> & <- & Hwf' & Hperm & Hm & _)].
    { exfalso. apply Hni. by apply (qwf_fair _ _ _ _ Hq). }
    cbn [mbind outcome_bind]. eexists. split; [done|]. split_and!; try done.
    + exists (ce_vruntime e). by destruct e.
    + by apply (queues_fair_remove _ _ _ _ Hq e).
  - eexists. split; [done|]. split_and!; try done. intros qs' Hset.
    eapply queues_wf_ext; [|done]. intros q. rewrite (Hset q). destruct (decide (q = p)) as [->|]; done.
Qed.

Lemma dequeue_task_idle m r p :
  (forall t, slot_get m r p = Some t -> on_rq t = false) -> dequeue_task m r p = Done r.
Proof.
  intros H. unfold dequeue_task. destruct (slot_get m r p) as [t|]; [|done]. by rewrite (H t).
Qed.

Lemma class_of_queued t : is_realtime (policy t) || is_fair (policy t) = bool_decide (is_Some (class_of t)).
Proof. unfold class_of. by destruct (policy t). Qed.

(** A queued task counts among the running ones. *)
Lemma nr_pos m r p t :
  rq_wf m r -> slot_get m r p = Some t -> is_Some (queued t) -> 1 <= nr_running r.
Proof.
  intros [Hs Hq] Hp [c Hc]. assert (qstate m r p = Some c) as Hqs by (unfold qstate; by rewrite Hp).
  rewrite (qwf_nr _ _ _ _ Hq). destruct (qwf_rt _ _ _ _ Hq) as (_ & _ & _ & _ & _ & _ & Hn).
  rewrite (length_fair_pids _ (qwf_cfs _ _ _ _ Hq)). destruct c as [i|].
  - apply (qwf_level _ _ _ _ Hq) in Hqs. unfold level in Hqs.
    destruct (queue_lens (rt_rq r) !! i) as [n|] eqn:E.
    + pose proof (sum_list_insert _ _ 0%nat _ E).
      rewrite (list_lookup_total_correct _ _ _ E) in Hqs. destruct n; [by apply elem_of_nil in Hqs|]. lia.
    + rewrite list_lookup_total_alt, E in Hqs. by apply elem_of_nil in Hqs.
  - apply (qwf_fair _ _ _ _ Hq) in Hqs. rewrite Hn.
    destruct (fair_pids (cfs_rq r)); [by apply elem_of_nil in Hqs|simpl; lia].
Qed.

Lemma dequeue_task_ok m r p t :
  rq_wf m r -> slot_get m r p = Some t -> on_rq t = true ->
  exists r', dequeue_task m r p = Done r' /\ rq_wf m r' /\ same_env r r' /\
    task_set m r p (Some (with_on_rq false t)) r' /\ left_queue r r' t.
Proof.
  intros Hwf Hp Hon. pose proof (slot_get_pid _ _ _ _ Hp) as Hpid.
  destruct (class_dequeue_ok m r p t Hwf Hp Hon) as (r1 & E & Es & He & Hnr & Hleft & Hq).
  unfold dequeue_task. rewrite Hp, Hon. cbn [negb]. rewrite E. cbn [mbind outcome_bind].
  rewrite class_of_queued. eexists. split; [done|].
  set (r2 := if bool_decide _ then _ else _).
  assert (slots r2 = slots r /\ same_env r r2 /\ rt_rq r2 = rt_rq r1 /\ cfs_rq r2 = cfs_rq r1 /\
    nr_running r2 = if class_of t is Some _ then nr_running r - 1 else nr_running r) as (F1 & F2 & F3 & F4 & F5).
  { unfold r2. destruct (class_of t) eqn:Ec; simpl; [|done]. split_and!; try done.
    assert (1 <= nr_running r).
    { eapply nr_pos; [done..|]. unfold queued. by rewrite Hon, Ec. }
    rewrite Hnr. unfold sat_sub. lia. }
  destruct (slot_upd_finish m r r2 p (with_on_rq false) t) as (Hw & He' & Hts & Frt & Fcfs); [done..| |].
  { rewrite F3, F4, F5. apply Hq. }
  split_and!; [done..|]. unfold left_queue. by rewrite Frt, Fcfs, F3, F4.
Qed.

(** ** [add_task] and [remove_task] *)

Lemma rq_new_wf m cpu idle_pid : rq_wf m (rq_new cpu idle_pid).
Proof.
  assert (forall s, slots (rq_new cpu idle_pid) !! s = Some None <-> (s < MAX_TASKS_PER_RQ)%nat) as Hs.
  { intros s. cbn [slots rq_new]. rewrite lookup_replicate. naive_solver. }
  assert (forall s t, slots (rq_new cpu idle_pid) !! s <> Some (Some t)) as Hnone.
  { intros s t [? _]%(lookup_replicate_1 MAX_TASKS_PER_RQ). done. }
  assert (forall p, qstate m (rq_new cpu idle_pid) p = None) as Hq.
  { intros p. unfold qstate. destruct (slot_get m _ p) as [t|] eqn:E; [|done].
    destruct (slot_get_inv _ _ _ _ E) as (s & _ & Hst & _). by apply Hnone in Hst. }
  split; [split|split].
  - done.
  - apply NoDup_seq.
  - intros s. rewrite Hs. cbn [free_stack rq_new]. rewrite elem_of_seq. lia.
  - intros s t Ht. by apply Hnone in Ht.
  - apply rt_new_wf.
  - apply cfs_new_wf.
  - intros i. cbn [rt_rq rq_new]. rewrite rt_new_level. constructor.
  - intros i p. cbn [rt_rq rq_new]. rewrite rt_new_level, Hq, elem_of_nil. done.
  - constructor.
  - intros p. rewrite Hq. change (fair_pids _) with (@nil Z). rewrite elem_of_nil. done.
  - done.
Qed.

(** The task as it is put into its slot. *)
Definition stamped (now_ns : Z) (t : Task) : Task :=
  if start_time t =? 0 then with_start_time now_ns t else t.

Lemma stamped_same now t :
  t_pid (stamped now t) = t_pid t /\ on_rq (stamped now t) = on_rq t /\
  policy (stamped now t) = policy t /\ rt_priority (stamped now t) = rt_priority t /\
  state (stamped now t) = state t /\ class_of (stamped now t) = class_of t.
Proof. unfold stamped. by destruct (start_time t =? 0). Qed.

(** The run queue and table with [t] in the free slot [s]. *)
Lemma place_task_wf m r t s free :
  rq_wf m r -> free_stack r = s :: free -> t_pid t < MAX_PIDS -> slot_get m r (t_pid t) = None ->
  on_rq t = false ->
  let m' := <[t_pid t := s]> m in
  let r1 := set_slots (<[s := Some t]> (slots r)) (set_free free r) in
  rq_wf m' r1 /\
  forall q, slot_get m' r1 q = if decide (q = t_pid t) then Some t else slot_get m r q.
Proof.
  intros [Hs Hq] Hfree Hlt Hnone Hoff m' r1.
  assert (slots r !! s = Some None) as Hslot by (apply (swf_free _ _ Hs); rewrite Hfree; by left).
  assert (s < MAX_TASKS_PER_RQ)%nat as Hsl by (rewrite <- (swf_len _ _ Hs); by eapply lookup_lt_Some).
  pose proof (swf_free_nodup _ _ Hs) as Hnd. rewrite Hfree in Hnd. apply NoDup_cons in Hnd as [Hni Hnd].
  assert (forall k u, slots r !! k = Some (Some u) -> t_pid u <> t_pid t) as Hdist.
  { intros k u Hk E. pose proof (slot_get_task _ _ _ _ Hs Hk) as Hg. rewrite E, Hnone in Hg. done. }
  assert (slots_wf m' r1) as Hs1.
  { split; simpl.
    - rewrite length_insert. apply Hs.
    - done.
    - intros k. destruct (decide (k = s)) as [->|Hne].
      + rewrite list_lookup_insert_eq by by eapply lookup_lt_Some. naive_solver.
      + rewrite list_lookup_insert_ne by done. rewrite <- (swf_free _ _ Hs), Hfree, elem_of_cons. naive_solver.
    - intros k u [(-> & E & _)|[Hne Hk]]%list_lookup_insert_Some.
      + injection E as <-. split; [done|]. apply (lookup_insert_eq m).
      + destruct (swf_task _ _ Hs _ _ Hk) as [? Hm]. split; [done|]. unfold m'.
        rewrite lookup_insert_ne; [done|]. intros E. by apply (Hdist _ _ Hk). }
  assert (forall q, slot_get m' r1 q = if decide (q = t_pid t) then Some t else slot_get m r q) as Hget.
  { intros q. destruct (decide (q = t_pid t)) as [->|Hne].
    - apply (slot_get_task _ _ s _ Hs1). simpl. apply list_lookup_insert_eq. by eapply lookup_lt_Some.
    - unfold slot_get, slot_of, m'. rewrite lookup_insert_ne by done. simpl.
      destruct (MAX_PIDS <=? q); [done|]. destruct (m !! q) as [k|]; [|done]. simpl.
      destruct (decide (k < MAX_TASKS_PER_RQ)%nat); [|done]. simpl.
      destruct (decide (k = s)) as [->|]; [|by rewrite list_lookup_insert_ne].
      rewrite list_lookup_insert_eq, Hslot by by eapply lookup_lt_Some. simpl.
      by destruct (Z.eqb_spec (t_pid t) q). }
  split; [|done]. split; [done|]. eapply queues_wf_ext; [|exact Hq]. intros p. unfold qstate.
  rewrite Hget. destruct (decide (p = t_pid t)) as [->|]; [|done]. rewrite Hnone. simpl.
  unfold queued. by rewrite Hoff.
Qed.

Lemma add_task_ok m now r t s free :
  rq_wf m r -> free_stack r = s :: free -> t_pid t < MAX_PIDS -> slot_get m r (t_pid t) = None ->
  on_rq t = false -> rt_room r t ->
  exists r', add_task m now r t = Done (<[t_pid t := s]> m, r') /\ rq_wf (<[t_pid t := s]> m) r' /\
    (forall q, slot_get (<[t_pid t := s]> m) r' q =
       if decide (q = t_pid t) then Some (enqueued r (stamped now t)) else slot_get m r q) /\
    same_env (set_free free r) r' /\ joined r r' (stamped now t).
Proof.
  intros Hwf Hfree Hlt Hnone Hoff Hroom.
  destruct (stamped_same now t) as (Ep & Eon & Epol & Ert & Est & Ecl).
  unfold add_task. fold (stamped now t). rewrite Hfree, Ep. cbv zeta.
  destruct (Z.ltb_spec (t_pid t) MAX_PIDS); [|lia].
  destruct (place_task_wf m r (stamped now t) s free) as [Hwf1 Hget]; [done|done|by rewrite Ep..|by rewrite Eon|].
  rewrite Ep in Hwf1, Hget. set (r1 := set_slots _ _) in *.
  destruct (enqueue_task_ok (<[t_pid t := s]> m) r1 (t_pid t) (stamped now t)) as (r' & -> & Hwf' & He & Hts & Hj).
  - done.
  - by rewrite Hget, decide_True.
  - by rewrite Eon.
  - unfold rt_room. rewrite Epol, Ert. exact Hroom.
  - cbn [mbind outcome_bind]. exists r'. split_and!; [done|done| |done|done].
    intros q. rewrite (Hts q), Hget. by destruct (decide (q = t_pid t)).
Qed.

(** With no free slot the task is dropped. *)
Lemma add_task_full m now r t : free_stack r = [] -> add_task m now r t = Done (m, r).
Proof. intros E. unfold add_task. by rewrite E. Qed.

Lemma class_dequeue_set_slots r t l :
  class_dequeue (set_slots l r) t = (r' ← class_dequeue r t; Done (set_slots l r')).
Proof.
  unfold class_dequeue. simpl. destruct (is_realtime (policy t)).
  - by destruct (rt_dequeue _ _ _) as [[q b]| |].
  - destruct (is_fair (policy t)); [|done]. by destruct (dequeue _ _ _) as [[q b]| |].
Qed.

(** Emptying the slot of [p] and forgetting its table entry. *)
Lemma vacate_wf m r p t s r1 :
  slots_wf m r -> slot_of m p = Some s -> slots r !! s = Some (Some t) -> t_pid t = p ->
  slots r1 = <[s := None]> (slots r) -> free_stack r1 = s :: free_stack r ->
  slots_wf (delete p m) r1 /\
  forall q, slot_get (delete p m) r1 q = if decide (q = p) then None else slot_get m r q.
Proof.
  intros Hs Hso Ht <- Es Ef. pose proof (lookup_lt_Some _ _ _ Ht) as Hlt. split.
  - split; rewrite ?Es, ?Ef.
    + rewrite length_insert. apply Hs.
    + apply NoDup_cons. split; [|apply Hs]. rewrite (swf_free _ _ Hs), Ht. done.
    + intros k. rewrite elem_of_cons, (swf_free _ _ Hs). destruct (decide (k = s)) as [->|].
      * rewrite list_lookup_insert_eq by done. naive_solver.
      * rewrite list_lookup_insert_ne by done. naive_solver.
    + intros k u [(_ & ? & _)|[Hne Hk]]%list_lookup_insert_Some; [done|].
      destruct (swf_task _ _ Hs _ _ Hk) as [? Hm]. split; [done|].
      rewrite lookup_delete_ne; [done|]. intros E.
      destruct (swf_task _ _ Hs _ _ Ht) as [_ Hm']. rewrite E in Hm'. congruence.
  - intros q. unfold slot_get, slot_of. destruct (decide (q = t_pid t)) as [->|Hne].
    + rewrite lookup_delete_eq. by destruct (MAX_PIDS <=? t_pid t).
    + rewrite lookup_delete_ne by done. destruct (MAX_PIDS <=? q); [done|].
      destruct (m !! q) as [k|]; [|done]. simpl. destruct (decide (k < MAX_TASKS_PER_RQ)%nat); [|done]. simpl.
      rewrite Es. destruct (decide (k = s)) as [->|]; [|by rewrite list_lookup_insert_ne].
      rewrite list_lookup_insert_eq, Ht by done. simpl. by destruct (Z.eqb_spec (t_pid t) q).
Qed.

Lemma remove_task_absent m r p :
  slot_get m r p = None -> remove_task m r p = Done (m, r, None).
Proof.
  unfold remove_task, slot_get. destruct (slot_of m p) as [s|]; [|done]. simpl.
  destruct (slots r !! s) as [[t|]|]; simpl; try done. by destruct (t_pid t =? p).
Qed.

(** What a removal leaves of the queues. *)
Definition taken_out (r r' : RunQueue) (t : Task) : Prop :=
  if on_rq t then left_queue r r' t else rt_rq r' = rt_rq r /\ cfs_rq r' = cfs_rq r.

Lemma remove_task_ok m r p t :
  rq_wf m r -> slot_get m r p = Some t -> (on_rq t = true -> is_Some (class_of t)) ->
  exists s r', remove_task m r p = Done (delete p m, r', Some (with_on_rq false t)) /\
    rq_wf (delete p m) r' /\
    (forall q, slot_get (delete p m) r' q = if decide (q = p) then None else slot_get m r q) /\
    same_env (set_free (s :: free_stack r) r) r' /\ taken_out r r' t.
Proof.
  intros Hwf Hp Hcl. pose proof Hwf as [Hs Hq].
  destruct (slot_get_inv _ _ _ _ Hp) as (s & Hso & Ht & Hpid). exists s.
  unfold remove_task, taken_out. rewrite Hso, Ht. simpl mjoin. cbv beta iota.
  rewrite (proj2 (Z.eqb_eq _ _) Hpid). cbn [negb]. destruct (on_rq t) eqn:Eon.
  - destruct (class_dequeue_ok m r p t Hwf Hp Eon) as (r1 & E & Es & He & Hnr & Hleft & Hqw).
    rewrite class_dequeue_set_slots, E. cbn [mbind outcome_bind].
    set (r' := set_free _ _).
    destruct (vacate_wf m r p t s r') as [Hs' Hget]; [done..| |].
    { unfold r'. simpl. destruct He as (_ & _ & _ & _ & -> & _). done. }
    exists r'. split_and!; [done| |done| |done].
    + split; [done|]. destruct (Hcl eq_refl) as [c Hc]. rewrite Hc in Hqw.
      assert (1 <= nr_running r) by (eapply nr_pos; [done..|]; unfold queued; by rewrite Eon, Hc).
      change (nr_running r') with (sat_sub (nr_running r1) 1). change (rt_rq r') with (rt_rq r1).
      change (cfs_rq r') with (cfs_rq r1). rewrite Hnr.
      replace (sat_sub (nr_running r) 1) with (nr_running r - 1) by (unfold sat_sub; lia).
      apply Hqw. intros q. unfold qstate. rewrite Hget. by destruct (decide (q = p)).
    + destruct He as (E1 & E2 & E3 & E4 & E5 & E6). unfold same_env, r'; simpl. rewrite E5. by split_and!.
  - cbn [mbind outcome_bind]. set (r' := set_free _ _).
    destruct (vacate_wf m r p t s r') as [Hs' Hget]; [done..|].
    exists r'. split_and!; [done| |done|done|done|done].
    split; [done|]. eapply queues_wf_ext; [|exact Hq]. intros q. unfold qstate. rewrite Hget.
    destruct (decide (q = p)) as [->|]; [|done]. rewrite Hp. simpl. unfold queued. by rewrite Eon.
Qed.

(** ** Choosing a task *)

(** The task to run next: the head of the highest real-time level that has one,
    else the fair task with the least virtual runtime, else the idle task. *)
Inductive best (r : RunQueue) (p : Z) : Prop :=
| best_rt i l : level (rt_rq r) i = p :: l -> (forall j, (i < j)%nat -> level (rt_rq r) j = []) -> best r p
| best_fair e : (forall i, level (rt_rq r) i = []) -> e ∈ entries (cfs_rq r) -> ce_pid e = p ->
    (forall x, x ∈ entries (cfs_rq r) -> cfs_le e x) -> best r p
| best_idle : (forall i, level (rt_rq r) i = []) -> entries (cfs_rq r) = [] -> p = idle r -> best r p.

Lemma pick_next_task_ok m r :
  rq_wf m r -> exists p, pick_next_task r = Done p /\ best r p.
Proof.
  intros [_ Hq]. unfold pick_next_task.
  destruct (rt_pick_next_ok _ (qwf_rt _ _ _ _ Hq)) as [[-> Hnone]|(i & p & l & -> & Hl & _ & Hab)];
    cbn [mbind outcome_bind]; [|exists p; split; [done|by eapply best_rt]].
  destruct (pick_next_ok _ (qwf_cfs _ _ _ _ Hq)) as [[-> Hnil]|(e & -> & _ & Hin & Hmin)]; cbn [mbind outcome_bind].
  - exists (idle r). split; [done|]. by apply best_idle.
  - exists (ce_pid e). split; [done|]. by eapply best_fair.
Qed.

Lemma qstate_Some m r p c :
  qstate m r p = Some c -> exists t, slot_get m r p = Some t /\ on_rq t = true /\ class_of t = Some c.
Proof.
  unfold qstate, queued. intros (t & Ht & E)%bind_Some. exists t. by destruct (on_rq t).
Qed.

Lemma popped_eq m r p :
  popped m r p = slot_upd m (set_nr (sat_sub (nr_running r) 1) r) p (with_on_rq false).
Proof.
  unfold popped. cbv zeta. destruct (slot_upd_frame m r p (with_on_rq false)) as (_ & _ & _ & -> & _).
  apply slot_upd_set_nr.
Qed.

(** The common end of both pops: [r1] has the queues without [p]. *)
Lemma popped_ok m r r1 p t :
  rq_wf m r -> slot_get m r p = Some t -> on_rq t = true -> is_Some (class_of t) ->
  slots r1 = slots r -> same_env r r1 -> nr_running r1 = nr_running r ->
  (forall qs', qs_set (qstate m r) p None qs' -> queues_wf qs' (rt_rq r1) (cfs_rq r1) (nr_running r - 1)) ->
  left_queue r r1 t ->
  rq_wf m (popped m r1 p) /\ same_env r (popped m r1 p) /\
  task_set m r p (Some (with_on_rq false t)) (popped m r1 p) /\ left_queue r (popped m r1 p) t.
Proof.
  intros Hwf Hp Hon Hcl Es He Hnr Hq Hleft. rewrite popped_eq.
  assert (1 <= nr_running r) by (eapply nr_pos; [done..|]; unfold queued; by rewrite Hon).
  destruct (slot_upd_finish m r (set_nr (sat_sub (nr_running r1) 1) r1) p (with_on_rq false) t)
    as (Hw & He' & Hts & Frt & Fcfs); [done..|exact (slot_get_pid _ _ _ _ Hp)| |].
  { simpl. rewrite Hnr. replace (sat_sub (nr_running r) 1) with (nr_running r - 1) by (unfold sat_sub; lia).
    apply Hq. }
  split_and!; try done. unfold left_queue. rewrite Frt, Fcfs. exact Hleft.
Qed.

Lemma set_rt_id r : set_rt (rt_rq r) r = r.
Proof. by destruct r. Qed.

(** A pop takes the best task out of its queue, or finds every queue empty. *)
Definition pop_result (m : PidToSlot) (r r' : RunQueue) (p : Z) : Prop :=
  (exists t, slot_get m r p = Some t /\ on_rq t = true /\ is_Some (class_of t) /\
     task_set m r p (Some (with_on_rq false t)) r' /\ left_queue r r' t) \/
  (p = idle r /\ r' = r /\ forall q, qstate m r q = None).

Lemma pop_next_task_ok m r :
  rq_wf m r ->
  exists r' p, pop_next_task m r = Done (r', p) /\ best r p /\ rq_wf m r' /\ same_env r r' /\
    pop_result m r r' p.
Proof.
  intros Hwf. pose proof Hwf as [Hs Hq]. unfold pop_next_task.
  destruct (rt_pop_next_ok _ (qwf_rt _ _ _ _ Hq))
    as [[-> Hnone]|(rt' & i & p & l & -> & Hrt' & Hnr & Hl & Hi & Hab & Hlev)]; cbn [mbind outcome_bind].
  - rewrite set_rt_id. destruct (pick_next_ok _ (qwf_cfs _ _ _ _ Hq)) as [[-> Hnil]|(e & -> & _ & Hin & Hmin)];
      cbn [mbind outcome_bind].
    + exists r, (idle r). split_and!; [done|by apply best_idle|done|done|]. right. split_and!; try done.
      intros q. destruct (qstate m r q) as [[j|]|] eqn:Eq; [| |done].
      * apply (qwf_level _ _ _ _ Hq) in Eq. rewrite Hnone in Eq. by apply elem_of_nil in Eq.
      * apply (qwf_fair _ _ _ _ Hq) in Eq. unfold fair_pids in Eq. rewrite Hnil in Eq. by apply elem_of_nil in Eq.
    + set (w := from_option _ _ _).
      destruct (pop_next_ok (cfs_rq r) w (qwf_cfs _ _ _ _ Hq)) as [[_ Hnil]|(c & e' & -> & Hc & Hperm & Hmin' & Hm & _)].
      { rewrite Hnil in Hin. by apply elem_of_nil in Hin. }
      cbn [mbind outcome_bind].
      assert (qstate m r (ce_pid e') = Some QFair) as (t & Ht & Hon & Hcl)%qstate_Some.
      { apply (qwf_fair _ _ _ _ Hq). unfold fair_pids. rewrite Hperm. by left. }
      destruct (popped_ok m r (set_cfs c r) (ce_pid e') t) as (Hw & He & Hts & Hleft); try done.
      { by apply (queues_fair_remove _ _ _ _ Hq e'). }
      { unfold left_queue. rewrite Hcl. split_and!; [done..|]. exists (ce_vruntime e').
        rewrite (slot_get_pid _ _ _ _ Ht). by destruct e'. }
      eexists _, _. split; [done|]. split_and!; [|done|done|left; by exists t].
      eapply (best_fair r _ e'); [done| |done|done]. rewrite Hperm. by left.
  - assert (qstate m r p = Some (QRt i)) as (t & Ht & Hon & Hcl)%qstate_Some.
    { apply (qwf_level _ _ _ _ Hq). rewrite Hl. by left. }
    destruct (popped_ok m r (set_rt rt' r) p t) as (Hw & He & Hts & Hleft); try done.
    { by apply (queues_rt_remove _ _ _ _ Hq p i [] l). }
    { unfold left_queue. rewrite Hcl. split_and!; [done..|]. exists [], l.
      by rewrite (slot_get_pid _ _ _ _ Ht). }
    eexists _, _. split; [done|]. split_and!; [by eapply best_rt|done|done|left; by exists t].
Qed.

(** ** Updates that keep a task in its queue *)

Lemma slot_upd_keep m r p f t :
  rq_wf m r -> slot_get m r p = Some t -> t_pid (f t) = p -> queued (f t) = queued t ->
  rq_wf m (slot_upd m r p f) /\ same_env r (slot_upd m r p f) /\
  task_set m r p (Some (f t)) (slot_upd m r p f) /\
  rt_rq (slot_upd m r p f) = rt_rq r /\ cfs_rq (slot_upd m r p f) = cfs_rq r.
Proof.
  intros Hwf Hp Hf Hqd. apply slot_upd_finish; try done. intros qs' Hset.
  eapply queues_wf_ext; [|apply Hwf]. intros q. rewrite (Hset q).
  destruct (decide (q = p)) as [->|]; [|done]. unfold qstate. rewrite Hp, Hqd. done.
Qed.

(** Fields outside slots, queues and count do not matter to the invariant. *)
Lemma rq_wf_frame m r r' :
  slots r' = slots r -> free_stack r' = free_stack r -> rt_rq r' = rt_rq r -> cfs_rq r' = cfs_rq r ->
  nr_running r' = nr_running r -> rq_wf m r -> rq_wf m r'.
Proof.
  intros Es Ef Ert Ec En [Hs Hq]. split; [by eapply slots_wf_frame|]. rewrite Ert, Ec, En.
  eapply queues_wf_ext; [|exact Hq]. intros q. unfold qstate. by rewrite (slot_get_slots m r r').
Qed.

(** Raising the floor of the fair queue. *)
Lemma rq_wf_min m r c v :
  rq_wf m r -> update_min_vruntime (cfs_rq r) v = Done c -> rq_wf m (set_cfs c r).
Proof.
  intros [Hs Hq] E. destruct (update_min_vruntime_ok _ v (qwf_cfs _ _ _ _ Hq)) as (c' & E' & Hc & He & _).
  assert (c' = c) as -> by congruence. split; [by apply (slots_wf_frame m r)|]. simpl.
  destruct Hq as [? Hcf ? ? Hnd Hf Hnr]. split; try done.
  - unfold fair_pids. by rewrite He.
  - intros p. unfold fair_pids. rewrite He. apply Hf.
  - rewrite Hnr. rewrite !length_fair_pids by done. unfold fair_pids. by rewrite He.
Qed.
