(* ===== verification/SchedCore.v ===== *)
(** * The scheduler

    [sched/sched/src/core.rs]: the run queues of all CPUs with the tables
    [PID_TO_SLOT], [PID_TO_CPU] and [CURRENT_PIDS], and the entry points of the
    scheduler.  The CPU that executes an entry point, which the source asks the
    hardware for ([this_cpu]), is the argument [cpu].  Each [with_rq] is one
    critical section.  [try_with_rq] may find the lock taken; whether it does is
    the argument [free], a function of the CPU.

    Rescheduling interrupts, model-specific registers and the FPU state are not
    modelled. *)
From S2P Require Import Prelude CfsHeap RtQueue CpuSets SchedTask RunQueue.

Definition MAX_CPUS : Z := 256.

(** An absent entry of [pid_cpu] is [CPU_NONE], of [current_pids] [u32::MAX]. *)
Record World := MkWorld {
  rqs : gmap Z RunQueue;
  pid_slot : PidToSlot;
  pid_cpu : gmap Z Z;
  current_pids : gmap Z Z;
  active_cpus : Z;
  global_clock : Z;
  cpu_tick_ns : gmap Z Z
}.

Definition set_rqs (q : gmap Z RunQueue) (m : PidToSlot) (w : World) : World :=
  MkWorld q m (pid_cpu w) (current_pids w) (active_cpus w) (global_clock w) (cpu_tick_ns w).
Definition set_pid_cpu (h : gmap Z Z) (w : World) : World :=
  MkWorld (rqs w) (pid_slot w) h (current_pids w) (active_cpus w) (global_clock w) (cpu_tick_ns w).
Definition set_current_pid_lockfree (cpu pid : Z) (w : World) : World :=
  MkWorld (rqs w) (pid_slot w) (pid_cpu w) (<[cpu := pid]> (current_pids w)) (active_cpus w)
    (global_clock w) (cpu_tick_ns w).
Definition set_clock (c : Z) (w : World) : World :=
  MkWorld (rqs w) (pid_slot w) (pid_cpu w) (current_pids w) (active_cpus w) c (cpu_tick_ns w).
(** [CPU_TICK_NS[i].fetch_add(TICK_NS)]. *)
Definition add_tick (i : Z) (w : World) : World :=
  MkWorld (rqs w) (pid_slot w) (pid_cpu w) (current_pids w) (active_cpus w) (global_clock w)
    (<[i := wadd64 (default 0 (cpu_tick_ns w !! i)) TICK_NS]> (cpu_tick_ns w)).

(** The scheduler before any CPU is initialised. *)
Definition boot_world : World := MkWorld ∅ ∅ ∅ ∅ 0 0 ∅.

(** ** Access to the run queues *)

(** A critical section: it may change the run queue and the slot table. *)
Definition section (A : Type) : Type := PidToSlot -> RunQueue -> outcome (PidToSlot * RunQueue * A).

Definition with_rq {A} (w : World) (cpu : Z) (f : section A) : outcome (World * option A) :=
  if MAX_CPUS <=? cpu then Fault else
  match rqs w !! cpu with
  | None => Done (w, None)
  | Some r =>
      '(m, r, a) ← f (pid_slot w) r;
      Done (set_rqs (<[cpu := r]> (rqs w)) m w, Some a)
  end.

Definition try_with_rq {A} (free : Z -> bool) (w : World) (cpu : Z) (f : section A) :
    outcome (World * option A) :=
  if MAX_CPUS <=? cpu then Fault
  else if free cpu then with_rq w cpu f else Done (w, None).

Definition pid_to_cpu (w : World) (pid : Z) : option Z :=
  if MAX_PIDS <=? pid then None else pid_cpu w !! pid.

Definition pid_to_cpu_set (pid cpu : Z) (w : World) : World :=
  if pid <? MAX_PIDS then set_pid_cpu (<[pid := cpu]> (pid_cpu w)) w else w.

Definition pid_to_cpu_clear (pid : Z) (w : World) : World :=
  if pid <? MAX_PIDS then set_pid_cpu (delete pid (pid_cpu w)) w else w.

(** [Option::flatten]. *)
Definition flatten {A} (o : option (option A)) : option A :=
  match o with Some x => x | None => None end.

(** The loop [for other in 0..num_cpus()] over the critical section [f] until it
    reports success, skipping the CPUs of [skip]. *)
Fixpoint scan {A} (w : World) (cpus : list Z) (skip : Z -> bool) (f : section (option A)) :
    outcome (World * option A) :=
  match cpus with
  | [] => Done (w, None)
  | c :: cpus =>
      if skip c then scan w cpus skip f else
      '(w, a) ← with_rq w c f;
      match flatten a with
      | Some a => Done (w, Some a)
      | None => scan w cpus skip f
      end
  end.

Definition all_cpus (w : World) : list Z := seqZ 0 (active_cpus w).

(** The second tier of a lookup: the CPU the hint table names, if it is another. *)
Definition hint_tier {A} (w : World) (cpu pid : Z) (f : section (option A)) :
    outcome (World * option A) :=
  match pid_to_cpu w pid with
  | Some h => if h =? cpu then Done (w, None) else '(w, a) ← with_rq w h f; Done (w, flatten a)
  | None => Done (w, None)
  end.

(** The three tiers of [with_task_on_any_cpu]: this CPU, the CPU of the hint
    table, then all CPUs.  The section returns [None] when the task is not
    there. *)
Definition with_task_on_any_cpu {A} (w : World) (cpu pid : Z) (f : section (option A)) :
    outcome (World * option A) :=
  '(w, a) ← with_rq w cpu f;
  match flatten a with
  | Some a => Done (w, Some a)
  | None =>
      '(w, a) ← hint_tier w cpu pid f;
      match a with
      | Some a => Done (w, Some a)
      | None => scan w (all_cpus w) (fun c => c =? cpu) f
      end
  end.

(** Sections that read or update one task. *)
Definition read_task {A} (pid : Z) (f : Task -> A) : section (option A) := fun (m : PidToSlot) (r : RunQueue) =>
  Done (m, r, f <$> slot_get m r pid).

Definition update_task (pid : Z) (f : Task -> Task) : section (option unit) := fun (m : PidToSlot) (r : RunQueue) =>
  Done (m, slot_upd m r pid f, (fun _ => tt) <$> slot_get m r pid).

(** ** Initialisation, addition and removal *)

Definition init_cpu (w : World) (cpu idle_pid : Z) : outcome World :=
  if MAX_CPUS <=? cpu then Fault else
  let w := MkWorld (<[cpu := rq_new cpu idle_pid]> (rqs w)) (pid_slot w) (pid_cpu w)
             (current_pids w) (wadd32 (active_cpus w) 1) (global_clock w) (cpu_tick_ns w) in
  Done (pid_to_cpu_set idle_pid cpu (set_current_pid_lockfree cpu idle_pid w)).

(** The least loaded CPU of those allowed. *)
Definition less_loaded (w : World) (affinity : CpuSet) (best : Z * Z) (cpu : Z) : Z * Z :=
  if cpuset_is_set affinity cpu then
    let load := from_option nr_running U32_MAX (rqs w !! cpu) in
    if load <? snd best then (cpu, load) else best
  else best.

Definition select_task_rq (w : World) (this : Z) (t : Task) : Z :=
  if cpuset_is_set (cpu_affinity t) (last_cpu t) then last_cpu t
  else if cpuset_is_set (cpu_affinity t) this then this
  else fst (foldl (less_loaded w (cpu_affinity t))
                  (default 0 (cpuset_first_set (cpu_affinity t)), U32_MAX) (all_cpus w)).

Definition add_section (now : Z) (t : Task) : section unit := fun (m : PidToSlot) (r : RunQueue) =>
  '(m, r) ← RunQueue.add_task m now r t; Done (m, r, tt).

Definition add_task_to_cpu (w : World) (now : Z) (t : Task) (cpu : Z) : outcome World :=
  '(w, _) ← with_rq w cpu (add_section now t);
  Done (pid_to_cpu_set (t_pid t) cpu w).

Definition add_task (w : World) (this now : Z) (t : Task) : outcome World :=
  add_task_to_cpu w now t (select_task_rq w this t).

Definition remove_section (pid : Z) : section (option Task) := fun (m : PidToSlot) (r : RunQueue) => RunQueue.remove_task m r pid.

Definition remove_task (w : World) (cpu pid : Z) : outcome (World * option Task) :=
  '(w, a) ← with_task_on_any_cpu w cpu pid (remove_section pid);
  match a with
  | Some t => Done (pid_to_cpu_clear pid w, Some t)
  | None => Done (w, None)
  end.

(** ** Waking *)

Definition should_preempt (m : PidToSlot) (r : RunQueue) (waking cur : Z) : outcome bool :=
  match slot_get m r waking, slot_get m r cur with
  | None, _ => Done false
  | _, None => Done true
  | Some a, Some b =>
      if is_realtime (policy a) && negb (is_realtime (policy b)) then Done true
      else if is_realtime (policy a) && is_realtime (policy b) then Done (rt_priority b <? rt_priority a)
      else if is_idle_policy (policy b) && negb (is_idle_policy (policy a)) then Done true
      else if is_fair (policy a) && is_fair (policy b) then
        x ← add64 (vruntime a) 1000000; Done (x <? vruntime b)
      else Done false
  end.

(** A waking section: the task becomes runnable and joins its queue; [finish]
    decides on the rescheduling flag. *)
Definition wake_section (pid : Z) (before : RunQueue -> Task -> Task)
    (finish : PidToSlot -> RunQueue -> outcome RunQueue) : section (option unit) := fun (m : PidToSlot) (r : RunQueue) =>
  match slot_get m r pid with
  | None => Done (m, r, None)
  | Some _ =>
      let r := slot_upd m r pid (fun t => with_state TASK_RUNNING (before r t)) in
      r ← enqueue_task m r pid;
      r ← finish m r;
      Done (m, r, Some tt)
  end.

Definition resched_if_better (pid : Z) (m : PidToSlot) (r : RunQueue) : outcome RunQueue :=
  match curr r with
  | Some c => b ← should_preempt m r pid c; Done (if (b : bool) then set_need_resched true r else r)
  | None => Done r
  end.

Definition resched_always (m : PidToSlot) (r : RunQueue) : outcome RunQueue :=
  Done (set_need_resched true r).

Definition wake_here (pid : Z) : section (option unit) :=
  wake_section pid (fun _ t => t) (resched_if_better pid).
Definition wake_remote (pid : Z) : section (option unit) :=
  wake_section pid (fun _ t => t) resched_always.
Definition wake_scan (pid : Z) : section (option unit) :=
  wake_section pid (fun r t => if is_fair (policy t) then with_vruntime (min_vruntime (cfs_rq r)) t else t)
    resched_always.

Definition wake_up (w : World) (cpu pid : Z) : outcome World :=
  '(w, a) ← with_rq w cpu (wake_here pid);
  match flatten a with
  | Some _ => Done w
  | None =>
      '(w, a) ← hint_tier w cpu pid (wake_remote pid);
      match a with
      | Some _ => Done w
      | None =>
          '(w, _) ← scan w (all_cpus w)
                      (fun c => (c =? cpu) || bool_decide (pid_to_cpu w pid = Some c)) (wake_scan pid);
          Done w
      end
  end.

(** The last tier of [try_wake_up], which gives up at the first taken lock. *)
Fixpoint try_scan (free : Z -> bool) (w : World) (cpus : list Z) (cpu : Z) (f : section (option unit)) :
    outcome (World * bool) :=
  match cpus with
  | [] => Done (w, false)
  | c :: cpus =>
      if c =? cpu then try_scan free w cpus cpu f else
      '(w, a) ← try_with_rq free w c f;
      match a with
      | Some (Some _) => Done (w, true)
      | None => Done (w, false)
      | Some None => try_scan free w cpus cpu f
      end
  end.

Definition try_wake_up (free : Z -> bool) (w : World) (cpu pid : Z) : outcome (World * bool) :=
  '(w, a) ← try_with_rq free w cpu (wake_here pid);
  match a with
  | Some (Some _) => Done (w, true)
  | None => Done (w, false)
  | Some None =>
      match pid_to_cpu w pid with
      | Some h =>
          if h =? cpu then try_scan free w (all_cpus w) cpu (wake_remote pid) else
          '(w, a) ← try_with_rq free w h (wake_here pid);
          match a with
          | Some (Some _) => Done (w, true)
          | None => Done (w, false)
          | Some None => try_scan free w (all_cpus w) cpu (wake_remote pid)
          end
      | None => try_scan free w (all_cpus w) cpu (wake_remote pid)
      end
  end.

(** ** The current task *)

Definition block_section (st : Z) : section unit := fun (m : PidToSlot) (r : RunQueue) =>
  match curr r with
  | Some c =>
      r ← dequeue_task m (slot_upd m r c (with_state st)) c;
      Done (m, set_need_resched true r, tt)
  | None => Done (m, r, tt)
  end.

Definition block_current (w : World) (cpu st : Z) : outcome World :=
  '(w, _) ← with_rq w cpu (block_section st); Done w.

Definition yield_section : section unit := fun (m : PidToSlot) (r : RunQueue) =>
  match curr r with
  | Some c => r ← put_prev_task m r c; Done (m, set_need_resched true r, tt)
  | None => Done (m, r, tt)
  end.

Definition yield_current (w : World) (cpu : Z) : outcome World :=
  '(w, _) ← with_rq w cpu yield_section; Done w.

Definition tick_section (cpu now : Z) (in_blocking_wait : bool) : section (bool * bool) := fun (m : PidToSlot) (r : RunQueue) =>
  let is_idle := match curr r with
                 | None => true
                 | Some p => from_option (fun t => is_idle_policy (policy t)) true (slot_get m r p)
                 end in
  '(r, b) ← RunQueue.scheduler_tick m (update_clock now r) in_blocking_wait;
  Done (m, r, (is_idle, b)).

Definition scheduler_tick_ex (free : Z -> bool) (w : World) (cpu : Z) (in_blocking_wait : bool) :
    outcome (World * bool) :=
  '(w, now) ← (if cpu =? 0 then
                 now ← add64 (global_clock w) TICK_NS;
                 Done (set_clock (wadd64 (global_clock w) TICK_NS) w, now)
               else Done (w, global_clock w));
  '(w, a) ← try_with_rq free w cpu (tick_section cpu now in_blocking_wait);
  match a with
  | Some (is_idle, b) => Done (add_tick (cpu * 3 + if is_idle || in_blocking_wait then 2 else 0) w, b)
  | None => Done (add_tick (cpu * 3 + 2) w, false)
  end.

(** The charge of the task that stops running. *)
Definition charge (now : Z) (t : Task) : Task :=
  let '(delta, t) := account_stop now t in
  let already_charged := vruntime_charged_this_tick t in
  let t := with_vruntime_charged_this_tick false t in
  update_vruntime (if (delta =? 0) && is_fair (policy t) && negb already_charged then TICK_NS else delta) t.

(** [task.state.is_runnable() && !task.is_idle()] of a task that may be absent. *)
Definition should_requeue (m : PidToSlot) (r : RunQueue) (pid : Z) : bool :=
  from_option (fun t => is_runnable (state t) && negb (is_idle_policy (policy t))) false (slot_get m r pid).

(** Put the previous task back: charge it, and queue it if it can run on. *)
Definition put_back (m : PidToSlot) (r : RunQueue) : outcome RunQueue :=
  match curr r with
  | None => Done r
  | Some prev =>
      let r := slot_upd m r prev (charge (clock r)) in
      if should_requeue m r prev then put_prev_task m r prev else dequeue_task m r prev
  end.

(** The task that starts running. *)
Definition start_running (cpu now : Z) (t : Task) : Task :=
  with_exec_start now (with_last_cpu cpu (with_state TASK_RUNNING t)).

Definition pick_section (cpu now : Z) : section Z := fun (m : PidToSlot) (r : RunQueue) =>
  r ← put_back m (update_clock now r);
  '(r, next) ← pop_next_task m r;
  let r := slot_upd m r next (start_running cpu (clock r)) in
  Done (m, set_need_resched false (set_curr (Some next) r), next).

Definition pick_next_task (w : World) (cpu : Z) : outcome (World * option Z) :=
  with_rq w cpu (pick_section cpu (global_clock w)).

Definition undo_section (old_pid next_pid : Z) : section unit := fun (m : PidToSlot) (r : RunQueue) =>
  r ← enqueue_task m (set_curr (Some old_pid) r) next_pid;
  Done (m, set_need_resched true r, tt).

Definition undo_pick_next (w : World) (cpu old_pid next_pid : Z) : outcome World :=
  '(w, _) ← with_rq w cpu (undo_section old_pid next_pid); Done w.

(** The common part of [switch_to] and [context_switch_transaction]: queue the
    previous task if it can run on, take the new one from its queue and make it
    the current one. *)
Definition switch_section (cpu now : Z) (prev : option Z) (new_pid : Z) : section unit := fun (m : PidToSlot) (r : RunQueue) =>
  r ← (match prev with
       | Some p => if should_requeue m r p then put_prev_task m r p else Done r
       | None => Done r
       end);
  r ← dequeue_task m r new_pid;
  let r := update_clock now r in
  let r := slot_upd m r new_pid (fun t => with_on_rq false (start_running cpu (clock r) t)) in
  Done (m, set_need_resched false (set_curr (Some new_pid) r), tt).

Definition switch_to (w : World) (cpu new_pid : Z) : outcome World :=
  '(w, _) ← with_rq w cpu (fun (m : PidToSlot) (r : RunQueue) => switch_section cpu (global_clock w) (curr r) new_pid m r);
  Done (set_current_pid_lockfree cpu new_pid w).

Definition save_context (ctx : TaskContext) (count : Z) (t : Task) : Task :=
  with_preempt_count (count mod U32) (with_context ctx t).

Definition transaction_section (cpu now old_pid new_pid : Z) (old_ctx : TaskContext) (count : Z) :
    section (option (TaskContext * Z)) := fun (m : PidToSlot) (r : RunQueue) =>
  match slot_get m r old_pid with
  | None => Done (m, r, None)
  | Some _ =>
      let r := slot_upd m r old_pid (save_context old_ctx count) in
      match slot_get m r new_pid with
      | None => Done (m, r, None)
      | Some t =>
          if negb (is_schedulable (context t)) then Done (m, r, None) else
          '(m, r, _) ← switch_section cpu now (Some old_pid) new_pid m r;
          Done (m, r, Some (context t, preempt_count t))
      end
  end.

Definition context_switch_transaction (w : World) (cpu old_pid new_pid : Z) (old_ctx : TaskContext)
    (count : Z) : outcome (World * option (TaskContext * Z)) :=
  '(w, a) ← with_rq w cpu (transaction_section cpu (global_clock w) old_pid new_pid old_ctx count);
  match flatten a with
  | Some i => Done (set_current_pid_lockfree cpu new_pid w, Some i)
  | None => Done (w, None)
  end.

(** ** Attributes of a task *)

(** [task.set_policy(policy)], with the priority of a real-time policy. *)
Definition with_scheduler (p : SchedPolicy) (priority : Z) (t : Task) : Task :=
  let t := set_policy p t in if is_realtime p then set_rt_priority priority t else t.

Definition set_scheduler_section (pid : Z) (p : SchedPolicy) (priority : Z) : section (option unit) :=
  fun (m : PidToSlot) (r : RunQueue) =>
  match slot_get m r pid with
  | None => Done (m, r, None)
  | Some t =>
      r ← (if on_rq t then dequeue_task m r pid else Done r);
      let r := slot_upd m r pid (with_scheduler p priority) in
      r ← (if on_rq t then enqueue_task m r pid else Done r);
      Done (m, r, Some tt)
  end.

Definition set_scheduler (w : World) (cpu pid : Z) (p : SchedPolicy) (priority : Z) : outcome World :=
  '(w, _) ← with_task_on_any_cpu w cpu pid (set_scheduler_section pid p priority); Done w.

Definition set_task_nice (w : World) (cpu pid nice : Z) : outcome (World * bool) :=
  '(w, a) ← with_task_on_any_cpu w cpu pid (update_task pid (set_nice nice));
  Done (w, bool_decide (is_Some a)).

Definition set_task_policy (w : World) (cpu pid : Z) (p : SchedPolicy) : outcome (World * bool) :=
  '(w, a) ← with_task_on_any_cpu w cpu pid (update_task pid (with_policy p));
  Done (w, bool_decide (is_Some a)).

Definition set_task_rt_priority (w : World) (cpu pid priority : Z) : outcome (World * bool) :=
  '(w, a) ← with_task_on_any_cpu w cpu pid (update_task pid (with_rt_priority priority));
  Done (w, bool_decide (is_Some a)).

Definition get_task_state (w : World) (cpu pid : Z) : outcome (World * option Z) :=
  with_task_on_any_cpu w cpu pid (read_task pid state).

Definition set_task_waiting (w : World) (cpu pid child : Z) : outcome World :=
  '(w, _) ← with_task_on_any_cpu w cpu pid (update_task pid (wait_for_child child)); Done w.

Definition clear_task_waiting (w : World) (cpu pid : Z) : outcome World :=
  '(w, _) ← with_task_on_any_cpu w cpu pid (update_task pid clear_waiting); Done w.

Definition exit_section (pid status : Z) : section (option unit) := fun (m : PidToSlot) (r : RunQueue) =>
  match slot_get m r pid with
  | None => Done (m, r, None)
  | Some _ =>
      r ← dequeue_task m (slot_upd m r pid (task_exit status)) pid;
      Done (m, r, Some tt)
  end.

Definition set_task_exit_status (w : World) (cpu pid status : Z) : outcome World :=
  '(w, _) ← with_task_on_any_cpu w cpu pid (exit_section pid status); Done w.

Definition get_task_exit_status (w : World) (cpu pid : Z) : outcome (World * option Z) :=
  '(w, a) ← with_task_on_any_cpu w cpu pid
    (read_task pid (fun t => if state t =? TASK_ZOMBIE then Some (exit_status t) else None));
  Done (w, flatten a).

(** ** Migration *)

(** The section of [set_affinity] on the CPU that has the task: a queued task is
    taken out for migration, the current one is only rescheduled. *)
Definition migrate_section (pid : Z) : section (option Task) := fun (m : PidToSlot) (r : RunQueue) =>
  if bool_decide (curr r = Some pid) then Done (m, set_need_resched true r, None) else
  r ← dequeue_task m r pid; RunQueue.remove_task m r pid.

Definition affinity_section (pid : Z) (set : CpuSet) : section (option Z) :=
  fun (m : PidToSlot) (r : RunQueue) =>
  Done (m, slot_upd m r pid (with_cpu_affinity set), (fun _ => rq_cpu r) <$> slot_get m r pid).

Definition set_affinity (w : World) (cpu now pid : Z) (set : CpuSet) : outcome World :=
  '(w, found) ← with_task_on_any_cpu w cpu pid (affinity_section pid set);
  match found with
  | None => Done w
  | Some c =>
      if cpuset_is_set set c then Done w else
      '(w, a) ← with_rq w c (migrate_section pid);
      match flatten a with
      | Some t => add_task (pid_to_cpu_clear pid w) cpu now t
      | None => Done w
      end
  end.

(** The most loaded other CPU with more than one task, among those whose lock is
    free. *)
Definition more_loaded (free : Z -> bool) (w : World) (my_cpu : Z) (best : option Z * Z) (cpu : Z) :
    option Z * Z :=
  if cpu =? my_cpu then best else
  match (if free cpu then rqs w !! cpu else None) with
  | Some r => if snd best <? nr_running r then (Some cpu, nr_running r) else best
  | None => best
  end.

Definition busiest (free : Z -> bool) (w : World) (my_cpu : Z) : option Z :=
  fst (foldl (more_loaded free w my_cpu) (None, 1) (all_cpus w)).

Definition set_need_resched_on (w : World) (cpu : Z) : outcome World :=
  '(w, _) ← with_rq w cpu (fun (m : PidToSlot) (r : RunQueue) =>
    Done (m, set_need_resched true r, tt)); Done w.

Definition idle_try_steal (free : Z -> bool) (w : World) (my_cpu now : Z) : outcome (World * bool) :=
  if active_cpus w <=? 1 then Done (w, false) else
  match busiest free w my_cpu with
  | None => Done (w, false)
  | Some victim =>
      '(w, a) ← try_with_rq free w victim (fun (m : PidToSlot) (r : RunQueue) => steal_task m r my_cpu);
      match flatten a with
      | None => Done (w, false)
      | Some t =>
          w ← add_task_to_cpu w now t my_cpu;
          w ← set_need_resched_on w my_cpu;
          Done (w, true)
      end
  end.

(** ** The kernel's side

    [kernel/src/scheduler.rs]: waking a process, and the part of the timer
    handler that replaces the process [current] of a CPU, whose registers were
    saved in [ctx], by the next one.  The result is the process that runs on. *)

Definition kernel_wake_up (w : World) (cpu pid : Z) : outcome World :=
  w ← clear_task_waiting w cpu pid; wake_up w cpu pid.

Definition pick_next_process (w : World) (cpu current : Z) : outcome (World * Z) :=
  '(w, a) ← pick_next_task w cpu;
  match a with
  | Some next => Done (w, next)
  | None =>
      '(w, s) ← get_task_state w cpu current;
      Done (w, if from_option is_dead false s then 0 else current)
  end.

Definition switch_process (w : World) (cpu current : Z) (ctx : TaskContext) (count : Z) :
    outcome (World * Z) :=
  '(w, next) ← pick_next_process w cpu current;
  if next =? current then Done (w, current) else
  '(w, info) ← context_switch_transaction w cpu current next ctx count;
  match info with
  | Some _ => Done (w, next)
  | None => w ← undo_pick_next w cpu current next; Done (w, current)
  end.
