(* ===== verification/SchedInv.v ===== *)
(** * No runnable task is lost

    The invariant of the scheduler.  On every CPU the run queue is consistent
    ([rq_wf]), the real-time tasks of a level fit into it ([rt_fits]), and every
    task that is runnable and has a class is the current task or in the queue of
    its class ([rq_live]).  Every pid has its task on one CPU.

    The sections of [SchedCore] are shown to preserve the invariant of a run
    queue, and the entry points that of all CPUs. *)
From S2P Require Import Prelude CfsHeap RtQueue CpuSets SchedTask RunQueue RunQueueInv SchedCore.

Definition cls (m : PidToSlot) (r : RunQueue) (p : Z) : option qclass := slot_get m r p ≫= class_of.

Definition rt_fits (m : PidToSlot) (r : RunQueue) : Prop :=
  forall i l, NoDup l -> (forall p, p ∈ l -> cls m r p = Some (QRt i)) -> (length l <= MAX_RT_PER_PRIO)%nat.

Definition rq_live (m : PidToSlot) (r : RunQueue) : Prop :=
  forall p t, slot_get m r p = Some t -> is_runnable (state t) = true -> is_Some (class_of t) ->
    on_rq t = true \/ curr r = Some p.

Record rq_good (m : PidToSlot) (r : RunQueue) : Prop := {
  good_wf : rq_wf m r;
  good_fits : rt_fits m r;
  good_live : rq_live m r
}.

Lemma rt_fits_room m r p t :
  rq_wf m r -> rt_fits m r -> slot_get m r p = Some t -> on_rq t = false -> rt_room r t.
Proof.
  intros [_ Hq] Hf Hp Hoff Hrt. set (i := priority_to_index (rt_priority t)).
  assert (length (p :: level (rt_rq r) i) <= MAX_RT_PER_PRIO)%nat as Hl; [|simpl in Hl; lia].
  apply (Hf i).
  - apply NoDup_cons. split; [|apply Hq]. rewrite (qwf_level _ _ _ _ Hq). unfold qstate, queued.
    rewrite Hp. simpl. by rewrite Hoff.
  - intros q [->|Hin]%elem_of_cons; unfold cls.
    + rewrite Hp. simpl. unfold class_of. by rewrite Hrt.
    + apply (qwf_level _ _ _ _ Hq), qstate_Some in Hin as (u & -> & _ & Hc). done.
Qed.

Lemma with_on_rq_id t : with_on_rq (on_rq t) t = t.
Proof. by destruct t. Qed.

(** ** The effect of queueing, whatever the state of the task *)

Definition after_enqueue (r : RunQueue) (t : Task) : Task := if on_rq t then t else enqueued r t.

Lemma task_set_refl m r p : task_set m r p (slot_get m r p) r.
Proof. intros q. by destruct (decide (q = p)) as [->|]. Qed.

Lemma task_set_trans m r1 r2 r3 p o o' :
  task_set m r1 p o r2 -> task_set m r2 p o' r3 -> task_set m r1 p o' r3.
Proof. intros H1 H2 q. rewrite (H2 q). destruct (decide (q = p)) as [->|]; [done|]. rewrite (H1 q). by rewrite decide_False. Qed.

Lemma task_set_get m r p o r' : task_set m r p o r' -> slot_get m r' p = o.
Proof. intros H. rewrite (H p). by rewrite decide_True. Qed.

Lemma task_set_frame m r p o r1 r2 : slots r2 = slots r1 -> task_set m r p o r1 -> task_set m r p o r2.
Proof. intros E H q. rewrite (slot_get_slots m r1 r2) by done. apply H. Qed.

Lemma enqueue_task_sum m r p :
  rq_wf m r -> rt_fits m r ->
  exists r', enqueue_task m r p = Done r' /\ rq_wf m r' /\ same_env r r' /\
    task_set m r p (after_enqueue r <$> slot_get m r p) r'.
Proof.
  intros Hwf Hf. destruct (slot_get m r p) as [t|] eqn:Hp; simpl.
  - unfold after_enqueue. destruct (on_rq t) eqn:Hon.
    + exists r. rewrite enqueue_task_idle by (intros; congruence). split_and!; try done.
      rewrite <- Hp. apply task_set_refl.
    + destruct (enqueue_task_ok m r p t) as (r' & E & Hwf' & He & Hts & _); [done..|by eapply rt_fits_room|].
      exists r'. by split_and!.
  - exists r. rewrite enqueue_task_idle by (intros; congruence). split_and!; try done.
    rewrite <- Hp. apply task_set_refl.
Qed.

Lemma dequeue_task_sum m r p :
  rq_wf m r ->
  exists r', dequeue_task m r p = Done r' /\ rq_wf m r' /\ same_env r r' /\
    task_set m r p (with_on_rq false <$> slot_get m r p) r'.
Proof.
  intros Hwf. destruct (slot_get m r p) as [t|] eqn:Hp; simpl.
  - destruct (on_rq t) eqn:Hon.
    + destruct (dequeue_task_ok m r p t) as (r' & E & Hwf' & He & Hts & _); [done..|]. exists r'. by split_and!.
    + exists r. rewrite dequeue_task_idle by (intros; congruence). split_and!; try done.
      rewrite <- Hon, with_on_rq_id, <- Hp. apply task_set_refl.
  - exists r. rewrite dequeue_task_idle by (intros; congruence). split_and!; try done.
    rewrite <- Hp. apply task_set_refl.
Qed.

(** Updates that keep pid, policy, priority and the queueing mark. *)
Definition keeps_class (f : Task -> Task) : Prop :=
  forall t, t_pid (f t) = t_pid t /\ class_of (f t) = class_of t /\ on_rq (f t) = on_rq t.

Lemma slot_upd_sum_at m r p f :
  rq_wf m r ->
  (forall t, slot_get m r p = Some t ->
     t_pid (f t) = t_pid t /\ class_of (f t) = class_of t /\ on_rq (f t) = on_rq t) ->
  rq_wf m (slot_upd m r p f) /\ same_env r (slot_upd m r p f) /\
  task_set m r p (f <$> slot_get m r p) (slot_upd m r p f).
Proof.
  intros Hwf Hf. destruct (slot_get m r p) as [t|] eqn:Hp; simpl.
  - destruct (Hf t eq_refl) as (E1 & E2 & E3).
    destruct (slot_upd_keep m r p f t) as (Hw & He & Hts & _); try done.
    + rewrite E1. by eapply slot_get_pid.
    + unfold queued. by rewrite E2, E3.
  - rewrite slot_upd_none by done. split_and!; try done. rewrite <- Hp. apply task_set_refl.
Qed.

Lemma slot_upd_sum m r p f :
  rq_wf m r -> keeps_class f ->
  rq_wf m (slot_upd m r p f) /\ same_env r (slot_upd m r p f) /\
  task_set m r p (f <$> slot_get m r p) (slot_upd m r p f).
Proof. intros Hwf Hf. apply slot_upd_sum_at; [done|]. intros t _. apply Hf. Qed.

(** ** Preservation *)

Lemma rt_fits_cls m r m' r' :
  (forall p, cls m' r' p = cls m r p) -> rt_fits m r -> rt_fits m' r'.
Proof. intros E Hf i l Hnd Hl. apply (Hf i l Hnd). intros p Hp. rewrite <- E. by apply Hl. Qed.

Lemma task_set_cls m r p f r' :
  task_set m r p (f <$> slot_get m r p) r' -> (forall t, class_of (f t) = class_of t) ->
  forall q, cls m r' q = cls m r q.
Proof.
  intros Hts Hf q. unfold cls. rewrite (Hts q). destruct (decide (q = p)) as [->|]; [|done].
  destruct (slot_get m r p) as [t|]; simpl; [apply Hf|done].
Qed.

(** A run queue in which only the task of [p] changed, by [f]. *)
Lemma rq_good_set m r p f r' :
  rq_good m r -> rq_wf m r' -> curr r' = curr r -> task_set m r p (f <$> slot_get m r p) r' ->
  (forall t, class_of (f t) = class_of t) ->
  (forall t, slot_get m r p = Some t -> is_runnable (state (f t)) = true -> is_Some (class_of t) ->
     on_rq (f t) = true \/ curr r = Some p) ->
  rq_good m r'.
Proof.
  intros [Hwf Hfit Hlive] Hwf' Ec Hts Hcl Hnew. split; [done|by eapply rt_fits_cls, Hfit; eapply task_set_cls|].
  intros q u Hu Hrun Hc. rewrite Ec. rewrite (Hts q) in Hu.
  destruct (decide (q = p)) as [->|]; [|by eapply Hlive].
  apply fmap_Some in Hu as (t & Ht & ->). rewrite Hcl in Hc. by apply Hnew.
Qed.

Lemma same_env_curr r r' : same_env r r' -> curr r' = curr r.
Proof. intros (_ & ? & _). done. Qed.

Lemma same_env_trans r1 r2 r3 : same_env r1 r2 -> same_env r2 r3 -> same_env r1 r3.
Proof. unfold same_env. intuition congruence. Qed.

Lemma class_of_after_enqueue r t : class_of (after_enqueue r t) = class_of t.
Proof. unfold after_enqueue, enqueued, class_of. destruct (on_rq t); [done|]. simpl. by destruct (is_fair (policy t)) eqn:E; simpl; rewrite ?E. Qed.

Lemma on_rq_after_enqueue r t : on_rq (after_enqueue r t) = true.
Proof. unfold after_enqueue. by destruct (on_rq t) eqn:E. Qed.

Lemma state_after_enqueue r t : state (after_enqueue r t) = state t.
Proof. unfold after_enqueue, enqueued. destruct (on_rq t); [done|]. simpl. by destruct (is_fair (policy t)). Qed.

(** What a section that keeps the table and the tasks establishes. *)
Record keeps (m : PidToSlot) (r r' : RunQueue) : Prop := {
  keeps_good : rq_good m r';
  keeps_cpu : rq_cpu r' = rq_cpu r;
  keeps_pids : forall q, is_Some (slot_get m r' q) <-> is_Some (slot_get m r q)
}.

Lemma task_set_pids m r p f r' :
  task_set m r p (f <$> slot_get m r p) r' ->
  forall q, is_Some (slot_get m r' q) <-> is_Some (slot_get m r q).
Proof. intros H q. rewrite (H q). destruct (decide (q = p)) as [->|]; [by rewrite fmap_is_Some|done]. Qed.

(** The rescheduling flag, the clock and the current task are no part of [rq_wf]. *)
Lemma rq_good_resched m r b : rq_good m r -> rq_good m (set_need_resched b r).
Proof. intros [? ? ?]. split; [by apply (rq_wf_frame m r)|done|done]. Qed.

Lemma rq_good_clock m r now : rq_good m r -> rq_good m (update_clock now r).
Proof. intros [? ? ?]. split; [by apply (rq_wf_frame m r)|done|done]. Qed.

(** Changing the current task keeps the invariant when the old one is queued or
    cannot run. *)
Lemma rq_good_curr m r c :
  rq_wf m r -> rt_fits m r ->
  (forall p t, slot_get m r p = Some t -> is_runnable (state t) = true -> is_Some (class_of t) ->
     on_rq t = true \/ c = Some p) ->
  rq_good m (set_curr c r).
Proof. intros ? ? Hl. split; [by apply (rq_wf_frame m r)|done|exact Hl]. Qed.

(** Virtual runtimes far enough from the end of the 64-bit range that the
    comparisons of the scheduler do not overflow. *)
Definition clock_room (m : PidToSlot) (r : RunQueue) : Prop :=
  min_vruntime (cfs_rq r) + 1000000 < U64 /\
  forall p t, slot_get m r p = Some t -> vruntime t + 1000000 < U64.

Lemma should_preempt_done m r p c :
  (forall t, slot_get m r p = Some t -> vruntime t + 1000000 < U64) ->
  exists b, should_preempt m r p c = Done b.
Proof.
  intros Hv. unfold should_preempt. destruct (slot_get m r p) as [a|]; [|eauto].
  destruct (slot_get m r c) as [b|]; [|eauto]. rewrite add64_ok by by apply Hv.
  repeat (destruct (_ && _); [eauto|]). eauto.
Qed.

(** [finish] at most sets the rescheduling flag. *)
Definition only_resched (m : PidToSlot) (finish : PidToSlot -> RunQueue -> outcome RunQueue) (r : RunQueue) : Prop :=
  exists b, finish m r = Done (if (b : bool) then set_need_resched true r else r).

Lemma wake_section_absent m r p before finish :
  slot_get m r p = None -> wake_section p before finish m r = Done (m, r, None).
Proof. intros H. unfold wake_section. by rewrite H. Qed.

Lemma vruntime_after_enqueue r t :
  vruntime (after_enqueue r t) <= Z.max (vruntime t) (Z.max 0 (min_vruntime (cfs_rq r))).
Proof.
  unfold after_enqueue, enqueued, sat_sub, SCHED_LATENCY_NS. destruct (on_rq t); [lia|].
  simpl. destruct (is_fair (policy t)); simpl; lia.
Qed.

(** A section that wakes [p]: it is runnable and queued afterwards. *)
Lemma wake_section_ok m r p t before finish :
  rq_good m r -> clock_room m r -> slot_get m r p = Some t ->
  keeps_class (before r) -> vruntime (before r t) <= Z.max (vruntime t) (min_vruntime (cfs_rq r)) ->
  (forall r', rq_wf m r' -> (forall u, slot_get m r' p = Some u -> vruntime u + 1000000 < U64) ->
     only_resched m finish r') ->
  exists r' t', wake_section p before finish m r = Done (m, r', Some tt) /\ keeps m r r' /\
    curr r' = curr r /\ slot_get m r' p = Some t' /\ state t' = TASK_RUNNING /\ on_rq t' = true /\
    class_of t' = class_of t.
Proof.
  intros Hg [Hmin Hvr] Hp Hbef Hvb Hfin. unfold wake_section. rewrite Hp.
  set (f := fun t => with_state TASK_RUNNING (before r t)).
  destruct (slot_upd_sum m r p f (good_wf _ _ Hg)) as (Hwf1 & He1 & Hts1).
  { intros u. destruct (Hbef u) as (E1 & E2 & E3). unfold f. by split_and!. }
  set (r1 := slot_upd m r p f) in *.
  destruct (enqueue_task_sum m r1 p Hwf1) as (r2 & -> & Hwf2 & He2 & Hts2).
  { eapply rt_fits_cls, (good_fits _ _ Hg). eapply task_set_cls; [done|]. intros u. apply Hbef. }
  cbn [mbind outcome_bind]. rewrite (task_set_get _ _ _ _ _ Hts1) in Hts2.
  rewrite <- option_fmap_compose in Hts2. pose proof (task_set_trans _ _ _ _ _ _ _ Hts1 Hts2) as Hts.
  assert (slot_get m r2 p = Some (after_enqueue r1 (f t))) as Hp2 by (rewrite (task_set_get _ _ _ _ _ Hts), Hp; done).
  assert (min_vruntime (cfs_rq r1) = min_vruntime (cfs_rq r)) as Em.
  { destruct (slot_upd_frame m r p f) as (_ & _ & _ & _ & _ & E & _). unfold r1. by rewrite E. }
  destruct (Hfin r2 Hwf2) as [b ->].
  { intros u Hu. assert (u = after_enqueue r1 (f t)) as -> by congruence.
    pose proof (vruntime_after_enqueue r1 (f t)) as Hb. rewrite Em in Hb. unfold f in *; simpl in *.
    specialize (Hvr _ _ Hp). unfold U64 in *. lia. }
  cbn [mbind outcome_bind]. set (r3 := if b then _ else _).
  assert (slots r3 = slots r2 /\ curr r3 = curr r2 /\ rq_cpu r3 = rq_cpu r2) as (Es & Ec & Ecpu) by by destruct b.
  pose proof (same_env_trans _ _ _ He1 He2) as He. pose proof (task_set_frame m r p _ r2 r3 Es Hts) as Hts3.
  assert (rq_good m r2) as Hg2.
  { eapply (rq_good_set m r p (after_enqueue r1 ∘ f)); try done.
    - by apply same_env_curr.
    - intros u. change (class_of (after_enqueue r1 (f u)) = class_of u).
      rewrite class_of_after_enqueue. apply Hbef.
    - intros u _ _ _. left. apply on_rq_after_enqueue. }
  exists r3, (after_enqueue r1 (f t)). split_and!; try done.
  - split; [destruct b; [by apply rq_good_resched|done]|rewrite Ecpu; apply He|by eapply task_set_pids].
  - rewrite Ec. by apply same_env_curr.
  - by rewrite (slot_get_slots m r2 r3).
  - by rewrite state_after_enqueue.
  - apply on_rq_after_enqueue.
  - rewrite class_of_after_enqueue. apply Hbef.
Qed.

(** What the sections that wake [p] have in common. *)
Record waker (p : Z) (bef : RunQueue -> Task -> Task)
    (fin : PidToSlot -> RunQueue -> outcome RunQueue) : Prop := {
  waker_class : forall r, keeps_class (bef r);
  waker_vr : forall r t, vruntime (bef r t) <= Z.max (vruntime t) (min_vruntime (cfs_rq r));
  waker_env : forall r r' t, cfs_rq r' = cfs_rq r -> bef r' t = bef r t;
  waker_fin : forall m r, (forall u, slot_get m r p = Some u -> vruntime u + 1000000 < U64) ->
    only_resched m fin r
}.

Definition wakes (p : Z) (f : section (option unit)) : Prop :=
  exists bef fin, waker p bef fin /\ f = wake_section p bef fin.

Lemma wakes_here p : wakes p (wake_here p).
Proof.
  eexists _, _. split; [|done]. split; [done|intros; lia|done|].
  intros m r Hv. unfold only_resched, resched_if_better. destruct (curr r) as [c|]; [|by exists false].
  destruct (should_preempt_done m r p c Hv) as [b ->]. by exists b.
Qed.

Lemma wakes_remote p : wakes p (wake_remote p).
Proof. eexists _, _. split; [|done]. split; [done|intros; lia|done|]. intros. by exists true. Qed.

Lemma wakes_scan p : wakes p (wake_scan p).
Proof.
  eexists _, _. split; [|done]. split.
  - intros r u. by destruct (is_fair (policy u)).
  - intros r t. destruct (is_fair (policy t)); simpl; lia.
  - intros r r' t ->. done.
  - intros. by exists true.
Qed.

Lemma slot_upd_ext m r p f g t : slot_get m r p = Some t -> f t = g t -> slot_upd m r p f = slot_upd m r p g.
Proof. intros Hp E. unfold slot_upd. destruct (slot_of m p); [|done]. rewrite Hp. by rewrite E. Qed.

(** Such a section after an update [g] of the task that keeps its class and
    virtual runtime, whatever it does to its state. *)
Lemma wakes_after m r p t f g :
  wakes p f -> rq_good m r -> clock_room m r -> slot_get m r p = Some t ->
  keeps_class g -> vruntime (g t) = vruntime t ->
  exists r' t', f m (slot_upd m r p g) = Done (m, r', Some tt) /\ keeps m r r' /\ curr r' = curr r /\
    slot_get m r' p = Some t' /\ state t' = TASK_RUNNING /\ on_rq t' = true /\ class_of t' = class_of t.
Proof.
  intros (bef & fin & Hwk & ->) Hg Hroom Hp Hgc Hgv.
  assert (t_pid (g t) = p) as Hgp by (destruct (Hgc t) as [-> _]; by eapply slot_get_pid).
  assert (wake_section p bef fin m (slot_upd m r p g) = wake_section p (fun r t => bef r (g t)) fin m r) as ->.
  { unfold wake_section.
    rewrite (slot_upd_get m r p g t), decide_True, Hp by (try done; apply Hg).
    rewrite (slot_upd_upd m r p g _ t) by done.
    rewrite (slot_upd_ext m r p _ (fun u => with_state TASK_RUNNING (bef r (g u))) t Hp); [done|].
    f_equal. apply (waker_env _ _ _ Hwk). apply slot_upd_frame. }
  apply wake_section_ok; try done.
  - intros u. destruct (waker_class _ _ _ Hwk r (g u)) as (-> & -> & ->). apply Hgc.
  - rewrite <- Hgv. apply (waker_vr _ _ _ Hwk).
  - intros r' _. apply (waker_fin _ _ _ Hwk).
Qed.

Lemma slot_upd_id m r p : slot_upd m r p id = r.
Proof.
  unfold slot_upd, slot_get. destruct (slot_of m p) as [s|]; [|done]. simpl.
  destruct (slots r !! s) as [[t|]|] eqn:E; simpl; try done. destruct (t_pid t =? p); [|done].
  unfold set_slots. rewrite list_insert_id by done. by destruct r.
Qed.

Lemma wakes_ok m r p t f :
  wakes p f -> rq_good m r -> clock_room m r -> slot_get m r p = Some t ->
  exists r' t', f m r = Done (m, r', Some tt) /\ keeps m r r' /\ curr r' = curr r /\
    slot_get m r' p = Some t' /\ state t' = TASK_RUNNING /\ on_rq t' = true /\ class_of t' = class_of t.
Proof.
  intros Hf Hg Hc Hp. destruct (wakes_after m r p t f id) as (r' & t' & E & H); try done.
  exists r', t'. split; [|done]. by rewrite slot_upd_id in E.
Qed.

(** ** Sections on the current task *)

(** One update of a task followed by setting the rescheduling flag. *)
Lemma keeps_set m r p f r' b :
  rq_good m r -> rq_wf m r' -> same_env r r' -> task_set m r p (f <$> slot_get m r p) r' ->
  (forall t, class_of (f t) = class_of t) ->
  (forall t, slot_get m r p = Some t -> is_runnable (state (f t)) = true -> is_Some (class_of t) ->
     on_rq (f t) = true \/ curr r = Some p) ->
  keeps m r (set_need_resched b r').
Proof.
  intros Hg Hwf He Hts Hcl Hnew. split.
  - apply rq_good_resched. by eapply (rq_good_set m r p f); try done; apply same_env_curr.
  - apply He.
  - by eapply task_set_pids.
Qed.

Lemma block_section_ok m r st :
  rq_good m r ->
  exists r', block_section st m r = Done (m, r', tt) /\ keeps m r r' /\ curr r' = curr r /\
    forall c t, curr r = Some c -> slot_get m r c = Some t ->
      slot_get m r' c = Some (with_on_rq false (with_state st t)).
Proof.
  intros Hg. unfold block_section. destruct (curr r) as [c|] eqn:Ec; [|by exists r].
  destruct (slot_upd_sum m r c (with_state st) (good_wf _ _ Hg)) as (Hwf1 & He1 & Hts1); [done|].
  destruct (dequeue_task_sum m _ c Hwf1) as (r2 & -> & Hwf2 & He2 & Hts2).
  cbn [mbind outcome_bind]. rewrite (task_set_get _ _ _ _ _ Hts1), <- option_fmap_compose in Hts2.
  pose proof (task_set_trans _ _ _ _ _ _ _ Hts1 Hts2) as Hts. pose proof (same_env_trans _ _ _ He1 He2) as He.
  eexists. split; [done|]. split_and!.
  - eapply keeps_set; try done. by right.
  - rewrite <- Ec. by apply same_env_curr in He.
  - intros c' t [= <-] Ht. change (slot_get m r2 c = Some (with_on_rq false (with_state st t))).
    rewrite (task_set_get _ _ _ _ _ Hts), Ht. done.
Qed.

Lemma put_prev_task_sum m r p :
  rq_wf m r -> rt_fits m r ->
  exists r', put_prev_task m r p = Done r' /\ rq_wf m r' /\ same_env r r' /\
    task_set m r p ((fun t => if is_idle_policy (policy t) || is_dead (state t) then t
                              else after_enqueue r t) <$> slot_get m r p) r'.
Proof.
  intros Hwf Hf. unfold put_prev_task. destruct (slot_get m r p) as [t|] eqn:Hp; simpl.
  - destruct (is_idle_policy (policy t) || is_dead (state t)).
    + exists r. split_and!; try done. rewrite <- Hp. apply task_set_refl.
    + destruct (enqueue_task_sum m r p Hwf Hf) as (r' & E & Hwf' & He & Hts). exists r'.
      rewrite Hp in Hts. by split_and!.
  - exists r. split_and!; try done. rewrite <- Hp. apply task_set_refl.
Qed.

Lemma yield_section_ok m r :
  rq_good m r ->
  exists r', yield_section m r = Done (m, r', tt) /\ keeps m r r' /\ curr r' = curr r /\
    forall c t, curr r = Some c -> slot_get m r c = Some t ->
      is_idle_policy (policy t) = false -> is_dead (state t) = false ->
      slot_get m r' c = Some (after_enqueue r t).
Proof.
  intros Hg. unfold yield_section. destruct (curr r) as [c|] eqn:Ec; [|by exists r].
  destruct (put_prev_task_sum m r c (good_wf _ _ Hg) (good_fits _ _ Hg)) as (r2 & -> & Hwf2 & He2 & Hts2).
  cbn [mbind outcome_bind]. eexists. split; [done|]. split_and!.
  - eapply keeps_set; try done; [|by right].
    intros t. cbv beta. destruct (is_idle_policy _ || _); [done|apply class_of_after_enqueue].
  - rewrite <- Ec. by apply same_env_curr in He2.
  - intros c' t [= <-] Ht Hi Hd. change (slot_get m r2 c = Some (after_enqueue r t)).
    rewrite (task_set_get _ _ _ _ _ Hts2), Ht. simpl. by rewrite Hi, Hd.
Qed.

(** ** Picking the next task *)

(** Every runnable task that has a class is queued. *)
Definition all_queued (m : PidToSlot) (r : RunQueue) : Prop :=
  forall p t, slot_get m r p = Some t -> is_runnable (state t) = true -> is_Some (class_of t) ->
    on_rq t = true.

Lemma keeps_class_charge now : keeps_class (charge now).
Proof. intros t. unfold charge, account_stop. by split_and!. Qed.

Lemma charge_state now t : state (charge now t) = state t.
Proof. done. Qed.
Lemma charge_policy now t : policy (charge now t) = policy t.
Proof. done. Qed.
#[local] Opaque charge.

Lemma runnable_not_dead s : is_runnable s = true -> is_dead s = false.
Proof. unfold is_runnable, is_dead. intros ->%Z.eqb_eq. done. Qed.

Lemma class_not_idle t : is_Some (class_of t) -> is_idle_policy (policy t) = false.
Proof. unfold class_of. destruct (policy t); simpl; try done. Qed.

(** The task put back: charged, and queued exactly when it can run on. *)
Definition after_put_back (r : RunQueue) (now : Z) (t : Task) : Task :=
  let t := charge now t in
  if is_runnable (state t) && negb (is_idle_policy (policy t)) then after_enqueue r t
  else with_on_rq false t.

(** The choice between queueing and dequeueing the task [c]. *)
Lemma requeue_or_dequeue m r c :
  rq_wf m r -> rt_fits m r ->
  exists r', (if should_requeue m r c then put_prev_task m r c else dequeue_task m r c) = Done r' /\
    rq_wf m r' /\ same_env r r' /\
    task_set m r c ((fun t => if is_runnable (state t) && negb (is_idle_policy (policy t))
                              then after_enqueue r t else with_on_rq false t) <$> slot_get m r c) r'.
Proof.
  intros Hwf Hf. unfold should_requeue.
  destruct (dequeue_task_sum m r c Hwf) as (r1 & E1 & Hwf1 & He1 & Hts1).
  destruct (slot_get m r c) as [t|] eqn:Ht; simpl in *; [|by exists r1].
  destruct (is_runnable (state t) && negb (is_idle_policy (policy t))) eqn:Er; [|by exists r1].
  apply andb_prop in Er as [Er Ei]. apply negb_true_iff in Ei.
  destruct (put_prev_task_sum m r c Hwf Hf) as (r2 & E2 & Hwf2 & He2 & Hts2). exists r2.
  rewrite Ht in Hts2. simpl in Hts2. rewrite Ei, (runnable_not_dead _ Er) in Hts2. by split_and!.
Qed.

Lemma after_enqueue_slot_upd m r p f t : after_enqueue (slot_upd m r p f) t = after_enqueue r t.
Proof.
  unfold after_enqueue, enqueued.
  by destruct (slot_upd_frame m r p f) as (_ & _ & _ & _ & _ & -> & _).
Qed.

Lemma class_of_after_put_back r now t : class_of (after_put_back r now t) = class_of t.
Proof.
  unfold after_put_back. destruct (_ && _); [rewrite class_of_after_enqueue|]; apply keeps_class_charge.
Qed.

Lemma state_after_put_back r now t : state (after_put_back r now t) = state t.
Proof.
  unfold after_put_back. cbv zeta. destruct (_ && _); [rewrite state_after_enqueue|]; apply charge_state.
Qed.

Lemma on_rq_after_put_back r now t :
  is_Some (class_of t) -> is_runnable (state (after_put_back r now t)) = true ->
  on_rq (after_put_back r now t) = true.
Proof.
  intros Hi%class_not_idle. unfold after_put_back.
  cbv zeta. rewrite charge_policy, Hi. cbn [negb]. rewrite andb_true_r.
  destruct (is_runnable (state (charge now t))) eqn:Es; [intros _; apply on_rq_after_enqueue|].
  change (state (with_on_rq false (charge now t))) with (state (charge now t)). by rewrite Es.
Qed.

Lemma put_back_ok m r :
  rq_good m r ->
  exists r', put_back m r = Done r' /\ rq_wf m r' /\ rt_fits m r' /\ same_env r r' /\ all_queued m r' /\
    forall q, slot_get m r' q =
      (if bool_decide (curr r = Some q) then after_put_back r (clock r) else id) <$> slot_get m r q.
Proof.
  intros Hg. unfold put_back. destruct (curr r) as [c|] eqn:Ec.
  2:{ exists r. split_and!; try done; try apply Hg.
      - intros p t Hp Hr Hc. destruct (good_live _ _ Hg p t Hp Hr Hc) as [?|?]; [done|congruence].
      - intros q. by rewrite bool_decide_false, option_fmap_id by done. }
  destruct (slot_upd_sum m r c (charge (clock r)) (good_wf _ _ Hg) (keeps_class_charge _)) as (Hwf1 & He1 & Hts1).
  destruct (requeue_or_dequeue m (slot_upd m r c (charge (clock r))) c) as (r' & -> & Hwf' & He2 & Hts2).
  { done. }
  { eapply rt_fits_cls, (good_fits _ _ Hg). eapply task_set_cls; [done|]. intros t. apply keeps_class_charge. }
  rewrite (task_set_get _ _ _ _ _ Hts1), <- option_fmap_compose in Hts2.
  apply (task_set_trans _ _ _ _ _ _ _ Hts1) in Hts2.
  assert (task_set m r c (after_put_back r (clock r) <$> slot_get m r c) r') as Hts.
  { intros q. rewrite (Hts2 q). destruct (decide (q = c)); [|done].
    apply option_fmap_ext. intros t. unfold after_put_back, compose. by rewrite after_enqueue_slot_upd. }
  exists r'. split_and!; try done.
  - eapply rt_fits_cls, (good_fits _ _ Hg). eapply task_set_cls; [done|apply class_of_after_put_back].
  - by eapply same_env_trans.
  - intros q u Hu Hr Hc. rewrite (Hts q) in Hu. destruct (decide (q = c)) as [->|Hne].
    + apply fmap_Some in Hu as (t & Ht & ->). rewrite class_of_after_put_back in Hc.
      by apply on_rq_after_put_back.
    + destruct (good_live _ _ Hg q u Hu Hr Hc) as [?|?]; [done|congruence].
  - intros q. rewrite (Hts q). destruct (decide (q = c)) as [->|Hne].
    + by rewrite bool_decide_true.
    + by rewrite bool_decide_false, option_fmap_id by congruence.
Qed.

Lemma pop_next_task_sum m r :
  rq_wf m r ->
  exists r' p f, pop_next_task m r = Done (r', p) /\ best r p /\ rq_wf m r' /\ same_env r r' /\
    task_set m r p (f <$> slot_get m r p) r' /\ (forall t, class_of (f t) = class_of t) /\
    (forall t, slot_get m r p = Some t -> is_Some (class_of t) -> on_rq (f t) = false).
Proof.
  intros Hwf. destruct (pop_next_task_ok m r Hwf) as (r' & p & E & Hb & Hwf' & He & Hres).
  destruct Hres as [(t & Ht & Hon & Hc & Hts & _)|(-> & -> & Hnone)].
  - exists r', p, (with_on_rq false). rewrite Ht. by split_and!.
  - exists r, (idle r), id. split_and!; try done.
    + rewrite option_fmap_id. apply task_set_refl.
    + intros t Ht [c Hc]. specialize (Hnone (idle r)). unfold qstate, queued in Hnone. rewrite Ht in Hnone.
      simpl in *. destruct (on_rq t); [congruence|done].
Qed.

Lemma keeps_class_start cpu now : keeps_class (start_running cpu now).
Proof. intros t. by split_and!. Qed.

Lemma pick_section_ok m r cpu now :
  rq_good m r ->
  exists r' next r1, pick_section cpu now m r = Done (m, r', next) /\ keeps m r r' /\
    curr r' = Some next /\ put_back m (update_clock now r) = Done r1 /\ all_queued m r1 /\
    rq_wf m r1 /\ best r1 next /\
    (forall t, slot_get m r' next = Some t -> state t = TASK_RUNNING) /\
    (forall q, q <> next -> slot_get m r' q = slot_get m r1 q).
Proof.
  intros Hg. apply (rq_good_clock m r now) in Hg as Hg0.
  destruct (put_back_ok m (update_clock now r) Hg0) as (r1 & E1 & Hwf1 & Hf1 & He1 & Hall & Hget1).
  destruct (pop_next_task_sum m r1 Hwf1) as (r2 & next & f & E2 & Hbest & Hwf2 & He2 & Hts2 & Hcl2 & _).
  destruct (slot_upd_sum m r2 next (start_running cpu (clock r2)) Hwf2 (keeps_class_start _ _)) as (Hwf3 & He3 & Hts3).
  unfold pick_section. rewrite E1. cbn [mbind outcome_bind]. rewrite E2. cbn [mbind outcome_bind].
  set (r3 := slot_upd m r2 next (start_running cpu (clock r2))) in *.
  assert (forall q, q <> next -> slot_get m r3 q = slot_get m r1 q) as Hother.
  { intros q Hq. by rewrite (Hts3 q), decide_False, (Hts2 q), decide_False by done. }
  eexists _, next, r1. split; [done|]. split_and!; try done.
  - split.
    + apply rq_good_resched, rq_good_curr; [done| |].
      * eapply rt_fits_cls; [|eapply rt_fits_cls; [|exact Hf1]]; by eapply task_set_cls.
      * intros p t Hp Hr Hc. destruct (decide (p = next)) as [->|Hne]; [by right|]. left.
        rewrite Hother in Hp by done. by eapply Hall.
    + change (rq_cpu r3 = rq_cpu r). destruct He1 as [E _], He2 as [E' _], He3 as [-> _]. by rewrite E', E.
    + intros q. change (is_Some (slot_get m r3 q) <-> is_Some (slot_get m r q)).
      rewrite (task_set_pids _ _ _ _ _ Hts3 q), (task_set_pids _ _ _ _ _ Hts2 q), Hget1, fmap_is_Some. done.
  - intros t Ht. change (slot_get m r3 next = Some t) in Ht. rewrite (task_set_get _ _ _ _ _ Hts3) in Ht.
    apply fmap_Some in Ht as (u & _ & ->). done.
Qed.

Lemma undo_section_ok m r old next :
  rq_good m r -> curr r = Some next ->
  exists r', undo_section old next m r = Done (m, r', tt) /\ keeps m r r' /\ curr r' = Some old /\
    forall t, slot_get m r next = Some t -> slot_get m r' next = Some (after_enqueue r t).
Proof.
  intros Hg Hc. unfold undo_section.
  assert (rq_wf m (set_curr (Some old) r)) as Hwf0 by (apply (rq_wf_frame m r); by try apply Hg).
  destruct (enqueue_task_sum m (set_curr (Some old) r) next Hwf0) as (r1 & -> & Hwf1 & He1 & Hts1).
  { apply Hg. }
  cbn [mbind outcome_bind]. eexists. split; [done|]. split_and!.
  - split; [|apply He1|intros q; apply (task_set_pids _ _ _ _ _ Hts1 q)].
    apply rq_good_resched. split; [done| |].
    + eapply rt_fits_cls, (good_fits _ _ Hg). apply (task_set_cls _ _ _ _ _ Hts1).
      intros t. apply class_of_after_enqueue.
    + intros p t Hp Hr Hcl. left. rewrite (Hts1 p) in Hp. destruct (decide (p = next)) as [->|Hne].
      * apply fmap_Some in Hp as (u & _ & ->). apply on_rq_after_enqueue.
      * destruct (good_live _ _ Hg p t Hp Hr Hcl) as [?|?]; [done|congruence].
  - destruct He1 as (_ & E & _). exact E.
  - intros t Ht. change (slot_get m r1 next = Some (after_enqueue r t)).
    rewrite (task_set_get _ _ _ _ _ Hts1). change (slot_get m (set_curr (Some old) r) next) with (slot_get m r next).
    by rewrite Ht.
Qed.

(** ** Switching *)

(** Queueing the previous task, if there is one that can run on. *)
Lemma requeue_prev_ok m r prev :
  rq_good m r ->
  exists r', (match prev with
              | Some p => if should_requeue m r p then put_prev_task m r p else Done r
              | None => Done r
              end) = Done r' /\ rq_wf m r' /\ rt_fits m r' /\ same_env r r' /\
    (forall q, is_Some (slot_get m r' q) <-> is_Some (slot_get m r q)) /\
    (forall p t, slot_get m r' p = Some t -> is_runnable (state t) = true -> is_Some (class_of t) ->
       on_rq t = true \/ (curr r = Some p /\ prev <> Some p)).
Proof.
  intros Hg. assert (forall p t, slot_get m r p = Some t -> is_runnable (state t) = true -> is_Some (class_of t) ->
    on_rq t = true \/ curr r = Some p) as Hlive by apply Hg.
  destruct prev as [c|].
  2:{ exists r. split_and!; try done; try apply Hg. intros p t Hp Hr Hc. destruct (Hlive p t Hp Hr Hc); auto. }
  destruct (should_requeue m r c) eqn:Er; unfold should_requeue in Er.
  - destruct (put_prev_task_sum m r c (good_wf _ _ Hg) (good_fits _ _ Hg)) as (r' & -> & Hwf' & He & Hts).
    exists r'. split_and!; try done.
    + eapply rt_fits_cls, (good_fits _ _ Hg). eapply task_set_cls; [done|]. intros t. cbv beta.
      destruct (is_idle_policy _ || _); [done|apply class_of_after_enqueue].
    + apply (task_set_pids _ _ _ _ _ Hts).
    + intros p t Hp Hr Hc. rewrite (Hts p) in Hp. destruct (decide (p = c)) as [->|Hne].
      * left. apply fmap_Some in Hp as (u & Hu & ->). rewrite Hu in Er. simpl in Er.
        apply andb_prop in Er as [Er Ei]. apply negb_true_iff in Ei.
        rewrite Ei, (runnable_not_dead _ Er). apply on_rq_after_enqueue.
      * destruct (Hlive p t Hp Hr Hc); [by left|right; split; congruence].
  - exists r. split_and!; try done; try apply Hg. intros p t Hp Hr Hc.
    destruct (Hlive p t Hp Hr Hc); [by left|]. destruct (decide (c = p)) as [->|]; [|right; split; congruence].
    rewrite Hp in Er. simpl in Er. rewrite Hr, (class_not_idle _ Hc) in Er. done.
Qed.

Lemma switch_section_ok m r cpu now prev new :
  rq_good m r -> (forall c, curr r = Some c -> c = new \/ prev = Some c) ->
  exists r', switch_section cpu now prev new m r = Done (m, r', tt) /\ keeps m r r' /\
    curr r' = Some new /\
    forall t, slot_get m r' new = Some t -> state t = TASK_RUNNING /\ on_rq t = false.
Proof.
  intros Hg Hcur. unfold switch_section.
  destruct (requeue_prev_ok m r prev Hg) as (r1 & -> & Hwf1 & Hf1 & He1 & Hp1 & Hl1). cbn [mbind outcome_bind].
  destruct (dequeue_task_sum m r1 new Hwf1) as (r2 & -> & Hwf2 & He2 & Hts2). cbn [mbind outcome_bind].
  assert (rq_wf m (update_clock now r2)) as Hwf2' by by apply (rq_wf_frame m r2).
  set (f := fun t => with_on_rq false (start_running cpu (clock (update_clock now r2)) t)).
  destruct (slot_upd_sum_at m (update_clock now r2) new f Hwf2') as (Hwf3 & He3 & Hts3).
  { intros t Ht. change (slot_get m r2 new = Some t) in Ht. rewrite (task_set_get _ _ _ _ _ Hts2) in Ht.
    apply fmap_Some in Ht as (u & _ & ->). by split_and!. }
  change (slot_get m (update_clock now r2) new) with (slot_get m r2 new) in Hts3.
  assert (task_set m r2 new (f <$> slot_get m r2 new) (slot_upd m (update_clock now r2) new f)) as Hts3' by exact Hts3.
  eexists. split; [done|]. split_and!; [|done|].
  - split.
    + apply rq_good_resched, rq_good_curr; [done| |].
      * eapply rt_fits_cls; [|eapply rt_fits_cls; [|exact Hf1]]; by eapply task_set_cls.
      * intros p t Hp Hr Hc. destruct (decide (p = new)) as [->|Hne]; [by right|]. left.
        rewrite (Hts3' p), decide_False, (Hts2 p), decide_False in Hp by done.
        destruct (Hl1 p t Hp Hr Hc) as [?|[Hc1 Hc2]]; [done|]. by destruct (Hcur p Hc1).
    + destruct He1 as [E1 _], He2 as [E2 _], He3 as [E3 _]. etrans; [exact E3|]. simpl. congruence.
    + intros q. etrans; [apply (task_set_pids _ _ _ _ _ Hts3' q)|].
      etrans; [apply (task_set_pids _ _ _ _ _ Hts2 q)|apply Hp1].
  - intros t Ht. change (slot_get m (slot_upd m (update_clock now r2) new f) new = Some t) in Ht.
    rewrite (task_set_get _ _ _ _ _ Hts3') in Ht. apply fmap_Some in Ht as (u & _ & ->). done.
Qed.

Lemma keeps_refl m r : rq_good m r -> keeps m r r.
Proof. by split. Qed.

Lemma keeps_trans m r1 r2 r3 : keeps m r1 r2 -> keeps m r2 r3 -> keeps m r1 r3.
Proof. intros [? E1 P1] [? E2 P2]. split; [done|congruence|]. intros q. by rewrite P2, P1. Qed.

(** Updates of one task that keep its class, queueing mark and state. *)
Lemma slot_upd_good m r p f :
  rq_good m r -> keeps_class f -> (forall t, state (f t) = state t) ->
  keeps m r (slot_upd m r p f) /\ same_env r (slot_upd m r p f) /\
  task_set m r p (f <$> slot_get m r p) (slot_upd m r p f).
Proof.
  intros Hg Hf Hst. destruct (slot_upd_sum m r p f (good_wf _ _ Hg) Hf) as (Hwf & He & Hts).
  split_and!; try done. split; [|apply He|by eapply task_set_pids].
  eapply (rq_good_set m r p f); try done.
  - by apply same_env_curr.
  - intros t. apply Hf.
  - intros t Ht. rewrite Hst. destruct (Hf t) as (_ & _ & ->). by apply (good_live _ _ Hg).
Qed.

Lemma transaction_section_ok m r cpu now old new ctx count :
  rq_good m r -> (forall c, curr r = Some c -> c = new \/ c = old) ->
  exists r' i, transaction_section cpu now old new ctx count m r = Done (m, r', i) /\ keeps m r r' /\
    (i <> None -> curr r' = Some new) /\ (i = None -> curr r' = curr r).
Proof.
  intros Hg Hcur. unfold transaction_section.
  destruct (slot_get m r old) as [t|]; [|exists r, None; by split_and!; try apply keeps_refl].
  destruct (slot_upd_good m r old (save_context ctx count) Hg) as (Hk & He & _); [done..|].
  set (r1 := slot_upd m r old (save_context ctx count)) in *.
  pose proof (same_env_curr _ _ He) as Ec.
  destruct (slot_get m r1 new) as [u|]; [|exists r1, None; by split_and!].
  destruct (negb (is_schedulable (context u))); [exists r1, None; by split_and!|].
  destruct (switch_section_ok m r1 cpu now (Some old) new) as (r2 & -> & Hk2 & Hc2 & _).
  { apply Hk. } { intros c Hc. rewrite Ec in Hc. destruct (Hcur c Hc); subst; auto. }
  cbn [mbind outcome_bind]. eexists r2, _. split; [done|]. split_and!; [by eapply keeps_trans|done|done].
Qed.

(** ** Ticks *)

Definition tick_room (m : PidToSlot) (r : RunQueue) : Prop :=
  clock_room m r /\ forall p t, slot_get m r p = Some t -> sum_exec_runtime t + TICK_NS < U64.

(** Replacing the task of [p] by one of the same pid, class, mark and state. *)
Lemma slot_put_good m r p t t' :
  rq_good m r -> slot_get m r p = Some t ->
  t_pid t' = t_pid t -> class_of t' = class_of t -> on_rq t' = on_rq t -> state t' = state t ->
  let r' := slot_upd m r p (fun _ => t') in
  keeps m r r' /\ same_env r r' /\ task_set m r p (Some t') r' /\ cfs_rq r' = cfs_rq r.
Proof.
  intros Hg Ht E1 E2 E3 E4 r'.
  destruct (slot_upd_keep m r p (fun _ => t') t (good_wf _ _ Hg) Ht) as (Hwf & He & Hts & _ & Ecfs).
  { rewrite E1. by eapply slot_get_pid. } { unfold queued. by rewrite E2, E3. }
  fold r' in Hwf, He, Hts, Ecfs.
  assert (task_set m r p ((fun _ => t') <$> slot_get m r p) r') as Hts' by by rewrite Ht.
  split_and!; try done. split; [|apply He|by eapply task_set_pids].
  split; [done| |].
  - eapply rt_fits_cls, (good_fits _ _ Hg). intros q. unfold cls. rewrite (Hts q).
    destruct (decide (q = p)) as [->|]; [|done]. by rewrite Ht.
  - intros q u Hu Hr Hc. rewrite (same_env_curr _ _ He). rewrite (Hts q) in Hu.
    destruct (decide (q = p)) as [->|]; [|by eapply (good_live _ _ Hg)].
    injection Hu as <-. rewrite E3. rewrite E4 in Hr. rewrite E2 in Hc. by eapply (good_live _ _ Hg).
Qed.

Lemma fair_tick_ok m r p t b :
  rq_good m r -> tick_room m r -> slot_get m r p = Some t ->
  exists r' d, fair_tick m r p t b = Done (r', d) /\ keeps m r r' /\ curr r' = curr r.
Proof.
  intros Hg [[Hmin Hvr] Hsum] Ht. unfold fair_tick.
  set (t0 := with_vruntime_charged_this_tick true (update_vruntime TICK_NS t)).
  assert (exists t1, (if b then Done t0 else s ← add64 (sum_exec_runtime t0) TICK_NS; Done (with_sum_exec_runtime s t0))
    = Done t1 /\ t_pid t1 = t_pid t /\ class_of t1 = class_of t /\ on_rq t1 = on_rq t /\ state t1 = state t)
    as (t1 & -> & E1 & E2 & E3 & E4).
  { destruct b; [by exists t0|]. rewrite add64_ok by (apply (Hsum _ _ Ht)). by eexists. }
  cbn [mbind outcome_bind].
  destruct (slot_put_good m r p t (with_exec_start (clock r) t1) Hg Ht) as (Hk & He & Hts & Ecfs); [done..|].
  set (r1 := slot_upd m r p (fun _ => with_exec_start (clock r) t1)) in *.
  destruct (update_min_vruntime_ok (cfs_rq r1) (vruntime (with_exec_start (clock r) t1))) as (q & Eq & Hq & _).
  { rewrite Ecfs. apply Hg. }
  rewrite Eq. cbn [mbind outcome_bind].
  assert (rq_good m (set_cfs q r1)) as Hg2.
  { destruct Hk as [[Hwf Hf Hl] _ _]. split; [by eapply rq_wf_min|done|done]. }
  assert (keeps m r (set_cfs q r1)) as Hk2 by (split; [done|apply Hk|apply Hk]).
  pose proof (same_env_curr _ _ He) as Ec.
  destruct (pick_next_ok q Hq) as [[-> _]|(e & -> & _)]; cbn [mbind outcome_bind]; [eauto|].
  destruct (Z.eqb_spec (ce_pid e) p) as [|Hne]; [eauto|].
  rewrite add64_ok.
  - cbn [mbind outcome_bind]. destruct (_ <? _); [|eauto]. eexists _, _. split; [done|]. split; [|done].
    split; [by apply rq_good_resched|apply Hk2|apply Hk2].
  - change (slot_get m (set_cfs q r1) (ce_pid e)) with (slot_get m r1 (ce_pid e)).
    rewrite (Hts (ce_pid e)), decide_False by done.
    destruct (slot_get m r (ce_pid e)) as [u|] eqn:Eu; simpl; [by eapply Hvr|unfold U64; lia].
Qed.

Lemma scheduler_tick_ok m r b :
  rq_good m r -> tick_room m r ->
  exists r' d, RunQueue.scheduler_tick m r b = Done (r', d) /\ keeps m r r' /\ curr r' = curr r.
Proof.
  intros Hg Hroom. pose proof (keeps_refl _ _ Hg) as Hrefl. unfold RunQueue.scheduler_tick.
  destruct (curr r) as [c|] eqn:Ec; [|eauto].
  destruct (slot_get m r c) as [t|] eqn:Ht; [|eauto].
  destruct (policy t); try (rewrite <- Ec; by eauto using fair_tick_ok).
  unfold rr_tick. destruct (0 <? time_slice t); [|eauto].
  destruct (slot_upd_good m r c (with_time_slice (default_time_slice RoundRobin)) Hg) as (Hk & He & _); [done..|].
  destruct (slot_upd_good m r c (with_time_slice (time_slice t - 1)) Hg) as (Hk' & He' & _); [done..|].
  rewrite <- Ec. destruct (_ =? 0); eexists _, _; (split; [done|]).
  - split; [|by apply same_env_curr in He]. split; [by apply rq_good_resched; apply Hk|apply Hk|apply Hk].
  - split; [done|by apply same_env_curr].
Qed.

Lemma tick_section_ok m r cpu now b :
  rq_good m r -> tick_room m r ->
  exists r' a, tick_section cpu now b m r = Done (m, r', a) /\ keeps m r r' /\ curr r' = curr r.
Proof.
  intros Hg Hroom. unfold tick_section.
  destruct (scheduler_tick_ok m (update_clock now r) b) as (r' & d & -> & Hk & Hc);
    [by apply rq_good_clock|exact Hroom|].
  cbn [mbind outcome_bind]. eexists r', _. split; [done|]. split; [|exact Hc].
  destruct Hk as [? ? ?]. by split.
Qed.

(** ** Attributes *)

(** The class of [p] may change to that of [t'] when the level has space. *)
Definition rt_space (m : PidToSlot) (r : RunQueue) (p : Z) (c : option qclass) : Prop :=
  forall i l, c = Some (QRt i) -> NoDup l -> p ∉ l ->
    (forall q, q ∈ l -> cls m r q = Some (QRt i)) -> (length l < MAX_RT_PER_PRIO)%nat.

Lemma rt_fits_put m r p c m' r' :
  rt_fits m r -> rt_space m r p c ->
  (forall q, cls m' r' q = if decide (q = p) then c else cls m r q) -> rt_fits m' r'.
Proof.
  intros Hf Hsp Hset i l Hnd Hl. destruct (decide (p ∈ l)) as [Hin|Hni].
  - apply list_elem_of_split in Hin as (l1 & l2 & ->). rewrite <- Permutation_middle in Hnd.
    apply NoDup_cons in Hnd as [Hni Hnd]. rewrite length_app. simpl.
    assert (c = Some (QRt i)) as Hc.
    { specialize (Hl p). rewrite Hset, decide_True in Hl by done. apply Hl. set_solver. }
    pose proof (Hsp i (l1 ++ l2) Hc Hnd Hni) as Hlt. rewrite length_app in Hlt.
    enough (forall q, q ∈ l1 ++ l2 -> cls m r q = Some (QRt i)) as Hq by (specialize (Hlt Hq); lia).
    intros q Hq. specialize (Hl q). rewrite Hset in Hl.
    destruct (decide (q = p)) as [->|]; [done|]. apply Hl. set_solver.
  - apply (Hf i l Hnd). intros q Hq. specialize (Hl q Hq). rewrite Hset in Hl.
    by destruct (decide (q = p)) as [->|].
Qed.

Lemma rt_fits_set m r p t' r' :
  rt_fits m r -> rt_space m r p (class_of t') -> task_set m r p (Some t') r' -> rt_fits m r'.
Proof.
  intros Hf Hsp Hts. eapply (rt_fits_put m r p (class_of t')); [done..|].
  intros q. unfold cls. rewrite (Hts q). by destruct (decide (q = p)).
Qed.

(** Taking the task out of its queue, if it is in one, and putting it back. *)
Lemma unqueue_if m r p t :
  rq_wf m r -> slot_get m r p = Some t ->
  exists r', (if on_rq t then dequeue_task m r p else Done r) = Done r' /\ rq_wf m r' /\ same_env r r' /\
    task_set m r p (Some (with_on_rq false t)) r'.
Proof.
  intros Hwf Ht. destruct (on_rq t) eqn:Eon.
  - destruct (dequeue_task_sum m r p Hwf) as (r1 & E & Hwf1 & He1 & Hts1).
    rewrite Ht in Hts1. exists r1. by split_and!.
  - exists r. split_and!; try done. rewrite <- Eon, with_on_rq_id, <- Ht. apply task_set_refl.
Qed.

Lemma requeue_if m r p t (b : bool) :
  rq_wf m r -> rt_fits m r -> slot_get m r p = Some t -> on_rq t = false ->
  exists r' t', (if b then enqueue_task m r p else Done r) = Done r' /\ rq_wf m r' /\ same_env r r' /\
    task_set m r p (Some t') r' /\ class_of t' = class_of t /\ on_rq t' = b /\ state t' = state t.
Proof.
  intros Hwf Hf Ht Hoff. destruct b.
  - destruct (enqueue_task_sum m r p Hwf Hf) as (r3 & E & Hwf3 & He3 & Hts3).
    rewrite Ht in Hts3. exists r3, (after_enqueue r t).
    split_and!; try done; [apply class_of_after_enqueue|apply on_rq_after_enqueue|apply state_after_enqueue].
  - exists r, t. split_and!; try done. rewrite <- Ht. apply task_set_refl.
Qed.

Lemma with_scheduler_same p prio t :
  t_pid (with_scheduler p prio t) = t_pid t /\ on_rq (with_scheduler p prio t) = on_rq t /\
  state (with_scheduler p prio t) = state t.
Proof. unfold with_scheduler, set_policy. destruct (decide (p = RoundRobin)), (is_realtime p); done. Qed.

Lemma with_scheduler_class p prio t b :
  class_of (with_scheduler p prio (with_on_rq b t)) = class_of (with_scheduler p prio t).
Proof. unfold with_scheduler, set_policy. destruct (decide (p = RoundRobin)), (is_realtime p); done. Qed.

Lemma set_scheduler_section_ok m r pid p prio t :
  rq_good m r -> slot_get m r pid = Some t ->
  rt_space m r pid (class_of (with_scheduler p prio t)) ->
  (is_runnable (state t) = true -> on_rq t = true \/ curr r = Some pid) ->
  exists r', set_scheduler_section pid p prio m r = Done (m, r', Some tt) /\ keeps m r r' /\ curr r' = curr r.
Proof.
  intros Hg Ht Hsp Hok. unfold set_scheduler_section. rewrite Ht.
  pose proof (slot_get_pid _ _ _ _ Ht) as Hpid.
  destruct (unqueue_if m r pid t (good_wf _ _ Hg) Ht) as (r1 & -> & Hwf1 & He1 & Hts1).
  cbn [mbind outcome_bind]. set (t0 := with_on_rq false t) in *.
  destruct (with_scheduler_same p prio t0) as (E1 & E2 & E3).
  destruct (slot_upd_keep m r1 pid (with_scheduler p prio) t0) as (Hwf2 & He2 & Hts2 & _ & _).
  { done. } { by apply task_set_get in Hts1. } { rewrite E1. exact Hpid. } { unfold queued. by rewrite E2. }
  set (r2 := slot_upd m r1 pid (with_scheduler p prio)) in *.
  pose proof (task_set_trans _ _ _ _ _ _ _ Hts1 Hts2) as Hts.
  pose proof (with_scheduler_class p prio t false : class_of (with_scheduler p prio t0) = _) as Ecl.
  assert (rt_fits m r2) as Hf2 by (eapply rt_fits_set; [apply Hg| |done]; by rewrite Ecl).
  destruct (requeue_if m r2 pid (with_scheduler p prio t0) (on_rq t) Hwf2 Hf2)
    as (r3 & t3 & -> & Hwf3 & He3 & Hts3 & Ec3 & Eon3 & Est3).
  { by rewrite (task_set_get _ _ _ _ _ Hts2). } { by rewrite E2. }
  apply (task_set_trans _ _ _ _ _ _ _ Hts) in Hts3. rewrite E3 in Est3. change (state t0) with (state t) in Est3.
  cbn [mbind outcome_bind]. exists r3. split; [done|].
  pose proof (same_env_trans _ _ _ (same_env_trans _ _ _ He1 He2) He3) as He.
  split; [|by apply same_env_curr]. split; [|apply He|].
  - split; [done|eapply rt_fits_set; [apply Hg| |done]; by rewrite Ec3, Ecl|].
    intros q u Hu Hr Hc. rewrite (same_env_curr _ _ He). rewrite (Hts3 q) in Hu.
    destruct (decide (q = pid)) as [->|]; [|by eapply (good_live _ _ Hg)].
    injection Hu as <-. rewrite Eon3. apply Hok. by rewrite <- Est3.
  - intros q. rewrite (Hts3 q). destruct (decide (q = pid)) as [->|]; [rewrite Ht; split; eauto|done].
Qed.

Lemma update_task_ok m r p f :
  rq_good m r -> keeps_class f ->
  (forall t, slot_get m r p = Some t -> is_runnable (state (f t)) = true -> is_Some (class_of t) ->
     on_rq t = true \/ curr r = Some p) ->
  exists r', update_task p f m r = Done (m, r', (fun _ => tt) <$> slot_get m r p) /\ keeps m r r' /\
    curr r' = curr r /\ task_set m r p (f <$> slot_get m r p) r'.
Proof.
  intros Hg Hf Hl. destruct (slot_upd_sum m r p f (good_wf _ _ Hg) Hf) as (Hwf & He & Hts).
  eexists. split; [done|]. split_and!; [|by apply same_env_curr|done].
  split; [|apply He|by eapply task_set_pids]. eapply (rq_good_set m r p f); try done.
  - by apply same_env_curr.
  - intros t. apply Hf.
  - intros t Ht. destruct (Hf t) as (_ & _ & ->). by apply Hl.
Qed.

Lemma exit_section_ok m r p st t :
  rq_good m r -> slot_get m r p = Some t ->
  exists r', exit_section p st m r = Done (m, r', Some tt) /\ keeps m r r' /\ curr r' = curr r /\
    slot_get m r' p = Some (with_on_rq false (task_exit st t)).
Proof.
  intros Hg Ht. unfold exit_section. rewrite Ht.
  destruct (slot_upd_sum m r p (task_exit st) (good_wf _ _ Hg)) as (Hwf1 & He1 & Hts1); [done|].
  destruct (dequeue_task_sum m _ p Hwf1) as (r2 & -> & Hwf2 & He2 & Hts2).
  cbn [mbind outcome_bind]. rewrite (task_set_get _ _ _ _ _ Hts1), <- option_fmap_compose in Hts2.
  pose proof (task_set_trans _ _ _ _ _ _ _ Hts1 Hts2) as Hts. pose proof (same_env_trans _ _ _ He1 He2) as He.
  exists r2. split; [done|]. split_and!; [|by apply same_env_curr|].
  - split; [|apply He|by eapply task_set_pids].
    by eapply (rq_good_set m r p (with_on_rq false ∘ task_exit st)); try done; apply same_env_curr.
  - by rewrite (task_set_get _ _ _ _ _ Hts), Ht.
Qed.

(** ** Addition and removal *)

Lemma rq_new_good m cpu idle_pid :
  rq_good m (rq_new cpu idle_pid) /\ forall p, slot_get m (rq_new cpu idle_pid) p = None.
Proof.
  assert (forall p, slot_get m (rq_new cpu idle_pid) p = None) as Hnone.
  { intros p. destruct (slot_get m _ p) as [t|] eqn:E; [|done].
    destruct (slot_get_inv _ _ _ _ E) as (s & _ & Hst & _).
    by apply (lookup_replicate_1 MAX_TASKS_PER_RQ) in Hst as [? _]. }
  split; [|done]. split; [apply rq_new_wf| |].
  - intros i [|p l] _ Hl; [simpl; lia|]. specialize (Hl p ltac:(by left)). unfold cls in Hl.
    by rewrite Hnone in Hl.
  - intros p t Ht. by rewrite Hnone in Ht.
Qed.

Lemma rt_space_room m r t :
  rq_wf m r -> slot_get m r (t_pid t) = None -> rt_space m r (t_pid t) (class_of t) -> rt_room r t.
Proof.
  intros [_ Hq] Hno Hsp Hrt. apply (Hsp (priority_to_index (rt_priority t))).
  - unfold class_of. by rewrite Hrt.
  - apply Hq.
  - rewrite (qwf_level _ _ _ _ Hq). unfold qstate. by rewrite Hno.
  - intros q Hin. apply (qwf_level _ _ _ _ Hq), qstate_Some in Hin as (u & Hu & _ & Hc).
    unfold cls. by rewrite Hu.
Qed.

Lemma add_task_good m now r t :
  rq_good m r -> free_stack r <> [] -> t_pid t < MAX_PIDS -> slot_get m r (t_pid t) = None ->
  on_rq t = false -> rt_space m r (t_pid t) (class_of t) ->
  exists m' r' t', RunQueue.add_task m now r t = Done (m', r') /\ rq_good m' r' /\
    rq_cpu r' = rq_cpu r /\ (forall q, q <> t_pid t -> m' !! q = m !! q) /\
    (forall q, slot_get m' r' q = if decide (q = t_pid t) then Some t' else slot_get m r q) /\
    on_rq t' = true /\ class_of t' = class_of t /\ state t' = state t /\ curr r' = curr r.
Proof.
  intros Hg Hfree Hlt Hno Hoff Hsp. destruct (free_stack r) as [|s free] eqn:Ef; [done|].
  destruct (add_task_ok m now r t s free) as (r' & E & Hwf & Hget & He & _); try done;
    [apply Hg|apply (rt_space_room m); [apply Hg|done..]|].
  destruct (stamped_same now t) as (Ep & _ & Epol & Ert & Est & Ecl).
  assert (class_of (enqueued r (stamped now t)) = class_of t) as Hcl.
  { rewrite <- Ecl. unfold enqueued, class_of. simpl.
    by destruct (is_fair (policy (stamped now t))) eqn:Efp; simpl; rewrite ?Efp. }
  assert (state (enqueued r (stamped now t)) = state t) as Hst.
  { rewrite <- Est. unfold enqueued. simpl. by destruct (is_fair (policy (stamped now t))). }
  assert (curr r' = curr r) as Hcur by apply He.
  exists (<[t_pid t := s]> m), r', (enqueued r (stamped now t)).
  split_and!; try done; [|apply He|intros q Hq; by rewrite lookup_insert_ne].
  split; [done| |].
  - eapply (rt_fits_put m r (t_pid t)); [apply Hg|done|]. intros q. unfold cls. rewrite Hget.
    by destruct (decide (q = t_pid t)).
  - intros q u Hu Hr Hc. rewrite Hcur. rewrite Hget in Hu.
    destruct (decide (q = t_pid t)); [left; by injection Hu as <-|by eapply (good_live _ _ Hg)].
Qed.

Lemma rq_good_drop m r p m' r' :
  rq_good m r -> rq_wf m' r' -> curr r' = curr r ->
  (forall q, slot_get m' r' q = if decide (q = p) then None else slot_get m r q) -> rq_good m' r'.
Proof.
  intros Hg Hwf Hcur Hget. split; [done| |].
  - eapply (rt_fits_put m r p None); [apply Hg|done|]. intros q. unfold cls. rewrite Hget.
    by destruct (decide (q = p)).
  - intros q u Hu Hr Hc. rewrite Hcur. rewrite Hget in Hu.
    destruct (decide (q = p)); [done|by eapply (good_live _ _ Hg)].
Qed.

Lemma remove_task_good m r p t :
  rq_good m r -> slot_get m r p = Some t -> (on_rq t = true -> is_Some (class_of t)) ->
  exists r', RunQueue.remove_task m r p = Done (delete p m, r', Some (with_on_rq false t)) /\
    rq_good (delete p m) r' /\ rq_cpu r' = rq_cpu r /\ curr r' = curr r /\
    (forall q, slot_get (delete p m) r' q = if decide (q = p) then None else slot_get m r q).
Proof.
  intros Hg Ht Hcl. destruct (remove_task_ok m r p t (good_wf _ _ Hg) Ht Hcl) as (s & r' & E & Hwf & Hget & He & _).
  assert (curr r' = curr r) as Hcur by apply He.
  exists r'. split_and!; try done; [by eapply (rq_good_drop m r p)|apply He].
Qed.

(** ** Stealing *)

Lemma steal_victim_ok m r dest p :
  slots_wf m r -> steal_victim r dest = Some p ->
  exists t, slot_get m r p = Some t /\ stealable r dest t = true.
Proof.
  intros Hs. unfold steal_victim.
  assert (forall l best, (forall o, o ∈ l -> o ∈ slots r) ->
    (forall x, best = Some x -> exists t, slot_get m r (fst x) = Some t /\ stealable r dest t = true) ->
    forall x, foldl (steal_better r dest) best l = Some x ->
      exists t, slot_get m r (fst x) = Some t /\ stealable r dest t = true) as Hfold.
  { induction l as [|o l IH]; intros best Hl Hb x; simpl; [apply Hb|].
    apply IH; [intros; apply Hl; by right|]. intros y Hy. unfold steal_better in Hy.
    destruct o as [t|]; [|by apply Hb]. destruct (stealable r dest t) eqn:Est; [|by apply Hb].
    assert (slot_get m r (t_pid t) = Some t) as Ht.
    { destruct (list_elem_of_lookup_1 (slots r) (Some t)) as [s Hst]; [apply Hl; by left|].
      by eapply slot_get_task. }
    destruct best as [[q v]|]; [destruct (v <? vruntime t); [|by apply Hb]|]; injection Hy as <-; eauto. }
  intros (x & Hx & ->)%fmap_Some. by eapply (Hfold (slots r) None).
Qed.

(** The current task is never stolen, nor a task that may not run on the thief. *)
Lemma steal_task_good m r dest :
  rq_good m r ->
  RunQueue.steal_task m r dest = Done (m, r, None) \/
  exists p t r', RunQueue.steal_task m r dest = Done (delete p m, r', Some (with_on_rq false t)) /\
    slot_get m r p = Some t /\ stealable r dest t = true /\
    rq_good (delete p m) r' /\ rq_cpu r' = rq_cpu r /\ curr r' = curr r /\
    (forall q, slot_get (delete p m) r' q = if decide (q = p) then None else slot_get m r q).
Proof.
  intros Hg. unfold steal_task. destruct (nr_running r <=? 1); [by left|].
  destruct (steal_victim r dest) as [p|] eqn:Ev; [|by left]. right.
  destruct (steal_victim_ok m r dest p (rq_slots _ _ (good_wf _ _ Hg)) Ev) as (t & Ht & Hst).
  destruct (remove_task_good m r p t Hg Ht) as (r' & E & H).
  { intros _. unfold stealable in Hst. rewrite !andb_true_iff in Hst.
    destruct Hst as [[[[_ Hp] _] _] _]. apply bool_decide_eq_true in Hp. unfold class_of. by rewrite Hp. }
  by exists p, t, r'.
Qed.

Lemma migrate_section_good m r p t :
  rq_good m r -> slot_get m r p = Some t ->
  (curr r = Some p /\ migrate_section p m r = Done (m, set_need_resched true r, None)) \/
  (curr r <> Some p /\ exists r', migrate_section p m r = Done (delete p m, r', Some (with_on_rq false t)) /\
    rq_good (delete p m) r' /\ rq_cpu r' = rq_cpu r /\ curr r' = curr r /\
    (forall q, slot_get (delete p m) r' q = if decide (q = p) then None else slot_get m r q)).
Proof.
  intros Hg Ht. unfold migrate_section. case_bool_decide as Hc; [by left|]. right. split; [done|].
  destruct (dequeue_task_sum m r p (good_wf _ _ Hg)) as (r1 & -> & Hwf1 & He1 & Hts1).
  rewrite Ht in Hts1. simpl in Hts1. cbn [mbind outcome_bind].
  destruct (remove_task_ok m r1 p (with_on_rq false t) Hwf1) as (s & r' & E & Hwf & Hget & He & _);
    [by rewrite (task_set_get _ _ _ _ _ Hts1)|done|].
  assert (forall q, slot_get (delete p m) r' q = if decide (q = p) then None else slot_get m r q) as Hget'.
  { intros q. rewrite Hget, (Hts1 q). by destruct (decide (q = p)). }
  assert (curr r' = curr r) as Hcur by (etrans; [apply He|apply He1]).
  exists r'. split_and!; try done; [by eapply (rq_good_drop m r p)|etrans; [apply He|apply He1]].
Qed.
