(* ===== verification/SchedWorld.v ===== *)
(** * The scheduler of all CPUs

    The invariant of the run queues of all CPUs and of the global tables, and its
    preservation by the entry points of [SchedCore]. *)
From S2P Require Import Prelude CfsHeap RtQueue CpuSets SchedTask RunQueue RunQueueInv SchedCore SchedInv.

(** The shape of the tables: the CPUs below [active_cpus] have run queues, the
    hints name CPUs that can exist, and a pid has its task on one CPU. *)
Record world_shape (w : World) : Prop := {
  ws_all : forall c, 0 <= c < active_cpus w <-> is_Some (rqs w !! c);
  ws_cpus : 0 <= active_cpus w <= MAX_CPUS;
  ws_hints : forall p h, pid_cpu w !! p = Some h -> h < MAX_CPUS;
  ws_one : forall c1 c2 r1 r2 p, rqs w !! c1 = Some r1 -> rqs w !! c2 = Some r2 ->
    is_Some (slot_get (pid_slot w) r1 p) -> is_Some (slot_get (pid_slot w) r2 p) -> c1 = c2
}.

Record world_wf (w : World) : Prop := {
  ww_shape : world_shape w;
  ww_good : forall c r, rqs w !! c = Some r -> rq_good (pid_slot w) r /\ rq_cpu r = c
}.

(** The task [t] of pid [p] on the run queue [r] of CPU [c]. *)
Definition task_on (w : World) (p c : Z) (r : RunQueue) (t : Task) : Prop :=
  rqs w !! c = Some r /\ slot_get (pid_slot w) r p = Some t.

Definition nowhere (w : World) (p : Z) : Prop :=
  forall c r, rqs w !! c = Some r -> slot_get (pid_slot w) r p = None.

Definition present (w : World) (p : Z) : Prop := exists c r t, task_on w p c r t.

Lemma present_or_nowhere w p : present w p \/ nowhere w p.
Proof.
  destruct (decide (map_Exists (fun _ r => is_Some (slot_get (pid_slot w) r p)) (rqs w))) as [Hex|Hno].
  - destruct Hex as (c & r & Hr & t & Ht). left. by exists c, r, t.
  - right. intros c r Hr. destruct (slot_get (pid_slot w) r p) eqn:E; [|done].
    destruct Hno. exists c, r. rewrite E. eauto.
Qed.

Lemma boot_world_wf : world_wf boot_world.
Proof.
  assert (forall c r, rqs boot_world !! c = Some r -> False) as Hno.
  { intros c r E. simpl in E. by rewrite lookup_empty in E. }
  split; [split|]; simpl.
  - intros c. rewrite lookup_empty. split; [lia|by intros []].
  - unfold MAX_CPUS. lia.
  - intros p h E. by rewrite lookup_empty in E.
  - intros c1 c2 r1 r2 p E. by apply Hno in E.
  - intros c r E. by apply Hno in E.
Qed.

Lemma set_rqs_id w : set_rqs (rqs w) (pid_slot w) w = w.
Proof. by destruct w. Qed.

(** ** Critical sections *)

Lemma with_rq_ok {A} w c r (f : section A) m' r' a :
  c < MAX_CPUS -> rqs w !! c = Some r -> f (pid_slot w) r = Done (m', r', a) ->
  with_rq w c f = Done (set_rqs (<[c := r']> (rqs w)) m' w, Some a).
Proof.
  intros Hc Hr Hf. unfold with_rq. destruct (Z.leb_spec MAX_CPUS c); [lia|]. by rewrite Hr, Hf.
Qed.

(** A section that finds nothing and changes nothing. *)
Lemma with_rq_miss {A} w c (f : section (option A)) :
  c < MAX_CPUS ->
  (forall r, rqs w !! c = Some r -> f (pid_slot w) r = Done (pid_slot w, r, None)) ->
  exists x, with_rq w c f = Done (w, x) /\ flatten x = None.
Proof.
  intros Hc Hf. unfold with_rq. destruct (Z.leb_spec MAX_CPUS c); [lia|].
  destruct (rqs w !! c) as [r|] eqn:Er; [|by exists None].
  rewrite (Hf r eq_refl). cbn [mbind outcome_bind]. rewrite insert_id by done.
  rewrite set_rqs_id. by exists (Some None).
Qed.

Lemma scan_finds {A} w c r skip (f : section (option A)) m' r' a :
  c < MAX_CPUS -> rqs w !! c = Some r -> f (pid_slot w) r = Done (m', r', Some a) -> skip c = false ->
  (forall d rd, rqs w !! d = Some rd -> d <> c -> f (pid_slot w) rd = Done (pid_slot w, rd, None)) ->
  forall cpus, c ∈ cpus -> (forall d, d ∈ cpus -> d < MAX_CPUS) ->
  scan w cpus skip f = Done (set_rqs (<[c := r']> (rqs w)) m' w, Some a).
Proof.
  intros Hc Hr Hf Hskip Hmiss cpus. induction cpus as [|d cpus IH]; [by intros ?%elem_of_nil|].
  intros Hin Hb. simpl. destruct (decide (d = c)) as [->|Hne].
  - rewrite Hskip, (with_rq_ok w c r f m' r' (Some a)) by done. done.
  - apply elem_of_cons in Hin as [?|Hin]; [by subst|].
    assert (forall d, d ∈ cpus -> d < MAX_CPUS) as Hb' by (intros; apply Hb; by right).
    destruct (skip d); [by apply IH|].
    destruct (with_rq_miss w d f) as (x & -> & Hx); [apply Hb; by left|intros rd Hrd; by apply (Hmiss d)|].
    cbn [mbind outcome_bind]. rewrite Hx. by apply IH.
Qed.

Lemma scan_misses {A} w skip (f : section (option A)) :
  (forall d rd, rqs w !! d = Some rd -> f (pid_slot w) rd = Done (pid_slot w, rd, None)) ->
  forall cpus, (forall d, d ∈ cpus -> d < MAX_CPUS) -> scan w cpus skip f = Done (w, None).
Proof.
  intros Hmiss cpus. induction cpus as [|d cpus IH]; [done|]. intros Hb. simpl.
  assert (forall d, d ∈ cpus -> d < MAX_CPUS) as Hb' by (intros; apply Hb; by right).
  destruct (skip d); [by apply IH|].
  destruct (with_rq_miss w d f) as (x & -> & Hx); [apply Hb; by left|intros rd Hrd; by apply (Hmiss d)|].
  cbn [mbind outcome_bind]. rewrite Hx. by apply IH.
Qed.

Lemma all_cpus_bound w : world_shape w -> forall d, d ∈ all_cpus w -> d < MAX_CPUS.
Proof. intros Hw d Hd%elem_of_seqZ. pose proof (ws_cpus _ Hw). lia. Qed.

Lemma rq_cpu_bound w c r : world_shape w -> rqs w !! c = Some r -> 0 <= c < active_cpus w /\ c < MAX_CPUS.
Proof.
  intros Hw Hr. assert (0 <= c < active_cpus w) by (apply (ws_all _ Hw); eauto).
  pose proof (ws_cpus _ Hw). lia.
Qed.

Lemma task_on_cpu w p c r t : world_shape w -> task_on w p c r t -> c ∈ all_cpus w /\ c < MAX_CPUS.
Proof.
  intros Hw [Hr _]. destruct (rq_cpu_bound _ _ _ Hw Hr). split; [|done]. apply elem_of_seqZ. lia.
Qed.

(** A pid is absent from every CPU but its own. *)
Lemma task_on_other w p c r t d rd :
  world_shape w -> task_on w p c r t -> rqs w !! d = Some rd -> d <> c -> slot_get (pid_slot w) rd p = None.
Proof.
  intros Hw [Hr Ht] Hd Hne. destruct (slot_get (pid_slot w) rd p) eqn:E; [|done].
  exfalso. apply Hne. by eapply (ws_one _ Hw d c rd r p); eauto.
Qed.

(** A section is local to [p] when it does nothing where [p] is not. *)
Definition local_to {A} (p : Z) (f : section (option A)) : Prop :=
  forall m r, slot_get m r p = None -> f m r = Done (m, r, None).

Lemma hint_tier_misses {A} w cpu p (f : section (option A)) :
  world_shape w ->
  (forall h r, pid_to_cpu w p = Some h -> h <> cpu -> rqs w !! h = Some r ->
     f (pid_slot w) r = Done (pid_slot w, r, None)) ->
  hint_tier w cpu p f = Done (w, None).
Proof.
  intros Hw Hf. unfold hint_tier. destruct (pid_to_cpu w p) as [h|] eqn:Eh; [|done].
  destruct (Z.eqb_spec h cpu) as [|Hne]; [done|].
  destruct (with_rq_miss w h f) as (x & -> & Hx); [|by intros r; apply Hf|].
  { unfold pid_to_cpu in Eh. destruct (MAX_PIDS <=? p); [done|]. by eapply (ws_hints _ Hw). }
  cbn [mbind outcome_bind]. by rewrite Hx.
Qed.

(** The lookup runs the section on the CPU that has the task, whatever the hint. *)
Lemma with_task_finds {A} w cpu p c r t (f : section (option A)) m' r' a :
  world_shape w -> cpu < MAX_CPUS -> task_on w p c r t -> local_to p f ->
  f (pid_slot w) r = Done (m', r', Some a) ->
  with_task_on_any_cpu w cpu p f = Done (set_rqs (<[c := r']> (rqs w)) m' w, Some a).
Proof.
  intros Hw Hcpu Hon Hloc Hf. pose proof Hon as [Hr Ht].
  destruct (task_on_cpu _ _ _ _ _ Hw Hon) as [Hin Hc]. unfold with_task_on_any_cpu.
  destruct (decide (cpu = c)) as [->|Hne].
  { by rewrite (with_rq_ok w c r f m' r' (Some a)) by done. }
  destruct (with_rq_miss w cpu f) as (x & -> & Hx); [done| |].
  { intros rd Hrd. apply Hloc. by eapply task_on_other. }
  cbn [mbind outcome_bind]. rewrite Hx. destruct (decide (pid_to_cpu w p = Some c)) as [Eh|Hh].
  - unfold hint_tier. rewrite Eh. destruct (Z.eqb_spec c cpu); [by subst|].
    by rewrite (with_rq_ok w c r f m' r' (Some a)) by done.
  - rewrite hint_tier_misses; [|done|].
    + cbn [mbind outcome_bind]. apply (scan_finds w c r); try done.
      * by apply Z.eqb_neq.
      * intros d rd Hd Hdc. apply Hloc. by eapply task_on_other.
      * by apply all_cpus_bound.
    + intros h rd Eh Hhc Hrd. apply Hloc. eapply task_on_other; [done..|]. congruence.
Qed.

Lemma with_task_misses {A} w cpu p (f : section (option A)) :
  world_shape w -> cpu < MAX_CPUS -> nowhere w p -> local_to p f ->
  with_task_on_any_cpu w cpu p f = Done (w, None).
Proof.
  intros Hw Hcpu Hno Hloc. unfold with_task_on_any_cpu.
  destruct (with_rq_miss w cpu f) as (x & -> & Hx); [done|intros r Hr; by eapply Hloc, Hno|].
  cbn [mbind outcome_bind]. rewrite Hx, hint_tier_misses; [|done|intros h r _ _ Hr; by eapply Hloc, Hno].
  cbn [mbind outcome_bind]. apply scan_misses; [intros d r Hr; by eapply Hloc, Hno|by apply all_cpus_bound].
Qed.

(** ** Preservation *)

(** A run queue under a table that differs at a pid it does not have. *)
Lemma slot_get_table m m' r p :
  (forall q, q <> p -> m' !! q = m !! q) -> slots_wf m r -> slot_get m r p = None ->
  forall q, slot_get m' r q = slot_get m r q.
Proof.
  intros Hm Hs Hp q. destruct (decide (q = p)) as [->|Hne]; [|unfold slot_get, slot_of; by rewrite Hm].
  rewrite Hp. destruct (slot_get m' r p) as [t|] eqn:E; [|done].
  apply slot_get_inv in E as (s & _ & Hst & <-). by rewrite (slot_get_task _ _ _ _ Hs Hst) in Hp.
Qed.

Lemma rq_good_table m m' r p :
  (forall q, q <> p -> m' !! q = m !! q) -> slot_get m r p = None -> rq_good m r -> rq_good m' r.
Proof.
  intros Hm Hp Hg. pose proof (rq_slots _ _ (good_wf _ _ Hg)) as Hs.
  pose proof (slot_get_table _ _ _ _ Hm Hs Hp) as Eq. destruct Hg as [[_ Hq] Hf Hl]. split; [split| |].
  - destruct Hs as [? ? ? Ht]. split; try done. intros s t Hst. destruct (Ht s t Hst) as [? E]. split; [done|].
    rewrite Hm; [done|]. intros Ep. assert (slots_wf m r) as Hs by by split.
    pose proof (slot_get_task _ _ _ _ Hs Hst). congruence.
  - eapply queues_wf_ext; [|done]. intros q. unfold qstate. by rewrite Eq.
  - eapply rt_fits_cls; [|done]. intros q. unfold cls. by rewrite Eq.
  - intros q t. rewrite Eq. apply Hl.
Qed.

(** The world after the run queue of CPU [c] and the table changed, at most at [p]. *)
Lemma world_wf_set w c r m' r' p :
  world_wf w -> rqs w !! c = Some r -> rq_good m' r' -> rq_cpu r' = c ->
  (forall q, q <> p -> m' !! q = pid_slot w !! q) ->
  (forall d rd, rqs w !! d = Some rd -> d <> c -> slot_get (pid_slot w) rd p = None) ->
  (forall q, q <> p -> is_Some (slot_get m' r' q) <-> is_Some (slot_get (pid_slot w) r q)) ->
  world_wf (set_rqs (<[c := r']> (rqs w)) m' w).
Proof.
  intros [Hw Hgood] Hr Hg Hcpu Hm Hother Hq.
  assert (forall d rd q, rqs w !! d = Some rd -> d <> c -> slot_get m' rd q = slot_get (pid_slot w) rd q) as Eo.
  { intros d rd q Hd Hne. apply (slot_get_table (pid_slot w) m' rd p); [done| |by eapply Hother].
    apply (Hgood d rd Hd). }
  split; [split|]; simpl.
  - intros d. rewrite (ws_all _ Hw). destruct (decide (d = c)) as [->|Hne].
    + rewrite lookup_insert_eq, Hr. split; eauto.
    + by rewrite lookup_insert_ne.
  - apply Hw.
  - apply Hw.
  - intros c1 c2 r1 r2 q [[<- <-]|[N1 H1]]%lookup_insert_Some [[<- <-]|[N2 H2]]%lookup_insert_Some; [done|..].
    + rewrite (Eo c2 r2) by done. intros S1 S2. destruct (decide (q = p)) as [->|Hne].
      * rewrite (Hother c2 r2) in S2 by done. by destruct S2.
      * apply Hq in S1; [|done]. by eapply (ws_one _ Hw).
    + rewrite (Eo c1 r1) by done. intros S1 S2. destruct (decide (q = p)) as [->|Hne].
      * rewrite (Hother c1 r1) in S1 by done. by destruct S1.
      * apply Hq in S2; [|done]. by eapply (ws_one _ Hw).
    + rewrite (Eo c1 r1), (Eo c2 r2) by done. by apply (ws_one _ Hw).
  - intros d rd [[<- <-]|[Hne Hd]]%lookup_insert_Some; [done|]. destruct (Hgood _ _ Hd). split; [|done].
    eapply (rq_good_table (pid_slot w)); eauto.
Qed.

Lemma present_set w c r m' r' p :
  world_wf w -> rqs w !! c = Some r ->
  (forall q, q <> p -> m' !! q = pid_slot w !! q) ->
  (forall d rd, rqs w !! d = Some rd -> d <> c -> slot_get (pid_slot w) rd p = None) ->
  (forall q, q <> p -> is_Some (slot_get m' r' q) <-> is_Some (slot_get (pid_slot w) r q)) ->
  forall q, present (set_rqs (<[c := r']> (rqs w)) m' w) q <->
    if decide (q = p) then is_Some (slot_get m' r' p) else present w q.
Proof.
  intros Hw Hr Hm Hother Hq q.
  assert (forall d rd q, rqs w !! d = Some rd -> d <> c -> slot_get m' rd q = slot_get (pid_slot w) rd q) as Eo.
  { intros d rd x Hd Hne. apply (slot_get_table (pid_slot w) m' rd p); [done| |by eapply Hother].
    apply (ww_good _ Hw d rd Hd). }
  unfold present, task_on; simpl. split.
  - intros (d & rd & t & [[<- <-]|[Hne Hd]]%lookup_insert_Some & Ht); case_decide as E; subst; eauto.
    + destruct (Hq q E) as [[u Hu] _]; eauto 6.
    + rewrite (Eo d rd), (Hother d rd) in Ht by done. done.
    + rewrite (Eo d rd) in Ht by done. eauto 6.
  - case_decide as E; subst.
    + intros [t Ht]. exists c, r', t. by rewrite lookup_insert_eq.
    + intros (d & rd & t & Hd & Ht). destruct (decide (d = c)) as [->|Hne].
      * assert (rd = r) as -> by congruence. destruct (Hq q E) as [_ [u Hu]]; [eauto|].
        exists c, r', u. by rewrite lookup_insert_eq.
      * exists d, rd, t. rewrite lookup_insert_ne by done. by rewrite (Eo d rd).
Qed.

(** What an entry point that neither adds nor removes tasks establishes. *)
Record advances (w w' : World) : Prop := {
  adv_wf : world_wf w';
  adv_present : forall p, present w' p <-> present w p
}.

Lemma advances_refl w : world_wf w -> advances w w.
Proof. by split. Qed.

Lemma advances_trans w1 w2 w3 : advances w1 w2 -> advances w2 w3 -> advances w1 w3.
Proof. intros [? P1] [? P2]. split; [done|]. intros p. by rewrite P2, P1. Qed.

(** No run queue has a pid past the table. *)
Lemma slot_get_max m r : slot_get m r MAX_PIDS = None.
Proof. done. Qed.

Lemma keeps_advances w c r r' :
  world_wf w -> rqs w !! c = Some r -> keeps (pid_slot w) r r' ->
  advances w (set_rqs (<[c := r']> (rqs w)) (pid_slot w) w).
Proof.
  intros Hw Hr [Hg Hcpu Hp]. destruct (ww_good _ Hw _ _ Hr) as [_ Ec]. split.
  - apply (world_wf_set w c r _ _ MAX_PIDS); try done. congruence.
  - intros q. rewrite (present_set w c r _ _ MAX_PIDS) by done. case_decide as E; [|done].
    rewrite slot_get_max. subst q. split; [by intros []|]. intros (d & rd & t & _ & Ht). done.
Qed.

Lemma with_rq_keeps {A} w c (f : section A) :
  world_wf w -> c < MAX_CPUS ->
  (forall r, rqs w !! c = Some r -> exists r' a, f (pid_slot w) r = Done (pid_slot w, r', a) /\
     keeps (pid_slot w) r r') ->
  exists w' a, with_rq w c f = Done (w', a) /\ advances w w'.
Proof.
  intros Hw Hc Hf. destruct (rqs w !! c) as [r|] eqn:Er.
  - destruct (Hf r eq_refl) as (r' & a & E & Hk). eexists _, _. split; [by apply (with_rq_ok w c r)|].
    by eapply keeps_advances.
  - exists w, None. split; [|by apply advances_refl]. unfold with_rq. rewrite Er.
    by destruct (Z.leb_spec MAX_CPUS c); [lia|].
Qed.

Lemma with_task_keeps {A} w cpu p (f : section (option A)) :
  world_wf w -> cpu < MAX_CPUS -> local_to p f ->
  (forall c r t, task_on w p c r t -> exists r' a, f (pid_slot w) r = Done (pid_slot w, r', Some a) /\
     keeps (pid_slot w) r r') ->
  exists w' a, with_task_on_any_cpu w cpu p f = Done (w', a) /\ advances w w'.
Proof.
  intros Hw Hc Hloc Hf. destruct (present_or_nowhere w p) as [(c & r & t & Hon)|Hno].
  - destruct (Hf _ _ _ Hon) as (r' & a & E & Hk). eexists _, _. split.
    + eapply with_task_finds; try done. apply Hw.
    + eapply keeps_advances; [done|apply Hon|done].
  - exists w, None. split; [by apply with_task_misses; [apply Hw|..]|by apply advances_refl].
Qed.

(** The tables outside the run queues are no part of the invariant, the hints
    apart. *)
Lemma world_wf_frame w w' :
  rqs w' = rqs w -> pid_slot w' = pid_slot w -> active_cpus w' = active_cpus w ->
  (forall p h, pid_cpu w' !! p = Some h -> h < MAX_CPUS) -> world_wf w -> advances w w'.
Proof.
  intros Er Em Ea Hh [Hw Hg]. split.
  - split; [split|]; rewrite ?Er, ?Em, ?Ea; try apply Hw; done.
  - intros p. unfold present, task_on. by rewrite Er, Em.
Qed.

Lemma advances_current w cpu pid : world_wf w -> advances w (set_current_pid_lockfree cpu pid w).
Proof. intros Hw. apply world_wf_frame; try done. apply Hw. Qed.

Lemma advances_set_clock w c : world_wf w -> advances w (set_clock c w).
Proof. intros Hw. apply world_wf_frame; try done. apply Hw. Qed.

Lemma advances_add_tick w i : world_wf w -> advances w (add_tick i w).
Proof. intros Hw. apply world_wf_frame; try done. apply Hw. Qed.

Lemma advances_hint_set w pid cpu : world_wf w -> cpu < MAX_CPUS -> advances w (pid_to_cpu_set pid cpu w).
Proof.
  intros Hw Hc. unfold pid_to_cpu_set. destruct (pid <? MAX_PIDS); [|by apply advances_refl].
  apply world_wf_frame; try done. simpl. intros p h [[_ <-]|[_ E]]%lookup_insert_Some; [done|].
  by eapply (ws_hints _ (ww_shape _ Hw)).
Qed.

Lemma advances_hint_clear w pid : world_wf w -> advances w (pid_to_cpu_clear pid w).
Proof.
  intros Hw. unfold pid_to_cpu_clear. destruct (pid <? MAX_PIDS); [|by apply advances_refl].
  apply world_wf_frame; try done. simpl. intros p h [_ E]%lookup_delete_Some.
  by eapply (ws_hints _ (ww_shape _ Hw)).
Qed.

(** ** Waking *)

(** [wake_up] reaches the task on whatever CPU it is. *)
Lemma wake_up_finds w cpu p c r t :
  world_shape w -> cpu < MAX_CPUS -> task_on w p c r t ->
  exists f, wakes p f /\ forall r', f (pid_slot w) r = Done (pid_slot w, r', Some tt) ->
    wake_up w cpu p = Done (set_rqs (<[c := r']> (rqs w)) (pid_slot w) w).
Proof.
  intros Hw Hcpu Hon. pose proof Hon as [Hr Ht]. destruct (task_on_cpu _ _ _ _ _ Hw Hon) as [Hin Hc].
  assert (forall bef fin d rd, rqs w !! d = Some rd -> d <> c ->
    wake_section p bef fin (pid_slot w) rd = Done (pid_slot w, rd, None)) as Hmiss.
  { intros bef fin d rd Hd Hne. apply wake_section_absent. by eapply task_on_other. }
  unfold wake_up. destruct (decide (cpu = c)) as [->|Hne].
  { exists (wake_here p). split; [apply wakes_here|]. intros r' E.
    by rewrite (with_rq_ok w c r _ (pid_slot w) r' (Some tt)) by done. }
  destruct (with_rq_miss w cpu (wake_here p)) as (x & -> & Hx); [done|intros rd Hrd; by eapply Hmiss|].
  cbn [mbind outcome_bind]. rewrite Hx. destruct (decide (pid_to_cpu w p = Some c)) as [Eh|Hh].
  - exists (wake_remote p). split; [apply wakes_remote|]. intros r' E. unfold hint_tier. rewrite Eh.
    destruct (Z.eqb_spec c cpu); [by subst|].
    by rewrite (with_rq_ok w c r _ (pid_slot w) r' (Some tt)) by done.
  - exists (wake_scan p). split; [apply wakes_scan|]. intros r' E. rewrite hint_tier_misses; [|done|].
    + cbn [mbind outcome_bind]. rewrite (scan_finds w c r _ _ (pid_slot w) r' tt); try done.
      * rewrite bool_decide_false by done. by rewrite orb_false_r, (proj2 (Z.eqb_neq _ _)).
      * intros d rd Hd Hdc. by eapply Hmiss.
      * by apply all_cpus_bound.
    + intros h rd Eh Hhc Hrd. eapply Hmiss; [done|]. congruence.
Qed.

Lemma wake_up_nowhere w cpu p :
  world_shape w -> cpu < MAX_CPUS -> nowhere w p -> wake_up w cpu p = Done w.
Proof.
  intros Hw Hcpu Hno. unfold wake_up.
  assert (forall bef fin d rd, rqs w !! d = Some rd ->
    wake_section p bef fin (pid_slot w) rd = Done (pid_slot w, rd, None)) as Hmiss.
  { intros bef fin d rd Hd. by eapply wake_section_absent, Hno. }
  destruct (with_rq_miss w cpu (wake_here p)) as (x & -> & Hx); [done|intros r Hr; by eapply Hmiss|].
  cbn [mbind outcome_bind]. rewrite Hx, hint_tier_misses; [|done|intros h r _ _ Hr; by eapply Hmiss].
  cbn [mbind outcome_bind]. rewrite scan_misses; [done|intros d r Hr; by eapply Hmiss|by apply all_cpus_bound].
Qed.

(** A task that is runnable and queued. *)
Definition awake (w : World) (p c : Z) (k : option qclass) : Prop :=
  exists r t, task_on w p c r t /\ state t = TASK_RUNNING /\ on_rq t = true /\ class_of t = k.

(** The clocks of all CPUs are below the end of the 64-bit range. *)
Definition clocks_ok (w : World) : Prop :=
  forall c r, rqs w !! c = Some r -> tick_room (pid_slot w) r.

(** The task [p] of [w] is awake in [w'], on the same CPU and in the same class. *)
Definition woken (w w' : World) (p : Z) : Prop :=
  exists c r t, task_on w p c r t /\ awake w' p c (class_of t).

Lemma woken_section w p c r t f g :
  world_wf w -> clocks_ok w -> task_on w p c r t -> wakes p f -> keeps_class g -> vruntime (g t) = vruntime t ->
  exists r', f (pid_slot w) (slot_upd (pid_slot w) r p g) = Done (pid_slot w, r', Some tt) /\
    keeps (pid_slot w) r r' /\ woken w (set_rqs (<[c := r']> (rqs w)) (pid_slot w) w) p.
Proof.
  intros Hw Hcl [Hr Ht] Hf Hg Hv. destruct (ww_good _ Hw _ _ Hr) as [Hgood _].
  destruct (wakes_after (pid_slot w) r p t f g Hf Hgood) as (r' & t' & E & Hk & _ & Ht' & ?); try done.
  { by apply (Hcl c). }
  exists r'. split_and!; [done..|]. exists c, r, t. split; [done|]. exists r', t'. split; [|done].
  split; [apply lookup_insert_eq|done].
Qed.

Lemma wake_up_ok w cpu p :
  world_wf w -> cpu < MAX_CPUS -> clocks_ok w ->
  exists w', wake_up w cpu p = Done w' /\ advances w w' /\
    (nowhere w p /\ w' = w \/ woken w w' p).
Proof.
  intros Hw Hcpu Hcl. destruct (present_or_nowhere w p) as [(c & r & t & Hon)|Hno].
  - destruct (wake_up_finds w cpu p c r t (ww_shape _ Hw) Hcpu Hon) as (f & Hf & Hup).
    destruct (woken_section w p c r t f id Hw Hcl Hon Hf) as (r' & E & Hk & Hwk); try done.
    rewrite slot_upd_id in E. eexists. split; [by apply Hup|].
    split; [eapply keeps_advances; try done; apply Hon|by right].
  - exists w. split; [by apply wake_up_nowhere; [apply Hw|..]|]. split; [by apply advances_refl|by left].
Qed.

Lemma update_task_local p f : local_to p (update_task p f).
Proof. intros m r H. unfold update_task. by rewrite slot_upd_none, H. Qed.

(** The shape of the world does not depend on the fields of the tasks. *)
Lemma shape_upd w p c r f :
  world_wf w -> rqs w !! c = Some r -> (forall t, t_pid (f t) = t_pid t) ->
  world_shape (set_rqs (<[c := slot_upd (pid_slot w) r p f]> (rqs w)) (pid_slot w) w).
Proof.
  intros [Hw Hg] Hr Hf.
  assert (forall d rd q, <[c := slot_upd (pid_slot w) r p f]> (rqs w) !! d = Some rd ->
    is_Some (slot_get (pid_slot w) rd q) -> exists r0, rqs w !! d = Some r0 /\ is_Some (slot_get (pid_slot w) r0 q)) as Hb.
  { intros d rd q [[<- <-]|[Hne Hd]]%lookup_insert_Some Hs; [|eauto]. exists r. split; [done|].
    destruct (slot_get (pid_slot w) r p) as [t|] eqn:Et; [|by rewrite slot_upd_none in Hs].
    rewrite (slot_upd_get _ r p f t) in Hs; [|apply (Hg _ _ Hr)|done|rewrite Hf; by eapply slot_get_pid].
    destruct (decide (q = p)) as [->|]; eauto. }
  split; simpl; try apply Hw.
  - intros d. rewrite (ws_all _ Hw). destruct (decide (d = c)) as [->|Hne].
    + rewrite lookup_insert_eq, Hr. split; eauto.
    + by rewrite lookup_insert_ne.
  - intros c1 c2 r1 r2 q H1 H2 S1 S2.
    destruct (Hb _ _ _ H1 S1) as (? & ? & ?), (Hb _ _ _ H2 S2) as (? & ? & ?). by eapply (ws_one _ Hw).
Qed.

(** The kernel's wake-up marks the task runnable before it queues it. *)
Lemma kernel_wake_up_ok w cpu p :
  world_wf w -> cpu < MAX_CPUS -> clocks_ok w ->
  exists w', kernel_wake_up w cpu p = Done w' /\ advances w w' /\
    (nowhere w p /\ w' = w \/ woken w w' p).
Proof.
  intros Hw Hcpu Hcl. unfold kernel_wake_up, clear_task_waiting.
  destruct (present_or_nowhere w p) as [(c & r & t & Hon)|Hno].
  - pose proof Hon as [Hr Ht]. set (m := pid_slot w). set (r1 := slot_upd m r p clear_waiting).
    rewrite (with_task_finds w cpu p c r t _ m r1 tt); try done; [|apply Hw|apply update_task_local|].
    2:{ unfold update_task. fold m in Ht |- *. by rewrite Ht. }
    cbn [mbind outcome_bind]. set (w1 := set_rqs _ _ w).
    assert (task_on w1 p c r1 (clear_waiting t)) as Hon1.
    { split; [apply lookup_insert_eq|]. change (pid_slot w1) with m. unfold r1.
      rewrite (slot_upd_get m r p clear_waiting t), decide_True; try done; [apply (ww_good _ Hw _ _ Hr)|].
      exact (slot_get_pid _ _ _ _ Ht). }
    destruct (wake_up_finds w1 cpu p c r1 _ (shape_upd w p c r clear_waiting Hw Hr (fun _ => eq_refl)) Hcpu Hon1)
      as (f & Hf & Hup).
    destruct (woken_section w p c r t f clear_waiting Hw Hcl Hon Hf) as (r' & E & Hk & Hwk); try done.
    eexists. split; [by apply Hup|].
    assert (set_rqs (<[c := r']> (rqs w1)) (pid_slot w1) w1 = set_rqs (<[c := r']> (rqs w)) m w) as ->.
    { unfold w1, set_rqs. simpl. by rewrite insert_insert_eq. }
    split; [by eapply keeps_advances|by right].
  - rewrite (with_task_misses w cpu p) by (try done; try apply Hw; apply update_task_local).
    cbn [mbind outcome_bind]. exists w. split; [by apply wake_up_nowhere; [apply Hw|..]|].
    split; [by apply advances_refl|by left].
Qed.

(** [try_wake_up] either wakes the task and says so, or leaves everything. *)
Lemma try_section_ok free w d p f :
  wakes p f -> world_wf w -> clocks_ok w -> d < MAX_CPUS ->
  exists w' a, try_with_rq free w d f = Done (w', a) /\ advances w w' /\
    (a = Some (Some tt) /\ woken w w' p \/ a <> Some (Some tt) /\ w' = w).
Proof.
  intros Hf Hw Hcl Hd. pose proof (advances_refl _ Hw) as Hrefl. unfold try_with_rq.
  destruct (Z.leb_spec MAX_CPUS d); [lia|].
  destruct (free d); [|exists w, None; split_and!; try done; by right].
  unfold with_rq. destruct (Z.leb_spec MAX_CPUS d); [lia|].
  destruct (rqs w !! d) as [r|] eqn:Er; [|exists w, None; split_and!; try done; by right].
  destruct (slot_get (pid_slot w) r p) as [t|] eqn:Et.
  - destruct (woken_section w p d r t f id Hw Hcl) as (r' & E & Hk & Hwk); try done.
    rewrite slot_upd_id in E. rewrite E. cbn [mbind outcome_bind]. eexists _, _. split; [done|].
    split; [by eapply keeps_advances|by left].
  - destruct Hf as (bef & fin & _ & ->). rewrite wake_section_absent by done. cbn [mbind outcome_bind].
    rewrite insert_id, set_rqs_id by done. exists w, (Some None). split_and!; try done. by right.
Qed.

Lemma try_scan_ok free cpu p f w :
  wakes p f -> world_wf w -> clocks_ok w ->
  forall cpus, (forall d, d ∈ cpus -> d < MAX_CPUS) ->
  exists w' b, try_scan free w cpus cpu f = Done (w', b) /\ advances w w' /\
    (b = true /\ woken w w' p \/ b = false /\ w' = w).
Proof.
  intros Hf Hw Hcl cpus. pose proof (advances_refl _ Hw) as Hrefl.
  induction cpus as [|d cpus IH]; intros Hb; [exists w, false; split_and!; try done; by right|]. simpl.
  assert (forall d, d ∈ cpus -> d < MAX_CPUS) as Hb' by (intros; apply Hb; by right).
  destruct (d =? cpu); [by apply IH|].
  destruct (try_section_ok free w d p f Hf Hw Hcl) as (w' & a & -> & Ha & [[-> Hwk]|[Hno ->]]); [apply Hb; by left|..];
    cbn [mbind outcome_bind].
  - exists w', true. split_and!; try done. by left.
  - destruct a as [[[]|]|]; [done|by apply IH|]. exists w, false. split_and!; try done. by right.
Qed.

Lemma try_wake_up_ok free w cpu p :
  world_wf w -> clocks_ok w -> cpu < MAX_CPUS ->
  exists w' b, try_wake_up free w cpu p = Done (w', b) /\ advances w w' /\
    (b = true /\ woken w w' p \/ b = false /\ w' = w).
Proof.
  intros Hw Hcl Hcpu. pose proof (advances_refl _ Hw) as Hrefl. unfold try_wake_up.
  pose proof (try_scan_ok free cpu p _ w (wakes_remote p) Hw Hcl (all_cpus w)
    (all_cpus_bound _ (ww_shape _ Hw))) as Hscan.
  destruct (try_section_ok free w cpu p _ (wakes_here p) Hw Hcl Hcpu) as (w' & a & -> & Ha & [[-> Hwk]|[Hno ->]]);
    cbn [mbind outcome_bind]; [exists w', true; split_and!; try done; by left|].
  destruct a as [[[]|]|]; [done| |exists w, false; split_and!; try done; by right].
  destruct (pid_to_cpu w p) as [h|] eqn:Eh; [|done]. destruct (h =? cpu); [done|].
  destruct (try_section_ok free w h p _ (wakes_here p) Hw Hcl) as (w' & a & -> & Ha' & [[-> Hwk]|[Hno' ->]]).
  { unfold pid_to_cpu in Eh. destruct (MAX_PIDS <=? p); [done|]. by eapply (ws_hints _ (ww_shape _ Hw)). }
  all: cbn [mbind outcome_bind].
  - exists w', true. split_and!; try done. by left.
  - destruct a as [[[]|]|]; [done|done|]. exists w, false. split_and!; try done. by right.
Qed.

(** ** Initialisation, addition and removal *)

Lemma init_cpu_ok w idle_pid :
  world_wf w -> active_cpus w < MAX_CPUS ->
  exists w', init_cpu w (active_cpus w) idle_pid = Done w' /\ advances w w'.
Proof.
  intros Hw Hlt. unfold init_cpu. set (c := active_cpus w).
  destruct (Z.leb_spec MAX_CPUS c); [unfold c in *; lia|]. eexists. split; [done|].
  pose proof (ws_cpus _ (ww_shape _ Hw)) as Hcp. unfold wadd32.
  rewrite Z.mod_small by (unfold c, U32, MAX_CPUS in *; lia).
  destruct (rq_new_good (pid_slot w) c idle_pid) as [Hnew Hnone].
  assert (rqs w !! c = None) as Hfresh.
  { destruct (rqs w !! c) eqn:E; [|done]. assert (0 <= c < active_cpus w); [|unfold c in *; lia].
    apply (ws_all _ (ww_shape _ Hw)). eauto. }
  set (w1 := MkWorld _ _ _ _ _ _ _).
  assert (advances w w1) as H1.
  { split.
    - split; [split|]; simpl; try apply (ww_shape _ Hw); fold c.
      + intros d. destruct (decide (d = c)) as [->|Hne].
        * rewrite lookup_insert_eq. split; [eauto|unfold c; lia].
        * rewrite lookup_insert_ne, <- (ws_all _ (ww_shape _ Hw)) by done. unfold c in *. lia.
      + unfold c. lia.
      + intros c1 c2 r1 r2 p [[<- <-]|[N1 H1]]%lookup_insert_Some [[<- <-]|[N2 H2]]%lookup_insert_Some S1 S2.
        * done.
        * rewrite Hnone in S1. by destruct S1.
        * rewrite Hnone in S2. by destruct S2.
        * by eapply (ws_one _ (ww_shape _ Hw)).
      + intros d r [[<- <-]|[Hne Hd]]%lookup_insert_Some; [done|by apply (ww_good _ Hw)].
    - intros p. unfold present, task_on; simpl. split.
      + intros (d & r & t & [[<- <-]|[Hne Hd]]%lookup_insert_Some & Ht); [by rewrite Hnone in Ht|eauto 6].
      + intros (d & r & t & Hd & Ht). exists d, r, t. split; [|done]. rewrite lookup_insert_ne; congruence. }
  pose proof (advances_current w1 c idle_pid (adv_wf _ _ H1)) as H2.
  pose proof (advances_hint_set _ idle_pid c (adv_wf _ _ H2) ltac:(unfold c; lia)) as H3.
  by eapply advances_trans; [|eapply advances_trans].
Qed.

(** A task can be put on CPU [c]. *)
Definition has_room (w : World) (t : Task) (c : Z) : Prop :=
  exists r, rqs w !! c = Some r /\ free_stack r <> [] /\ rt_space (pid_slot w) r (t_pid t) (class_of t).

Lemma add_task_to_cpu_ok w now t c :
  world_wf w -> nowhere w (t_pid t) -> t_pid t < MAX_PIDS -> on_rq t = false -> has_room w t c ->
  exists w', add_task_to_cpu w now t c = Done w' /\ world_wf w' /\
    (forall q, present w' q <-> q = t_pid t \/ present w q) /\
    (exists r' t', task_on w' (t_pid t) c r' t' /\ on_rq t' = true /\ class_of t' = class_of t /\
       state t' = state t) /\ active_cpus w' = active_cpus w.
Proof.
  intros Hw Hno Hlt Hoff (r & Hr & Hfree & Hsp). destruct (ww_good _ Hw _ _ Hr) as [Hg Hcpu].
  destruct (rq_cpu_bound _ _ _ (ww_shape _ Hw) Hr) as [_ Hc]. unfold add_task_to_cpu.
  destruct (add_task_good (pid_slot w) now r t) as (m' & r' & t' & E & Hg' & Ecpu & Hm & Hget & Hp); try done;
    [by eapply Hno|].
  rewrite (with_rq_ok w c r (add_section now t) m' r' tt); [|done|done|unfold add_section; by rewrite E].
  cbn [mbind outcome_bind]. set (w1 := set_rqs _ _ _).
  assert (forall q, q <> t_pid t -> is_Some (slot_get m' r' q) <-> is_Some (slot_get (pid_slot w) r q)) as Hsame.
  { intros q Hq. by rewrite Hget, decide_False. }
  assert (world_wf w1) as Hw1.
  { apply (world_wf_set w c r m' r' (t_pid t)); try done; [congruence|]. intros d rd Hd _. by eapply Hno. }
  pose proof (advances_hint_set w1 (t_pid t) c Hw1 Hc) as H2.
  eexists. split; [done|]. split; [apply H2|]. split_and!.
  - intros q. rewrite (adv_present _ _ H2). unfold w1.
    rewrite (present_set w c r m' r' (t_pid t) Hw Hr Hm (fun d rd Hd _ => Hno d rd Hd) Hsame).
    case_decide as Eq; [|naive_solver]. rewrite Hget, decide_True by done. naive_solver.
  - exists r', t'. split; [|naive_solver]. unfold pid_to_cpu_set. split.
    + destruct (t_pid t <? MAX_PIDS); apply lookup_insert_eq.
    + assert (slot_get m' r' (t_pid t) = Some t') as Ht' by by rewrite Hget, decide_True.
      by destruct (t_pid t <? MAX_PIDS).
  - unfold pid_to_cpu_set. by destruct (t_pid t <? MAX_PIDS).
Qed.

(** The world without the task [p]. *)
Definition dropped (w w' : World) (p : Z) : Prop :=
  world_wf w' /\ forall q, present w' q <-> q <> p /\ present w q.

Lemma dropped_section w p c r t r' :
  world_wf w -> task_on w p c r t -> rq_good (delete p (pid_slot w)) r' -> rq_cpu r' = rq_cpu r ->
  (forall q, slot_get (delete p (pid_slot w)) r' q = if decide (q = p) then None else slot_get (pid_slot w) r q) ->
  dropped w (set_rqs (<[c := r']> (rqs w)) (delete p (pid_slot w)) w) p.
Proof.
  intros Hw Hon Hg Ecpu Hget. pose proof Hon as [Hr _]. destruct (ww_good _ Hw _ _ Hr) as [_ Hcpu].
  assert (forall q, q <> p -> delete p (pid_slot w) !! q = pid_slot w !! q) as Hm.
  { intros q Hq. by rewrite lookup_delete_ne. }
  assert (forall q, q <> p -> is_Some (slot_get (delete p (pid_slot w)) r' q) <->
    is_Some (slot_get (pid_slot w) r q)) as Hsame by (intros q Hq; by rewrite Hget, decide_False).
  assert (forall d rd, rqs w !! d = Some rd -> d <> c -> slot_get (pid_slot w) rd p = None) as Hoth.
  { intros d rd Hd Hne. eapply task_on_other; try done. apply Hw. }
  split; [by apply (world_wf_set w c r _ _ p); try done; congruence|].
  intros q. rewrite (present_set w c r _ r' p) by done. case_decide as Eq; [|naive_solver].
  rewrite Hget, decide_True by done. split; [by intros []|naive_solver].
Qed.

Lemma world_remove_task_ok w cpu p :
  world_wf w -> cpu < MAX_CPUS ->
  (forall c r t, task_on w p c r t -> on_rq t = true -> is_Some (class_of t)) ->
  exists w' a, remove_task w cpu p = Done (w', a) /\ dropped w w' p /\
    (forall c r t, task_on w p c r t -> a = Some (with_on_rq false t)).
Proof.
  intros Hw Hcpu Hcl. unfold remove_task.
  assert (local_to p (remove_section p)) as Hloc by (intros m r H; by apply remove_task_absent).
  destruct (present_or_nowhere w p) as [(c & r & t & Hon)|Hno].
  - pose proof Hon as [Hr Ht]. destruct (ww_good _ Hw _ _ Hr) as [Hg Hc].
    destruct (remove_task_good (pid_slot w) r p t Hg Ht) as (r' & E & Hg' & Ecpu & _ & Hget).
    { by eapply Hcl. }
    rewrite (with_task_finds w cpu p c r t _ _ _ _ (ww_shape _ Hw) Hcpu Hon Hloc E).
    cbn [mbind outcome_bind]. destruct (dropped_section w p c r t r') as [Hw1 Hp1]; try done.
    destruct (advances_hint_clear _ p Hw1) as [Hw2 Hp2].
    eexists _, _. split; [done|]. split; [split; [done|]|].
    + intros q. by rewrite Hp2.
    + intros c2 r2 t2 Hon2. assert (c2 = c) as ->.
      { destruct Hon2. eapply (ws_one _ (ww_shape _ Hw)); eauto. }
      destruct Hon2. congruence.
  - rewrite with_task_misses by (try done; apply Hw). exists w, None. split; [done|]. split; [split; [done|]|].
    + intros q. split; [|tauto]. intros Hq. split; [|done]. intros ->. destruct Hq as (c & r & t & Hr & Ht).
      by rewrite (Hno c r Hr) in Ht.
    + intros c r t [Hr Ht]. by rewrite (Hno c r Hr) in Ht.
Qed.

(** ** Migration *)

Lemma present_task w p c r t :
  world_wf w -> task_on w p c r t -> t_pid t = p /\ p < MAX_PIDS.
Proof.
  intros Hw [Hr Ht]. pose proof (slot_get_inv _ _ _ _ Ht) as (s & _ & Hst & <-). split; [done|].
  by eapply (swf_task _ _ (rq_slots _ _ (good_wf _ _ (proj1 (ww_good _ Hw _ _ Hr))))).
Qed.

(** A task taken out and put on another CPU is still there. *)
Lemma moved_ok w w1 now t c p :
  dropped w w1 p -> present w p -> t_pid t = p -> p < MAX_PIDS -> on_rq t = false -> has_room w1 t c ->
  exists w', add_task_to_cpu w1 now t c = Done w' /\ advances w w'.
Proof.
  intros [Hw1 Hp1] Hp Ht Hlt Hoff Hroom.
  assert (nowhere w1 (t_pid t)) as Hno.
  { destruct (present_or_nowhere w1 (t_pid t)) as [Hpr|]; [|done]. apply Hp1 in Hpr as [? _]. done. }
  destruct (add_task_to_cpu_ok w1 now t c Hw1 Hno) as (w' & E & Hw' & Hp' & _); [by rewrite Ht|done..|].
  exists w'. split; [done|]. split; [done|]. intros q. rewrite Hp', Hp1, Ht.
  destruct (decide (q = p)) as [->|]; tauto.
Qed.

(** Room on a CPU does not depend on the entry of the task itself. *)
Lemma rt_space_delete m r p c : rt_space m r p c -> rt_space (delete p m) r p c.
Proof.
  intros Hsp i l Hc Hnd Hni Hl. apply (Hsp i l); try done. intros q Hq. rewrite <- (Hl q Hq).
  unfold cls, slot_get, slot_of. rewrite lookup_delete_ne; [done|]. by intros ->.
Qed.

Lemma busiest_ok free w my c :
  busiest free w my = Some c -> c ∈ all_cpus w /\ c <> my.
Proof.
  unfold busiest.
  assert (forall l b, (forall x, x ∈ l -> x ∈ all_cpus w) ->
    (forall x, fst b = Some x -> x ∈ all_cpus w /\ x <> my) ->
    forall x, fst (foldl (more_loaded free w my) b l) = Some x -> x ∈ all_cpus w /\ x <> my) as Hf.
  { induction l as [|d l IH]; intros b Hl Hb x; simpl; [apply Hb|].
    apply IH; [intros; apply Hl; by right|]. intros y. unfold more_loaded.
    destruct (Z.eqb_spec d my); [apply Hb|]. destruct (if free d then _ else _) as [r|]; [|apply Hb].
    destruct (_ <? _); [|apply Hb]. simpl. intros [= <-]. split; [apply Hl; by left|done]. }
  by apply Hf.
Qed.

Lemma resched_keeps m r b : rq_good m r -> keeps m r (set_need_resched b r).
Proof. intros Hg. by split; [apply rq_good_resched|..]. Qed.

Lemma set_need_resched_on_ok w c :
  world_wf w -> c < MAX_CPUS -> exists w', set_need_resched_on w c = Done w' /\ advances w w'.
Proof.
  intros Hw Hc. unfold set_need_resched_on.
  destruct (with_rq_keeps w c (fun (m : PidToSlot) (r : RunQueue) => Done (m, set_need_resched true r, tt)))
    as (w' & a & -> & Ha); [done..| |by exists w'].
  intros r Hr. eexists _, _. split; [done|]. apply resched_keeps. by apply (ww_good _ Hw _ _ Hr).
Qed.

Lemma idle_try_steal_ok free w my now r0 :
  world_wf w -> rqs w !! my = Some r0 -> free_stack r0 <> [] ->
  exists w' b, idle_try_steal free w my now = Done (w', b) /\ advances w w'.
Proof.
  intros Hw Hmy Hfree. pose proof (advances_refl _ Hw) as Hrefl. unfold idle_try_steal.
  destruct (active_cpus w <=? 1); [by exists w, false|].
  destruct (busiest free w my) as [v|] eqn:Ev; [|by exists w, false].
  apply busiest_ok in Ev as [Hin Hne]. pose proof (all_cpus_bound _ (ww_shape _ Hw) _ Hin) as Hv.
  unfold try_with_rq. destruct (Z.leb_spec MAX_CPUS v); [lia|].
  destruct (free v); [|by exists w, false].
  destruct (proj1 (ws_all _ (ww_shape _ Hw) v)) as [rv Hrv]; [apply elem_of_seqZ in Hin; lia|].
  destruct (ww_good _ Hw _ _ Hrv) as [Hg _]. destruct (rq_cpu_bound _ _ _ (ww_shape _ Hw) Hmy) as [_ Hmc].
  destruct (steal_task_good (pid_slot w) rv my Hg) as [E|(p & t & r' & E & Ht & Hst & Hg' & Ec & _ & Hget)].
  - rewrite (with_rq_ok w v rv _ (pid_slot w) rv None) by done. cbn [mbind outcome_bind flatten].
    rewrite insert_id, set_rqs_id by done. by exists w, false.
  - rewrite (with_rq_ok w v rv _ _ _ _ Hv Hrv E). cbn [mbind outcome_bind flatten].
    set (w1 := set_rqs _ _ w). assert (task_on w p v rv t) as Hon by done.
    destruct (present_task w p v rv t Hw Hon) as [Hpid Hlt].
    destruct (moved_ok w w1 now (with_on_rq false t) my p) as (w2 & -> & H2); try done.
    + by eapply dropped_section.
    + by exists v, rv, t.
    + exists r0. split_and!; [simpl; by rewrite lookup_insert_ne|done|].
      unfold stealable in Hst. rewrite !andb_true_iff in Hst. destruct Hst as [[[[_ Hp] _] _] _].
      apply bool_decide_eq_true in Hp. intros i l. unfold class_of. simpl. by rewrite Hp.
    + cbn [mbind outcome_bind]. destruct (set_need_resched_on_ok w2 my (adv_wf _ _ H2) Hmc) as (w3 & -> & H3).
      cbn [mbind outcome_bind]. exists w3, true. split; [done|by eapply advances_trans].
Qed.

Lemma select_task_rq_allowed w this t :
  cpuset_wf (cpu_affinity t) -> cpuset_is_empty (cpu_affinity t) = false -> 0 <= this -> 0 <= last_cpu t ->
  let c := select_task_rq w this t in 0 <= c /\ cpuset_is_set (cpu_affinity t) c = true.
Proof.
  intros Hwf Hne Hthis Hlast. unfold select_task_rq. set (aff := cpu_affinity t) in *.
  destruct (cpuset_is_set aff (last_cpu t)) eqn:E1; [done|].
  destruct (cpuset_is_set aff this) eqn:E2; [done|].
  pose proof (first_set_spec aff Hwf) as Hf. pose proof (is_empty_first aff) as He.
  destruct (cpuset_first_set aff) as [f|]; [|by rewrite (proj2 He) in Hne]. destruct Hf as (Hf0 & Hf & _). simpl.
  assert (forall l b, Forall (Z.le 0) l -> 0 <= fst b /\ cpuset_is_set aff (fst b) = true ->
    let c := fst (foldl (less_loaded w aff) b l) in 0 <= c /\ cpuset_is_set aff c = true) as Hfold.
  { induction l as [|d l IH]; intros b Hl Hb; simpl; [done|]. apply Forall_cons in Hl as [Hd Hl].
    apply IH; [done|]. unfold less_loaded. destruct (cpuset_is_set aff d) eqn:Ed; [|done]. by destruct (_ <? _). }
  apply Hfold; [|simpl; split; [lia|done]]. apply Forall_forall. intros d Hd%elem_of_seqZ. lia.
Qed.

Lemma set_affinity_ok w cpu now p set :
  world_wf w -> 0 <= cpu < MAX_CPUS -> cpuset_wf set -> cpuset_is_empty set = false ->
  (forall c r t, task_on w p c r t -> 0 <= last_cpu t /\
     forall d, 0 <= d -> cpuset_is_set set d = true -> has_room w t d) ->
  exists w', set_affinity w cpu now p set = Done w' /\ advances w w'.
Proof.
  intros Hw Hcpu Hset Hne Hroom. unfold set_affinity.
  assert (local_to p (affinity_section p set)) as Hloc.
  { intros m r H. unfold affinity_section. by rewrite slot_upd_none, H. }
  destruct (present_or_nowhere w p) as [(c & r & t & Hon)|Hno].
  2:{ rewrite with_task_misses by (try done; try apply Hw; lia). cbn [mbind outcome_bind].
      exists w. split; [done|by apply advances_refl]. }
  pose proof Hon as [Hr Ht]. destruct (ww_good _ Hw _ _ Hr) as [Hg Ec]. destruct (Hroom _ _ _ Hon) as [Hlast Hrm].
  set (m := pid_slot w) in *. set (r1 := slot_upd m r p (with_cpu_affinity set)).
  rewrite (with_task_finds w cpu p c r t _ m r1 (rq_cpu r)); try done; [|apply Hw|lia|].
  2:{ unfold affinity_section. fold m. by rewrite Ht. }
  cbn [mbind outcome_bind]. rewrite Ec. set (w1 := set_rqs _ _ w).
  destruct (slot_upd_good m r p (with_cpu_affinity set) Hg) as (Hk & _ & Hts); [done..|]. fold r1 in Hk, Hts.
  assert (advances w w1) as H1 by by eapply keeps_advances.
  destruct (cpuset_is_set set c) eqn:Esc; [by exists w1|].
  assert (slot_get m r1 p = Some (with_cpu_affinity set t)) as Ht1 by (rewrite (task_set_get _ _ _ _ _ Hts), Ht; done).
  assert (rqs w1 !! c = Some r1) as Hr1 by apply lookup_insert_eq.
  destruct (rq_cpu_bound _ _ _ (ww_shape _ Hw) Hr) as [_ Hc].
  destruct (migrate_section_good m r1 p _ (keeps_good _ _ _ Hk) Ht1) as [[_ E]|[_ (r2 & E & Hg2 & Ec2 & _ & Hget)]].
  - rewrite (with_rq_ok w1 c r1 _ m _ None Hc Hr1 E). cbn [mbind outcome_bind flatten].
    eexists. split; [done|]. eapply advances_trans; [done|].
    apply (keeps_advances w1 c r1); [apply H1|done|]. apply resched_keeps. apply Hk.
  - rewrite (with_rq_ok w1 c r1 _ _ _ _ Hc Hr1 E). cbn [mbind outcome_bind flatten].
    set (w2 := set_rqs _ _ w1). set (t2 := with_on_rq false (with_cpu_affinity set t)).
    assert (task_on w1 p c r1 (with_cpu_affinity set t)) as Hon1 by done.
    destruct (present_task w p c r t Hw Hon) as [Hpid Hlt].
    assert (dropped w1 w2 p) as [Hw2 Hp2] by (eapply dropped_section; try done; apply H1).
    destruct (advances_hint_clear w2 p Hw2) as [Hw3 Hp3]. set (w3 := pid_to_cpu_clear p w2) in *.
    destruct (select_task_rq_allowed w3 cpu t2) as [Hd0 Hd]; [done|done|lia|done|]. unfold add_task.
    set (d := select_task_rq w3 cpu t2) in *. destruct (Hrm d Hd0 Hd) as (rd & Hrd & Hfree & Hsp).
    assert (c <> d) as Hcd by (intros E'; rewrite <- E' in Hd; change (cpuset_is_set set c = true) in Hd; congruence).
    destruct (moved_ok w1 w3 now t2 d p) as (w4 & -> & H4); try done.
    + split; [done|]. intros q. by rewrite Hp3.
    + by exists c, r1, (with_cpu_affinity set t).
    + exists rd. assert (rqs w3 = rqs w2 /\ pid_slot w3 = pid_slot w2) as [-> ->].
      { unfold w3, pid_to_cpu_clear. by destruct (p <? MAX_PIDS). }
      split_and!; [|done|].
      * simpl. by rewrite !lookup_insert_ne.
      * rewrite Hpid in Hsp. unfold t2. simpl. rewrite Hpid. by apply rt_space_delete.
    + exists w4. split; [done|by eapply advances_trans].
Qed.

(** ** Picking and switching *)

Lemma pick_next_task_keeps w cpu r :
  world_wf w -> rqs w !! cpu = Some r ->
  exists w' r' p, SchedCore.pick_next_task w cpu = Done (w', Some p) /\ advances w w' /\
    rqs w' !! cpu = Some r' /\ curr r' = Some p.
Proof.
  intros Hw Hr. destruct (rq_cpu_bound _ _ _ (ww_shape _ Hw) Hr) as [_ Hc].
  destruct (pick_section_ok (pid_slot w) r cpu (global_clock w)) as (r' & p & _ & E & Hk & Hcur & _);
    [by apply (ww_good _ Hw _ _ Hr)|].
  eexists _, r', p. split; [by apply (with_rq_ok w cpu r)|]. split; [by eapply keeps_advances|].
  split; [apply lookup_insert_eq|done].
Qed.

Lemma transaction_ok w cpu r old new ctx count :
  world_wf w -> rqs w !! cpu = Some r -> curr r = Some new \/ curr r = Some old ->
  exists w' r' i, context_switch_transaction w cpu old new ctx count = Done (w', i) /\ advances w w' /\
    rqs w' !! cpu = Some r' /\ (i <> None -> curr r' = Some new) /\ (i = None -> curr r' = curr r).
Proof.
  intros Hw Hr Hcur. destruct (rq_cpu_bound _ _ _ (ww_shape _ Hw) Hr) as [_ Hc].
  destruct (transaction_section_ok (pid_slot w) r cpu (global_clock w) old new ctx count)
    as (r' & i & E & Hk & H1 & H2); [by apply (ww_good _ Hw _ _ Hr)|intros c E; destruct Hcur; naive_solver|].
  unfold context_switch_transaction. rewrite (with_rq_ok w cpu r _ _ _ _ Hc Hr E). cbn [mbind outcome_bind flatten].
  assert (advances w (set_rqs (<[cpu := r']> (rqs w)) (pid_slot w) w)) as Ha by by eapply keeps_advances.
  assert (<[cpu := r']> (rqs w) !! cpu = Some r') as Hl by apply lookup_insert_eq.
  destruct i as [i|]; eexists _, r', _; (split; [done|]); split_and!; try done.
  eapply advances_trans; [done|]. apply advances_current, Ha.
Qed.

Lemma undo_pick_next_ok w cpu r old next :
  world_wf w -> rqs w !! cpu = Some r -> curr r = Some next ->
  exists w' r', undo_pick_next w cpu old next = Done w' /\ advances w w' /\
    rqs w' !! cpu = Some r' /\ curr r' = Some old.
Proof.
  intros Hw Hr Hcur. destruct (rq_cpu_bound _ _ _ (ww_shape _ Hw) Hr) as [_ Hc].
  destruct (undo_section_ok (pid_slot w) r old next) as (r' & E & Hk & H1 & _);
    [by apply (ww_good _ Hw _ _ Hr)|done|].
  unfold undo_pick_next. rewrite (with_rq_ok w cpu r _ _ _ _ Hc Hr E). cbn [mbind outcome_bind].
  eexists _, r'. split; [done|]. split_and!; [by eapply keeps_advances|apply lookup_insert_eq|done].
Qed.

(** The process the handler returns to is the current task of the run queue. *)
Lemma switch_process_ok w cpu r current ctx count :
  world_wf w -> rqs w !! cpu = Some r ->
  exists w' r' p, switch_process w cpu current ctx count = Done (w', p) /\ advances w w' /\
    rqs w' !! cpu = Some r' /\ curr r' = Some p.
Proof.
  intros Hw Hr. unfold switch_process, pick_next_process.
  destruct (pick_next_task_keeps w cpu r Hw Hr) as (w1 & r1 & p & -> & H1 & Hr1 & Hc1).
  cbn [mbind outcome_bind]. destruct (Z.eqb_spec p current) as [->|Hne]; [by exists w1, r1, current|].
  destruct (transaction_ok w1 cpu r1 current p ctx count (adv_wf _ _ H1) Hr1) as (w2 & r2 & i & -> & H2 & Hr2 & Hs & Hn);
    [by left|].
  cbn [mbind outcome_bind]. destruct i as [i|].
  - exists w2, r2, p. split_and!; [done|by eapply advances_trans|done|by apply Hs].
  - destruct (undo_pick_next_ok w2 cpu r2 current p (adv_wf _ _ H2) Hr2) as (w3 & r3 & -> & H3 & Hr3 & Hc3);
      [by rewrite Hn|].
    cbn [mbind outcome_bind]. exists w3, r3, current.
    split_and!; [done|by eapply advances_trans; [|eapply advances_trans]|done|done].
Qed.

Lemma scheduler_tick_ex_ok free w cpu b :
  world_wf w -> clocks_ok w -> cpu < MAX_CPUS -> global_clock w + TICK_NS < U64 ->
  exists w' d, scheduler_tick_ex free w cpu b = Done (w', d) /\ advances w w'.
Proof.
  intros Hw Hcl Hc Hclk. unfold scheduler_tick_ex. set (x := if cpu =? 0 then _ else _).
  assert (exists w1 now, x = Done (w1, now) /\ advances w w1 /\ clocks_ok w1) as (w1 & now & -> & H1 & Hcl1).
  { unfold x. destruct (cpu =? 0).
    - rewrite add64_ok by done. cbn [mbind outcome_bind]. eexists _, _. split; [done|].
      split; [by apply advances_set_clock|done].
    - exists w, (global_clock w). split; [done|]. split; [by apply advances_refl|done]. }
  cbn [mbind outcome_bind]. unfold try_with_rq. destruct (Z.leb_spec MAX_CPUS cpu); [lia|].
  pose proof (adv_wf _ _ H1) as Hw1. destruct (free cpu).
  - destruct (with_rq_keeps w1 cpu (tick_section cpu now b)) as (w2 & a & -> & H2); [done..| |].
    { intros r Hr. destruct (tick_section_ok (pid_slot w1) r cpu now b) as (r' & a & E & Hk & _);
        [by apply (ww_good _ Hw1 _ _ Hr)|by apply (Hcl1 cpu)|eauto]. }
    cbn [mbind outcome_bind]. pose proof (advances_trans _ _ _ H1 H2) as H3.
    destruct a as [[idle d]|]; eexists _, _; (split; [done|]);
      (eapply advances_trans; [exact H3|apply advances_add_tick, H2]).
  - cbn [mbind outcome_bind]. eexists _, _. split; [done|].
    eapply advances_trans; [exact H1|by apply advances_add_tick].
Qed.
