(* ===== verification/SchedSys.v ===== *)
(** * Histories of scheduler calls

    The entry points of [SchedCore] as events, what a caller must respect
    ([permitted], a test), and the theorems on all histories: no task that was
    added is lost, a runnable task is the current one or in the queue of its
    class, and no call panics.

    The events of a history are executed one after the other: the run queue
    locks serialise the critical sections, and an entry point of several sections
    (a migration) is one event. *)
From S2P Require Import Prelude CfsHeap RtQueue CpuSets SchedTask RunQueue RunQueueInv SchedCore SchedInv SchedWorld.

Inductive event :=
| EInitCpu (cpu idle_pid : Z)
| EAdd (this now : Z) (t : Task)
| ERemove (cpu pid : Z)
| EWake (cpu pid : Z)
| EKernelWake (cpu pid : Z)
| ETryWake (free : Z -> bool) (cpu pid : Z)
| EBlock (cpu st : Z)
| EYield (cpu : Z)
| ETick (free : Z -> bool) (cpu : Z) (in_blocking_wait : bool)
| EPick (cpu : Z)
| EUndo (cpu old_pid next_pid : Z)
| ETransaction (cpu old_pid new_pid : Z) (ctx : TaskContext) (count : Z)
| ESwitch (cpu current : Z) (ctx : TaskContext) (count : Z)
| ESwitchTo (cpu new_pid : Z)
| ESetScheduler (cpu pid : Z) (p : SchedPolicy) (priority : Z)
| ESetNice (cpu pid nice : Z)
| ESetAffinity (cpu now pid : Z) (set : CpuSet)
| EWaitChild (cpu pid child : Z)
| EExit (cpu pid status : Z)
| ESteal (free : Z -> bool) (cpu now : Z).

Definition sched_step (w : World) (e : event) : outcome World :=
  match e with
  | EInitCpu cpu idle_pid => init_cpu w cpu idle_pid
  | EAdd this now t => SchedCore.add_task w this now t
  | ERemove cpu pid => '(w, _) ← SchedCore.remove_task w cpu pid; Done w
  | EWake cpu pid => wake_up w cpu pid
  | EKernelWake cpu pid => kernel_wake_up w cpu pid
  | ETryWake free cpu pid => '(w, _) ← try_wake_up free w cpu pid; Done w
  | EBlock cpu st => block_current w cpu st
  | EYield cpu => yield_current w cpu
  | ETick free cpu b => '(w, _) ← scheduler_tick_ex free w cpu b; Done w
  | EPick cpu => '(w, _) ← SchedCore.pick_next_task w cpu; Done w
  | EUndo cpu old_pid next_pid => undo_pick_next w cpu old_pid next_pid
  | ETransaction cpu old_pid new_pid ctx count =>
      '(w, _) ← context_switch_transaction w cpu old_pid new_pid ctx count; Done w
  | ESwitch cpu current ctx count => '(w, _) ← switch_process w cpu current ctx count; Done w
  | ESwitchTo cpu new_pid => switch_to w cpu new_pid
  | ESetScheduler cpu pid p prio => set_scheduler w cpu pid p prio
  | ESetNice cpu pid nice => '(w, _) ← set_task_nice w cpu pid nice; Done w
  | ESetAffinity cpu now pid set => set_affinity w cpu now pid set
  | EWaitChild cpu pid child => set_task_waiting w cpu pid child
  | EExit cpu pid status => set_task_exit_status w cpu pid status
  | ESteal free cpu now => '(w, _) ← idle_try_steal free w cpu now; Done w
  end.

Fixpoint sched_run (w : World) (es : list event) : outcome World :=
  match es with
  | [] => Done w
  | e :: es => w ← sched_step w e; sched_run w es
  end.

(** ** What callers respect *)

(** The real-time tasks of a level other than [pid]. *)
Definition rt_peers (r : RunQueue) (pid : Z) (i : nat) : list Task :=
  filter (fun t => t_pid t <> pid /\ class_of t = Some (QRt i)) (omap id (slots r)).

(** The level of a real-time task has room on the run queue, counting the tasks
    that sleep. *)
Definition rt_space_b (r : RunQueue) (pid : Z) (c : option qclass) : bool :=
  match c with
  | Some (QRt i) => bool_decide (length (rt_peers r pid i) < MAX_RT_PER_PRIO)%nat
  | _ => true
  end.

Definition has_room_b (w : World) (t : Task) (c : Z) : bool :=
  match rqs w !! c with
  | Some r => bool_decide (free_stack r <> []) && rt_space_b r (t_pid t) (class_of t)
  | None => false
  end.

(** The task of [pid] with the run queue it is on. *)
Definition find_task (w : World) (pid : Z) : option (RunQueue * Task) :=
  head (omap (fun c => r ← rqs w !! c; t ← slot_get (pid_slot w) r pid; Some (r, t)) (all_cpus w)).

(** Virtual runtimes and execution times stay clear of the end of their range. *)
Definition rq_clocks_b (r : RunQueue) : bool :=
  bool_decide (min_vruntime (cfs_rq r) + 1000000 < U64) &&
  forallb (fun t => bool_decide (vruntime t + 1000000 < U64) && bool_decide (sum_exec_runtime t + TICK_NS < U64))
    (omap id (slots r)).

Definition clocks_b (w : World) : bool :=
  bool_decide (global_clock w + TICK_NS < U64) && forallb rq_clocks_b (snd <$> map_to_list (rqs w)).

Definition is_running_or_queued (r : RunQueue) (t : Task) : bool :=
  on_rq t || bool_decide (curr r = Some (t_pid t)).

(** [cpu] has a run queue. *)
Definition online (w : World) (cpu : Z) : bool := bool_decide (is_Some (rqs w !! cpu)).

Definition permitted (w : World) (e : event) : bool :=
  match e with
  | EInitCpu cpu _ => bool_decide (cpu = active_cpus w) && bool_decide (cpu < MAX_CPUS)
  | EAdd this _ t =>
      bool_decide (t_pid t < MAX_PIDS) && negb (on_rq t) && bool_decide (find_task w (t_pid t) = None) &&
      has_room_b w t (select_task_rq w this t)
  | ERemove cpu pid =>
      online w cpu &&
      from_option (fun '(_, t) => negb (on_rq t) || bool_decide (is_Some (class_of t))) true (find_task w pid)
  | EWake cpu _ | EKernelWake cpu _ | ETryWake _ cpu _ | ETick _ cpu _ => online w cpu && clocks_b w
  | EUndo cpu _ next_pid => bool_decide (rqs w !! cpu ≫= curr = Some next_pid)
  | ETransaction cpu old_pid new_pid _ _ =>
      bool_decide (rqs w !! cpu ≫= curr = Some old_pid \/ rqs w !! cpu ≫= curr = Some new_pid)
  | EBlock cpu _ | EYield cpu | EPick cpu | ESwitch cpu _ _ _ | ESwitchTo cpu _ | ESetNice cpu _ _ | EExit cpu _ _ => online w cpu
  | ESetScheduler cpu pid p prio =>
      online w cpu &&
      from_option (fun '(r, t) =>
        rt_space_b r pid (class_of (with_scheduler p prio t)) &&
        (negb (is_runnable (state t)) || is_running_or_queued r t)) true (find_task w pid)
  | ESetAffinity cpu _ pid set =>
      online w cpu && bool_decide (length set = 4%nat) && forallb (fun x => (0 <=? x) && (x <? U64)) set &&
      negb (cpuset_is_empty set) &&
      from_option (fun '(_, t) => (0 <=? last_cpu t) &&
        forallb (fun d => negb (cpuset_is_set set d) || has_room_b w t d) (seqZ 0 256)) true (find_task w pid)
  | EWaitChild cpu pid child =>
      online w cpu &&
      from_option (fun '(r, t) => negb (is_runnable (state (wait_for_child child t))) || is_running_or_queued r t)
        true (find_task w pid)
  | ESteal _ cpu _ => from_option (fun r => bool_decide (free_stack r <> [])) false (rqs w !! cpu)
  end.

Fixpoint permitted_run (w : World) (es : list event) : bool :=
  match es with
  | [] => true
  | e :: es => permitted w e && match sched_step w e with Done w => permitted_run w es | _ => true end
  end.

(** The pids added and not removed. *)
Definition residents (s : gset Z) (e : event) : gset Z :=
  match e with
  | EAdd _ _ t => {[t_pid t]} ∪ s
  | ERemove _ pid => s ∖ {[pid]}
  | _ => s
  end.

(** ** The tests decide what they stand for *)

Lemma rt_space_b_ok m r p c : slots_wf m r -> rt_space_b r p c = true -> rt_space m r p c.
Proof.
  intros Hs Hb i l -> Hnd Hni Hl. simpl in Hb. apply bool_decide_eq_true in Hb.
  eapply Nat.le_lt_trans; [|exact Hb]. rewrite <- (length_fmap t_pid). apply submseteq_length.
  apply NoDup_submseteq; [done|]. intros q Hq. specialize (Hl q Hq). unfold cls in Hl.
  destruct (slot_get m r q) as [t|] eqn:Et; [|done]. simpl in Hl.
  destruct (slot_get_inv _ _ _ _ Et) as (s & _ & Hst & <-). apply list_elem_of_fmap. exists t. split; [done|].
  apply list_elem_of_filter. split; [split; [by intros E; rewrite E in Hq|done]|].
  apply list_elem_of_omap. exists (Some t). split; [by eapply list_elem_of_lookup_2|done].
Qed.

Lemma has_room_b_ok w t c : world_wf w -> has_room_b w t c = true -> has_room w t c.
Proof.
  intros Hw. unfold has_room_b. destruct (rqs w !! c) as [r|] eqn:Er; [|done].
  rewrite andb_true_iff, bool_decide_eq_true. intros [Hf Hs]. exists r. split_and!; [done..|].
  apply rt_space_b_ok; [|done]. apply (ww_good _ Hw _ _ Er).
Qed.

Lemma find_task_on w p c r t : world_shape w -> task_on w p c r t -> find_task w p = Some (r, t).
Proof.
  intros Hw Hon. unfold find_task. pose proof Hon as [Hr Ht].
  destruct (task_on_cpu _ _ _ _ _ Hw Hon) as [Hin _]. induction (all_cpus w) as [|d l IH]; [by apply elem_of_nil in Hin|].
  csimpl. destruct (decide (d = c)) as [->|Hne]; [rewrite Hr; simpl; by rewrite Ht|].
  apply elem_of_cons in Hin as [?|Hin]; [by subst|].
  destruct (rqs w !! d) as [rd|] eqn:Ed; simpl; [|by apply IH].
  rewrite (task_on_other w p c r t d rd) by done. by apply IH.
Qed.

Lemma find_task_none w p : world_shape w -> find_task w p = None -> nowhere w p.
Proof.
  intros Hw Hf. destruct (present_or_nowhere w p) as [(c & r & t & Hon)|]; [|done].
  by rewrite (find_task_on _ _ _ _ _ Hw Hon) in Hf.
Qed.

Lemma online_ok w cpu : world_shape w -> online w cpu = true -> exists r, rqs w !! cpu = Some r /\ 0 <= cpu < MAX_CPUS.
Proof.
  intros Hw [r Hr]%bool_decide_eq_true. exists r. split; [done|].
  destruct (rq_cpu_bound _ _ _ Hw Hr). lia.
Qed.

Lemma clocks_b_ok w : clocks_b w = true -> clocks_ok w /\ global_clock w + TICK_NS < U64.
Proof.
  unfold clocks_b. rewrite andb_true_iff, bool_decide_eq_true, forallb_forall. intros [Hg Hall]. split; [|done].
  intros c r Hr. specialize (Hall r). unfold rq_clocks_b in Hall.
  rewrite andb_true_iff, bool_decide_eq_true, forallb_forall in Hall.
  destruct Hall as [Hmin Ht].
  { apply list_elem_of_In, list_elem_of_fmap. exists (c, r). split; [done|]. by apply elem_of_map_to_list. }
  assert (forall p t, slot_get (pid_slot w) r p = Some t ->
    vruntime t + 1000000 < U64 /\ sum_exec_runtime t + TICK_NS < U64) as Hslot.
  { intros p t Hp. destruct (slot_get_inv _ _ _ _ Hp) as (s & _ & Hst & _). specialize (Ht t).
    rewrite andb_true_iff, !bool_decide_eq_true in Ht. apply Ht.
    apply list_elem_of_In, list_elem_of_omap. exists (Some t). split; [by eapply list_elem_of_lookup_2|done]. }
  split; [split|]; [done|..]; intros p t Hp; by destruct (Hslot p t Hp).
Qed.

(** ** One step *)

(** The outcome of a permitted event: the invariant, and the tasks expected. *)
Definition step_ok (w : World) (e : event) : Prop :=
  exists w', sched_step w e = Done w' /\ world_wf w' /\
    forall s : gset Z, (forall p, present w p <-> p ∈ s) -> forall p, present w' p <-> p ∈ residents s e.

(** An event that keeps the set of tasks. *)
Lemma step_ok_advances w e w' :
  sched_step w e = Done w' -> advances w w' -> (forall s, residents s e = s) -> step_ok w e.
Proof.
  intros E [Hw Hp] Hres. exists w'. split_and!; [done..|]. intros s Hs p. by rewrite Hres, Hp.
Qed.

(** A section on the run queue of [cpu], or on that of the task [p]. *)
Lemma step_ok_rq {A} w e cpu (f : section A) (g : World -> World) :
  (forall w' a, with_rq w cpu f = Done (w', a) -> sched_step w e = Done (g w')) ->
  (forall w', world_wf w' -> advances w' (g w')) -> (forall s, residents s e = s) ->
  world_wf w -> online w cpu = true ->
  (forall r, rq_good (pid_slot w) r -> exists r' a, f (pid_slot w) r = Done (pid_slot w, r', a) /\ keeps (pid_slot w) r r') ->
  step_ok w e.
Proof.
  intros Hstep Hg Hres Hw Hon Hf. destruct (online_ok _ _ (ww_shape _ Hw) Hon) as (_ & _ & Hc).
  destruct (with_rq_keeps w cpu f Hw) as (w' & a & E & Ha); [lia| |].
  { intros r Hr. apply Hf. by apply (ww_good _ Hw _ _ Hr). }
  eapply step_ok_advances; [by eapply Hstep| |done]. eapply advances_trans; [done|]. apply Hg, Ha.
Qed.

Lemma step_ok_task {A} w e cpu p (f : section (option A)) :
  (forall w' a, with_task_on_any_cpu w cpu p f = Done (w', a) -> sched_step w e = Done w') ->
  (forall s, residents s e = s) -> world_wf w -> online w cpu = true -> local_to p f ->
  (forall r t, find_task w p = Some (r, t) -> rq_good (pid_slot w) r -> slot_get (pid_slot w) r p = Some t ->
     exists r' a, f (pid_slot w) r = Done (pid_slot w, r', Some a) /\ keeps (pid_slot w) r r') ->
  step_ok w e.
Proof.
  intros Hstep Hres Hw Hon Hloc Hf. destruct (online_ok _ _ (ww_shape _ Hw) Hon) as (_ & _ & Hc).
  destruct (with_task_keeps w cpu p f Hw) as (w' & a & E & Ha); [lia|done| |].
  { intros c r t Ht. apply (Hf r t).
    - by apply (find_task_on w p c); [apply Hw|].
    - destruct Ht as [Hr _]. by apply (ww_good _ Hw _ _ Hr).
    - apply Ht. }
  eapply step_ok_advances; [by eapply Hstep|done|done].
Qed.

Lemma add_step_ok w this now t :
  world_wf w -> permitted w (EAdd this now t) = true -> step_ok w (EAdd this now t).
Proof.
  intros Hw. simpl. rewrite !andb_true_iff, !bool_decide_eq_true, negb_true_iff.
  intros [[[Hlt Hoff] Hno] Hroom]. apply find_task_none in Hno; [|apply Hw].
  destruct (add_task_to_cpu_ok w now t (select_task_rq w this t)) as (w' & E & Hw' & Hp & _); try done.
  { by apply has_room_b_ok. }
  exists w'. split_and!; [done..|]. intros s Hs p. rewrite Hp, Hs. simpl. set_solver.
Qed.

Lemma remove_step_ok w cpu pid :
  world_wf w -> permitted w (ERemove cpu pid) = true -> step_ok w (ERemove cpu pid).
Proof.
  intros Hw. simpl. rewrite andb_true_iff. intros [Hon Hok].
  destruct (online_ok _ _ (ww_shape _ Hw) Hon) as (_ & _ & Hc).
  destruct (world_remove_task_ok w cpu pid Hw) as (w' & a & E & [Hw' Hp] & _); [lia| |].
  { intros c r t Ht Hq. rewrite (find_task_on _ _ _ _ _ (ww_shape _ Hw) Ht) in Hok. simpl in Hok.
    rewrite Hq in Hok. by apply bool_decide_eq_true in Hok. }
  exists w'. split_and!; [simpl; by rewrite E|done|]. intros s Hs p. rewrite Hp, Hs. simpl. set_solver.
Qed.

Lemma wake_step_ok w cpu e f :
  world_wf w -> online w cpu && clocks_b w = true -> (forall s, residents s e = s) ->
  (world_wf w -> cpu < MAX_CPUS -> clocks_ok w ->
     exists w', f w = Done w' /\ advances w w') ->
  sched_step w e = f w -> step_ok w e.
Proof.
  intros Hw [Hon Hcl]%andb_true_iff Hres Hf Estep. apply clocks_b_ok in Hcl as [Hcl _].
  destruct (online_ok _ _ (ww_shape _ Hw) Hon) as (_ & _ & Hc).
  destruct Hf as (w' & E & Ha); [done|lia|done|]. eapply step_ok_advances; [by rewrite Estep|done|done].
Qed.

Lemma tick_step_ok w free cpu b :
  world_wf w -> permitted w (ETick free cpu b) = true -> step_ok w (ETick free cpu b).
Proof.
  intros Hw [Hon Hcl]%andb_true_iff. apply clocks_b_ok in Hcl as [Hcl Hclk].
  destruct (online_ok _ _ (ww_shape _ Hw) Hon) as (_ & _ & Hc).
  destruct (scheduler_tick_ex_ok free w cpu b Hw Hcl) as (w' & d & E & Ha); [lia|done|].
  eapply step_ok_advances; [simpl; by rewrite E|done|done].
Qed.

Lemma affinity_step_ok w cpu now pid set :
  world_wf w -> permitted w (ESetAffinity cpu now pid set) = true -> step_ok w (ESetAffinity cpu now pid set).
Proof.
  intros Hw. cbn [permitted]. rewrite !andb_true_iff, bool_decide_eq_true, negb_true_iff, forallb_forall.
  intros [[[[Hon Hlen] Hwords] Hne] Hroom]. destruct (online_ok _ _ (ww_shape _ Hw) Hon) as (_ & _ & Hc).
  assert (cpuset_wf set) as Hset.
  { split; [done|]. apply Forall_forall. intros x Hx%list_elem_of_In. apply Hwords in Hx. lia. }
  destruct (set_affinity_ok w cpu now pid set Hw Hc Hset Hne) as (w' & E & Ha).
  { intros c r t Ht. rewrite (find_task_on _ _ _ _ _ (ww_shape _ Hw) Ht) in Hroom. cbn [from_option] in Hroom.
    rewrite andb_true_iff, forallb_forall in Hroom. destruct Hroom as [Hlast Hroom]. split; [lia|].
    intros d Hd Hin. pose proof (is_set_range set d Hset Hd Hin).
    specialize (Hroom d). rewrite Hin in Hroom. apply has_room_b_ok, Hroom; [done|].
    apply list_elem_of_In, elem_of_seqZ. lia. }
  by eapply step_ok_advances.
Qed.

Lemma running_or_queued_ok m r p t :
  slot_get m r p = Some t -> is_running_or_queued r t = true -> on_rq t = true \/ curr r = Some p.
Proof.
  intros Ht [?|Hc%bool_decide_eq_true]%orb_true_iff; [by left|right]. by rewrite (slot_get_pid _ _ _ _ Ht) in Hc.
Qed.

Lemma set_scheduler_step_ok w cpu pid p prio :
  world_wf w -> permitted w (ESetScheduler cpu pid p prio) = true -> step_ok w (ESetScheduler cpu pid p prio).
Proof.
  intros Hw [Hon Hok]%andb_true_iff. eapply (step_ok_task w _ cpu pid (set_scheduler_section pid p prio)); try done.
  - intros w' a E. simpl. unfold set_scheduler. by rewrite E.
  - intros m r H. unfold set_scheduler_section. by rewrite H.
  - intros r t Hf Hg Ht. rewrite Hf in Hok. simpl in Hok. apply andb_true_iff in Hok as [Hsp Hr].
    destruct (set_scheduler_section_ok (pid_slot w) r pid p prio t) as (r' & E & Hk & _); try done.
    + apply rt_space_b_ok; [apply Hg|done].
    + intros Hrun. rewrite Hrun in Hr. by eapply running_or_queued_ok.
    + by exists r', tt.
Qed.

Lemma update_step_ok w e cpu pid f :
  (forall w' a, with_task_on_any_cpu w cpu pid (update_task pid f) = Done (w', a) -> sched_step w e = Done w') ->
  (forall s, residents s e = s) -> world_wf w -> online w cpu = true -> keeps_class f ->
  (forall r t, find_task w pid = Some (r, t) -> rq_good (pid_slot w) r -> slot_get (pid_slot w) r pid = Some t ->
     is_runnable (state (f t)) = true -> is_Some (class_of t) -> on_rq t = true \/ curr r = Some pid) ->
  step_ok w e.
Proof.
  intros Hstep Hres Hw Hon Hk Hlive. eapply (step_ok_task w e cpu pid); try done; [apply update_task_local|].
  intros r t Hf Hg Ht. destruct (update_task_ok (pid_slot w) r pid f Hg Hk) as (r' & E & Hk' & _).
  { intros u Hu. assert (u = t) as -> by congruence. by apply Hlive. }
  rewrite Ht in E. by exists r', tt.
Qed.

Lemma steal_step_ok w free cpu now :
  world_wf w -> permitted w (ESteal free cpu now) = true -> step_ok w (ESteal free cpu now).
Proof.
  intros Hw. simpl. destruct (rqs w !! cpu) as [r|] eqn:Er; [|done]. simpl. rewrite bool_decide_eq_true. intros Hf.
  destruct (idle_try_steal_ok free w cpu now r Hw Er Hf) as (w' & b & E & Ha).
  eapply step_ok_advances; [simpl; by rewrite E|done|done].
Qed.

Lemma section_step_ok w e cpu (f : section unit) :
  (forall w' a, with_rq w cpu f = Done (w', a) -> sched_step w e = Done w') ->
  (forall s, residents s e = s) -> world_wf w -> online w cpu = true ->
  (forall r, rq_good (pid_slot w) r -> exists r', f (pid_slot w) r = Done (pid_slot w, r', tt) /\ keeps (pid_slot w) r r') ->
  step_ok w e.
Proof.
  intros Hstep Hres Hw Hon Hf. eapply (step_ok_rq w e cpu f id); try done.
  intros r Hg. destruct (Hf r Hg) as (r' & E & Hk). by exists r', tt.
Qed.

Lemma sched_step_ok w e : world_wf w -> permitted w e = true -> step_ok w e.
Proof.
  intros Hw Hp. destruct e as [cpu idle_pid|this now t|cpu pid|cpu pid|cpu pid|free cpu pid|cpu st|cpu|free cpu b
    |cpu|cpu old next|cpu old new ctx count|cpu current ctx count|cpu new_pid|cpu pid p prio|cpu pid nice|cpu now pid set|cpu pid child|cpu pid status|free cpu now].
  - simpl in Hp. rewrite andb_true_iff, !bool_decide_eq_true in Hp. destruct Hp as [-> Hlt].
    destruct (init_cpu_ok w idle_pid Hw Hlt) as (w' & E & Ha). by eapply step_ok_advances.
  - by apply add_step_ok.
  - by apply remove_step_ok.
  - eapply (wake_step_ok w cpu _ (fun w => wake_up w cpu pid)); try done. intros ? Hc Hcl.
    destruct (wake_up_ok w cpu pid Hw Hc Hcl) as (w' & E & Ha & _). eauto.
  - eapply (wake_step_ok w cpu _ (fun w => kernel_wake_up w cpu pid)); try done. intros ? Hc Hcl.
    destruct (kernel_wake_up_ok w cpu pid Hw Hc Hcl) as (w' & E & Ha & _). eauto.
  - eapply (wake_step_ok w cpu _ (fun w => '(w, _) ← try_wake_up free w cpu pid; Done w)); try done. intros ? Hc Hcl.
    destruct (try_wake_up_ok free w cpu pid Hw Hcl Hc) as (w' & b & -> & Ha & _). eauto.
  - eapply (section_step_ok w _ cpu (block_section st)); try done.
    + intros w' a E. simpl. unfold block_current. by rewrite E.
    + intros r Hg. destruct (block_section_ok (pid_slot w) r st Hg) as (r' & E & Hk & _). eauto.
  - eapply (section_step_ok w _ cpu yield_section); try done.
    + intros w' a E. simpl. unfold yield_current. by rewrite E.
    + intros r Hg. destruct (yield_section_ok (pid_slot w) r Hg) as (r' & E & Hk & _). eauto.
  - by apply tick_step_ok.
  - destruct (online_ok _ _ (ww_shape _ Hw) Hp) as (r & Hr & _).
    destruct (pick_next_task_keeps w cpu r Hw Hr) as (w' & r' & p & E & Ha & _).
    eapply step_ok_advances; [simpl; by rewrite E|done|done].
  - apply bool_decide_eq_true, bind_Some in Hp as (r & Hr & Hc).
    destruct (undo_pick_next_ok w cpu r old next Hw Hr Hc) as (w' & r' & E & Ha & _).
    by eapply step_ok_advances.
  - apply bool_decide_eq_true in Hp.
    assert (exists r, rqs w !! cpu = Some r /\ (curr r = Some new \/ curr r = Some old)) as (r & Hr & Hc).
    { destruct Hp as [(r & Hr & Hc)%bind_Some|(r & Hr & Hc)%bind_Some]; eauto. }
    destruct (transaction_ok w cpu r old new ctx count Hw Hr Hc) as (w' & r' & i & E & Ha & _).
    eapply step_ok_advances; [simpl; by rewrite E|done|done].
  - destruct (online_ok _ _ (ww_shape _ Hw) Hp) as (r & Hr & _).
    destruct (switch_process_ok w cpu r current ctx count Hw Hr) as (w' & r' & p & E & Ha & _).
    eapply step_ok_advances; [simpl; by rewrite E|done|done].
  - eapply (step_ok_rq w _ cpu (fun (m : PidToSlot) (r : RunQueue) => switch_section cpu (global_clock w) (curr r) new_pid m r)
      (set_current_pid_lockfree cpu new_pid)); try done.
    + intros w' a E. simpl. unfold switch_to. by rewrite E.
    + intros w' Hw'. by apply advances_current.
    + intros r Hg. destruct (switch_section_ok (pid_slot w) r cpu (global_clock w) (curr r) new_pid Hg)
        as (r' & E & Hk & _); [by right|]. eauto.
  - by apply set_scheduler_step_ok.
  - eapply (update_step_ok w _ cpu pid (set_nice nice)); try done.
    + intros w' a E. simpl. unfold set_task_nice. by rewrite E.
    + intros r t _ Hg Ht Hr Hc. by apply (good_live _ _ Hg pid t).
  - by apply affinity_step_ok.
  - simpl in Hp. apply andb_true_iff in Hp as [Hon Hok].
    eapply (update_step_ok w _ cpu pid (wait_for_child child)); try done.
    + intros w' a E. simpl. unfold set_task_waiting. by rewrite E.
    + intros t. unfold wait_for_child. by destruct (child =? 0).
    + intros r t Hf Hg Ht Hr Hc. rewrite Hf in Hok. simpl in Hok. rewrite Hr in Hok.
      by eapply running_or_queued_ok.
  - eapply (step_ok_task w _ cpu pid (exit_section pid status)); try done.
    + intros w' a E. simpl. unfold set_task_exit_status. by rewrite E.
    + intros m r H. unfold exit_section. by rewrite H.
    + intros r t _ Hg Ht. destruct (exit_section_ok (pid_slot w) r pid status t Hg Ht) as (r' & E & Hk & _). eauto.
  - by apply steal_step_ok.
Qed.

Lemma sched_run_ok es : forall w s,
  world_wf w -> (forall p, present w p <-> p ∈ s) -> permitted_run w es = true ->
  exists w', sched_run w es = Done w' /\ world_wf w' /\ forall p, present w' p <-> p ∈ foldl residents s es.
Proof.
  induction es as [|e es IH]; intros w s Hw Hs Hp; simpl; [by exists w|].
  simpl in Hp. apply andb_true_iff in Hp as [Hp1 Hp2].
  destruct (sched_step_ok w e Hw Hp1) as (w1 & E & Hw1 & Hres). rewrite E in Hp2 |- *. cbn [mbind outcome_bind].
  apply IH; try done. by apply Hres.
Qed.

(** A permitted history followed by a permitted event. *)
Lemma sched_run_then es e :
  permitted_run boot_world (es ++ [e]) = true ->
  exists w, sched_run boot_world es = Done w /\ world_wf w /\ permitted w e = true /\
    forall p, present w p <-> p ∈ foldl residents ∅ es.
Proof.
  assert (forall w s, world_wf w -> (forall p, present w p <-> p ∈ s) -> permitted_run w (es ++ [e]) = true ->
    exists w', sched_run w es = Done w' /\ world_wf w' /\ permitted w' e = true /\
      forall p, present w' p <-> p ∈ foldl residents s es) as Hgen.
  { induction es as [|x es IH]; intros w s Hw Hs Hp; simpl in Hp; apply andb_true_iff in Hp as [Hp1 Hp2];
      simpl; [by exists w|].
    destruct (sched_step_ok w x Hw Hp1) as (w1 & E & Hw1 & Hres). rewrite E in Hp2 |- *. cbn [mbind outcome_bind].
    apply IH; try done. by apply Hres. }
  apply Hgen; [apply boot_world_wf|]. intros p. rewrite elem_of_empty. split; [|done].
  intros (c & r & t & Hr & _). simpl in Hr. by rewrite lookup_empty in Hr.
Qed.

(** The task [p] is in the queue of the class [k] of [r]. *)
Definition in_queue (r : RunQueue) (p : Z) (k : qclass) : Prop :=
  match k with QRt i => p ∈ level (rt_rq r) i | QFair => p ∈ fair_pids (cfs_rq r) end.

Lemma on_rq_in_queue m r p t k :
  rq_wf m r -> slot_get m r p = Some t -> on_rq t = true -> class_of t = Some k -> in_queue r p k.
Proof.
  intros [_ Hq] Ht Hon Hc. assert (qstate m r p = Some k) as E.
  { unfold qstate, queued. rewrite Ht. simpl. by rewrite Hon. }
  destruct k; simpl; [by apply (qwf_level _ _ _ _ Hq)|by apply (qwf_fair _ _ _ _ Hq)].
Qed.

(** ** Theorems *)

(** Two CPUs, two fair tasks and a real-time one; the tasks run, sleep, are woken
    from the other CPU, change their policy, are stolen and migrate. *)
Definition example_history : list event :=
  [ EInitCpu 0 0; EInitCpu 1 1; EAdd 0 5 (task_new 10 1); EAdd 0 5 (task_new 11 1);
    EAdd 0 5 (with_scheduler Fifo 50 (task_new 12 1)); EAdd 0 5 (task_new 13 1);
    ESwitch 0 0 default_context 0; ETick (fun _ => true) 0 false; EBlock 0 TASK_INTERRUPTIBLE; EPick 0;
    ETryWake (fun c => c =? 1) 1 12; ESetScheduler 0 11 RoundRobin 7; ESteal (fun _ => true) 1 9;
    ESetAffinity 0 7 11 (cpuset_single 1); EYield 0; EExit 0 13 0; ERemove 1 13 ].

(** C2.  No task is lost.  After any history of permitted calls the scheduler has
    not panicked, and every task that was added and not removed is on exactly one
    CPU; if it is runnable and has a scheduling class, it is the current task
    there or in the queue of its class: the level of its priority if it is a
    real-time task, the heap if it is a fair one. *)
Theorem sched_no_task_lost (es : list event) :
  permitted_run boot_world es = true ->
  exists w, sched_run boot_world es = Done w /\
    forall p, p ∈ foldl residents ∅ es ->
      exists c r t, rqs w !! c = Some r /\ slot_get (pid_slot w) r p = Some t /\
        (forall d rd, rqs w !! d = Some rd -> is_Some (slot_get (pid_slot w) rd p) -> d = c) /\
        (forall k, is_runnable (state t) = true -> class_of t = Some k ->
           curr r = Some p \/ in_queue r p k).
Proof.
  intros Hp. destruct (sched_run_ok es boot_world ∅ boot_world_wf) as (w & E & Hw & Hres); [|done|].
  { intros p. rewrite elem_of_empty. split; [|done]. intros (c & r & t & Hr & _). simpl in Hr.
    by rewrite lookup_empty in Hr. }
  exists w. split; [done|]. intros p (c & r & t & Hr & Ht)%Hres. destruct (ww_good _ Hw _ _ Hr) as [Hg _].
  exists c, r, t. split_and!; [done..| |].
  - intros d rd Hd Hs. by eapply (ws_one _ (ww_shape _ Hw)); eauto.
  - intros k Hr' Hc. destruct (good_live _ _ Hg p t Ht Hr') as [Hon|]; [by eauto| |by left].
    right. eapply on_rq_in_queue; try done. apply Hg.
Qed.

Lemma sched_no_task_lost_witness :
  exists w, sched_run boot_world example_history = Done w /\
    exists c r t, rqs w !! c = Some r /\ slot_get (pid_slot w) r 11 = Some t /\
      (forall d rd, rqs w !! d = Some rd -> is_Some (slot_get (pid_slot w) rd 11) -> d = c) /\
      (forall k, is_runnable (state t) = true -> class_of t = Some k -> curr r = Some 11 \/ in_queue r 11 k).
Proof.
  destruct (sched_no_task_lost example_history) as (w & E & H); [by vm_compute|].
  exists w. split; [exact E|]. apply H. by vm_compute.
Defined.







(** ** Calls that are not permitted

    The conditions of [permitted] are needed: without them tasks do get lost. *)

(** What a caller sees of the task [pid] after a history. *)
Definition observe {A} (es : list event) (pid : Z) (f : RunQueue -> Task -> A) : outcome (option A) :=
  w ← sched_run boot_world es; Done ((fun x => f (fst x) (snd x)) <$> find_task w pid).

(** An affinity mask of CPUs that are all offline takes a queued task off its run
    queue and puts it on none. *)
Example affinity_offline_loses_task :
  observe [EInitCpu 0 0; EAdd 0 5 (task_new 10 1); EAdd 0 5 (task_new 11 1);
           ESetAffinity 0 7 11 (cpuset_single 5)] 11 (fun _ t => state t) = Done None.
Proof. by vm_compute. Qed.

(** The ninth real-time task of a priority is marked as queued and is in no queue. *)
Example ninth_rt_task_lost :
  observe (EInitCpu 0 0 :: ((fun p => EAdd 0 5 (with_scheduler Fifo 50 (task_new p 1))) <$> seqZ 10 9)) 18
    (fun r t => (on_rq t, bool_decide (18 ∈ level (rt_rq r) 49))) = Done (Some (true, false)).
Proof. by vm_compute. Qed.

(** A wake-up that comes after the exit makes a zombie runnable again. *)
Example wake_up_revives_zombie :
  observe [EInitCpu 0 0; EAdd 0 5 (task_new 10 1); EExit 0 10 0; EWake 0 10] 10
    (fun r t => (is_runnable (state t), bool_decide (10 ∈ fair_pids (cfs_rq r)))) = Done (Some (true, true)).
Proof. by vm_compute. Qed.
