(* ===== verification/SchedTypes.v ===== *)
(** * Machine widths of the scheduler's state

    The scheduler's fields are modelled as integers.  This file gives each of
    them the range of its type in the source ([u8], [u32], [u64], [i8], [i32],
    [u128] and the array lengths) and shows that every call that returns leaves
    every field in its range, whatever the caller does: the additions that can
    overflow panic, saturate or wrap where the source says so. *)
From S2P Require Import Prelude CfsHeap RtQueue CpuSets SchedTask RunQueue RunQueueInv SchedCore SchedSys.

Definition u8 (x : Z) : Prop := 0 <= x < 2 ^ 8.
Definition u32 (x : Z) : Prop := 0 <= x < U32.
Definition u64 (x : Z) : Prop := 0 <= x < U64.
Definition u128 (x : Z) : Prop := 0 <= x < 2 ^ 128.
Definition i8 (x : Z) : Prop := - 2 ^ 7 <= x < 2 ^ 7.
Definition i32 (x : Z) : Prop := - 2 ^ 31 <= x < 2 ^ 31.

Record context_typed (c : TaskContext) : Prop := {
  ct_rip : u64 (rip c); ct_rsp : u64 (rsp c); ct_cs : u64 (cs c)
}.

Record task_typed (t : Task) : Prop := {
  tt_pid : u32 (t_pid t);
  tt_ppid : u32 (ppid t);
  tt_state : u32 (state t);
  tt_context : context_typed (context t);
  tt_rt_priority : u8 (rt_priority t);
  tt_time_slice : u32 (time_slice t);
  tt_nice : i8 (nice t);
  tt_weight : u64 (weight t);
  tt_vruntime : u64 (vruntime t);
  tt_affinity : cpuset_wf (cpu_affinity t);
  tt_last_cpu : u32 (last_cpu t);
  tt_exec_start : u64 (exec_start t);
  tt_sum : u64 (sum_exec_runtime t);
  tt_start : u64 (start_time t);
  tt_preempt : u32 (preempt_count t);
  tt_child : u32 (first_child t);
  tt_next : u32 (sibling_next t);
  tt_prev : u32 (sibling_prev t);
  tt_exit : i32 (exit_status t);
  tt_waiting : i32 (waiting_for_child t)
}.

Record cfs_typed (q : CfsRunQueue) : Prop := {
  ft_heap : Forall (fun e => u64 (ce_vruntime e) /\ u32 (ce_pid e)) (heap q);
  ft_array : length (heap q) = MAX_CFS_TASKS;
  ft_load : u64 (load_weight q);
  ft_min : u64 (min_vruntime q);
  ft_nr : u32 (cfs_nr_running q)
}.

Record rt_typed (q : RtRunQueue) : Prop := {
  rt_rows : Forall (fun row => length row = MAX_RT_PER_PRIO /\ Forall u32 row) (queues q);
  rt_levels : length (queues q) = RT_PRIO_LEVELS /\ length (queue_lens q) = RT_PRIO_LEVELS;
  rt_lens : Forall (fun n => u8 (Z.of_nat n)) (queue_lens q);
  rt_bits : u128 (bitmap q);
  rt_count : u32 (rt_nr_running q)
}.

Record rq_typed (r : RunQueue) : Prop := {
  rqt_cpu : u32 (rq_cpu r);
  rqt_curr : from_option u32 True (curr r);
  rqt_idle : u32 (idle r);
  rqt_nr : u32 (nr_running r);
  rqt_rt : rt_typed (rt_rq r);
  rqt_cfs : cfs_typed (cfs_rq r);
  rqt_clock : u64 (clock r);
  rqt_slots : Forall (from_option task_typed True) (slots r);
  rqt_array : length (slots r) = MAX_TASKS_PER_RQ
}.

Record world_typed (w : World) : Prop := {
  wt_rqs : map_Forall (fun c r => u32 c /\ rq_typed r) (rqs w);
  wt_hints : map_Forall (fun p c => u32 c) (pid_cpu w);
  wt_current : map_Forall (fun c p => u32 p) (current_pids w);
  wt_active : u32 (active_cpus w);
  wt_clock : u64 (global_clock w);
  wt_ticks : map_Forall (fun _ n => u64 n) (cpu_tick_ns w)
}.

Definition event_typed (e : event) : Prop :=
  match e with
  | EInitCpu cpu idle_pid => u32 cpu /\ u32 idle_pid
  | EAdd this now t => u32 this /\ u64 now /\ task_typed t
  | ERemove cpu pid | EWake cpu pid | EKernelWake cpu pid | ETryWake _ cpu pid => u32 cpu /\ u32 pid
  | EBlock cpu st => u32 cpu /\ u32 st
  | EYield cpu | ETick _ cpu _ | EPick cpu => u32 cpu
  | EUndo cpu old_pid next_pid => u32 cpu /\ u32 old_pid /\ u32 next_pid
  | ETransaction cpu old_pid new_pid ctx count =>
      u32 cpu /\ u32 old_pid /\ u32 new_pid /\ context_typed ctx /\ u64 count
  | ESwitch cpu current ctx count => u32 cpu /\ u32 current /\ context_typed ctx /\ u64 count
  | ESwitchTo cpu new_pid => u32 cpu /\ u32 new_pid
  | ESetScheduler cpu pid _ prio => u32 cpu /\ u32 pid /\ u8 prio
  | ESetNice cpu pid nice => u32 cpu /\ u32 pid /\ i8 nice
  | ESetAffinity cpu now pid set => u32 cpu /\ u64 now /\ u32 pid /\ cpuset_wf set
  | EWaitChild cpu pid child => u32 cpu /\ u32 pid /\ i32 child
  | EExit cpu pid status => u32 cpu /\ u32 pid /\ i32 status
  | ESteal _ cpu now => u32 cpu /\ u64 now
  end.

(** ** Postconditions of the calls that return *)

Definition returns {A} (P : A -> Prop) (x : outcome A) : Prop := forall a, x = Done a -> P a.

Lemma returns_done {A} (P : A -> Prop) a : P a -> returns P (Done a).
Proof. by intros H _ [= <-]. Qed.

Lemma returns_fault {A} (P : A -> Prop) : returns P Fault.
Proof. by intros a. Qed.

Lemma returns_bind {A B} (P : A -> Prop) (Q : B -> Prop) x (f : A -> outcome B) :
  returns P x -> (forall a, P a -> returns Q (f a)) -> returns Q (x ≫= f).
Proof. intros Hx Hf b. destruct x as [a| |]; [|done|done]. apply Hf. by apply Hx. Qed.

Lemma returns_mono {A} (P Q : A -> Prop) x : (forall a, P a -> Q a) -> returns P x -> returns Q x.
Proof. intros HPQ Hx a E. by apply HPQ, Hx. Qed.

Lemma returns_or_fault {A} (P : A -> Prop) o : from_option P True o -> returns P (or_fault o).
Proof. destruct o as [a|]; intros H; [by apply returns_done|apply returns_fault]. Qed.

Create HintDb typed.
#[export] Hint Resolve returns_done returns_fault : typed.

Lemma returns_lookup {A} (P : A -> Prop) (l : list A) i : Forall P l -> returns P (or_fault (l !! i)).
Proof.
  intros Hl. apply returns_or_fault. destruct (l !! i) as [x|] eqn:E; [|done].
  exact (Forall_lookup_1 _ _ _ _ Hl E).
Qed.

Lemma returns_add32 a b : 0 <= a -> 0 <= b -> returns u32 (add32 a b).
Proof.
  intros Ha Hb. unfold add32. destruct (Z.ltb_spec (a + b) U32); [|apply returns_fault].
  apply returns_done. unfold u32. lia.
Qed.

Lemma returns_add64 a b : 0 <= a -> 0 <= b -> returns u64 (add64 a b).
Proof.
  intros Ha Hb. unfold add64. destruct (Z.ltb_spec (a + b) U64); [|apply returns_fault].
  apply returns_done. unfold u64. lia.
Qed.

Lemma u64_sat_add a b : u64 a -> 0 <= b -> u64 (sat_add64 a b).
Proof. unfold u64, sat_add64, U64_MAX, U64. lia. Qed.
Lemma u64_sat_sub a b : u64 a -> 0 <= b -> u64 (sat_sub a b).
Proof. unfold u64, sat_sub. lia. Qed.
Lemma u32_sat_sub a b : u32 a -> 0 <= b -> u32 (sat_sub a b).
Proof. unfold u32, sat_sub. lia. Qed.
Lemma u64_max a b : u64 a -> u64 b -> u64 (Z.max a b).
Proof. unfold u64. lia. Qed.
Lemma u64_mod a : u64 (a mod U64).
Proof. apply Z.mod_pos_bound. unfold U64. lia. Qed.
#[export] Hint Resolve u64_sat_add u64_sat_sub u32_sat_sub u64_max u64_mod : typed.

(** One step of a computation: the head is a call with a known postcondition. *)
Ltac step_typed lem := eapply returns_bind; [eapply lem|]; eauto with typed.

(** ** The fair queue *)

Definition heap_typed (h : list CfsEntry) : Prop :=
  Forall (fun e => u64 (ce_vruntime e) /\ u32 (ce_pid e)) h /\ length h = MAX_CFS_TASKS.

Lemma EMPTY_typed : u64 (ce_vruntime EMPTY) /\ u32 (ce_pid EMPTY).
Proof. unfold u64, u32, EMPTY, U64_MAX, U64, U32. simpl. lia. Qed.
#[export] Hint Resolve EMPTY_typed : typed.

Lemma heap_get_typed h i : heap_typed h -> returns (fun e => u64 (ce_vruntime e) /\ u32 (ce_pid e)) (heap_get h i).
Proof. intros [Hh _]. unfold heap_get. by apply returns_lookup. Qed.

Lemma heap_set_typed h i e :
  heap_typed h -> u64 (ce_vruntime e) /\ u32 (ce_pid e) -> returns heap_typed (heap_set h i e).
Proof.
  intros [Hh Hl] He. unfold heap_set. case_decide; [|apply returns_fault]. apply returns_done.
  split; [by apply Forall_insert|by rewrite length_insert].
Qed.
#[export] Hint Resolve heap_get_typed heap_set_typed : typed.

Lemma swap_typed h i j : heap_typed h -> returns heap_typed (swap h i j).
Proof.
  intros Hh. unfold swap. step_typed heap_get_typed. intros a Ha. step_typed heap_get_typed. intros b Hb.
  step_typed heap_set_typed.
Qed.

Lemma sift_up_typed fuel : forall h i, heap_typed h -> returns heap_typed (sift_up fuel h i).
Proof.
  induction fuel as [|fuel IH]; intros h i Hh; [done|]. cbn [sift_up]. case_decide; eauto with typed.
  step_typed heap_get_typed. intros a _. step_typed heap_get_typed. intros b _.
  destruct (cfs_lt a b); eauto with typed. step_typed swap_typed.
Qed.

Lemma sift_down_typed fuel : forall h n i, heap_typed h -> returns heap_typed (sift_down fuel h n i).
Proof.
  induction fuel as [|fuel IH]; intros h n i Hh; [done|]. cbn [sift_down].
  apply (returns_bind (fun _ => True)); [done|]. intros s1 _.
  apply (returns_bind (fun _ => True)); [done|]. intros s2 _.
  case_decide; eauto with typed. step_typed swap_typed.
Qed.
#[export] Hint Resolve swap_typed sift_up_typed sift_down_typed : typed.

Lemma cfs_heap q : cfs_typed q -> heap_typed (heap q).
Proof. by intros []. Qed.
#[export] Hint Resolve cfs_heap : typed.

Lemma enqueue_typed q pid v w :
  cfs_typed q -> u32 pid -> u64 v -> u64 w ->
  returns (fun x => cfs_typed (fst x) /\ u64 (snd x)) (enqueue q pid v w).
Proof.
  intros Hq Hp Hv Hw. unfold enqueue. pose proof Hq as [Hh Hl Hlo Hm Hn].
  set (adj := Z.max v _). assert (u64 adj) as Hadj.
  { apply u64_max; [done|]. apply u64_sat_sub; [done|]. unfold SCHED_LATENCY_NS. lia. }
  apply (returns_bind (fun x => heap_typed (fst x))).
  - case_decide; [|by apply returns_done, cfs_heap]. step_typed heap_set_typed. intros h Hh'.
    step_typed sift_up_typed.
  - intros [h n] [Hh1 Hh2]. eapply returns_bind; [apply returns_add32; [apply Hn|lia]|]. intros nr Hnr.
    apply returns_done. split; [|done]. split; simpl; try done. apply u64_sat_add; [done|apply Hw].
Qed.

Lemma remove_at_typed h n pos : heap_typed h -> returns heap_typed (remove_at h n pos).
Proof.
  intros Hh. unfold remove_at. case_decide; [|eauto with typed].
  step_typed heap_get_typed. intros e He. step_typed heap_set_typed. intros h1 H1. step_typed heap_set_typed.
  intros h2 H2. step_typed heap_get_typed. intros x _. step_typed heap_get_typed. intros y _.
  destruct (_ && _); eauto with typed.
Qed.

Lemma cfs_removed q h n w :
  cfs_typed q -> heap_typed h -> u64 w ->
  cfs_typed {| heap := h; len := n; load_weight := sat_sub (load_weight q) w;
               min_vruntime := min_vruntime q; cfs_nr_running := sat_sub (cfs_nr_running q) 1 |}.
Proof.
  intros [? ? ? ? ?] [? ?] [? _]. split; simpl; try done; [by apply u64_sat_sub|by apply u32_sat_sub].
Qed.

Lemma dequeue_typed q pid w :
  cfs_typed q -> u64 w -> returns (fun x => cfs_typed (fst x)) (dequeue q pid w).
Proof.
  intros Hq Hw. unfold dequeue. destruct (find_pid _ _ _); [|by apply returns_done].
  step_typed remove_at_typed. intros h Hh. apply returns_done. by apply cfs_removed.
Qed.

Lemma pick_next_typed q : cfs_typed q -> returns (from_option u32 True) (pick_next q).
Proof.
  intros Hq. unfold pick_next. case_decide; [|by apply returns_done].
  step_typed heap_get_typed. intros e [_ He]. by apply returns_done.
Qed.

Lemma pop_next_typed q w :
  cfs_typed q -> u64 w -> returns (fun x => cfs_typed (fst x) /\ from_option u32 True (snd x)) (pop_next q w).
Proof.
  intros Hq Hw. unfold pop_next. case_decide; [by apply returns_done|].
  step_typed heap_get_typed. intros e [_ He]. apply (returns_bind heap_typed).
  - case_decide; [|eauto with typed]. step_typed heap_get_typed. intros l Hl. step_typed heap_set_typed.
    intros h Hh. step_typed heap_set_typed.
  - intros h Hh. apply returns_done. split; [by apply cfs_removed|done].
Qed.

Lemma update_min_typed q v : cfs_typed q -> u64 v -> returns cfs_typed (update_min_vruntime q v).
Proof.
  intros Hq Hv. unfold update_min_vruntime. apply (returns_bind u64).
  - case_decide; [|by apply returns_done]. step_typed heap_get_typed. intros e [He _]. by apply returns_done.
  - intros x Hx. apply returns_done. destruct Hq. split; simpl; try done. by apply u64_max.
Qed.

(** ** The real-time queue *)

Definition row_typed (row : list Z) : Prop := length row = MAX_RT_PER_PRIO /\ Forall u32 row.

Lemma row_set_typed row i x : row_typed row -> u32 x -> returns row_typed (row_set row i x).
Proof.
  intros [Hl Hr] Hx. unfold row_set. case_decide; [|apply returns_fault]. apply returns_done.
  split; [by rewrite length_insert|by apply Forall_insert].
Qed.

Lemma row_get_typed row i : row_typed row -> returns u32 (or_fault (row !! i)).
Proof. intros [_ Hr]. by apply returns_lookup. Qed.

Lemma shift_left_typed k : forall row pos, row_typed row -> returns row_typed (shift_left row pos k).
Proof.
  induction k as [|k IH]; intros row pos Hr; cbn [shift_left]; [by apply returns_done|].
  step_typed row_get_typed. intros x Hx. step_typed row_set_typed.
Qed.

Lemma rt_row_typed q i : rt_typed q -> returns row_typed (or_fault (queues q !! i)).
Proof. intros [Hr _ _ _ _]. by apply (returns_lookup row_typed). Qed.

Lemma rt_len_typed q i : rt_typed q -> returns (fun n => u8 (Z.of_nat n)) (or_fault (queue_lens q !! i)).
Proof. intros [_ _ Hl _ _]. by apply (returns_lookup (fun n => u8 (Z.of_nat n))). Qed.
#[export] Hint Resolve row_set_typed row_get_typed shift_left_typed rt_row_typed rt_len_typed : typed.

(** A queue with one row and its length replaced. *)
Lemma rt_set_typed q i row n b nr :
  rt_typed q -> row_typed row -> u8 (Z.of_nat n) -> u128 b -> u32 nr ->
  rt_typed {| queues := <[i := row]> (queues q); queue_lens := <[i := n]> (queue_lens q);
              bitmap := b; rt_nr_running := nr |}.
Proof.
  intros [Hr [Hq Hl] Hn _ _] Hrow Hlen Hb Hnr. split; simpl; try done.
  - by apply Forall_insert.
  - by rewrite !length_insert.
  - by apply Forall_insert.
Qed.

Lemma u128_bits x : 0 <= x -> (forall i, 128 <= i -> Z.testbit x i = false) -> u128 x.
Proof.
  intros Hx Hb. split; [done|]. destruct (decide (x < 2 ^ 128)) as [|Hge]; [done|].
  assert (128 <= Z.log2 x) by (apply Z.log2_le_pow2; lia).
  specialize (Hb (Z.log2 x) ltac:(done)). rewrite Z.bit_log2 in Hb by lia. done.
Qed.

Lemma u128_high x i : u128 x -> 128 <= i -> Z.testbit x i = false.
Proof.
  intros [H0 Hx] Hi. destruct (decide (x = 0)) as [->|]; [apply Z.bits_0|].
  apply Z.bits_above_log2; [done|]. assert (Z.log2 x < 128); [|lia]. apply Z.log2_lt_pow2; lia.
Qed.

Lemma bitmap_set_typed b prio :
  u128 b -> u128 (Z.lor b (Z.shiftl 1 (Z.of_nat (priority_to_index prio)))).
Proof.
  intros Hb. assert (Z.of_nat (priority_to_index prio) < 128) by (unfold priority_to_index, RT_PRIO_MAX; lia).
  apply u128_bits.
  - apply Z.lor_nonneg. split; [apply Hb|apply Z.shiftl_nonneg; lia].
  - intros i Hi. rewrite Z.lor_spec, u128_high, Z.shiftl_1_l, Z.pow2_bits_false by (done || lia). done.
Qed.

Lemma bitmap_clear_typed b x : u128 b -> u128 (Z.ldiff b x).
Proof.
  intros Hb. apply u128_bits.
  - apply Z.ldiff_nonneg. left. apply Hb.
  - intros i Hi. by rewrite Z.ldiff_spec, u128_high.
Qed.

Lemma rt_enqueue_typed q pid prio : rt_typed q -> u32 pid -> returns rt_typed (rt_enqueue q pid prio).
Proof.
  intros Hq Hp. unfold rt_enqueue. step_typed rt_len_typed. intros n Hn. case_decide as Hlt; [|by apply returns_done].
  step_typed rt_row_typed. intros row Hr. step_typed row_set_typed. intros row' Hr'.
  eapply returns_bind; [apply returns_add32; [apply (rt_count _ Hq)|lia]|]. intros nr Hnr. apply returns_done.
  apply rt_set_typed; try done; [unfold u8, MAX_RT_PER_PRIO in *; lia|]. apply bitmap_set_typed, Hq.
Qed.

Lemma shrink_typed q i row n :
  rt_typed q -> row_typed row -> u8 (Z.of_nat n) -> returns rt_typed (shrink q i row n).
Proof.
  intros Hq Hr Hn. unfold shrink. apply (returns_bind u32).
  - unfold sub64. destruct (Z.leb_spec 1 (rt_nr_running q)); [|apply returns_fault]. apply returns_done.
    pose proof (rt_count _ Hq). unfold u32 in *. lia.
  - intros nr Hnr. apply returns_done. apply rt_set_typed; try done; [unfold u8 in *; lia|].
    case_decide; [apply bitmap_clear_typed|]; apply Hq.
Qed.

Lemma rt_dequeue_typed q pid prio :
  rt_typed q -> returns (fun x => rt_typed (fst x)) (rt_dequeue q pid prio).
Proof.
  intros Hq. unfold rt_dequeue. step_typed rt_len_typed. intros n Hn. step_typed rt_row_typed. intros row Hr.
  destruct (find_pos row n pid); [|by apply returns_done]. step_typed shift_left_typed. intros row' Hr'.
  step_typed shrink_typed.
Qed.

Lemma rt_pop_next_typed q :
  rt_typed q -> returns (fun x => rt_typed (fst x) /\ from_option u32 True (snd x)) (rt_pop_next q).
Proof.
  intros Hq. unfold rt_pop_next. destruct (bitmap q =? 0); [by apply returns_done|].
  step_typed rt_len_typed. intros n Hn. case_decide; [by apply returns_done|].
  step_typed rt_row_typed. intros row Hr. step_typed row_get_typed. intros x Hx. step_typed shift_left_typed.
  intros row' Hr'. step_typed shrink_typed.
Qed.

(** ** Tasks *)

(** Updates of a task that keep its fields in range. *)
Definition keeps_typed (f : Task -> Task) : Prop := forall t, task_typed t -> task_typed (f t).

Ltac typed_update := intros t [? ? ? [? ? ?] ? ? ? ? ? ? ? ? ? ? ? ? ? ? ? ?]; split; simpl; try done.

Lemma with_state_typed s : u32 s -> keeps_typed (with_state s).
Proof. intros Hs. by typed_update. Qed.
Lemma with_on_rq_typed b : keeps_typed (with_on_rq b).
Proof. by typed_update. Qed.
Lemma with_vruntime_typed v : u64 v -> keeps_typed (with_vruntime v).
Proof. intros Hv. by typed_update. Qed.
Lemma with_policy_typed p : keeps_typed (with_policy p).
Proof. by typed_update. Qed.
Lemma with_time_slice_typed n : u32 n -> keeps_typed (with_time_slice n).
Proof. intros Hn. by typed_update. Qed.
Lemma with_rt_priority_typed n : u8 n -> keeps_typed (with_rt_priority n).
Proof. intros Hn. by typed_update. Qed.
Lemma with_exec_start_typed n : u64 n -> keeps_typed (with_exec_start n).
Proof. intros Hn. by typed_update. Qed.
Lemma with_start_time_typed n : u64 n -> keeps_typed (with_start_time n).
Proof. intros Hn. by typed_update. Qed.
Lemma with_sum_typed n : u64 n -> keeps_typed (with_sum_exec_runtime n).
Proof. intros Hn. by typed_update. Qed.
Lemma with_affinity_typed s : cpuset_wf s -> keeps_typed (with_cpu_affinity s).
Proof. intros Hn. by typed_update. Qed.
Lemma with_charged_typed b : keeps_typed (with_vruntime_charged_this_tick b).
Proof. by typed_update. Qed.
Lemma with_waiting_typed n : i32 n -> keeps_typed (with_waiting_for_child n).
Proof. intros Hn. by typed_update. Qed.
Lemma with_exit_typed n : i32 n -> keeps_typed (with_exit_status n).
Proof. intros Hn. by typed_update. Qed.

Lemma u32_states : u32 TASK_RUNNING /\ u32 TASK_INTERRUPTIBLE /\ u32 TASK_ZOMBIE.
Proof. by vm_compute. Qed.

Lemma start_running_typed cpu now : u32 cpu -> u64 now -> keeps_typed (start_running cpu now).
Proof. intros Hc Hn. by typed_update. Qed.

Lemma save_context_typed ctx count : context_typed ctx -> keeps_typed (save_context ctx count).
Proof. intros Hc. typed_update. apply Z.mod_pos_bound. unfold U32. lia. Qed.

Lemma nice_weight_typed n : u64 (nice_to_weight n).
Proof.
  unfold nice_to_weight. set (i := Z.to_nat _).
  assert (Forall u64 NICE_TO_WEIGHT) as Hall by (repeat constructor; unfold U64; lia).
  destruct (lookup_lt_is_Some_2 NICE_TO_WEIGHT i) as [w Hw].
  - unfold i. change (length NICE_TO_WEIGHT) with 40%nat. lia.
  - rewrite (list_lookup_total_correct _ _ _ Hw). exact (Forall_lookup_1 _ _ _ _ Hall Hw).
Qed.

Lemma set_nice_typed n : keeps_typed (set_nice n).
Proof. typed_update; [unfold i8; lia|apply nice_weight_typed]. Qed.

Lemma with_scheduler_typed p prio : keeps_typed (with_scheduler p prio).
Proof.
  intros t Ht. unfold with_scheduler, set_policy, set_rt_priority.
  assert (task_typed (with_policy p t)) as Hp by by apply with_policy_typed.
  set (t1 := if decide (p = RoundRobin) then _ else _).
  assert (task_typed t1) as H1.
  { unfold t1. case_decide; [|done]. apply with_time_slice_typed; [|done]. by destruct p. }
  destruct (is_realtime p); [|done]. apply with_rt_priority_typed; [unfold u8; lia|done].
Qed.

Lemma update_vruntime_typed d : u64 d -> keeps_typed (update_vruntime d).
Proof.
  intros Hd t Ht. apply with_vruntime_typed; [|done]. apply u64_sat_add; [apply Ht|].
  unfold weighted_delta. destruct (0 <? weight t); [apply u64_mod|apply Hd].
Qed.

Lemma charge_typed now : u64 now -> keeps_typed (charge now).
Proof.
  intros Hn t Ht. unfold charge, account_stop. cbv zeta.
  assert (u64 (sat_sub now (exec_start t))) as Hd by (apply u64_sat_sub; [done|apply Ht]).
  apply update_vruntime_typed.
  - destruct (_ && _); [by vm_compute|done].
  - apply with_charged_typed, with_exec_start_typed; [by vm_compute|].
    apply with_sum_typed; [|done]. apply u64_sat_add; [apply Ht|apply Hd].
Qed.

Lemma wait_for_child_typed c : i32 c -> keeps_typed (wait_for_child c).
Proof.
  intros Hc t Ht. unfold wait_for_child. assert (task_typed (with_waiting_for_child c t)) by by apply with_waiting_typed.
  destruct (c =? 0); [done|]. by apply with_state_typed.
Qed.

Lemma clear_waiting_typed : keeps_typed clear_waiting.
Proof. by typed_update. Qed.

Lemma task_exit_typed st : i32 st -> keeps_typed (task_exit st).
Proof. intros Hs. by typed_update. Qed.

(** ** Run queues *)

Definition o_typed (o : option Task) : Prop := from_option task_typed True o.

Lemma slot_get_typed m r p : rq_typed r -> o_typed (slot_get m r p).
Proof.
  intros Hr. unfold slot_get, o_typed. destruct (slot_of m p) as [s|]; [|done]. simpl.
  destruct (slots r !! s) as [[t|]|] eqn:E; simpl; try done. destruct (t_pid t =? p); [|done].
  exact (Forall_lookup_1 _ _ _ _ (rqt_slots _ Hr) E).
Qed.

Lemma slot_get_task_typed m r p t : rq_typed r -> slot_get m r p = Some t -> task_typed t.
Proof. intros Hr E. pose proof (slot_get_typed m r p Hr) as Ht. by rewrite E in Ht. Qed.

Lemma set_slots_typed l r :
  rq_typed r -> Forall (from_option task_typed True) l -> length l = MAX_TASKS_PER_RQ -> rq_typed (set_slots l r).
Proof. intros [] ? ?. by split. Qed.

(** An update of a task that is typed where it is applied. *)
Lemma slot_upd_typed_at m r p f :
  rq_typed r -> (forall t, slot_get m r p = Some t -> task_typed (f t)) -> rq_typed (slot_upd m r p f).
Proof.
  intros Hr Hf. unfold slot_upd. destruct (slot_of m p) as [s|]; [|done].
  destruct (slot_get m r p) as [t|] eqn:E; [|done]. apply set_slots_typed; [done| |by rewrite length_insert; apply Hr].
  apply Forall_insert; [apply Hr|]. by apply Hf.
Qed.

Lemma slot_upd_typed m r p f : rq_typed r -> keeps_typed f -> rq_typed (slot_upd m r p f).
Proof. intros Hr Hf. apply slot_upd_typed_at; [done|]. intros t Ht. apply Hf. by eapply slot_get_task_typed. Qed.

Lemma set_nr_typed n r : u32 n -> rq_typed r -> rq_typed (set_nr n r).
Proof. intros ? []. by split. Qed.
Lemma set_rt_typed q r : rt_typed q -> rq_typed r -> rq_typed (set_rt q r).
Proof. intros ? []. by split. Qed.
Lemma set_cfs_typed q r : cfs_typed q -> rq_typed r -> rq_typed (set_cfs q r).
Proof. intros ? []. by split. Qed.
Lemma set_curr_typed p r : u32 p -> rq_typed r -> rq_typed (set_curr (Some p) r).
Proof. intros ? []. by split. Qed.
Lemma set_need_resched_typed b r : rq_typed r -> rq_typed (set_need_resched b r).
Proof. intros []. by split. Qed.
Lemma update_clock_typed n r : u64 n -> rq_typed r -> rq_typed (update_clock n r).
Proof. intros ? []. by split. Qed.
Lemma set_free_typed l r : rq_typed r -> rq_typed (set_free l r).
Proof. intros []. by split. Qed.
#[export] Hint Resolve slot_upd_typed set_nr_typed set_rt_typed set_cfs_typed set_curr_typed
  set_need_resched_typed update_clock_typed set_free_typed with_on_rq_typed with_vruntime_typed : typed.
#[export] Hint Extern 1 (u32 (nr_running _)) => by apply rqt_nr : typed.

Lemma enqueue_task_typed m r p : rq_typed r -> returns rq_typed (enqueue_task m r p).
Proof.
  intros Hr. unfold enqueue_task. destruct (slot_get m r p) as [t|] eqn:Et; [|by apply returns_done].
  pose proof (slot_get_task_typed _ _ _ _ Hr Et) as Ht. pose proof (tt_pid _ Ht) as Hp.
  rewrite (slot_get_pid _ _ _ _ Et) in Hp. destruct (on_rq t); [by apply returns_done|].
  apply (returns_bind rq_typed); [|eauto with typed].
  destruct (is_realtime (policy t)); [|destruct (is_fair (policy t))].
  - eapply returns_bind; [apply rt_enqueue_typed; [apply Hr|done]|]. intros q Hq.
    eapply returns_bind; [apply returns_add32; [apply (rqt_nr _ Hr)|lia]|]. eauto with typed.
  - eapply returns_bind; [apply enqueue_typed; try done; [apply Hr|apply Ht..]|]. intros [q v] [Hq Hv].
    assert (rq_typed (slot_upd m (set_cfs q r) p (with_vruntime v))) as H1 by eauto with typed.
    eapply returns_bind; [apply returns_add32; [apply (rqt_nr _ H1)|lia]|]. eauto with typed.
  - eauto with typed.
Qed.

Lemma class_dequeue_typed r t : rq_typed r -> task_typed t -> returns rq_typed (class_dequeue r t).
Proof.
  intros Hr Ht. unfold class_dequeue.
  destruct (is_realtime (policy t)); [|destruct (is_fair (policy t)); [|eauto with typed]].
  - eapply returns_bind; [apply rt_dequeue_typed, Hr|]. intros [q b] Hq. eauto with typed.
  - eapply returns_bind; [apply dequeue_typed; [apply Hr|apply Ht]|]. intros [q b] Hq. eauto with typed.
Qed.

Lemma nr_down_typed r : rq_typed r -> u32 (sat_sub (nr_running r) 1).
Proof. intros Hr. by apply u32_sat_sub; [apply Hr|]. Qed.
#[export] Hint Resolve nr_down_typed : typed.

Lemma dequeue_task_typed m r p : rq_typed r -> returns rq_typed (dequeue_task m r p).
Proof.
  intros Hr. unfold dequeue_task. destruct (slot_get m r p) as [t|] eqn:Et; [|by apply returns_done].
  destruct (negb (on_rq t)); [by apply returns_done|].
  eapply returns_bind; [by eapply class_dequeue_typed, slot_get_task_typed|]. intros r1 H1.
  apply returns_done. apply slot_upd_typed; [|apply with_on_rq_typed]. destruct (_ || _); eauto with typed.
Qed.

Lemma stamp_typed now t : u64 now -> task_typed t ->
  task_typed (if start_time t =? 0 then with_start_time now t else t).
Proof. intros Hn Ht. destruct (_ =? 0); [|done]. by apply with_start_time_typed. Qed.

Lemma add_task_typed m now r t :
  u64 now -> rq_typed r -> task_typed t -> returns (fun x => rq_typed (snd x)) (RunQueue.add_task m now r t).
Proof.
  intros Hn Hr Ht. unfold RunQueue.add_task. apply (stamp_typed now t Hn) in Ht.
  destruct (free_stack r) as [|s free]; [by apply returns_done|].
  eapply returns_bind; [apply enqueue_task_typed|]; [|eauto with typed].
  apply set_slots_typed; [by apply set_free_typed| |by rewrite length_insert; apply Hr].
  by apply Forall_insert; [apply Hr|].
Qed.

Lemma remove_task_typed m r p :
  rq_typed r -> returns (fun x => rq_typed (snd (fst x)) /\ o_typed (snd x)) (RunQueue.remove_task m r p).
Proof.
  intros Hr. unfold RunQueue.remove_task. destruct (slot_of m p) as [s|]; [|by apply returns_done].
  destruct (slots r !! s) as [[t|]|] eqn:Es; simpl mjoin; cbv beta iota; [|by apply returns_done..].
  assert (task_typed t) as Ht by exact (Forall_lookup_1 _ _ _ _ (rqt_slots _ Hr) Es).
  destruct (negb (t_pid t =? p)); [by apply returns_done|].
  assert (rq_typed (set_slots (<[s:=None]> (slots r)) r)) as Hr1.
  { apply set_slots_typed; [done|by apply Forall_insert; [apply Hr|]|by rewrite length_insert; apply Hr]. }
  apply (returns_bind rq_typed).
  - destruct (on_rq t); [|by apply returns_done].
    eapply returns_bind; [by apply class_dequeue_typed|]. eauto with typed.
  - intros r2 H2. apply returns_done. split; [by apply set_free_typed|by apply with_on_rq_typed].
Qed.

Lemma popped_typed m r p : rq_typed r -> rq_typed (popped m r p).
Proof. intros Hr. unfold popped. cbv zeta. eauto with typed. Qed.

Lemma pop_next_task_typed m r :
  rq_typed r -> returns (fun x => rq_typed (fst x) /\ u32 (snd x)) (pop_next_task m r).
Proof.
  intros Hr. unfold pop_next_task. eapply returns_bind; [apply rt_pop_next_typed, Hr|].
  intros [q [p|]] [Hq Hp]; simpl in Hq, Hp.
  { apply returns_done. split; [|done]. apply popped_typed. by apply set_rt_typed. }
  assert (rq_typed (set_rt q r)) as H1 by by apply set_rt_typed.
  eapply returns_bind; [apply pick_next_typed, Hr|]. intros [p|] Hp'; [|apply returns_done; split; [done|apply Hr]].
  eapply returns_bind.
  - apply pop_next_typed; [apply Hr|]. pose proof (slot_get_typed m (set_rt q r) p H1) as Ht.
    destruct (slot_get m (set_rt q r) p); simpl; [apply Ht|by vm_compute].
  - intros [c [x|]] [Hc Hx]; apply returns_done.
    + split; [|done]. apply popped_typed. by apply set_cfs_typed.
    + split; [by apply set_cfs_typed|apply Hr].
Qed.

Lemma put_prev_task_typed m r p : rq_typed r -> returns rq_typed (put_prev_task m r p).
Proof.
  intros Hr. unfold put_prev_task. destruct (slot_get m r p) as [t|]; [|by apply returns_done].
  destruct (_ || _); [by apply returns_done|by apply enqueue_task_typed].
Qed.

Lemma steal_task_typed m r d :
  rq_typed r -> returns (fun x => rq_typed (snd (fst x)) /\ o_typed (snd x)) (RunQueue.steal_task m r d).
Proof.
  intros Hr. unfold RunQueue.steal_task. destruct (_ <=? 1); [by apply returns_done|].
  destruct (steal_victim r d); [by apply remove_task_typed|by apply returns_done].
Qed.

Lemma fair_tick_typed m r p t b :
  rq_typed r -> task_typed t -> returns (fun x => rq_typed (fst x)) (fair_tick m r p t b).
Proof.
  intros Hr Ht. unfold fair_tick.
  assert (task_typed (with_vruntime_charged_this_tick true (update_vruntime TICK_NS t))) as H0.
  { apply with_charged_typed, update_vruntime_typed; [by vm_compute|done]. }
  set (t0 := with_vruntime_charged_this_tick true _) in *.
  apply (returns_bind task_typed).
  - destruct b; [by apply returns_done|]. eapply returns_bind; [apply returns_add64; [apply H0|by vm_compute]|].
    intros x Hx. apply returns_done. by apply with_sum_typed.
  - intros t1 H1. assert (task_typed (with_exec_start (clock r) t1)) as H2 by (apply with_exec_start_typed; [apply Hr|done]).
    assert (rq_typed (slot_upd m r p (fun _ => with_exec_start (clock r) t1))) as Hr1 by by apply slot_upd_typed_at.
    eapply returns_bind; [apply update_min_typed; [apply Hr1|apply H2]|]. intros q Hq.
    assert (rq_typed (set_cfs q (slot_upd m r p (fun _ => with_exec_start (clock r) t1)))) as Hr2 by by apply set_cfs_typed.
    apply (returns_bind (fun _ => True)); [done|]. intros [next|] _; [|by apply returns_done].
    destruct (next =? p); [by apply returns_done|]. apply (returns_bind (fun _ => True)); [done|]. intros x _.
    destruct (_ <? _); apply returns_done; [by apply set_need_resched_typed|done].
Qed.

Lemma rr_tick_typed m r p t :
  rq_typed r -> task_typed t -> returns (fun x => rq_typed (fst x)) (rr_tick m r p t).
Proof.
  intros Hr Ht. unfold rr_tick. destruct (Z.ltb_spec 0 (time_slice t)); [|by apply returns_done].
  pose proof (tt_time_slice _ Ht) as Hs.
  destruct (_ =? 0); apply returns_done; [apply set_need_resched_typed|];
    (apply slot_upd_typed; [done|apply with_time_slice_typed]); [by vm_compute|unfold u32 in *; simpl; lia].
Qed.

Lemma scheduler_tick_typed m r b :
  rq_typed r -> returns (fun x => rq_typed (fst x)) (RunQueue.scheduler_tick m r b).
Proof.
  intros Hr. unfold RunQueue.scheduler_tick. destruct (curr r) as [c|]; [|by apply returns_done].
  destruct (slot_get m r c) as [t|] eqn:Et; [|by apply returns_done].
  pose proof (slot_get_task_typed _ _ _ _ Hr Et) as Ht.
  destruct (policy t); try (by apply returns_done);
    try (by apply fair_tick_typed); by apply rr_tick_typed.
Qed.

(** ** Critical sections *)

Definition sec_typed {A} (R : A -> Prop) (f : section A) : Prop :=
  forall m r, rq_typed r -> returns (fun x => rq_typed (snd (fst x)) /\ R (snd x)) (f m r).

Abbreviation anything := (fun _ => True).
Abbreviation maybe R := (from_option R True).

Lemma maybe_any {A} (o : option A) : maybe anything o.
Proof. by destruct o. Qed.

Lemma wake_section_typed p bef fin :
  (forall r, rq_typed r -> keeps_typed (bef r)) ->
  (forall m r, rq_typed r -> returns rq_typed (fin m r)) -> sec_typed anything (wake_section p bef fin).
Proof.
  intros Hb Hf m r Hr. unfold wake_section. destruct (slot_get m r p) as [u|]; [|by apply returns_done].
  eapply returns_bind; [apply enqueue_task_typed|].
  - apply slot_upd_typed; [done|]. intros t Ht. apply with_state_typed; [done|]. by apply Hb.
  - intros r1 H1. eapply returns_bind; [by apply Hf|]. intros r2 H2. by apply returns_done.
Qed.

Lemma resched_always_typed m r : rq_typed r -> returns rq_typed (resched_always m r).
Proof. intros Hr. apply returns_done. by apply set_need_resched_typed. Qed.

Lemma resched_if_better_typed p m r : rq_typed r -> returns rq_typed (resched_if_better p m r).
Proof.
  intros Hr. unfold resched_if_better. destruct (curr r) as [c|]; [|by apply returns_done].
  apply (returns_bind anything); [done|]. intros [] _; apply returns_done; [by apply set_need_resched_typed|done].
Qed.

Lemma wake_here_typed p : sec_typed anything (wake_here p).
Proof. apply wake_section_typed; [by intros r Hr t Ht|]. intros. by apply resched_if_better_typed. Qed.
Lemma wake_remote_typed p : sec_typed anything (wake_remote p).
Proof. apply wake_section_typed; [by intros r Hr t Ht|]. intros. by apply resched_always_typed. Qed.
Lemma wake_scan_typed p : sec_typed anything (wake_scan p).
Proof.
  apply wake_section_typed; [|intros; by apply resched_always_typed].
  intros r Hr t Ht. destruct (is_fair (policy t)); [|done]. apply with_vruntime_typed; [apply Hr|done].
Qed.

Lemma block_section_typed st : u32 st -> sec_typed anything (block_section st).
Proof.
  intros Hs m r Hr. unfold block_section. destruct (curr r); [|by apply returns_done].
  eapply returns_bind; [apply dequeue_task_typed|].
  - apply slot_upd_typed; [done|by apply with_state_typed].
  - intros r1 H1. apply returns_done. split; [by apply set_need_resched_typed|done].
Qed.

Lemma yield_section_typed : sec_typed anything yield_section.
Proof.
  intros m r Hr. unfold yield_section. destruct (curr r); [|by apply returns_done].
  eapply returns_bind; [by apply put_prev_task_typed|]. intros r1 H1. apply returns_done.
  split; [by apply set_need_resched_typed|done].
Qed.

Lemma tick_section_typed cpu now b : u64 now -> sec_typed anything (tick_section cpu now b).
Proof.
  intros Hn m r Hr. unfold tick_section. eapply returns_bind; [apply scheduler_tick_typed; by apply update_clock_typed|].
  intros [r1 d] H1. by apply returns_done.
Qed.

Lemma put_back_typed m r : rq_typed r -> returns rq_typed (put_back m r).
Proof.
  intros Hr. unfold put_back. destruct (curr r) as [c|]; [|by apply returns_done].
  assert (rq_typed (slot_upd m r c (charge (clock r)))) as H1 by (apply slot_upd_typed; [done|apply charge_typed, Hr]).
  destruct (should_requeue _ _ _); [by apply put_prev_task_typed|by apply dequeue_task_typed].
Qed.

Lemma pick_section_typed cpu now : u32 cpu -> u64 now -> sec_typed u32 (pick_section cpu now).
Proof.
  intros Hc Hn m r Hr. unfold pick_section.
  eapply returns_bind; [apply put_back_typed; by apply update_clock_typed|]. intros r1 H1.
  eapply returns_bind; [by apply pop_next_task_typed|]. intros [r2 p] [H2 Hp]. apply returns_done. split; [|done].
  apply set_need_resched_typed, set_curr_typed; [done|]. apply slot_upd_typed; [done|].
  apply start_running_typed; [done|apply H2].
Qed.

Lemma undo_section_typed old next : u32 old -> sec_typed anything (undo_section old next).
Proof.
  intros Ho m r Hr. unfold undo_section. eapply returns_bind; [apply enqueue_task_typed; by apply set_curr_typed|].
  intros r1 H1. apply returns_done. split; [by apply set_need_resched_typed|done].
Qed.

Lemma switch_section_typed cpu now prev new :
  u32 cpu -> u64 now -> u32 new -> sec_typed anything (switch_section cpu now prev new).
Proof.
  intros Hc Hn Hp m r Hr. unfold switch_section. apply (returns_bind rq_typed).
  - destruct prev as [p|]; [|by apply returns_done].
    destruct (should_requeue m r p); [by apply put_prev_task_typed|by apply returns_done].
  - intros r1 H1. eapply returns_bind; [by apply dequeue_task_typed|]. intros r2 H2. apply returns_done. split; [|done].
    apply set_need_resched_typed, set_curr_typed; [done|].
    apply slot_upd_typed; [by apply update_clock_typed|]. intros t Ht. apply with_on_rq_typed.
    by apply start_running_typed.
Qed.

Lemma transaction_section_typed cpu now old new ctx count :
  u32 cpu -> u64 now -> u32 new -> context_typed ctx ->
  sec_typed anything (transaction_section cpu now old new ctx count).
Proof.
  intros Hc Hn Hp Hx m r Hr. unfold transaction_section. destruct (slot_get m r old) as [u|]; [|by apply returns_done].
  assert (rq_typed (slot_upd m r old (save_context ctx count))) as H1 by (apply slot_upd_typed; [done|by apply save_context_typed]).
  destruct (slot_get m _ new) as [t|]; [|by apply returns_done].
  destruct (negb _); [by apply returns_done|].
  eapply returns_bind; [by apply switch_section_typed|]. intros [[m2 r2] []] [H2 _]. by apply returns_done.
Qed.

Lemma update_task_typed p f : keeps_typed f -> sec_typed anything (update_task p f).
Proof. intros Hf m r Hr. apply returns_done. split; [by apply slot_upd_typed|done]. Qed.

Lemma read_task_typed {A} p (f : Task -> A) : sec_typed anything (read_task p f).
Proof. intros m r Hr. by apply returns_done. Qed.

Lemma set_scheduler_section_typed pid p prio : sec_typed anything (set_scheduler_section pid p prio).
Proof.
  intros m r Hr. unfold set_scheduler_section. destruct (slot_get m r pid) as [t|]; [|by apply returns_done].
  apply (returns_bind rq_typed); [destruct (on_rq t); [by apply dequeue_task_typed|by apply returns_done]|].
  intros r1 H1. assert (rq_typed (slot_upd m r1 pid (with_scheduler p prio))) as H2.
  { apply slot_upd_typed; [done|apply with_scheduler_typed]. }
  apply (returns_bind rq_typed); [destruct (on_rq t); [by apply enqueue_task_typed|by apply returns_done]|].
  intros r2 H3. by apply returns_done.
Qed.

Lemma exit_section_typed p st : i32 st -> sec_typed anything (exit_section p st).
Proof.
  intros Hs m r Hr. unfold exit_section. destruct (slot_get m r p); [|by apply returns_done].
  eapply returns_bind; [apply dequeue_task_typed; apply slot_upd_typed; [done|by apply task_exit_typed]|].
  intros r1 H1. by apply returns_done.
Qed.

Lemma affinity_section_typed p set : cpuset_wf set -> sec_typed anything (affinity_section p set).
Proof. intros Hs m r Hr. apply returns_done. split; [|done]. apply slot_upd_typed; [done|by apply with_affinity_typed]. Qed.

Lemma migrate_section_typed p : sec_typed o_typed (migrate_section p).
Proof.
  intros m r Hr. unfold migrate_section. destruct (bool_decide _).
  - apply returns_done. split; [by apply set_need_resched_typed|done].
  - eapply returns_bind; [by apply dequeue_task_typed|]. intros r1 H1. by apply remove_task_typed.
Qed.

Lemma remove_section_typed p : sec_typed o_typed (remove_section p).
Proof. intros m r Hr. by apply remove_task_typed. Qed.

Lemma add_section_typed now t : u64 now -> task_typed t -> sec_typed anything (add_section now t).
Proof.
  intros Hn Ht m r Hr. unfold add_section. eapply returns_bind; [by apply add_task_typed|].
  intros [m1 r1] H1. by apply returns_done.
Qed.

(** ** The world *)

Lemma set_rqs_typed w c r r' m :
  world_typed w -> rqs w !! c = Some r -> rq_typed r' -> world_typed (set_rqs (<[c := r']> (rqs w)) m w).
Proof.
  intros [Hr ? ? ? ? ?] Hc Hr'. split; simpl; try done. apply map_Forall_insert_2; [|done].
  split; [by apply (Hr c r)|done].
Qed.

Lemma with_rq_typed {A} (R : A -> Prop) w c f :
  world_typed w -> sec_typed R f ->
  returns (fun x => world_typed (fst x) /\ maybe R (snd x)) (with_rq w c f).
Proof.
  intros Hw Hf. unfold with_rq. destruct (MAX_CPUS <=? c); [apply returns_fault|].
  destruct (rqs w !! c) as [r|] eqn:Er; [|by apply returns_done].
  eapply returns_bind; [apply Hf; by apply (wt_rqs _ Hw c r)|]. intros [[m r'] a] [Hr Ha].
  apply returns_done. split; [by eapply set_rqs_typed|done].
Qed.

Lemma try_with_rq_typed {A} (R : A -> Prop) free w c f :
  world_typed w -> sec_typed R f ->
  returns (fun x => world_typed (fst x) /\ maybe R (snd x)) (try_with_rq free w c f).
Proof.
  intros Hw Hf. unfold try_with_rq. destruct (MAX_CPUS <=? c); [apply returns_fault|].
  destruct (free c); [by apply with_rq_typed|by apply returns_done].
Qed.

Lemma flatten_maybe {A} (R : A -> Prop) o : maybe (maybe R) o -> maybe R (flatten o).
Proof. by destruct o. Qed.

Lemma scan_typed {A} (R : A -> Prop) skip f : sec_typed (maybe R) f -> forall cpus w,
  world_typed w -> returns (fun x => world_typed (fst x) /\ maybe R (snd x)) (scan w cpus skip f).
Proof.
  intros Hf cpus. induction cpus as [|c cpus IH]; intros w Hw; cbn [scan]; [by apply returns_done|].
  destruct (skip c); [by apply IH|]. eapply returns_bind; [by eapply with_rq_typed|]. intros [w1 a] [H1 Ha].
  apply flatten_maybe in Ha. simpl in Ha. destruct (flatten a) as [x|]; [by apply returns_done|by apply IH].
Qed.

Lemma hint_tier_typed {A} (R : A -> Prop) w cpu p f :
  world_typed w -> sec_typed (maybe R) f ->
  returns (fun x => world_typed (fst x) /\ maybe R (snd x)) (hint_tier w cpu p f).
Proof.
  intros Hw Hf. unfold hint_tier. destruct (pid_to_cpu w p) as [h|]; [|by apply returns_done].
  destruct (h =? cpu); [by apply returns_done|]. eapply returns_bind; [by eapply with_rq_typed|].
  intros [w1 a] [H1 Ha]. apply returns_done. split; [done|by apply flatten_maybe].
Qed.

Lemma with_task_typed {A} (R : A -> Prop) w cpu p f :
  world_typed w -> sec_typed (maybe R) f ->
  returns (fun x => world_typed (fst x) /\ maybe R (snd x)) (with_task_on_any_cpu w cpu p f).
Proof.
  intros Hw Hf. unfold with_task_on_any_cpu. eapply returns_bind; [by eapply with_rq_typed|].
  intros [w1 a] [H1 Ha]. apply flatten_maybe in Ha. simpl in Ha. destruct (flatten a) as [x|]; [by apply returns_done|].
  eapply returns_bind; [by eapply hint_tier_typed|]. intros [w2 b] [H2 Hb]. simpl in Hb.
  destruct b as [y|]; [by apply returns_done|]. by apply scan_typed.
Qed.

(** Sections whose result carries no data. *)
Lemma sec_typed_any {A} (R : option A -> Prop) f : sec_typed anything f -> (forall a, R a) -> sec_typed R f.
Proof. intros Hf HR m r Hr. eapply returns_mono; [|by apply Hf]. naive_solver. Qed.

(** ** Entry points *)

Lemma cfs_new_typed : cfs_typed cfs_new.
Proof.
  split; cbn [cfs_new heap load_weight min_vruntime cfs_nr_running].
  - apply Forall_replicate, EMPTY_typed.
  - apply length_replicate.
  - unfold u64, U64. lia.
  - unfold u64, U64. lia.
  - unfold u32, U32. lia.
Qed.

Lemma rt_new_typed : rt_typed rt_new.
Proof.
  split; cbn [rt_new queues queue_lens bitmap rt_nr_running].
  - apply Forall_replicate. split; [apply length_replicate|]. apply Forall_replicate. unfold u32, U32. lia.
  - by rewrite !length_replicate.
  - apply Forall_replicate. unfold u8. lia.
  - unfold u128. lia.
  - unfold u32, U32. lia.
Qed.

Lemma rq_new_typed cpu idle_pid : u32 cpu -> u32 idle_pid -> rq_typed (rq_new cpu idle_pid).
Proof.
  intros Hc Hi. split; cbn [rq_new rq_cpu curr idle nr_running rt_rq cfs_rq clock slots]; try done.
  - apply rt_new_typed.
  - apply cfs_new_typed.
  - by apply Forall_replicate.
Qed.

Lemma set_current_typed cpu pid w : u32 pid -> world_typed w -> world_typed (set_current_pid_lockfree cpu pid w).
Proof. intros Hp []. split; simpl; try done. by apply map_Forall_insert_2. Qed.

Lemma hint_set_typed pid cpu w : u32 cpu -> world_typed w -> world_typed (pid_to_cpu_set pid cpu w).
Proof.
  intros Hc Hw. unfold pid_to_cpu_set. destruct (_ <? _); [|done]. destruct Hw. split; simpl; try done.
  by apply map_Forall_insert_2.
Qed.

Lemma hint_clear_typed pid w : world_typed w -> world_typed (pid_to_cpu_clear pid w).
Proof.
  intros Hw. unfold pid_to_cpu_clear. destruct (_ <? _); [|done]. destruct Hw. split; simpl; try done.
  by apply map_Forall_delete.
Qed.

Lemma add_tick_typed i w : world_typed w -> world_typed (add_tick i w).
Proof. intros []. split; simpl; try done. apply map_Forall_insert_2; [|done]. apply u64_mod. Qed.

Lemma init_cpu_typed w cpu idle_pid :
  world_typed w -> u32 cpu -> u32 idle_pid -> returns world_typed (init_cpu w cpu idle_pid).
Proof.
  intros Hw Hc Hi. unfold init_cpu. destruct (MAX_CPUS <=? cpu); [apply returns_fault|]. apply returns_done.
  apply hint_set_typed, set_current_typed; [done..|]. destruct Hw. split; simpl; try done.
  - apply map_Forall_insert_2; [|done]. split; [done|by apply rq_new_typed].
  - apply Z.mod_pos_bound. unfold U32. lia.
Qed.

(** A section on one run queue, or on the one that has a task. *)
Lemma rq_call_typed {A} (R : A -> Prop) w c f (g : World -> World) :
  world_typed w -> sec_typed R f -> (forall w, world_typed w -> world_typed (g w)) ->
  returns world_typed ('(w, _) ← with_rq w c f; Done (g w)).
Proof.
  intros Hw Hf Hg. eapply returns_bind; [by eapply with_rq_typed|]. intros [w1 a] [H1 _].
  apply returns_done. by apply Hg.
Qed.

Lemma any_maybe {A} (f : section (option A)) : sec_typed anything f -> sec_typed (maybe anything) f.
Proof. intros Hf. apply sec_typed_any; [done|apply maybe_any]. Qed.

Lemma task_call_typed {A} w cpu p (f : section (option A)) :
  world_typed w -> sec_typed anything f ->
  returns (fun x => world_typed (fst x)) (with_task_on_any_cpu w cpu p f).
Proof.
  intros Hw Hf. eapply returns_mono; [|eapply (with_task_typed anything); [done|by apply any_maybe]].
  by intros x [? _].
Qed.

Lemma returns_fst {A} (P : World -> Prop) (x : outcome (World * A)) :
  returns (fun y => P (fst y)) x -> returns P ('(w, _) ← x; Done w).
Proof. intros Hx. eapply returns_bind; [exact Hx|]. intros [w a] Hw. by apply returns_done. Qed.

Lemma wake_up_typed w cpu p : world_typed w -> returns world_typed (wake_up w cpu p).
Proof.
  intros Hw. unfold wake_up. eapply returns_bind; [eapply with_rq_typed; [done|apply wake_here_typed]|].
  intros [w1 a] [H1 _]. destruct (flatten a); [by apply returns_done|].
  eapply returns_bind; [eapply (hint_tier_typed anything); [done|apply any_maybe, wake_remote_typed]|].
  intros [w2 b] [H2 _]. destruct b; [by apply returns_done|].
  apply returns_fst. eapply returns_mono; [|apply (scan_typed anything); [apply any_maybe, wake_scan_typed|done]].
  by intros x [? _].
Qed.

Lemma try_scan_typed free cpu f : sec_typed anything f -> forall cpus w,
  world_typed w -> returns (fun x => world_typed (fst x)) (try_scan free w cpus cpu f).
Proof.
  intros Hf cpus. induction cpus as [|c cpus IH]; intros w Hw; cbn [try_scan]; [by apply returns_done|].
  destruct (c =? cpu); [by apply IH|]. eapply returns_bind; [by eapply try_with_rq_typed|].
  intros [w1 [[x|]|]] [H1 _]; [by apply returns_done|by apply IH|by apply returns_done].
Qed.

Lemma try_wake_up_typed free w cpu p :
  world_typed w -> returns (fun x => world_typed (fst x)) (try_wake_up free w cpu p).
Proof.
  intros Hw. unfold try_wake_up. eapply returns_bind; [eapply try_with_rq_typed; [done|apply wake_here_typed]|].
  intros [w1 [[x|]|]] [H1 _]; [by apply returns_done| |by apply returns_done].
  assert (forall w, world_typed w -> returns (fun x => world_typed (fst x))
    (try_scan free w (all_cpus w) cpu (wake_remote p))) as Hscan.
  { intros w' Hw'. apply try_scan_typed; [apply wake_remote_typed|done]. }
  simpl in H1. destruct (pid_to_cpu w1 p) as [h|]; [|by apply Hscan]. destruct (h =? cpu); [by apply Hscan|].
  eapply returns_bind; [eapply try_with_rq_typed; [done|apply wake_here_typed]|].
  intros [w2 [[x|]|]] [H2 _]; [by apply returns_done|by apply Hscan|by apply returns_done].
Qed.

Lemma tick_typed free w cpu b : world_typed w -> returns (fun x => world_typed (fst x)) (scheduler_tick_ex free w cpu b).
Proof.
  intros Hw. unfold scheduler_tick_ex. apply (returns_bind (fun x => world_typed (fst x) /\ u64 (snd x))).
  - destruct (cpu =? 0); [|apply returns_done; split; [done|apply Hw]].
    eapply returns_bind; [apply returns_add64; [apply Hw|by vm_compute]|]. intros now Hn. apply returns_done.
    split; [|done]. destruct Hw. split; simpl; try done. apply u64_mod.
  - intros [w1 now] [H1 Hn]. eapply returns_bind; [eapply try_with_rq_typed; [done|by apply tick_section_typed]|].
    intros [w2 [[i d]|]] [H2 _]; apply returns_done; by apply add_tick_typed.
Qed.

Lemma pick_typed w cpu :
  world_typed w -> u32 cpu ->
  returns (fun x => world_typed (fst x) /\ maybe u32 (snd x)) (SchedCore.pick_next_task w cpu).
Proof. intros Hw Hc. apply with_rq_typed; [done|]. apply pick_section_typed; [done|apply Hw]. Qed.

Lemma transaction_typed w cpu old new ctx count :
  world_typed w -> u32 cpu -> u32 new -> context_typed ctx ->
  returns (fun x => world_typed (fst x)) (context_switch_transaction w cpu old new ctx count).
Proof.
  intros Hw Hc Hp Hx. unfold context_switch_transaction.
  eapply returns_bind; [eapply with_rq_typed; [done|apply transaction_section_typed; try done; apply Hw]|].
  intros [w1 a] [H1 _]. destruct (flatten a); apply returns_done; [by apply set_current_typed|done].
Qed.

Lemma undo_typed w cpu old next : world_typed w -> u32 old -> returns world_typed (undo_pick_next w cpu old next).
Proof. intros Hw Ho. apply (rq_call_typed anything _ _ _ id); [done|by apply undo_section_typed|done]. Qed.

Lemma switch_process_typed w cpu current ctx count :
  world_typed w -> u32 cpu -> u32 current -> context_typed ctx ->
  returns (fun x => world_typed (fst x)) (switch_process w cpu current ctx count).
Proof.
  intros Hw Hc Hp Hx. unfold switch_process, pick_next_process.
  apply (returns_bind (fun x => world_typed (fst x) /\ u32 (snd x))).
  - eapply returns_bind; [by apply pick_typed|]. intros [w1 [n|]] [H1 Hn]; [by apply returns_done|].
    eapply returns_bind; [by eapply task_call_typed, read_task_typed|]. intros [w2 s] H2. apply returns_done.
    split; [done|]. simpl. by destruct (from_option _ _ _).
  - intros [w1 n] [H1 Hn]. destruct (n =? current); [by apply returns_done|].
    eapply returns_bind; [by apply transaction_typed|]. intros [w2 [i|]] H2; [by apply returns_done|].
    eapply returns_bind; [by apply undo_typed|]. intros w3 H3. by apply returns_done.
Qed.

Lemma add_task_to_cpu_typed w now t c :
  world_typed w -> u64 now -> task_typed t -> u32 c -> returns world_typed (add_task_to_cpu w now t c).
Proof.
  intros Hw Hn Ht Hc. apply (rq_call_typed anything _ _ _ (pid_to_cpu_set (t_pid t) c));
    [done|by apply add_section_typed|]. intros. by apply hint_set_typed.
Qed.

Lemma select_typed w this t : world_typed w -> u32 this -> task_typed t -> u32 (select_task_rq w this t).
Proof.
  intros Hw Hth Ht. unfold select_task_rq. destruct (cpuset_is_set _ (last_cpu t)); [apply Ht|].
  destruct (cpuset_is_set _ this); [done|].
  assert (u32 (default 0 (cpuset_first_set (cpu_affinity t)))) as H0.
  { pose proof (first_set_spec _ (tt_affinity _ Ht)) as Hf. destruct (cpuset_first_set _) as [f|]; [|by vm_compute].
    simpl. unfold u32, U32. lia. }
  assert (forall l b, Forall u32 l -> u32 (fst b) -> u32 (fst (foldl (less_loaded w (cpu_affinity t)) b l))) as Hfold.
  { induction l as [|d l IH]; intros b Hl Hb; simpl; [done|]. apply Forall_cons in Hl as [Hd Hl]. apply IH; [done|].
    unfold less_loaded. destruct (cpuset_is_set _ d); [|done]. by destruct (_ <? _). }
  apply Hfold; [|done]. apply Forall_forall. intros d Hd%elem_of_seqZ. pose proof (wt_active _ Hw). unfold u32 in *. lia.
Qed.

Lemma set_affinity_typed w cpu now pid set :
  world_typed w -> u32 cpu -> u64 now -> cpuset_wf set -> returns world_typed (set_affinity w cpu now pid set).
Proof.
  intros Hw Hc Hn Hs. unfold set_affinity. eapply returns_bind; [by eapply task_call_typed, affinity_section_typed|].
  intros [w1 [c|]] H1; [|by apply returns_done]. destruct (cpuset_is_set set c); [by apply returns_done|].
  eapply returns_bind; [eapply with_rq_typed; [done|apply migrate_section_typed]|].
  intros [w2 a] [H2 Ha]. apply (flatten_maybe task_typed) in Ha. simpl in Ha.
  destruct (flatten a) as [t|]; [|by apply returns_done].
  assert (world_typed (pid_to_cpu_clear pid w2)) as H3 by by apply hint_clear_typed.
  apply add_task_to_cpu_typed; try done. by apply select_typed.
Qed.

Lemma busiest_typed free w my c : world_typed w -> busiest free w my = Some c -> u32 c.
Proof.
  intros Hw Hb. destruct (SchedWorld.busiest_ok _ _ _ _ Hb) as [Hin _]. apply elem_of_seqZ in Hin.
  pose proof (wt_active _ Hw). unfold u32 in *. lia.
Qed.

Lemma steal_typed free w my now :
  world_typed w -> u32 my -> u64 now -> returns (fun x => world_typed (fst x)) (idle_try_steal free w my now).
Proof.
  intros Hw Hm Hn. unfold idle_try_steal. destruct (active_cpus w <=? 1); [by apply returns_done|].
  destruct (busiest free w my) as [v|]; [|by apply returns_done].
  eapply returns_bind; [eapply (try_with_rq_typed o_typed); [done|intros m r Hr; by apply steal_task_typed]|].
  intros [w1 a] [H1 Ha]. apply (flatten_maybe task_typed) in Ha. simpl in Ha.
  destruct (flatten a) as [t|]; [|by apply returns_done].
  eapply returns_bind; [by apply add_task_to_cpu_typed|]. intros w2 H2.
  apply (returns_bind world_typed); [|intros w3 H3; by apply returns_done].
  apply (rq_call_typed anything _ _ _ id); [done| |done]. intros m r Hr. apply returns_done.
  split; [by apply set_need_resched_typed|done].
Qed.

(** ** Histories *)

Lemma boot_world_typed : world_typed boot_world.
Proof. split; simpl; try apply map_Forall_empty; by vm_compute. Qed.

Lemma sched_step_typed w e : world_typed w -> event_typed e -> returns world_typed (sched_step w e).
Proof.
  intros Hw He. destruct e as [cpu idle_pid|this now t|cpu pid|cpu pid|cpu pid|free cpu pid|cpu st|cpu|free cpu b
    |cpu|cpu old next|cpu old new ctx count|cpu current ctx count|cpu new_pid|cpu pid p prio|cpu pid nice
    |cpu now pid set|cpu pid child|cpu pid status|free cpu now]; cbn [event_typed sched_step] in *; destruct_and?.
  - by apply init_cpu_typed.
  - apply add_task_to_cpu_typed; try done. by apply select_typed.
  - apply returns_fst. unfold remove_task.
    eapply returns_bind; [eapply with_task_typed; [done|apply remove_section_typed]|].
    intros [w1 [t|]] [H1 _]; apply returns_done; [by apply hint_clear_typed|done].
  - by apply wake_up_typed.
  - apply (returns_bind world_typed); [|intros w1 H1; by apply wake_up_typed].
    by apply returns_fst, task_call_typed, update_task_typed, clear_waiting_typed.
  - by apply returns_fst, try_wake_up_typed.
  - by apply (rq_call_typed anything _ _ _ id); [|apply block_section_typed|].
  - by apply (rq_call_typed anything _ _ _ id); [|apply yield_section_typed|].
  - by apply returns_fst, tick_typed.
  - apply returns_fst. eapply returns_mono; [|by apply pick_typed]. by intros x [? _].
  - by apply undo_typed.
  - by apply returns_fst, transaction_typed.
  - by apply returns_fst, switch_process_typed.
  - apply (rq_call_typed anything _ _ _ (set_current_pid_lockfree cpu new_pid)); [done| |].
    + intros m r Hr. apply switch_section_typed; try done. apply Hw.
    + intros w1 Hw1. by apply set_current_typed.
  - by apply returns_fst, task_call_typed, set_scheduler_section_typed.
  - apply returns_fst. unfold set_task_nice.
    eapply returns_bind; [by apply task_call_typed, update_task_typed, set_nice_typed|].
    intros [w1 a] Hw1. by apply returns_done.
  - by apply set_affinity_typed.
  - by apply returns_fst, task_call_typed, update_task_typed, wait_for_child_typed.
  - by apply returns_fst, task_call_typed, exit_section_typed.
  - by apply returns_fst, steal_typed.
Qed.

Lemma sched_run_typed es : forall w, world_typed w -> Forall event_typed es -> returns world_typed (sched_run w es).
Proof.
  induction es as [|e es IH]; intros w Hw Hes; cbn [sched_run]; [by apply returns_done|].
  apply Forall_cons in Hes as [He Hes]. eapply returns_bind; [by apply sched_step_typed|]. intros w1 H1. by apply IH.
Qed.


Lemma example_typed : Forall event_typed example_history.
Proof.
  assert (forall pid, u32 pid -> task_typed (task_new pid 1)) as Hnew.
  { intros pid Hp. split; try done. split; [done|]. repeat constructor; by vm_compute. }
  assert (context_typed default_context) as Hctx by done.
  assert (cpuset_wf (cpuset_single 1)) as Hset by (split; [done|]; repeat constructor; by vm_compute).
  unfold example_history.
  repeat (apply Forall_cons; split; [cbn [event_typed]; split_and?; try done; auto|]); [..|by apply Forall_nil].
  all: try (by apply Hnew). by apply with_scheduler_typed, Hnew.
Qed.

