(* ===== verification/Heap.v ===== *)
(** * The linked-list heap

    [mm/mm-heap/src/linked_list.rs]: the free blocks of the kernel heap, kept in a
    list sorted by address, allocated first fit and merged with their neighbours
    when they are freed.  The nodes of the list live in the free blocks; here the
    list holds the address and size of each block.

    The callback that asks the buddy allocator for more memory is an argument of
    [allocate].  The null pointer is 0. *)
From S2P Require Import Prelude Addr.

Record FreeBlock := Free { fb_start : Z; fb_size : Z }.

(** [size_of::<FreeBlock>()] and [align_of::<FreeBlock>()]. *)
Definition FREE_BLOCK_SIZE : Z := 16.
Definition FREE_BLOCK_ALIGN : Z := 8.
Definition ISIZE_MAX : Z := 2 ^ 63 - 1.

Record LinkedListAllocator := {
  blocks : list FreeBlock;
  total_size : Z;
  used_size : Z
}.

Definition heap_empty : LinkedListAllocator := {| blocks := []; total_size := 0; used_size := 0 |}.

Definition end_addr (b : FreeBlock) : outcome Z := add64 (fb_start b) (fb_size b).

Definition heap_align_up (addr align : Z) : outcome Z :=
  s ← add64 addr align; t ← sub64 s 1; m ← sub64 align 1; Done (Z.ldiff t m).

(** ** Freeing *)

(** The walk to the position of [b]: after the blocks at lower addresses. *)
Fixpoint insert_block (b : FreeBlock) (l : list FreeBlock) : list FreeBlock :=
  match l with
  | c :: l' => if fb_start c <? fb_start b then c :: insert_block b l' else b :: l
  | [] => [b]
  end.

(** The loop of [merge_adjacent_blocks] at the block [b]. *)
Fixpoint merge_from (b : FreeBlock) (l : list FreeBlock) : outcome (list FreeBlock) :=
  e ← end_addr b;
  match l with
  | [] => Done [b]
  | n :: l =>
      if e =? fb_start n then s ← add64 (fb_size b) (fb_size n); merge_from (Free (fb_start b) s) l
      else l ← merge_from n l; Done (b :: l)
  end.

Definition merge_adjacent_blocks (l : list FreeBlock) : outcome (list FreeBlock) :=
  match l with [] => Done [] | b :: l => merge_from b l end.

Definition add_free_region (l : list FreeBlock) (addr size : Z) : outcome (list FreeBlock) :=
  a ← heap_align_up addr FREE_BLOCK_ALIGN;
  loss ← sub64 a addr;
  if size <=? loss then Done l
  else if size - loss <? FREE_BLOCK_SIZE then Done l
  else merge_adjacent_blocks (insert_block (Free a (size - loss)) l).

Definition heap_init (h : LinkedListAllocator) (heap_start heap_size : Z) : outcome LinkedListAllocator :=
  l ← add_free_region (blocks h) heap_start heap_size;
  Done {| blocks := l; total_size := heap_size; used_size := 0 |}.

(** ** Allocating *)

(** Size and alignment of a layout, made fit for a free block. *)
Definition size_align (size align : Z) : outcome (Z * Z) :=
  let a := Z.max align FREE_BLOCK_ALIGN in
  if ISIZE_MAX - (a - 1) <? size then Fault
  else Done (Z.max (Z.ldiff (size + a - 1) (a - 1)) FREE_BLOCK_SIZE, a).

Definition alloc_from_block (b : FreeBlock) (size align : Z) : outcome (option (Z * Z)) :=
  s ← heap_align_up (fb_start b) align;
  if U64 <=? s + size then Done None else
  e ← end_addr b;
  if e <? s + size then Done None else
  front ← sub64 s (fb_start b);
  if (0 <? front) && (front <? FREE_BLOCK_SIZE) then Done None else
  back ← sub64 e (s + size);
  if (0 <? back) && (back <? FREE_BLOCK_SIZE) then Done None else
  Done (Some (s, s + size)).

(** What is left of the block [b] when [alloc_start, alloc_end) is taken. *)
Definition remainder (b : FreeBlock) (alloc_start alloc_end : Z) : outcome (list FreeBlock) :=
  e ← end_addr b;
  front ← sub64 alloc_start (fb_start b);
  back ← sub64 e alloc_end;
  Done ((if FREE_BLOCK_SIZE <=? front then [Free (fb_start b) front] else []) ++
        (if FREE_BLOCK_SIZE <=? back then [Free alloc_end back] else [])).

(** The first block that can serve the request. *)
Fixpoint first_fit (l : list FreeBlock) (size align : Z) : outcome (option (Z * Z * list FreeBlock)) :=
  match l with
  | [] => Done None
  | b :: l =>
      r ← alloc_from_block b size align;
      match r with
      | Some (s, e) => rest ← remainder b s e; Done (Some (s, e, rest ++ l))
      | None =>
          r ← first_fit l size align;
          Done (match r with Some (s, e, l) => Some (s, e, b :: l) | None => None end)
      end
  end.

Definition allocate (h : LinkedListAllocator) (grow : option (Z -> option (Z * Z))) (lsize lalign : Z) :
    outcome (LinkedListAllocator * Z) :=
  '(size, align) ← size_align lsize lalign;
  r ← first_fit (blocks h) size align;
  match r with
  | Some (s, e, l) =>
      u ← add64 (used_size h) (e - s);
      Done ({| blocks := l; total_size := total_size h; used_size := u |}, s)
  | None =>
      match grow with
      | None => Done (h, 0)
      | Some grow_fn =>
          match grow_fn (Z.max size (4096 * 4)) with
          | None => Done (h, 0)
          | Some (addr, region_size) =>
              l ← add_free_region (blocks h) addr region_size;
              t ← add64 (total_size h) region_size;
              r ← first_fit l size align;
              match r with
              | Some (s, e, l) =>
                  u ← add64 (used_size h) (e - s);
                  Done ({| blocks := l; total_size := t; used_size := u |}, s)
              | None => Done ({| blocks := l; total_size := t; used_size := used_size h |}, 0)
              end
          end
      end
  end.

Definition deallocate (h : LinkedListAllocator) (ptr lsize lalign : Z) : outcome LinkedListAllocator :=
  '(size, _) ← size_align lsize lalign;
  l ← add_free_region (blocks h) ptr size;
  Done {| blocks := l; total_size := total_size h; used_size := Z.max (used_size h - size) 0 |}.

Definition heap_free (h : LinkedListAllocator) : Z := Z.max (total_size h - used_size h) 0.

(** ** The free set *)

Definition inside (b : FreeBlock) (a : Z) : Prop := fb_start b <= a < fb_start b + fb_size b.

(** The byte at [a] is free. *)
Definition free_at (l : list FreeBlock) (a : Z) : Prop := Exists (fun b => inside b a) l.

(** A block that can be in the list. *)
Definition block_ok (b : FreeBlock) : Prop :=
  0 <= fb_start b /\ FREE_BLOCK_SIZE <= fb_size b /\ (FREE_BLOCK_ALIGN | fb_start b) /\
  fb_start b + fb_size b < U64.

(** Sorted, with a gap between any two blocks: [lo] is the end of the block before. *)
Fixpoint ordered (lo : Z) (l : list FreeBlock) : Prop :=
  match l with
  | [] => True
  | b :: l => lo < fb_start b /\ block_ok b /\ ordered (fb_start b + fb_size b) l
  end.

(** Sorted and disjoint, but perhaps adjacent. *)
Fixpoint disjoint_from (lo : Z) (l : list FreeBlock) : Prop :=
  match l with
  | [] => True
  | b :: l => lo <= fb_start b /\ block_ok b /\ disjoint_from (fb_start b + fb_size b) l
  end.

Definition bytes (l : list FreeBlock) : Z := foldr (fun b n => fb_size b + n) 0 l.

Lemma ordered_weaken lo lo' l : lo' <= lo -> ordered lo l -> ordered lo' l.
Proof. destruct l as [|b l]; simpl; [done|]. intros ? (? & ? & ?). split_and!; [lia|done..]. Qed.

Lemma ordered_disjoint lo l : ordered lo l -> disjoint_from lo l.
Proof. revert lo. induction l as [|b l IH]; intros lo; simpl; [done|]. intros (? & ? & ?). split_and!; [lia|done|auto]. Qed.

Lemma disjoint_lower lo l a : disjoint_from lo l -> free_at l a -> lo <= a.
Proof.
  revert lo. induction l as [|b l IH]; intros lo; simpl; [by intros _ ?%Exists_nil|].
  intros (Hlo & (? & ? & _) & Hl) [Hb|Ha]%Exists_cons; [unfold inside in Hb; lia|].
  specialize (IH _ Hl Ha). unfold FREE_BLOCK_SIZE in *. lia.
Qed.

Lemma ordered_above lo l a : ordered lo l -> free_at l a -> lo < a.
Proof.
  destruct l as [|b l]; simpl; [by intros _ ?%Exists_nil|].
  intros (Hlo & (? & ? & _) & Hl) [Hb|Ha]%Exists_cons; [unfold inside in Hb; lia|].
  apply ordered_disjoint in Hl. pose proof (disjoint_lower _ _ _ Hl Ha). unfold FREE_BLOCK_SIZE in *. lia.
Qed.

Lemma ordered_bytes lo l : ordered lo l -> 0 <= bytes l.
Proof.
  revert lo. induction l as [|b l IH]; intros lo; simpl; [lia|]. fold (bytes l).
  intros (_ & (_ & Hs & _) & Ho). unfold FREE_BLOCK_SIZE in Hs. specialize (IH _ Ho). lia.
Qed.

(** The list is determined by the bytes that are free. *)
Lemma ordered_canonical l1 : forall lo l2,
  ordered lo l1 -> ordered lo l2 -> (forall a, free_at l1 a <-> free_at l2 a) -> l1 = l2.
Proof.
  induction l1 as [|[s1 n1] l1 IH]; intros lo [|[s2 n2] l2] H1 H2 Heq; simpl in *.
  - done.
  - destruct H2 as (_ & (_ & Hn & _) & _). simpl in Hn. exfalso.
    apply (Exists_nil (fun b => inside b s2)), Heq. left. unfold inside, FREE_BLOCK_SIZE in *. simpl. lia.
  - destruct H1 as (_ & (_ & Hn & _) & _). simpl in Hn. exfalso.
    apply (Exists_nil (fun b => inside b s1)), Heq. left. unfold inside, FREE_BLOCK_SIZE in *. simpl. lia.
  - destruct H1 as (Hlo1 & (Hp1 & Hn1 & _ & _) & H1), H2 as (Hlo2 & (Hp2 & Hn2 & _ & _) & H2).
    simpl in *. unfold FREE_BLOCK_SIZE in *.
    assert (forall l s n a, ordered (s + n) l -> free_at (Free s n :: l) a -> a <> s + n /\ (s <= a < s + n \/ s + n < a)) as Hab.
    { intros l s n a Ho [Hb|Ha]%Exists_cons; [unfold inside in Hb; simpl in Hb; lia|].
      pose proof (ordered_above _ _ _ Ho Ha). lia. }
    assert (forall l s n a, s <= a < s + n -> free_at (Free s n :: l) a) as Hin.
    { intros l s n a Ha. left. done. }
    assert (s1 = s2) as <-.
    { pose proof (Hab _ _ _ s1 H2 (proj1 (Heq s1) (Hin l1 s1 n1 s1 ltac:(lia)))).
      pose proof (Hab _ _ _ s2 H1 (proj2 (Heq s2) (Hin l2 s2 n2 s2 ltac:(lia)))). lia. }
    assert (n1 = n2) as <-.
    { destruct (Z.lt_trichotomy n1 n2) as [Hlt|[?|Hlt]]; [|done|].
      - pose proof (Hab _ _ _ _ H1 (proj2 (Heq (s1 + n1)) (Hin l2 s1 n2 (s1 + n1) ltac:(lia)))). lia.
      - pose proof (Hab _ _ _ _ H2 (proj1 (Heq (s1 + n2)) (Hin l1 s1 n1 (s1 + n2) ltac:(lia)))). lia. }
    f_equal. apply (IH (s1 + n1)); [done..|]. intros a. specialize (Heq a). unfold free_at in *.
    rewrite !Exists_cons in Heq. split; intros Ha.
    + destruct (proj1 Heq (or_intror Ha)) as [Hb|]; [|done].
      pose proof (ordered_above _ _ _ H1 Ha). unfold inside in Hb. simpl in Hb. lia.
    + destruct (proj2 Heq (or_intror Ha)) as [Hb|]; [|done].
      pose proof (ordered_above _ _ _ H2 Ha). unfold inside in Hb. simpl in Hb. lia.
Qed.

(** ** Inserting and merging *)

(** The block [b] overlaps no block of [l]. *)
Definition apart (b : FreeBlock) (l : list FreeBlock) : Prop := forall a, inside b a -> ~ free_at l a.

Lemma bytes_app l k : bytes (l ++ k) = bytes l + bytes k.
Proof. induction l as [|b l IH]; simpl; [done|]. fold (bytes (l ++ k)) (bytes l). rewrite IH. lia. Qed.

Lemma insert_block_ok b l : forall lo,
  ordered lo l -> lo <= fb_start b -> block_ok b -> apart b l ->
  disjoint_from lo (insert_block b l) /\
  (forall a, free_at (insert_block b l) a <-> inside b a \/ free_at l a) /\
  bytes (insert_block b l) = bytes l + fb_size b.
Proof.
  induction l as [|c l IH]; intros lo Ho Hlo Hb Hap; cbn [insert_block].
  { split_and!; [done| |simpl; lia]. intros a. unfold free_at. rewrite Exists_cons. done. }
  destruct Ho as (Hc & Hcok & Ho). pose proof Hb as (Hb0 & Hbs & _). pose proof Hcok as (_ & Hcs & _).
  unfold FREE_BLOCK_SIZE in *. destruct (Z.ltb_spec (fb_start c) (fb_start b)) as [Hlt|Hge].
  - assert (fb_start c + fb_size c <= fb_start b) as Hend.
    { destruct (decide (fb_start c + fb_size c <= fb_start b)); [done|].
      destruct (Hap (fb_start b)); [unfold inside; lia|]. left. unfold inside. lia. }
    destruct (IH (fb_start c + fb_size c) Ho Hend Hb) as (H1 & H2 & H3).
    { intros a Ha Hf. by apply (Hap a Ha), Exists_cons_tl. }
    split; [split; [lia|split; done]|]. split; [|simpl; fold (bytes (insert_block b l)) (bytes l); lia].
    intros a. unfold free_at in *. rewrite !Exists_cons, H2. tauto.
  - assert (fb_start b + fb_size b <= fb_start c) as Hend.
    { destruct (decide (fb_start b + fb_size b <= fb_start c)); [done|].
      destruct (Hap (fb_start c)); [unfold inside; lia|]. left. unfold inside. lia. }
    split; [split; [done|]; split; [done|]; split; [lia|]; split; [done|by apply ordered_disjoint]|].
    split; [|simpl; lia].
    intros a. unfold free_at. by rewrite Exists_cons.
Qed.

Lemma end_addr_ok b : block_ok b -> end_addr b = Done (fb_start b + fb_size b).
Proof. intros (_ & _ & _ & H). by apply add64_ok. Qed.

Lemma merge_from_ok l : forall b,
  block_ok b -> disjoint_from (fb_start b + fb_size b) l ->
  exists l', merge_from b l = Done l' /\ (forall lo, lo < fb_start b -> ordered lo l') /\
    (forall a, free_at l' a <-> inside b a \/ free_at l a) /\ bytes l' = fb_size b + bytes l.
Proof.
  induction l as [|n l IH]; intros b Hb Hl; cbn [merge_from]; rewrite (end_addr_ok b Hb); cbn [mbind outcome_bind].
  { exists [b]. split_and!; [done|done| |done]. intros a. unfold free_at. by rewrite Exists_cons. }
  destruct Hl as (Hlo & Hn & Hl). pose proof Hb as (Hb0 & Hbs & Hba & Hbe). pose proof Hn as (Hn0 & Hns & _ & Hne).
  unfold FREE_BLOCK_SIZE in *. destruct (Z.eqb_spec (fb_start b + fb_size b) (fb_start n)) as [E|E].
  - rewrite add64_ok by lia. cbn [mbind outcome_bind].
    destruct (IH (Free (fb_start b) (fb_size b + fb_size n))) as (l' & -> & H1 & H2 & H3).
    { split_and!; simpl; unfold FREE_BLOCK_SIZE; try done; lia. }
    { simpl. by replace (fb_start b + (fb_size b + fb_size n)) with (fb_start n + fb_size n) by lia. }
    exists l'. split_and!; [done|done| |rewrite H3; simpl; fold (bytes l); lia].
    intros a. rewrite H2. unfold free_at, inside. rewrite Exists_cons. simpl. unfold inside. intuition lia.
  - destruct (IH n Hn Hl) as (l' & -> & H1 & H2 & H3). cbn [mbind outcome_bind].
    exists (b :: l'). split_and!; [done| | |simpl; fold (bytes l') (bytes l); lia].
    + intros lo Hlo'. split_and!; [done|done|]. apply H1. lia.
    + intros a. unfold free_at in *. by rewrite !Exists_cons, H2.
Qed.

(** ** Rounding *)

Lemma heap_align_up_ok a n :
  0 <= a -> a + pow2 n < U64 ->
  exists s, heap_align_up a (pow2 n) = Done s /\ a <= s < a + pow2 n /\ (pow2 n | s) /\
    ((pow2 n | a) -> s = a).
Proof.
  intros Ha Hlt. pose proof (pow2_pos n) as Hp. unfold heap_align_up. rewrite add64_ok by done.
  cbn [mbind outcome_bind]. rewrite !sub64_ok by lia. cbn [mbind outcome_bind]. rewrite ldiff_mask.
  pose proof (Z.mod_pos_bound (a + pow2 n - 1) (pow2 n) Hp) as Hm.
  eexists. split; [done|]. split_and!; [lia|lia| |].
  - exists ((a + pow2 n - 1) / pow2 n). pose proof (Z.div_mod (a + pow2 n - 1) (pow2 n)). lia.
  - intros [k ->]. replace (k * pow2 n + pow2 n - 1) with (pow2 n - 1 + k * pow2 n) by lia.
    rewrite Z.mod_add, Z.mod_small by lia. lia.
Qed.

Lemma align_up_8 a : 0 <= a -> a + 8 < U64 -> (8 | a) -> heap_align_up a FREE_BLOCK_ALIGN = Done a.
Proof. intros Ha Hlt Hd. destruct (heap_align_up_ok a 3 Ha Hlt) as (s & E & _ & _ & Hs). by rewrite <- (Hs Hd) at 2. Qed.

(** The size of a layout: at least what was asked for, a multiple of the
    alignment, which is a power of two not below 8. *)
Lemma size_align_ok size n :
  0 <= size -> size + Z.max (pow2 n) 8 - 1 <= ISIZE_MAX ->
  exists s k, size_align size (pow2 n) = Done (s, pow2 k) /\ (3 <= k)%nat /\ (n <= k)%nat /\
    size <= s /\ FREE_BLOCK_SIZE <= s /\ (8 | s) /\ s <= Z.max 16 (size + pow2 k).
Proof.
  intros Hs Hmax. unfold size_align, FREE_BLOCK_ALIGN, FREE_BLOCK_SIZE.
  assert (exists k, Z.max (pow2 n) 8 = pow2 k /\ (3 <= k)%nat /\ (n <= k)%nat) as (k & Ek & H3 & Hn).
  { destruct (decide (3 <= n)%nat) as [Hle|Hlt].
    - exists n. split_and!; [|done|done]. apply Z.max_l. change 8 with (pow2 3). unfold pow2. apply Z.pow_le_mono_r; lia.
    - exists 3%nat. split_and!; [|lia|lia]. apply Z.max_r. change 8 with (pow2 3). unfold pow2. apply Z.pow_le_mono_r; lia. }
  rewrite Ek in Hmax |- *. destruct (Z.ltb_spec (ISIZE_MAX - (pow2 k - 1)) size); [lia|].
  pose proof (pow2_pos k) as Hp. rewrite ldiff_mask.
  pose proof (Z.mod_pos_bound (size + pow2 k - 1) (pow2 k) Hp) as Hm.
  eexists _, k. split; [done|]. split_and!; [done|done|lia|lia| |lia].
  assert ((8 | size + pow2 k - 1 - (size + pow2 k - 1) mod pow2 k)) as H8.
  { apply (Z.divide_trans _ (pow2 k)).
    - replace k with (3 + (k - 3))%nat by lia. rewrite pow2_add. change (pow2 3) with 8. apply Z.divide_factor_l.
    - exists ((size + pow2 k - 1) / pow2 k). pose proof (Z.div_mod (size + pow2 k - 1) (pow2 k)). lia. }
  destruct (Z.max_spec (size + pow2 k - 1 - (size + pow2 k - 1) mod pow2 k) 16) as [[_ ->]|[_ ->]]; [by exists 2|done].
Qed.

(** ** [add_free_region] *)

(** A region that is aligned and large enough is added whole. *)
Lemma add_free_region_ok l addr size :
  ordered (-1) l -> block_ok (Free addr size) -> addr + 8 < U64 -> apart (Free addr size) l ->
  exists l', add_free_region l addr size = Done l' /\ ordered (-1) l' /\
    (forall a, free_at l' a <-> addr <= a < addr + size \/ free_at l a) /\ bytes l' = bytes l + size.
Proof.
  intros Ho Hb H8 Hap. pose proof Hb as (H0 & Hs & Hd & _). simpl in *. unfold add_free_region.
  rewrite align_up_8 by done. cbn [mbind outcome_bind]. rewrite sub64_ok by lia. cbn [mbind outcome_bind].
  rewrite Z.sub_diag, Z.sub_0_r. unfold FREE_BLOCK_SIZE in Hs.
  destruct (Z.leb_spec size 0); [lia|]. destruct (Z.ltb_spec size FREE_BLOCK_SIZE); [unfold FREE_BLOCK_SIZE in *; lia|].
  destruct (insert_block_ok (Free addr size) l (-1) Ho) as (I1 & I2 & I3); [simpl; lia|done..|].
  unfold merge_adjacent_blocks. destruct (insert_block (Free addr size) l) as [|b l1] eqn:E.
  { exfalso. apply (Exists_nil (fun b => inside b addr)), I2. left. unfold inside. simpl. lia. }
  destruct I1 as (Hlo & Hbok & Hdis). destruct (merge_from_ok l1 b Hbok Hdis) as (l' & -> & M1 & M2 & M3).
  exists l'. split_and!; [done|apply M1; destruct Hbok; lia| |].
  - intros a. rewrite M2. specialize (I2 a). unfold free_at in *. rewrite Exists_cons in I2. exact I2.
  - simpl in I3. fold (bytes l1) in I3. lia.
Qed.

(** ** First fit *)

(** The block [b] can serve the request: what the allocation leaves before and
    after it is nothing or large enough for a free block. *)
Definition serves (b : FreeBlock) (size align : Z) : Prop :=
  exists s, (align | s) /\ fb_start b <= s < fb_start b + align /\ s + size <= fb_start b + fb_size b /\
    (s = fb_start b \/ fb_start b + FREE_BLOCK_SIZE <= s) /\
    (s + size = fb_start b + fb_size b \/ s + size + FREE_BLOCK_SIZE <= fb_start b + fb_size b).

Lemma multiple_unique d a s t : 0 < d -> (d | s) -> (d | t) -> a <= s < a + d -> a <= t < a + d -> s = t.
Proof. intros Hd [k ->] [j ->] H1 H2. assert (k = j) as ->; [nia|done]. Qed.

Lemma alloc_from_block_ok b size n :
  block_ok b -> 0 < size -> fb_start b + pow2 n < U64 ->
  (alloc_from_block b size (pow2 n) = Done None /\ ~ serves b size (pow2 n)) \/
  exists s, alloc_from_block b size (pow2 n) = Done (Some (s, s + size)) /\ (pow2 n | s) /\
    fb_start b <= s /\ s + size <= fb_start b + fb_size b /\
    (s = fb_start b \/ fb_start b + FREE_BLOCK_SIZE <= s) /\
    (s + size = fb_start b + fb_size b \/ s + size + FREE_BLOCK_SIZE <= fb_start b + fb_size b).
Proof.
  intros Hb Hsz Hlt. pose proof Hb as (H0 & Hbs & _ & He). unfold alloc_from_block, serves, FREE_BLOCK_SIZE in *.
  destruct (heap_align_up_ok (fb_start b) n H0 Hlt) as (s & -> & Hs & Hd & _). cbn [mbind outcome_bind].
  assert ((s + size <= fb_start b + fb_size b ->
      (s = fb_start b \/ fb_start b + 16 <= s) ->
      (s + size = fb_start b + fb_size b \/ s + size + 16 <= fb_start b + fb_size b) -> False) ->
    ~ serves b size (pow2 n)) as Hnone.
  { intros Hno. intros (t & Hd' & Ht & ? & ? & ?).
    assert (t = s) as -> by (apply (multiple_unique (pow2 n) (fb_start b)); try done; apply pow2_pos). by apply Hno. }
  destruct (Z.leb_spec U64 (s + size)); [left; split; [done|apply Hnone; lia]|]. rewrite (end_addr_ok b Hb). cbn [mbind outcome_bind].
  destruct (Z.ltb_spec (fb_start b + fb_size b) (s + size)); [left; split; [done|apply Hnone; lia]|].
  rewrite (sub64_ok s (fb_start b)) by lia. cbn [mbind outcome_bind].
  destruct ((0 <? s - fb_start b) && (s - fb_start b <? 16)) eqn:Ef; [left; split; [done|apply Hnone; lia]|].
  rewrite sub64_ok by lia. cbn [mbind outcome_bind]. set (back := fb_start b + fb_size b - (s + size)).
  destruct ((0 <? back) && (back <? 16)) eqn:Ek; [left; split; [done|apply Hnone; lia]|].
  right. exists s. split_and!; try done; lia.
Qed.

(** The pieces left of a block: they are the block without the allocation. *)
Lemma remainder_ok b s size :
  block_ok b -> 0 < size -> (8 | s) -> (8 | size) -> fb_start b <= s -> s + size <= fb_start b + fb_size b ->
  (s = fb_start b \/ fb_start b + FREE_BLOCK_SIZE <= s) ->
  (s + size = fb_start b + fb_size b \/ s + size + FREE_BLOCK_SIZE <= fb_start b + fb_size b) ->
  exists rest, remainder b s (s + size) = Done rest /\
    (forall a, free_at rest a <-> inside b a /\ ~ (s <= a < s + size)) /\ bytes rest = fb_size b - size /\
    forall lo l, lo < fb_start b -> ordered (fb_start b + fb_size b) l -> ordered lo (rest ++ l).
Proof.
  intros Hb Hsz H8s H8z Hlo Hhi Hf Hk. pose proof Hb as (H0 & Hbs & Hd & He). unfold remainder.
  rewrite (end_addr_ok b Hb). cbn [mbind outcome_bind]. rewrite !sub64_ok by lia. cbn [mbind outcome_bind].
  assert ((8 | s + size)) as H8e by by apply Z.divide_add_r.
  unfold FREE_BLOCK_SIZE, FREE_BLOCK_ALIGN in *. eexists. split; [done|].
  destruct (Z.leb_spec 16 (s - fb_start b)), (Z.leb_spec 16 (fb_start b + fb_size b - (s + size))); simpl;
    (split; [intros a; unfold free_at, inside; rewrite ?Exists_cons, ?Exists_nil; simpl; unfold inside; simpl; lia|]);
    (split; [lia|]); intros lo l Hl Hord; unfold block_ok; simpl; unfold FREE_BLOCK_SIZE, FREE_BLOCK_ALIGN;
    repeat match goal with |- _ /\ _ => split end; try done; try lia;
    (eapply ordered_weaken; [|exact Hord]); lia.
Qed.

(** What an allocation of [size] bytes at [s] makes of the list. *)
Record carved (l l' : list FreeBlock) (s size : Z) : Prop := {
  carved_free : forall a, s <= a < s + size -> free_at l a;
  carved_rest : forall a, free_at l' a <-> free_at l a /\ ~ (s <= a < s + size);
  carved_bytes : bytes l' = bytes l - size
}.

Lemma first_fit_ok l size n : forall lo,
  ordered lo l -> 0 < size -> (8 | size) -> (3 <= n)%nat ->
  (forall a, free_at l a -> a + pow2 n < U64) ->
  (first_fit l size (pow2 n) = Done None /\ Forall (fun b => ~ serves b size (pow2 n)) l) \/
  exists s l', first_fit l size (pow2 n) = Done (Some (s, s + size, l')) /\ (pow2 n | s) /\
    ordered lo l' /\ carved l l' s size.
Proof.
  induction l as [|b l IH]; intros lo Ho Hsz H8 Hn Hlim; cbn [first_fit]; [by left|].
  destruct Ho as (Hlo & Hb & Ho). pose proof Hb as (H0 & Hbs & _). unfold FREE_BLOCK_SIZE in Hbs.
  assert ((8 | pow2 n)) as H8n.
  { replace n with (3 + (n - 3))%nat by lia. rewrite pow2_add. change (pow2 3) with 8. apply Z.divide_factor_l. }
  destruct (alloc_from_block_ok b size n Hb Hsz) as [[-> Hno]|(s & -> & Hd & H1 & H2 & H3 & H4)].
  { apply Hlim. left. unfold inside. lia. }
  - cbn [mbind outcome_bind]. destruct (IH (fb_start b + fb_size b) Ho Hsz H8 Hn) as [[-> Hall]|(s & l' & -> & Hd & Ho' & [C1 C2 C3])].
    { intros a Ha. apply Hlim. by apply Exists_cons_tl. }
    + left. split; [done|]. by apply Forall_cons.
    + right. exists s, (b :: l'). cbn [mbind outcome_bind]. split_and!; [done|done|split; done|].
      assert (forall a, s <= a < s + size -> ~ inside b a) as Hout.
      { intros a Ha Hin. apply C1, (ordered_above _ _ _ Ho) in Ha. unfold inside in Hin. lia. }
      split.
      * intros a Ha. apply Exists_cons_tl. by apply C1.
      * intros a. unfold free_at in *. rewrite !Exists_cons, C2. specialize (Hout a). tauto.
      * simpl. fold (bytes l') (bytes l). lia.
  - right. cbn [mbind outcome_bind].
    destruct (remainder_ok b s size) as (rest & -> & R1 & R2 & R3); try done; [by eapply Z.divide_trans|].
    exists s, (rest ++ l). cbn [mbind outcome_bind]. split_and!; [done|done|by apply R3|].
    assert (forall a, s <= a < s + size -> inside b a) as Hin by (intros a Ha; unfold inside; lia).
    split.
    + intros a Ha. left. by apply Hin.
    + intros a. unfold free_at in *. rewrite Exists_app, Exists_cons, R1.
      assert (Exists (fun c => inside c a) l -> ~ (s <= a < s + size)).
      { intros Ha Hs. pose proof (ordered_above _ _ _ Ho Ha). lia. }
      tauto.
    + rewrite bytes_app, R2. simpl. fold (bytes l). lia.
Qed.
