(* ===== verification/HeapSys.v ===== *)
(** * Histories of the linked-list heap

    A heap initialised with one region, and clients that allocate, free, and let
    it grow by further regions.  [live] gives the allocations that were not freed
    yet by a name the client chose, [regions] the memory given to the heap.

    Every byte of the regions is at any time either free or in one allocation. *)
From S2P Require Import Prelude Addr Heap.

(** An allocation: its address, its layout and the bytes the heap set aside. *)
Record Live := { lv_ptr : Z; lv_size : Z; lv_align : nat; lv_foot : Z }.

Record HState := { hs_heap : LinkedListAllocator; hs_live : gmap Z Live; hs_regions : list FreeBlock }.

(** [HAlloc k size n reply]: allocate with alignment [2 ^ n], the growth callback
    answering [reply]; a result that is not null is named [k]. *)
Inductive hevent :=
| HAlloc (k size : Z) (n : nat) (reply : option (Z * Z))
| HFree (k : Z).

Definition foot (size : Z) (n : nat) : Z :=
  match size_align size (pow2 n) with Done (s, _) => s | _ => 0 end.

(** The state after [allocate] returned [h] and [ptr]. *)
Definition alloc_after (s : HState) (h : LinkedListAllocator) (ptr k size : Z) (n : nat) (reply : option (Z * Z)) :
    HState :=
  {| hs_heap := h;
     hs_live := if ptr =? 0 then hs_live s
                else <[k := {| lv_ptr := ptr; lv_size := size; lv_align := n; lv_foot := foot size n |}]> (hs_live s);
     hs_regions := match reply with
                   | Some (a, m) => if total_size h =? total_size (hs_heap s) then hs_regions s
                                    else Free a m :: hs_regions s
                   | None => hs_regions s
                   end |}.

Definition hstep (s : HState) (e : hevent) : outcome HState :=
  match e with
  | HAlloc k size n reply =>
      '(h, ptr) ← allocate (hs_heap s) (Some (fun _ => reply)) size (pow2 n);
      Done (alloc_after s h ptr k size n reply)
  | HFree k =>
      match hs_live s !! k with
      | None => Done s
      | Some x =>
          h ← deallocate (hs_heap s) (lv_ptr x) (lv_size x) (pow2 (lv_align x));
          Done {| hs_heap := h; hs_live := delete k (hs_live s); hs_regions := hs_regions s |}
      end
  end.

Fixpoint hrun (s : HState) (es : list hevent) : outcome HState :=
  match es with
  | [] => Done s
  | e :: es => s ← hstep s e; hrun s es
  end.

Definition hstart (start size : Z) : outcome HState :=
  h ← heap_init heap_empty start size;
  Done {| hs_heap := h; hs_live := ∅; hs_regions := [Free start size] |}.

(** ** What clients respect *)

Definition block_ok_b (b : FreeBlock) : bool :=
  (0 <? fb_start b) && (FREE_BLOCK_SIZE <=? fb_size b) && (fb_start b mod 8 =? 0).

(** All memory is below [top]. *)
Definition region_ok (top : Z) (b : FreeBlock) : bool :=
  block_ok_b b && (fb_start b + fb_size b <=? top).

Definition regions_apart (b c : FreeBlock) : bool :=
  (fb_start b + fb_size b <=? fb_start c) || (fb_start c + fb_size c <=? fb_start b).

Definition hpermitted (top : Z) (s : HState) (e : hevent) : bool :=
  match e with
  | HAlloc k size n reply =>
      bool_decide (hs_live s !! k = None) && (0 <=? size) &&
      (size + Z.max (pow2 n) 8 - 1 <=? ISIZE_MAX) && (top + Z.max (pow2 n) 8 <? U64) &&
      match reply with
      | Some (a, m) => region_ok top (Free a m) && forallb (regions_apart (Free a m)) (hs_regions s) &&
                       (total_size (hs_heap s) + m <? U64)
      | None => true
      end
  | HFree k => true
  end.

Fixpoint hpermitted_run (top : Z) (s : HState) (es : list hevent) : bool :=
  match es with
  | [] => true
  | e :: es => hpermitted top s e && match hstep s e with Done s => hpermitted_run top s es | _ => true end
  end.

(** ** The invariant *)

Definition lv_in (x : Live) (a : Z) : Prop := lv_ptr x <= a < lv_ptr x + lv_foot x.
Definition live_at (m : gmap Z Live) (a : Z) : Prop := exists k x, m !! k = Some x /\ lv_in x a.
Definition live_bytes (m : gmap Z Live) : Z := map_fold (fun _ x n => lv_foot x + n) 0 m.

(** What an allocation promises: not null, aligned, and large enough. *)
Record live_ok (x : Live) : Prop := {
  lo_pos : 0 < lv_ptr x;
  lo_foot : lv_foot x = foot (lv_size x) (lv_align x) /\ FREE_BLOCK_SIZE <= lv_foot x /\ lv_size x <= lv_foot x;
  lo_align : (pow2 (lv_align x) | lv_ptr x);
  lo_8 : (8 | lv_ptr x);
  lo_layout : 0 <= lv_size x /\ lv_size x + Z.max (pow2 (lv_align x)) 8 - 1 <= ISIZE_MAX
}.

Record hinv (top : Z) (s : HState) : Prop := {
  hi_order : ordered (-1) (blocks (hs_heap s));
  hi_ok : forall k x, hs_live s !! k = Some x -> live_ok x;
  hi_apart : forall k1 k2 x1 x2 a, hs_live s !! k1 = Some x1 -> hs_live s !! k2 = Some x2 ->
    lv_in x1 a -> lv_in x2 a -> k1 = k2;
  hi_free : forall a, free_at (blocks (hs_heap s)) a -> ~ live_at (hs_live s) a;
  hi_cover : forall a, free_at (hs_regions s) a <-> free_at (blocks (hs_heap s)) a \/ live_at (hs_live s) a;
  hi_regions : Forall (fun b => region_ok top b = true) (hs_regions s);
  hi_used : used_size (hs_heap s) = live_bytes (hs_live s);
  hi_total : total_size (hs_heap s) = used_size (hs_heap s) + bytes (blocks (hs_heap s));
  hi_limit : 0 <= used_size (hs_heap s) /\ total_size (hs_heap s) < U64;
  hi_top : top + 8 < U64
}.

Lemma heap_region_bounds top l a :
  Forall (fun b => region_ok top b = true) l -> free_at l a -> 0 < a < top.
Proof.
  intros Hl Ha. apply Exists_exists in Ha as (b & Hb & Hin). rewrite Forall_forall in Hl. specialize (Hl b Hb).
  unfold region_ok, block_ok_b, inside in *. lia.
Qed.

Lemma region_block top b : region_ok top b = true -> top < U64 -> block_ok b.
Proof.
  unfold region_ok, block_ok_b, block_ok, FREE_BLOCK_ALIGN. rewrite !andb_true_iff. intros [[[H1 H2] H3] H4] Ht.
  split_and!; [lia|lia| |lia]. apply Z.mod_divide; lia.
Qed.

(** Where the heap's memory lies. *)
Lemma hinv_bounds top s a :
  hinv top s -> free_at (blocks (hs_heap s)) a \/ live_at (hs_live s) a -> 0 < a < top.
Proof. intros Hi Ha. eapply heap_region_bounds; [apply Hi|]. by apply (hi_cover _ _ Hi). Qed.

Lemma live_bytes_insert m k x :
  m !! k = None -> live_bytes (<[k := x]> m) = lv_foot x + live_bytes m.
Proof.
  intros Hk. unfold live_bytes. apply (map_fold_insert_L (fun _ x n => lv_foot x + n)); [intros; lia|done].
Qed.

Lemma live_bytes_delete m k x :
  m !! k = Some x -> live_bytes m = lv_foot x + live_bytes (delete k m).
Proof.
  intros Hk. rewrite <- (insert_delete_id m k x Hk) at 1. rewrite live_bytes_insert; [done|apply lookup_delete_eq].
Qed.

Lemma live_at_insert m k x a :
  m !! k = None -> live_at (<[k := x]> m) a <-> lv_in x a \/ live_at m a.
Proof.
  intros Hk. unfold live_at. split.
  - intros (j & y & [[<- <-]|[Hne Hj]]%lookup_insert_Some & Ha); eauto.
  - intros [Ha|(j & y & Hj & Ha)]; [exists k, x; by rewrite lookup_insert_eq|].
    exists j, y. rewrite lookup_insert_ne; [done|]. congruence.
Qed.

(** ** Steps *)

Lemma layout_ok size n :
  0 <= size -> size + Z.max (pow2 n) 8 - 1 <= ISIZE_MAX ->
  exists k, size_align size (pow2 n) = Done (foot size n, pow2 k) /\ (3 <= k)%nat /\ (n <= k)%nat /\
    size <= foot size n /\ FREE_BLOCK_SIZE <= foot size n /\ (8 | foot size n) /\ pow2 k = Z.max (pow2 n) 8.
Proof.
  intros H0 Hmax. destruct (size_align_ok size n H0 Hmax) as (s & k & E & H3 & Hn & Hs & H16 & H8 & _).
  exists k. unfold foot. rewrite E. split_and!; try done. unfold size_align in E. destruct (_ <? _); [done|].
  injection E as _ Ek. by rewrite <- Ek.
Qed.

(** The state after [size] bytes at [p] were set aside for the client. *)
Definition took (s : HState) (l : list FreeBlock) (k p size : Z) (n : nat) : HState :=
  {| hs_heap := {| blocks := l; total_size := total_size (hs_heap s);
                   used_size := used_size (hs_heap s) + foot size n |};
     hs_live := <[k := {| lv_ptr := p; lv_size := size; lv_align := n; lv_foot := foot size n |}]> (hs_live s);
     hs_regions := hs_regions s |}.

Lemma hinv_took top s k size n l p :
  hinv top s -> hs_live s !! k = None -> 0 <= size -> size + Z.max (pow2 n) 8 - 1 <= ISIZE_MAX ->
  (Z.max (pow2 n) 8 | p) -> ordered (-1) l -> carved (blocks (hs_heap s)) l p (foot size n) ->
  0 < p /\ used_size (hs_heap s) + foot size n < U64 /\ hinv top (took s l k p size n).
Proof.
  intros Hi Hk H0 Hmax Hd Ho [C1 C2 C3].
  destruct (layout_ok size n H0 Hmax) as (j & _ & H3 & Hn & Hs & H16 & H8 & Ej).
  unfold FREE_BLOCK_SIZE in H16. rewrite <- Ej in Hd.
  assert (0 < p < top) as Hp by (apply (hinv_bounds top s); [done|left; apply C1; lia]).
  assert (forall i, (i <= j)%nat -> (pow2 i | p)) as Hdiv.
  { intros i Hij. apply (Z.divide_trans _ (pow2 j)); [|done].
    replace j with (i + (j - i))%nat by lia. rewrite pow2_add. apply Z.divide_factor_l. }
  pose proof (ordered_bytes _ _ Ho).
  pose proof (hi_total _ _ Hi). pose proof (hi_limit _ _ Hi). split_and!; [lia|lia|].
  assert (forall a, p <= a < p + foot size n -> ~ live_at (hs_live s) a) as Hnl.
  { intros a Ha. apply (hi_free _ _ Hi). by apply C1. }
  split; simpl.
  - done.
  - intros i x [[<- <-]|[_ Hx]]%lookup_insert_Some; [|by apply (hi_ok _ _ Hi i)].
    split; simpl; [lia|unfold FREE_BLOCK_SIZE; split_and!; [done|lia|lia]|by apply Hdiv| |done].
    change 8 with (pow2 3). by apply Hdiv.
  - intros k1 k2 x1 x2 a [[<- <-]|[N1 X1]]%lookup_insert_Some [[<- <-]|[N2 X2]]%lookup_insert_Some I1 I2.
    + done.
    + destruct (Hnl a I1). by exists k2, x2.
    + destruct (Hnl a I2). by exists k1, x1.
    + by eapply (hi_apart _ _ Hi).
  - intros a [Ha Hno]%C2. rewrite live_at_insert by done. intros [?|Hl]; [done|]. by eapply (hi_free _ _ Hi).
  - intros a. rewrite (hi_cover _ _ Hi), C2, live_at_insert by done. unfold lv_in. simpl.
    specialize (C1 a). destruct (decide (p <= a < p + foot size n)); tauto.
  - apply Hi.
  - rewrite live_bytes_insert, (hi_used _ _ Hi) by done. simpl. lia.
  - lia.
  - lia.
  - apply Hi.
Qed.

(** The state after the heap grew by a region. *)
Definition grew (s : HState) (l : list FreeBlock) (b : FreeBlock) : HState :=
  {| hs_heap := {| blocks := l; total_size := total_size (hs_heap s) + fb_size b;
                   used_size := used_size (hs_heap s) |};
     hs_live := hs_live s; hs_regions := b :: hs_regions s |}.

Lemma hinv_grew top s a m :
  hinv top s -> region_ok top (Free a m) = true -> forallb (regions_apart (Free a m)) (hs_regions s) = true ->
  total_size (hs_heap s) + m < U64 ->
  exists l, add_free_region (blocks (hs_heap s)) a m = Done l /\ hinv top (grew s l (Free a m)).
Proof.
  intros Hi Hreg Hap Hlt. pose proof (hi_top _ _ Hi) as Htop.
  pose proof (region_block top _ Hreg ltac:(lia)) as Hb.
  assert (forall x, a <= x < a + m -> ~ free_at (hs_regions s) x) as Hnew.
  { intros x Hx (c & Hc & Hin)%Exists_exists. rewrite forallb_forall in Hap.
    specialize (Hap c (proj1 (list_elem_of_In _ _) Hc)). unfold regions_apart, inside in *. simpl in *. lia. }
  destruct (add_free_region_ok (blocks (hs_heap s)) a m) as (l & E & Ho & Hf & Hbytes).
  - apply Hi.
  - done.
  - destruct Hb as (_ & H16 & _ & _). unfold region_ok, FREE_BLOCK_SIZE in *. simpl in *. lia.
  - intros x Hx Hfr. apply (Hnew x Hx). apply (hi_cover _ _ Hi). by left.
  - exists l. split; [done|]. split; simpl; try apply Hi.
    + done.
    + intros x [Hx|Hx]%Hf Hl; [|by apply (hi_free _ _ Hi x)]. apply (Hnew x Hx). apply (hi_cover _ _ Hi). by right.
    + intros x. unfold free_at at 1. rewrite Exists_cons. fold (free_at (hs_regions s) x).
      rewrite (hi_cover _ _ Hi), Hf. unfold inside. simpl. tauto.
    + apply Forall_cons. split; [done|apply Hi].
    + pose proof (hi_total _ _ Hi). lia.
    + split; [apply Hi|done].
Qed.

Lemma limit_ok top s n k :
  hinv top s -> top + Z.max (pow2 n) 8 < U64 -> pow2 k = Z.max (pow2 n) 8 ->
  forall a, free_at (blocks (hs_heap s)) a -> a + pow2 k < U64.
Proof. intros Hi Ht Ek a Ha. pose proof (hinv_bounds top s a Hi (or_introl Ha)). lia. Qed.

(** An allocation from the list as it is: it takes the block, or no block serves. *)
Lemma fit_ok top s k size n :
  hinv top s -> hs_live s !! k = None -> 0 <= size -> size + Z.max (pow2 n) 8 - 1 <= ISIZE_MAX ->
  top + Z.max (pow2 n) 8 < U64 ->
  let align := Z.max (pow2 n) 8 in
  (first_fit (blocks (hs_heap s)) (foot size n) align = Done None /\
   Forall (fun b => ~ serves b (foot size n) align) (blocks (hs_heap s))) \/
  exists p l, first_fit (blocks (hs_heap s)) (foot size n) align = Done (Some (p, p + foot size n, l)) /\
    0 < p /\ used_size (hs_heap s) + foot size n < U64 /\ hinv top (took s l k p size n).
Proof.
  intros Hi Hk H0 Hmax Htop align.
  destruct (layout_ok size n H0 Hmax) as (j & _ & H3 & Hn & Hs & H16 & H8 & Ej). unfold align. rewrite <- Ej.
  unfold FREE_BLOCK_SIZE in H16.
  destruct (first_fit_ok (blocks (hs_heap s)) (foot size n) j (-1)) as [[E Hno]|(p & l & E & Hd & Ho & Hc)];
    [apply Hi|lia|done|done|by eapply limit_ok|by left|].
  right. exists p, l. split; [done|]. rewrite Ej in Hd. by apply hinv_took.
Qed.

(** What an allocation of [size] bytes leaves, when growth answers [reply]: the
    block from the list, or the block from the list with the new region, or a
    null pointer when no block of the list, or of the extended list, serves. *)
Inductive alloc_result (top : Z) (s : HState) (k size : Z) (n : nat) (reply : option (Z * Z)) : HState -> Prop :=
| Fits p l : 0 < p -> hinv top (took s l k p size n) -> alloc_result top s k size n reply (took s l k p size n)
| Full : reply = None ->
    Forall (fun b => ~ serves b (foot size n) (Z.max (pow2 n) 8)) (blocks (hs_heap s)) ->
    alloc_result top s k size n reply s
| GrownFits a m l p l' : reply = Some (a, m) -> hinv top (grew s l (Free a m)) -> 0 < p ->
    hinv top (took (grew s l (Free a m)) l' k p size n) ->
    alloc_result top s k size n reply (took (grew s l (Free a m)) l' k p size n)
| GrownFull a m l : reply = Some (a, m) -> hinv top (grew s l (Free a m)) ->
    Forall (fun b => ~ serves b (foot size n) (Z.max (pow2 n) 8)) l ->
    alloc_result top s k size n reply (grew s l (Free a m)).

Lemma halloc_ok top s k size n reply :
  hinv top s -> hpermitted top s (HAlloc k size n reply) = true ->
  exists s', hstep s (HAlloc k size n reply) = Done s' /\ alloc_result top s k size n reply s'.
Proof.
  intros Hi Hp. cbn [hpermitted] in Hp. rewrite !andb_true_iff in Hp.
  destruct Hp as ((((Hk & H0) & Hmax) & Htop) & Hr).
  apply bool_decide_eq_true in Hk. apply Z.leb_le in H0, Hmax. apply Z.ltb_lt in Htop.
  destruct (layout_ok size n H0 Hmax) as (j & El & _ & _ & _ & H16 & _ & Ej). unfold FREE_BLOCK_SIZE in H16.
  cbn [hstep]. unfold allocate, alloc_after. rewrite El, Ej. cbn [mbind outcome_bind].
  destruct (fit_ok top s k size n Hi Hk H0 Hmax Htop) as [[E Hno]|(p & l & E & Hpos & Hu & Hi')];
    rewrite E; cbn [mbind outcome_bind].
  - destruct reply as [[a m]|]; cbn [mbind outcome_bind total_size hs_heap].
    + rewrite !andb_true_iff in Hr. destruct Hr as [[Hreg Hap] Hlt]. apply Z.ltb_lt in Hlt.
      destruct (hinv_grew top s a m Hi Hreg Hap Hlt) as (l & -> & Hg). cbn [mbind outcome_bind].
      rewrite add64_ok by done. cbn [mbind outcome_bind].
      destruct (fit_ok top (grew s l (Free a m)) k size n Hg Hk H0 Hmax Htop)
        as [[E' Hno']|(p & l' & E' & Hpos & Hu & Hi')]; cbn [grew hs_heap blocks] in E'; rewrite E';
        cbn [mbind outcome_bind total_size].
      all: assert ((total_size (hs_heap s) + m =? total_size (hs_heap s)) = false) as Em
        by (unfold region_ok, block_ok_b, FREE_BLOCK_SIZE in Hreg; simpl in Hreg; lia).
      * exists (grew s l (Free a m)). rewrite Em. split; [done|]. by eapply GrownFull.
      * cbn [grew hs_heap used_size] in Hu. replace (p + foot size n - p) with (foot size n) by lia.
        rewrite add64_ok by done. cbn [mbind outcome_bind]. rewrite (proj2 (Z.eqb_neq p 0)) by lia.
        cbn [total_size]. rewrite Em.
        exists (took (grew s l (Free a m)) l' k p size n). split; [done|]. by eapply GrownFits.
    + eexists. split; [done|]. simpl. destruct s. by apply Full.
  - replace (p + foot size n - p) with (foot size n) by lia.
    rewrite add64_ok by done. cbn [mbind outcome_bind total_size]. rewrite Z.eqb_refl.
    rewrite (proj2 (Z.eqb_neq p 0)) by lia. destruct reply as [[a m]|]; eexists; (split; [done|]); by apply Fits.
Qed.

Lemma alloc_result_inv top s k size n reply s' :
  hinv top s -> alloc_result top s k size n reply s' -> hinv top s'.
Proof. by intros Hi []. Qed.

(** What [allocate] returns, for the components built on the heap. *)
Lemma allocate_returns top s k size n reply :
  hinv top s -> hpermitted top s (HAlloc k size n reply) = true ->
  exists h ptr, allocate (hs_heap s) (Some (fun _ => reply)) size (pow2 n) = Done (h, ptr) /\ 0 <= ptr /\
    hinv top (alloc_after s h ptr k size n reply).
Proof.
  intros Hi Hp. destruct (halloc_ok top s k size n reply Hi Hp) as (s' & E & Hr).
  pose proof (alloc_result_inv _ _ _ _ _ _ _ Hi Hr) as Hi'. cbn [hstep] in E.
  destruct (allocate _ _ _ _) as [[h ptr]| |]; cbn [mbind outcome_bind] in E; [|done|done]. injection E as <-.
  exists h, ptr. split; [done|]. split; [|done]. destruct (Z.eqb_spec ptr 0) as [->|Hne]; [done|].
  assert (0 < ptr); [|lia]. unfold alloc_after in Hi'. rewrite (proj2 (Z.eqb_neq _ _) Hne) in Hi'.
  apply (hi_ok _ _ Hi' k {| lv_ptr := ptr; lv_size := size; lv_align := n; lv_foot := foot size n |}).
  apply lookup_insert_eq.
Qed.

(** The state after an allocation was given back. *)
Definition gave (s : HState) (l : list FreeBlock) (k : Z) (x : Live) : HState :=
  {| hs_heap := {| blocks := l; total_size := total_size (hs_heap s);
                   used_size := used_size (hs_heap s) - lv_foot x |};
     hs_live := delete k (hs_live s); hs_regions := hs_regions s |}.

Lemma live_at_delete top s k x a :
  hinv top s -> hs_live s !! k = Some x ->
  live_at (delete k (hs_live s)) a <-> live_at (hs_live s) a /\ ~ lv_in x a.
Proof.
  intros Hi Hk. split.
  - intros (j & y & [Hne Hj]%lookup_delete_Some & Ha). split; [by exists j, y|]. intros Hx.
    by apply Hne, (hi_apart _ _ Hi k j x y a).
  - intros [(j & y & Hj & Ha) Hno]. exists j, y. split; [|done]. rewrite lookup_delete_ne; [done|]. congruence.
Qed.

Lemma live_bytes_nonneg m : (forall k x, m !! k = Some x -> live_ok x) -> 0 <= live_bytes m.
Proof.
  induction m as [|k x m Hk IH] using map_ind; intros Hok; [done|]. rewrite live_bytes_insert by done.
  pose proof (lo_foot x (Hok k x (lookup_insert_eq _ _ _))) as (_ & Hf & _). unfold FREE_BLOCK_SIZE in Hf.
  assert (0 <= live_bytes m); [|lia]. apply IH. intros j y Hj. apply (Hok j). rewrite lookup_insert_ne; [done|]. congruence.
Qed.

Lemma live_block top s k x : hinv top s -> hs_live s !! k = Some x -> block_ok (Free (lv_ptr x) (lv_foot x)).
Proof.
  intros Hi Hk. destruct (hi_ok _ _ Hi k x Hk) as [Hpos (Ef & H16 & Hs) _ H8 Hlay].
  pose proof (hi_top _ _ Hi). unfold FREE_BLOCK_SIZE in *.
  assert (lv_ptr x + lv_foot x - 1 < top) as Hend.
  { apply (hinv_bounds top s). done. right. exists k, x. split; [done|]. unfold lv_in. lia. }
  split; [simpl; lia|]. split; [unfold FREE_BLOCK_SIZE; simpl; lia|]. split; [done|simpl; lia].
Qed.

Lemma hfree_ok top s k x :
  hinv top s -> hs_live s !! k = Some x ->
  exists l, hstep s (HFree k) = Done (gave s l k x) /\ hinv top (gave s l k x).
Proof.
  intros Hi Hk. pose proof (hi_ok _ _ Hi k x Hk) as [Hpos (Ef & H16 & _) _ _ [H0 Hmax]].
  destruct (layout_ok _ _ H0 Hmax) as (j & El & _). unfold FREE_BLOCK_SIZE in H16.
  pose proof (live_bytes_delete _ _ _ Hk) as Hdel. pose proof (hi_used _ _ Hi) as Hu.
  assert (0 <= live_bytes (delete k (hs_live s))) as Hnn.
  { apply live_bytes_nonneg. intros i y [_ Hy]%lookup_delete_Some. by apply (hi_ok _ _ Hi i). }
  assert (lv_ptr x < top) as Ht.
  { apply (hinv_bounds top s (lv_ptr x) Hi). right. exists k, x. split; [done|]. unfold lv_in. lia. }
  pose proof (hi_top _ _ Hi). pose proof (hi_total _ _ Hi). pose proof (hi_limit _ _ Hi).
  cbn [hstep]. rewrite Hk. unfold deallocate. rewrite El, <- Ef. cbn [mbind outcome_bind].
  destruct (add_free_region_ok (blocks (hs_heap s)) (lv_ptr x) (lv_foot x)) as (l & -> & Ho & Hf & Hb).
  { apply Hi. } { by eapply live_block. } { lia. }
  { intros a Ha Hfr. apply (hi_free _ _ Hi a Hfr). by exists k, x. }
  cbn [mbind outcome_bind]. rewrite Z.max_l by lia. exists l. split; [done|].
  split; cbn [gave hs_heap hs_live hs_regions blocks total_size used_size]; try apply Hi; try lia; try done.
  - intros i y [_ Hy]%lookup_delete_Some. by apply (hi_ok _ _ Hi i).
  - intros k1 k2 x1 x2 a [_ X1]%lookup_delete_Some [_ X2]%lookup_delete_Some. by apply (hi_apart _ _ Hi).
  - intros a Ha. rewrite (live_at_delete top) by done. apply Hf in Ha as [Ha|Ha]; [by intros [_ []]|].
    intros [Hl _]. by apply (hi_free _ _ Hi a).
  - intros a. rewrite (hi_cover _ _ Hi), Hf, (live_at_delete top) by done.
    assert (lv_in x a -> live_at (hs_live s) a) by (intros; by exists k, x).
    unfold lv_in in *. destruct (decide (lv_ptr x <= a < lv_ptr x + lv_foot x)); tauto.
Qed.

Lemma hstep_ok top s e :
  hinv top s -> hpermitted top s e = true -> exists s', hstep s e = Done s' /\ hinv top s'.
Proof.
  intros Hi Hp. destruct e as [k size n reply|k].
  - destruct (halloc_ok top s k size n reply Hi Hp) as (s' & E & Hr). exists s'. eauto using alloc_result_inv.
  - destruct (hs_live s !! k) as [x|] eqn:Hk.
    + destruct (hfree_ok top s k x Hi Hk) as (l & E & Hi'). eauto.
    + exists s. cbn [hstep]. by rewrite Hk.
Qed.

Lemma hrun_ok top es : forall s,
  hinv top s -> hpermitted_run top s es = true -> exists s', hrun s es = Done s' /\ hinv top s'.
Proof.
  induction es as [|e es IH]; intros s Hi Hp; cbn [hrun hpermitted_run] in *; [eauto|].
  apply andb_true_iff in Hp as [He Hes]. destruct (hstep_ok top s e Hi He) as (s' & E & Hi').
  rewrite E in *. cbn [mbind outcome_bind]. by apply IH.
Qed.

Lemma hstart_ok top start size :
  region_ok top (Free start size) = true -> top + 8 < U64 ->
  exists s, hstart start size = Done s /\ hinv top s /\ hs_live s = ∅ /\ hs_regions s = [Free start size].
Proof.
  intros Hr Ht. pose proof (region_block top _ Hr ltac:(lia)) as Hb.
  assert (start + size <= top /\ 0 < start) as [He Hs].
  { unfold region_ok, block_ok_b in Hr. simpl in Hr. lia. }
  pose proof Hb as (_ & H16 & _). simpl in H16. unfold FREE_BLOCK_SIZE in H16.
  destruct (add_free_region_ok [] start size) as (l & E & Ho & Hf & Hbytes); [done|done|lia|intros a _ Ha; by apply Exists_nil in Ha|].
  unfold hstart, heap_init, heap_empty. cbn [blocks]. rewrite E. cbn [mbind outcome_bind].
  eexists. split; [done|]. split; [|done].
  assert (forall a, ~ live_at ∅ a) as Hno by (intros a (k & x & Hk & _); by rewrite lookup_empty in Hk).
  split; simpl; try done; try lia.
  - intros a. unfold free_at in *. rewrite Exists_cons, Hf, !Exists_nil. unfold inside. simpl. specialize (Hno a). tauto.
  - by apply Forall_singleton.
Qed.

(** The states a permitted history reaches. *)
Definition hreaches (top start size : Z) (es : list hevent) (s : HState) : Prop :=
  exists s0, hstart start size = Done s0 /\ hpermitted_run top s0 es = true /\ hrun s0 es = Done s.

Lemma hreaches_inv top start size es s :
  region_ok top (Free start size) = true -> top + 8 < U64 -> hreaches top start size es s -> hinv top s.
Proof.
  intros Hr Ht (s0 & E0 & Hp & E). destruct (hstart_ok top start size Hr Ht) as (s1 & E1 & Hi & _).
  rewrite E0 in E1. injection E1 as <-. destruct (hrun_ok top es s0 Hi Hp) as (s' & E' & Hi').
  rewrite E in E'. by injection E' as <-.
Qed.

(** A region of 256 bytes at 4096; three allocations, the middle one freed, an
    allocation that makes the heap grow, and one more from the hole. *)
Definition example_heap : list hevent :=
  [HAlloc 1 32 3 None; HAlloc 2 40 5 None; HAlloc 3 8 0 None; HFree 2;
   HAlloc 4 200 3 (Some (8192, 4096)); HAlloc 5 64 4 None; HFree 1].

Definition example_top : Z := pow2 40.

(** The state a history ends in. *)
Definition final (start size : Z) (es : list hevent) : HState :=
  match s ← hstart start size; hrun s es with
  | Done s => s
  | _ => {| hs_heap := heap_empty; hs_live := ∅; hs_regions := [] |}
  end.

Definition hpermitted_from (top start size : Z) (es : list hevent) : bool :=
  match hstart start size with
  | Done s => hpermitted_run top s es && match hrun s es with Done _ => true | _ => false end
  | _ => false
  end.

Lemma final_reaches top start size es :
  hpermitted_from top start size es = true -> hreaches top start size es (final start size es).
Proof.
  unfold hpermitted_from, final, hreaches. destruct (hstart start size) as [s0| |]; [|done|done].
  cbn [mbind outcome_bind]. intros [Hp Hr]%andb_true_iff. exists s0. by destruct (hrun s0 es).
Qed.

(** ** Properties *)

(** C4.  The heap is safe: whatever its clients allocate and free, and whenever it
    grows, no operation panics; every live allocation is not null, aligned as its
    layout asks and at least as large; no byte belongs to two allocations, or to
    an allocation and the free list; every byte of the regions is free or
    allocated; and the counters are exact. *)
Theorem heap_safe top start size es s0 :
  region_ok top (Free start size) = true -> top + 8 < U64 ->
  hstart start size = Done s0 -> hpermitted_run top s0 es = true ->
  exists s, hrun s0 es = Done s /\
    (forall k x, hs_live s !! k = Some x ->
       0 < lv_ptr x /\ (pow2 (lv_align x) | lv_ptr x) /\ lv_size x <= lv_foot x) /\
    (forall k1 k2 x1 x2 a, hs_live s !! k1 = Some x1 -> hs_live s !! k2 = Some x2 ->
       lv_in x1 a -> lv_in x2 a -> k1 = k2) /\
    (forall a, free_at (blocks (hs_heap s)) a -> ~ live_at (hs_live s) a) /\
    (forall a, free_at (hs_regions s) a <-> free_at (blocks (hs_heap s)) a \/ live_at (hs_live s) a) /\
    used_size (hs_heap s) = live_bytes (hs_live s) /\
    heap_free (hs_heap s) = bytes (blocks (hs_heap s)).
Proof.
  intros Hr Ht E0 Hp. destruct (hstart_ok top start size Hr Ht) as (s1 & E1 & Hi & _).
  rewrite E0 in E1. injection E1 as <-. destruct (hrun_ok top es s0 Hi Hp) as (s & E & Hi').
  exists s. split; [done|].
  split; [|split; [apply Hi'|split; [apply Hi'|split; [apply Hi'|split; [apply Hi'|]]]]].
  - intros k x Hk. destruct (hi_ok _ _ Hi' k x Hk) as [? (_ & _ & ?) ? _ _]. done.
  - unfold heap_free. pose proof (hi_total _ _ Hi').
    pose proof (ordered_bytes _ _ (hi_order _ _ Hi')). lia.
Qed.

Lemma heap_safe_witness :
  exists s0 s, hstart 4096 256 = Done s0 /\ hrun s0 example_heap = Done s /\
    used_size (hs_heap s) = live_bytes (hs_live s).
Proof.
  eexists. destruct (heap_safe example_top 4096 256 example_heap _ eq_refl eq_refl eq_refl eq_refl)
    as (s & E & _ & _ & _ & _ & Hu & _).
  exists s. by split_and!.
Defined.

(** C28.  No fragmentation is left behind: two histories that end with the same live
    allocations in the same memory end with the same free list, whatever the order
    of the allocations and frees on the way.  A heap that did not grow and whose
    allocations were all freed is again one block. *)
Theorem heap_no_fragmentation top start size es1 es2 s1 s2 :
  region_ok top (Free start size) = true -> top + 8 < U64 ->
  hreaches top start size es1 s1 -> hreaches top start size es2 s2 ->
  (hs_live s1 = hs_live s2 -> (forall a, free_at (hs_regions s1) a <-> free_at (hs_regions s2) a) ->
     blocks (hs_heap s1) = blocks (hs_heap s2)) /\
  (hs_live s1 = ∅ -> hs_regions s1 = [Free start size] ->
     blocks (hs_heap s1) = [Free start size] /\ used_size (hs_heap s1) = 0).
Proof.
  intros Hr Ht H1 H2. pose proof (hreaches_inv _ _ _ _ _ Hr Ht H1) as I1.
  pose proof (hreaches_inv _ _ _ _ _ Hr Ht H2) as I2. split.
  - intros El Er. eapply ordered_canonical; [apply I1|apply I2|]. intros a.
    pose proof (hi_cover _ _ I1 a) as C1. pose proof (hi_cover _ _ I2 a) as C2.
    pose proof (hi_free _ _ I1 a) as F1. pose proof (hi_free _ _ I2 a) as F2. rewrite El in C1, F1.
    specialize (Er a). tauto.
  - intros El Er. pose proof (region_block top _ Hr ltac:(lia)) as Hb. split.
    + eapply (ordered_canonical _ (-1)); [apply I1| |].
      { split; [destruct Hb; simpl in *; lia|]. by split. }
      intros a. rewrite <- Er, (hi_cover _ _ I1 a), El.
      split; [by left|]. intros [?|(k & x & Hk & _)]; [done|by rewrite lookup_empty in Hk].
    + rewrite (hi_used _ _ I1), El. done.
Qed.

(** The hole left by the middle allocation is merged when its neighbours go. *)
Definition example_drain : list hevent :=
  [HAlloc 1 32 3 None; HAlloc 2 40 5 None; HAlloc 3 8 0 None; HFree 2; HFree 1; HFree 3].

Lemma heap_no_fragmentation_witness :
  hreaches example_top 4096 256 example_drain (final 4096 256 example_drain) /\
  blocks (hs_heap (final 4096 256 example_drain)) = [Free 4096 256].
Proof.
  assert (hreaches example_top 4096 256 example_drain (final 4096 256 example_drain)) as H
    by (apply final_reaches; vm_compute; reflexivity).
  split; [exact H|].
  apply (heap_no_fragmentation example_top 4096 256 example_drain example_drain _ _ eq_refl eq_refl H H);
    vm_compute; reflexivity.
Defined.

(** An allocation from a heap that cannot grow gets a block if one fits: it
    returns null only when no free block can hold the request and leave pieces
    that are empty or large enough for a free block, and then nothing changed.
    Otherwise the allocation is live and all others are as they were. *)
Theorem heap_allocates top start size es s k lsize n :
  region_ok top (Free start size) = true -> top + 8 < U64 -> hreaches top start size es s ->
  hpermitted top s (HAlloc k lsize n None) = true ->
  exists s', hstep s (HAlloc k lsize n None) = Done s' /\
    ((exists x, hs_live s' = <[k := x]> (hs_live s) /\ lv_size x = lsize /\ lv_align x = n /\
        (forall a, lv_in x a -> free_at (blocks (hs_heap s)) a) /\
        used_size (hs_heap s') = used_size (hs_heap s) + lv_foot x) \/
     (s' = s /\ Forall (fun b => ~ serves b (foot lsize n) (Z.max (pow2 n) 8)) (blocks (hs_heap s)))).
Proof.
  intros Hr Ht H Hp. pose proof (hreaches_inv _ _ _ _ _ Hr Ht H) as Hi.
  destruct (halloc_ok top s k lsize n None Hi Hp) as (s' & E & Hres). exists s'. split; [done|].
  destruct Hres as [p l Hpos Hi'|_ Hno|? ? ? ? ? [=]|? ? ? [=]]; [|by right].
  left. eexists. split; [done|]. split_and!; try done. intros a Ha.
  cbn [hpermitted] in Hp. rewrite !andb_true_iff in Hp. destruct Hp as [[[[Hk%bool_decide_eq_true _] _] _] _].
  assert (live_at (hs_live (took s l k p lsize n)) a) as Hl by (apply live_at_insert; [done|by left]).
  pose proof (proj2 (hi_cover _ _ Hi' a) (or_intror Hl)) as Hreg. cbn [took hs_regions] in Hreg.
  apply (hi_cover _ _ Hi) in Hreg as [?|Hold]; [done|].
  destruct Hold as (j & y & Hj & Hy). assert (k <> j) as Hne by congruence. exfalso. apply Hne. symmetry.
  eapply (hi_apart _ _ Hi' j k y _ a); [|apply lookup_insert_eq|done|done].
  cbn [took hs_live]. by rewrite lookup_insert_ne.
Qed.

Lemma heap_allocates_witness :
  hreaches example_top 4096 256 example_heap (final 4096 256 example_heap) /\
  exists s', hstep (final 4096 256 example_heap) (HAlloc 9 100000 0 None) = Done s'.
Proof.
  assert (hreaches example_top 4096 256 example_heap (final 4096 256 example_heap)) as H
    by (apply final_reaches; vm_compute; reflexivity).
  split; [exact H|].
  assert (hpermitted example_top (final 4096 256 example_heap) (HAlloc 9 100000 0 None) = true) as Hp
    by (vm_compute; reflexivity).
  destruct (heap_allocates example_top 4096 256 example_heap (final 4096 256 example_heap) 9 100000 0
              eq_refl eq_refl H Hp) as (s' & E & _).
  exists s'. exact E.
Defined.
