(* ===== verification/Hardened.v ===== *)
(** * The hardened heap

    mm/mm-heap/src/hardened.rs: the heap the kernel builds by default.  It wraps
    the linked-list allocator and puts around each allocation a header, two
    redzones and a canary, which it checks when the allocation is freed:

      [header 24 | redzone 16 | user data | redzone 16 | canary 8]

    Memory is a function from addresses to bytes.  The list nodes the inner heap
    keeps in free memory are not part of it: [HdWrite] below lets any byte that
    is not a guard of a live allocation change at any time, which covers them. *)
From S2P Require Import Prelude Addr Heap HeapSys.

(** ** Memory *)

Definition memory := Z -> Z.

Definition write_byte (m : memory) (a v : Z) : memory := fun x => if x =? a then v else m x.

Definition write_bytes (m : memory) (a v n : Z) : memory :=
  fun x => if (a <=? x) && (x <? a + n) then v else m x.

(** Little-endian 64-bit words. *)
Definition write_u64 (m : memory) (a v : Z) : memory :=
  fun x => if (a <=? x) && (x <? a + 8) then (v / 256 ^ (x - a)) mod 256 else m x.

Definition read_u64 (m : memory) (a : Z) : Z :=
  foldr (fun i acc => m (a + i) + 256 * acc) 0 (seqZ 0 8).

(** ** Data *)

Definition REDZONE_SIZE : Z := 16.
Definition REDZONE_PATTERN : Z := 0xFD.
Definition FREED_PATTERN : Z := 0xDD.
Definition CANARY_VALUE : Z := 0xDEADBEEFCAFEBABE.
Definition HEADER_MAGIC : Z := 0x4F58494448454150.

Record AllocHeader := { requested_size : Z; actual_size : Z; magic : Z }.

(** [size_of] and [align_of] of [AllocHeader]. *)
Definition HEADER_SIZE : Z := 24.
Definition HEADER_ALIGN : Z := 8.
Definition CANARY_SIZE : Z := 8.

Definition header_new (requested actual : Z) : AllocHeader :=
  {| requested_size := requested; actual_size := actual; magic := HEADER_MAGIC |}.

Definition is_valid (h : AllocHeader) : bool := magic h =? HEADER_MAGIC.

(** The fields lie in the order of their declaration. *)
Definition write_header (m : memory) (base : Z) (h : AllocHeader) : memory :=
  write_u64 (write_u64 (write_u64 m base (requested_size h)) (base + 8) (actual_size h)) (base + 16) (magic h).

Definition read_header (m : memory) (base : Z) : AllocHeader :=
  {| requested_size := read_u64 m base; actual_size := read_u64 m (base + 8); magic := read_u64 m (base + 16) |}.

Record HardenedHeapAllocator := {
  inner : LinkedListAllocator;
  alloc_count : Z;
  free_count : Z;
  corruption_count : Z
}.

Definition hardened_empty : HardenedHeapAllocator :=
  {| inner := heap_empty; alloc_count := 0; free_count := 0; corruption_count := 0 |}.

Definition hardened_init (h : HardenedHeapAllocator) (heap_start heap_size : Z) : outcome HardenedHeapAllocator :=
  i ← heap_init (inner h) heap_start heap_size;
  Done {| inner := i; alloc_count := alloc_count h; free_count := free_count h; corruption_count := corruption_count h |}.

(** ** Operations *)

Definition hardened_size (size : Z) : outcome Z :=
  a ← add64 (HEADER_SIZE + REDZONE_SIZE) size;
  b ← add64 a REDZONE_SIZE;
  add64 b CANARY_SIZE.

(** [Layout::from_size_align]: whether the layout is allowed. *)
Definition from_size_align (size align : Z) : bool := size <=? ISIZE_MAX - (align - 1).

Definition hardened_allocate (h : HardenedHeapAllocator) (m : memory) (grow : option (Z -> option (Z * Z)))
    (lsize lalign : Z) : outcome (HardenedHeapAllocator * memory * Z) :=
  total ← hardened_size lsize;
  let align := Z.max lalign HEADER_ALIGN in
  if negb (from_size_align total align) then Done (h, m, 0) else
  '(i, base) ← allocate (inner h) grow total align;
  if base =? 0 then
    Done ({| inner := i; alloc_count := alloc_count h; free_count := free_count h;
             corruption_count := corruption_count h |}, m, 0)
  else
    n ← add64 (alloc_count h) 1;
    let leading_redzone := base + HEADER_SIZE in
    let user_ptr := leading_redzone + REDZONE_SIZE in
    let trailing_redzone := user_ptr + lsize in
    let canary_ptr := trailing_redzone + REDZONE_SIZE in
    let m := write_header m base (header_new lsize total) in
    let m := write_bytes m leading_redzone REDZONE_PATTERN REDZONE_SIZE in
    let m := write_bytes m trailing_redzone REDZONE_PATTERN REDZONE_SIZE in
    let m := write_u64 m canary_ptr CANARY_VALUE in
    Done ({| inner := i; alloc_count := n; free_count := free_count h;
             corruption_count := corruption_count h |}, m, user_ptr).

Definition check_redzone (m : memory) (ptr size : Z) : bool :=
  forallb (fun i => m (ptr + i) =? REDZONE_PATTERN) (seqZ 0 size).

(** Count a corruption unless the check passed. *)
Definition note_corruption (ok : bool) (c : Z) : outcome Z := if ok then Done c else add64 c 1.

Definition hardened_deallocate (h : HardenedHeapAllocator) (m : memory) (ptr lsize lalign : Z) :
    outcome (HardenedHeapAllocator * memory) :=
  if ptr =? 0 then Done (h, m) else
  let leading_redzone := ptr - REDZONE_SIZE in
  let base := leading_redzone - HEADER_SIZE in
  let header := read_header m base in
  if negb (is_valid header) then
    c ← add64 (corruption_count h) 1;
    Done ({| inner := inner h; alloc_count := alloc_count h; free_count := free_count h; corruption_count := c |}, m)
  else
  c ← note_corruption (check_redzone m leading_redzone REDZONE_SIZE) (corruption_count h);
  let trailing_redzone := ptr + requested_size header in
  c ← note_corruption (check_redzone m trailing_redzone REDZONE_SIZE) c;
  let canary := read_u64 m (trailing_redzone + REDZONE_SIZE) in
  c ← note_corruption (canary =? CANARY_VALUE) c;
  let m := write_bytes m ptr FREED_PATTERN (requested_size header) in
  f ← add64 (free_count h) 1;
  let align := Z.max lalign HEADER_ALIGN in
  if negb (from_size_align (actual_size header) align) then
    Done ({| inner := inner h; alloc_count := alloc_count h; free_count := f; corruption_count := c |}, m)
  else
    i ← deallocate (inner h) base (actual_size header) align;
    Done ({| inner := i; alloc_count := alloc_count h; free_count := f; corruption_count := c |}, m).

Definition hardened_free (h : HardenedHeapAllocator) : Z := heap_free (inner h).
Definition hardened_used (h : HardenedHeapAllocator) : Z := used_size (inner h).
Definition stats (h : HardenedHeapAllocator) : Z * Z * Z := (alloc_count h, free_count h, corruption_count h).

(** ** Words *)

Definition bytes_ok (m : memory) : Prop := forall a, 0 <= m a < 256.

Lemma read_u64_ext m1 m2 a : (forall x, a <= x < a + 8 -> m1 x = m2 x) -> read_u64 m1 a = read_u64 m2 a.
Proof.
  intros H. unfold read_u64. change (seqZ 0 8) with [0; 1; 2; 3; 4; 5; 6; 7]. cbn [foldr].
  by rewrite !H by lia.
Qed.

Lemma read_write_u64 m a v : 0 <= v < U64 -> read_u64 (write_u64 m a v) a = v.
Proof.
  intros Hv. unfold read_u64, write_u64. change (seqZ 0 8) with [0; 1; 2; 3; 4; 5; 6; 7]. cbn [foldr].
  repeat match goal with |- context [(a <=? ?x) && _] =>
    replace ((a <=? x) && (x <? a + 8)) with true by lia end.
  replace (a + 0 - a) with 0 by lia. replace (a + 1 - a) with 1 by lia. replace (a + 2 - a) with 2 by lia.
  replace (a + 3 - a) with 3 by lia. replace (a + 4 - a) with 4 by lia. replace (a + 5 - a) with 5 by lia.
  replace (a + 6 - a) with 6 by lia. replace (a + 7 - a) with 7 by lia.
  change (256 ^ 0) with 1. change (256 ^ 1) with 256. change (256 ^ 2) with (256 * 256).
  change (256 ^ 3) with (256 * 256 * 256). change (256 ^ 4) with (256 * 256 * 256 * 256).
  change (256 ^ 5) with (256 * 256 * 256 * 256 * 256). change (256 ^ 6) with (256 * 256 * 256 * 256 * 256 * 256).
  change (256 ^ 7) with (256 * 256 * 256 * 256 * 256 * 256 * 256).
  rewrite <- !Z.div_div, Z.div_1_r by done.
  assert (forall q, q mod 256 + 256 * (q / 256) = q) as Hstep by (intros q; pose proof (Z.div_mod q 256); lia).
  rewrite (Z.mod_small (v / 256 / 256 / 256 / 256 / 256 / 256 / 256)), Z.mul_0_r, Z.add_0_r.
  - by rewrite !Hstep.
  - rewrite !Z.div_div by done. unfold U64 in Hv. split; [apply Z.div_pos; lia|]. by apply Z.div_lt_upper_bound; [|lia].
Qed.

(** Bytes that give the same word are the same. *)
Lemma read_u64_inj m1 m2 a x :
  bytes_ok m1 -> bytes_ok m2 -> read_u64 m1 a = read_u64 m2 a -> a <= x < a + 8 -> m1 x = m2 x.
Proof.
  intros H1 H2 E Hx. unfold read_u64 in E. change (seqZ 0 8) with [0; 1; 2; 3; 4; 5; 6; 7] in E. cbn [foldr] in E.
  assert (forall i x y, m1 (a + i) + 256 * x = m2 (a + i) + 256 * y -> m1 (a + i) = m2 (a + i) /\ x = y) as D.
  { intros i u v Hi. specialize (H1 (a + i)). specialize (H2 (a + i)). lia. }
  apply D in E as [E0 E]. apply D in E as [E1 E]. apply D in E as [E2 E]. apply D in E as [E3 E].
  apply D in E as [E4 E]. apply D in E as [E5 E]. apply D in E as [E6 E]. apply D in E as [E7 _].
  assert (x = a + 0 \/ x = a + 1 \/ x = a + 2 \/ x = a + 3 \/ x = a + 4 \/ x = a + 5 \/ x = a + 6 \/ x = a + 7)
    as Hc by lia.
  destruct Hc as [->|[->|[->|[->|[->|[->|[->| ->]]]]]]]; done.
Qed.

(** ** Guards *)

(** The header, the redzones and the canary of an allocation of [size] bytes
    whose block starts at [base], as [hardened_allocate] leaves them. *)
Record guarded (m : memory) (base size : Z) : Prop := {
  gd_header : read_header m base = header_new size (size + 64);
  gd_leading : forall a, base + 24 <= a < base + 40 -> m a = REDZONE_PATTERN;
  gd_trailing : forall a, base + 40 + size <= a < base + 56 + size -> m a = REDZONE_PATTERN;
  gd_canary : read_u64 m (base + 56 + size) = CANARY_VALUE
}.

(** The bytes they occupy. *)
Definition guard_byte (base size a : Z) : Prop :=
  base <= a < base + 40 \/ base + 40 + size <= a < base + 64 + size.

Lemma read_header_ext m1 m2 base :
  (forall a, base <= a < base + 24 -> m1 a = m2 a) -> read_header m1 base = read_header m2 base.
Proof. intros H. unfold read_header. f_equal; apply read_u64_ext; intros x Hx; apply H; lia. Qed.

Lemma guarded_ext m1 m2 base size :
  0 <= size -> (forall a, guard_byte base size a -> m1 a = m2 a) -> guarded m1 base size -> guarded m2 base size.
Proof.
  intros H0 H [G1 G2 G3 G4]. unfold guard_byte in H. split.
  - rewrite <- G1. apply read_header_ext. intros a Ha. symmetry. apply H. lia.
  - intros a Ha. rewrite <- H by lia. by apply G2.
  - intros a Ha. rewrite <- H by lia. by apply G3.
  - rewrite <- G4. apply read_u64_ext. intros a Ha. symmetry. apply H. lia.
Qed.

Lemma check_redzone_spec m p n : check_redzone m p n = true <-> forall a, p <= a < p + n -> m a = REDZONE_PATTERN.
Proof.
  unfold check_redzone. rewrite forallb_forall. split.
  - intros H a Ha. specialize (H (a - p)). rewrite Z.eqb_eq in H. replace (p + (a - p)) with a in H by lia.
    apply H, list_elem_of_In, elem_of_seqZ. lia.
  - intros H i Hi%list_elem_of_In%elem_of_seqZ. apply Z.eqb_eq, H. lia.
Qed.

Lemma write_u64_same m a v x : a <= x < a + 8 -> write_u64 m a v x = (v / 256 ^ (x - a)) mod 256.
Proof. intros H. unfold write_u64. by replace ((a <=? x) && (x <? a + 8)) with true by lia. Qed.

Lemma write_u64_other m a v x : x < a \/ a + 8 <= x -> write_u64 m a v x = m x.
Proof. intros H. unfold write_u64. by replace ((a <=? x) && (x <? a + 8)) with false by lia. Qed.

Lemma write_bytes_same m a v n x : a <= x < a + n -> write_bytes m a v n x = v.
Proof. intros H. unfold write_bytes. by replace ((a <=? x) && (x <? a + n)) with true by lia. Qed.

Lemma write_bytes_other m a v n x : x < a \/ a + n <= x -> write_bytes m a v n x = m x.
Proof. intros H. unfold write_bytes. by replace ((a <=? x) && (x <? a + n)) with false by lia. Qed.

Lemma write_header_other m b h x : x < b \/ b + 24 <= x -> write_header m b h x = m x.
Proof. intros H. unfold write_header. by rewrite !write_u64_other by lia. Qed.

Lemma read_write_header m base size total :
  0 <= size < U64 -> 0 <= total < U64 -> read_header (write_header m base (header_new size total)) base = header_new size total.
Proof.
  intros Hs Ht. unfold read_header, write_header, header_new. simpl. f_equal.
  - rewrite (read_u64_ext _ (write_u64 m base size)); [by apply read_write_u64|].
    intros x Hx. by rewrite !write_u64_other by lia.
  - rewrite (read_u64_ext _ (write_u64 (write_u64 m base size) (base + 8) total)); [by apply read_write_u64|].
    intros x Hx. by rewrite write_u64_other by lia.
  - by apply read_write_u64.
Qed.

(** What [hardened_allocate] writes. *)
Definition guard_block (m : memory) (base size : Z) : memory :=
  write_u64 (write_bytes (write_bytes (write_header m base (header_new size (size + 64)))
    (base + 24) REDZONE_PATTERN 16) (base + 40 + size) REDZONE_PATTERN 16) (base + 56 + size) CANARY_VALUE.

Lemma guard_block_other m base size a : 0 <= size -> ~ guard_byte base size a -> guard_block m base size a = m a.
Proof.
  intros H0 H. unfold guard_byte in H. unfold guard_block.
  by rewrite write_u64_other, !write_bytes_other, write_header_other by lia.
Qed.

Lemma guard_block_guarded m base size : 0 <= size -> size + 64 < U64 -> guarded (guard_block m base size) base size.
Proof.
  intros H0 Hlt. unfold guard_block. split.
  - rewrite (read_header_ext _ (write_header m base (header_new size (size + 64)))).
    { apply read_write_header; lia. }
    intros a Ha. by rewrite write_u64_other, !write_bytes_other by lia.
  - intros a Ha. rewrite write_u64_other, write_bytes_other by lia. apply write_bytes_same. lia.
  - intros a Ha. rewrite write_u64_other by lia. apply write_bytes_same. lia.
  - by apply read_write_u64.
Qed.

Lemma bytes_ok_byte m a v : bytes_ok m -> 0 <= v < 256 -> bytes_ok (write_byte m a v).
Proof. intros H Hv x. unfold write_byte. destruct (_ =? _); [done|apply H]. Qed.

Lemma bytes_ok_u64 m a v : bytes_ok m -> bytes_ok (write_u64 m a v).
Proof. intros H x. unfold write_u64. destruct (_ && _); [by apply Z.mod_pos_bound|apply H]. Qed.

Lemma bytes_ok_fill m a v n : bytes_ok m -> 0 <= v < 256 -> bytes_ok (write_bytes m a v n).
Proof. intros H Hv x. unfold write_bytes. destruct (_ && _); [done|apply H]. Qed.

Lemma bytes_ok_guard m base size : bytes_ok m -> bytes_ok (guard_block m base size).
Proof. intros H. unfold guard_block, write_header. by repeat (apply bytes_ok_u64 || apply bytes_ok_fill). Qed.

(** ** What a free sees *)

(** How many of the three guards are damaged. *)
Definition damage (m : memory) (base size : Z) : Z :=
  (if check_redzone m (base + 24) 16 then 0 else 1) +
  (if check_redzone m (base + 40 + size) 16 then 0 else 1) +
  (if read_u64 m (base + 56 + size) =? CANARY_VALUE then 0 else 1).

Lemma note_corruption_ok ok c : c + 1 < U64 -> note_corruption ok c = Done (c + if ok then 0 else 1).
Proof. intros H. unfold note_corruption. destruct ok; [by rewrite Z.add_0_r|by apply add64_ok]. Qed.

(** A free whose header is intact: the damage is counted, the user's bytes are
    overwritten and the block goes back to the inner heap. *)
Lemma dealloc_counts h m base size n i :
  base + 40 <> 0 -> read_header m base = header_new size (size + 64) ->
  from_size_align (size + 64) (Z.max (pow2 n) 8) = true ->
  corruption_count h + 3 < U64 -> free_count h + 1 < U64 ->
  deallocate (inner h) base (size + 64) (Z.max (pow2 n) 8) = Done i ->
  hardened_deallocate h m (base + 40) size (pow2 n) =
    Done ({| inner := i; alloc_count := alloc_count h; free_count := free_count h + 1;
             corruption_count := corruption_count h + damage m base size |},
          write_bytes m (base + 40) FREED_PATTERN size).
Proof.
  intros Hp Hh Hl Hc Hf Hd. unfold hardened_deallocate. rewrite (proj2 (Z.eqb_neq _ _) Hp).
  unfold REDZONE_SIZE, HEADER_SIZE, HEADER_ALIGN.
  replace (base + 40 - 16 - 24) with base by lia. rewrite Hh. cbn [is_valid header_new magic requested_size actual_size].
  change (negb (HEADER_MAGIC =? HEADER_MAGIC)) with false. cbn [negb].
  replace (base + 40 - 16) with (base + 24) by lia. replace (base + 40 + size + 16) with (base + 56 + size) by lia.
  unfold damage. rewrite note_corruption_ok by lia. cbn [mbind outcome_bind].
  rewrite note_corruption_ok by (destruct (check_redzone m (base + 24) 16); lia). cbn [mbind outcome_bind].
  rewrite note_corruption_ok
    by (destruct (check_redzone m (base + 24) 16), (check_redzone m (base + 40 + size) 16); lia).
  cbn [mbind outcome_bind]. rewrite (add64_ok (free_count h) 1) by done. cbn [mbind outcome_bind]. rewrite Hl. cbn [negb].
  rewrite Hd. cbn [mbind outcome_bind]. by rewrite !Z.add_assoc.
Qed.

Lemma damage_none m base size :
  (forall a, base + 24 <= a < base + 40 -> m a = REDZONE_PATTERN) ->
  (forall a, base + 40 + size <= a < base + 56 + size -> m a = REDZONE_PATTERN) ->
  read_u64 m (base + 56 + size) = CANARY_VALUE -> damage m base size = 0.
Proof.
  intros G2 G3 G4. unfold damage. rewrite G4, Z.eqb_refl.
  rewrite (proj2 (check_redzone_spec m (base + 24) 16)) by (intros; apply G2; lia).
  by rewrite (proj2 (check_redzone_spec m (base + 40 + size) 16)) by (intros; apply G3; lia).
Qed.

(** No damage is seen exactly when the redzones and the canary are as they were. *)
Lemma damage_zero m0 m base size :
  0 <= size -> guarded m0 base size -> bytes_ok m0 -> bytes_ok m ->
  damage m base size = 0 <->
  forall a, base + 24 <= a < base + 40 \/ base + 40 + size <= a < base + 64 + size -> m a = m0 a.
Proof.
  intros H0 [_ G2 G3 G4] B0 B. split.
  - intros Hd. unfold damage in Hd.
    destruct (check_redzone m (base + 24) 16) eqn:E1, (check_redzone m (base + 40 + size) 16) eqn:E2,
      (Z.eqb_spec (read_u64 m (base + 56 + size)) CANARY_VALUE) as [E3|]; try done.
    rewrite check_redzone_spec in E1, E2. intros a Ha.
    destruct (decide (a < base + 40)); [rewrite E1, G2 by lia; done|].
    destruct (decide (a < base + 56 + size)); [rewrite E2, G3 by lia; done|].
    apply (read_u64_inj _ _ (base + 56 + size)); [done|done|by rewrite E3|lia].
  - intros H. apply damage_none.
    + intros a Ha. rewrite H by lia. by apply G2.
    + intros a Ha. rewrite H by lia. by apply G3.
    + rewrite <- G4. apply read_u64_ext. intros a Ha. apply H. lia.
Qed.
