(* ===== verification/HardenedSys.v ===== *)
(** * Histories of the hardened heap

    Clients allocate and free, and any byte that is not a guard of a live
    allocation may change in between.  The inner heap goes through the history of
    [HeapSys] in which each allocation is 64 bytes larger and starts 40 bytes
    before the user's pointer. *)
From S2P Require Import Prelude Addr Heap HeapSys Hardened.

(** An allocation as the client sees it. *)
Record Owned := { ow_ptr : Z; ow_size : Z; ow_align : nat }.

#[export] Instance Owned_eq_dec : EqDecision Owned.
Proof. solve_decision. Defined.

Definition ow_base (o : Owned) : Z := ow_ptr o - 40.

Record HdState := {
  hd_heap : HardenedHeapAllocator;
  hd_mem : memory;
  hd_live : gmap Z Owned;
  hd_regions : list FreeBlock
}.

Inductive hdevent :=
| HdAlloc (k size : Z) (n : nat) (reply : option (Z * Z))
| HdFree (k : Z)
| HdWrite (a v : Z).

Definition hd_after (s : HdState) (h : HardenedHeapAllocator) (m : memory) (ptr k size : Z) (n : nat)
    (reply : option (Z * Z)) : HdState :=
  {| hd_heap := h; hd_mem := m;
     hd_live := if ptr =? 0 then hd_live s
                else <[k := {| ow_ptr := ptr; ow_size := size; ow_align := n |}]> (hd_live s);
     hd_regions := match reply with
                   | Some (a, r) => if total_size (inner h) =? total_size (inner (hd_heap s)) then hd_regions s
                                    else Free a r :: hd_regions s
                   | None => hd_regions s
                   end |}.

Definition hdstep (s : HdState) (e : hdevent) : outcome HdState :=
  match e with
  | HdAlloc k size n reply =>
      '(h, m, ptr) ← hardened_allocate (hd_heap s) (hd_mem s) (Some (fun _ => reply)) size (pow2 n);
      Done (hd_after s h m ptr k size n reply)
  | HdFree k =>
      match hd_live s !! k with
      | None => Done s
      | Some o =>
          '(h, m) ← hardened_deallocate (hd_heap s) (hd_mem s) (ow_ptr o) (ow_size o) (pow2 (ow_align o));
          Done {| hd_heap := h; hd_mem := m; hd_live := delete k (hd_live s); hd_regions := hd_regions s |}
      end
  | HdWrite a v =>
      Done {| hd_heap := hd_heap s; hd_mem := write_byte (hd_mem s) a v; hd_live := hd_live s;
              hd_regions := hd_regions s |}
  end.

Fixpoint hdrun (s : HdState) (es : list hdevent) : outcome HdState :=
  match es with
  | [] => Done s
  | e :: es => s ← hdstep s e; hdrun s es
  end.

Definition hdstart (m : memory) (start size : Z) : outcome HdState :=
  h ← hardened_init hardened_empty start size;
  Done {| hd_heap := h; hd_mem := m; hd_live := ∅; hd_regions := [Free start size] |}.

(** ** What clients respect *)

Definition guard_byte_b (base size a : Z) : bool :=
  ((base <=? a) && (a <? base + 40)) || ((base + 40 + size <=? a) && (a <? base + 64 + size)).

Definition hdpermitted (top : Z) (s : HdState) (e : hdevent) : bool :=
  match e with
  | HdAlloc k size n reply =>
      bool_decide (hd_live s !! k = None) && (0 <=? size) && (size <=? ISIZE_MAX) &&
      (top + Z.max (pow2 n) 8 <? U64) && (alloc_count (hd_heap s) + 1 <? U64) &&
      match reply with
      | Some (a, r) => region_ok top (Free a r) && forallb (regions_apart (Free a r)) (hd_regions s) &&
                       (total_size (inner (hd_heap s)) + r <? U64)
      | None => true
      end
  | HdFree k => true
  | HdWrite a v =>
      (0 <=? v) && (v <? 256) &&
      forallb (fun '(_, o) => negb (guard_byte_b (ow_base o) (ow_size o) a)) (map_to_list (hd_live s))
  end.

Fixpoint hdpermitted_run (top : Z) (s : HdState) (es : list hdevent) : bool :=
  match es with
  | [] => true
  | e :: es => hdpermitted top s e && match hdstep s e with Done s => hdpermitted_run top s es | _ => true end
  end.

(** ** The inner heap *)

(** The inner heap's view of an allocation. *)
Definition inner_live (o : Owned) : Live :=
  {| lv_ptr := ow_base o; lv_size := ow_size o + 64; lv_align := Nat.max (ow_align o) 3;
     lv_foot := foot (ow_size o + 64) (Nat.max (ow_align o) 3) |}.

Definition inner_of (s : HdState) : HState :=
  {| hs_heap := inner (hd_heap s); hs_live := inner_live <$> hd_live s; hs_regions := hd_regions s |}.

Record hdinv (top : Z) (s : HdState) : Prop := {
  hdi_inner : hinv top (inner_of s);
  hdi_size : forall k o, hd_live s !! k = Some o -> 0 <= ow_size o;
  hdi_guards : forall k o, hd_live s !! k = Some o -> guarded (hd_mem s) (ow_base o) (ow_size o);
  hdi_bytes : bytes_ok (hd_mem s);
  hdi_clean : corruption_count (hd_heap s) = 0;
  hdi_counts : alloc_count (hd_heap s) = free_count (hd_heap s) + Z.of_nat (size (hd_live s));
  hdi_range : 0 <= free_count (hd_heap s) /\ alloc_count (hd_heap s) < U64
}.

Lemma pow2_max3 n : pow2 (Nat.max n 3) = Z.max (pow2 n) 8.
Proof.
  destruct (Nat.max_spec n 3) as [[? ->]|[? ->]].
  - rewrite Z.max_r; [done|]. change 8 with (pow2 3). unfold pow2. apply Z.pow_le_mono_r; lia.
  - rewrite Z.max_l; [done|]. change 8 with (pow2 3). unfold pow2. apply Z.pow_le_mono_r; lia.
Qed.

Lemma inner_lookup s k o : hd_live s !! k = Some o -> hs_live (inner_of s) !! k = Some (inner_live o).
Proof. intros H. cbn [inner_of hs_live]. by rewrite lookup_fmap, H. Qed.

(** The block of an allocation lies in what the inner heap set aside for it. *)
Lemma block_in top s k o a :
  hinv top (inner_of s) -> hd_live s !! k = Some o -> ow_base o <= a < ow_base o + 64 + ow_size o ->
  lv_in (inner_live o) a.
Proof.
  intros Hi Hk Ha. pose proof (hi_ok _ _ Hi k _ (inner_lookup _ _ _ Hk)) as [_ (_ & _ & Hf) _ _ _].
  unfold lv_in. cbn [inner_live lv_ptr lv_size lv_foot] in *. lia.
Qed.

(** Blocks of different allocations do not overlap. *)
Lemma blocks_apart top s k1 k2 o1 o2 a :
  hinv top (inner_of s) -> hd_live s !! k1 = Some o1 -> hd_live s !! k2 = Some o2 ->
  ow_base o1 <= a < ow_base o1 + 64 + ow_size o1 -> ow_base o2 <= a < ow_base o2 + 64 + ow_size o2 -> k1 = k2.
Proof.
  intros Hi K1 K2 A1 A2.
  eapply (hi_apart _ _ Hi k1 k2 (inner_live o1) (inner_live o2) a);
    eauto using inner_lookup, block_in.
Qed.

Lemma guard_byte_b_spec base size a : guard_byte_b base size a = true <-> guard_byte base size a.
Proof. unfold guard_byte_b, guard_byte. rewrite orb_true_iff, !andb_true_iff, !Z.leb_le, !Z.ltb_lt. done. Qed.

(** ** Steps *)

Lemma hardened_size_ok size : 0 <= size <= ISIZE_MAX -> hardened_size size = Done (size + 64).
Proof.
  intros H. unfold hardened_size, HEADER_SIZE, REDZONE_SIZE, CANARY_SIZE, ISIZE_MAX in *. unfold add64.
  replace (24 + 16 + size <? U64) with true by (unfold U64; lia). cbn [mbind outcome_bind].
  replace (24 + 16 + size + 16 <? U64) with true by (unfold U64; lia). cbn [mbind outcome_bind].
  replace (24 + 16 + size + 16 + 8 <? U64) with true by (unfold U64; lia). f_equal. lia.
Qed.

Lemma hd_after_null s k size n reply : hd_after s (hd_heap s) (hd_mem s) 0 k size n reply = s.
Proof. unfold hd_after. destruct s as [h m l r], reply as [[a b]|]; simpl; [by rewrite Z.eqb_refl|done]. Qed.

Lemma inner_after s h m base k size n reply :
  0 < base ->
  inner_of (hd_after s h m (base + 40) k size n reply) =
  alloc_after (inner_of s) (inner h) base k (size + 64) (Nat.max n 3) reply.
Proof.
  intros Hb. unfold inner_of, hd_after, alloc_after. cbn [hd_heap hd_live hd_regions hs_heap hs_live hs_regions].
  rewrite (proj2 (Z.eqb_neq (base + 40) 0)), (proj2 (Z.eqb_neq base 0)) by lia. f_equal.
  rewrite fmap_insert. f_equal. unfold inner_live, ow_base. simpl. f_equal. lia.
Qed.

(** Guards of other allocations survive what is written into one's block. *)
Lemma guards_keep top s k j o x m0 m :
  hinv top (inner_of s) -> hd_live s !! k = Some o -> hd_live s !! j = Some x -> k <> j ->
  0 <= ow_size x -> guarded m0 (ow_base x) (ow_size x) ->
  (forall a, ~ (ow_base o <= a < ow_base o + 64 + ow_size o) -> m a = m0 a) ->
  guarded m (ow_base x) (ow_size x).
Proof.
  intros Hi Hk Hj Hne H0 Hg Hm. apply (guarded_ext m0); [done| |done]. intros a Ha. symmetry. apply Hm.
  intros Hin. apply Hne. eapply (blocks_apart top s k j o x a); try done. unfold guard_byte in Ha. lia.
Qed.

Lemma hdinv_took top s i base k size n reply :
  let h := {| inner := i; alloc_count := alloc_count (hd_heap s) + 1;
              free_count := free_count (hd_heap s); corruption_count := corruption_count (hd_heap s) |} in
  let s' := hd_after s h (guard_block (hd_mem s) base size) (base + 40) k size n reply in
  hdinv top s -> hd_live s !! k = None -> 0 <= size <= ISIZE_MAX -> alloc_count (hd_heap s) + 1 < U64 ->
  0 < base -> hinv top (inner_of s') -> hdinv top s'.
Proof.
  intros h s' Hi Hk Hs Hc Hb Hi'.
  assert (hd_live s' = <[k := {| ow_ptr := base + 40; ow_size := size; ow_align := n |}]> (hd_live s)) as El.
  { unfold s', hd_after. cbn [hd_live]. by rewrite (proj2 (Z.eqb_neq (base + 40) 0)) by lia. }
  split; try done.
  - intros j x Hx. rewrite El in Hx. apply lookup_insert_Some in Hx as [[<- <-]|[Hne Hx]]; [simpl; lia|].
    by apply (hdi_size _ _ Hi j).
  - intros j x Hx. pose proof Hx as Hx'. rewrite El in Hx. apply lookup_insert_Some in Hx as [[<- <-]|[Hne Hx]].
    + unfold ow_base. cbn [ow_ptr ow_size s' hd_after hd_mem]. replace (base + 40 - 40) with base by lia.
      apply guard_block_guarded; unfold ISIZE_MAX, U64 in *; lia.
    + apply (guards_keep top s' k j {| ow_ptr := base + 40; ow_size := size; ow_align := n |} x (hd_mem s)); try done.
      * by rewrite El, lookup_insert_eq.
      * by apply (hdi_size _ _ Hi j).
      * by apply (hdi_guards _ _ Hi j).
      * intros a Ha. apply guard_block_other; [lia|]. unfold guard_byte, ow_base in *. simpl in Ha. lia.
  - apply bytes_ok_guard, Hi.
  - apply Hi.
  - rewrite El, map_size_insert_None by done. pose proof (hdi_counts _ _ Hi). simpl. lia.
  - pose proof (hdi_range _ _ Hi). simpl. lia.
Qed.

Lemma hdalloc_ok top s k size n reply :
  hdinv top s -> hdpermitted top s (HdAlloc k size n reply) = true ->
  exists h m ptr,
    hardened_allocate (hd_heap s) (hd_mem s) (Some (fun _ => reply)) size (pow2 n) = Done (h, m, ptr) /\
    hdinv top (hd_after s h m ptr k size n reply) /\
    ((ptr = 0 /\ m = hd_mem s) \/ (40 < ptr /\ m = guard_block (hd_mem s) (ptr - 40) size)).
Proof.
  intros Hi Hp. cbn [hdpermitted] in Hp. rewrite !andb_true_iff in Hp.
  destruct Hp as (((((Hk & H0) & Hmax) & Htop) & Hcnt) & Hr).
  apply bool_decide_eq_true in Hk. apply Z.leb_le in H0, Hmax. apply Z.ltb_lt in Hcnt.
  unfold hardened_allocate. rewrite hardened_size_ok by done. cbn [mbind outcome_bind]. unfold HEADER_ALIGN.
  destruct (from_size_align (size + 64) (Z.max (pow2 n) 8)) eqn:El; cbn [negb].
  2: { exists (hd_heap s), (hd_mem s), 0. rewrite hd_after_null. split; [done|]. split; [done|by left]. }
  assert (hpermitted top (inner_of s) (HAlloc k (size + 64) (Nat.max n 3) reply) = true) as Hp.
  { cbn [hpermitted]. rewrite !andb_true_iff, pow2_max3. split_and!; try done.
    - apply bool_decide_eq_true. cbn [inner_of hs_live]. by rewrite lookup_fmap, Hk.
    - lia.
    - rewrite Z.max_l by lia. unfold from_size_align in El. lia.
    - rewrite Z.max_l by lia. done. }
  destruct (allocate_returns top _ k _ _ reply (hdi_inner _ _ Hi) Hp) as (i & base & E & Hb & Hi').
  cbn [inner_of hs_heap] in E. rewrite pow2_max3 in E. rewrite E. cbn [mbind outcome_bind].
  destruct (Z.eqb_spec base 0) as [->|Hne].
  - eexists _, _, _. split; [done|]. split; [|by left]. destruct Hi. by split.
  - rewrite add64_ok by done. cbn [mbind outcome_bind]. unfold HEADER_SIZE, REDZONE_SIZE.
    replace (base + 24 + 16) with (base + 40) by lia. replace (base + 40 + size + 16) with (base + 56 + size) by lia.
    eexists _, _, _. split; [done|]. fold (guard_block (hd_mem s) base size).
    rewrite <- (inner_after s {| inner := i; alloc_count := alloc_count (hd_heap s) + 1;
      free_count := free_count (hd_heap s); corruption_count := corruption_count (hd_heap s) |}
      (guard_block (hd_mem s) base size)) in Hi' by lia.
    split; [|right; replace (base + 40 - 40) with base by lia; split; [lia|done]].
    apply hdinv_took; try done; lia.
Qed.

Lemma hdfree_ok top s k o :
  hdinv top s -> hd_live s !! k = Some o ->
  exists i, deallocate (inner (hd_heap s)) (ow_base o) (ow_size o + 64) (Z.max (pow2 (ow_align o)) 8) = Done i /\
    from_size_align (ow_size o + 64) (Z.max (pow2 (ow_align o)) 8) = true /\ 0 < ow_base o /\
    hinv top {| hs_heap := i; hs_live := inner_live <$> delete k (hd_live s); hs_regions := hd_regions s |}.
Proof.
  intros Hi Hk. pose proof (inner_lookup _ _ _ Hk) as Hl.
  destruct (hfree_ok top (inner_of s) k _ (hdi_inner _ _ Hi) Hl) as (l & E & Hi').
  pose proof (hi_ok _ _ (hdi_inner _ _ Hi) k _ Hl) as [Hb _ _ _ [_ Hlay]].
  cbn [hstep] in E. rewrite Hl in E. cbn [inner_live lv_ptr lv_size lv_align inner_of hs_heap] in E, Hb, Hlay.
  rewrite pow2_max3 in E, Hlay. destruct (deallocate _ _ _ _) as [i| |]; cbn [mbind outcome_bind] in E; try done.
  injection E as Ei. exists i. split; [done|]. split; [unfold from_size_align; lia|]. split; [done|].
  rewrite Ei, fmap_delete. done.
Qed.

Lemma live_size s k o : hd_live s !! k = Some o -> (0 < base.size (hd_live s))%nat.
Proof. intros Hk. assert (base.size (hd_live s) <> 0%nat); [|lia]. rewrite map_size_ne_0_lookup. eauto. Qed.

Lemma free_count_room top s k o : hdinv top s -> hd_live s !! k = Some o -> free_count (hd_heap s) + 1 < U64.
Proof.
  intros Hi Hk. pose proof (hdi_counts _ _ Hi). pose proof (hdi_range _ _ Hi).
  pose proof (live_size s k o Hk). lia.
Qed.

Lemma hdstep_ok top s e :
  hdinv top s -> hdpermitted top s e = true -> exists s', hdstep s e = Done s' /\ hdinv top s'.
Proof.
  intros Hi Hp. destruct e as [k size n reply|k|a v]; cbn [hdstep].
  - destruct (hdalloc_ok top s k size n reply Hi Hp) as (h & m & ptr & E & Hi' & _). rewrite E. eauto.
  - destruct (hd_live s !! k) as [o|] eqn:Hk; [|eauto].
    destruct (hdfree_ok top s k o Hi Hk) as (i & E & Hl & Hb & Hi').
    pose proof (hdi_guards _ _ Hi k o Hk) as Hg. pose proof (hdi_counts _ _ Hi). pose proof (hdi_range _ _ Hi).
    pose proof (hdi_clean _ _ Hi) as Hc. pose proof (hdi_size _ _ Hi k o Hk).
    pose proof (free_count_room top s k o Hi Hk). pose proof (live_size s k o Hk).
    replace (ow_ptr o) with (ow_base o + 40) by (unfold ow_base; lia).
    rewrite (dealloc_counts _ _ _ _ _ i) by (try done; try apply Hg; unfold U64 in *; lia).
    cbn [mbind outcome_bind]. eexists. split; [done|].
    split; cbn [hd_heap hd_mem hd_live hd_regions inner corruption_count alloc_count free_count]; [done|..].
    + intros j x [_ Hx]%lookup_delete_Some. by apply (hdi_size _ _ Hi j).
    + intros j x [Hne Hx]%lookup_delete_Some.
      apply (guards_keep top s k j o x (hd_mem s)); try done; [apply Hi|by apply (hdi_size _ _ Hi j)|by apply (hdi_guards _ _ Hi j)|].
      intros a Ha. apply write_bytes_other. lia.
    + by apply bytes_ok_fill; [apply Hi|].
    + destruct Hg. rewrite damage_none, Hc; done.
    + rewrite map_size_delete_Some by eauto. lia.
    + lia.
  - cbn [hdpermitted] in Hp. rewrite !andb_true_iff, forallb_forall in Hp. destruct Hp as [Hv Hno].
    eexists. split; [done|]. destruct Hi as [I1 I2 I3 I4 I5 I6 I7]. split; try done; simpl.
    + intros k o Hk. apply (guarded_ext (hd_mem s)); [by eapply I2| |by eapply I3].
      intros x Hx. unfold write_byte. destruct (Z.eqb_spec x a) as [->|]; [|done]. exfalso.
      specialize (Hno (k, o)). cbn in Hno. apply negb_true_iff in Hno.
      * by apply guard_byte_b_spec in Hx; rewrite Hx in Hno.
      * by apply list_elem_of_In, elem_of_map_to_list.
    + apply bytes_ok_byte; [done|lia].
Qed.

Lemma hdrun_ok top es : forall s,
  hdinv top s -> hdpermitted_run top s es = true -> exists s', hdrun s es = Done s' /\ hdinv top s'.
Proof.
  induction es as [|e es IH]; intros s Hi Hp; cbn [hdrun hdpermitted_run] in *; [eauto|].
  apply andb_true_iff in Hp as [He Hes]. destruct (hdstep_ok top s e Hi He) as (s' & E & Hi').
  rewrite E in *. cbn [mbind outcome_bind]. by apply IH.
Qed.

Lemma hdstart_ok top m start size :
  bytes_ok m -> region_ok top (Free start size) = true -> top + 8 < U64 ->
  exists s, hdstart m start size = Done s /\ hdinv top s.
Proof.
  intros Hm Hr Ht. destruct (hstart_ok top start size Hr Ht) as (s & E & Hi & _).
  unfold hstart in E. unfold hdstart, hardened_init, hardened_empty. cbn [inner].
  destruct (heap_init heap_empty start size) as [h| |]; cbn [mbind outcome_bind] in *; try done. injection E as <-.
  eexists. split; [done|]. split; done.
Qed.

(** The states a permitted history reaches. *)
Definition hdreaches (top : Z) (m : memory) (start size : Z) (es : list hdevent) (s : HdState) : Prop :=
  exists s0, hdstart m start size = Done s0 /\ hdpermitted_run top s0 es = true /\ hdrun s0 es = Done s.

Lemma hdreaches_inv top m start size es s :
  bytes_ok m -> region_ok top (Free start size) = true -> top + 8 < U64 ->
  hdreaches top m start size es s -> hdinv top s.
Proof.
  intros Hm Hr Ht (s0 & E0 & Hp & E). destruct (hdstart_ok top m start size Hm Hr Ht) as (s1 & E1 & Hi).
  rewrite E0 in E1. injection E1 as <-. destruct (hdrun_ok top es s0 Hi Hp) as (s' & E' & Hi').
  rewrite E in E'. by injection E' as <-.
Qed.

(** The user's pointer is 40 past a multiple of the alignment. *)
Lemma user_align n base :
  (pow2 (Nat.max n 3) | base) -> if decide (n <= 3)%nat then (pow2 n | base + 40) else ~ (pow2 n | base + 40).
Proof.
  intros Hd. destruct (decide (n <= 3)%nat) as [Hle|Hgt].
  - assert ((pow2 n | 8)) as H8.
    { change 8 with (pow2 3). replace 3%nat with (n + (3 - n))%nat by lia. rewrite pow2_add. apply Z.divide_factor_l. }
    rewrite Nat.max_r in Hd by done. change (pow2 3) with 8 in Hd.
    apply Z.divide_add_r; [by apply (Z.divide_trans _ 8)|apply (Z.divide_trans _ 8); [done|by exists 5]].
  - rewrite Nat.max_l in Hd by lia. intros Hd'.
    assert ((pow2 n | 40)) as H40 by (replace 40 with (base + 40 - base) by lia; by apply Z.divide_sub_r).
    assert ((16 | 40)) as [c Hc]; [|lia]. apply (Z.divide_trans _ (pow2 n)); [|done].
    change 16 with (pow2 4). replace n with (4 + (n - 4))%nat by lia. rewrite pow2_add. apply Z.divide_factor_l.
Qed.

Lemma damage_bound m base size : 0 <= 0 + damage m base size <= 3.
Proof.
  unfold damage. destruct (check_redzone m (base + 24) 16), (check_redzone m (base + 40 + size) 16),
    (read_u64 m (base + 56 + size) =? CANARY_VALUE); lia.
Qed.

(** What is free after a free. *)
Lemma freed_bytes top s k o i a :
  hdinv top s -> hd_live s !! k = Some o ->
  hinv top {| hs_heap := i; hs_live := inner_live <$> delete k (hd_live s); hs_regions := hd_regions s |} ->
  free_at (blocks i) a <-> free_at (blocks (inner (hd_heap s))) a \/ lv_in (inner_live o) a.
Proof.
  intros Hi Hk Hi'. pose proof (hdi_inner _ _ Hi) as Hin.
  pose proof (hi_cover _ _ Hin a) as C. pose proof (hi_cover _ _ Hi' a) as C'.
  pose proof (hi_free _ _ Hin a) as F. pose proof (hi_free _ _ Hi' a) as F'.
  pose proof (live_at_delete top (inner_of s) k _ a Hin (inner_lookup _ _ _ Hk)) as D.
  assert (lv_in (inner_live o) a -> live_at (hs_live (inner_of s)) a)
    by (intros; exists k, (inner_live o); eauto using inner_lookup).
  cbn [hs_heap hs_live hs_regions inner_of] in *. rewrite fmap_delete in *.
  destruct (decide (lv_in (inner_live o) a)) as [Hx|Hx]; tauto.
Qed.

(** Two allocations, writes into both and into free memory, a free in between. *)
Definition example_hardened : list hdevent :=
  [HdAlloc 1 24 3 None; HdWrite 4136 7; HdAlloc 2 5 0 (Some (8192, 4096)); HdWrite 8232 255; HdWrite 9000 1; HdFree 1;
   HdAlloc 3 4 4 None].

Definition zeroed : memory := fun _ => 0.

Lemma zeroed_ok : bytes_ok zeroed.
Proof. by intros a. Qed.

Definition hdfinal (m : memory) (start size : Z) (es : list hdevent) : HdState :=
  match s ← hdstart m start size; hdrun s es with
  | Done s => s
  | _ => {| hd_heap := hardened_empty; hd_mem := m; hd_live := ∅; hd_regions := [] |}
  end.

Definition hdpermitted_from (top : Z) (m : memory) (start size : Z) (es : list hdevent) : bool :=
  match hdstart m start size with
  | Done s => hdpermitted_run top s es && match hdrun s es with Done _ => true | _ => false end
  | _ => false
  end.

Lemma hdfinal_reaches top m start size es :
  hdpermitted_from top m start size es = true -> hdreaches top m start size es (hdfinal m start size es).
Proof.
  unfold hdpermitted_from, hdfinal, hdreaches. destruct (hdstart m start size) as [s0| |]; [|done|done].
  cbn [mbind outcome_bind]. intros [Hp Hr]%andb_true_iff. exists s0. by destruct (hdrun s0 es).
Qed.

(** ** Properties *)

(** C27.  Clients that stay in bounds never trip a check: however allocations, frees,
    growth and writes outside the guards interleave, no operation panics and no
    corruption is counted; the statistics balance; blocks with their guards never
    overlap, and neither do they overlap free memory.  A pointer is aligned as its
    layout asks when the layout asks for 8 bytes or less.  For any larger
    alignment it is misaligned, since the header and redzone take 40 bytes. *)
Theorem hardened_safe top m start size es s0 :
  bytes_ok m -> region_ok top (Free start size) = true -> top + 8 < U64 ->
  hdstart m start size = Done s0 -> hdpermitted_run top s0 es = true ->
  exists s, hdrun s0 es = Done s /\
    corruption_count (hd_heap s) = 0 /\
    alloc_count (hd_heap s) = free_count (hd_heap s) + Z.of_nat (base.size (hd_live s)) /\
    (forall k1 k2 o1 o2 a, hd_live s !! k1 = Some o1 -> hd_live s !! k2 = Some o2 ->
       ow_base o1 <= a < ow_base o1 + 64 + ow_size o1 -> ow_base o2 <= a < ow_base o2 + 64 + ow_size o2 -> k1 = k2) /\
    (forall k o a, hd_live s !! k = Some o -> ow_base o <= a < ow_base o + 64 + ow_size o ->
       free_at (hd_regions s) a /\ ~ free_at (blocks (inner (hd_heap s))) a) /\
    (forall k o, hd_live s !! k = Some o ->
       if decide (ow_align o <= 3)%nat then (pow2 (ow_align o) | ow_ptr o) else ~ (pow2 (ow_align o) | ow_ptr o)).
Proof.
  intros Hm Hr Ht E0 Hp. destruct (hdstart_ok top m start size Hm Hr Ht) as (s1 & E1 & Hi0).
  rewrite E0 in E1. injection E1 as <-. destruct (hdrun_ok top es s0 Hi0 Hp) as (s & E & Hi).
  pose proof (hdi_inner _ _ Hi) as Hin. exists s. split; [done|]. split; [apply Hi|]. split; [apply Hi|].
  split; [intros; by eapply blocks_apart|]. split.
  - intros k o a Hk Ha.
    assert (live_at (hs_live (inner_of s)) a) as Hl by (exists k, (inner_live o); eauto using inner_lookup, block_in).
    split; [by apply (hi_cover _ _ Hin a); right|]. intros Hf. by apply (hi_free _ _ Hin a).
  - intros k o Hk. pose proof (hi_ok _ _ Hin k _ (inner_lookup _ _ _ Hk)) as [_ _ Ha _ _].
    apply user_align in Ha. unfold ow_base in Ha. cbn [inner_live lv_ptr] in Ha.
    by replace (ow_ptr o) with (ow_ptr o - 40 + 40) by lia.
Qed.

Lemma hardened_safe_witness :
  exists s0 s, hdstart zeroed 4096 256 = Done s0 /\ hdrun s0 example_hardened = Done s /\
    corruption_count (hd_heap s) = 0.
Proof.
  eexists. destruct (hardened_safe example_top zeroed 4096 256 example_hardened _ zeroed_ok eq_refl eq_refl eq_refl eq_refl)
    as (s & E & Hc & _).
  exists s. by split_and!.
Defined.


(** A client of a 24-byte allocation that writes one byte too far. *)
Definition example_one : list hdevent := [HdAlloc 1 24 3 None].
Definition example_owned : Owned := {| ow_ptr := 4136; ow_size := 24; ow_align := 3 |}.
Definition example_hd : HdState := hdfinal zeroed 4096 256 example_one.
Definition one_too_far : memory := write_byte (hd_mem example_hd) 4160 0.


(** No operation of the heap touches the data of a live allocation: a byte of
    the user's area changes only when it is written. *)
Theorem hardened_keeps_data top m start size es s e s' k o a :
  bytes_ok m -> region_ok top (Free start size) = true -> top + 8 < U64 ->
  hdreaches top m start size es s -> hdpermitted top s e = true -> hdstep s e = Done s' ->
  hd_live s !! k = Some o -> e <> HdFree k -> ow_ptr o <= a < ow_ptr o + ow_size o ->
  hd_live s' !! k = Some o /\
  hd_mem s' a = match e with HdWrite b v => if a =? b then v else hd_mem s a | _ => hd_mem s a end.
Proof.
  intros Hm Hr Ht Hs Hp E Hk He Ha. pose proof (hdreaches_inv _ _ _ _ _ _ Hm Hr Ht Hs) as Hi.
  pose proof (hdi_size _ _ Hi k o Hk). destruct e as [j sz n reply|j|b v]; cbn [hdstep] in E.
  - destruct (hdalloc_ok top s j sz n reply Hi Hp) as (h & m2 & ptr & Ea & Hi' & Hcase). rewrite Ea in E.
    cbn [mbind outcome_bind] in E. injection E as <-.
    assert (hd_live s !! j = None /\ 0 <= sz) as [Hj Hsz].
    { cbn [hdpermitted] in Hp. rewrite !andb_true_iff in Hp.
      destruct Hp as [[[[[Hj%bool_decide_eq_true Hsz%Z.leb_le] _] _] _] _]. done. }
    destruct Hcase as [[-> ->]|[Hptr ->]]; [by rewrite <- Hk|].
    assert (hd_live (hd_after s h (guard_block (hd_mem s) (ptr - 40) sz) ptr j sz n reply) =
            <[j := {| ow_ptr := ptr; ow_size := sz; ow_align := n |}]> (hd_live s)) as El.
    { unfold hd_after. cbn [hd_live]. by rewrite (proj2 (Z.eqb_neq ptr 0)) by lia. }
    assert (j <> k) as Hjk by congruence. split; [by rewrite El, lookup_insert_ne|].
    apply guard_block_other; [done|intros Hg; apply Hjk].
    eapply (blocks_apart top _ j k {| ow_ptr := ptr; ow_size := sz; ow_align := n |} o a (hdi_inner _ _ Hi')).
    + rewrite El. apply lookup_insert_eq.
    + by rewrite El, lookup_insert_ne.
    + unfold guard_byte, ow_base in *. simpl. lia.
    + unfold ow_base. lia.
  - destruct (hd_live s !! j) as [x|] eqn:Hj; [|by injection E as <-].
    assert (j <> k) as Hjk by congruence. pose proof (hdi_size _ _ Hi j x Hj).
    destruct (hdfree_ok top s j x Hi Hj) as (i & Ed & Hl & Hb & _).
    replace (ow_ptr x) with (ow_base x + 40) in E by (unfold ow_base; lia).
    rewrite (dealloc_counts _ _ _ _ _ i) in E; try done; [|lia|apply (hdi_guards _ _ Hi j x Hj)| |];
      [|by rewrite (hdi_clean _ _ Hi)|by eapply free_count_room].
    cbn [mbind outcome_bind] in E. injection E as <-. cbn [hd_live hd_mem].
    split; [by rewrite lookup_delete_ne|]. apply write_bytes_other.
    destruct (decide (a < ow_base x + 40 \/ ow_base x + 40 + ow_size x <= a)) as [|Hin]; [done|].
    exfalso. apply Hjk. eapply (blocks_apart top s j k x o a (hdi_inner _ _ Hi)); try done; unfold ow_base in *; lia.
  - injection E as <-. done.
Qed.

Lemma hardened_keeps_data_witness :
  exists s', hdstep example_hd (HdAlloc 2 5 0 None) = Done s' /\ hd_mem s' 4140 = hd_mem example_hd 4140.
Proof.
  set (s := example_hd).
  assert (hdreaches example_top zeroed 4096 256 example_one s) as H by (apply hdfinal_reaches; vm_compute; reflexivity).
  assert (hd_live s !! 1 = Some example_owned) as Hk by (vm_compute; reflexivity).
  assert (match hdstep s (HdAlloc 2 5 0 None) with Done _ => true | _ => false end = true) as Hdone
    by (vm_compute; reflexivity).
  destruct (hdstep s (HdAlloc 2 5 0 None)) as [s'| |] eqn:E; [|discriminate Hdone..].
  exists s'. split; [reflexivity|].
  apply (hardened_keeps_data example_top zeroed 4096 256 example_one s (HdAlloc 2 5 0 None) s' 1 example_owned 4140
           zeroed_ok eq_refl eq_refl H ltac:(vm_compute; reflexivity) E Hk ltac:(discriminate)).
  vm_compute. split; discriminate || reflexivity.
Defined.
