(* ===== verification/KernelHeap.v ===== *)
(** * The interface of the kernel heap

    mm/mm-heap/src/lib.rs picks the heap the kernel uses by a build feature:
    [LockedHeap] around the linked-list allocator, or [LockedHardenedHeap] around
    the hardened one.  Both implement [GlobalAlloc]; the slab allocator falls back
    to whichever it is.  [KernelHeapOps] has the two operations and
    [KernelHeapLaws] what a client may rely on; both heaps are instances.

    The lock makes each operation atomic, so it does not appear. *)
From S2P Require Import Prelude Addr Heap HeapSys Hardened HardenedSys.

Class KernelHeapOps (H : Type) := {
  kh_init : H -> Z -> Z -> outcome H;
  kh_alloc : H -> option (Z -> option (Z * Z)) -> Z -> Z -> outcome (H * Z);
  kh_dealloc : H -> Z -> Z -> Z -> outcome H
}.

(** The byte at [a] is in the user's area. *)
Definition ow_in (o : Owned) (a : Z) : Prop := ow_ptr o <= a < ow_ptr o + ow_size o.

(** What the growth callback may answer: nothing, or a region of its own. *)
Definition growth_ok (top total : Z) (regions : list FreeBlock) (reply : option (Z * Z)) : bool :=
  match reply with
  | Some (a, r) => region_ok top (Free a r) && forallb (regions_apart (Free a r)) regions && (total + r <? U64)
  | None => true
  end.

(** A layout of [size] bytes aligned to [2 ^ n]. *)
Definition layout_fits (top size : Z) (n : nat) : bool :=
  (0 <=? size) && (size + Z.max (pow2 n) 8 - 1 <=? ISIZE_MAX) && (top + Z.max (pow2 n) 8 <? U64).

(** The regions after an allocation that left the heap's total size at [total']. *)
Definition grown (total total' : Z) (regions : list FreeBlock) (reply : option (Z * Z)) : list FreeBlock :=
  match reply with
  | Some (a, r) => if total' =? total then regions else Free a r :: regions
  | None => regions
  end.

Class KernelHeapLaws (H : Type) `{KernelHeapOps H} := {
  (** The heap [h] serves [live] from [regions], all below [top]. *)
  kh_inv : Z -> H -> gmap Z Owned -> list FreeBlock -> Prop;
  kh_total : H -> Z;
  kh_room : H -> bool;
  (** A heap that was not initialised yet. *)
  kh_fresh : H -> Prop;
  kh_init_ok top h start size :
    kh_fresh h -> region_ok top (Free start size) = true -> top + 8 < U64 ->
    exists h', kh_init h start size = Done h' /\ kh_inv top h' ∅ [Free start size];
  kh_alloc_ok top h live regions k size n reply :
    kh_inv top h live regions -> live !! k = None -> layout_fits top size n = true -> kh_room h = true ->
    growth_ok top (kh_total h) regions reply = true ->
    exists h' ptr, kh_alloc h (Some (fun _ => reply)) size (pow2 n) = Done (h', ptr) /\
      kh_inv top h' (if ptr =? 0 then live else <[k := {| ow_ptr := ptr; ow_size := size; ow_align := n |}]> live)
        (grown (kh_total h) (kh_total h') regions reply);
  kh_dealloc_ok top h live regions k o :
    kh_inv top h live regions -> live !! k = Some o ->
    exists h', kh_dealloc h (ow_ptr o) (ow_size o) (pow2 (ow_align o)) = Done h' /\
      kh_inv top h' (delete k live) regions;
  kh_pos top h live regions k o : kh_inv top h live regions -> live !! k = Some o -> 0 < ow_ptr o;
  kh_apart top h live regions k1 k2 o1 o2 a :
    kh_inv top h live regions -> live !! k1 = Some o1 -> live !! k2 = Some o2 -> ow_in o1 a -> ow_in o2 a -> k1 = k2;
  kh_within top h live regions k o a :
    kh_inv top h live regions -> live !! k = Some o -> ow_in o a -> free_at regions a
}.

(** ** [LockedHeap] *)

#[export] Instance locked_ops : KernelHeapOps LinkedListAllocator := {
  kh_init := heap_init;
  kh_alloc := allocate;
  kh_dealloc := deallocate
}.

Definition owned_live (o : Owned) : Live :=
  {| lv_ptr := ow_ptr o; lv_size := ow_size o; lv_align := ow_align o; lv_foot := foot (ow_size o) (ow_align o) |}.

Definition locked_state (h : LinkedListAllocator) (live : gmap Z Owned) (regions : list FreeBlock) : HState :=
  {| hs_heap := h; hs_live := owned_live <$> live; hs_regions := regions |}.

Lemma owned_lookup h live regions k o :
  live !! k = Some o -> hs_live (locked_state h live regions) !! k = Some (owned_live o).
Proof. intros Hk. cbn [locked_state hs_live]. by rewrite lookup_fmap, Hk. Qed.

Lemma owned_in top h live regions k o a :
  hinv top (locked_state h live regions) -> live !! k = Some o -> ow_in o a -> lv_in (owned_live o) a.
Proof.
  intros Hi Hk Ha. destruct (hi_ok _ _ Hi k _ (owned_lookup h live regions k o Hk)) as [_ (_ & _ & Hf) _ _ _].
  unfold ow_in in Ha. unfold lv_in. cbn [owned_live lv_ptr lv_size lv_foot] in *. lia.
Qed.

#[export] Program Instance locked_laws : KernelHeapLaws LinkedListAllocator := {
  kh_inv top h live regions := hinv top (locked_state h live regions);
  kh_total h := total_size h;
  kh_room h := true;
  kh_fresh h := h = heap_empty
}.
Next Obligation.
  intros top h start size -> Hr Ht. destruct (hstart_ok top start size Hr Ht) as (s & E & Hi & _).
  unfold hstart in E. cbn [kh_init locked_ops].
  destruct (heap_init heap_empty start size) as [h'| |]; cbn [mbind outcome_bind] in E; try done. injection E as <-.
  exists h'. split; [done|]. unfold locked_state. by rewrite fmap_empty.
Qed.
Next Obligation.
  intros top h live regions k size n reply Hi Hk Hl _ Hg.
  assert (hpermitted top (locked_state h live regions) (HAlloc k size n reply) = true) as Hp.
  { cbn [hpermitted]. unfold layout_fits in Hl. rewrite !andb_true_iff in Hl. destruct Hl as [[H0 Hmax] Htop].
    rewrite H0, Hmax, Htop, bool_decide_eq_true_2; [by destruct reply as [[a r]|]|].
    cbn [locked_state hs_live]. by rewrite lookup_fmap, Hk. }
  destruct (allocate_returns top _ k size n reply Hi Hp) as (h' & ptr & E & Hpos & Hi').
  exists h', ptr. split; [done|].
  unfold alloc_after in Hi'. cbn [locked_state hs_live hs_heap hs_regions] in Hi'.
  unfold locked_state. destruct (ptr =? 0); [exact Hi'|]. rewrite fmap_insert. exact Hi'.
Qed.
Next Obligation.
  intros top h live regions k o Hi Hk. pose proof (owned_lookup h live regions k o Hk) as Hl.
  destruct (hfree_ok top _ k _ Hi Hl) as (l & E & Hi'). cbn [hstep] in E. rewrite Hl in E.
  cbn [locked_state hs_heap owned_live lv_ptr lv_size lv_align] in E. cbn [kh_dealloc locked_ops].
  destruct (deallocate _ _ _ _) as [h'| |]; cbn [mbind outcome_bind] in E; try done. injection E as Eh.
  exists h'. split; [done|]. unfold locked_state. rewrite Eh, fmap_delete. exact Hi'.
Qed.
Next Obligation. intros top h live regions k o Hi Hk. by apply (hi_ok _ _ Hi k _ (owned_lookup h live regions k o Hk)). Qed.
Next Obligation.
  intros top h live regions k1 k2 o1 o2 a Hi K1 K2 A1 A2.
  apply (hi_apart _ _ Hi k1 k2 (owned_live o1) (owned_live o2) a);
    [by apply owned_lookup..|exact (owned_in _ _ _ _ _ _ _ Hi K1 A1)|exact (owned_in _ _ _ _ _ _ _ Hi K2 A2)].
Qed.
Next Obligation.
  intros top h live regions k o a Hi Hk Ha. apply (hi_cover _ _ Hi a). right.
  exists k, (owned_live o). split; [by apply owned_lookup|exact (owned_in _ _ _ _ _ _ _ Hi Hk Ha)].
Qed.

(** ** [LockedHardenedHeap] *)

(** The allocator and the memory it guards. *)
Definition hardened_heap : Type := HardenedHeapAllocator * memory.

#[export] Instance hardened_ops : KernelHeapOps hardened_heap := {
  kh_init h start size := a ← hardened_init h.1 start size; Done (a, h.2);
  kh_alloc h grow size align :=
    '(a, m, ptr) ← hardened_allocate h.1 h.2 grow size align; Done ((a, m), ptr);
  kh_dealloc h ptr size align := hardened_deallocate h.1 h.2 ptr size align
}.

Definition hardened_state (h : hardened_heap) (live : gmap Z Owned) (regions : list FreeBlock) : HdState :=
  {| hd_heap := h.1; hd_mem := h.2; hd_live := live; hd_regions := regions |}.

#[export] Program Instance hardened_laws : KernelHeapLaws hardened_heap := {
  kh_inv top h live regions := hdinv top (hardened_state h live regions);
  kh_total h := total_size (inner h.1);
  kh_room h := alloc_count h.1 + 1 <? U64;
  kh_fresh h := h.1 = hardened_empty /\ bytes_ok h.2
}.
Next Obligation.
  intros top [h m] start size [Eh Hm] Hr Ht. cbn [fst snd] in *. subst h.
  destruct (hdstart_ok top m start size Hm Hr Ht) as (s & E & Hi).
  unfold hdstart in E. cbn [kh_init hardened_ops fst snd].
  destruct (hardened_init hardened_empty start size) as [h'| |]; cbn [mbind outcome_bind] in *; try done.
  injection E as <-. exists (h', m). done.
Qed.
Next Obligation.
  intros top [h m] live regions k size n reply Hi Hk Hl Hroom Hg.
  assert (hdpermitted top (hardened_state (h, m) live regions) (HdAlloc k size n reply) = true) as Hp.
  { cbn [hdpermitted hardened_state hd_live hd_heap fst]. unfold layout_fits in Hl. rewrite !andb_true_iff in Hl.
    destruct Hl as [[H0 Hmax] Htop]. rewrite H0, Htop, bool_decide_eq_true_2 by done. cbn [fst] in Hroom. rewrite Hroom.
    replace (size <=? ISIZE_MAX) with true by lia. by destruct reply as [[a r]|]. }
  destruct (hdalloc_ok top _ k size n reply Hi Hp) as (h' & m' & ptr & E & Hi' & _).
  exists (h', m'), ptr. cbn [kh_alloc hardened_ops fst snd]. cbn [hardened_state hd_heap hd_mem fst snd] in E.
  rewrite E. split; [done|exact Hi'].
Qed.
Next Obligation.
  intros top [h m] live regions k o Hi Hk. destruct (hdstep_ok top _ (HdFree k) Hi eq_refl) as (s & E & Hi').
  cbn [hdstep hardened_state hd_live] in E. rewrite Hk in E. cbn [kh_dealloc hardened_ops].
  destruct (hardened_deallocate _ _ _ _ _) as [[h' m']| |]; cbn [mbind outcome_bind] in E; try done.
  injection E as <-. exists (h', m'). done.
Qed.
Next Obligation.
  intros top [h m] live regions k o Hi Hk.
  pose proof (hi_ok _ _ (hdi_inner _ _ Hi) k _ (inner_lookup (hardened_state (h, m) live regions) k o Hk)) as [Hp _ _ _ _].
  cbn [inner_live lv_ptr] in Hp. unfold ow_base in Hp. lia.
Qed.
Next Obligation.
  intros top [h m] live regions k1 k2 o1 o2 a Hi K1 K2 A1 A2. unfold ow_in in *.
  pose proof (hdi_size _ _ Hi k1 o1 K1). pose proof (hdi_size _ _ Hi k2 o2 K2).
  eapply (blocks_apart top _ k1 k2 o1 o2 a (hdi_inner _ _ Hi)); try done; unfold ow_base; lia.
Qed.
Next Obligation.
  intros top [h m] live regions k o a Hi Hk Ha. unfold ow_in in Ha.
  apply (hi_cover _ _ (hdi_inner _ _ Hi) a). right. exists k, (inner_live o).
  split; [by apply (inner_lookup (hardened_state (h, m) live regions))|].
  eapply (block_in top (hardened_state (h, m) live regions)); [apply Hi|done|]. unfold ow_base. lia.
Qed.
