(* ===== verification/Slab.v ===== *)
(** * The slab allocator

    mm/mm-slab/src/lib.rs, the kernel's global allocator: for each CPU and each of
    eight size classes a list of free objects, threaded through the objects
    themselves, in front of the kernel heap.

    [store] is the word at the start of each object: the link of a free object, or
    whatever the client wrote there.  The CPU's number, and what the page and
    growth callbacks answer, are arguments.  Preemption is off while a list is
    used, so an operation on a CPU's lists is one step. *)
From S2P Require Import Prelude Addr Heap KernelHeap.

Definition NUM_SIZE_CLASSES : nat := 8.
Definition SLAB_MAX_CPUS : Z := 256.
Definition SIZE_CLASSES : list Z := [16; 32; 64; 128; 256; 512; 1024; 2048].
Definition MAX_CACHED : list Z := [512; 256; 128; 64; 32; 16; 8; 4].
Definition SLAB_PAGE_SIZE : Z := 4096.

Definition store := Z -> Z.
Definition set_next (m : store) (node v : Z) : store := fun a => if a =? node then v else m a.

Record FreeList := { fl_head : Z; fl_count : Z }.

Definition freelist_empty : FreeList := {| fl_head := 0; fl_count := 0 |}.

Definition fl_pop (m : store) (fl : FreeList) : outcome (FreeList * option Z) :=
  if fl_head fl =? 0 then Done (fl, None)
  else c ← sub64 (fl_count fl) 1; Done ({| fl_head := m (fl_head fl); fl_count := c |}, Some (fl_head fl)).

Definition fl_push (m : store) (fl : FreeList) (ptr : Z) : outcome (store * FreeList) :=
  c ← add32 (fl_count fl) 1;
  Done (set_next m ptr (fl_head fl), {| fl_head := ptr; fl_count := c |}).

(** The walk of [drain_half]: at most [n] links from [current]. *)
Fixpoint drain_walk (m : store) (n : nat) (current drained : Z) : outcome (Z * Z) :=
  match n with
  | O => Done (current, drained)
  | S n => if current =? 0 then Done (current, drained)
           else d ← add32 drained 1; drain_walk m n (m current) d
  end.

Definition drain_half (m : store) (fl : FreeList) : outcome (store * FreeList * (Z * Z)) :=
  let to_drain := fl_count fl / 2 in
  if to_drain =? 0 then Done (m, fl, (0, 0)) else
  let drain_head := fl_head fl in
  '(current, drained) ← drain_walk m (Z.to_nat (Z.max (to_drain - 1) 0)) (fl_head fl) 0;
  if current =? 0 then Done (m, fl, (drain_head, drained)) else
  d ← add32 drained 1;
  c ← sub64 (fl_count fl) d;
  Done (set_next m current 0, {| fl_head := m current; fl_count := c |}, (drain_head, d)).

Record PerCpuCache := { free_lists : list FreeList; initialized : bool }.

Definition cache_empty : PerCpuCache :=
  {| free_lists := [freelist_empty; freelist_empty; freelist_empty; freelist_empty;
                    freelist_empty; freelist_empty; freelist_empty; freelist_empty]; initialized := false |}.

Definition CPU_CACHES : list PerCpuCache := replicate 256 cache_empty.

Definition size_class (size : Z) : option nat :=
  if size <=? 16 then Some 0%nat else if size <=? 32 then Some 1%nat else if size <=? 64 then Some 2%nat
  else if size <=? 128 then Some 3%nat else if size <=? 256 then Some 4%nat else if size <=? 512 then Some 5%nat
  else if size <=? 1024 then Some 6%nat else if size <=? 2048 then Some 7%nat else None.

(** The caches and the words the lists are made of. *)
Record Caches := { cpus : list PerCpuCache; links : store }.

(** [CPU_CACHES[cpu].free_lists[class]]; indexing out of range panics. *)
Definition get_list (c : Caches) (cpu : Z) (class : nat) : outcome (PerCpuCache * FreeList) :=
  match cpus c !! Z.to_nat cpu with
  | Some cache => match free_lists cache !! class with Some fl => Done (cache, fl) | None => Fault end
  | None => Fault
  end.

Definition set_list (c : Caches) (cpu : Z) (class : nat) (cache : PerCpuCache) (fl : FreeList) (m : store) : Caches :=
  {| cpus := <[Z.to_nat cpu := {| free_lists := <[class := fl]> (free_lists cache);
                                  initialized := initialized cache |}]> (cpus c);
     links := m |}.

(** Carving a page: [n] objects from the [i]th on; the first of the page is the
    result, the others are pushed. *)
Fixpoint carve_page (m : store) (fl : FreeList) (page obj_size : Z) (i : Z) (n : nat) (result : option Z) :
    outcome (store * FreeList * option Z) :=
  match n with
  | O => Done (m, fl, result)
  | S n =>
      let obj := page + i * obj_size in
      match result with
      | None => carve_page m fl page obj_size (i + 1) n (Some obj)
      | Some _ => '(m, fl) ← fl_push m fl obj; carve_page m fl page obj_size (i + 1) n result
      end
  end.

Definition slab_alloc_fast (c : Caches) (smp_cpu_id : option Z) (page : option Z) (lsize lalign : Z) :
    outcome (Caches * option Z) :=
  let size := Z.max lsize lalign in
  match size_class size with
  | None => Done (c, None)
  | Some class =>
      let cpu := from_option id 0 smp_cpu_id in
      if SLAB_MAX_CPUS <=? cpu then Done (c, None) else
      '(cache, fl) ← get_list c cpu class;
      let cache := {| free_lists := free_lists cache; initialized := true |} in
      '(fl, r) ← fl_pop (links c) fl;
      match r with
      | Some ptr => Done (set_list c cpu class cache fl (links c), Some ptr)
      | None =>
          match page with
          | None => Done (set_list c cpu class cache fl (links c), None)
          | Some page =>
              obj_size ← match SIZE_CLASSES !! class with Some s => Done s | None => Fault end;
              '(m, fl, result) ← carve_page (links c) fl page obj_size 0 (Z.to_nat (SLAB_PAGE_SIZE / obj_size)) None;
              Done (set_list c cpu class cache fl m, result)
          end
      end
  end.

Definition slab_dealloc_fast (c : Caches) (smp_cpu_id : option Z) (ptr lsize lalign : Z) : outcome Caches :=
  let size := Z.max lsize lalign in
  match size_class size with
  | None => Done c
  | Some class =>
      let cpu := from_option id 0 smp_cpu_id in
      if SLAB_MAX_CPUS <=? cpu then Done c else
      '(cache, fl) ← get_list c cpu class;
      '(m, fl) ← fl_push (links c) fl ptr;
      limit ← match MAX_CACHED !! class with Some s => Done s | None => Fault end;
      if limit <? fl_count fl then
        '(m, fl, _) ← drain_half m fl; Done (set_list c cpu class cache fl m)
      else Done (set_list c cpu class cache fl m)
  end.

(** ** The global allocator *)

Record SlabGlobals := { SLAB_READY : bool; HEAP_START : Z; HEAP_END : Z }.

Definition set_heap_range (g : SlabGlobals) (start size : Z) : outcome SlabGlobals :=
  e ← add64 start size; Done {| SLAB_READY := SLAB_READY g; HEAP_START := start; HEAP_END := e |}.

Definition slab_init (g : SlabGlobals) : SlabGlobals :=
  {| SLAB_READY := true; HEAP_START := HEAP_START g; HEAP_END := HEAP_END g |}.

Definition is_slab_pointer (g : SlabGlobals) (ptr : Z) : bool :=
  if HEAP_START g =? 0 then false else (ptr <? HEAP_START g) || (HEAP_END g <=? ptr).

Section Global.
Context {H : Type} `{KernelHeapOps H}.

Definition slab_alloc (g : SlabGlobals) (c : Caches) (fallback : H) (cpu page : option Z)
    (grow : option (Z -> option (Z * Z))) (lsize lalign : Z) : outcome (Caches * H * Z) :=
  let size := Z.max lsize lalign in
  '(c, r) ← (if (size <=? 2048) && SLAB_READY g then slab_alloc_fast c cpu page lsize lalign else Done (c, None));
  match r with
  | Some ptr => Done (c, fallback, ptr)
  | None => '(fallback, ptr) ← kh_alloc fallback grow lsize lalign; Done (c, fallback, ptr)
  end.

Definition slab_dealloc (g : SlabGlobals) (c : Caches) (fallback : H) (cpu : option Z) (ptr lsize lalign : Z) :
    outcome (Caches * H) :=
  let size := Z.max lsize lalign in
  if (size <=? 2048) && SLAB_READY g && is_slab_pointer g ptr then
    c ← slab_dealloc_fast c cpu ptr lsize lalign; Done (c, fallback)
  else fallback ← kh_dealloc fallback ptr lsize lalign; Done (c, fallback).
End Global.

(** ** Linked lists *)

(** From [p] the links lead through the objects of [l]. *)
Fixpoint chain (m : store) (p : Z) (l : list Z) : Prop :=
  match l with
  | [] => p = 0
  | x :: l => p = x /\ x <> 0 /\ chain m (m x) l
  end.

Record holds (m : store) (fl : FreeList) (l : list Z) : Prop := {
  ho_chain : chain m (fl_head fl) l;
  ho_count : fl_count fl = Z.of_nat (length l)
}.

Lemma chain_ext m1 m2 p l : (forall x, x ∈ l -> m1 x = m2 x) -> chain m1 p l -> chain m2 p l.
Proof.
  revert p. induction l as [|x l IH]; intros p Heq; [done|]. intros (-> & Hx & Hc). split_and!; [done|done|].
  rewrite <- (Heq x) by by left. apply IH; [|done]. intros y Hy. apply Heq. by right.
Qed.

Lemma chain_fun m p l1 l2 : chain m p l1 -> chain m p l2 -> l1 = l2.
Proof.
  revert p l2. induction l1 as [|x l1 IH]; intros p [|y l2]; simpl; [done|intros -> (-> & ? & _); done|
    intros (-> & ? & _) ->; done|]. intros (-> & _ & H1) (<- & _ & H2). f_equal. by eapply IH.
Qed.

Lemma chain_nonzero m p l x : chain m p l -> x ∈ l -> x <> 0.
Proof.
  revert p. induction l as [|y l IH]; intros p; [by intros _ ?%not_elem_of_nil|].
  intros (-> & Hy & Hc) [->|Hx]%elem_of_cons; [done|by eapply IH].
Qed.

Lemma holds_ext m1 m2 fl l : (forall x, x ∈ l -> m1 x = m2 x) -> holds m1 fl l -> holds m2 fl l.
Proof. intros Heq [Hc Hn]. split; [by eapply chain_ext|done]. Qed.

Lemma set_next_other m node v a : a <> node -> set_next m node v a = m a.
Proof. intros Ha. unfold set_next. by rewrite (proj2 (Z.eqb_neq _ _) Ha). Qed.

Lemma set_next_same m node v : set_next m node v node = v.
Proof. unfold set_next. by rewrite Z.eqb_refl. Qed.

Lemma fl_pop_nil m fl : holds m fl [] -> fl_pop m fl = Done (fl, None).
Proof. intros [Hc _]. unfold fl_pop. by rewrite (proj2 (Z.eqb_eq _ _) Hc). Qed.

Lemma fl_pop_cons m fl x l :
  holds m fl (x :: l) -> exists fl', fl_pop m fl = Done (fl', Some x) /\ holds m fl' l.
Proof.
  intros [(Hh & Hx & Hc) Hn]. unfold fl_pop. rewrite Hh, (proj2 (Z.eqb_neq _ _) Hx), sub64_ok.
  2: { rewrite Hn. simpl. lia. }
  eexists. split; [done|]. split; [done|]. rewrite Hn. simpl. lia.
Qed.

Lemma fl_push_ok m fl l x :
  holds m fl l -> x <> 0 -> x ∉ l -> Z.of_nat (length l) + 1 < U32 ->
  exists fl', fl_push m fl x = Done (set_next m x (fl_head fl), fl') /\
    holds (set_next m x (fl_head fl)) fl' (x :: l).
Proof.
  intros [Hc Hn] Hx Hnew Hlt. unfold fl_push. rewrite add32_ok by lia. eexists. split; [done|].
  split; [|rewrite length_cons; simpl; lia]. split_and!; [done|done|]. rewrite set_next_same.
  eapply chain_ext; [|done]. intros y Hy. symmetry. apply set_next_other. by intros ->.
Qed.

(** Walking down a list that is long enough. *)
Lemma drain_walk_ok m n : forall p l d x,
  chain m p l -> l !! n = Some x -> d + Z.of_nat n < U32 ->
  drain_walk m n p d = Done (x, d + Z.of_nat n).
Proof.
  induction n as [|n IH]; intros p [|y l] d x Hc Hl Hd; try done; cbn [drain_walk].
  - destruct Hc as (-> & _). injection Hl as ->. f_equal. f_equal. lia.
  - destruct Hc as (-> & Hy & Hc). rewrite (proj2 (Z.eqb_neq _ _) Hy), add32_ok by lia. cbn [mbind outcome_bind].
    rewrite (IH _ l _ x) by (try done; lia). f_equal. f_equal. lia.
Qed.

Lemma chain_split m l1 x l2 : forall p, chain m p (l1 ++ x :: l2) -> x <> 0 /\ chain m (m x) l2.
Proof. induction l1 as [|y l1 IH]; intros p; [by intros (-> & ? & ?)|]. intros (_ & _ & Hc). by eapply IH. Qed.

(** Cutting a list after [x]. *)
Lemma chain_cut m l1 x l2 : forall p,
  x ∉ l1 -> chain m p (l1 ++ x :: l2) -> chain (set_next m x 0) p (l1 ++ [x]).
Proof.
  induction l1 as [|y l1 IH]; intros p Hx Hc; cbn [app chain] in *.
  - destruct Hc as (-> & Hx0 & _). by rewrite set_next_same.
  - destruct Hc as (-> & Hy & Hc). apply not_elem_of_cons in Hx as [Hxy Hx]. split_and!; [done|done|].
    rewrite set_next_other by done. by apply IH.
Qed.

(** [drain_half] keeps the second half of the list and cuts it off from the first. *)
Lemma drain_half_ok m fl l :
  holds m fl l -> NoDup l -> Z.of_nat (length l) < U32 ->
  exists m' fl' r, drain_half m fl = Done (m', fl', r) /\ holds m' fl' (drop (length l / 2) l) /\
    (forall a, (a ∉ l) -> m' a = m a) /\ chain m' r.1 (take (length l / 2) l) /\ r.2 = Z.of_nat (length l / 2).
Proof.
  intros Hh Hnd Hlt. pose proof Hh as [Hc Hn]. unfold drain_half. rewrite Hn.
  change 2 with (Z.of_nat 2). rewrite <- Nat2Z.inj_div. set (k := (length l / 2)%nat).
  assert (k <= length l / 2)%nat as Hk by done.
  destruct (Z.eqb_spec (Z.of_nat k) 0) as [E|E].
  { assert (k = 0%nat) as -> by lia. eexists _, _, _. split; [done|]. rewrite drop_0. done. }
  assert (k - 1 < length l)%nat as Hlen.
  { assert (length l / 2 <= length l)%nat by (apply Nat.Div0.div_le_upper_bound; lia). lia. }
  destruct (lookup_lt_is_Some_2 l (k - 1) Hlen) as [x Hx].
  rewrite Z.max_l by lia. replace (Z.to_nat (Z.of_nat k - 1)) with (k - 1)%nat by lia.
  rewrite (drain_walk_ok m (k - 1) (fl_head fl) l 0 x) by (try done; lia). cbn [mbind outcome_bind].
  pose proof (take_drop_middle l (k - 1) x Hx) as El. replace (S (k - 1)) with k in El by lia.
  destruct (chain_split m (take (k - 1) l) x (drop k l) (fl_head fl)) as [Hx0 Hrest]; [by rewrite El|].
  rewrite (proj2 (Z.eqb_neq _ _) Hx0), add32_ok by lia. cbn [mbind outcome_bind]. rewrite sub64_ok by lia.
  cbn [mbind outcome_bind]. eexists _, _, _. split; [done|].
  assert (x ∈ l) as Hin by (eapply list_elem_of_lookup_2; done).
  assert ((x ∉ drop k l) /\ (x ∉ take (k - 1) l)) as [Hnot Hnot'].
  { rewrite <- El in Hnd. apply NoDup_app in Hnd as (_ & Hd & H2). apply NoDup_cons in H2 as [H2 _].
    split; [done|]. intros H1. by apply (Hd x H1), list_elem_of_here. }
  assert (take k l = take (k - 1) l ++ [x]) as Et.
  { rewrite <- (take_S_r l (k - 1) x Hx). f_equal. lia. }
  split_and!; simpl.
  - split; simpl; [|rewrite length_drop; lia]. eapply chain_ext; [|done]. intros y Hy. symmetry.
    apply set_next_other. by intros ->.
  - intros a Ha. apply set_next_other. by intros ->.
  - rewrite Et. apply (chain_cut m _ x (drop k l)); [done|]. by rewrite El.
  - lia.
Qed.

(** ** Size classes *)

Definition class_size (c : nat) : Z := pow2 (c + 4).
Definition class_max (c : nat) : Z := pow2 (9 - c).

Lemma size_class_spec size c :
  size_class size = Some c -> (c < 8)%nat /\ size <= class_size c /\ SIZE_CLASSES !! c = Some (class_size c) /\
    MAX_CACHED !! c = Some (class_max c).
Proof.
  unfold size_class. intros Hc.
  repeat (match type of Hc with (if ?b then _ else _) = _ => destruct b eqn:? end;
    [injection Hc as <-; split_and!; [lia|unfold class_size, pow2; simpl; lia|done|done]|]). done.
Qed.

Lemma size_class_some size : size <= 2048 <-> exists c, size_class size = Some c.
Proof.
  split.
  - intros Hs. unfold size_class. repeat (case_match; [eauto|]). lia.
  - intros (c & Hc). pose proof (size_class_spec _ _ Hc) as (H8 & Hs & _). unfold class_size in Hs.
    pose proof (pow2_le (c + 4) 11). change (pow2 11) with 2048 in *. lia.
Qed.

(** Objects in a page. *)
Definition per_page (c : nat) : nat := Nat.pow 2 (8 - c).

Lemma class_size_page c :
  (c < 8)%nat ->
  Z.to_nat (SLAB_PAGE_SIZE / class_size c) = per_page c /\ SLAB_PAGE_SIZE = Z.of_nat (per_page c) * class_size c /\
  (2 <= per_page c)%nat /\ 2 * Z.of_nat (per_page c) = class_max c /\ class_max c <= 512.
Proof.
  intros Hc. do 8 (destruct c as [|c]; [vm_compute; split_and!; (reflexivity || lia || discriminate)|]). lia.
Qed.


(** ** Carving a page *)

(** The objects [i .. i + n) of a page. *)
Definition objects (page obj_size i : Z) (n : nat) : list Z := (fun j => page + j * obj_size) <$> seqZ i (Z.of_nat n).

Lemma objects_S page sz i n : objects page sz i (S n) = (page + i * sz) :: objects page sz (i + 1) n.
Proof. unfold objects. rewrite seqZ_cons by lia. simpl. f_equal. f_equal. f_equal; lia. Qed.

Lemma elem_of_objects page sz i n x :
  x ∈ objects page sz i n <-> exists j, x = page + j * sz /\ i <= j < i + Z.of_nat n.
Proof. unfold objects. rewrite list_elem_of_fmap. setoid_rewrite elem_of_seqZ. done. Qed.

Lemma objects_NoDup page sz i n : 0 < sz -> NoDup (objects page sz i n).
Proof. intros Hs. apply NoDup_fmap_2; [|apply NoDup_seqZ]. intros a b Hab. nia. Qed.

Lemma carve_rest n : forall m fl l page sz i r,
  holds m fl l -> 0 < sz -> (forall x, x ∈ objects page sz i n -> x <> 0 /\ x ∉ l) ->
  Z.of_nat (length l + n) < U32 ->
  exists m' fl', carve_page m fl page sz i n (Some r) = Done (m', fl', Some r) /\
    holds m' fl' (reverse (objects page sz i n) ++ l) /\
    (forall a, (a ∉ objects page sz i n) -> m' a = m a).
Proof.
  induction n as [|n IH]; intros m fl l page sz i r Hh Hs Hnew Hlt; cbn [carve_page].
  { exists m, fl. done. }
  rewrite objects_S in Hnew |- *.
  destruct (Hnew (page + i * sz)) as [H0 Hnot]; [by left|].
  destruct (fl_push_ok m fl l (page + i * sz) Hh H0 Hnot) as (fl1 & -> & Hh1); [lia|]. cbn [mbind outcome_bind].
  assert (page + i * sz ∉ objects page sz (i + 1) n) as Hi.
  { rewrite elem_of_objects. intros (j & E & Hj). assert (i = j); [nia|lia]. }
  destruct (IH _ fl1 ((page + i * sz) :: l) page sz (i + 1) r Hh1 Hs) as (m' & fl' & -> & Hh' & Hout).
  { intros x Hx. destruct (Hnew x) as [? ?]; [by right|]. split; [done|]. apply not_elem_of_cons.
    split; [by intros ->|done]. }
  { simpl. lia. }
  exists m', fl'. split; [done|]. split.
  - by rewrite reverse_cons, <- app_assoc.
  - intros a Ha. apply not_elem_of_cons in Ha as [Ha1 Ha2]. rewrite Hout by done. by apply set_next_other.
Qed.

(** Carving a whole page: its first object is the result, the rest are free. *)
Lemma carve_page_ok m fl page sz n :
  holds m fl [] -> 0 < sz -> 0 < page -> (1 <= n)%nat -> Z.of_nat n < U32 ->
  exists m' fl', carve_page m fl page sz 0 n None = Done (m', fl', Some page) /\
    holds m' fl' (reverse (objects page sz 1 (n - 1))) /\
    (forall a, (a ∉ objects page sz 1 (n - 1)) -> m' a = m a).
Proof.
  intros Hh Hs Hp H1 Hlt. destruct n as [|n]; [lia|]. replace (S n - 1)%nat with n by lia.
  cbn [carve_page]. replace (page + 0 * sz) with page by lia. change (0 + 1) with 1.
  destruct (carve_rest n m fl [] page sz 1 page Hh Hs) as (m' & fl' & -> & Hh' & Hout).
  - intros x (j & -> & Hj)%elem_of_objects. split; [nia|apply not_elem_of_nil].
  - simpl. lia.
  - exists m', fl'. rewrite app_nil_r in Hh'. done.
Qed.
