(* ===== verification/SlabInv.v ===== *)
(** * Who owns a slab object

    Each page given to the slab allocator is cut into objects of one size class.
    An object is in at most one free list of one CPU, or is held by one client.
    [owns] says so for lists given as plain lists, [stored] that the linked lists
    in memory are those lists. *)
From S2P Require Import Prelude Addr Heap HeapSys Hardened HardenedSys KernelHeap Slab.

(** The free lists by CPU and size class. *)
Definition lists := Z -> nat -> list Z.

Definition upd_list (ls : lists) (cpu : Z) (c : nat) (l : list Z) : lists :=
  fun cpu' c' => if decide (cpu' = cpu /\ c' = c) then l else ls cpu' c'.

Lemma upd_same ls cpu c l : upd_list ls cpu c l cpu c = l.
Proof. unfold upd_list. by rewrite decide_True. Qed.

Lemma upd_other ls cpu c l cpu' c' : ~ (cpu' = cpu /\ c' = c) -> upd_list ls cpu c l cpu' c' = ls cpu' c'.
Proof. intros Hne. unfold upd_list. by rewrite decide_False. Qed.

(** A page with the class of its objects. *)
Definition pages := list (Z * nat).

Definition object_of (ps : pages) (c : nat) (x : Z) : Prop :=
  exists p, (p, c) ∈ ps /\ p <= x < p + SLAB_PAGE_SIZE /\ (class_size c | x - p).

Record pages_ok (ps : pages) : Prop := {
  pg_pos : forall p c, (p, c) ∈ ps -> 0 < p /\ (SLAB_PAGE_SIZE | p) /\ (c < 8)%nat;
  pg_class : forall p c d, (p, c) ∈ ps -> (p, d) ∈ ps -> c = d
}.

Definition class_of (o : Owned) : option nat := size_class (Z.max (ow_size o) (pow2 (ow_align o))).

Record owns (ps : pages) (live : gmap Z Owned) (ls : lists) : Prop := {
  on_pages : pages_ok ps;
  on_range : forall cpu c x, x ∈ ls cpu c -> 0 <= cpu < SLAB_MAX_CPUS /\ (c < 8)%nat;
  on_obj : forall cpu c x, x ∈ ls cpu c -> object_of ps c x;
  on_nodup : forall cpu c, NoDup (ls cpu c);
  on_once : forall cpu c cpu' c' x, x ∈ ls cpu c -> x ∈ ls cpu' c' -> cpu = cpu' /\ c = c';
  on_max : forall cpu c, Z.of_nat (length (ls cpu c)) <= class_max c;
  on_live : forall k o, live !! k = Some o -> 0 <= ow_size o /\ exists c, class_of o = Some c /\ object_of ps c (ow_ptr o);
  on_apart : forall k1 k2 o1 o2, live !! k1 = Some o1 -> live !! k2 = Some o2 -> ow_ptr o1 = ow_ptr o2 -> k1 = k2;
  on_free : forall k o cpu c, live !! k = Some o -> ow_ptr o ∉ ls cpu c
}.

Lemma class_size_pos c : 0 < class_size c.
Proof. apply pow2_pos. Qed.

(** An object lies in its page. *)
Lemma object_in ps c x : pages_ok ps -> object_of ps c x ->
  exists p, (p, c) ∈ ps /\ p <= x /\ x + class_size c <= p + SLAB_PAGE_SIZE /\ (class_size c | x - p) /\ (c < 8)%nat.
Proof.
  intros Hps (p & Hp & Hx & [q Hq]). destruct (pg_pos _ Hps p c Hp) as (_ & _ & Hc). exists p.
  destruct (class_size_page c Hc) as (_ & Epg & _). pose proof (class_size_pos c).
  split; [done|]. split; [lia|]. split; [|split; [by exists q|done]].
  rewrite Epg in *. assert (q + 1 <= Z.of_nat (per_page c)) by nia. nia.
Qed.

(** Objects that overlap are the same object. *)
Lemma objects_apart ps c d x y a :
  pages_ok ps -> object_of ps c x -> object_of ps d y ->
  x <= a < x + class_size c -> y <= a < y + class_size d -> x = y /\ c = d.
Proof.
  intros Hps Hx Hy Ax Ay. destruct (object_in ps c x Hps Hx) as (p & Hp & Px & Pe & [i Hi] & Hc).
  destruct (object_in ps d y Hps Hy) as (q & Hq & Qy & Qe & [j Hj] & Hd).
  destruct (pg_pos _ Hps p c Hp) as (_ & [u Hu] & _). destruct (pg_pos _ Hps q d Hq) as (_ & [v Hv] & _).
  unfold SLAB_PAGE_SIZE in *. assert (p = q) as <- by lia. assert (c = d) as <- by by eapply pg_class.
  split; [|done]. assert (i = j) as <-; [|lia]. nia.
Qed.

Lemma object_pos ps c x : pages_ok ps -> object_of ps c x -> 0 < x.
Proof. intros Hps (p & Hp & Hx & _). destruct (pg_pos _ Hps p c Hp). lia. Qed.

(** A client's bytes lie in its object. *)
Lemma owned_in_object o c a : class_of o = Some c -> ow_in o a -> ow_ptr o <= a < ow_ptr o + class_size c.
Proof. intros Hc Ha. pose proof (size_class_spec _ _ Hc) as (_ & Hs & _). unfold ow_in in Ha. lia. Qed.

(** Objects are aligned as the layout asks. *)
Lemma object_aligned ps o c : pages_ok ps -> class_of o = Some c -> object_of ps c (ow_ptr o) ->
  (pow2 (ow_align o) | ow_ptr o).
Proof.
  intros Hps Hc Ho. pose proof (size_class_spec _ _ Hc) as (H8 & Hs & _).
  destruct (object_in ps c _ Hps Ho) as (p & Hp & _ & _ & Hd & _). destruct (pg_pos _ Hps p c Hp) as (_ & Hpage & _).
  assert ((pow2 (ow_align o) | class_size c)) as Hal.
  { apply pow2_divide. destruct (decide (ow_align o <= c + 4)%nat); [done|].
    assert (pow2 (c + 4) < pow2 (ow_align o)); [|unfold class_size in Hs; lia].
    unfold pow2. apply Z.pow_lt_mono_r; lia. }
  replace (ow_ptr o) with (ow_ptr o - p + p) by lia. apply Z.divide_add_r.
  - by apply (Z.divide_trans _ (class_size c)).
  - apply (Z.divide_trans _ (class_size c)); [done|]. apply (Z.divide_trans _ SLAB_PAGE_SIZE); [|done].
    change SLAB_PAGE_SIZE with (pow2 12). apply pow2_divide. lia.
Qed.

(** ** Changes of ownership *)

Section Owns.
Context (ps : pages) (live : gmap Z Owned) (ls : lists) (cpu : Z) (c : nat).
Context (Ho : owns ps live ls) (Hcpu : 0 <= cpu < SLAB_MAX_CPUS) (Hc : (c < 8)%nat).

(** A shorter list in place of a list. *)
Lemma owns_shrink l : sublist l (ls cpu c) -> owns ps live (upd_list ls cpu c l).
Proof.
  intros Hsub. assert (forall cpu' c' x, x ∈ upd_list ls cpu c l cpu' c' -> x ∈ ls cpu' c') as Hin.
  { intros cpu' c' x. unfold upd_list. destruct (decide _) as [[-> ->]|]; [|done]. by apply sublist_subseteq. }
  destruct Ho as [P1 P2 P3 P4 P5 P6 P7 P8 P9]. split; try done.
  - intros cpu' c' x Hx. by apply (P2 _ _ x), Hin.
  - intros cpu' c' x Hx. by apply (P3 cpu'), Hin.
  - intros cpu' c'. unfold upd_list. destruct (decide _); [|done]. by eapply sublist_NoDup.
  - intros cpu1 c1 cpu2 c2 x H1 H2. eapply (P5 _ _ _ _ x); by apply Hin.
  - intros cpu' c'. unfold upd_list. destruct (decide _) as [[-> ->]|]; [|done].
    apply sublist_length in Hsub. specialize (P6 cpu c). lia.
  - intros k o cpu' c' Hk Hx. by apply (P9 k o cpu' c' Hk), Hin.
Qed.

(** A client takes the object a list starts with. *)
Lemma owns_take k o x l :
  ls cpu c = x :: l -> live !! k = None -> 0 <= ow_size o -> class_of o = Some c -> ow_ptr o = x ->
  owns ps (<[k := o]> live) (upd_list ls cpu c l).
Proof.
  intros El Hk Hs Hcl Hp. assert (x ∈ ls cpu c) as Hx by (rewrite El; by left).
  destruct (owns_shrink l) as [P1 P2 P3 P4 P5 P6 P7 P8 P9]; [rewrite El; by apply sublist_cons|].
  pose proof (on_nodup _ _ _ Ho cpu c) as Hnd. rewrite El in Hnd. apply NoDup_cons in Hnd as [Hnl _].
  split; try done.
  - intros j y [[<- <-]|[_ Hy]]%lookup_insert_Some; [|by eapply P7]. split; [done|]. exists c.
    split; [done|]. rewrite Hp. by eapply on_obj.
  - intros k1 k2 o1 o2 [[<- <-]|[N1 X1]]%lookup_insert_Some [[<- <-]|[N2 X2]]%lookup_insert_Some E; try done.
    + destruct (on_free _ _ _ Ho k2 o2 cpu c X2). by rewrite <- E, Hp.
    + destruct (on_free _ _ _ Ho k1 o1 cpu c X1). by rewrite E, Hp.
    + by eapply P8.
  - intros j y cpu' c' [[<- <-]|[_ Hy]]%lookup_insert_Some; [|by eapply P9]. rewrite Hp.
    unfold upd_list. destruct (decide _) as [[-> ->]|Hne]; [done|]. intros Hx'. apply Hne.
    by eapply (on_once _ _ _ Ho cpu' c' cpu c x).
Qed.

(** A client gives an object back to a list that has room. *)
Lemma owns_give k o :
  live !! k = Some o -> class_of o = Some c -> Z.of_nat (length (ls cpu c)) < class_max c ->
  owns ps (delete k live) (upd_list ls cpu c (ow_ptr o :: ls cpu c)).
Proof.
  intros Hk Hcl Hroom. destruct (on_live _ _ _ Ho k o Hk) as (_ & c' & Hcl' & Hobj).
  rewrite Hcl in Hcl'. injection Hcl' as <-.
  assert (forall cpu' c' x, x ∈ upd_list ls cpu c (ow_ptr o :: ls cpu c) cpu' c' ->
    x ∈ ls cpu' c' \/ (x = ow_ptr o /\ cpu' = cpu /\ c' = c)) as Hin.
  { intros cpu' c' x. unfold upd_list. destruct (decide _) as [[-> ->]|]; [|by left]. intros [->|?]%elem_of_cons; tauto. }
  destruct Ho as [P1 P2 P3 P4 P5 P6 P7 P8 P9]. split; try done.
  - intros cpu' c' x [Hx|(-> & -> & ->)]%Hin; [by eapply P2|done].
  - intros cpu' c' x [Hx|(-> & -> & ->)]%Hin; [by eapply P3|done].
  - intros cpu' c'. unfold upd_list. destruct (decide _) as [[-> ->]|]; [|done]. apply NoDup_cons. split; [by eapply P9|done].
  - intros cpu1 c1 cpu2 c2 x [H1|(-> & -> & ->)]%Hin [H2|(E & -> & ->)]%Hin.
    + by eapply P5.
    + subst x. by destruct (P9 k o cpu1 c1 Hk).
    + by destruct (P9 k o cpu2 c2 Hk).
    + done.
  - intros cpu' c'. unfold upd_list. destruct (decide _) as [[-> ->]|]; [simpl; lia|done].
  - intros j y [_ Hy]%lookup_delete_Some. by eapply P7.
  - intros k1 k2 o1 o2 [_ X1]%lookup_delete_Some [_ X2]%lookup_delete_Some. by apply P8.
  - intros j y cpu' c' [Hne Hy]%lookup_delete_Some [Hx|(E & _ & _)]%Hin; [by eapply P9|]. by apply Hne, (P8 k j o y).
Qed.

(** A list that is empty gets the objects of a new page. *)
Lemma owns_page p l :
  ls cpu c = [] -> 0 < p -> (SLAB_PAGE_SIZE | p) -> (forall d, (p, d) ∉ ps) ->
  NoDup l -> (forall x, x ∈ l -> p <= x < p + SLAB_PAGE_SIZE /\ (class_size c | x - p)) ->
  Z.of_nat (length l) <= class_max c ->
  owns ((p, c) :: ps) live (upd_list ls cpu c l).
Proof.
  intros El Hp Hal Hnew Hnd Hl Hmax.
  assert (forall d x, object_of ps d x -> ~ (p <= x < p + SLAB_PAGE_SIZE)) as Hold.
  { intros d x (q & Hq & Hx & _) Hx'. destruct (pg_pos _ (on_pages _ _ _ Ho) q d Hq) as (_ & [v Hv] & _).
    destruct Hal as [u Hu]. unfold SLAB_PAGE_SIZE in *. assert (p = q) as <- by lia. by apply (Hnew d). }
  assert (forall d x, object_of ps d x -> object_of ((p, c) :: ps) d x) as Hmono.
  { intros d x (q & Hq & Hx). exists q. split; [by right|done]. }
  assert (forall cpu' c' x, x ∈ upd_list ls cpu c l cpu' c' ->
    (x ∈ ls cpu' c' /\ object_of ps c' x) \/ (x ∈ l /\ cpu' = cpu /\ c' = c)) as Hin.
  { intros cpu' c' x. unfold upd_list. destruct (decide _) as [[-> ->]|]; [by right|].
    intros Hx. left. split; [done|by eapply on_obj]. }
  destruct Ho as [P1 P2 P3 P4 P5 P6 P7 P8 P9]. split; try done.
  - destruct P1 as [G1 G2]. split.
    + intros q d [[= -> ->]|Hq]%elem_of_cons; [done|by apply G1].
    + intros q d1 d2 [[= -> ->]|H1]%elem_of_cons [[= E]|H2]%elem_of_cons; try done; try subst.
      * by destruct (Hnew d2).
      * by destruct (Hnew d1).
      * by eapply G2.
  - intros cpu' c' x [[Hx _]|(_ & -> & ->)]%Hin; [by eapply P2|done].
  - intros cpu' c' x [[_ Hx]|(Hx & -> & ->)]%Hin; [by apply Hmono|]. destruct (Hl x Hx). exists p. split; [by left|done].
  - intros cpu' c'. unfold upd_list. by destruct (decide _).
  - intros cpu1 c1 cpu2 c2 x [[H1 O1]|(H1 & -> & ->)]%Hin [[H2 O2]|(H2 & -> & ->)]%Hin; [by eapply P5|..|done].
    + destruct (Hold _ _ O1). by apply Hl.
    + destruct (Hold _ _ O2). by apply Hl.
  - intros cpu' c'. unfold upd_list. by destruct (decide _) as [[-> ->]|].
  - intros k o Hk. destruct (P7 k o Hk) as (Hs & d & Hd & Hob). split; [done|]. exists d. split; [done|by apply Hmono].
  - intros k o cpu' c' Hk [[Hx _]|(Hx & _ & _)]%Hin; [by eapply P9|].
    destruct (P7 k o Hk) as (_ & d & _ & Hob). destruct (Hold _ _ Hob). by apply Hl.
Qed.
End Owns.

(** ** The lists in memory *)

Record stored (c : Caches) (ls : lists) : Prop := {
  st_cpus : length (cpus c) = 256%nat;
  st_lists : forall i cache, cpus c !! i = Some cache -> length (free_lists cache) = 8%nat;
  st_holds : forall cpu cl cache fl, 0 <= cpu < SLAB_MAX_CPUS -> get_list c cpu cl = Done (cache, fl) ->
    holds (links c) fl (ls cpu cl)
}.

Lemma stored_get c ls cpu cl :
  stored c ls -> 0 <= cpu < SLAB_MAX_CPUS -> (cl < 8)%nat ->
  exists cache fl, get_list c cpu cl = Done (cache, fl) /\ holds (links c) fl (ls cpu cl) /\
    cpus c !! Z.to_nat cpu = Some cache.
Proof.
  intros [S1 S2 S3] Hcpu Hcl. unfold SLAB_MAX_CPUS in Hcpu.
  destruct (lookup_lt_is_Some_2 (cpus c) (Z.to_nat cpu)) as [cache Hc]; [lia|].
  destruct (lookup_lt_is_Some_2 (free_lists cache) cl) as [fl Hf]; [by rewrite (S2 _ _ Hc)|].
  assert (get_list c cpu cl = Done (cache, fl)) as E by (unfold get_list; by rewrite Hc, Hf).
  exists cache, fl. split; [done|]. split; [by eapply S3|done].
Qed.

(** Replacing a list: the links of the others must not change. *)
Lemma stored_set c ls cpu cl cache b fl m l :
  stored c ls -> 0 <= cpu < SLAB_MAX_CPUS -> cpus c !! Z.to_nat cpu = Some cache -> (cl < 8)%nat ->
  holds m fl l ->
  (forall cpu' cl' x, ~ (cpu' = cpu /\ cl' = cl) -> x ∈ ls cpu' cl' -> m x = links c x) ->
  stored (set_list c cpu cl {| free_lists := free_lists cache; initialized := b |} fl m) (upd_list ls cpu cl l).
Proof.
  intros [S1 S2 S3] Hcpu Hc Hcl Hh Hm. pose proof (S2 _ _ Hc) as H8. unfold SLAB_MAX_CPUS in *.
  split; cbn [set_list cpus links free_lists].
  - by rewrite length_insert.
  - intros i k [(<- & <- & _)|[_ Hk]]%list_lookup_insert_Some; simpl; [by rewrite length_insert|by eapply S2].
  - intros cpu' cl' k f Hcpu' Hg. unfold get_list in Hg. cbn [set_list cpus free_lists] in Hg.
    destruct (decide (cpu' = cpu)) as [->|Hne].
    + rewrite list_lookup_insert_eq in Hg by lia. cbn [free_lists] in Hg.
      destruct (decide (cl' = cl)) as [->|Hne].
      * rewrite list_lookup_insert_eq in Hg by lia. injection Hg as <- <-. by rewrite upd_same.
      * rewrite list_lookup_insert_ne in Hg by done. rewrite upd_other by naive_solver.
        destruct (free_lists cache !! cl') as [f'|] eqn:Ef; [|done]. injection Hg as <- <-.
        apply (holds_ext (links c)); [intros x Hx; symmetry; eapply Hm; naive_solver|].
        eapply (S3 cpu cl' cache); [done|]. unfold get_list. by rewrite Hc, Ef.
    + rewrite list_lookup_insert_ne in Hg by lia. rewrite upd_other by naive_solver.
      apply (holds_ext (links c)); [intros x Hx; symmetry; eapply Hm; naive_solver|]. by eapply (S3 cpu' cl').
Qed.

(** ** The fast paths *)

(** The words of live objects are as they were. *)
Definition untouched (live : gmap Z Owned) (c c' : Caches) : Prop :=
  forall k o cl a, live !! k = Some o -> class_of o = Some cl -> ow_ptr o <= a < ow_ptr o + class_size cl ->
    links c' a = links c a.

Definition page_ok (ps : pages) (page : option Z) : Prop :=
  match page with Some p => 0 < p /\ (SLAB_PAGE_SIZE | p) /\ forall d, (p, d) ∉ ps | None => True end.

Lemma owns_delete ps live ls k : owns ps live ls -> owns ps (delete k live) ls.
Proof.
  intros [P1 P2 P3 P4 P5 P6 P7 P8 P9]. split; try done.
  - intros j y [_ Hy]%lookup_delete_Some. by eapply P7.
  - intros k1 k2 o1 o2 [_ X1]%lookup_delete_Some [_ X2]%lookup_delete_Some. by apply P8.
  - intros j y cpu' c' [_ Hy]%lookup_delete_Some. by eapply P9.
Qed.

(** A word at the start of an object that no client holds is in no client's object. *)
Lemma live_word ps live ls k o cl y d a :
  owns ps live ls -> live !! k = Some o -> class_of o = Some cl -> object_of ps d y -> y <> ow_ptr o ->
  ow_ptr o <= a < ow_ptr o + class_size cl -> a <> y.
Proof.
  intros Ho Hk Hcl Hy Hne Ha ->. destruct (on_live _ _ _ Ho k o Hk) as (_ & cl' & Hcl' & Hob).
  rewrite Hcl in Hcl'. injection Hcl' as <-. apply Hne. pose proof (class_size_pos d).
  symmetry. by apply (objects_apart ps cl d _ _ y (on_pages _ _ _ Ho) Hob Hy); [|lia].
Qed.

Lemma on_head ps live ls cpu c k o x : owns ps live ls -> live !! k = Some o -> x ∈ ls cpu c -> x <> ow_ptr o.
Proof. intros Ho Hk Hx ->. by apply (on_free _ _ _ Ho k o cpu c Hk). Qed.

(** The objects of a new page. *)
Lemma page_objects p c x :
  (c < 8)%nat -> x ∈ p :: reverse (objects p (class_size c) 1 (per_page c - 1)) ->
  p <= x < p + SLAB_PAGE_SIZE /\ (class_size c | x - p).
Proof.
  intros Hc Hx. destruct (class_size_page c Hc) as (_ & Epg & H2 & _). pose proof (class_size_pos c).
  assert (exists j, x = p + j * class_size c /\ 0 <= j < Z.of_nat (per_page c)) as (j & -> & Hj).
  { apply elem_of_cons in Hx as [->|Hx]; [exists 0; lia|].
    apply elem_of_reverse, elem_of_objects in Hx as (j & -> & Hj). exists j. split; [done|lia]. }
  split; [rewrite Epg; nia|]. exists j. lia.
Qed.

Lemma page_objects_NoDup p c : NoDup (p :: reverse (objects p (class_size c) 1 (per_page c - 1))).
Proof.
  pose proof (class_size_pos c). apply NoDup_cons. split.
  - rewrite elem_of_reverse, elem_of_objects. intros (j & E & Hj). nia.
  - rewrite reverse_Permutation. by apply objects_NoDup.
Qed.

Lemma upd_upd ls cpu c l1 l2 cpu' c' : upd_list (upd_list ls cpu c l1) cpu c l2 cpu' c' = upd_list ls cpu c l2 cpu' c'.
Proof. unfold upd_list. by destruct (decide _). Qed.

Lemma owns_ext ps live ls1 ls2 : (forall cpu c, ls1 cpu c = ls2 cpu c) -> owns ps live ls1 -> owns ps live ls2.
Proof.
  intros E [P1 P2 P3 P4 P5 P6 P7 P8 P9]. split; intros; rewrite <- ?E in *; eauto.
Qed.

(** The page an allocation on [cpu] takes from the page callback. *)
Definition refill (c : Caches) (cpu page : option Z) (size align : Z) : option (Z * nat) :=
  match size_class (Z.max size align), page with
  | Some cl, Some p =>
      match get_list c (from_option id 0 cpu) cl with
      | Done (_, fl) => if fl_head fl =? 0 then Some (p, cl) else None
      | _ => None
      end
  | _, _ => None
  end.

Definition add_page (new : option (Z * nat)) (ps : pages) : pages :=
  match new with Some x => x :: ps | None => ps end.

(** What the fast path leaves: nothing was handed out, or [x] was. *)
Inductive fast_result (ps : pages) (live : gmap Z Owned) (k size : Z) (n : nat) (c c' : Caches) (ls' : lists)
    (new : option (Z * nat)) : option Z -> Prop :=
| FastNone : owns (add_page new ps) live ls' -> untouched live c c' -> fast_result ps live k size n c c' ls' new None
| FastSome x :
    owns (add_page new ps) (<[k := {| ow_ptr := x; ow_size := size; ow_align := n |}]> live) ls' ->
    untouched live c c' -> fast_result ps live k size n c c' ls' new (Some x).

Lemma slab_alloc_fast_ok ps live ls c k size n cpu page :
  stored c ls -> owns ps live ls -> live !! k = None -> 0 <= size -> 0 <= from_option id 0 cpu < SLAB_MAX_CPUS ->
  page_ok ps page -> Z.max size (pow2 n) <= 2048 ->
  exists c' r ls', slab_alloc_fast c cpu page size (pow2 n) = Done (c', r) /\ stored c' ls' /\
    fast_result ps live k size n c c' ls' (refill c cpu page size (pow2 n)) r.
Proof.
  intros Hst Ho Hk Hs Hcpu Hpg Hsz. destruct (proj1 (size_class_some _) Hsz) as [cl Hcl].
  pose proof (size_class_spec _ _ Hcl) as (H8 & _ & Esz & _).
  unfold slab_alloc_fast, refill. rewrite Hcl. set (i := from_option id 0 cpu) in *.
  rewrite (proj2 (Z.leb_gt SLAB_MAX_CPUS i)) by lia.
  destruct (stored_get c ls i cl Hst Hcpu H8) as (cache & fl & -> & Hh & Hcache). cbn [mbind outcome_bind].
  destruct (ls i cl) as [|x l] eqn:El.
  - rewrite (proj2 (Z.eqb_eq (fl_head fl) 0)) by apply Hh. rewrite (fl_pop_nil _ _ Hh). cbn [mbind outcome_bind]. destruct page as [p|].
    2: { eexists _, _, (upd_list ls i cl []). split; [done|]. split.
         - by apply stored_set.
         - apply FastNone; [|by intros]. apply owns_shrink; try done. by rewrite El. }
    rewrite Esz. cbn [mbind outcome_bind]. destruct Hpg as (Hp0 & Hpal & Hpnew).
    destruct (class_size_page cl H8) as (-> & Epg & H2 & Hmax & H512). pose proof (class_size_pos cl).
    destruct (carve_page_ok (links c) fl p (class_size cl) (per_page cl) Hh) as (m & fl' & -> & Hh' & Hout);
      [done|done|lia|unfold U32; lia|]. cbn [mbind outcome_bind].
    set (l := reverse (objects p (class_size cl) 1 (per_page cl - 1))) in *.
    assert (owns ((p, cl) :: ps) live (upd_list ls i cl (p :: l))) as Ho'.
    { apply owns_page; try done; [apply page_objects_NoDup|intros y Hy; by apply page_objects|].
      unfold l. rewrite length_cons, length_reverse. unfold objects. rewrite length_fmap, length_seqZ. lia. }
    assert (forall y, y ∈ l -> object_of ((p, cl) :: ps) cl y) as Hobj.
    { intros y Hy. apply (on_obj _ _ _ Ho' i). rewrite upd_same. by right. }
    assert (forall a, (a ∉ l) -> m a = links c a) as Hout'.
    { intros a Ha. apply Hout. intros Hin. apply Ha. by apply elem_of_reverse. }
    eexists _, _, (upd_list ls i cl l). split; [done|]. split.
    + apply stored_set; try done. intros cpu' cl' y Hne Hy. apply Hout'. intros Hyl. apply Hne.
      eapply (on_once _ _ _ Ho' cpu' cl' i cl y); [by rewrite upd_other|]. rewrite upd_same. by right.
    + eapply FastSome; [|intros j o d a Hj Hd Ha; apply Hout'; intros Hin].
      * eapply owns_ext; [apply upd_upd|]. eapply (owns_take _ _ _ i cl Ho' H8); try done. apply upd_same.
      * eapply (live_word _ _ _ j o d a cl a Ho' Hj Hd); [by apply Hobj|by eapply on_head; [exact Ho'|exact Hj|rewrite upd_same; by right]|done|done].
  - destruct (fl_pop_cons _ _ _ _ Hh) as (fl' & -> & Hh'). cbn [mbind outcome_bind].
    eexists _, _, (upd_list ls i cl l). split; [done|]. split; [by apply stored_set|].
    assert (fl_head fl <> 0) as Hne by (destruct (ho_chain _ _ _ Hh) as (-> & ? & _); done).
    rewrite (proj2 (Z.eqb_neq _ _) Hne).
    replace (match page with Some _ => None | None => None end) with (@None (Z * nat)) by by destruct page.
    eapply FastSome; [|by intros]. by eapply owns_take.
Qed.

Lemma slab_dealloc_fast_ok ps live ls c k o cpu :
  stored c ls -> owns ps live ls -> live !! k = Some o -> 0 <= from_option id 0 cpu < SLAB_MAX_CPUS ->
  exists c' ls', slab_dealloc_fast c cpu (ow_ptr o) (ow_size o) (pow2 (ow_align o)) = Done c' /\ stored c' ls' /\
    owns ps (delete k live) ls' /\ untouched (delete k live) c c'.
Proof.
  intros Hst Ho Hk Hcpu. destruct (on_live _ _ _ Ho k o Hk) as (Hs & cl & Hcl & Hob).
  pose proof (size_class_spec _ _ Hcl) as (H8 & _ & _ & Emax). unfold class_of in Hcl.
  unfold slab_dealloc_fast. rewrite Hcl. set (i := from_option id 0 cpu) in *.
  rewrite (proj2 (Z.leb_gt SLAB_MAX_CPUS i)) by lia.
  destruct (stored_get c ls i cl Hst Hcpu H8) as (cache & fl & -> & Hh & Hcache). cbn [mbind outcome_bind].
  pose proof (object_pos _ _ _ (on_pages _ _ _ Ho) Hob) as Hpos. pose proof (on_max _ _ _ Ho i cl) as Hlen.
  destruct (class_size_page cl H8) as (_ & _ & H2 & Hmax & H512).
  destruct (fl_push_ok (links c) fl (ls i cl) (ow_ptr o) Hh) as (fl' & -> & Hh');
    [lia|by eapply on_free|unfold U32; lia|]. cbn [mbind outcome_bind]. rewrite Emax. cbn [mbind outcome_bind].
  assert (forall j y d, delete k live !! j = Some y -> class_of y = Some d -> forall a,
    ow_ptr y <= a < ow_ptr y + class_size d -> a <> ow_ptr o) as Hother.
  { intros j y d [Hne Hj]%lookup_delete_Some Hd a Ha. eapply (live_word ps live ls j y d (ow_ptr o) cl a Ho Hj Hd Hob); [|done].
    intros E. apply Hne. by eapply (on_apart _ _ _ Ho k j o y). }
  rewrite (ho_count _ _ _ Hh'). destruct (Z.ltb_spec (class_max cl) (Z.of_nat (length (ow_ptr o :: ls i cl)))) as [Hfull|Hroom].
  - assert (NoDup (ow_ptr o :: ls i cl)) as Hnd by (apply NoDup_cons; split; [by eapply on_free|apply Ho]).
    destruct (drain_half_ok _ _ _ Hh' Hnd) as (m & fl2 & r & -> & Hh2 & Hout & _); [simpl; unfold U32; lia|].
    cbn [mbind outcome_bind]. set (half := (length (ow_ptr o :: ls i cl) / 2)%nat) in *.
    assert (exists h, half = S h) as [h Eh].
    { exists (half - 1)%nat. assert (1 <= half)%nat; [|lia]. apply Nat.div_le_lower_bound; [lia|].
      rewrite length_cons in *. lia. }
    rewrite Eh in Hh2. cbn [drop] in Hh2.
    assert (forall a, a <> ow_ptr o -> (a ∉ ls i cl) -> m a = links c a) as Hsame.
    { intros a Ha1 Ha2. rewrite Hout by (apply not_elem_of_cons; done). by apply set_next_other. }
    eexists _, (upd_list ls i cl (drop h (ls i cl))). split; [done|]. split; [|split].
    + apply stored_set; try done. intros cpu' cl' y Hne Hy. apply Hsame; [by eapply on_head|].
      intros Hin. apply Hne. by eapply (on_once _ _ _ Ho cpu' cl' i cl y).
    + apply owns_delete, owns_shrink; try done. apply sublist_drop.
    + intros j y d a Hj Hd Ha. apply Hsame; [by eapply Hother|]. intros Hin.
      apply lookup_delete_Some in Hj as [Hne Hj].
      eapply (live_word ps live ls j y d a cl a Ho Hj Hd); [by eapply on_obj|by eapply on_head|done|done].
  - eexists _, (upd_list ls i cl (ow_ptr o :: ls i cl)). split; [done|]. split; [|split].
    + apply stored_set; try done. intros cpu' cl' y Hne Hy. apply set_next_other. by eapply on_head.
    + apply owns_give; try done. rewrite length_cons in Hroom. lia.
    + intros j y d a Hj Hd Ha. apply set_next_other. by eapply Hother.
Qed.
