(* ===== verification/SlabSys.v ===== *)
(** * Histories of the kernel's global allocator

    The slab allocator in front of a kernel heap, used by any number of CPUs: the
    heap is initialised and its range recorded, the slabs are enabled at some
    point, and clients allocate, free and write in any order on any CPU.  The
    theorems hold for every heap that satisfies [KernelHeapLaws]. *)
From S2P Require Import Prelude Addr Heap HeapSys Hardened HardenedSys KernelHeap Slab SlabInv.

Inductive sevent :=
| SAlloc (k size : Z) (n : nat) (cpu page : option Z) (reply : option (Z * Z))
| SFree (k : Z) (cpu : option Z)
| SStore (k off v : Z)
| SInit.

Section History.
Context {T : Type} {Ops : KernelHeapOps T} {Laws : KernelHeapLaws T}.

(** The allocator, and as ghosts the allocations that came from the slabs and
    from the heap, the heap's regions and the slabs' pages. *)
Record SState := {
  ss_globals : SlabGlobals;
  ss_caches : Caches;
  ss_fallback : T;
  ss_slab : gmap Z Owned;
  ss_heap : gmap Z Owned;
  ss_regions : list FreeBlock;
  ss_pages : pages
}.

(** The fast path hands out an object. *)
Definition slab_serves (s : SState) (cpu page : option Z) (size align : Z) : bool :=
  (Z.max size align <=? 2048) && SLAB_READY (ss_globals s) &&
  match slab_alloc_fast (ss_caches s) cpu page size align with Done (_, Some _) => true | _ => false end.

Definition slab_tried (s : SState) (size align : Z) : bool :=
  (Z.max size align <=? 2048) && SLAB_READY (ss_globals s).

Definition sstep (s : SState) (e : sevent) : outcome SState :=
  match e with
  | SAlloc k size n cpu page reply =>
      '(c, h, ptr) ← slab_alloc (ss_globals s) (ss_caches s) (ss_fallback s) cpu page (Some (fun _ => reply))
                       size (pow2 n);
      let o := {| ow_ptr := ptr; ow_size := size; ow_align := n |} in
      let served := slab_serves s cpu page size (pow2 n) in
      Done {| ss_globals := ss_globals s; ss_caches := c; ss_fallback := h;
              ss_slab := if served then <[k := o]> (ss_slab s) else ss_slab s;
              ss_heap := if served || (ptr =? 0) then ss_heap s else <[k := o]> (ss_heap s);
              ss_regions := grown (kh_total (ss_fallback s)) (kh_total h) (ss_regions s) reply;
              ss_pages := if slab_tried s size (pow2 n)
                          then add_page (refill (ss_caches s) cpu page size (pow2 n)) (ss_pages s)
                          else ss_pages s |}
  | SFree k cpu =>
      match (match ss_slab s !! k with Some o => Some o | None => ss_heap s !! k end) with
      | None => Done s
      | Some o =>
          '(c, h) ← slab_dealloc (ss_globals s) (ss_caches s) (ss_fallback s) cpu (ow_ptr o) (ow_size o)
                      (pow2 (ow_align o));
          Done {| ss_globals := ss_globals s; ss_caches := c; ss_fallback := h; ss_slab := delete k (ss_slab s);
                  ss_heap := delete k (ss_heap s); ss_regions := ss_regions s; ss_pages := ss_pages s |}
      end
  | SStore k off v =>
      match ss_slab s !! k with
      | None => Done s
      | Some o => Done {| ss_globals := ss_globals s;
                          ss_caches := {| cpus := cpus (ss_caches s);
                                          links := set_next (links (ss_caches s)) (ow_ptr o + off) v |};
                          ss_fallback := ss_fallback s; ss_slab := ss_slab s; ss_heap := ss_heap s;
                          ss_regions := ss_regions s; ss_pages := ss_pages s |}
      end
  | SInit => Done {| ss_globals := slab_init (ss_globals s); ss_caches := ss_caches s;
                     ss_fallback := ss_fallback s; ss_slab := ss_slab s; ss_heap := ss_heap s;
                     ss_regions := ss_regions s; ss_pages := ss_pages s |}
  end.

Fixpoint srun (s : SState) (es : list sevent) : outcome SState :=
  match es with
  | [] => Done s
  | e :: es => s ← sstep s e; srun s es
  end.

(** Initialisation at boot: the static heap, and its range. *)
Definition sstart (h : T) (m : store) (start size : Z) : outcome SState :=
  h ← kh_init h start size;
  g ← set_heap_range {| SLAB_READY := false; HEAP_START := 0; HEAP_END := 0 |} start size;
  Done {| ss_globals := g; ss_caches := {| cpus := CPU_CACHES; links := m |}; ss_fallback := h;
          ss_slab := ∅; ss_heap := ∅; ss_regions := [Free start size]; ss_pages := [] |}.

(** ** What clients and callbacks respect *)

Definition cpu_ok (cpu : option Z) : bool := (0 <=? from_option id 0 cpu) && (from_option id 0 cpu <? SLAB_MAX_CPUS).

(** A page of its own: aligned, and apart from the heap's memory and the pages. *)
Definition page_fits (s : SState) (reply : option (Z * Z)) (page : option Z) : bool :=
  match page with
  | None => true
  | Some p =>
      (0 <? p) && (p mod SLAB_PAGE_SIZE =? 0) &&
      regions_apart (Free p SLAB_PAGE_SIZE)
        (Free (HEAP_START (ss_globals s)) (HEAP_END (ss_globals s) - HEAP_START (ss_globals s))) &&
      forallb (regions_apart (Free p SLAB_PAGE_SIZE)) (ss_regions s) &&
      forallb (fun '(q, _) => negb (p =? q)) (ss_pages s) &&
      match reply with Some (a, r) => regions_apart (Free p SLAB_PAGE_SIZE) (Free a r) | None => true end
  end.

(** A region the heap grows by is apart from the pages. *)
Definition growth_apart (s : SState) (reply : option (Z * Z)) : bool :=
  match reply with
  | Some (a, r) => forallb (fun '(q, _) => regions_apart (Free q SLAB_PAGE_SIZE) (Free a r)) (ss_pages s)
  | None => true
  end.

(** A small request that the heap serves gets memory of the static heap: this is
    how [slab_dealloc] recognises it when it is freed. *)
Definition small_static (s : SState) (e : sevent) : bool :=
  match e with
  | SAlloc k size n cpu page reply =>
      match slab_alloc (ss_globals s) (ss_caches s) (ss_fallback s) cpu page (Some (fun _ => reply)) size (pow2 n) with
      | Done (_, _, ptr) =>
          (2048 <? Z.max size (pow2 n)) || slab_serves s cpu page size (pow2 n) || (ptr =? 0) ||
          ((HEAP_START (ss_globals s) <=? ptr) && (ptr <? HEAP_END (ss_globals s)))
      | _ => true
      end
  | _ => true
  end.

Definition spermitted (top : Z) (s : SState) (e : sevent) : bool :=
  match e with
  | SAlloc k size n cpu page reply =>
      bool_decide (ss_slab s !! k = None) && bool_decide (ss_heap s !! k = None) && layout_fits top size n &&
      kh_room (ss_fallback s) && growth_ok top (kh_total (ss_fallback s)) (ss_regions s) reply && cpu_ok cpu &&
      page_fits s reply page && growth_apart s reply && small_static s e
  | SFree k cpu => cpu_ok cpu
  | SStore k off v => match ss_slab s !! k with Some o => (0 <=? off) && (off <? ow_size o) | None => true end
  | SInit => true
  end.

Fixpoint spermitted_run (top : Z) (s : SState) (es : list sevent) : bool :=
  match es with
  | [] => true
  | e :: es => spermitted top s e && match sstep s e with Done s => spermitted_run top s es | _ => true end
  end.

(** ** The invariant *)

Record sinv (top : Z) (s : SState) : Prop := {
  si_lists : exists ls, stored (ss_caches s) ls /\ owns (ss_pages s) (ss_slab s) ls;
  si_heap : kh_inv top (ss_fallback s) (ss_heap s) (ss_regions s);
  si_names : forall k o, ss_slab s !! k = Some o -> ss_heap s !! k = None;
  si_apart : forall p c a, (p, c) ∈ ss_pages s -> p <= a < p + SLAB_PAGE_SIZE -> ~ free_at (ss_regions s) a;
  si_outside : forall p c, (p, c) ∈ ss_pages s ->
    p + SLAB_PAGE_SIZE <= HEAP_START (ss_globals s) \/ HEAP_END (ss_globals s) <= p;
  si_start : 0 < HEAP_START (ss_globals s);
  si_ready : forall k o, ss_slab s !! k = Some o -> SLAB_READY (ss_globals s) = true;
  si_static : forall k o, ss_heap s !! k = Some o -> Z.max (ow_size o) (pow2 (ow_align o)) <= 2048 ->
    HEAP_START (ss_globals s) <= ow_ptr o < HEAP_END (ss_globals s)
}.

Lemma regions_apart_spec b c : 0 < fb_size b -> regions_apart b c = true ->
  forall a, inside b a -> ~ inside c a.
Proof. unfold regions_apart, inside. intros Hb Hap a Ha Hc. lia. Qed.

Lemma apart_regions b l : 0 < fb_size b -> forallb (regions_apart b) l = true -> forall a, inside b a -> ~ free_at l a.
Proof.
  intros Hb Hl a Ha (c & Hc & Hin)%Exists_exists. rewrite forallb_forall in Hl.
  eapply (regions_apart_spec b c); try done. by apply Hl, list_elem_of_In.
Qed.

(** The page callback's answer is new to the slabs. *)
Lemma page_fits_ok s reply page : page_fits s reply page = true -> page_ok (ss_pages s) page.
Proof.
  destruct page as [p|]; [|done]. cbn [page_fits page_ok]. rewrite !andb_true_iff.
  intros [[[[[H1 H2] _] _] H5] _]. split; [lia|]. split; [apply Z.mod_divide; unfold SLAB_PAGE_SIZE in *; lia|].
  intros d Hd. rewrite forallb_forall in H5. specialize (H5 (p, d) (proj1 (list_elem_of_In _ _) Hd)). cbn in H5. lia.
Qed.

(** The pages stay apart from the regions when both grow. *)
Lemma pages_apart s reply page new total total' c cpu size align :
  (forall p d a, (p, d) ∈ ss_pages s -> p <= a < p + SLAB_PAGE_SIZE -> ~ free_at (ss_regions s) a) ->
  page_fits s reply page = true -> growth_apart s reply = true ->
  (new = None \/ new = refill c cpu page size align) ->
  forall p d a, (p, d) ∈ add_page new (ss_pages s) -> p <= a < p + SLAB_PAGE_SIZE ->
    ~ free_at (grown total total' (ss_regions s) reply) a.
Proof.
  intros Hold Hpage Hgrow Hnew p d a Hp Ha Hf.
  assert (free_at (ss_regions s) a \/ exists x r, reply = Some (x, r) /\ inside (Free x r) a) as Hcase.
  { unfold grown in Hf. destruct reply as [[x r]|]; [|by left]. destruct (total' =? total); [by left|].
    apply Exists_cons in Hf as [Hf|Hf]; [right; by exists x, r|by left]. }
  assert ((p, d) ∈ ss_pages s \/ page = Some p) as [Hin| ->].
  { destruct new as [q|]; [|by left]. apply elem_of_cons in Hp as [<-|Hp]; [right|by left].
    destruct Hnew as [[=]|Hnew]. unfold refill in Hnew. repeat (case_match; try discriminate). by injection Hnew as -> ->. }
  - destruct Hcase as [Hr|(x & r & -> & Hx)]; [by eapply Hold|].
    cbn [growth_apart] in Hgrow. rewrite forallb_forall in Hgrow.
    specialize (Hgrow (p, d) (proj1 (list_elem_of_In _ _) Hin)). cbn in Hgrow.
    by eapply (regions_apart_spec (Free p SLAB_PAGE_SIZE) (Free x r)).
  - cbn [page_fits] in Hpage. rewrite !andb_true_iff in Hpage. destruct Hpage as [[[[[H1 H2] H3] H4] _] H6].
    destruct Hcase as [Hr|(x & r & -> & Hx)].
    + by eapply (apart_regions (Free p SLAB_PAGE_SIZE)).
    + by eapply (regions_apart_spec (Free p SLAB_PAGE_SIZE) (Free x r)).
Qed.

Lemma pages_outside s reply page new c cpu size align :
  (forall p d, (p, d) ∈ ss_pages s ->
    p + SLAB_PAGE_SIZE <= HEAP_START (ss_globals s) \/ HEAP_END (ss_globals s) <= p) ->
  page_fits s reply page = true -> (new = None \/ new = refill c cpu page size align) ->
  forall p d, (p, d) ∈ add_page new (ss_pages s) ->
    p + SLAB_PAGE_SIZE <= HEAP_START (ss_globals s) \/ HEAP_END (ss_globals s) <= p.
Proof.
  intros Hold Hpage Hnew p d Hp. destruct new as [q|]; [|by eapply Hold].
  apply elem_of_cons in Hp as [<-|Hp]; [|by eapply Hold]. destruct Hnew as [[=]|Hnew].
  unfold refill in Hnew. repeat (case_match; try discriminate). injection Hnew as -> ->.
  cbn [page_fits] in Hpage. rewrite !andb_true_iff in Hpage. destruct Hpage as [[[[[_ _] Hap] _] _] _].
  unfold regions_apart in Hap. cbn [fb_start fb_size] in Hap. lia.
Qed.

(** ** Steps *)

(** A request that reaches the heap. *)
Lemma fallback_ok top s k size n cpu page reply c' ls' new :
  sinv top s -> spermitted top s (SAlloc k size n cpu page reply) = true ->
  stored c' ls' -> owns (add_page new (ss_pages s)) (ss_slab s) ls' ->
  (new = None \/ new = refill (ss_caches s) cpu page size (pow2 n)) ->
  slab_serves s cpu page size (pow2 n) = false ->
  slab_alloc (ss_globals s) (ss_caches s) (ss_fallback s) cpu page (Some (fun _ => reply)) size (pow2 n) =
    ('(h, ptr) ← kh_alloc (ss_fallback s) (Some (fun _ => reply)) size (pow2 n); Done (c', h, ptr)) ->
  exists h ptr,
    slab_alloc (ss_globals s) (ss_caches s) (ss_fallback s) cpu page (Some (fun _ => reply)) size (pow2 n) =
      Done (c', h, ptr) /\
    sinv top {| ss_globals := ss_globals s; ss_caches := c'; ss_fallback := h; ss_slab := ss_slab s;
      ss_heap := if ptr =? 0 then ss_heap s
                 else <[k := {| ow_ptr := ptr; ow_size := size; ow_align := n |}]> (ss_heap s);
      ss_regions := grown (kh_total (ss_fallback s)) (kh_total h) (ss_regions s) reply;
      ss_pages := add_page new (ss_pages s) |}.
Proof.
  intros Hi Hp Hst Ho Hnew Hserve Ered. cbn [spermitted] in Hp. rewrite !andb_true_iff in Hp.
  destruct Hp as ((((((((Hk1 & Hk2) & Hlay) & Hroom) & Hgrow) & Hcpu) & Hpage) & Hgap) & Hsmall).
  apply bool_decide_eq_true in Hk1, Hk2.
  destruct (kh_alloc_ok top _ _ _ k size n reply (si_heap _ _ Hi) Hk2 Hlay Hroom Hgrow) as (h & ptr & E & Hi').
  cbn [small_static] in Hsmall. rewrite Ered in Hsmall |- *. rewrite E in Hsmall |- *.
  cbn [mbind outcome_bind] in Hsmall |- *. exists h, ptr. split; [done|].
  split; cbn [ss_globals ss_caches ss_fallback ss_slab ss_heap ss_regions ss_pages].
  - by exists ls'.
  - exact Hi'.
  - intros j y Hj. pose proof (si_names _ _ Hi j y Hj). destruct (ptr =? 0); [done|].
    rewrite lookup_insert_ne; [done|congruence].
  - eapply pages_apart; [apply Hi|done|done|done].
  - eapply pages_outside; [apply Hi|done|done].
  - apply Hi.
  - apply Hi.
  - intros j y Hj Hsz. destruct (Z.eqb_spec ptr 0); [by eapply (si_static _ _ Hi)|].
    apply lookup_insert_Some in Hj as [[<- <-]|[_ Hj]]; [|by eapply (si_static _ _ Hi)].
    cbn [ow_ptr ow_size ow_align] in *. rewrite Hserve in Hsmall. lia.
Qed.

Lemma salloc_ok top s k size n cpu page reply :
  sinv top s -> spermitted top s (SAlloc k size n cpu page reply) = true ->
  exists s', sstep s (SAlloc k size n cpu page reply) = Done s' /\ sinv top s' /\
    untouched (ss_slab s) (ss_caches s) (ss_caches s').
Proof.
  intros Hi Hp. destruct (si_lists _ _ Hi) as (ls & Hst & Ho). pose proof Hp as Hp'.
  cbn [spermitted] in Hp'. rewrite !andb_true_iff in Hp'.
  destruct Hp' as ((((((((Hk1 & Hk2) & Hlay) & Hroom) & Hgrow) & Hcpu) & Hpage) & Hgap) & Hsmall).
  apply bool_decide_eq_true in Hk1, Hk2.
  unfold layout_fits in Hlay. rewrite !andb_true_iff in Hlay. destruct Hlay as [[H0%Z.leb_le _] _].
  unfold cpu_ok in Hcpu. cbn [sstep].
  destruct (slab_tried s size (pow2 n)) eqn:Et; [|].
  - assert (Z.max size (pow2 n) <= 2048) as Hsz by (unfold slab_tried in Et; lia).
    destruct (slab_alloc_fast_ok (ss_pages s) (ss_slab s) ls (ss_caches s) k size n cpu page Hst Ho Hk1 H0)
      as (c' & r & ls' & E & Hst' & Hr); [lia|by eapply page_fits_ok|done|].
    assert (slab_alloc (ss_globals s) (ss_caches s) (ss_fallback s) cpu page (Some (fun _ => reply))
      size (pow2 n) = match r with
        | Some ptr => Done (c', ss_fallback s, ptr)
        | None => '(h, ptr) ← kh_alloc (ss_fallback s) (Some (fun _ => reply)) size (pow2 n); Done (c', h, ptr) end)
      as Ered.
    { unfold slab_alloc. unfold slab_tried in Et. rewrite Et, E. by destruct r. }
    destruct Hr as [Ho' Hun|x Ho' Hun].
    + assert (slab_serves s cpu page size (pow2 n) = false) as Hs.
      { unfold slab_serves. unfold slab_tried in Et. by rewrite Et, E. }
      destruct (fallback_ok top s k size n cpu page reply c' ls' _ Hi Hp Hst' Ho' (or_intror eq_refl) Hs Ered)
        as (h & ptr & Ea & Hi'). rewrite Ea. cbn [mbind outcome_bind]. rewrite Hs. eexists. split; [done|]. done.
    + assert (slab_serves s cpu page size (pow2 n) = true) as Hs.
      { unfold slab_serves. unfold slab_tried in Et. by rewrite Et, E. }
      rewrite Ered. cbn [mbind outcome_bind]. rewrite Hs. cbn [orb]. eexists. split; [done|]. split; [|done].
      assert (grown (kh_total (ss_fallback s)) (kh_total (ss_fallback s)) (ss_regions s) reply = ss_regions s) as Eg.
      { unfold grown. destruct reply as [[a r]|]; [by rewrite Z.eqb_refl|done]. }
      split; cbn [ss_globals ss_caches ss_fallback ss_slab ss_heap ss_regions ss_pages].
      * by exists ls'.
      * rewrite Eg. apply Hi.
      * intros j y [[<- <-]|[_ Hj]]%lookup_insert_Some; [done|by eapply (si_names _ _ Hi)].
      * eapply pages_apart; [apply Hi|done|done|by right].
      * eapply pages_outside; [apply Hi|done|by right].
      * apply Hi.
      * intros j y _. by apply andb_true_iff in Et as [_ ?].
      * apply Hi.
  - assert (slab_serves s cpu page size (pow2 n) = false) as Hs.
    { unfold slab_serves. unfold slab_tried in Et. by rewrite Et. }
    destruct (fallback_ok top s k size n cpu page reply (ss_caches s) ls None Hi Hp Hst Ho (or_introl eq_refl) Hs)
      as (h & ptr & Ea & Hi').
    { unfold slab_alloc. unfold slab_tried in Et. by rewrite Et. }
    rewrite Ea. cbn [mbind outcome_bind]. rewrite Hs. eexists. split; [done|]. split; [done|]. by intros ?.
Qed.

(** The allocator tells slab objects and heap blocks apart. *)
Lemma slab_pointer top s k o :
  sinv top s -> ss_slab s !! k = Some o ->
  (Z.max (ow_size o) (pow2 (ow_align o)) <=? 2048) && SLAB_READY (ss_globals s) &&
    is_slab_pointer (ss_globals s) (ow_ptr o) = true.
Proof.
  intros Hi Hk. destruct (si_lists _ _ Hi) as (ls & _ & Ho). destruct (on_live _ _ _ Ho k o Hk) as (_ & cl & Hcl & Hob).
  rewrite (si_ready _ _ Hi k o Hk), andb_true_r. apply andb_true_iff. split.
  - apply Z.leb_le. apply size_class_some. by exists cl.
  - unfold is_slab_pointer. pose proof (si_start _ _ Hi) as Hs. rewrite (proj2 (Z.eqb_neq _ _)) by lia.
    destruct Hob as (p & Hp & Hx & _). destruct (si_outside _ _ Hi p cl Hp); lia.
Qed.

Lemma heap_pointer top s k o :
  sinv top s -> ss_heap s !! k = Some o ->
  (Z.max (ow_size o) (pow2 (ow_align o)) <=? 2048) && SLAB_READY (ss_globals s) &&
    is_slab_pointer (ss_globals s) (ow_ptr o) = false.
Proof.
  intros Hi Hk. destruct (Z.leb_spec (Z.max (ow_size o) (pow2 (ow_align o))) 2048) as [Hsz|]; [|done].
  pose proof (si_static _ _ Hi k o Hk Hsz) as Hr. pose proof (si_start _ _ Hi).
  destruct (SLAB_READY (ss_globals s)); [|done]. cbn [andb]. unfold is_slab_pointer.
  rewrite (proj2 (Z.eqb_neq _ _)) by lia. lia.
Qed.

Lemma sfree_ok top s k cpu :
  sinv top s -> cpu_ok cpu = true ->
  exists s', sstep s (SFree k cpu) = Done s' /\ sinv top s' /\
    untouched (delete k (ss_slab s)) (ss_caches s) (ss_caches s').
Proof.
  intros Hi Hcpu. destruct (si_lists _ _ Hi) as (ls & Hst & Ho). unfold cpu_ok in Hcpu. cbn [sstep].
  destruct (ss_slab s !! k) as [o|] eqn:Hk.
  - destruct (slab_dealloc_fast_ok _ _ _ _ k o cpu Hst Ho Hk) as (c' & ls' & E & Hst' & Ho' & Hun); [lia|].
    unfold slab_dealloc. rewrite (slab_pointer top s k o Hi Hk), E. cbn [mbind outcome_bind].
    eexists. split; [done|]. split; [|done]. pose proof (si_names _ _ Hi k o Hk) as Hn.
    split; cbn [ss_globals ss_caches ss_fallback ss_slab ss_heap ss_regions ss_pages]; try apply Hi.
    + by exists ls'.
    + rewrite (delete_id _ _ Hn). apply Hi.
    + intros j y [_ Hj]%lookup_delete_Some. rewrite (delete_id _ _ Hn). by eapply (si_names _ _ Hi).
    + intros j y [_ Hj]%lookup_delete_Some. by eapply (si_ready _ _ Hi).
    + intros j y [_ Hj]%lookup_delete_Some. by eapply (si_static _ _ Hi).
  - destruct (ss_heap s !! k) as [o|] eqn:Hh; [|by exists s].
    destruct (kh_dealloc_ok top _ _ _ k o (si_heap _ _ Hi) Hh) as (h & E & Hi').
    unfold slab_dealloc. rewrite (heap_pointer top s k o Hi Hh), E. cbn [mbind outcome_bind].
    eexists. split; [done|]. split; [|by intros ?]. rewrite (delete_id _ _ Hk).
    split; cbn [ss_globals ss_caches ss_fallback ss_slab ss_heap ss_regions ss_pages]; try apply Hi.
    + exact Hi'.
    + intros j y Hj. rewrite lookup_delete_None. right. by eapply (si_names _ _ Hi).
    + intros j y [_ Hj]%lookup_delete_Some. by eapply (si_static _ _ Hi).
Qed.

Lemma sstore_ok top s k off v :
  sinv top s -> spermitted top s (SStore k off v) = true ->
  exists s', sstep s (SStore k off v) = Done s' /\ sinv top s'.
Proof.
  intros Hi Hp. cbn [sstep spermitted] in *. destruct (ss_slab s !! k) as [o|] eqn:Hk; [|by exists s].
  destruct (si_lists _ _ Hi) as (ls & Hst & Ho). destruct (on_live _ _ _ Ho k o Hk) as (_ & cl & Hcl & Hob).
  eexists. split; [done|]. split; cbn [ss_globals ss_caches ss_fallback ss_slab ss_heap ss_regions ss_pages];
    try apply Hi.
  exists ls. split; [|done]. destruct Hst as [S1 S2 S3]. split; cbn [cpus links]; try done.
  intros cpu c cache fl Hcpu Hg. apply (holds_ext (links (ss_caches s))); [|by eapply S3].
  intros x Hx. symmetry. apply set_next_other. apply not_eq_sym.
  eapply (live_word _ _ _ k o cl x c _ Ho Hk Hcl); [by eapply on_obj|by eapply on_head|].
  apply owned_in_object; [done|]. unfold ow_in. lia.
Qed.

Lemma sstep_ok top s e :
  sinv top s -> spermitted top s e = true -> exists s', sstep s e = Done s' /\ sinv top s'.
Proof.
  intros Hi Hp. destruct e as [k size n cpu page reply|k cpu|k off v|].
  - destruct (salloc_ok top s k size n cpu page reply Hi Hp) as (s' & E & Hi' & _). eauto.
  - destruct (sfree_ok top s k cpu Hi Hp) as (s' & E & Hi' & _). eauto.
  - by apply sstore_ok.
  - eexists. split; [done|]. split; cbn [ss_globals ss_caches ss_fallback ss_slab ss_heap ss_regions ss_pages slab_init
      HEAP_START HEAP_END SLAB_READY]; try apply Hi. done.
Qed.

Lemma srun_ok top es : forall s,
  sinv top s -> spermitted_run top s es = true -> exists s', srun s es = Done s' /\ sinv top s'.
Proof.
  induction es as [|e es IH]; intros s Hi Hp; cbn [srun spermitted_run] in *; [eauto|].
  apply andb_true_iff in Hp as [He Hes]. destruct (sstep_ok top s e Hi He) as (s' & E & Hi').
  rewrite E in *. cbn [mbind outcome_bind]. by apply IH.
Qed.

(** Objects of different clients do not overlap. *)
Lemma slab_apart ps live ls k1 k2 o1 o2 a :
  owns ps live ls -> live !! k1 = Some o1 -> live !! k2 = Some o2 -> ow_in o1 a -> ow_in o2 a -> k1 = k2.
Proof.
  intros Ho K1 K2 A1 A2. destruct (on_live _ _ _ Ho k1 o1 K1) as (_ & c1 & C1 & O1).
  destruct (on_live _ _ _ Ho k2 o2 K2) as (_ & c2 & C2 & O2). eapply (on_apart _ _ _ Ho); [done|done|].
  by apply (objects_apart ps c1 c2 _ _ a (on_pages _ _ _ Ho) O1 O2); apply owned_in_object.
Qed.

(** Nor do an object and a block of the heap. *)
Lemma slab_heap_apart top s k1 k2 o1 o2 a :
  sinv top s -> ss_slab s !! k1 = Some o1 -> ss_heap s !! k2 = Some o2 -> ow_in o1 a -> ~ ow_in o2 a.
Proof.
  intros Hi K1 K2 A1 A2. destruct (si_lists _ _ Hi) as (ls & _ & Ho).
  destruct (on_live _ _ _ Ho k1 o1 K1) as (_ & c1 & C1 & O1). apply (owned_in_object _ _ _ C1) in A1.
  destruct (object_in _ _ _ (on_pages _ _ _ Ho) O1) as (p & Hp & Px & Pe & _).
  apply (si_apart _ _ Hi p c1 a Hp); [lia|]. by eapply (kh_within top); [apply Hi|..].
Qed.

Lemma empty_stored m : stored {| cpus := CPU_CACHES; links := m |} (fun _ _ => []).
Proof.
  assert (forall i cache, CPU_CACHES !! i = Some cache -> cache = cache_empty) as Hall.
  { intros i cache Hi. by apply lookup_replicate in Hi as [-> _]. }
  split; cbn [cpus links].
  - apply length_replicate.
  - intros i cache ->%Hall. done.
  - intros cpu cl cache fl _ Hg. unfold get_list in Hg. cbn [cpus] in Hg.
    destruct (CPU_CACHES !! Z.to_nat cpu) as [k|] eqn:Hk; [|done]. apply Hall in Hk as ->.
    destruct (free_lists cache_empty !! cl) as [f|] eqn:Hf; [|done]. injection Hg as <- <-.
    assert (f = freelist_empty) as ->; [|done].
    cbn [cache_empty free_lists] in Hf. do 8 (destruct cl as [|cl]; [by injection Hf as <-|]). done.
Qed.

Lemma empty_owns : owns [] ∅ (fun _ _ => []).
Proof.
  split; try (intros *; rewrite ?lookup_empty; set_solver).
  - split; set_solver.
  - intros cpu c. apply NoDup_nil_2.
  - intros cpu c. pose proof (pow2_pos (9 - c)). unfold class_max. simpl. lia.
Qed.

Lemma sstart_ok top h m start size :
  kh_fresh h -> region_ok top (Free start size) = true -> top + 8 < U64 ->
  exists s, sstart h m start size = Done s /\ sinv top s.
Proof.
  intros Hf Hr Ht. destruct (kh_init_ok top h start size Hf Hr Ht) as (h' & E & Hi).
  assert (0 < start /\ start + size < U64) as [Hs He].
  { unfold region_ok, block_ok_b in Hr. cbn [fb_start fb_size] in Hr. lia. }
  unfold sstart, set_heap_range. rewrite E. cbn [mbind outcome_bind]. rewrite add64_ok by done. cbn [mbind outcome_bind].
  eexists. split; [done|].
  split; cbn [ss_globals ss_caches ss_fallback ss_slab ss_heap ss_regions ss_pages HEAP_START]; try done.
  - exists (fun _ _ => []). split; [apply empty_stored|apply empty_owns].
  - intros p c a Hp. by apply not_elem_of_nil in Hp.
  - intros p c Hp. by apply not_elem_of_nil in Hp.
Qed.
End History.

(** ** Properties *)

(** The allocation [o], from the slabs or from the heap. *)
Definition allocated {T} (s : @SState T) (k : Z) (o : Owned) : Prop := ss_slab s !! k = Some o \/ ss_heap s !! k = Some o.

(** An allocation from the heap before the slabs are enabled; then small ones on
    two CPUs, one of them freed on the other CPU and its object used again there. *)
Definition example_slab : list sevent :=
  [SAlloc 1 100 3 None None None; SInit; SAlloc 2 24 3 (Some 0) (Some 0x200000) None;
   SAlloc 3 30 4 (Some 1) (Some 0x300000) None; SStore 2 8 77; SFree 2 (Some 1);
   SAlloc 4 32 0 (Some 1) (Some 0x400000) None; SAlloc 5 5000 3 (Some 1) None (Some (0x800000, 65536)); SFree 1 None].

Definition hardened_boot : hardened_heap := (hardened_empty, zeroed).

(** C3.  The global allocator is safe on any number of CPUs.  Whatever is allocated
    and freed on whichever CPU, with pages and heap regions that do not overlap,
    and small requests that reach the heap served from the static heap: no
    operation panics, no live allocation is null, slab objects are aligned as the
    layout asks, no byte belongs to two live allocations, and no CPU caches more
    objects of a class than its limit. *)
Theorem slab_safe {T} `{KernelHeapLaws T} top h m start size es s0 :
  kh_fresh h -> region_ok top (Free start size) = true -> top + 8 < U64 ->
  sstart h m start size = Done s0 -> spermitted_run top s0 es = true ->
  exists s, srun s0 es = Done s /\
    (forall k o, allocated s k o -> 0 < ow_ptr o) /\
    (forall k o, ss_slab s !! k = Some o -> (pow2 (ow_align o) | ow_ptr o)) /\
    (forall k1 k2 o1 o2 a, allocated s k1 o1 -> allocated s k2 o2 -> ow_in o1 a -> ow_in o2 a -> k1 = k2) /\
    (forall cpu c cache fl, 0 <= cpu < SLAB_MAX_CPUS -> get_list (ss_caches s) cpu c = Done (cache, fl) ->
       0 <= fl_count fl <= class_max c).
Proof.
  intros Hf Hr Ht E0 Hp. destruct (sstart_ok top h m start size Hf Hr Ht) as (s1 & E1 & Hi0).
  rewrite E0 in E1. injection E1 as <-. destruct (srun_ok top es s0 Hi0 Hp) as (s & E & Hi).
  exists s. split; [done|]. destruct (si_lists _ _ Hi) as (ls & Hst & Ho). split_and!.
  - intros k o [Hk|Hk]; [|by eapply kh_pos; [apply Hi|]].
    destruct (on_live _ _ _ Ho k o Hk) as (_ & cl & _ & Hob). by eapply object_pos; [apply Ho|].
  - intros k o Hk. destruct (on_live _ _ _ Ho k o Hk) as (_ & cl & Hcl & Hob). by eapply object_aligned; [apply Ho|..].
  - intros k1 k2 o1 o2 a [K1|K1] [K2|K2] A1 A2.
    + by eapply slab_apart.
    + by destruct (slab_heap_apart top s k1 k2 o1 o2 a).
    + by destruct (slab_heap_apart top s k2 k1 o2 o1 a).
    + by eapply (kh_apart top _ _ _ k1 k2); [apply Hi|..].
  - intros cpu c cache fl Hcpu Hg. rewrite (ho_count _ _ _ (st_holds _ _ Hst _ _ _ _ Hcpu Hg)).
    pose proof (on_max _ _ _ Ho cpu c). lia.
Qed.

Lemma slab_safe_witness :
  exists s0 s, sstart hardened_boot (fun _ => 0) 0x100000 16384 = Done s0 /\ srun s0 example_slab = Done s /\
    forall k o, allocated s k o -> 0 < ow_ptr o.
Proof.
  assert (kh_fresh hardened_boot) as Hf by (split; [reflexivity|exact zeroed_ok]).
  eexists.
  destruct (slab_safe example_top hardened_boot (fun _ => 0) 0x100000 16384 example_slab _
    Hf eq_refl eq_refl eq_refl ltac:(vm_compute; reflexivity)) as (s & E & Hpos & _).
  exists s. split; [reflexivity|]. split; [exact E|exact Hpos].
Defined.

(** The states a permitted history reaches. *)
Definition sreaches {T} `{KernelHeapLaws T} (top : Z) (h : T) (m : store) (start size : Z) (es : list sevent)
    (s : SState) : Prop :=
  exists s0, sstart h m start size = Done s0 /\ spermitted_run top s0 es = true /\ srun s0 es = Done s.

Lemma sreaches_inv {T} `{KernelHeapLaws T} top h m start size es s :
  kh_fresh h -> region_ok top (Free start size) = true -> top + 8 < U64 ->
  sreaches top h m start size es s -> sinv top s.
Proof.
  intros Hf Hr Ht (s0 & E0 & Hp & E). destruct (sstart_ok top h m start size Hf Hr Ht) as (s1 & E1 & Hi).
  rewrite E0 in E1. injection E1 as <-. destruct (srun_ok top es s0 Hi Hp) as (s' & E' & Hi').
  rewrite E in E'. by injection E' as <-.
Qed.


Definition sfinal {T} `{KernelHeapLaws T} (h : T) (m : store) (start size : Z) (es : list sevent) : outcome SState :=
  s ← sstart h m start size; srun s es.

Definition spermitted_from {T} `{KernelHeapLaws T} (top : Z) (h : T) (m : store) (start size : Z) (es : list sevent) :
    bool :=
  match sstart h m start size with Done s => spermitted_run top s es | _ => false end.

Lemma sfinal_reaches {T} `{KernelHeapLaws T} top (h : T) m start size es s :
  spermitted_from top h m start size es = true -> sfinal h m start size es = Done s -> sreaches top h m start size es s.
Proof.
  unfold spermitted_from, sfinal, sreaches. destruct (sstart h m start size) as [s0| |]; try done.
  cbn [mbind outcome_bind]. intros Hp E. by exists s0.
Qed.


(** ** Where the allocator loses memory *)

(** Five objects of 2048 bytes take three pages.  When all are freed on one CPU the
    limit of four is passed once, and the two objects drained then are in no list
    any more, although nothing is live: four of the six objects are left. *)
Definition leak_history : list sevent :=
  [SInit] ++ ((fun i => SAlloc i 2048 0 (Some 0) (Some (0x200000 + i * 4096)) None) <$> seqZ 1 5)
  ++ ((fun i => SFree i (Some 0)) <$> seqZ 1 5).

Example slab_drain_leaks :
  match sfinal hardened_boot (fun _ => 0) 0x100000 16384 leak_history with
  | Done s => (length (ss_pages s), size (ss_slab s),
               match get_list (ss_caches s) 0 7 with Done (_, fl) => fl_count fl | _ => 0 end) = (3%nat, 0%nat, 4)
  | _ => False
  end.
Proof. vm_compute. reflexivity. Qed.

(** A heap too small for the requests grows by a region outside the static range.
    A small block from it is freed into the slab lists; as an object of 32 bytes it
    is handed out again and overlaps the heap's next block, which is live. *)
Definition grown_history : list sevent :=
  [SInit; SAlloc 1 17 3 (Some 0) None (Some (0x800000, 4096)); SAlloc 2 17 3 (Some 0) None None; SFree 1 (Some 0);
   SAlloc 3 32 3 (Some 0) None None].

Example slab_takes_heap_block :
  match sfinal heap_empty (fun _ => 0) 0x100000 16 grown_history with
  | Done s => ss_heap s !! 2 = Some {| ow_ptr := 0x800018; ow_size := 17; ow_align := 3 |} /\
              ss_slab s !! 3 = Some {| ow_ptr := 0x800000; ow_size := 32; ow_align := 3 |}
  | _ => False
  end.
Proof. vm_compute. split; reflexivity. Qed.
