(* ===== verification/Fork.v ===== *)
(** * The address space of a forked process

    [clone_address_space_cow] of [proc/proc/src/fork.rs]: new tables for the child
    are filled from the parent's user half, and every page both can reach loses
    its write permission, is marked copy-on-write and gets one more owner.  The
    kernel half is copied entry by entry.

    The four nested loops of the source are one loop [clone_entries] at the level
    of its table, and [clone_table] their nesting.  The allocator acts on the
    tracker's state, as in [CowFault].  The two addresses given to the
    inter-processor shootdown are part of the result; the area list, which is
    copied, is not. *)
From S2P Require Import Prelude Zone PageDb FrameAlloc Paging Cow.

Inductive ForkError := OutOfMemory | ParentNotFound | Internal.

Record ForkState := {
  fs_mem : TableMem;
  fs_cow : Cow;
  fs_guard : list Z;
  fs_watch : Z;
  fs_min : Z;
  fs_max : Z;
  fs_any : bool
}.

Definition with_mem (s : ForkState) (m : TableMem) : ForkState :=
  {| fs_mem := m; fs_cow := fs_cow s; fs_guard := fs_guard s; fs_watch := fs_watch s;
     fs_min := fs_min s; fs_max := fs_max s; fs_any := fs_any s |}.

Definition with_cow (s : ForkState) (c : Cow) : ForkState :=
  {| fs_mem := fs_mem s; fs_cow := c; fs_guard := fs_guard s; fs_watch := fs_watch s;
     fs_min := fs_min s; fs_max := fs_max s; fs_any := fs_any s |}.

Definition with_watch (s : ForkState) (w : Z) : ForkState :=
  {| fs_mem := fs_mem s; fs_cow := fs_cow s; fs_guard := fs_guard s; fs_watch := w;
     fs_min := fs_min s; fs_max := fs_max s; fs_any := fs_any s |}.

Definition guard_push (s : ForkState) (frame : Z) : ForkState :=
  {| fs_mem := fs_mem s; fs_cow := fs_cow s; fs_guard := fs_guard s ++ [frame]; fs_watch := fs_watch s;
     fs_min := fs_min s; fs_max := fs_max s; fs_any := fs_any s |}.

(** A page at [v] of [bytes] bytes lost its write permission. *)
Definition demoted (s : ForkState) (v bytes : Z) : outcome ForkState :=
  hi ← add64 v bytes;
  Done {| fs_mem := fs_mem s; fs_cow := fs_cow s; fs_guard := fs_guard s; fs_watch := fs_watch s;
          fs_min := Z.min (fs_min s) v; fs_max := Z.max (fs_max s) hi; fs_any := true |}.

Definition compute_virt_addr (pml4_idx pdpt_idx pd_idx pt_idx : Z) : Z :=
  let addr := Z.lor (Z.lor (Z.lor (Z.shiftl pt_idx 12) (Z.shiftl pd_idx 21)) (Z.shiftl pdpt_idx 30))
                    (Z.shiftl pml4_idx 39) in
  if 256 <=? pml4_idx then Z.lor addr 0xFFFF000000000000 else addr.

(** The address of the page at the indices [ix], from the top level down. *)
Definition virt_at (ix : list Z) : Z :=
  compute_virt_addr (default 0 (ix !! 0%nat)) (default 0 (ix !! 1%nat)) (default 0 (ix !! 2%nat)) (default 0 (ix !! 3%nat)).

(** The size of a page mapped at level [l]. *)
Definition page_bytes (l : nat) : Z := 2 ^ (12 + 9 * (Z.of_nat l - 1)).

(** The flags parent and child get for a page. *)
Definition shared_flags (e : Z) : Z :=
  if is_writable e then Z.lor (Z.ldiff (entry_flags e) WRITABLE) COW else Z.lor (entry_flags e) COW.

(** The flags of an entry for a new table: the parent's without NO_EXECUTE. *)
Definition table_flags (e : Z) : Z :=
  Z.lor (Z.lor (Z.lor (Z.ldiff (entry_flags e) NO_EXECUTE) PRESENT) WRITABLE) USER.

(** What entry [e] of a table of level [l] is to the walk of the source. *)
Inductive ekind := Absent | Mapped | Table (t : Z).

Definition kind (l : nat) (e : Z) : ekind :=
  if negb (is_present e) then Absent
  else if (l =? 1)%nat || ((l <=? 3)%nat && is_huge e) then Mapped
  else Table (entry_addr e).

Section fork.
Context (alloc : Cow -> outcome (option Z * Cow)) (free : Z -> Cow -> outcome Cow).

(** Entry [i] of the parent's table maps a page: share it. *)
Definition share_entry (s : ForkState) (parent child i v bytes : Z) : outcome ForkState :=
  let e := fs_mem s (slot parent i) in
  let flags := shared_flags e in
  let m := twrite (fs_mem s) parent i (entry_set_flags e flags) in
  let addr := entry_addr (m (slot parent i)) in
  c ← increment (fs_cow s) addr;
  let s := with_cow (with_mem s (twrite m child i (entry_new addr flags))) c in
  if is_writable e then demoted s v bytes else Done s.

(** Entry [i] of the parent's table leads to a table: a new one for the child. *)
Definition new_table (s : ForkState) (child_pml4 golden parent child i : Z) :
    outcome (result Z ForkError * ForkState) :=
  '(r, c) ← alloc (fs_cow s);
  let s := with_cow s c in
  match r with
  | None => Done (Err OutOfMemory, s)
  | Some a =>
      let s := guard_push s a in
      if a =? child_pml4 then Done (Err Internal, s) else
      let m := table_clear (fs_mem s) a in
      if negb (m (slot child_pml4 256) =? golden) then Done (Err Internal, with_mem s m) else
      Done (Ok a, with_mem s (twrite m child i (entry_new a (table_flags (m (slot parent i))))))
  end.

(** The body of the loop at entry [i] of tables of level [l]; [rec] clones the
    tables below. *)
Definition clone_entry (rec : list Z -> Z -> Z -> ForkState -> outcome (result unit ForkError * ForkState))
    (l : nat) (child_pml4 golden : Z) (ix : list Z) (parent child i : Z) (s : ForkState) :
    outcome (result unit ForkError * ForkState) :=
  match kind l (fs_mem s (slot parent i)) with
  | Absent => Done (Ok tt, s)
  | Mapped => s ← share_entry s parent child i (virt_at (ix ++ [i])) (page_bytes l); Done (Ok tt, s)
  | Table t =>
      '(r, s) ← new_table s child_pml4 golden parent child i;
      match r with
      | Err e => Done (Err e, s)
      | Ok a => rec (ix ++ [i]) t a s
      end
  end.

(** The loop over [n] entries from [i] on. *)
Fixpoint clone_entries (rec : list Z -> Z -> Z -> ForkState -> outcome (result unit ForkError * ForkState))
    (l : nat) (child_pml4 golden : Z) (ix : list Z) (parent child : Z) (n : nat) (i : Z) (s : ForkState) :
    outcome (result unit ForkError * ForkState) :=
  match n with
  | O => Done (Ok tt, s)
  | S n =>
      '(r, s) ← clone_entry rec l child_pml4 golden ix parent child i s;
      match r with
      | Err e => Done (Err e, s)
      | Ok _ => clone_entries rec l child_pml4 golden ix parent child n (i + 1) s
      end
  end.

(** User space is the lower half of the top level. *)
Definition width (l : nat) : nat := if (l =? 4)%nat then 256 else 512.

Fixpoint clone_table (l : nat) (child_pml4 golden : Z) (ix : list Z) (parent child : Z) (s : ForkState) :
    outcome (result unit ForkError * ForkState) :=
  match l with
  | O => Done (Ok tt, s)
  | S l' => clone_entries (clone_table l' child_pml4 golden) l child_pml4 golden ix parent child (width l) 0 s
  end.

(** [for i in 256..512 { child[i] = parent[i] }] *)
Definition copy_kernel (m : TableMem) (parent child : Z) : TableMem :=
  fun a => if (slot child 256 <=? a) && (a <? slot child 512) then m (parent + (a - child)) else m a.

(** [FrameGuard::drop]: the tables of a fork that failed are freed. *)
Fixpoint free_all (frames : list Z) (c : Cow) : outcome Cow :=
  match frames with
  | [] => Done c
  | f :: frames => c ← free f c; free_all frames c
  end.

Definition guard_drop (s : ForkState) : outcome ForkState :=
  let s := with_watch s 0 in
  c ← free_all (fs_guard s) (fs_cow s); Done (with_cow s c).

Definition mark_tables (c : Cow) (frames : list Z) : Cow :=
  match cw_pdb c with
  | Some w => mkCow (cw_counts c) (Some (foldl (fun w f => mark_pagetable w f 0) w frames))
  | None => c
  end.

(** The result is the child's top table and its other tables. *)
Definition clone_address_space_cow (m : TableMem) (c : Cow) (parent_pml4 watch : Z) :
    outcome (result (Z * list Z) ForkError * ForkState) :=
  let s := {| fs_mem := m; fs_cow := c; fs_guard := []; fs_watch := watch; fs_min := U64_MAX; fs_max := 0; fs_any := false |} in
  '(r, c) ← alloc (fs_cow s);
  match r with
  | None => s ← guard_drop (with_cow s c); Done (Err OutOfMemory, s)
  | Some child_pml4 =>
      let s := with_watch (guard_push (with_cow s c) child_pml4) child_pml4 in
      let s := with_mem s (copy_kernel (table_clear (fs_mem s) child_pml4) parent_pml4 child_pml4) in
      let golden := fs_mem s (slot child_pml4 256) in
      '(r, s) ← clone_table 4 child_pml4 golden [] parent_pml4 child_pml4 s;
      match r with
      | Err e => s ← guard_drop s; Done (Err e, s)
      | Ok _ =>
          let s := with_cow s (mark_tables (fs_cow s) (fs_guard s)) in
          let frames := filter (fun f => f <> child_pml4) (fs_guard s) in
          Done (Ok (child_pml4, frames), with_watch s 0)
      end
  end.
End fork.
