(* ===== verification/ForkInv.v ===== *)
(** * What a forked address space is

    The tables and pages of a table tree as lists, the relation between a parent's
    tree and its clone, and the conditions under which the steps of the walk in
    [Fork] keep it.  [ForkSys] has the theorem. *)
From S2P Require Import Prelude Zone PageDb FrameAlloc Paging Cow Fork.

(** ** Entries *)

(** The entry of a shared page. *)
Definition shared (e : Z) : Z := entry_set_flags e (shared_flags e).

Lemma shared_flags_bit e n : 0 <= n ->
  Z.testbit (shared_flags e) n = ((Z.testbit e n && Z.testbit ALL_FLAGS n) && negb (n =? 1)) || (n =? 9).
Proof.
  intros Hn. assert (forall k, 0 <= k -> Z.testbit (Z.shiftl 1 k) n = (n =? k)) as Hk.
  { intros k Hk. rewrite Z.shiftl_1_l, Z.pow2_bits_eqb by done. apply Z.eqb_sym. }
  unfold shared_flags, entry_flags. destruct (is_writable e) eqn:Hw.
  - rewrite Z.lor_spec, Z.ldiff_spec, Z.land_spec. unfold COW, WRITABLE. by rewrite !Hk.
  - rewrite Z.lor_spec, Z.land_spec. unfold COW. rewrite Hk by done. f_equal.
    destruct (Z.eqb_spec n 1) as [->|]; cbn [negb]; [|by rewrite andb_true_r].
    unfold is_writable, WRITABLE in Hw. rewrite flag_bit in Hw by done. by rewrite Hw.
Qed.

Lemma shared_flags_mask e : Z.land (shared_flags e) ADDR_MASK = 0.
Proof.
  apply Z.bits_inj'. intros n Hn. rewrite Z.land_spec, shared_flags_bit, Z.bits_0 by done.
  assert (Z.testbit ALL_FLAGS n && Z.testbit ADDR_MASK n = false) as Hd.
  { rewrite <- Z.land_spec. change (Z.land ALL_FLAGS ADDR_MASK) with 0. apply Z.bits_0. }
  destruct (Z.eqb_spec n 9) as [->|]; [apply (andb_false_r (_ || true))|]. rewrite orb_false_r.
  destruct (Z.testbit ADDR_MASK n); [|apply andb_false_r]. rewrite andb_true_r in Hd. by rewrite Hd, andb_false_r.
Qed.

Lemma shared_addr e : entry_addr (shared e) = entry_addr e.
Proof. apply land_mask_idemp, shared_flags_mask. Qed.

(** The child's entry is the parent's. *)
Lemma shared_child e : entry_new (entry_addr (shared e)) (shared_flags e) = shared e.
Proof.
  rewrite shared_addr. unfold entry_new, shared, entry_set_flags, entry_addr.
  by rewrite <- Z.land_assoc, Z.land_diag.
Qed.

Lemma shared_bit e n : 0 <= n < 12 ->
  Z.testbit (shared e) n = ((Z.testbit e n && Z.testbit ALL_FLAGS n) && negb (n =? 1)) || (n =? 9).
Proof. intros Hn. change (shared e) with (entry_new e (shared_flags e)). rewrite entry_new_bit by done. apply shared_flags_bit. lia. Qed.

Lemma shared_present e : is_present (shared e) = is_present e.
Proof. rewrite !is_present_bit, shared_bit by done. by rewrite orb_false_r, !andb_true_r. Qed.

Lemma shared_huge e : is_huge (shared e) = is_huge e.
Proof. rewrite !is_huge_bit, shared_bit by done. by rewrite orb_false_r, !andb_true_r. Qed.

(** Nobody writes a shared page without a fault. *)
Lemma shared_protected e : is_writable (shared e) = false /\ is_cow (shared e) = true.
Proof.
  unfold is_writable, is_cow, WRITABLE, COW. rewrite !flag_bit, !shared_bit by done.
  by rewrite andb_false_r, orb_true_r.
Qed.

Lemma kind_shared l e : kind l (shared e) = kind l e.
Proof. unfold kind. by rewrite shared_present, shared_huge, shared_addr. Qed.

Lemma table_flags_mask e : Z.land (table_flags e) ADDR_MASK = 0.
Proof.
  unfold table_flags, entry_flags. rewrite !Z.land_lor_distr_l.
  change (Z.land PRESENT ADDR_MASK) with 0. change (Z.land WRITABLE ADDR_MASK) with 0. change (Z.land USER ADDR_MASK) with 0.
  rewrite !Z.lor_0_r. apply Z.bits_inj'. intros n _. rewrite Z.land_spec, Z.ldiff_spec, Z.land_spec, Z.bits_0.
  assert (Z.testbit ALL_FLAGS n && Z.testbit ADDR_MASK n = false) as Hd.
  { rewrite <- Z.land_spec. change (Z.land ALL_FLAGS ADDR_MASK) with 0. apply Z.bits_0. }
  destruct (Z.testbit e n), (Z.testbit NO_EXECUTE n), (Z.testbit ALL_FLAGS n), (Z.testbit ADDR_MASK n); done.
Qed.

(** The child's entry for a new table. *)
Lemma table_entry a e :
  frame_addr a -> let e' := entry_new a (table_flags e) in
  entry_addr e' = a /\ is_present e' = true /\ is_huge e' = is_huge e.
Proof.
  intros Ha e'. unfold e'. split_and!.
  - unfold entry_addr, entry_new. rewrite land_mask_idemp by apply table_flags_mask. by apply frame_addr_mask.
  - rewrite is_present_bit, entry_new_bit by done. unfold table_flags. rewrite !Z.lor_spec.
    change (Z.testbit PRESENT 0) with true. by rewrite orb_true_r.
  - rewrite !is_huge_bit, entry_new_bit by done. unfold table_flags, entry_flags.
    rewrite !Z.lor_spec, Z.ldiff_spec, Z.land_spec.
    change (Z.testbit NO_EXECUTE 7) with false. change (Z.testbit ALL_FLAGS 7) with true.
    change (Z.testbit PRESENT 7) with false. change (Z.testbit WRITABLE 7) with false. change (Z.testbit USER 7) with false.
    by rewrite !orb_false_r, !andb_true_r.
Qed.

Lemma kind_table l e t : kind l e = Table t ->
  is_present e = true /\ t = entry_addr e /\ (2 <= l \/ l = 0)%nat /\ (l <= 3 -> is_huge e = false)%nat.
Proof.
  unfold kind. destruct (is_present e); cbn [negb]; [|done].
  destruct (Nat.eqb_spec l 1); [done|]. cbn [orb].
  destruct (Nat.leb_spec l 3); cbn [andb]; destruct (is_huge e); intros [= <-]; split_and!; try done; lia.
Qed.

Lemma kind_new_table l a e t : kind l e = Table t -> frame_addr a -> kind l (entry_new a (table_flags e)) = Table a.
Proof.
  intros Hk Ha. destruct (kind_table l e t Hk) as (_ & _ & Hl & Hh). destruct (table_entry a e Ha) as (H1 & H2 & H3).
  unfold kind. rewrite H2, H1, H3. cbn [negb]. destruct (Nat.eqb_spec l 1); [lia|]. cbn [orb].
  destruct (Nat.leb_spec l 3); [|done]. by rewrite Hh.
Qed.

Lemma kind_zero l : kind l 0 = Absent.
Proof. done. Qed.

Lemma kind_mapped l e : kind l e = Mapped -> (l <= 3)%nat.
Proof.
  unfold kind. destruct (negb (is_present e)); [done|]. destruct (Nat.eqb_spec l 1); [lia|].
  destruct (Nat.leb_spec l 3); [done|]. done.
Qed.

(** ** The tables and pages below a table *)

(** The tables below [t], in the order of the walk. *)
Definition entry_tabs (rec : Z -> list Z) (l : nat) (e : Z) : list Z :=
  match kind l e with Table t' => t' :: rec t' | _ => [] end.

Fixpoint tabs (l : nat) (m : TableMem) (t : Z) : list Z :=
  match l with
  | O => []
  | S l' => gather (fun i => entry_tabs (tabs l' m) l (m (slot t i))) (width l) 0
  end.

(** The frames of the pages below [t], in the order of the walk. *)
Definition entry_pages (rec : Z -> list Z) (l : nat) (e : Z) : list Z :=
  match kind l e with Table t' => rec t' | Mapped => [frame_of (entry_addr e)] | Absent => [] end.

Fixpoint pages (l : nat) (m : TableMem) (t : Z) : list Z :=
  match l with
  | O => []
  | S l' => gather (fun i => entry_pages (pages l' m) l (m (slot t i))) (width l) 0
  end.

(** ** Owners *)

(** One more owner for each of [fs]. *)
Definition own_plus (own : Z -> Z) (fs : list Z) : Z -> Z :=
  foldl (fun own f => with_owners own f (own f + 1)) own fs.

(** Each of [fs] has an owner already, and its count does not overflow. *)
Fixpoint sharable (own : Z -> Z) (fs : list Z) : Prop :=
  match fs with
  | [] => True
  | f :: fs => 1 <= own f /\ own f + 1 < U32 /\ sharable (with_owners own f (own f + 1)) fs
  end.

Lemma own_plus_app own fs gs : own_plus own (fs ++ gs) = own_plus (own_plus own fs) gs.
Proof. apply foldl_app. Qed.

Lemma sharable_app own fs gs : sharable own (fs ++ gs) <-> sharable own fs /\ sharable (own_plus own fs) gs.
Proof.
  revert own. induction fs as [|f fs IH]; intros own; cbn [app sharable]; [tauto|]. rewrite IH. cbn [own_plus foldl]. unfold own_plus. tauto.
Qed.

(** The counts grow by the number of mappings. *)
Lemma own_plus_count fs f : forall own, own_plus own fs f = own f + Z.of_nat (count_occ Z.eq_dec fs f).
Proof.
  induction fs as [|g fs IH]; intros own; cbn [count_occ]; [cbn; lia|]. change (own_plus own (g :: fs)) with (own_plus (with_owners own g (own g + 1)) fs).
  rewrite IH. unfold with_owners. destruct (Z.eqb_spec f g) as [->|Hne].
  - destruct (Z.eq_dec g g); [lia|done].
  - destruct (Z.eq_dec g f); [done|lia].
Qed.

Lemma sharable_owned own fs f : sharable own fs -> f ∈ fs -> 1 <= own f.
Proof.
  revert own. induction fs as [|g fs IH]; intros own; [by intros _ ?%not_elem_of_nil|]. intros (H1 & _ & Hs) [->|Hf]%elem_of_cons; [done|].
  specialize (IH _ Hs Hf). unfold with_owners in IH. destruct (Z.eqb_spec f g) as [->|]; lia.
Qed.

Lemma sharable_unowned own fs f : sharable own fs -> own f = 0 -> own_plus own fs f = 0.
Proof.
  revert own. induction fs as [|g fs IH]; intros own; [done|]. intros (H1 & _ & Hs) H0. apply (IH _ Hs).
  unfold with_owners. destruct (Z.eqb_spec f g) as [->|]; [lia|done].
Qed.

(** ** Frames in use *)

(** The database has the frame as allocated. *)
Definition held (c : Cow) (a : Z) : Prop :=
  exists w pf, cw_pdb c = Some w /\ pdb_get (pw_db w) a = Some pf /\ has_flag PF_ALLOCATED pf = true.

(** What the clone relies on: frames handed out were not in use, and giving one
    back, or handing it out, changes no other. *)
Record table_alloc_lawful (frames : Z) (alloc : Cow -> outcome (option Z * Cow)) (free : Z -> Cow -> outcome Cow) : Prop := {
  ta_alloc : forall c own, tracks_owners frames c own ->
    exists r c', alloc c = Done (r, c') /\ tracks_owners frames c' own /\
      (forall x, frame_addr x -> held c' x <-> held c x \/ r = Some x) /\
      (forall a, r = Some a -> frame_addr a /\ ~ held c a);
  ta_free : forall c own a, tracks_owners frames c own -> frame_addr a -> held c a -> own (frame_of a) = 0 ->
    exists c', free a c = Done c' /\ tracks_owners frames c' own /\
      (forall x, frame_addr x -> held c' x <-> held c x /\ x <> a)
}.

Lemma frame_addr_nonneg a : frame_addr a -> 0 <= a.
Proof. intros (p & -> & Hp & _). lia. Qed.

Lemma frame_addr_of a : frame_addr a -> frame_of a * 4096 = a.
Proof. intros (p & -> & _). unfold frame_of, COW_FRAME_SIZE. by rewrite Z.div_mul. Qed.

Lemma frame_addr_inj a b : frame_addr a -> frame_addr b -> a / 4096 = b / 4096 -> a = b.
Proof. intros (p & -> & _) (q & -> & _). rewrite !Z.div_mul by done. by intros ->. Qed.

(** An owned frame is in use. *)
Lemma unheld_unowned frames c own a :
  tracks_owners frames c own -> frame_addr a -> ~ held c a -> own (frame_of a) = 0.
Proof.
  intros Ht Ha Hn. destruct (decide (own (frame_of a) = 0)) as [|Hne]; [done|]. exfalso. apply Hn.
  destruct (owned_entry frames c own a Ht (frame_addr_nonneg a Ha) Hne) as (w & pf & Hw & Hpf & _ & _ & _ & Hd & _).
  by exists w, pf.
Qed.

Lemma tracks_ext frames c own own' :
  (forall f, own f = own' f) -> tracks_owners frames c own -> tracks_owners frames c own'.
Proof. intros He [H1 H2]. split; [done|]. intros f Hf. rewrite <- He. by apply H2. Qed.

(** A change to the entry of a frame nobody owns changes no owners. *)
Lemma tracks_unowned frames c own a w w' g :
  tracks_owners frames c own -> cw_pdb c = Some w -> frame_addr a -> frame_update w w' a g ->
  own (frame_of a) = 0 -> tracks_owners frames (mkCow (cw_counts c) (Some w')) own.
Proof.
  intros Ht Hw Ha Hu H0. pose proof Ht as [_ Hown]. pose proof (frame_addr_nonneg a Ha) as Hp.
  assert (0 <= frame_of a) as Hf by (by apply Z.div_pos). specialize (Hown _ Hf). rewrite H0 in Hown.
  apply (tracks_ext _ _ (with_owners own (frame_of a) 0)).
  { intros f. unfold with_owners. by destruct (Z.eqb_spec f (frame_of a)) as [->|]. }
  by eapply tracks_change.
Qed.

(** What a change to one entry does to the frames in use. *)
Lemma held_update c w w' a g counts x :
  cw_pdb c = Some w -> frame_update w w' a g -> frame_addr a -> frame_addr x ->
  held (mkCow counts (Some w')) x <->
    if decide (x = a) then exists pf, pdb_get (pw_db w) a = Some pf /\ has_flag PF_ALLOCATED (g pf) = true else held c x.
Proof.
  intros Hw [_ Hget] Ha Hx. unfold held. cbn [cw_pdb]. specialize (Hget x (frame_addr_nonneg x Hx)).
  destruct (decide (x = a)) as [->|Hd].
  - rewrite decide_True in Hget by done. split.
    + intros (w0 & pf & [= <-] & Hpf & Hf). rewrite Hget in Hpf. apply fmap_Some in Hpf as (pf0 & H0 & ->). eauto.
    + intros (pf & Hpf & Hf). exists w', (g pf). split; [done|]. rewrite Hget, Hpf. done.
  - rewrite decide_False in Hget by (intros E; apply Hd; symmetry; by apply frame_addr_inj). split.
    + intros (w0 & pf & [= <-] & Hpf & Hf). exists w, pf. rewrite <- Hget. done.
    + intros (w0 & pf & Hw0 & Hpf & Hf). simplify_eq. exists w', pf. rewrite Hget. done.
Qed.

(** Sharing a page adds an owner, and no frame comes into use. *)
Lemma share_owners frames c own a :
  tracks_owners frames c own -> frame_addr a -> 1 <= own (frame_of a) -> own (frame_of a) + 1 < U32 ->
  exists c', increment c a = Done c' /\ tracks_owners frames c' (own_plus own [frame_of a]) /\
    forall x, frame_addr x -> held c' x <-> held c x.
Proof.
  intros Ht Ha Hn Hmax. pose proof (frame_addr_nonneg a Ha) as Hp.
  destruct (increment_owners frames c own a Ht Hp Hn Hmax) as (c' & Hi & Ht'). exists c'. split_and!; [done|done|].
  destruct (owned_entry frames c own a Ht Hp ltac:(lia)) as (w & pf & Hw & Hpf & Href & Hr & _ & Hd).
  unfold increment in Hi. destruct (bump _ _) as [counts| |]; try done. cbn [mbind outcome_bind] in Hi. rewrite Hw in Hi.
  destruct (frame_update_ref_inc w a pf Hp Hpf) as (w' & Hinc & Hu); [unfold U32, U32_MAX in *; lia|].
  rewrite Hinc in Hi. cbn [mbind outcome_bind] in Hi. injection Hi as <-. intros x Hx.
  pose proof (frame_update_trans _ _ _ _ _ _ Hu (frame_update_on w' a (set_flag PF_COW) Hp)) as Hu2.
  rewrite (held_update c w _ a _ _ x Hw Hu2 Ha Hx). destruct (decide (x = a)) as [->|]; [|done]. split.
  - intros _. destruct Hd as [Hd _]. by exists w, pf.
  - intros _. exists pf. split; [done|]. rewrite flag_cow_set by done. apply Hd.
Qed.

Lemma mark_pagetable_update w a o pf :
  0 <= a -> pdb_get (pw_db w) a = Some pf ->
  frame_update w (mark_pagetable w a o) a
    (fun f => set_owner o (set_refcount 1 (set_flags (Z.lor PF_ALLOCATED PF_PAGETABLE) f))).
Proof.
  intros Ha Hpf. unfold mark_pagetable. rewrite Hpf. split; [by eapply db_ok_update|]. intros b Hb. by apply pdb_get_update.
Qed.

(** The frame is marked as a page table of one address space. *)
Definition table_frame (c : Cow) (a : Z) : Prop :=
  exists w pf, cw_pdb c = Some w /\ pdb_get (pw_db w) a = Some pf /\
    pf_flags pf = Z.lor PF_ALLOCATED PF_PAGETABLE /\ pf_refcount pf = 1.

Lemma mark_tables_cons c f fs : mark_tables c (f :: fs) = mark_tables (mark_tables c [f]) fs.
Proof. unfold mark_tables. by destruct (cw_pdb c) as [w|] eqn:E; cbn [cw_pdb]; [|rewrite E]. Qed.

Lemma mark_table_spec frames c own f :
  tracks_owners frames c own -> frame_addr f -> held c f -> own (frame_of f) = 0 ->
  tracks_owners frames (mark_tables c [f]) own /\ (forall x, frame_addr x -> held (mark_tables c [f]) x <-> held c x) /\
  forall x, frame_addr x -> table_frame c x \/ x = f -> table_frame (mark_tables c [f]) x.
Proof.
  intros Ht Hf (w & pf & Hw & Hpf & Hall) H0. unfold mark_tables. rewrite Hw. cbn [foldl].
  pose proof (mark_pagetable_update w f 0 pf (frame_addr_nonneg f Hf) Hpf) as Hu. split_and!.
  - by eapply tracks_unowned.
  - intros x Hx. rewrite (held_update c w _ f _ _ x Hw Hu Hf Hx). destruct (decide (x = f)) as [->|]; [|done].
    split; [by exists w, pf|]. intros _. by exists pf.
  - intros x Hx Hor. destruct Hu as [_ Hget]. specialize (Hget x (frame_addr_nonneg x Hx)).
    destruct (decide (f / 4096 = x / 4096)) as [E|E].
    + apply frame_addr_inj in E as <-; [|done..]. rewrite Hpf in Hget. eexists _, _. split; [reflexivity|]. by split; [exact Hget|].
    + destruct Hor as [(w0 & pf0 & Hw0 & Hpf0 & Hflag)|Heq]; [|subst x; done]. rewrite Hw in Hw0. injection Hw0 as <-.
      eexists _, pf0. split; [reflexivity|]. by rewrite Hget.
Qed.

Lemma mark_tables_spec frames own fs : forall c,
  tracks_owners frames c own -> (forall f, f ∈ fs -> frame_addr f /\ held c f /\ own (frame_of f) = 0) ->
  tracks_owners frames (mark_tables c fs) own /\ (forall x, frame_addr x -> held (mark_tables c fs) x <-> held c x) /\
  forall x, frame_addr x -> table_frame c x \/ x ∈ fs -> table_frame (mark_tables c fs) x.
Proof.
  induction fs as [|f fs IH]; intros c Ht Hfs.
  { assert (mark_tables c [] = c) as -> by (unfold mark_tables; destruct c as [counts [w|]]; done).
    split_and!; [done|done|]. by intros x _ [|?%not_elem_of_nil]. }
  destruct (Hfs f (list_elem_of_here _ _)) as (Hf & Hh & H0).
  destruct (mark_table_spec frames c own f Ht Hf Hh H0) as (Ht1 & Hh1 & Hp1). rewrite mark_tables_cons.
  destruct (IH _ Ht1) as (Ht2 & Hh2 & Hp2).
  { intros g Hg. destruct (Hfs g (list_elem_of_further _ _ _ Hg)) as (Hg1 & Hg2 & Hg3). rewrite Hh1 by done. done. }
  split_and!; [done| |].
  - intros x Hx. by rewrite Hh2, Hh1.
  - intros x Hx Hor. apply Hp2; [done|]. rewrite elem_of_cons in Hor. destruct Hor as [H|[H|H]]; [left|left|by right]; apply Hp1; auto.
Qed.

(** A failed clone gives all its tables back. *)
Lemma free_all_spec frames alloc free own fs : forall c,
  table_alloc_lawful frames alloc free -> tracks_owners frames c own -> NoDup fs ->
  (forall f, f ∈ fs -> frame_addr f /\ held c f /\ own (frame_of f) = 0) ->
  exists c', free_all free fs c = Done c' /\ tracks_owners frames c' own /\
    forall x, frame_addr x -> held c' x <-> held c x /\ (x ∉ fs).
Proof.
  induction fs as [|f fs IH]; intros c Hlaw Ht Hnd Hfs; cbn [free_all].
  { exists c. split_and!; [done|done|]. intros x _. rewrite elem_of_nil. tauto. }
  apply NoDup_cons in Hnd as [Hni Hnd]. destruct (Hfs f (list_elem_of_here _ _)) as (Hf & Hh & H0).
  destruct (ta_free _ _ _ Hlaw c own f Ht Hf Hh H0) as (c1 & -> & Ht1 & Hh1). cbn [mbind outcome_bind].
  destruct (IH c1 Hlaw Ht1 Hnd) as (c2 & -> & Ht2 & Hh2).
  { intros g Hg. destruct (Hfs g (list_elem_of_further _ _ _ Hg)) as (Hg1 & Hg2 & Hg3).
    rewrite Hh1 by done. split_and!; [done|done|congruence|done]. }
  exists c2. split_and!; [done|done|]. intros x Hx. rewrite Hh2, Hh1, elem_of_cons by done. tauto.
Qed.
