(* ===== verification/ForkWalk.v ===== *)
(** * The walk over the parent's tables

    The relation between a table tree and its clone, and the steps of the walk of
    [Fork]: each entry is cloned, or memory runs out, and the checks for corrupted
    tables never fire. *)
From S2P Require Import Prelude Zone PageDb FrameAlloc Paging Cow Fork ForkInv.

(** ** Addresses *)

Lemma lor_shift a b k : 0 <= k -> 0 <= a < 2 ^ k -> Z.lor a (Z.shiftl b k) = a + b * 2 ^ k.
Proof.
  intros Hk Ha. rewrite <- Z.shiftl_mul_pow2 by done. rewrite Z.add_nocarry_lxor, Z.lxor_lor; [done| |];
    (apply Z.bits_inj'; intros n Hn; rewrite Z.land_spec, Z.bits_0; destruct (Z.lt_ge_cases n k);
     [rewrite Z.shiftl_spec_low by done; apply andb_false_r|
      rewrite <- (Z.mod_small a (2 ^ k)), Z.mod_pow2_bits_high by lia; done]).
Qed.

Lemma compute_virt_addr_sum i4 i3 i2 i1 :
  0 <= i4 < 256 -> 0 <= i3 < 512 -> 0 <= i2 < 512 -> 0 <= i1 < 512 ->
  compute_virt_addr i4 i3 i2 i1 = i1 * 2 ^ 12 + i2 * 2 ^ 21 + i3 * 2 ^ 30 + i4 * 2 ^ 39.
Proof.
  intros. unfold compute_virt_addr. destruct (Z.leb_spec 256 i4); [lia|].
  rewrite (Z.shiftl_mul_pow2 i1) by lia.
  rewrite (lor_shift (i1 * _)) by lia. rewrite (lor_shift (_ + i2 * _)) by lia. by rewrite (lor_shift (_ + i3 * _)) by lia.
Qed.

(** The indices above level [l] on the way to [v]. *)
Definition path (l : nat) (v : Z) : list Z := take (4 - l) [level_index 4 v; level_index 3 v; level_index 2 v; level_index 1 v].

Lemma user_index v : 0 <= v < 2 ^ 47 -> level_index 4 v < 256.
Proof.
  intros Hv. rewrite level_index_div. change (2 ^ (12 + (Z.of_nat 4 - 1) * 9)) with (2 ^ 39).
  assert (0 <= v / 2 ^ 39 < 256) by (split; [apply Z.div_pos; lia|apply Z.div_lt_upper_bound; lia]).
  rewrite Z.mod_small by lia. lia.
Qed.

(** The page of level [l] at the indices of a user address contains the address. *)
Lemma virt_at_path l v : (1 <= l <= 3)%nat -> 0 <= v < 2 ^ 47 ->
  virt_at (path (pred l) v) <= v < virt_at (path (pred l) v) + page_bytes l.
Proof.
  intros Hl Hv. pose proof (user_index v Hv) as H4. pose proof (level_index_bound 4 v) as H4'.
  pose proof (level_index_bound 3 v) as H3. pose proof (level_index_bound 2 v) as H2. pose proof (level_index_bound 1 v) as H1.
  assert (exists o, 0 <= o < 2 ^ 12 /\ v = level_index 1 v * 2 ^ 12 + level_index 2 v * 2 ^ 21 + level_index 3 v * 2 ^ 30 + level_index 4 v * 2 ^ 39 + o)
    as (o & Ho & Hsum).
  { exists (v mod 2 ^ 12). rewrite !level_index_div in *.
    change (2 ^ (12 + (Z.of_nat 4 - 1) * 9)) with (2 ^ 12 * 512 * 512 * 512) in *.
    change (2 ^ (12 + (Z.of_nat 3 - 1) * 9)) with (2 ^ 12 * 512 * 512) in *.
    change (2 ^ (12 + (Z.of_nat 2 - 1) * 9)) with (2 ^ 12 * 512) in *.
    change (2 ^ (12 + (Z.of_nat 1 - 1) * 9)) with (2 ^ 12) in *.
    rewrite <- !Z.div_div in * by lia. pose proof (Z.mod_pos_bound v (2 ^ 12) ltac:(lia)).
    pose proof (Z.div_mod v (2 ^ 12) ltac:(lia)). set (q := v / 2 ^ 12) in *.
    pose proof (Z.div_mod q 512 ltac:(lia)). set (q2 := q / 512) in *.
    pose proof (Z.div_mod q2 512 ltac:(lia)). set (q3 := q2 / 512) in *.
    assert (0 <= q) by (apply Z.div_pos; lia). assert (0 <= q2) by (apply Z.div_pos; lia). assert (0 <= q3) by (apply Z.div_pos; lia).
    assert (0 <= q3 / 512) by (apply Z.div_pos; lia).
    pose proof (Z.div_mod q3 512 ltac:(lia)). pose proof (Z.mod_pos_bound q3 512 ltac:(lia)).
    rewrite (Z.mod_small (q3 / 512)) by lia. lia. }
  destruct l as [|[|[|[|l]]]]; try lia; unfold virt_at, path, page_bytes; cbn -[Z.pow Z.mul Z.add level_index compute_virt_addr];
    rewrite compute_virt_addr_sum by lia; lia.
Qed.

Definition path_ok (l : nat) (ix : list Z) : Prop :=
  (forall k, k ∈ ix -> 0 <= k < 512) /\ length ix = (4 - l)%nat /\ forall k, ix !! 0%nat = Some k -> k < 256.

Lemma path_ok_snoc l ix i :
  path_ok (S l) ix -> (S l <= 4)%nat -> 0 <= i < Z.of_nat (width (S l)) -> path_ok l (ix ++ [i]).
Proof.
  intros (Hb & Hlen & Hh) Hl Hi. assert (Z.of_nat (width (S l)) <= 512) by (unfold width; case_match; lia). split_and!.
  - intros k [Hk| ->%list_elem_of_singleton]%elem_of_app; [auto|lia].
  - rewrite length_app. cbn [length]. lia.
  - intros k. destruct ix as [|k0 ix]; [|apply Hh]. cbn. intros [= ->].
    assert (l = 3%nat) as -> by (cbn in Hlen; lia). cbn in Hi. lia.
Qed.

Lemma virt_at_bound l ix : path_ok l ix -> 0 <= virt_at ix < 2 ^ 47.
Proof.
  intros (Hb & _ & Hh). assert (forall n, 0 <= default 0 (ix !! n) < 512) as Hd.
  { intros n. destruct (ix !! n) as [k|] eqn:E; cbn; [|lia]. apply Hb. by eapply list_elem_of_lookup_2. }
  assert (0 <= default 0 (ix !! 0%nat) < 256).
  { destruct (ix !! 0%nat) as [k|] eqn:E; cbn; [|lia]. specialize (Hb k). rewrite list_elem_of_lookup in Hb. specialize (Hb (ex_intro _ 0%nat E)).
    specialize (Hh k eq_refl). lia. }
  unfold virt_at. pose proof (Hd 1%nat). pose proof (Hd 2%nat). pose proof (Hd 3%nat). rewrite compute_virt_addr_sum by lia. lia.
Qed.

Lemma page_bytes_bound l : (l <= 3)%nat -> 0 <= page_bytes l <= 2 ^ 30.
Proof. intros Hl. destruct l as [|[|[|[|l]]]]; unfold page_bytes; cbn -[Z.pow]; [..|lia]; lia. Qed.

(** ** The clone of a tree *)

(** The shootdown covers [lo] up to [hi]. *)
Definition spans (s : ForkState) (lo hi : Z) : Prop := fs_any s = true /\ fs_min s <= lo /\ hi <= fs_max s.

(** Entry [i] of table [t] in [m0] against the same entry of [t] and of its clone
    [a] in [s]; [P] are the clone's new tables below the entry. *)
Definition entry_cloned (m0 : TableMem) (rec : list Z -> ForkState -> Z -> Z -> list Z -> Prop) (l : nat) (ix : list Z)
    (s : ForkState) (t a i : Z) (P : list Z) : Prop :=
  let e := m0 (slot t i) in
  match kind l e with
  | Absent => fs_mem s (slot t i) = e /\ fs_mem s (slot a i) = 0 /\ P = []
  | Mapped => fs_mem s (slot t i) = shared e /\ fs_mem s (slot a i) = shared e /\ P = [] /\
      (is_writable e = true -> spans s (virt_at (ix ++ [i])) (virt_at (ix ++ [i]) + page_bytes l))
  | Table t' => fs_mem s (slot t i) = e /\ exists a' N, P = a' :: N /\ frame_addr a' /\
      fs_mem s (slot a i) = entry_new a' (table_flags e) /\ rec (ix ++ [i]) s t' a' N
  end.

(** In [s] the tree at [a] is a clone of the tree that [t] was in [m0], with the
    tables [N] below [a], and [t] shares its pages. *)
Fixpoint cloned (m0 : TableMem) (l : nat) (ix : list Z) (s : ForkState) (t a : Z) (N : list Z) : Prop :=
  match l with
  | O => N = []
  | S l' => exists P, N = gather P (width l) 0 /\
      forall i, 0 <= i < Z.of_nat (width l) -> entry_cloned m0 (cloned m0 l') l ix s t a i (P i)
  end.

(** The two states agree on the entries of the tables [X]. *)
Definition agree (s s' : ForkState) (X : Z -> Prop) : Prop :=
  forall x j, X x -> 0 <= j < 512 -> fs_mem s' (slot x j) = fs_mem s (slot x j).

Definition wider (s s' : ForkState) : Prop := forall lo hi, spans s lo hi -> spans s' lo hi.

Lemma width_512 l : (width l <= 512)%nat.
Proof. unfold width. case_match; lia. Qed.

Lemma entry_cloned_stable m0 l' ix s s' t a i P :
  (forall ix t' a' N, cloned m0 l' ix s t' a' N ->
     agree s s' (fun x => x = t' \/ x = a' \/ x ∈ tabs l' m0 t' \/ x ∈ N) -> cloned m0 l' ix s' t' a' N) ->
  wider s s' -> fs_mem s' (slot t i) = fs_mem s (slot t i) -> fs_mem s' (slot a i) = fs_mem s (slot a i) ->
  agree s s' (fun x => x ∈ entry_tabs (tabs l' m0) (S l') (m0 (slot t i)) \/ x ∈ P) ->
  entry_cloned m0 (cloned m0 l') (S l') ix s t a i P -> entry_cloned m0 (cloned m0 l') (S l') ix s' t a i P.
Proof.
  intros IH Hw Et Ea Hag. unfold entry_cloned, entry_tabs in *. rewrite Et, Ea. destruct (kind _ _) as [| |t'] eqn:Hk; [done| |].
  - intros (H1 & H2 & H3 & H4). split_and!; auto.
  - intros (H1 & a' & N & -> & Ha' & H2 & Hrec). split; [done|]. exists a', N. split_and!; [done..|]. apply IH; [done|].
    intros x j Hx Hj. apply Hag; [|done]. rewrite !elem_of_cons. tauto.
Qed.

Lemma cloned_stable m0 l : forall ix s s' t a N, wider s s' -> cloned m0 l ix s t a N ->
  agree s s' (fun x => x = t \/ x = a \/ x ∈ tabs l m0 t \/ x ∈ N) -> cloned m0 l ix s' t a N.
Proof.
  induction l as [|l IH]; intros ix s s' t a N Hw; cbn [cloned tabs]; [done|]. intros (P & -> & HP) Hag.
  exists P. split; [done|]. intros i Hi. pose proof (width_512 (S l)).
  apply (entry_cloned_stable m0 l ix s); [eauto|done|apply Hag; [auto|lia]|apply Hag; [auto|lia]| |by apply HP].
  intros x j Hx Hj. apply Hag; [|done]. right; right. rewrite !elem_of_gather. destruct Hx as [Hx|Hx]; [left|right]; by exists i.
Qed.

(** ** Steps of the walk *)

Section walk.
Context (frames : Z) (alloc : Cow -> outcome (option Z * Cow)) (free : Z -> Cow -> outcome Cow)
  (Hlaw : table_alloc_lawful frames alloc free)
  (m0 : TableMem) (PT : list Z) (croot golden : Z).

(** [PT] are the parent's tables, as in [m0] but for pages shared since. *)
Record Inv (own : Z -> Z) (s : ForkState) : Prop := {
  iv_tracks : tracks_owners frames (fs_cow s) own;
  iv_pt : forall x, x ∈ PT -> frame_addr x /\ held (fs_cow s) x;
  iv_mem : forall x j, x ∈ PT -> 0 <= j < 512 ->
    fs_mem s (slot x j) = m0 (slot x j) \/ fs_mem s (slot x j) = shared (m0 (slot x j));
  iv_root : frame_addr croot /\ held (fs_cow s) croot /\ (croot ∉ PT);
  iv_golden : fs_mem s (slot croot 256) = golden
}.

(** From [s] to [s'] the walk took the tables [N], shared the pages [pre] and
    wrote only the entries [W] of other tables. *)
Record Step (own : Z -> Z) (s s' : ForkState) (W : Z -> Z -> Prop) (N pre : list Z) : Prop := {
  sp_inv : Inv (own_plus own pre) s';
  sp_guard : fs_guard s' = fs_guard s ++ N;
  sp_nodup : NoDup N;
  sp_fresh : forall x, x ∈ N -> frame_addr x /\ ~ held (fs_cow s) x;
  sp_held : forall x, frame_addr x -> held (fs_cow s') x <-> held (fs_cow s) x \/ x ∈ N;
  sp_frame : forall x j, frame_addr x -> 0 <= j < 512 -> ~ W x j -> (x ∉ N) ->
    fs_mem s' (slot x j) = fs_mem s (slot x j);
  sp_wider : wider s s'
}.

(** Entries [i] up to [i + n] of a table and its clone, and the tables [R]. *)
Definition writes (t a i : Z) (n : nat) (R : list Z) (x j : Z) : Prop :=
  x ∈ R \/ ((x = t \/ x = a) /\ i <= j < i + Z.of_nat n).

Lemma step_refl own s W : Inv own s -> Step own s s W [] [].
Proof.
  intros Hi. constructor; try done.
  - by rewrite app_nil_r.
  - constructor.
  - by intros x ?%not_elem_of_nil.
  - intros x _. rewrite elem_of_nil. tauto.
  - by intros lo hi.
Qed.

Lemma step_trans own s s1 s2 W1 W2 W N1 N2 pre1 pre2 :
  Step own s s1 W1 N1 pre1 -> Step (own_plus own pre1) s1 s2 W2 N2 pre2 ->
  (forall x j, W1 x j -> W x j) -> (forall x j, W2 x j -> W x j \/ x ∈ N1) ->
  Step own s s2 W (N1 ++ N2) (pre1 ++ pre2).
Proof.
  intros [Hi1 Hg1 Hn1 Hf1 Hh1 Hm1 Hw1] [Hi2 Hg2 Hn2 Hf2 Hh2 Hm2 Hw2] HW1 HW2. constructor.
  - by rewrite own_plus_app.
  - by rewrite Hg2, Hg1, app_assoc.
  - apply NoDup_app. split_and!; [done| |done]. intros x H1 H2. destruct (Hf2 x H2) as [Hx Hn]. apply Hn, Hh1; auto.
  - intros x [H|H]%elem_of_app; [auto|]. destruct (Hf2 x H) as [Hx Hn]. split; [done|]. intros Hh. apply Hn, Hh1; auto.
  - intros x Hx. rewrite Hh2, Hh1, elem_of_app by done. tauto.
  - intros x j Hx Hj HW HN. rewrite elem_of_app in HN. rewrite Hm2, Hm1; [done|done|done|naive_solver|tauto|done|done| |tauto].
    intros H. destruct (HW2 x j H); tauto.
  - intros lo hi H. auto.
Qed.

Lemma step_weaken own s s' (W W' : Z -> Z -> Prop) N pre :
  Step own s s' W N pre -> (forall x j, W x j -> W' x j) -> Step own s s' W' N pre.
Proof. intros [] HW. constructor; try done. intros x j Hx Hj Hn HN. naive_solver. Qed.

(** Table [t] of level [l], whose clone [a] is under way: the entries from [i] on,
    [n] of them, are still to be done. *)
Definition todo (l : nat) (t : Z) (n : nat) (i : Z) : list Z :=
  gather (fun i => entry_tabs (tabs (pred l) m0) l (m0 (slot t i))) n i.

Definition todo_pages (l : nat) (t : Z) (n : nat) (i : Z) : list Z :=
  gather (fun i => entry_pages (pages (pred l) m0) l (m0 (slot t i))) n i.

Lemma todo_tabs l t : todo (S l) t (width (S l)) 0 = tabs (S l) m0 t.
Proof. done. Qed.

Lemma todo_pages_all l t : todo_pages (S l) t (width (S l)) 0 = pages (S l) m0 t.
Proof. done. Qed.

Record ready (l : nat) (ix : list Z) (own : Z -> Z) (s : ForkState) (t a : Z) (n : nat) (i : Z) : Prop := {
  rd_range : (1 <= l <= 4)%nat /\ 0 <= i /\ i + Z.of_nat n <= Z.of_nat (width l);
  rd_path : path_ok l ix;
  rd_t : t ∈ PT;
  rd_sub : forall x, x ∈ todo l t n i -> x ∈ PT;
  rd_nodup : NoDup (t :: todo l t n i);
  rd_parent : forall j, i <= j < i + Z.of_nat n -> fs_mem s (slot t j) = m0 (slot t j);
  rd_below : forall x j, x ∈ todo l t n i -> 0 <= j < 512 -> fs_mem s (slot x j) = m0 (slot x j);
  rd_child : frame_addr a /\ held (fs_cow s) a /\ (a ∉ PT) /\ (a = croot -> l = 4%nat);
  rd_zero : forall j, i <= j < i + Z.of_nat n -> fs_mem s (slot a j) = 0;
  rd_share : sharable own (todo_pages l t n i)
}.

(** A table in use is not among those a step takes. *)
Lemma step_old own s s' W N pre x : Step own s s' W N pre -> held (fs_cow s) x -> x ∉ N.
Proof. intros Hs Hh HN. by destruct (sp_fresh _ _ _ _ _ _ Hs x HN). Qed.

Lemma ready_next l ix own s s' t a n i N :
  Inv own s -> ready l ix own s t a (S n) i ->
  Step own s s' (writes t a i 1 (entry_tabs (tabs (pred l) m0) l (m0 (slot t i)))) N
    (entry_pages (pages (pred l) m0) l (m0 (slot t i))) ->
  ready l ix (own_plus own (entry_pages (pages (pred l) m0) l (m0 (slot t i)))) s' t a n (i + 1).
Proof.
  intros Hi [(Hl & Hi0 & Hin) Hp Ht Hsub Hnd Hpar Hbel (Ha & Hah & Hapt & Har) Hz Hsh] Hs.
  set (E := entry_tabs _ _ _) in *. unfold todo, todo_pages in *. cbn [gather] in *. fold E in Hsub, Hnd, Hbel.
  fold (todo l t n (i + 1)) (todo_pages l t n (i + 1)) in *. rewrite Nat2Z.inj_succ in *. pose proof (width_512 l) as Hw.
  apply NoDup_cons in Hnd as [Hni Hnd]. apply NoDup_app in Hnd as (HndE & Hdis & HndR).
  destruct (iv_pt _ _ Hi t Ht) as [Htf Hth]. constructor; try done.
  - lia.
  - intros x Hx. apply Hsub, elem_of_app. by right.
  - apply NoDup_cons. split; [|done]. intros H. apply Hni, elem_of_app. by right.
  - intros j Hj. rewrite (sp_frame _ _ _ _ _ _ Hs); [apply Hpar; lia|done|lia| |by eapply step_old].
    intros [H|[_ H]]; [|lia]. apply Hni, elem_of_app. by left.
  - intros x j Hx Hj. assert (x ∈ E ++ todo l t n (i + 1)) as Hx' by (apply elem_of_app; by right).
    destruct (iv_pt _ _ Hi x (Hsub x Hx')) as [Hxf Hxh].
    rewrite (sp_frame _ _ _ _ _ _ Hs); [by apply Hbel|done|done| |by eapply step_old].
    intros [H|[[-> | ->] _]]; [by eapply Hdis|by apply Hni|by apply Hapt, Hsub].
  - split_and!; [done| |done|done]. apply (sp_held _ _ _ _ _ _ Hs); auto.
  - intros j Hj. rewrite (sp_frame _ _ _ _ _ _ Hs); [apply Hz; lia|done|lia| |by eapply step_old].
    intros [H|[_ H]]; [|lia]. apply Hapt, Hsub, elem_of_app. by left.
  - by apply sharable_app in Hsh as [_ Hsh].
Qed.

(** A step that takes the tables [N] and otherwise writes entry [i] of [t] and of
    its clone [a]. *)
Lemma step_intro own s s' t a i N pre :
  Inv own s -> t ∈ PT -> (a ∉ PT) -> (a = croot -> i < 256) ->
  tracks_owners frames (fs_cow s') (own_plus own pre) -> fs_guard s' = fs_guard s ++ N -> NoDup N ->
  (forall x, x ∈ N -> frame_addr x /\ ~ held (fs_cow s) x) ->
  (forall x, frame_addr x -> held (fs_cow s') x <-> held (fs_cow s) x \/ x ∈ N) ->
  (forall x j, frame_addr x -> 0 <= j < 512 -> ~ ((x = t \/ x = a) /\ j = i) -> (x ∉ N) -> fs_mem s' (slot x j) = fs_mem s (slot x j)) ->
  fs_mem s' (slot t i) = m0 (slot t i) \/ fs_mem s' (slot t i) = shared (m0 (slot t i)) ->
  wider s s' -> Step own s s' (writes t a i 1 []) N pre.
Proof.
  intros Hi Ht Ha Hr Htr Hg Hnd Hf Hh Hm Hti Hw. destruct (iv_root _ _ Hi) as (Hr1 & Hr2 & Hr3).
  assert (forall x, held (fs_cow s) x -> x ∉ N) as Hold by (intros x Hx HN; by destruct (Hf x HN)). constructor; try done.
  - constructor; [done|..].
    + intros x Hx. destruct (iv_pt _ _ Hi x Hx). split; [done|]. apply Hh; auto.
    + intros x j Hx Hj. destruct (iv_pt _ _ Hi x Hx). destruct (decide (x = t /\ j = i)) as [[-> ->]|Hne]; [done|].
      rewrite Hm; [by apply (iv_mem _ _ Hi)|done|done| |by apply Hold]. intros [[-> | ->] ->]; tauto.
    + split_and!; [done|apply Hh; auto|done].
    + rewrite Hm; [apply (iv_golden _ _ Hi)|done|lia| |by apply Hold]. intros [[-> | ->] <-]; [done|lia].
  - intros x j Hx Hj HW. apply Hm; [done|done|]. intros [H ->]. apply HW. right. split; [done|lia].
Qed.

Lemma two_writes m t a i v u x j :
  frame_addr t -> frame_addr a -> frame_addr x -> 0 <= i < 512 -> 0 <= j < 512 -> t <> a ->
  twrite (twrite m t i v) a i u (slot x j) =
    if decide (x = a /\ j = i) then u else if decide (x = t /\ j = i) then v else m (slot x j).
Proof.
  intros Ht Ha Hx Hi Hj Hne. destruct (decide (x = a /\ j = i)) as [[-> ->]|Hna]; [apply twrite_eq|].
  rewrite twrite_ne by naive_solver. destruct (decide (x = t /\ j = i)) as [[-> ->]|Hnt]; [apply twrite_eq|].
  by rewrite twrite_ne by naive_solver.
Qed.

Lemma demoted_ok s v bytes :
  v + bytes < U64 -> exists s', demoted s v bytes = Done s' /\ fs_mem s' = fs_mem s /\ fs_cow s' = fs_cow s /\
    fs_guard s' = fs_guard s /\ wider s s' /\ (0 <= v -> spans s' v (v + bytes)).
Proof.
  intros Hv. unfold demoted. rewrite add64_ok by done. cbn [mbind outcome_bind]. eexists. split; [done|].
  cbn [fs_mem fs_cow fs_guard]. split_and!; try done.
  - intros lo hi (H1 & H2 & H3). split_and!; cbn; lia.
  - intros _. split_and!; cbn; lia.
Qed.

(** The store part of sharing: parent and child get the same entry, the frame one more owner. *)
Lemma share_spec l ix own s t a n i :
  Inv own s -> ready l ix own s t a (S n) i -> kind l (m0 (slot t i)) = Mapped ->
  exists s', share_entry s t a i (virt_at (ix ++ [i])) (page_bytes l) = Done s' /\
    Step own s s' (writes t a i 1 []) [] [frame_of (entry_addr (m0 (slot t i)))] /\
    entry_cloned m0 (cloned m0 (pred l)) l ix s' t a i [].
Proof.
  intros Hi [(Hl & Hi0 & Hin) Hp Ht Hsub Hnd Hpar Hbel (Ha & Hah & Hapt & Har) Hz Hsh] Hk.
  pose proof (kind_mapped _ _ Hk) as Hl3. pose proof (width_512 l) as Hw. rewrite Nat2Z.inj_succ in *.
  destruct (iv_pt _ _ Hi t Ht) as [Htf Hth]. assert (t <> a) as Hne by congruence.
  unfold share_entry. rewrite (Hpar i) by lia. set (e := m0 (slot t i)) in *. rewrite twrite_eq.
  fold (shared e). rewrite shared_child, shared_addr.
  unfold todo_pages in Hsh. cbn [gather] in Hsh. fold e in Hsh. unfold entry_pages in Hsh at 1. rewrite Hk in Hsh.
  destruct Hsh as (Hs1 & Hs2 & _).
  destruct (share_owners frames _ own (entry_addr e) (iv_tracks _ _ Hi) (entry_addr_frame e) Hs1 Hs2) as (c' & -> & Ht' & Hh').
  cbn [mbind outcome_bind]. set (m' := twrite (twrite _ _ _ _) _ _ _).
  assert (forall x j, frame_addr x -> 0 <= j < 512 -> m' (slot x j) =
    if decide (x = a /\ j = i) then shared e else if decide (x = t /\ j = i) then shared e else fs_mem s (slot x j)) as Hm'
    by (intros; apply two_writes; (done || lia)).
  assert (exists s', (if is_writable e then demoted (with_cow (with_mem s m') c') (virt_at (ix ++ [i])) (page_bytes l)
     else Done (with_cow (with_mem s m') c')) = Done s' /\ fs_mem s' = m' /\ fs_cow s' = c' /\ fs_guard s' = fs_guard s /\
     wider s s' /\ (is_writable e = true -> spans s' (virt_at (ix ++ [i])) (virt_at (ix ++ [i]) + page_bytes l)))
    as (s' & -> & Em & Ec & Eg & Hwd & Hsp).
  { destruct (is_writable e); [|exists (with_cow (with_mem s m') c'); split_and!; try done; by intros lo hi].
    destruct l as [|l']; [lia|].
    pose proof (virt_at_bound l' (ix ++ [i]) (path_ok_snoc l' ix i Hp (proj2 Hl) ltac:(lia))). pose proof (page_bytes_bound _ Hl3).
    destruct (demoted_ok (with_cow (with_mem s m') c') (virt_at (ix ++ [i])) (page_bytes (S l'))) as (s' & H1 & H2 & H3 & H4 & H5 & H6);
      [unfold U64; lia|]. exists s'. split_and!; try done. intros _. apply H6. lia. }
  exists s'. split; [done|]. split.
  - apply step_intro; rewrite ?Em, ?Ec; try done.
    + intros E. rewrite (Har E) in Hl3. lia.
    + by rewrite Eg, app_nil_r.
    + constructor.
    + by intros x ?%not_elem_of_nil.
    + intros x Hx. rewrite Hh', elem_of_nil by done. tauto.
    + intros x j Hx Hj HW _. rewrite Hm' by done. by rewrite !decide_False by naive_solver.
    + right. rewrite Hm' by (done || lia). rewrite decide_False by naive_solver. by rewrite decide_True.
  - unfold entry_cloned. fold e. rewrite Hk, Em, !Hm' by (done || lia). rewrite (decide_False (P := t = a /\ i = i)) by naive_solver.
    rewrite !decide_True by done. done.
Qed.

(** A new table for the child: the frame was not in use, so neither check fires. *)
Lemma new_table_spec l ix own s t a n i :
  Inv own s -> ready l ix own s t a (S n) i ->
  exists r s', new_table alloc s croot golden t a i = Done (r, s') /\
    match r with
    | Err e => e = OutOfMemory /\ Step own s s' (writes t a i 1 []) [] []
    | Ok a' => Step own s s' (writes t a i 1 []) [a'] [] /\ a' <> a /\ (a' ∉ PT) /\ a' <> croot /\
        fs_mem s' (slot t i) = m0 (slot t i) /\ fs_mem s' (slot a i) = entry_new a' (table_flags (m0 (slot t i))) /\
        forall j, 0 <= j < 512 -> fs_mem s' (slot a' j) = 0
    end.
Proof.
  intros Hi [(Hl & Hi0 & Hin) Hp Ht Hsub Hnd Hpar Hbel (Ha & Hah & Hapt & Har) Hz Hsh].
  pose proof (width_512 l) as Hw. rewrite Nat2Z.inj_succ in *. destruct (iv_pt _ _ Hi t Ht) as [Htf Hth].
  destruct (iv_root _ _ Hi) as (Hr1 & Hr2 & Hr3). unfold new_table.
  destruct (ta_alloc _ _ _ Hlaw (fs_cow s) own (iv_tracks _ _ Hi)) as (r & c' & -> & Ht' & Hh' & Hr). cbn [mbind outcome_bind].
  assert (a = croot -> i < 256) as Har' by (intros E; rewrite (Har E) in Hin; cbn in Hin; lia).
  destruct r as [b|].
  2: { eexists _, _. split; [done|]. split; [done|]. apply step_intro; try done; cbn.
    - by rewrite app_nil_r.
    - constructor.
    - by intros x ?%not_elem_of_nil.
    - intros x Hx. rewrite Hh', elem_of_nil by done. naive_solver.
    - left. apply Hpar. lia.
    - by intros lo hi. }
  destruct (Hr b eq_refl) as [Hb Hbn]. assert (b <> croot) as Hbr by congruence. assert (b <> a) as Hba by congruence.
  assert (b ∉ PT) as Hbp. { intros H. by destruct (iv_pt _ _ Hi b H). }
  rewrite (proj2 (Z.eqb_neq _ _) Hbr). cbn [with_cow guard_push with_mem fs_mem].
  rewrite !(table_clear_out (fs_mem s) b) by (done || lia || congruence).
  rewrite (iv_golden _ _ Hi), Z.eqb_refl, (Hpar i) by lia. cbn [negb]. set (v := entry_new b _).
  set (m' := twrite (table_clear (fs_mem s) b) a i v).
  assert (forall x j, frame_addr x -> 0 <= j < 512 -> ~ (x = a /\ j = i) -> x <> b -> m' (slot x j) = fs_mem s (slot x j)) as Hm'.
  { intros x j Hx Hj H1 H2. unfold m'. rewrite twrite_ne by (done || lia || naive_solver). by rewrite table_clear_out. }
  assert (m' (slot t i) = m0 (slot t i)) as Et.
  { rewrite Hm'; [apply Hpar; lia|done|lia| |congruence]. intros [-> _]. done. }
  eexists _, _. split; [done|]. cbn. split_and!; try done.
  - apply step_intro; try done; cbn.
    + apply NoDup_singleton.
    + intros x ->%list_elem_of_singleton. done.
    + intros x Hx. rewrite Hh', list_elem_of_singleton by done. naive_solver.
    + intros x j Hx Hj HW HN. rewrite list_elem_of_singleton in HN. apply Hm'; [done|done|naive_solver|done].
    + left. by rewrite Et.
    + by intros lo hi.
  - apply twrite_eq.
  - intros j Hj. unfold m'. rewrite twrite_ne by (done || lia || naive_solver). by apply table_clear_in.
Qed.

(** What cloning a table, or a range of its entries, comes to. *)
Definition clone_spec (l : nat) (rec : list Z -> Z -> Z -> ForkState -> outcome (result unit ForkError * ForkState)) : Prop :=
  forall own ix t a s, Inv own s -> ready l ix own s t a (width l) 0 ->
  exists r s' N pre, rec ix t a s = Done (r, s') /\ Step own s s' (writes t a 0 (width l) (tabs l m0 t)) N pre /\
    match r with
    | Ok _ => pre = pages l m0 t /\ cloned m0 l ix s' t a N
    | Err e => e = OutOfMemory /\ pre `prefix_of` pages l m0 t
    end.

(** The table below an entry is ready once its clone is allocated. *)
Lemma ready_below l ix own s s' t a n i t' a' :
  Inv own s -> ready (S l) ix own s t a (S n) i -> kind (S l) (m0 (slot t i)) = Table t' ->
  Step own s s' (writes t a i 1 []) [a'] [] -> (a' ∉ PT) -> a' <> croot ->
  (forall j, 0 <= j < 512 -> fs_mem s' (slot a' j) = 0) ->
  ready l (ix ++ [i]) own s' t' a' (width l) 0.
Proof.
  intros Hi [(Hl & Hi0 & Hin) Hp Ht Hsub Hnd Hpar Hbel (Ha & Hah & Hapt & Har) Hz Hsh] Hk Hs Hn Hr Hz'.
  unfold todo, todo_pages in *. cbn [gather pred] in *. set (R := gather _ n (i + 1)) in *. set (Q := gather _ n (i + 1)) in Hsh.
  unfold entry_tabs in Hsub, Hnd, Hbel. unfold entry_pages in Hsh. rewrite Hk in *. rewrite Nat2Z.inj_succ in *.
  destruct (kind_table _ _ _ Hk) as (_ & _ & Hl2 & _). destruct l as [|l]; [lia|]. pose proof (width_512 (S l)) as Hw.
  pose proof (width_512 (S (S l))) as Hw2.
  assert (forall x j, x ∈ t' :: tabs (S l) m0 t' -> 0 <= j < 512 -> fs_mem s' (slot x j) = m0 (slot x j)) as Hag.
  { intros x j Hx Hj. assert (x ∈ (t' :: tabs (S l) m0 t') ++ R) as Hx' by (apply elem_of_app; by left).
    destruct (iv_pt _ _ Hi x (Hsub x Hx')) as [Hxf Hxh]. rewrite (sp_frame _ _ _ _ _ _ Hs); [by apply Hbel|done|done| |by eapply step_old].
    intros [H%not_elem_of_nil|[[-> | ->] _]]; [done|by apply NoDup_cons in Hnd as [Hnd _]|by apply Hapt, Hsub]. }
  apply NoDup_cons in Hnd as [_ Hnd]. apply NoDup_app in Hnd as (Hnd & _).
  destruct (sp_fresh _ _ _ _ _ _ Hs a' (list_elem_of_here _ _)) as [Hfa _].
  constructor; rewrite ?todo_tabs, ?todo_pages_all.
  - lia.
  - apply path_ok_snoc; [done|lia|lia].
  - apply Hsub. apply list_elem_of_here.
  - intros x Hx. apply Hsub, elem_of_app. left. by apply list_elem_of_further.
  - done.
  - intros j Hj. apply Hag; [apply list_elem_of_here|lia].
  - intros x j Hx Hj. apply Hag; [by apply list_elem_of_further|done].
  - split_and!; [done| |done|done]. apply (sp_held _ _ _ _ _ _ Hs); [done|]. right. apply list_elem_of_here.
  - intros j Hj. apply Hz'. lia.
  - by apply sharable_app in Hsh as [Hsh _].
Qed.

(** Cloning the table below an entry keeps the entry. *)
Lemma below_keeps l ix own s s1 s2 t a n i t' a' N pre :
  Inv own s -> ready (S l) ix own s t a (S n) i -> kind (S l) (m0 (slot t i)) = Table t' ->
  Step own s s1 (writes t a i 1 []) [a'] [] -> Step own s1 s2 (writes t' a' 0 (width l) (tabs l m0 t')) N pre ->
  fs_mem s2 (slot t i) = fs_mem s1 (slot t i) /\ fs_mem s2 (slot a i) = fs_mem s1 (slot a i).
Proof.
  intros Hi [(_ & Hi0 & Hin) _ Ht Hsub Hnd _ _ (Ha & Hah & Hapt & _) _ _] Hk Hs Hs2. pose proof (width_512 (S l)) as Hw.
  destruct (iv_pt _ _ Hi t Ht) as [Htf Hth]. unfold todo in Hsub, Hnd. cbn [gather pred] in Hsub, Hnd.
  unfold entry_tabs in Hsub at 1, Hnd at 1. rewrite Hk in Hsub, Hnd. apply NoDup_cons in Hnd as [Hnd _].
  assert (forall x, held (fs_cow s) x -> frame_addr x -> (x ∉ t' :: tabs l m0 t') -> fs_mem s2 (slot x i) = fs_mem s1 (slot x i)) as Hkeep.
  { intros x Hx Hxf Hxt. apply (sp_frame _ _ _ _ _ _ Hs2); [done|lia| |].
    - intros [H|[[-> | ->] _]]; [by apply Hxt, list_elem_of_further|apply Hxt, list_elem_of_here|].
      by destruct (sp_fresh _ _ _ _ _ _ Hs a' (list_elem_of_here _ _)).
    - eapply step_old; [done|]. apply (sp_held _ _ _ _ _ _ Hs); auto. }
  split; apply Hkeep; try done; intros H; [apply Hnd, elem_of_app; by left|apply Hapt, Hsub, elem_of_app; by left].
Qed.

(** An entry that is cloned stays so while the rest of its table is. *)
Lemma entry_kept l ix own s s1 s2 t a n i P N pre :
  Inv own s -> ready (S l) ix own s t a (S n) i ->
  Step own s s1 (writes t a i 1 (entry_tabs (tabs l m0) (S l) (m0 (slot t i)))) P (entry_pages (pages l m0) (S l) (m0 (slot t i))) ->
  Step (own_plus own (entry_pages (pages l m0) (S l) (m0 (slot t i)))) s1 s2 (writes t a (i + 1) n (todo (S l) t n (i + 1))) N pre ->
  entry_cloned m0 (cloned m0 l) (S l) ix s1 t a i P -> entry_cloned m0 (cloned m0 l) (S l) ix s2 t a i P.
Proof.
  intros Hi [(_ & Hi0 & Hin) _ Ht Hsub Hnd _ _ (Ha & Hah & Hapt & _) _ _] Hs Hs2. pose proof (width_512 (S l)) as Hw.
  destruct (iv_pt _ _ Hi t Ht) as [Htf Hth]. unfold todo in Hsub, Hnd. cbn [gather pred] in Hsub, Hnd.
  fold (todo (S l) t n (i + 1)) in Hsub, Hnd. set (E := entry_tabs _ _ _) in *.
  apply NoDup_cons in Hnd as [Hnt Hnd]. apply NoDup_app in Hnd as (_ & Hdis & _).
  apply entry_cloned_stable.
  - intros ix' t' a' M Hc Hag. apply (cloned_stable m0 l ix' s1); [apply (sp_wider _ _ _ _ _ _ Hs2)|done|done].
  - apply (sp_wider _ _ _ _ _ _ Hs2).
  - apply (sp_frame _ _ _ _ _ _ Hs2); [done|lia| |]; [intros [H|[_ H]]; [|lia]; apply Hnt, elem_of_app; by right|].
    eapply step_old; [done|]. apply (sp_held _ _ _ _ _ _ Hs); auto.
  - apply (sp_frame _ _ _ _ _ _ Hs2); [done|lia| |]; [intros [H|[_ H]]; [|lia]; apply Hapt, Hsub, elem_of_app; by right|].
    eapply step_old; [done|]. apply (sp_held _ _ _ _ _ _ Hs); auto.
  - intros x j [Hx|Hx] Hj.
    + assert (x ∈ PT) as Hxp by (apply Hsub, elem_of_app; by left). destruct (iv_pt _ _ Hi x Hxp) as [Hxf Hxh].
      apply (sp_frame _ _ _ _ _ _ Hs2); [done|done| |].
      * intros [H|[[-> | ->] _]]; [by eapply Hdis|apply Hnt, elem_of_app; by left|done].
      * eapply step_old; [done|]. apply (sp_held _ _ _ _ _ _ Hs); auto.
    + destruct (sp_fresh _ _ _ _ _ _ Hs x Hx) as [Hxf Hxn]. apply (sp_frame _ _ _ _ _ _ Hs2); [done|done| |].
      * intros [H|[[-> | ->] _]]; [|done..]. apply Hxn, (iv_pt _ _ Hi x), Hsub, elem_of_app. by right.
      * eapply step_old; [done|]. apply (sp_held _ _ _ _ _ _ Hs); auto.
Qed.

Lemma clone_entry_spec l rec own ix s t a n i :
  clone_spec l rec -> Inv own s -> ready (S l) ix own s t a (S n) i ->
  exists r s' P pre, clone_entry alloc rec (S l) croot golden ix t a i s = Done (r, s') /\
    Step own s s' (writes t a i 1 (entry_tabs (tabs l m0) (S l) (m0 (slot t i)))) P pre /\
    match r with
    | Ok _ => pre = entry_pages (pages l m0) (S l) (m0 (slot t i)) /\ entry_cloned m0 (cloned m0 l) (S l) ix s' t a i P
    | Err e => e = OutOfMemory /\ pre `prefix_of` entry_pages (pages l m0) (S l) (m0 (slot t i))
    end.
Proof.
  intros Hrec Hi Hrd. pose proof Hrd as [(_ & Hi0 & _) _ Ht _ _ Hpar _ (Ha & Hah & Hapt & _) Hz _]. unfold clone_entry.
  rewrite (Hpar i) by lia. unfold entry_tabs, entry_pages, entry_cloned. destruct (kind (S l) (m0 (slot t i))) as [| |t'] eqn:Hk.
  - exists (Ok tt), s, [], []. split; [done|]. split; [by apply step_refl|]. split_and!; [done|apply Hpar; lia|apply Hz; lia|done].
  - destruct (share_spec _ _ _ _ _ _ _ _ Hi Hrd Hk) as (s' & -> & Hs & Hc). cbn [mbind outcome_bind].
    eexists (Ok tt), s', [], _. split; [done|]. split; [exact Hs|]. split; [done|]. unfold entry_cloned in Hc. by rewrite Hk in Hc.
  - destruct (new_table_spec _ _ _ _ _ _ _ _ Hi Hrd) as (r & s1 & -> & Hr). cbn [mbind outcome_bind]. destruct r as [a'|e].
    2: { destruct Hr as [-> Hs]. eexists (Err OutOfMemory), s1, [], []. split; [done|]. split; [|split; [done|by exists (pages l m0 t')]].
      apply (step_weaken _ _ _ _ _ _ _ Hs). intros x j [H%not_elem_of_nil|H]; [done|by right]. }
    destruct Hr as (Hs & Hna & Hnp & Hnr & Et & Ea & Hz').
    pose proof (ready_below _ _ _ _ _ _ _ _ _ _ _ Hi Hrd Hk Hs Hnp Hnr Hz') as Hrd'.
    destruct (Hrec own (ix ++ [i]) t' a' s1 (sp_inv _ _ _ _ _ _ Hs) Hrd') as (r & s2 & N & pre & -> & Hs2 & Hr).
    exists r, s2, (a' :: N), pre. split; [done|].
    assert (Step own s s2 (writes t a i 1 (t' :: tabs l m0 t')) ([a'] ++ N) ([] ++ pre)) as Hst.
    { apply (step_trans _ _ _ _ _ _ _ _ _ _ _ Hs Hs2).
      - intros x j [H%not_elem_of_nil|H]; [done|by right].
      - intros x j [H|[[-> | ->] _]]; [left; left; by apply list_elem_of_further|left; left; apply list_elem_of_here|right; apply list_elem_of_here]. }
    split; [exact Hst|]. destruct r as [u|e]; [|done]. destruct Hr as [-> Hcl]. split; [done|].
    destruct (below_keeps _ _ _ _ _ _ _ _ _ _ _ _ _ _ Hi Hrd Hk Hs Hs2) as [Kt Ka]. rewrite Kt, Ka. split; [done|].
    exists a', N. split_and!; [done|apply (sp_fresh _ _ _ _ _ _ Hs a'), list_elem_of_here|done|done].
Qed.

(** The loop: the entries from [i] on are cloned one by one. *)
Lemma clone_entries_spec l rec own ix s t a n i :
  clone_spec l rec -> Inv own s -> ready (S l) ix own s t a n i ->
  exists r s' N pre, clone_entries alloc rec (S l) croot golden ix t a n i s = Done (r, s') /\
    Step own s s' (writes t a i n (todo (S l) t n i)) N pre /\
    match r with
    | Ok _ => pre = todo_pages (S l) t n i /\ exists P, N = gather P n i /\
        forall j, i <= j < i + Z.of_nat n -> entry_cloned m0 (cloned m0 l) (S l) ix s' t a j (P j)
    | Err e => e = OutOfMemory /\ pre `prefix_of` todo_pages (S l) t n i
    end.
Proof.
  intros Hrec. revert own s i. induction n as [|n IH]; intros own s i Hi Hrd.
  { exists (Ok tt), s, [], []. split; [done|]. split; [by apply step_refl|]. split; [done|]. exists (fun _ => []).
    split; [done|]. intros j Hj. lia. }
  destruct (clone_entry_spec _ _ _ _ _ _ _ _ _ Hrec Hi Hrd) as (r & s1 & P & pre & E & Hs & Hr).
  cbn [clone_entries]. rewrite E. cbn [mbind outcome_bind]. unfold todo, todo_pages. cbn [gather pred].
  fold (todo (S l) t n (i + 1)) (todo_pages (S l) t n (i + 1)). destruct r as [u|e].
  2: { destruct Hr as [-> Hpre]. eexists (Err OutOfMemory), s1, P, pre. split; [done|]. split; [|split; [done|by apply prefix_app_r]].
    apply (step_weaken _ _ _ _ _ _ _ Hs). intros x j [H|[H Hj]]; [left; apply elem_of_app; by left|right; split; [done|lia]]. }
  destruct Hr as [-> Hc]. pose proof (ready_next _ _ _ _ _ _ _ _ _ _ Hi Hrd Hs) as Hrd1.
  destruct (IH _ _ _ (sp_inv _ _ _ _ _ _ Hs) Hrd1) as (r & s2 & N & pre & -> & Hs2 & Hr). clear IH.
  exists r, s2, (P ++ N), (entry_pages (pages l m0) (S l) (m0 (slot t i)) ++ pre). split; [done|]. split.
  { apply (step_trans _ _ _ _ _ _ _ _ _ _ _ Hs Hs2).
    - intros x j [H|[H Hj]]; [left; apply elem_of_app; by left|right; split; [done|lia]].
    - intros x j [H|[H Hj]]; left; [left; apply elem_of_app; by right|right; split; [done|lia]]. }
  destruct r as [v|e]; [|by destruct Hr as [-> ?]; split; [|apply prefix_app]].
  destruct Hr as (-> & Q & -> & HQ). split; [done|]. exists (fun j => if decide (j = i) then P else Q j). split.
  { rewrite decide_True by done. f_equal. apply gather_ext. intros j Hj. by rewrite decide_False by lia. }
  intros j Hj. destruct (decide (j = i)) as [->|]; [|apply HQ; lia].
  by apply (entry_kept _ _ _ _ _ _ _ _ _ _ _ _ _ Hi Hrd Hs Hs2).
Qed.

Theorem clone_table_spec l : clone_spec l (clone_table alloc l croot golden).
Proof.
  induction l as [|l IH]; intros own ix t a s Hi Hrd; [destruct Hrd as [(Hl & _) _ _ _ _ _ _ _ _ _]; lia|].
  cbn [clone_table]. destruct (clone_entries_spec l _ own ix s t a (width (S l)) 0 IH Hi Hrd) as (r & s' & N & pre & H1 & H2 & H3).
  exists r, s', N, pre. done.
Qed.
End walk.
