(* ===== verification/ForkSys.v ===== *)
(** * The clone of an address space

    [clone_address_space_cow] of [Fork] as a whole: on success the child's tables
    are a clone of the parent's, on failure what was taken is given back. *)
From S2P Require Import Prelude Zone PageDb FrameAlloc Paging Cow Fork ForkInv ForkWalk.

(** ** Address translation *)

(** A mapping once its page is shared. *)
Definition share_leaf (le : nat * Z) : nat * Z := (le.1, shared le.2).

(** No entry of the user half of the top table has the bit that means a large page
    below; the processor reserves it there. *)
Definition top_ok (m : TableMem) (root : Z) : Prop := forall i, 0 <= i < 256 -> is_huge (m (slot root i)) = false.

Lemma walk_kind l m t v :
  (S l <= 4)%nat -> (S l = 4%nat -> is_huge (m (slot t (level_index (S l) v))) = false) ->
  walk (S l) m t v = match kind (S l) (m (slot t (level_index (S l) v))) with
    | Absent => None | Mapped => Some (S l, m (slot t (level_index (S l) v))) | Table c => walk l m c v end.
Proof.
  intros Hl Hh. set (e := m (slot t _)) in *. cbn [walk]. fold e. unfold kind.
  destruct (is_present e); cbn [negb]; [|done]. destruct l as [|l]; [done|]. cbn [Nat.eqb orb].
  destruct (Nat.leb_spec (S (S l)) 3) as [H3|H3]; cbn [andb].
  - destruct (is_huge e); [|done]. destruct l as [|[|l]]; [done|done|lia].
  - by rewrite Hh by lia.
Qed.

Lemma index_width l v : 0 <= v < 2 ^ 47 -> 0 <= level_index l v < Z.of_nat (width l).
Proof.
  intros Hv. pose proof (level_index_bound l v). unfold width. destruct (Nat.eqb_spec l 4) as [->|]; [|lia].
  pose proof (user_index v Hv). lia.
Qed.

Lemma path_snoc l v : (l <= 3)%nat -> path (S l) v ++ [level_index (S l) v] = path l v.
Proof. intros Hl. destruct l as [|[|[|[|l]]]]; try done; lia. Qed.

(** Parent and clone translate as the parent did, without write permission, and
    the shootdown covers what was writable. *)
Lemma cloned_walk m0 l v : forall s t a N,
  0 <= v < 2 ^ 47 -> (l <= 4)%nat -> (l = 4%nat -> top_ok m0 t) -> cloned m0 l (path l v) s t a N ->
  walk l (fs_mem s) t v = share_leaf <$> walk l m0 t v /\ walk l (fs_mem s) a v = share_leaf <$> walk l m0 t v /\
  forall k e, walk l m0 t v = Some (k, e) -> is_writable e = true -> spans s v (v + 1).
Proof.
  induction l as [|l IH]; intros s t a N Hv Hl Htop; [done|]. intros (P & -> & HP).
  pose proof (index_width (S l) v Hv) as Hix. specialize (HP _ Hix). unfold entry_cloned in HP.
  set (i := level_index (S l) v) in *. assert (S l = 4%nat -> is_huge (m0 (slot t i)) = false) as Hh.
  { intros E. apply Htop; [done|]. rewrite E in Hix. cbn in Hix. lia. }
  rewrite (walk_kind l m0) by done. fold i. destruct (kind (S l) (m0 (slot t i))) as [| |t'] eqn:Hk.
  - destruct HP as (Et & Ea & _). rewrite !walk_kind; fold i; rewrite ?Et, ?Ea, ?Hk; done.
  - destruct HP as (Et & Ea & _ & Hsp). rewrite !walk_kind; fold i; rewrite ?Et, ?Ea, ?kind_shared, ?Hk, ?shared_huge; try done.
    split_and!; try done. intros k e [= <- <-] Hwr. pose proof (kind_mapped _ _ Hk) as Hl3.
    unfold i in Hsp. rewrite path_snoc in Hsp by lia. destruct (Hsp Hwr) as (H1 & H2 & H3).
    pose proof (virt_at_path (S l) v ltac:(lia) Hv) as Hb. cbn [pred] in Hb. split_and!; [done|lia|lia].
  - destruct HP as (Et & a' & N & _ & Ha' & Ea & Hrec). destruct (table_entry a' (m0 (slot t i)) Ha') as (_ & _ & Hhe).
    rewrite !walk_kind; fold i; rewrite ?Et, ?Ea, ?(kind_new_table _ _ _ _ Hk Ha'), ?Hk, ?Hhe; try done.
    unfold i in Hrec. rewrite path_snoc in Hrec by lia. apply (IH s t' a' N Hv ltac:(lia)); [lia|done].
Qed.

(** The tables below the clone are the new ones. *)
Lemma cloned_tabs m0 l : forall ix s t a N, cloned m0 l ix s t a N -> tabs l (fs_mem s) a = N.
Proof.
  induction l as [|l IH]; intros ix s t a N; cbn [cloned tabs]; [done|]. intros (P & -> & HP). apply gather_ext.
  intros j Hj. specialize (HP j Hj). unfold entry_cloned, entry_tabs in *. destruct (kind (S l) (m0 (slot t j))) as [| |t'] eqn:Hk.
  - destruct HP as (_ & -> & ->). done.
  - destruct HP as (_ & -> & -> & _). by rewrite kind_shared, Hk.
  - destruct HP as (_ & a' & N & -> & Ha' & -> & Hrec). rewrite (kind_new_table _ _ _ _ Hk Ha'). f_equal. by eapply IH.
Qed.

(** The parent keeps its tables. *)
Lemma cloned_parent m0 l : forall ix s t a N, cloned m0 l ix s t a N -> tabs l (fs_mem s) t = tabs l m0 t.
Proof.
  induction l as [|l IH]; intros ix s t a N; cbn [cloned tabs]; [done|]. intros (P & -> & HP). apply gather_ext.
  intros j Hj. specialize (HP j Hj). unfold entry_cloned, entry_tabs in *. destruct (kind (S l) (m0 (slot t j))) as [| |t'] eqn:Hk.
  - destruct HP as (-> & _). by rewrite Hk.
  - destruct HP as (-> & _). by rewrite kind_shared, Hk.
  - destruct HP as (-> & a' & N & _ & _ & _ & Hrec). rewrite Hk. f_equal. by eapply IH.
Qed.

Lemma cloned_top m0 ix s t a N : top_ok m0 t -> cloned m0 4 ix s t a N -> top_ok (fs_mem s) t /\ top_ok (fs_mem s) a.
Proof.
  intros Htop (P & _ & HP).
  assert (forall i, 0 <= i < 256 -> is_huge (fs_mem s (slot t i)) = false /\ is_huge (fs_mem s (slot a i)) = false) as H.
  { intros i Hi. specialize (HP i ltac:(cbn; lia)). specialize (Htop i Hi). unfold entry_cloned in HP.
    destruct (kind 4 (m0 (slot t i))) as [| |t'].
    - by destruct HP as (-> & -> & _).
    - destruct HP as (-> & -> & _). by rewrite shared_huge.
    - destruct HP as (-> & a' & N' & _ & Ha' & -> & _). by destruct (table_entry a' (m0 (slot t i)) Ha') as (_ & _ & ->). }
  split; intros i Hi; by destruct (H i Hi).
Qed.

(** Entries that are as before, or shared, translate as before. *)
Lemma kept_walk m0 m l v : forall t,
  0 <= v < 2 ^ 47 -> (l <= 4)%nat -> (l = 4%nat -> top_ok m0 t) ->
  (forall x j, x ∈ t :: tabs l m0 t -> 0 <= j < 512 -> m (slot x j) = m0 (slot x j) \/ m (slot x j) = shared (m0 (slot x j))) ->
  walk l m t v = walk l m0 t v \/ walk l m t v = share_leaf <$> walk l m0 t v.
Proof.
  induction l as [|l IH]; intros t Hv Hl Htop Hm; [by left|].
  pose proof (index_width (S l) v Hv) as Hix. set (i := level_index (S l) v) in *.
  assert (S l = 4%nat -> is_huge (m0 (slot t i)) = false) as Hh.
  { intros E. apply Htop; [done|]. rewrite E in Hix. cbn in Hix. lia. }
  pose proof (width_512 (S l)) as Hw. pose proof (Hm t i (list_elem_of_here _ _) ltac:(lia)) as Hi.
  rewrite !walk_kind; fold i; [|done|done|done|destruct Hi as [-> | ->]; by rewrite ?shared_huge].
  assert (kind (S l) (m (slot t i)) = kind (S l) (m0 (slot t i))) as -> by (destruct Hi as [-> | ->]; by rewrite ?kind_shared).
  destruct (kind (S l) (m0 (slot t i))) as [| |t'] eqn:Hk; [by left|destruct Hi as [-> | ->]; [by left|by right]|].
  apply IH; [done|lia|lia|]. intros x j Hx. apply Hm, list_elem_of_further. cbn [tabs]. apply elem_of_gather. exists i. split; [lia|].
  unfold entry_tabs. by rewrite Hk.
Qed.

Lemma shared_translate m m0 root t v :
  walk 4 m t v = walk 4 m0 root v \/ walk 4 m t v = share_leaf <$> walk 4 m0 root v ->
  translate m t v = translate m0 root v.
Proof.
  rewrite !translate_walk. intros [-> | ->]; [done|]. f_equal. destruct (walk 4 m0 root v) as [[k e]|]; [|done].
  cbn. by rewrite shared_addr.
Qed.

(** ** The whole clone *)

Lemma copy_kernel_at m root a x j :
  frame_addr root -> frame_addr a -> frame_addr x -> 0 <= j < 512 ->
  copy_kernel m root a (slot x j) = if decide (x = a /\ 256 <= j) then m (slot root j) else m (slot x j).
Proof.
  intros (p & -> & _) (q & -> & _) (r & -> & _) Hj. unfold copy_kernel, slot.
  destruct (decide (r * 4096 = q * 4096 /\ 256 <= j)) as [[E Hge]|Hne].
  - rewrite (proj2 (Z.leb_le _ _)), (proj2 (Z.ltb_lt _ _)) by lia. cbn [andb]. f_equal. lia.
  - destruct (Z.leb_spec (q * 4096 + 8 * 256) (r * 4096 + 8 * j)); [|done].
    destruct (Z.ltb_spec (r * 4096 + 8 * j) (q * 4096 + 8 * 512)); [|done]. exfalso. apply Hne. lia.
Qed.

Lemma filter_absent (a : Z) (l : list Z) : a ∉ l -> filter (fun f => f <> a) l = l.
Proof.
  induction l as [|x l IH]; [done|]. rewrite not_elem_of_cons. intros [Hx Hl]. rewrite filter_cons_True by congruence. by rewrite IH.
Qed.

(** The parent's tables: distinct frames in use. *)
Definition parent_ok (m : TableMem) (c : Cow) (root : Z) : Prop :=
  top_ok m root /\ NoDup (root :: tabs 4 m root) /\ forall x, x ∈ root :: tabs 4 m root -> frame_addr x /\ held c x.

Record fork_done (frames : Z) (m : TableMem) (c : Cow) (own : Z -> Z) (root : Z) (s : ForkState) (child : Z) (fr : list Z) : Prop := {
  fd_clone : cloned m 4 [] s root child fr;
  fd_tables : fr = tabs 4 (fs_mem s) child /\ NoDup (child :: fr) /\ tabs 4 (fs_mem s) root = tabs 4 m root;
  fd_top : top_ok (fs_mem s) root /\ top_ok (fs_mem s) child;
  fd_fresh : forall x, x ∈ child :: fr -> frame_addr x /\ ~ held c x /\ table_frame (fs_cow s) x;
  fd_held : forall x, frame_addr x -> held (fs_cow s) x <-> held c x \/ x ∈ child :: fr;
  fd_owners : tracks_owners frames (fs_cow s) (own_plus own (pages 4 m root));
  fd_user : forall v, 0 <= v < 2 ^ 47 ->
    walk 4 (fs_mem s) root v = share_leaf <$> walk 4 m root v /\ walk 4 (fs_mem s) child v = share_leaf <$> walk 4 m root v;
  fd_shootdown : forall v k e, 0 <= v < 2 ^ 47 -> walk 4 m root v = Some (k, e) -> is_writable e = true ->
    fs_any s = true /\ fs_min s <= v < fs_max s;
  fd_kernel : forall j, 256 <= j < 512 ->
    fs_mem s (slot child j) = m (slot root j) /\ fs_mem s (slot root j) = m (slot root j);
  fd_others : forall x j, frame_addr x -> 0 <= j < 512 -> (x ∉ root :: tabs 4 m root) -> (x ∉ child :: fr) ->
    fs_mem s (slot x j) = m (slot x j)
}.

Record fork_failed (frames : Z) (m : TableMem) (c : Cow) (own : Z -> Z) (root : Z) (s : ForkState) : Prop := {
  ff_held : forall x, frame_addr x -> held (fs_cow s) x <-> held c x;
  ff_owners : exists pre, pre `prefix_of` pages 4 m root /\ tracks_owners frames (fs_cow s) (own_plus own pre);
  ff_user : forall v, 0 <= v < 2 ^ 47 ->
    walk 4 (fs_mem s) root v = walk 4 m root v \/ walk 4 (fs_mem s) root v = share_leaf <$> walk 4 m root v;
  ff_others : forall x j, frame_addr x -> 0 <= j < 512 -> (x ∉ root :: tabs 4 m root) -> held c x ->
    fs_mem s (slot x j) = m (slot x j)
}.

Section top.
Context (frames : Z) (alloc : Cow -> outcome (option Z * Cow)) (free : Z -> Cow -> outcome Cow)
  (Hlaw : table_alloc_lawful frames alloc free) (m : TableMem) (c : Cow) (own : Z -> Z) (root : Z)
  (Ht : tracks_owners frames c own) (Hp : parent_ok m c root) (Hsh : sharable own (pages 4 m root)).

(** The state in which the walk begins, with the child's top table [a]. *)
Definition begun (c1 : Cow) (watch a : Z) : ForkState :=
  {| fs_mem := copy_kernel (table_clear m a) root a; fs_cow := c1; fs_guard := [a]; fs_watch := watch;
     fs_min := U64_MAX; fs_max := 0; fs_any := false |}.

Lemma begun_mem c1 w a x j : frame_addr a -> a <> root -> frame_addr x -> 0 <= j < 512 ->
  fs_mem (begun c1 w a) (slot x j) =
    if decide (x = a) then (if decide (256 <= j) then m (slot root j) else 0) else m (slot x j).
Proof.
  intros Ha Hne Hx Hj. destruct Hp as (_ & _ & Hpt). destruct (Hpt root (list_elem_of_here _ _)) as [Hr _].
  cbn [begun fs_mem]. rewrite copy_kernel_at by done. destruct (decide (x = a)) as [->|Hxa].
  - destruct (decide (256 <= j)).
    + rewrite decide_True by done. rewrite table_clear_out by (done || congruence). done.
    + rewrite decide_False by lia. by apply table_clear_in.
  - rewrite decide_False by tauto. by apply table_clear_out.
Qed.

Lemma begun_ready c1 w a :
  tracks_owners frames c1 own -> frame_addr a -> ~ held c a -> (forall x, frame_addr x -> held c1 x <-> held c x \/ Some a = Some x) ->
  Inv frames m (root :: tabs 4 m root) a (m (slot root 256)) own (begun c1 w a) /\
  ready m (root :: tabs 4 m root) a 4 [] own (begun c1 w a) root a (width 4) 0.
Proof.
  intros Ht1 Ha Hna Hh. destruct Hp as (Htop & Hnd & Hpt). set (PT := root :: tabs 4 m root) in *.
  assert (a ∉ PT) as HaP by (intros H; by destruct (Hpt a H)).
  assert (a <> root) as Har by (intros ->; apply HaP, list_elem_of_here).
  assert (held c1 a) as Hah by (apply Hh; auto).
  assert (forall x j, x ∈ PT -> 0 <= j < 512 -> fs_mem (begun c1 w a) (slot x j) = m (slot x j)) as Hm.
  { intros x j Hx Hj. destruct (Hpt x Hx). rewrite begun_mem by done. rewrite decide_False by congruence. done. }
  split; constructor; rewrite ?todo_tabs, ?todo_pages_all; try done.
  - intros x Hx. destruct (Hpt x Hx). split; [done|]. apply Hh; auto.
  - intros x j Hx Hj. left. by apply Hm.
  - rewrite begun_mem by done. by rewrite decide_True.
  - cbn; lia.
  - unfold path_ok. split_and!; [by intros k ?%not_elem_of_nil|done|done].
  - apply list_elem_of_here.
  - intros x Hx. by apply list_elem_of_further.
  - intros j Hj. apply Hm; [apply list_elem_of_here|]. cbn in Hj. lia.
  - intros x j Hx. apply Hm. by apply list_elem_of_further.
  - intros j Hj. cbn in Hj. rewrite begun_mem by (done || lia). rewrite decide_True, decide_False by (done || lia). done.
Qed.

(** The frames of the guard are in use and unowned. *)
Lemma taken_unowned pre x : pre `prefix_of` pages 4 m root -> frame_addr x -> ~ held c x -> own_plus own pre (frame_of x) = 0.
Proof.
  intros [k E] Hx Hn. rewrite E in Hsh. apply sharable_app in Hsh as [Hs _]. apply sharable_unowned; [done|]. by eapply unheld_unowned.
Qed.

Abbreviation PT := (root :: tabs 4 m root).

Lemma guard_drop_spec s pre N :
  tracks_owners frames (fs_cow s) (own_plus own pre) -> pre `prefix_of` pages 4 m root -> fs_guard s = N -> NoDup N ->
  (forall x, x ∈ N -> frame_addr x /\ ~ held c x) -> (forall x, frame_addr x -> held (fs_cow s) x <-> held c x \/ x ∈ N) ->
  exists s', guard_drop free s = Done s' /\ fs_mem s' = fs_mem s /\ fs_watch s' = 0 /\
    tracks_owners frames (fs_cow s') (own_plus own pre) /\ forall x, frame_addr x -> held (fs_cow s') x <-> held c x.
Proof.
  intros Ht1 Hpre Hg Hnd Hfresh Hh. unfold guard_drop. cbn [with_watch fs_guard fs_cow]. rewrite Hg.
  destruct (free_all_spec frames alloc free _ N (fs_cow s) Hlaw Ht1 Hnd) as (c' & -> & Ht2 & Hh2).
  { intros x Hx. destruct (Hfresh x Hx) as [Hf Hn]. split_and!; [done|apply Hh; auto|by apply taken_unowned]. }
  cbn [mbind outcome_bind]. eexists. split; [done|]. cbn. split_and!; [done|done|done|].
  intros x Hx. rewrite Hh2, Hh by done. split; [tauto|]. intros H. split; [by left|]. intros HN. by destruct (Hfresh x HN).
Qed.

Lemma child_not_parent a : ~ held c a -> (a ∉ PT) /\ a <> root.
Proof.
  intros Hna. destruct Hp as (_ & _ & Hpt).
  split; [intros H|intros ->]; [by destruct (Hpt a H)|by destruct (Hpt root (list_elem_of_here _ _))].
Qed.

(** What the walk from [begun] to [s] took and wrote. *)
Section walked.
Context (c1 : Cow) (w a : Z) (s : ForkState) (N pre : list Z)
  (Ha : frame_addr a) (Hna : ~ held c a) (Hh : forall x, frame_addr x -> held c1 x <-> held c x \/ Some a = Some x)
  (Hs : Step frames m PT a (m (slot root 256)) own (begun c1 w a) s (writes root a 0 (width 4) (tabs 4 m root)) N pre)
  (Hpre : pre `prefix_of` pages 4 m root).

Lemma walked_guard : fs_guard s = a :: N /\ NoDup (a :: N).
Proof.
  split; [by rewrite (sp_guard _ _ _ _ _ _ _ _ _ _ _ Hs)|]. apply NoDup_cons. split; [|apply (sp_nodup _ _ _ _ _ _ _ _ _ _ _ Hs)].
  eapply step_old; [done|]. apply Hh; auto.
Qed.

Lemma walked_fresh x : x ∈ a :: N -> frame_addr x /\ ~ held c x.
Proof.
  intros [-> |Hx]%elem_of_cons; [done|]. destruct (sp_fresh _ _ _ _ _ _ _ _ _ _ _ Hs x Hx) as [Hf Hn]. split; [done|].
  intros H. apply Hn. cbn [begun fs_cow]. apply Hh; auto.
Qed.

Lemma walked_held x : frame_addr x -> held (fs_cow s) x <-> held c x \/ x ∈ a :: N.
Proof.
  intros Hx. rewrite (sp_held _ _ _ _ _ _ _ _ _ _ _ Hs x Hx). cbn [begun fs_cow]. rewrite Hh, elem_of_cons by done.
  assert (Some a = Some x <-> x = a) as -> by (split; congruence). tauto.
Qed.

Lemma walked_others x j :
  frame_addr x -> 0 <= j < 512 -> (x ∉ PT) -> (x ∉ a :: N) -> fs_mem s (slot x j) = m (slot x j).
Proof.
  intros Hx Hj Hxp Hxn. destruct (child_not_parent a Hna) as [_ Har]. rewrite not_elem_of_cons in Hxp, Hxn.
  rewrite (sp_frame _ _ _ _ _ _ _ _ _ _ _ Hs); [|done|done| |tauto].
  - rewrite begun_mem by done. rewrite decide_False; tauto.
  - intros [H|[[H|H] _]]; tauto.
Qed.

Lemma walked_kernel j : 256 <= j < 512 -> fs_mem s (slot a j) = m (slot root j) /\ fs_mem s (slot root j) = m (slot root j).
Proof.
  intros Hj. destruct (child_not_parent a Hna) as [HaP Har]. pose proof Hp as (_ & Hnd & Hpt).
  destruct (Hpt root (list_elem_of_here _ _)) as [Hrf Hrh]. apply NoDup_cons in Hnd as [Hnr _].
  split; (rewrite (sp_frame _ _ _ _ _ _ _ _ _ _ _ Hs); [rewrite begun_mem by (done || lia)|done|lia| |]).
  - by rewrite !decide_True by (done || lia).
  - intros [H|[_ H]]; [by apply HaP, list_elem_of_further|]. cbn in H. lia.
  - eapply step_old; [done|]. apply Hh; auto.
  - by rewrite decide_False by done.
  - intros [H|[_ H]]; [done|]. cbn in H. lia.
  - eapply step_old; [done|]. apply Hh; auto.
Qed.

(** The walk came to its end: the child. *)
Lemma walked_done : pre = pages 4 m root -> cloned m 4 [] s root a N ->
  fork_done frames m c own root (with_watch (with_cow s (mark_tables (fs_cow s) (fs_guard s))) 0) a (filter (fun f => f <> a) (fs_guard s)).
Proof.
  intros E Hcl. destruct walked_guard as [-> Hnd]. assert (filter (fun f => f <> a) (a :: N) = N) as ->.
  { apply NoDup_cons in Hnd as [HaN _]. rewrite filter_cons_False by tauto. by apply filter_absent. }
  destruct (mark_tables_spec frames (own_plus own pre) (a :: N) (fs_cow s)) as (Ht2 & Hh2 & Hpg).
  { apply (sp_inv _ _ _ _ _ _ _ _ _ _ _ Hs). }
  { intros x Hx. destruct (walked_fresh x Hx) as [Hf Hn]. split_and!; [done|apply walked_held; auto|by apply taken_unowned]. }
  destruct Hp as (Htop & _). pose proof (fun v Hv => cloned_walk m 4 v s root a N Hv (le_n 4) (fun _ => Htop) Hcl) as Hwalk.
  constructor; cbn [with_watch with_cow fs_mem fs_cow fs_any fs_min fs_max].
  - apply (cloned_stable m 4 [] s); [by intros lo hi|exact Hcl|by intros x j _ _].
  - by rewrite (cloned_tabs _ _ _ _ _ _ _ Hcl), (cloned_parent _ _ _ _ _ _ _ Hcl).
  - by apply (cloned_top m [] s root a N).
  - intros x Hx. destruct (walked_fresh x Hx). split_and!; [done|done|]. apply Hpg; auto.
  - intros x Hx. by rewrite Hh2, walked_held.
  - by rewrite <- E.
  - intros v Hv. destruct (Hwalk v Hv) as (H1 & H2 & _). done.
  - intros v k e Hv Hw Hwr. destruct (Hwalk v Hv) as (_ & _ & H3). destruct (H3 k e Hw Hwr) as (? & ? & ?). split; [done|lia].
  - apply walked_kernel.
  - apply walked_others.
Qed.

(** The walk ran out of memory: the tables are given back. *)
Lemma walked_failed : exists s', guard_drop free s = Done s' /\ fs_watch s' = 0 /\ fork_failed frames m c own root s'.
Proof.
  destruct walked_guard as [Hg Hnd]. pose proof (sp_inv _ _ _ _ _ _ _ _ _ _ _ Hs) as Hi.
  destruct (guard_drop_spec s pre (a :: N) (iv_tracks _ _ _ _ _ _ _ Hi) Hpre Hg Hnd walked_fresh walked_held)
    as (s' & Hd & Em & Ew & Ht2 & Hh2).
  exists s'. split_and!; [done|done|]. destruct Hp as (Htop & _). constructor; rewrite ?Em.
  - done.
  - by exists pre.
  - intros v Hv. apply kept_walk; [done|lia|done|]. apply (iv_mem _ _ _ _ _ _ _ Hi).
  - intros x j Hx Hj Hxp Hxh. apply walked_others; [done|done|done|]. intros H. by destruct (walked_fresh x H).
Qed.
End walked.
End top.

Definition fork_result (frames : Z) (m : TableMem) (c : Cow) (own : Z -> Z) (root : Z)
    (r : result (Z * list Z) ForkError) (s : ForkState) : Prop :=
  fs_watch s = 0 /\
  match r with
  | Ok (child, fr) => fork_done frames m c own root s child fr /\
      forall v, 0 <= v < 2 ^ 47 -> translate (fs_mem s) child v = translate m root v
  | Err e => e = OutOfMemory /\ fork_failed frames m c own root s /\
      forall v, 0 <= v < 2 ^ 47 -> translate (fs_mem s) root v = translate m root v
  end.

Lemma clone_address_space_cow_spec frames alloc free m c own root watch :
  table_alloc_lawful frames alloc free -> tracks_owners frames c own -> parent_ok m c root -> sharable own (pages 4 m root) ->
  exists r s, clone_address_space_cow alloc free m c root watch = Done (r, s) /\ fork_result frames m c own root r s.
Proof.
  intros Hlaw Ht Hp Hsh. unfold fork_result, clone_address_space_cow. cbn [fs_cow].
  destruct (ta_alloc _ _ _ Hlaw c own Ht) as (r & c1 & -> & Ht1 & Hh & Hr). cbn [mbind outcome_bind]. destruct r as [a|].
  2: { eexists (Err OutOfMemory), _. split; [done|]. split; [done|]. split; [done|]. split; [|done]. constructor; cbn [fs_mem fs_cow with_cow with_watch].
    - intros x Hx. rewrite Hh by done. split; [by intros [?|?]|by left].
    - exists []. split; [apply prefix_nil|done].
    - by left.
    - done. }
  destruct (Hr a eq_refl) as [Ha Hna]. cbn [with_watch guard_push with_cow with_mem fs_mem fs_guard app fs_cow fs_min fs_max fs_any fs_watch].
  destruct (begun_ready frames m c own root Hp Hsh c1 a a Ht1 Ha Hna Hh) as [Hi Hrd].
  assert (copy_kernel (table_clear m a) root a (slot a 256) = m (slot root 256)) as ->.
  { destruct (child_not_parent m c root Hp a Hna) as [_ Har].
    etransitivity; [exact (begun_mem m c root Hp c1 a a a 256 Ha Har Ha ltac:(lia))|]. by rewrite !decide_True by done. }
  destruct (clone_table_spec frames alloc free Hlaw m _ a _ 4 own [] root a _ Hi Hrd) as (r & s & N & pre & E & Hs & Hres).
  change (with_mem _ _) with (begun m root c1 a a). rewrite E. cbn [mbind outcome_bind]. destruct r as [u|e].
  - destruct Hres as [Epre Hcl]. eexists (Ok _), _. split; [done|]. split; [done|].
    assert (pre `prefix_of` pages 4 m root) as Hpre by (by rewrite Epre).
    pose proof (walked_done frames m c own root Ht Hp Hsh c1 a a s N pre Ha Hna Hh Hs Hpre Epre Hcl) as Hd. split; [exact Hd|].
    intros v Hv. apply shared_translate. right. apply (fd_user _ _ _ _ _ _ _ _ Hd v Hv).
  - destruct Hres as [-> Hpre].
    destruct (walked_failed frames alloc free Hlaw m c own root Ht Hp Hsh c1 a a s N pre Ha Hna Hh Hs Hpre) as (s' & -> & Hw & Hf).
    cbn [mbind outcome_bind]. eexists (Err _), s'. split; [done|]. split_and!; [done|done|done|].
    intros v Hv. apply shared_translate. apply (ff_user _ _ _ _ _ _ Hf v Hv).
Qed.

(** C10.  The address space of a forked process.  With an allocator that hands
    out only frames not in use, and pages whose owner counts do not overflow,
    the clone returns, and no check for corrupted tables fires.  On success the
    child's tables are new frames, exactly those reported, and marked as page
    tables; every user address is mapped in parent and child alike, to the frame
    it had in the parent, read-only and copy-on-write; each page has one more
    owner per mapping; every page that lost its write permission is in the range
    that is flushed on the other processors; the kernel half is the parent's; no
    other table is written.  When memory runs out all tables taken are given
    back, and the parent still maps every address to the same frame. *)
Theorem fork_clone_correct frames alloc free m c own root watch (Hlaw : table_alloc_lawful frames alloc free)
    (Ht : tracks_owners frames c own) (Hp : parent_ok m c root) (Hsh : sharable own (pages 4 m root)) :
  exists r s, clone_address_space_cow alloc free m c root watch = Done (r, s) /\ fork_result frames m c own root r s.
Proof. by apply clone_address_space_cow_spec. Qed.

(** An allocator over a pool of frames. *)
Fixpoint pool_alloc (pool : list Z) (c : Cow) : outcome (option Z * Cow) :=
  match pool, cw_pdb c with
  | a :: pool, Some w =>
      match pdb_get (pw_db w) a with
      | Some pf => if is_free pf then Done (Some a, mkCow (cw_counts c) (Some (mark_allocated w a 0))) else pool_alloc pool c
      | None => pool_alloc pool c
      end
  | _, _ => Done (None, c)
  end.

Definition pool_free (a : Z) (c : Cow) : outcome Cow :=
  match cw_pdb c with
  | Some w => Done (mkCow (cw_counts c) (Some (on_frame w a freed_frame)))
  | None => Done c
  end.

Lemma mark_allocated_update w a o pf :
  0 <= a -> pdb_get (pw_db w) a = Some pf ->
  frame_update w (mark_allocated w a o) a (fun f => set_owner o (set_refcount 1 (set_flags PF_ALLOCATED f))).
Proof.
  intros Ha Hpf. unfold mark_allocated. rewrite Hpf. split; [by eapply db_ok_update|]. intros b Hb. by apply pdb_get_update.
Qed.

Lemma pool_lawful frames pool : Forall frame_addr pool -> table_alloc_lawful frames (pool_alloc pool) pool_free.
Proof.
  intros Hpool. constructor.
  - intros c own Ht. pose proof Ht as [(w & Hw & _) _].
    assert (exists r c', Done (None, c) = Done (r, c') /\ tracks_owners frames c' own /\
      (forall x, frame_addr x -> held c' x <-> held c x \/ r = Some x) /\ (forall a, r = Some a -> frame_addr a /\ ~ held c a)) as Hnone.
    { exists None, c. split_and!; try done. intros x _. split; [by left|by intros [|]]. }
    induction Hpool as [|a pool Ha Hpool IH]; cbn [pool_alloc]; [done|]. rewrite Hw.
    destruct (pdb_get (pw_db w) a) as [pf|] eqn:Hpf; [|done]. destruct (is_free pf) eqn:Hfree; [|done].
    assert (~ held c a) as Hn.
    { intros (w0 & pf0 & Hw0 & Hpf0 & Hall). rewrite Hw in Hw0. simplify_eq. by rewrite (has_flag_free _ Hall) in Hfree. }
    pose proof (mark_allocated_update w a 0 pf (frame_addr_nonneg a Ha) Hpf) as Hu.
    eexists (Some a), _. split; [done|]. split_and!.
    + eapply tracks_unowned; try done. by eapply unheld_unowned.
    + intros x Hx. rewrite (held_update c w _ a _ _ x Hw Hu Ha Hx). destruct (decide (x = a)) as [->|Hxa].
      * split; [by right|]. intros _. by exists pf.
      * split; [by left|]. intros [?|[= ->]]; done.
    + by intros x [= <-].
  - intros c own a Ht Ha Hh H0. destruct Hh as (w & pf & Hw & Hpf & _). unfold pool_free. rewrite Hw. eexists. split; [done|].
    pose proof (frame_update_on w a freed_frame (frame_addr_nonneg a Ha)) as Hu. split; [by eapply tracks_unowned|].
    intros x Hx. rewrite (held_update c w _ a _ _ x Hw Hu Ha Hx). destruct (decide (x = a)) as [->|Hxa]; [|tauto].
    split; [by intros (pf0 & _ & ?)|by intros [_ ?]].
Qed.

(** A parent with one writable page, frame 1, and two tables at the third level. *)
Definition fork_demo_cow : Cow :=
  mkCow CowTracker_new (Some (foldl (fun w p => mark_allocated w (p * 4096) 1)
    (pdb_init PdbWorld_new (replicate 16 PageFrame_new) 16) [0; 1; 2; 3; 4; 5; 6])).

Definition fork_demo_own : Z -> Z := with_owners (fun _ => 0) 1 1.

Definition fork_demo_map : TableMem := fun a =>
  if a =? slot 0x2000 0 then entry_new 0x3000 (Z.lor PRESENT USER)
  else if a =? slot 0x2000 1 then entry_new 0x6000 (Z.lor PRESENT USER)
  else if a =? slot 0x3000 0 then entry_new 0x4000 (Z.lor PRESENT USER)
  else if a =? slot 0x4000 0 then entry_new 0x5000 (Z.lor PRESENT USER)
  else if a =? slot 0x5000 3 then entry_new 0x1000 (Z.lor (Z.lor PRESENT USER) WRITABLE)
  else 0.

Ltac demo_frame := match goal with |- frame_addr ?a => exists (a / 4096); split_and!; [reflexivity|vm_compute; discriminate|vm_compute; discriminate] end.

Lemma fork_demo_tracks : tracks_owners 16 fork_demo_cow fork_demo_own.
Proof.
  split.
  - eexists. split; [reflexivity|]. by split; vm_compute.
  - intros f Hf. unfold owned, fork_demo_own, with_owners. destruct (Z.eqb_spec f 1) as [->|]; [|apply lookup_empty].
    split_and!; [right; split; [done|apply lookup_empty]|lia|done|]. eexists _, _. split; [reflexivity|].
    split; [vm_compute; reflexivity|]. by split_and!.
Qed.

Lemma fork_demo_parent : parent_ok fork_demo_map fork_demo_cow 0x2000.
Proof.
  assert (tabs 4 fork_demo_map 0x2000 = [0x3000; 0x4000; 0x5000; 0x6000]) as Htabs by (vm_compute; reflexivity).
  split_and!.
  - intros i Hi. unfold fork_demo_map, slot. repeat (case_match; [vm_compute; reflexivity|]). done.
  - rewrite Htabs. apply (bool_decide_unpack _). vm_compute. done.
  - rewrite Htabs. apply Forall_forall. repeat (apply Forall_cons_2; [split; [demo_frame|]|]); [..|apply Forall_nil_2].
    all: eexists _, _; split; [reflexivity|]; split; [vm_compute; reflexivity|done].
Qed.

Lemma fork_demo_pages : pages 4 fork_demo_map 0x2000 = [1].
Proof. vm_compute. reflexivity. Qed.

Lemma fork_demo_sharable : sharable fork_demo_own (pages 4 fork_demo_map 0x2000).
Proof. rewrite fork_demo_pages. by vm_compute. Qed.

Definition fork_demo_pool : list Z := [0x7000; 0x8000; 0x9000; 0xA000; 0xB000].

Lemma fork_demo_lawful : table_alloc_lawful 16 (pool_alloc fork_demo_pool) pool_free.
Proof. apply pool_lawful. repeat constructor; demo_frame. Qed.

Lemma fork_clone_correct_witness :
  exists child fr s, clone_address_space_cow (pool_alloc fork_demo_pool) pool_free fork_demo_map fork_demo_cow 0x2000 0 = Done (Ok (child, fr), s) /\
    (child ∉ fr) /\ translate (fs_mem s) child 0x3000 = Done (Some 0x1000) /\
    tracks_owners 16 (fs_cow s) (own_plus fork_demo_own [1]).
Proof.
  destruct (fork_clone_correct 16 (pool_alloc fork_demo_pool) pool_free) with (m := fork_demo_map) (c := fork_demo_cow)
    (own := fork_demo_own) (root := 0x2000) (watch := 0) as (r & s & E & _ & Hr).
  - apply fork_demo_lawful.
  - apply fork_demo_tracks.
  - apply fork_demo_parent.
  - apply fork_demo_sharable.
  - destruct r as [[child fr]|e].
    + destruct Hr as [[_ (_ & Hnd & _) _ _ _ Hown _ _ _ _] Hv]. exists child, fr, s. split; [exact E|].
      split; [by apply NoDup_cons in Hnd as [? _]|]. split; [rewrite Hv by lia; vm_compute; reflexivity|].
      by rewrite fork_demo_pages in Hown.
    + exfalso. apply (f_equal (fun o => match o with Done (Err _, _) => true | _ => false end)) in E. vm_compute in E. discriminate.
Defined.

(** A clone that runs out of memory after it shared a page leaves the page with
    an owner too many: the tracker will not free it when its process is gone. *)
Example fork_oom_leaks :
  match clone_address_space_cow (pool_alloc [0x7000; 0x8000; 0x9000; 0xA000]) pool_free fork_demo_map fork_demo_cow 0x2000 0 with
  | Done (Err OutOfMemory, s) => ref_count (fs_cow s) 0x1000 =? 2
  | _ => false
  end = true.
Proof. vm_compute. reflexivity. Qed.
