(* ===== verification/ForkFault.v ===== *)
(** * Writes after a fork

    [clone_address_space_cow] and [handle_cow_fault] together: after the fork a
    write by parent or child gives the writer a frame of its own, and the other
    keeps its mappings and the contents of its pages. *)
From S2P Require Import Prelude Zone PageDb FrameAlloc Paging Cow CowFault Fork ForkInv ForkWalk ForkSys.

(** ** Tables on the way to a page *)

Lemma tabs_below l m t i t' :
  0 <= i < Z.of_nat (width (S l)) -> kind (S l) (m (slot t i)) = Table t' -> (t' :: tabs l m t') `sublist_of` tabs (S l) m t.
Proof.
  intros Hi Hk. cbn [tabs]. etransitivity; [|apply (gather_sublist _ _ 0 i); lia]. cbn beta. unfold entry_tabs. by rewrite Hk.
Qed.

(** A walk depends on the tables of the tree only. *)
Lemma walk_agree m m' l v : forall t,
  0 <= v < 2 ^ 47 -> (l <= 4)%nat -> (l = 4%nat -> top_ok m t) ->
  (forall x j, x ∈ t :: tabs l m t -> 0 <= j < 512 -> m' (slot x j) = m (slot x j)) -> walk l m' t v = walk l m t v.
Proof.
  induction l as [|l IH]; intros t Hv Hl Htop Hm; [done|]. pose proof (index_width (S l) v Hv) as Hix. pose proof (width_512 (S l)) as Hw.
  set (i := level_index (S l) v) in *. assert (m' (slot t i) = m (slot t i)) as E by (apply Hm; [apply list_elem_of_here|lia]).
  assert (S l = 4%nat -> is_huge (m (slot t i)) = false) as Hh.
  { intros E4. apply Htop; [done|]. rewrite E4 in Hix. cbn in Hix. lia. }
  rewrite !walk_kind; fold i; rewrite ?E; try done. destruct (kind (S l) (m (slot t i))) as [| |t'] eqn:Hk; [done|done|].
  apply IH; [done|lia|lia|]. intros x j Hx. apply Hm, list_elem_of_further.
  eapply elem_of_sublist; [exact Hx|]. by eapply tabs_below.
Qed.

(** The mapped page is one of the tree's. *)
Lemma walk_page m l v k e : forall t,
  0 <= v < 2 ^ 47 -> (l <= 4)%nat -> (l = 4%nat -> top_ok m t) -> walk l m t v = Some (k, e) ->
  frame_of (entry_addr e) ∈ pages l m t.
Proof.
  induction l as [|l IH]; intros t Hv Hl Htop; [done|]. pose proof (index_width (S l) v Hv) as Hix.
  set (i := level_index (S l) v) in *. assert (S l = 4%nat -> is_huge (m (slot t i)) = false) as Hh.
  { intros E4. apply Htop; [done|]. rewrite E4 in Hix. cbn in Hix. lia. }
  rewrite walk_kind by done. fold i. intros Hwk. cbn [pages]. apply elem_of_gather. exists i. split; [lia|].
  unfold entry_pages. destruct (kind (S l) (m (slot t i))) as [| |t']; [done| |].
  - injection Hwk as _ <-. apply list_elem_of_here.
  - apply IH; [done|lia|lia|done].
Qed.

(** The last table of a walk that ends in a small page, as the fault handler finds it. *)
Lemma walk_fault_pt m t v e :
  0 <= v < 2 ^ 47 -> top_ok m t -> walk 4 m t v = Some (1%nat, e) ->
  exists t3 t2 pt, fault_pt m t v = Some pt /\ m (slot pt (level_index 1 v)) = e /\ is_present e = true /\
    [t3; t2; pt] `sublist_of` tabs 4 m t /\
    forall m', (forall x, x ∈ [t; t3; t2] -> forall j, 0 <= j < 512 -> m' (slot x j) = m (slot x j)) ->
      is_present (m' (slot pt (level_index 1 v))) = true -> walk 4 m' t v = Some (1%nat, m' (slot pt (level_index 1 v))).
Proof.
  intros Hv Htop. pose proof (index_width 4 v Hv) as H4. pose proof (index_width 3 v Hv) as H3. pose proof (index_width 2 v Hv) as H2.
  cbn [width Nat.eqb] in H4, H3, H2. pose proof (Htop (level_index 4 v) ltac:(lia)) as Hh4.
  set (e4 := m (slot t (level_index 4 v))) in *. set (t3 := entry_addr e4).
  set (e3 := m (slot t3 (level_index 3 v))). set (t2 := entry_addr e3).
  set (e2 := m (slot t2 (level_index 2 v))). set (pt := entry_addr e2).
  unfold fault_pt. fold e4. fold t3. fold e3. fold t2. fold e2. fold pt. cbn [walk Nat.eqb]. fold e4. fold t3. fold e3. fold t2. fold e2. fold pt.
  destruct (is_present e4) eqn:P4; cbn [negb]; [|done]. rewrite Hh4.
  destruct (is_present e3) eqn:P3, (is_huge e3) eqn:Hh3; cbn [negb orb]; try done.
  destruct (is_present e2) eqn:P2, (is_huge e2) eqn:Hh2; cbn [negb orb]; try done.
  destruct (is_present (m (slot pt (level_index 1 v)))) eqn:P1; cbn [negb]; [|done]. intros [= <-].
  assert (kind 4 e4 = Table t3) as K4 by (unfold kind; by rewrite P4).
  assert (kind 3 e3 = Table t2) as K3 by (unfold kind; by rewrite P3, Hh3).
  assert (kind 2 e2 = Table pt) as K2 by (unfold kind; by rewrite P2, Hh2).
  exists t3, t2, pt. split_and!; try done.
  - etransitivity; [|apply (tabs_below 3 m t (level_index 4 v)); [cbn; lia|exact K4]]. apply sublist_skip.
    etransitivity; [|apply (tabs_below 2 m t3 (level_index 3 v)); [cbn; lia|exact K3]]. apply sublist_skip.
    etransitivity; [|apply (tabs_below 1 m t2 (level_index 2 v)); [cbn; lia|exact K2]]. apply sublist_skip, sublist_nil_l.
  - intros m' Hm' P1'. rewrite (Hm' t), (Hm' t3), (Hm' t2) by (set_solver || lia). fold e4. fold t3. fold e3. fold t2. fold e2. fold pt.
    rewrite P4, Hh4, P3, Hh3, P2, Hh2, P1'. done.
Qed.

(** ** The fault *)

Ltac in_list := repeat first [apply list_elem_of_here | apply list_elem_of_further].

(** A write fault on a shared page of the tree at [t], when the tree at [o] has
    other tables: [o] sees nothing of it. *)
Lemma fault_isolated {D} alloc frames m c own (data : Z -> D) t o v e :
  alloc_lawful alloc frames -> tracks_owners frames c own -> 0 <= v < 2 ^ 47 -> top_ok m t -> top_ok m o ->
  NoDup (t :: tabs 4 m t) -> (forall x, x ∈ t :: tabs 4 m t -> frame_addr x /\ (x ∉ o :: tabs 4 m o)) ->
  (forall x, x ∈ o :: tabs 4 m o -> frame_addr x) ->
  walk 4 m t v = Some (1%nat, e) -> is_cow e = true -> 2 <= own (frame_of (entry_addr e)) ->
  exists handled m' c' data', handle_cow_fault alloc m c data t v = Done (handled, m', c', data') /\
    (forall u, 0 <= u < 2 ^ 47 -> walk 4 m' o u = walk 4 m o u) /\
    (forall f, own f <> 0 -> data' f = data f) /\
    (handled = true -> exists e', walk 4 m' t v = Some (1%nat, e') /\ is_writable e' = true /\
       own (frame_of (entry_addr e')) = 0 /\ data' (frame_of (entry_addr e')) = data (frame_of (entry_addr e))) /\
    (handled = false -> exists c1, alloc c1 = Done (None, c')).
Proof.
  intros Hlaw Ht Hv Htop Hotop Hnd Hfr Hofr Hwk Hcow Hn.
  destruct (walk_fault_pt m t v e Hv Htop Hwk) as (t3 & t2 & pt & Hpt & He & Hpr & Hsub & Hnew).
  set (i := level_index 1 v) in *. pose proof (level_index_bound 1 v) as Hi. fold i in Hi.
  assert ([t; t3; t2; pt] `sublist_of` t :: tabs 4 m t) as Hsub' by by apply sublist_skip.
  assert (forall x, x ∈ [t; t3; t2; pt] -> x ∈ t :: tabs 4 m t) as Hin by (intros x Hx; by eapply elem_of_sublist).
  pose proof (sublist_NoDup _ _ Hnd Hsub') as Hnd4. destruct (Hfr pt (Hin pt ltac:(in_list))) as [Hptf Hpto].
  assert (forall e' u, 0 <= u < 2 ^ 47 -> walk 4 (twrite m pt i e') o u = walk 4 m o u) as Hother.
  { intros e' u Hu. apply walk_agree; [done|lia|done|]. intros x j Hx Hj. apply twrite_ne; [done|by apply Hofr|lia|done|]. intros [= -> ->]. done. }
  assert (forall e', is_present e' = true -> walk 4 (twrite m pt i e') t v = Some (1%nat, e')) as Hmine.
  { intros e' Hp'. rewrite (Hnew (twrite m pt i e')); rewrite ?twrite_eq; try done. intros x Hx j Hj.
    apply twrite_ne; [done|apply Hfr, Hin; change [t; t3; t2; pt] with ([t; t3; t2] ++ [pt]); apply elem_of_app; by left|lia|done|]. intros [= -> _].
    change [t; t3; t2; pt] with ([t; t3; t2] ++ [pt]) in Hnd4. apply NoDup_app in Hnd4 as (_ & Hd & _). apply (Hd pt Hx). in_list. }
  destruct (handle_cow_fault_spec alloc frames m c own data t v pt Hlaw Ht Hpt) as (handled & m' & c' & data' & Hrun & _ & Hcopy & Hfail);
    fold i; rewrite ?He; [done|done|lia|]. fold i in Hcopy, Hfail. rewrite He in Hcopy, Hfail.
  exists handled, m', c', data'. split; [done|]. destruct handled.
  - destruct (Hcopy ltac:(lia) eq_refl) as (new & e' & Hfree & _ & _ & -> & <- & Hp' & Hw' & _ & Hd & Hdo).
    split_and!; [by apply Hother| | |done].
    + intros f Hf. apply Hdo. congruence.
    + intros _. exists e'. split_and!; [by apply Hmine|done|done|done].
  - destruct (Hfail eq_refl) as (_ & -> & -> & _ & Hnone). split_and!; done.
Qed.

(** A page of the tree has at least two owners once it is shared. *)
Lemma page_owners own fs f : sharable own fs -> f ∈ fs -> 1 <= own f /\ 2 <= own_plus own fs f.
Proof.
  intros Hs Hf. pose proof (sharable_owned own fs f Hs Hf). split; [done|]. rewrite own_plus_count.
  apply list_elem_of_In in Hf. apply (count_occ_In Z.eq_dec) in Hf. lia.
Qed.

Lemma plus_unowned frames c own fs e :
  tracks_owners frames c own -> own_plus own fs (frame_of (entry_addr e)) = 0 -> own (frame_of (entry_addr e)) = 0.
Proof.
  intros Ht. rewrite own_plus_count. intros H0. destruct (decide (own (frame_of (entry_addr e)) = 0)) as [|Hne]; [done|].
  pose proof (frame_addr_nonneg _ (entry_addr_frame e)) as Hp. pose proof (owned_entry frames c own _ Ht Hp Hne) as (_ & _ & _ & _ & _ & ? & _). lia.
Qed.

(** C9.  Fork isolates.  After a successful fork a write to a page both can
    reach, by either of parent and child, is handled by giving the writer a frame
    nobody owned, with the contents of the page, and a writable mapping; the
    other one's user mappings are those it had after the fork, and no frame that
    had an owner changes.  Only when memory runs out is the fault refused. *)
Theorem fork_isolates {D} frames alloc free falloc m c own root watch child fr s (data : Z -> D) t o v e
    (Hlaw : table_alloc_lawful frames alloc free) (Hfl : alloc_lawful falloc frames) (Ht : tracks_owners frames c own)
    (Hp : parent_ok m c root) (Hsh : sharable own (pages 4 m root))
    (Hrun : clone_address_space_cow alloc free m c root watch = Done (Ok (child, fr), s))
    (Hside : (t = root /\ o = child) \/ (t = child /\ o = root)) (Hv : 0 <= v < 2 ^ 47)
    (Hwk : walk 4 m root v = Some (1%nat, e)) :
  exists handled m' c' data', handle_cow_fault falloc (fs_mem s) (fs_cow s) data t v = Done (handled, m', c', data') /\
    (forall u, 0 <= u < 2 ^ 47 -> walk 4 m' o u = share_leaf <$> walk 4 m root u) /\
    (forall f, 1 <= own f -> data' f = data f) /\
    (handled = true -> exists e', walk 4 m' t v = Some (1%nat, e') /\ is_writable e' = true /\
       own (frame_of (entry_addr e')) = 0 /\ data' (frame_of (entry_addr e')) = data (frame_of (entry_addr e))) /\
    (handled = false -> exists c1, falloc c1 = Done (None, c')).
Proof.
  destruct (clone_address_space_cow_spec frames alloc free m c own root watch Hlaw Ht Hp Hsh) as (r & s0 & Hrun' & _ & Hr).
  rewrite Hrun in Hrun'. injection Hrun' as <- <-. destruct Hr as [[_ (Hfr & Hnd & Hpt) [Hrt Hct] Hfresh _ Hown Huser _ _ _] _].
  pose proof Hp as (Htop & Hndp & Hparent). pose proof (walk_page m 4 v 1 e root Hv (le_n 4) (fun _ => Htop) Hwk) as Hpage.
  destruct (page_owners own (pages 4 m root) _ Hsh Hpage) as [_ Hn].
  assert (forall x, x ∈ root :: tabs 4 m root -> frame_addr x /\ (x ∉ child :: fr)) as Hdis.
  { intros x Hx. destruct (Hparent x Hx). split; [done|]. intros Hin. by destruct (Hfresh x Hin) as (_ & ? & _). }
  assert (forall x, x ∈ child :: fr -> frame_addr x /\ (x ∉ root :: tabs 4 m root)) as Hdis'.
  { intros x Hx. destruct (Hfresh x Hx) as (? & Hnh & _). split; [done|]. intros Hin. by destruct (Hparent x Hin). }
  destruct (fault_isolated falloc frames (fs_mem s) (fs_cow s) _ data t o v (shared e) Hfl Hown Hv)
    as (handled & m' & c' & data' & Hf & Hoth & Hdata & Hok & Hnone).
  1-5: destruct Hside as [[-> ->]|[-> ->]]; rewrite ?Hpt, <- ?Hfr; try done; intros x Hx; first [apply Hdis, Hx|apply Hdis', Hx].
  { destruct (Huser v Hv) as [H1 H2]. destruct Hside as [[-> ->]|[-> ->]]; by rewrite ?H1, ?H2, Hwk. }
  { apply shared_protected. }
  { by rewrite shared_addr. }
  exists handled, m', c', data'. split; [done|]. split_and!.
  - intros u Hu. rewrite Hoth by done. destruct (Huser u Hu). by destruct Hside as [[-> ->]|[-> ->]].
  - intros f H1. apply Hdata. rewrite own_plus_count. lia.
  - intros Hh. destruct (Hok Hh) as (e' & He' & Hw & H0 & Hd). exists e'. rewrite shared_addr in Hd. split_and!; try done.
    by apply (plus_unowned frames c own (pages 4 m root) _ Ht).
  - done.
Qed.

Lemma pool_fault_lawful frames pool :
  Forall (fun a => frame_addr a /\ frame_of a < frames) pool -> alloc_lawful (pool_alloc pool) frames.
Proof.
  intros Hpool c own Ht. pose proof Ht as [(w & Hw & _) _].
  induction Hpool as [|a pool [Ha Hlt] _ IH]; cbn [pool_alloc]; [by exists None, c|]. rewrite Hw.
  destruct (pdb_get (pw_db w) a) as [pf|] eqn:Hpf; [|done]. destruct (is_free pf) eqn:Hfree; [|done].
  assert (own (frame_of a) = 0) as H0.
  { apply (unheld_unowned frames c own a Ht Ha). intros (w0 & pf0 & Hw0 & Hpf0 & Hall). rewrite Hw in Hw0. simplify_eq.
    by rewrite (has_flag_free _ Hall) in Hfree. }
  eexists (Some a), _. split; [done|]. pose proof (frame_addr_of a Ha) as Hfa. pose proof (frame_addr_nonneg a Ha) as Hn.
  exists (frame_of a). pose proof Ha as (p & Hp & Hp0 & Hlim). assert (frame_of a = p) as E by lia.
  split_and!; [lia|lia|by rewrite E|done|]. by apply allocated_owners.
Qed.

Lemma demo_fault_lawful : alloc_lawful (pool_alloc [0xC000]) 16.
Proof. apply pool_fault_lawful. apply Forall_cons_2; [split; [demo_frame|done]|apply Forall_nil_2]. Qed.

Lemma fork_isolates_witness :
  exists child fr s handled m' c' data',
    clone_address_space_cow (pool_alloc fork_demo_pool) pool_free fork_demo_map fork_demo_cow 0x2000 0 = Done (Ok (child, fr), s) /\
    handle_cow_fault (pool_alloc [0xC000]) (fs_mem s) (fs_cow s) (fun f => f) child 0x3000 = Done (handled, m', c', data') /\
    translate m' 0x2000 0x3000 = Done (Some 0x1000) /\ data' 1 = 1 /\
    (handled = true -> exists e', walk 4 m' child 0x3000 = Some (1%nat, e') /\ is_writable e' = true).
Proof.
  assert (match clone_address_space_cow (pool_alloc fork_demo_pool) pool_free fork_demo_map fork_demo_cow 0x2000 0 with
          | Done (Ok _, _) => true | _ => false end = true) as Hok by (vm_compute; reflexivity).
  destruct (clone_address_space_cow _ _ _ _ _ _) as [[[[child fr]|e] s]| |] eqn:E; try discriminate Hok. clear Hok.
  destruct (fork_isolates 16 (pool_alloc fork_demo_pool) pool_free (pool_alloc [0xC000]) fork_demo_map fork_demo_cow fork_demo_own
    0x2000 0 child fr s (fun f : Z => f) child 0x2000 0x3000 (fork_demo_map (slot 0x5000 3)))
    as (handled & m' & c' & data' & Hrun & Hoth & Hdata & Hh & _).
  - apply fork_demo_lawful.
  - apply demo_fault_lawful.
  - apply fork_demo_tracks.
  - apply fork_demo_parent.
  - apply fork_demo_sharable.
  - exact E.
  - right. split; reflexivity.
  - clear E. lia.
  - clear E. vm_compute. reflexivity.
  - exists child, fr, s, handled, m', c', data'. split; [reflexivity|]. clear E. split; [exact Hrun|]. clear Hrun. split.
    + rewrite translate_walk, Hoth by lia. vm_compute. reflexivity.
    + split; [by apply Hdata|]. intros H. destruct (Hh H) as (e' & H1 & H2 & _). eauto.
Defined.
