(* ===== verification/MemSys.v ===== *)
(** * System calls on memory ([kernel/syscall/syscall/src/memory.rs])

    [munmap], [madvise], [mprotect], [brk], [mremap] and anonymous [mmap] of the
    current process, with the operations of [UserAddressSpace]
    ([kernel/proc/proc/src/address_space.rs]) they use: page tables from
    [Paging], areas from [Vma], frames from [Cow].

    The process's lock makes each critical section one step.  The contents of
    frames, the flushes on other processors, the reclaim lists and the statistics
    counters are left out, and so is the file of a mapping. *)
From S2P Require Import Prelude Zone PageDb FrameAlloc Paging Vma Cow.

Definition E_INVAL : Z := -22.
Definition E_NOMEM : Z := -12.

(** What the calls use of the process: [UserAddressSpace], the break, the
    address [allocate_mmap_addr] hands out next, and the frames. *)
Record ProcMem := {
  pm_tables : TableMem;
  pm_root : Z;
  pm_frames : list Z;
  pm_vmas : VmAreaList;
  pm_break : Z;
  pm_next_mmap : Z;
  pm_cow : Cow
}.

Definition with_tables (p : ProcMem) (m : TableMem) : ProcMem :=
  {| pm_tables := m; pm_root := pm_root p; pm_frames := pm_frames p; pm_vmas := pm_vmas p;
     pm_break := pm_break p; pm_next_mmap := pm_next_mmap p; pm_cow := pm_cow p |}.

Definition with_frames (p : ProcMem) (fr : list Z) : ProcMem :=
  {| pm_tables := pm_tables p; pm_root := pm_root p; pm_frames := fr; pm_vmas := pm_vmas p;
     pm_break := pm_break p; pm_next_mmap := pm_next_mmap p; pm_cow := pm_cow p |}.

Definition with_vmas (p : ProcMem) (l : VmAreaList) : ProcMem :=
  {| pm_tables := pm_tables p; pm_root := pm_root p; pm_frames := pm_frames p; pm_vmas := l;
     pm_break := pm_break p; pm_next_mmap := pm_next_mmap p; pm_cow := pm_cow p |}.

Definition with_break (p : ProcMem) (b : Z) : ProcMem :=
  {| pm_tables := pm_tables p; pm_root := pm_root p; pm_frames := pm_frames p; pm_vmas := pm_vmas p;
     pm_break := b; pm_next_mmap := pm_next_mmap p; pm_cow := pm_cow p |}.

Definition with_next_mmap (p : ProcMem) (a : Z) : ProcMem :=
  {| pm_tables := pm_tables p; pm_root := pm_root p; pm_frames := pm_frames p; pm_vmas := pm_vmas p;
     pm_break := pm_break p; pm_next_mmap := a; pm_cow := pm_cow p |}.

Definition with_pcow (p : ProcMem) (c : Cow) : ProcMem :=
  {| pm_tables := pm_tables p; pm_root := pm_root p; pm_frames := pm_frames p; pm_vmas := pm_vmas p;
     pm_break := pm_break p; pm_next_mmap := pm_next_mmap p; pm_cow := c |}.

(** ** Flags *)

Definition PROT_READ : Z := 1.
Definition PROT_WRITE : Z := 2.
Definition PROT_EXEC : Z := 4.
Definition MAP_SHARED : Z := 0x01.
Definition MAP_PRIVATE : Z := 0x02.
Definition MAP_FIXED : Z := 0x10.
Definition MAP_ANONYMOUS : Z := 0x20.
Definition MAP_GROWSDOWN : Z := 0x0100.
Definition MAP_STACK : Z := 0x20000.

(** [MemoryFlags] *)
Definition MF_READ : Z := 1.
Definition MF_WRITE : Z := 2.
Definition MF_EXECUTE : Z := 4.
Definition MF_USER : Z := 8.

Definition mf_contains (flags other : Z) : bool := Z.land flags other =? other.

(** [if cond { flags |= bit }] *)
Definition flag_if (cond : bool) (bit flags : Z) : Z := if cond then Z.lor flags bit else flags.

Definition has_bit (x bit : Z) : bool := negb (Z.land x bit =? 0).

Definition prot_to_memory_flags (prot : Z) : Z :=
  let flags := flag_if (has_bit prot PROT_READ) MF_READ 0 in
  let flags := flag_if (has_bit prot PROT_WRITE) MF_WRITE flags in
  let flags := flag_if (has_bit prot PROT_EXEC) MF_EXECUTE flags in
  Z.lor flags MF_USER.

Definition prot_to_vm_flags (prot map_flags : Z) : Z :=
  let vf := flag_if (has_bit prot PROT_READ) VM_READ 0 in
  let vf := flag_if (has_bit prot PROT_WRITE) VM_WRITE vf in
  let vf := flag_if (has_bit prot PROT_EXEC) VM_EXEC vf in
  let vf := flag_if (has_bit map_flags MAP_SHARED) VM_SHARED vf in
  let vf := flag_if (has_bit map_flags MAP_GROWSDOWN) VM_GROWSDOWN vf in
  flag_if (has_bit map_flags MAP_STACK) VM_STACK vf.

(** ** Pages of the user half *)

Definition USER_TOP : Z := 0x800000000000.
Definition MMAP_MAX_ADDR : Z := 0x7FFFFFFFF000.

Definition unmap_user_page (p : ProcMem) (virt : Z) : option Z * ProcMem :=
  if USER_TOP <=? virt then (None, p)
  else let '(r, m) := unmap (pm_tables p) (pm_root p) virt in (r, with_tables p m).

(** The entry flags for [MemoryFlags] in [set_user_page_flags]. *)
Definition protection (flags : Z) : Z :=
  if (flags =? 0) || (negb (mf_contains flags MF_READ) && negb (mf_contains flags MF_WRITE) && negb (mf_contains flags MF_EXECUTE))
  then Z.lor ACCESSED NO_EXECUTE
  else
    let pt := Z.lor PRESENT ACCESSED in
    let pt := flag_if (mf_contains flags MF_USER) USER pt in
    let pt := flag_if (mf_contains flags MF_WRITE) WRITABLE pt in
    flag_if (negb (mf_contains flags MF_EXECUTE)) NO_EXECUTE pt.

Definition set_user_page_flags (p : ProcMem) (virt flags : Z) : bool * ProcMem :=
  if USER_TOP <=? virt then (false, p)
  else let '(r, m) := set_page_flags (pm_tables p) (pm_root p) virt (protection flags) in (r, with_tables p m).

(** Permissions are added: WRITABLE set, NO_EXECUTE cleared. *)
Definition update_user_page_flags (p : ProcMem) (virt add_flags : Z) : bool * ProcMem :=
  if USER_TOP <=? virt then (false, p) else
  let pt_flags := flag_if (mf_contains add_flags MF_WRITE) WRITABLE 0 in
  let m := if negb (pt_flags =? 0) then snd (update_flags (pm_tables p) (pm_root p) virt pt_flags) else pm_tables p in
  let m := if mf_contains add_flags MF_EXECUTE then snd (remove_flags m (pm_root p) virt NO_EXECUTE) else m in
  (true, with_tables p m).

(** For shared memory: the frame stays with its segment. *)
Definition unmap_user_page_no_free (p : ProcMem) (virt : Z) : option Z * ProcMem :=
  if USER_TOP <=? virt then (None, p)
  else let '(r, m) := unmap (pm_tables p) (pm_root p) virt in (r, with_tables p m).

(** ** Releasing pages *)

(** [pf.flags() == PF_FREE && pf.refcount() == 0] for the frame's entry *)
Definition frame_is_free (c : Cow) (phys : Z) : bool :=
  match cw_pdb c with
  | Some w => match pdb_get (pw_db w) phys with
              | Some pf => (pf_flags pf =? PF_FREE) && (pf_refcount pf =? 0)
              | None => false
              end
  | None => false
  end.

(** The loop over [n] pages from page [i] of the range at [addr]; [guarded]: skip
    frames that are free already. *)
Fixpoint release_pages (guarded : bool) (n : nat) (i addr : Z) (p : ProcMem) : outcome ProcMem :=
  match n with
  | O => Done p
  | S n =>
      page_addr ← add64 addr (i * 0x1000);
      match unmap_user_page p page_addr with
      | (None, p) => release_pages guarded n (i + 1) addr p
      | (Some phys, p) =>
          if guarded && frame_is_free (pm_cow p) phys then release_pages guarded n (i + 1) addr p
          else '(_, c) ← release (pm_cow p) phys; release_pages guarded n (i + 1) addr (with_pcow p c)
      end
  end.

Definition CTX_MUNMAP : Z := 5.
Definition CTX_BRK_SHRINK : Z := 6.

Definition set_context (ctx : Z) (p : ProcMem) : ProcMem :=
  with_pcow p (mkCow (cw_counts (pm_cow p)) (set_free_context ctx <$> cw_pdb (pm_cow p))).

(** [(length + 0xFFF) & !0xFFF] *)
Definition page_align (length : Z) : outcome Z := a ← add64 length 0xFFF; Done (Z.ldiff a 0xFFF).

Definition sys_munmap (addr length : Z) (p : ProcMem) : outcome (Z * ProcMem) :=
  if negb (Z.land addr 0xFFF =? 0) then Done (E_INVAL, p) else
  if length =? 0 then Done (E_INVAL, p) else
  length ← page_align length;
  stop ← add64 addr length;
  let p := with_vmas p (snd (vma_remove (pm_vmas p) addr stop)) in
  p ← release_pages true (Z.to_nat (length / 0x1000)) 0 addr (set_context CTX_MUNMAP p);
  Done (0, p).

Definition MADV_DONTNEED : Z := 4.

Definition sys_madvise (addr length advice : Z) (p : ProcMem) : outcome (Z * ProcMem) :=
  if negb (advice =? MADV_DONTNEED) then Done (0, p) else
  if negb (Z.land addr 0xFFF =? 0) then Done (E_INVAL, p) else
  if length =? 0 then Done (0, p) else
  length ← page_align length;
  p ← release_pages true (Z.to_nat (length / 0x1000)) 0 addr (set_context CTX_MUNMAP p);
  _ ← add64 addr length;
  Done (0, p).

(** ** [mprotect] *)

Fixpoint protect_pages (n : nat) (i addr flags : Z) (p : ProcMem) : outcome ProcMem :=
  match n with
  | O => Done p
  | S n => page_addr ← add64 addr (i * 0x1000); protect_pages n (i + 1) addr flags (snd (set_user_page_flags p page_addr flags))
  end.

Definition with_flags (flags : Z) (a : VmArea) : VmArea :=
  mkVma (va_start a) (va_end a) flags (va_type a) (va_name a) (va_name_len a).

(** The area of each page of the range gets the flags, all of it. *)
Fixpoint protect_areas (n : nat) (i addr flags : Z) (l : VmAreaList) : outcome VmAreaList :=
  match n with
  | O => Done l
  | S n =>
      page_start ← add64 addr (i * 0x1000);
      '(_, l) ← vma_find_mut l page_start (with_flags flags);
      protect_areas n (i + 1) addr flags l
  end.

Definition sys_mprotect (addr length prot : Z) (p : ProcMem) : outcome (Z * ProcMem) :=
  if negb (Z.land addr 0xFFF =? 0) then Done (E_INVAL, p) else
  if length =? 0 then Done (0, p) else
  if USER_TOP <=? addr then Done (E_NOMEM, p) else
  length ← page_align length;
  let num_pages := Z.to_nat (length / 0x1000) in
  p ← protect_pages num_pages 0 addr (prot_to_memory_flags prot) p;
  l ← protect_areas num_pages 0 addr (prot_to_vm_flags prot 0) (pm_vmas p);
  _ ← add64 addr length;
  Done (0, with_vmas p l).

(** ** Mapping new pages *)

Inductive UMapError := UAlreadyMapped | UOutOfMemory | UInvalidAddress.

Section mapping.
Context {inner : FrameAllocator Cow}.

(** A frame whose first word is still the magic of a free block. *)
Context (has_canary : Z -> bool).

(** [TrackingAllocator]: frames for tables are recorded and marked. *)
Definition mark_table (c : Cow) (frame : Z) : Cow :=
  mkCow (cw_counts c) ((fun w => mark_pagetable w frame 0) <$> cw_pdb c).

Fixpoint remove_first (frame : Z) (l : list Z) : list Z :=
  match l with
  | [] => []
  | x :: l => if x =? frame then l else x :: remove_first frame l
  end.

Definition tracking_alloc (s : Cow * list Z) : outcome (option Z * (Cow * list Z)) :=
  '(r, c) ← fa_alloc_frame (fst s);
  match r with
  | None => Done (None, (c, snd s))
  | Some frame => Done (Some frame, (mark_table c frame, snd s ++ [frame]))
  end.

Definition tracking_free (frame : Z) (s : Cow * list Z) : outcome (Cow * list Z) :=
  c ← fa_free_frame frame (fst s); Done (c, remove_first frame (snd s)).

(** The frames of a run of [count] at [addr]. *)
Definition run_frames (addr count : Z) : list Z := (fun i => addr + i * 4096) <$> seqZ 0 count.

Definition tracking_alloc_frames (count : Z) (s : Cow * list Z) : outcome (option Z * (Cow * list Z)) :=
  '(r, c) ← fa_alloc_frames count (fst s);
  match r with
  | None => Done (None, (c, snd s))
  | Some frames => Done (Some frames, (c, snd s ++ run_frames frames count))
  end.

Definition tracking_free_frames (addr count : Z) (s : Cow * list Z) : outcome (Cow * list Z) :=
  c ← fa_free_frames addr count (fst s);
  Done (c, foldl (fun l f => remove_first f l) (snd s) (run_frames addr count)).

#[local] Instance TrackingAllocator : FrameAllocator (Cow * list Z) := {
  fa_alloc_frame := tracking_alloc;
  fa_free_frame := tracking_free;
  fa_alloc_frames := tracking_alloc_frames;
  fa_free_frames := tracking_free_frames
}.

Definition user_flags (flags : Z) : Z :=
  flag_if (negb (mf_contains flags MF_EXECUTE)) NO_EXECUTE (flag_if (mf_contains flags MF_WRITE) WRITABLE (Z.lor PRESENT USER)).

Definition map_user_page (p : ProcMem) (virt phys flags : Z) : outcome (result unit UMapError * ProcMem) :=
  if USER_TOP <=? virt then Done (Err UInvalidAddress, p) else
  '(r, m, s) ← map (pm_tables p) (pm_cow p, pm_frames p) (pm_root p) virt phys (user_flags flags);
  let p := with_frames (with_pcow (with_tables p m) (fst s)) (snd s) in
  Done (match r with
        | Ok _ => Ok tt
        | Err AlreadyMapped => Err UAlreadyMapped
        | Err FrameAllocationFailed => Err UOutOfMemory
        | Err ParentIsHugePage => Err UInvalidAddress
        end, p).

Definition map_user_page_shared (p : ProcMem) (virt phys flags : Z) : outcome (result unit UMapError * ProcMem) :=
  map_user_page p virt phys flags.

(** The loop of [map_user_range] over [n] pages from page [i] on. *)
Fixpoint map_pages (n : nat) (i virt_start phys_start flags : Z) (p : ProcMem) : outcome (result unit UMapError * ProcMem) :=
  match n with
  | O => Done (Ok tt, p)
  | S n =>
      virt ← add64 virt_start (i * 4096);
      phys ← add64 phys_start (i * 4096);
      '(r, p) ← map_user_page p virt phys flags;
      match r with
      | Err e => Done (Err e, p)
      | Ok _ => map_pages n (i + 1) virt_start phys_start flags p
      end
  end.

Definition map_user_range (p : ProcMem) (virt_start phys_start size flags : Z) : outcome (result unit UMapError * ProcMem) :=
  s ← add64 size 4096;
  map_pages (Z.to_nat ((s - 1) / 4096)) 0 virt_start phys_start flags p.

Fixpoint free_each (frames : list Z) (c : Cow) : outcome Cow :=
  match frames with
  | [] => Done c
  | f :: frames => c ← fa_free_frame f c; free_each frames c
  end.

(** Phase 1: all frames, or none. *)
Fixpoint collect_frames (n : nat) (frames : list Z) (c : Cow) : outcome (option (list Z) * Cow) :=
  match n with
  | O => Done (Some frames, c)
  | S n =>
      '(r, c) ← fa_alloc_frame c;
      match r with
      | None => c ← free_each frames c; Done (None, c)
      | Some frame => collect_frames n (frames ++ [frame]) c
      end
  end.

Definition mark_mapped (c : Cow) (frame : Z) : Cow :=
  mkCow (cw_counts c) ((fun w => on_frame w frame (set_flags (Z.lor PF_ALLOCATED PF_MAPPED))) <$> cw_pdb c).

(** Phase 2: page [i] of the range gets the next frame. *)
Fixpoint map_frames (frames : list Z) (i virt_start flags : Z) (p : ProcMem) : outcome (result unit UMapError * ProcMem) :=
  match frames with
  | [] => Done (Ok tt, p)
  | frame :: frames =>
      virt ← add64 virt_start (i * 4096);
      if has_canary frame then map_frames frames (i + 1) virt_start flags p else
      '(r, p) ← map_user_page (with_pcow p (mark_mapped (pm_cow p) frame)) virt frame flags;
      match r with
      | Err e => c ← free_each (frame :: frames) (pm_cow p); Done (Err e, with_pcow p c)
      | Ok _ => map_frames frames (i + 1) virt_start flags p
      end
  end.

Definition allocate_pages (p : ProcMem) (virt_start : Z) (num_pages : nat) (flags : Z) : outcome (result unit UMapError * ProcMem) :=
  '(r, c) ← collect_frames num_pages [] (pm_cow p);
  let p := with_pcow p c in
  match r with
  | None => Done (Err UOutOfMemory, p)
  | Some frames => map_frames frames 0 virt_start flags p
  end.

(** ** [mmap] and [mremap] *)

(** The legacy pool of addresses. *)
Definition allocate_mmap_addr (length : Z) (p : ProcMem) : outcome (result Z Z * ProcMem) :=
  let addr := pm_next_mmap p in
  stop ← add64 addr length;
  if MMAP_MAX_ADDR <? stop then
    let p := with_next_mmap p MMAP_MIN_ADDR in
    stop ← add64 MMAP_MIN_ADDR length;
    if MMAP_MAX_ADDR <? stop then Done (Err E_NOMEM, p) else Done (Ok MMAP_MIN_ADDR, with_next_mmap p stop)
  else Done (Ok addr, with_next_mmap p stop).

(** The address of a new mapping: where MAP_FIXED says, removing the areas there,
    or a gap. *)
Definition choose_addr (addr length map_flags : Z) (p : ProcMem) : outcome (result Z Z * ProcMem) :=
  if has_bit map_flags MAP_FIXED then
    if negb (Z.land addr 0xFFF =? 0) then Done (Err E_INVAL, p) else
    if addr <? MMAP_MIN_ADDR then Done (Err E_NOMEM, p) else
    stop ← add64 addr length;
    if MMAP_MAX_ADDR <? stop then Done (Err E_NOMEM, p) else
    Done (Ok addr, with_vmas p (snd (vma_remove (pm_vmas p) addr stop)))
  else
    hint ← (if addr =? 0 then Done 0 else page_align addr);
    r ← find_free_region (pm_vmas p) length hint MMAP_MAX_ADDR;
    match r with
    | Some a => Done (Ok a, p)
    | None => allocate_mmap_addr length p
    end.

Definition add_vma (p : ProcMem) (v : VmArea) : outcome ProcMem :=
  '(_, l) ← vma_insert (pm_vmas p) v; Done (with_vmas p l).

(** [sys_mmap] with MAP_ANONYMOUS; private mappings get their pages on access.
    Addresses chosen are below 2^63. *)
Definition mmap_anonymous (addr length prot map_flags : Z) (p : ProcMem) : outcome (Z * ProcMem) :=
  if length =? 0 then Done (E_INVAL, p) else
  length ← page_align length;
  '(r, p) ← choose_addr addr length map_flags p;
  match r with
  | Err e => Done (e, p)
  | Ok map_addr =>
      if has_bit map_flags MAP_PRIVATE then
        stop ← add64 map_addr length;
        p ← add_vma p (VmArea_new map_addr stop (prot_to_vm_flags prot map_flags) Anon);
        Done (map_addr, p)
      else
        '(r, p) ← allocate_pages p map_addr (Z.to_nat (length / 0x1000)) (prot_to_memory_flags prot);
        match r with
        | Err _ => Done (E_NOMEM, p)
        | Ok _ =>
            stop ← add64 map_addr length;
            p ← add_vma p (VmArea_new map_addr stop (prot_to_vm_flags prot map_flags) Anon);
            Done (map_addr, p)
        end
  end.

Definition MREMAP_MAYMOVE : Z := 1.

(** The protection a mapping was made with, as far as its area tells. *)
Definition original_prot (p : ProcMem) (addr : Z) : outcome Z :=
  v ← vma_find (pm_vmas p) addr;
  Done (match v with
        | Some a =>
            let f := va_flags a in
            flag_if (mf_contains f VM_EXEC) PROT_EXEC
              (flag_if (mf_contains f VM_WRITE) PROT_WRITE (flag_if (mf_contains f VM_READ) PROT_READ 0))
        | None => Z.lor PROT_READ PROT_WRITE
        end).

(** Growing maps the extension with MAP_FIXED; a move maps a new range, copies
    and unmaps the old one.  The copy acts on the contents of pages only. *)
Definition sys_mremap (old_addr old_size new_size mremap_flags : Z) (p : ProcMem) : outcome (Z * ProcMem) :=
  if negb (Z.land old_addr 0xFFF =? 0) then Done (E_INVAL, p) else
  old_size ← page_align old_size;
  new_size ← page_align new_size;
  if new_size =? 0 then Done (E_INVAL, p) else
  if new_size <=? old_size then
    if new_size <? old_size then
      tail ← add64 old_addr new_size;
      '(_, p) ← sys_munmap tail (old_size - new_size) p; Done (as_i64 old_addr, p)
    else Done (as_i64 old_addr, p)
  else
    prot ← original_prot p old_addr;
    extend_addr ← add64 old_addr old_size;
    '(r, p) ← mmap_anonymous extend_addr (new_size - old_size) prot (Z.lor (Z.lor MAP_PRIVATE MAP_ANONYMOUS) MAP_FIXED) p;
    if 0 <=? r then Done (as_i64 old_addr, p) else
    if negb (has_bit mremap_flags MREMAP_MAYMOVE) then Done (E_NOMEM, p) else
    '(new_addr, p) ← mmap_anonymous 0 new_size prot (Z.lor MAP_PRIVATE MAP_ANONYMOUS) p;
    if new_addr <? 0 then Done (new_addr, p) else
    '(_, p) ← sys_munmap old_addr old_size p; Done (new_addr, p).

(** ** [brk] *)

Definition HEAP_START : Z := 0x600000.

(** The heap area follows the break. *)
Definition heap_area (p : ProcMem) (old_break new_break : Z) : outcome ProcMem :=
  let p := with_vmas p (snd (vma_remove (pm_vmas p) HEAP_START (Z.min MMAP_MAX_ADDR (Z.max old_break new_break)))) in
  if HEAP_START <? new_break then
    add_vma p (VmArea_new_named HEAP_START new_break (Z.lor VM_READ VM_WRITE) Heap [91; 104; 101; 97; 112; 93])
  else Done p.

Definition sys_brk (addr : Z) (p : ProcMem) : outcome (Z * ProcMem) :=
  if addr =? 0 then Done (as_i64 (pm_break p), p) else
  a ← add64 addr 4096;
  let new_break := Z.ldiff (a - 1) 4095 in
  let old_break := pm_break p in
  if new_break <? HEAP_START then Done (as_i64 old_break, p) else
  '(r, p) ← (if old_break <? new_break then
               allocate_pages p old_break (Z.to_nat ((new_break - old_break) / 4096)) (Z.lor (Z.lor MF_READ MF_WRITE) MF_USER)
             else if new_break <? old_break then
               p ← release_pages false (Z.to_nat ((old_break - new_break) / 4096)) 0 new_break (set_context CTX_BRK_SHRINK p);
               Done (Ok tt, p)
             else Done (Ok tt, p));
  match r with
  | Err _ => Done (E_NOMEM, p)
  | Ok _ => p ← heap_area (with_break p new_break) old_break new_break; Done (as_i64 new_break, p)
  end.
End mapping.
