(* ===== verification/MemThms.v ===== *)
(** * What the memory calls do

    [munmap] removes exactly the mappings and areas of its range and gives every
    page's frame up once; [mprotect] sets the permissions of exactly the pages of
    its range; a private [mmap] takes a range that was free.  Some examples show
    where the calls do something else. *)
From S2P Require Import Prelude Addr Zone PageDb FrameAlloc Paging Vma Cow MemSys.

(** ** Pages and addresses *)

(** The addresses the processor accepts. *)
Definition canonical (v : Z) : Prop := 0 <= v < 2 ^ 47 \/ 2 ^ 64 - 2 ^ 47 <= v < 2 ^ 64.

Lemma index_page k v : (1 <= k)%nat -> level_index k v = (v / 4096 / 512 ^ (Z.of_nat k - 1)) mod 512.
Proof.
  intros Hk. rewrite level_index_div. f_equal. rewrite Z.div_div by (try apply Z.pow_pos_nonneg; lia). f_equal.
  rewrite Z.pow_add_r by lia. change (2 ^ 12) with 4096. f_equal. rewrite Z.mul_comm, Z.pow_mul_r by lia. done.
Qed.

Lemma page_same v v' : v / 4096 = v' / 4096 -> same_page v v'.
Proof. intros E k Hk. by rewrite !index_page, E by lia. Qed.

(** The four indices are the digits of the page number. *)
Lemma page_digits v :
  (v / 4096) mod 2 ^ 36 = level_index 1 v + 512 * (level_index 2 v + 512 * (level_index 3 v + 512 * level_index 4 v)).
Proof.
  rewrite !index_page by lia. set (q := v / 4096). change (2 ^ 36) with (512 * (512 * (512 * 512))).
  change (512 ^ (Z.of_nat 1 - 1)) with 1. change (512 ^ (Z.of_nat 2 - 1)) with 512.
  change (512 ^ (Z.of_nat 3 - 1)) with (512 * 512). change (512 ^ (Z.of_nat 4 - 1)) with (512 * (512 * 512)).
  rewrite Z.div_1_r, !Z.rem_mul_r by lia. rewrite <- !Z.div_div by lia. lia.
Qed.

Lemma same_page_canonical v v' : canonical v -> canonical v' -> same_page v v' -> v / 4096 = v' / 4096.
Proof.
  intros Hv Hv' Hs. assert ((v / 4096) mod 2 ^ 36 = (v' / 4096) mod 2 ^ 36) as E
    by (rewrite !page_digits; by rewrite (Hs 1%nat), (Hs 2%nat), (Hs 3%nat), (Hs 4%nat) by lia).
  assert (forall x, canonical x -> 0 <= x / 4096 < 2 ^ 35 \/ 2 ^ 52 - 2 ^ 35 <= x / 4096 < 2 ^ 52) as Hb.
  { intros x Hx. pose proof (Z.div_mod x 4096 ltac:(lia)). pose proof (Z.mod_pos_bound x 4096 ltac:(lia)). unfold canonical in Hx. lia. }
  assert (forall x, canonical x -> (x / 4096) mod 2 ^ 36 = x / 4096 \/ (x / 4096) mod 2 ^ 36 = x / 4096 - (2 ^ 52 - 2 ^ 36)) as Hm.
  { intros x Hx. destruct (Hb x Hx); [left; apply Z.mod_small; lia|right].
    symmetry. apply (Z.mod_unique_pos _ _ (2 ^ 16 - 1)); lia. }
  destruct (Hb v Hv), (Hb v' Hv'), (Hm v Hv), (Hm v' Hv'); lia.
Qed.

(** ** One page *)

Lemma get_pt_none m root v : get_pt m root v = None -> match walk 4 m root v with Some (1%nat, _) => False | _ => True end.
Proof.
  unfold get_pt, get_table. cbn [walk Nat.eqb].
  destruct (is_present (m (slot root (level_index 4 v)))), (is_huge (m (slot root (level_index 4 v)))); cbn; try done.
  set (t3 := entry_addr _). destruct (is_present (m (slot t3 (level_index 3 v)))), (is_huge (m (slot t3 (level_index 3 v)))); cbn; try done.
  set (t2 := entry_addr _). destruct (is_present (m (slot t2 (level_index 2 v)))), (is_huge (m (slot t2 (level_index 2 v)))); cbn; done.
Qed.

(** A walk after the small page at its end, if any, is unmapped. *)
Definition without_small (w : option (nat * Z)) : option (nat * Z) := match w with Some (1%nat, _) => None | _ => w end.

Lemma unmap_walk m root T v :
  tree m root T ->
  let '(r, m') := unmap m root v in
  r = match walk 4 m root v with Some (1%nat, e) => Some (entry_addr e) | _ => None end /\
  tree m' root T /\ walk 4 m' root v = without_small (walk 4 m root v) /\
  forall v', ~ same_page v v' -> walk 4 m' root v' = walk 4 m root v'.
Proof.
  intros Ht. unfold unmap. destruct (get_pt m root v) as [pt|] eqn:Hg.
  - apply get_pt_reach in Hg. rewrite (leaf_walk m root v pt Hg).
    destruct (is_present (m (slot pt (level_index 1 v)))) eqn:Hp; cbn [negb].
    2: { split_and!; try done. by rewrite (leaf_walk m root v pt Hg), Hp. }
    split_and!; [done|..].
    + apply tree_leaf_write; [done|by eapply (reach_table Ht)|apply level_index_bound].
    + by rewrite (leaf_write_this m root T v pt).
    + intros v' Hne. by rewrite (leaf_write_other m root T v v' pt).
  - apply get_pt_none in Hg. split_and!; try done; destruct (walk 4 m root v) as [[[|[|k]] e]|]; done.
Qed.

(** The frame a user page gives up. *)
Definition page_frame (m : TableMem) (root v : Z) : list Z :=
  if USER_TOP <=? v then []
  else match walk 4 m root v with Some (1%nat, e) => [frame_of (entry_addr e)] | _ => [] end.

Definition range_frames (m : TableMem) (root addr : Z) (n : nat) (i : Z) : list Z :=
  gather (fun i => page_frame m root (addr + i * 4096)) n i.

(** One owner less for each of [fs], each of which has one. *)
Definition own_minus (own : Z -> Z) (fs : list Z) : Z -> Z :=
  foldl (fun own f => with_owners own f (own f - 1)) own fs.

Fixpoint releasable (own : Z -> Z) (fs : list Z) : Prop :=
  match fs with
  | [] => True
  | f :: fs => 1 <= own f /\ releasable (with_owners own f (own f - 1)) fs
  end.

Lemma own_minus_count fs f : forall own, own_minus own fs f = own f - Z.of_nat (count_occ Z.eq_dec fs f).
Proof.
  induction fs as [|g fs IH]; intros own; cbn [count_occ]; [cbn; lia|].
  change (own_minus own (g :: fs)) with (own_minus (with_owners own g (own g - 1)) fs).
  rewrite IH. unfold with_owners. destruct (Z.eqb_spec f g) as [->|Hne].
  - destruct (Z.eq_dec g g); [lia|done].
  - destruct (Z.eq_dec g f); [done|lia].
Qed.

(** ** A range of pages *)

(** [v] is in the user pages [i] up to [i + n] of the range at [addr]. *)
Definition in_pages (addr i : Z) (n : nat) (v : Z) : Prop :=
  addr + i * 4096 <= v < addr + (i + Z.of_nat n) * 4096 /\ v < USER_TOP.

#[global] Instance in_pages_dec addr i n v : Decision (in_pages addr i n v).
Proof. unfold in_pages. apply _. Defined.

(** What a process has apart from its tables and frames. *)
Definition same_rest (p p' : ProcMem) : Prop :=
  pm_root p' = pm_root p /\ pm_frames p' = pm_frames p /\ pm_vmas p' = pm_vmas p /\
  pm_break p' = pm_break p /\ pm_next_mmap p' = pm_next_mmap p.

Lemma page_in addr i v : addr mod 4096 = 0 -> in_pages addr i 1 v -> (addr + i * 4096) / 4096 = v / 4096.
Proof.
  intros Ha [Hv _]. pose proof (Z.div_mod addr 4096 ltac:(lia)). set (q := addr / 4096) in *.
  assert (addr + i * 4096 = (q + i) * 4096) as -> by lia. rewrite Z.div_mul by lia.
  apply (Z.div_unique_pos v 4096 (q + i) (v - (q + i) * 4096)); lia.
Qed.

Lemma page_out addr i v : addr mod 4096 = 0 -> canonical (addr + i * 4096) -> canonical v -> ~ in_pages addr i 1 v ->
  addr + i * 4096 < USER_TOP -> ~ same_page (addr + i * 4096) v.
Proof.
  intros Ha Hc Hv Hn Hu Hs. apply Hn. apply same_page_canonical in Hs; [|done|done].
  pose proof (Z.div_mod addr 4096 ltac:(lia)). set (q := addr / 4096) in *.
  assert (addr + i * 4096 = (q + i) * 4096) as E by lia. rewrite E in *. rewrite Z.div_mul in Hs by lia.
  pose proof (Z.div_mod v 4096 ltac:(lia)). pose proof (Z.mod_pos_bound v 4096 ltac:(lia)).
  unfold in_pages, USER_TOP in *. lia.
Qed.

(** Unmapping one page of the range. *)
Lemma unmap_user_page_spec p T addr i :
  tree (pm_tables p) (pm_root p) T -> addr mod 4096 = 0 -> 0 <= addr -> 0 <= i -> addr + i * 4096 < U64 ->
  let '(r, p') := unmap_user_page p (addr + i * 4096) in
  page_frame (pm_tables p) (pm_root p) (addr + i * 4096) = match r with Some phys => [frame_of phys] | None => [] end /\
  (forall phys, r = Some phys -> frame_addr phys) /\
  tree (pm_tables p') (pm_root p) T /\ same_rest p p' /\ pm_cow p' = pm_cow p /\
  forall v, canonical v -> walk 4 (pm_tables p') (pm_root p) v =
    if decide (in_pages addr i 1 v) then without_small (walk 4 (pm_tables p) (pm_root p) v) else walk 4 (pm_tables p) (pm_root p) v.
Proof.
  intros Ht Ha Ha0 Hi Hlt. unfold unmap_user_page, page_frame. destruct (Z.leb_spec USER_TOP (addr + i * 4096)) as [Hu|Hu].
  { split_and!; try done. intros v Hv. rewrite decide_False; [done|]. unfold in_pages. lia. }
  pose proof (unmap_walk (pm_tables p) (pm_root p) T (addr + i * 4096) Ht) as Hun.
  destruct (unmap (pm_tables p) (pm_root p) (addr + i * 4096)) as [r m']. destruct Hun as (-> & Ht' & Hw & Ho).
  cbn [with_tables pm_tables pm_cow]. split_and!; try done.
  - destruct (walk 4 (pm_tables p) (pm_root p) (addr + i * 4096)) as [[[|[|k]] e]|]; done.
  - intros phys. destruct (walk 4 (pm_tables p) (pm_root p) (addr + i * 4096)) as [[[|[|k]] e]|]; try done.
    intros [= <-]. apply entry_addr_frame.
  - intros v Hv. destruct (decide (in_pages addr i 1 v)) as [Hin|Hout].
    + pose proof (page_same _ _ (page_in addr i v Ha Hin)) as Hs.
      by rewrite <- !(walk_same_page _ _ _ 4 ltac:(lia) Hs).
    + apply Ho, page_out; try done. left. unfold USER_TOP in Hu. lia.
Qed.

Lemma without_small_idem w : without_small (without_small w) = without_small w.
Proof. by destruct w as [[[|[|k]] e]|]. Qed.

Lemma same_rest_trans p p1 p2 : same_rest p p1 -> same_rest p1 p2 -> same_rest p p2.
Proof. unfold same_rest. intuition congruence. Qed.

(** An owned frame is not taken for a free one. *)
Lemma owned_not_free frames c own phys :
  tracks_owners frames c own -> frame_addr phys -> own (frame_of phys) <> 0 -> frame_is_free c phys = false.
Proof.
  intros Ht (k & -> & Hk & _) Hn. destruct (owned_entry frames c own (k * 4096) Ht ltac:(lia) Hn) as (w & pf & Hw & Hpf & _ & _ & _ & Hd & _).
  unfold frame_is_free. rewrite Hw, Hpf. unfold has_flag in Hd.
  by destruct (Z.eqb_spec (pf_flags pf) PF_FREE) as [E|]; [rewrite E in Hd|].
Qed.

Section range.
Context (frames : Z) (T : Z -> option nat) (addr : Z) (Ha : addr mod 4096 = 0) (Ha0 : 0 <= addr).

(** The pages [i] up to [i + n] of the range are given up. *)
Record released (own : Z -> Z) (n : nat) (i : Z) (p p' : ProcMem) : Prop := {
  rl_rest : same_rest p p';
  rl_tree : tree (pm_tables p') (pm_root p) T;
  rl_owners : tracks_owners frames (pm_cow p') (own_minus own (range_frames (pm_tables p) (pm_root p) addr n i));
  rl_walk : forall v, canonical v -> walk 4 (pm_tables p') (pm_root p) v =
    if decide (in_pages addr i n v) then without_small (walk 4 (pm_tables p) (pm_root p) v) else walk 4 (pm_tables p) (pm_root p) v
}.

(** The first page, then the others. *)
Lemma released_step own own1 n i p p1 p' fs :
  same_rest p p1 -> page_frame (pm_tables p) (pm_root p) (addr + i * 4096) = fs -> own1 = own_minus own fs ->
  (forall v, canonical v -> walk 4 (pm_tables p1) (pm_root p) v =
    if decide (in_pages addr i 1 v) then without_small (walk 4 (pm_tables p) (pm_root p) v) else walk 4 (pm_tables p) (pm_root p) v) ->
  range_frames (pm_tables p1) (pm_root p1) addr n (i + 1) = range_frames (pm_tables p) (pm_root p) addr n (i + 1) ->
  released own1 n (i + 1) p1 p' -> released own (S n) i p p'.
Proof using Type.
  intros Hs Hf -> Hw Hr [Hs2 Ht2 Hc2 Hw2]. assert (pm_root p1 = pm_root p) as E by apply Hs. rewrite E in *. constructor.
  - by eapply same_rest_trans.
  - done.
  - unfold range_frames in *. cbn [gather]. rewrite Hf. unfold own_minus. rewrite foldl_app. by rewrite <- Hr.
  - intros v Hv. rewrite Hw2, Hw by done. repeat case_decide; rewrite ?without_small_idem; try done; unfold in_pages in *; lia.
Qed.

Lemma release_pages_spec guarded n : forall i p own,
  tree (pm_tables p) (pm_root p) T -> tracks_owners frames (pm_cow p) own -> 0 <= i -> addr + (i + Z.of_nat n) * 4096 <= U64 ->
  releasable own (range_frames (pm_tables p) (pm_root p) addr n i) ->
  exists p', release_pages guarded n i addr p = Done p' /\ released own n i p p'.
Proof using Ha Ha0.
  induction n as [|n IH]; intros i p own Ht Hc Hi Hlt Hrel; cbn [release_pages].
  { exists p. split; [done|]. constructor; try done. intros v _. rewrite decide_False; [done|]. unfold in_pages. lia. }
  rewrite Nat2Z.inj_succ in Hlt. rewrite add64_ok by lia. cbn [mbind outcome_bind]. change 0x1000 with 4096.
  pose proof (unmap_user_page_spec p T addr i Ht Ha Ha0 Hi ltac:(lia)) as Hu. unfold range_frames in Hrel. cbn [gather] in Hrel.
  destruct (unmap_user_page p (addr + i * 4096)) as [r p1]. destruct Hu as (Hpf & Hfr & Ht1 & Hs1 & Hc1 & Hw1). rewrite Hpf in Hrel.
  assert (pm_root p1 = pm_root p) as Hroot by apply Hs1.
  assert (range_frames (pm_tables p1) (pm_root p1) addr n (i + 1) = range_frames (pm_tables p) (pm_root p) addr n (i + 1)) as Hg.
  { apply gather_ext. intros j Hj. unfold page_frame. rewrite Hroot. destruct (Z.leb_spec USER_TOP (addr + j * 4096)); [done|].
    rewrite Hw1 by (left; unfold USER_TOP in *; lia). rewrite decide_False; [done|]. unfold in_pages. lia. }
  fold (range_frames (pm_tables p) (pm_root p) addr n (i + 1)) in Hrel. rewrite <- Hg in Hrel. rewrite <- Hroot in Ht1.
  destruct r as [phys|].
  - destruct Hrel as [H1 Hrel]. specialize (Hfr phys eq_refl). rewrite <- Hc1 in Hc.
    assert (0 <= phys) as Hp0 by (destruct Hfr as (k & -> & ? & _); lia).
    destruct (release_owners frames (pm_cow p1) own phys Hc Hp0 ltac:(lia)) as (c1 & Hrun & Hc').
    rewrite (owned_not_free frames _ own phys Hc Hfr) by lia. rewrite andb_false_r, Hrun. cbn [mbind outcome_bind].
    destruct (IH (i + 1) (with_pcow p1 c1) _ Ht1 Hc' ltac:(lia) ltac:(lia) Hrel) as (p' & Hrun' & Hrl).
    exists p'. split; [done|]. by apply (released_step own _ n i p (with_pcow p1 c1) p' _ Hs1 Hpf eq_refl Hw1 Hg).
  - rewrite <- Hc1 in Hc. destruct (IH (i + 1) p1 own Ht1 Hc ltac:(lia) ltac:(lia) Hrel) as (p' & Hrun & Hrl).
    exists p'. split; [done|]. by apply (released_step own _ n i p p1 p' _ Hs1 Hpf eq_refl Hw1 Hg).
Qed.
End range.

(** ** [munmap] *)

Lemma set_context_tracks frames ctx p own :
  tracks_owners frames (pm_cow p) own -> tracks_owners frames (pm_cow (set_context ctx p)) own.
Proof.
  intros [(w & Hw & Hok) Hown]. cbn [set_context with_pcow pm_cow]. rewrite Hw. split; [by eexists|].
  intros f Hf. specialize (Hown f Hf). unfold owned in *. cbn [cw_counts cw_pdb]. destruct (own f =? 0); [done|].
  destruct Hown as (H1 & H2 & w0 & pf & Hw0 & Hpf & Hrest). simplify_eq. split_and!; [done|lia|lia|]. eexists _, pf. split; [done|]. done.
Qed.

Lemma page_align_ok length :
  0 <= length -> length + 0xFFF < U64 -> page_align length = Done ((length + 0xFFF) / 4096 * 4096).
Proof.
  intros H0 Hlt. unfold page_align. rewrite add64_ok by done. cbn [mbind outcome_bind].
  change 0xFFF with (Z.ones 12) at 2. rewrite Z.ldiff_ones_r, Z.shiftl_mul_pow2, Z.shiftr_div_pow2 by lia. done.
Qed.

(** The number of pages of a range of [length] bytes. *)
Definition pages_of (length : Z) : nat := Z.to_nat ((length + 0xFFF) / 4096).

Lemma pages_of_bound length : 0 <= length ->
  length <= Z.of_nat (pages_of length) * 4096 < length + 4096 /\ (length + 0xFFF) / 4096 = Z.of_nat (pages_of length).
Proof.
  intros H0. pose proof (Z.div_mod (length + 0xFFF) 4096 ltac:(lia)). pose proof (Z.mod_pos_bound (length + 0xFFF) 4096 ltac:(lia)).
  assert (0 <= (length + 0xFFF) / 4096) by (apply Z.div_pos; lia). unfold pages_of. rewrite Z2Nat.id by done. lia.
Qed.

(** The range of [n] pages at [addr] is unmapped. *)
Record unmapped (frames : Z) (T : Z -> option nat) (addr : Z) (n : nat) (own : Z -> Z) (p p' : ProcMem) : Prop := {
  um_rest : same_rest (with_vmas p (pm_vmas p')) p';
  um_tree : tree (pm_tables p') (pm_root p) T;
  um_walk : forall v, canonical v -> walk 4 (pm_tables p') (pm_root p) v =
    if decide (in_pages addr 0 n v) then without_small (walk 4 (pm_tables p) (pm_root p) v) else walk 4 (pm_tables p) (pm_root p) v;
  um_owners : tracks_owners frames (pm_cow p') (own_minus own (range_frames (pm_tables p) (pm_root p) addr n 0));
  um_areas : wf_list (pm_vmas p') /\
    forall x t, mapped_as (pm_vmas p') x t <-> mapped_as (pm_vmas p) x t /\ ~ (addr <= x < addr + Z.of_nat n * 4096)
}.

(** C23.  [munmap].  Called with an aligned address and a length that does not
    overflow, [sys_munmap] returns 0: no small page of the range is mapped any
    more, every other translation and every large page is as before; the areas
    are the old ones without the range; each page unmapped has one owner less,
    which frees its frame when it was the last; nothing else changes.  Other
    arguments are refused without a change. *)
Theorem munmap_correct frames T p own addr length (Ht : tree (pm_tables p) (pm_root p) T)
    (Hc : tracks_owners frames (pm_cow p) own) (Hw : wf_list (pm_vmas p)) (Ha : 0 <= addr) (Hl : 0 <= length)
    (Hov : addr + length + 0xFFF < U64)
    (Hrel : releasable own (range_frames (pm_tables p) (pm_root p) addr (pages_of length) 0)) :
  exists r p', sys_munmap addr length p = Done (r, p') /\
    if decide (addr mod 4096 = 0 /\ length <> 0) then r = 0 /\ unmapped frames T addr (pages_of length) own p p'
    else r = E_INVAL /\ p' = p.
Proof.
  unfold sys_munmap. pose proof (page_low_spec addr) as Hlow. unfold page_low, aligned in Hlow.
  destruct (Z.land addr 0xFFF =? 0) eqn:Hal; cbn [negb].
  2: { exists E_INVAL, p. split; [done|]. rewrite decide_False; [done|]. intros [H _]. by apply Hlow in H. }
  destruct (Z.eqb_spec length 0) as [->|Hnz].
  { exists E_INVAL, p. split; [done|]. rewrite decide_False; [done|]. by intros [_ ?]. }
  assert (addr mod 4096 = 0) as Ham by by apply Hlow.
  destruct (pages_of_bound length Hl) as [Hb Hn]. rewrite page_align_ok, Hn by lia. cbn [mbind outcome_bind].
  set (n := pages_of length) in *. rewrite add64_ok by lia. cbn [mbind outcome_bind]. change 0x1000 with 4096. rewrite Z.div_mul, Nat2Z.id by lia.
  pose proof (vma_remove_correct (pm_vmas p) addr (addr + Z.of_nat n * 4096) Hw Ha ltac:(lia)) as Hv.
  destruct (vma_remove (pm_vmas p) addr (addr + Z.of_nat n * 4096)) as [[removed|err] l].
  2: { destruct Hv as (_ & _ & Hbad). exfalso. apply Hbad. unfold aligned. rewrite Z.mod_add by lia. split_and!; [lia|done|done]. }
  destruct Hv as (Hwf & _ & Hmap & _). cbn [snd].
  destruct (release_pages_spec frames T addr Ham Ha true n 0 (set_context CTX_MUNMAP (with_vmas p l)) own Ht
    (set_context_tracks frames _ (with_vmas p l) own Hc)) as (p' & -> & [(H1 & H2 & H3 & H4 & H5) Htr Hown Hwalk]); [lia|lia|done|].
  cbn [mbind outcome_bind]. exists 0, p'. split; [done|]. rewrite decide_True by done. split; [done|]. cbn in H1, H2, H3, H4, H5. constructor; [|done|done|done|by rewrite H3].
  unfold same_rest. cbn. split_and!; done.
Qed.

Definition munmap_demo (c : Cow) : ProcMem :=
  {| pm_tables := one_page (entry_new 0x1000 (Z.lor PRESENT USER)); pm_root := 0x10000; pm_frames := [];
     pm_vmas := [VmArea_new 0x400000 0x403000 VM_READ Anon]; pm_break := 0; pm_next_mmap := 0; pm_cow := c |}.

Lemma munmap_correct_witness :
  exists c p', sys_munmap 0x400000 0x1000 (munmap_demo c) = Done (0, p') /\
    translate (pm_tables (munmap_demo c)) 0x10000 0x400123 = Done (Some 0x1123) /\ translate (pm_tables p') 0x10000 0x400123 = Done None.
Proof.
  destruct (cow_step_refines 4 cow_demo _ (CAlloc 0x1000 1) _ _ cow_demo_tracks eq_refl) as (c & _ & Hc). exists c.
  destruct (munmap_correct 4 one_page_T (munmap_demo c) _ 0x400000 0x1000 (one_page_tree _) Hc) as (r & p' & Hrun & Hr).
  - split; [|repeat constructor]. apply Forall_cons_2; [|apply Forall_nil_2]. vm_compute. split_and!; congruence.
  - lia.
  - lia.
  - vm_compute. reflexivity.
  - vm_compute. split; [discriminate|done].
  - rewrite decide_True in Hr by done. destruct Hr as [-> [_ _ Hwalk _ _]]. exists p'. split; [exact Hrun|]. split; [vm_compute; reflexivity|].
    rewrite translate_walk. change 0x10000 with (pm_root (munmap_demo c)). rewrite Hwalk by (left; lia).
    assert (pages_of 0x1000 = 1%nat) as -> by (vm_compute; reflexivity). rewrite decide_True by (unfold in_pages, USER_TOP; lia). vm_compute. reflexivity.
Defined.

(** ** Private [mmap] *)

Lemma mapped_perm l l' x t : l ≡ₚ l' -> mapped_as l x t <-> mapped_as l' x t.
Proof. unfold mapped_as. intros Hp. split; intros (a & Ha & H); exists a; (split; [|done]); [by rewrite <- Hp|by rewrite Hp]. Qed.

(** A new area where nothing is. *)
Lemma add_vma_free p v :
  wf_list (pm_vmas p) -> vma_ok v -> region_free (pm_vmas p) (va_start v) (va_end v - va_start v) ->
  exists p', add_vma p v = Done p' /\ same_rest (with_vmas p (pm_vmas p')) p' /\ pm_tables p' = pm_tables p /\ pm_cow p' = pm_cow p /\
    wf_list (pm_vmas p') /\ forall x t, mapped_as (pm_vmas p') x t <-> mapped_as (pm_vmas p) x t \/ (va_start v <= x < va_end v /\ t = attr v).
Proof.
  intros Hw Hv Hf. pose proof Hv as Hok. unfold vma_ok in Hok.
  destruct (vma_insert_spec (pm_vmas p) v Hw ltac:(lia) ltac:(lia)) as (r & l & Hrun & Hr).
  unfold add_vma. rewrite Hrun. cbn [mbind outcome_bind]. eexists. split; [done|]. cbn.
  assert (~ overlap_exists (pm_vmas p) v) as Hno.
  { intros (a & Ha & H). specialize (Hf a Ha). replace (va_start v + (va_end v - va_start v)) with (va_end v) in Hf by lia. congruence. }
  destruct r as [u|[]]; try tauto.
  destruct Hr as [[Hlt _]|(_ & Hwf & Hperm & _)]; [lia|]. split_and!; try done.
  intros x t. rewrite (mapped_perm _ _ x t Hperm), mapped_cons. intuition congruence.
Qed.

(** An area that overlaps another, as the caller ignores the error. *)
Lemma add_vma_overlap p v :
  wf_list (pm_vmas p) -> vma_ok v -> overlap_exists (pm_vmas p) v -> add_vma p v = Done p.
Proof.
  intros Hw Hv Ho. pose proof Hv as Hok. unfold vma_ok in Hok.
  destruct (vma_insert_spec (pm_vmas p) v Hw ltac:(lia) ltac:(lia)) as (r & l & Hrun & Hr).
  unfold add_vma. rewrite Hrun. cbn [mbind outcome_bind]. assert (l = pm_vmas p) as ->; [|by destruct p].
  destruct r as [u|[]]; tauto.
Qed.

(** The fallback pool hands out an aligned range. *)
Lemma allocate_mmap_addr_spec length p :
  0 <= length -> aligned (pm_next_mmap p) -> MMAP_MIN_ADDR <= pm_next_mmap p -> pm_next_mmap p + length < U64 -> MMAP_MIN_ADDR + length < U64 ->
  exists r next, allocate_mmap_addr length p = Done (r, with_next_mmap p next) /\
    match r with Ok a => aligned a /\ MMAP_MIN_ADDR <= a /\ a + length <= MMAP_MAX_ADDR | Err e => e = E_NOMEM end.
Proof.
  intros Hl Ha Hm Ho Ho'. unfold allocate_mmap_addr. rewrite (add64_ok (pm_next_mmap p)) by done. cbn [mbind outcome_bind].
  destruct (Z.ltb_spec MMAP_MAX_ADDR (pm_next_mmap p + length)); [|exists (Ok (pm_next_mmap p)), (pm_next_mmap p + length); split_and!; done].
  rewrite add64_ok by done. cbn [mbind outcome_bind].
  destruct (Z.ltb_spec MMAP_MAX_ADDR (MMAP_MIN_ADDR + length)).
  - by exists (Err E_NOMEM), MMAP_MIN_ADDR.
  - exists (Ok MMAP_MIN_ADDR), (MMAP_MIN_ADDR + length). split_and!; done.
Qed.

(** Where a mapping without MAP_FIXED goes. *)
Lemma choose_addr_spec p addr size mf :
  wf_list (pm_vmas p) -> (forall a, a ∈ pm_vmas p -> va_end a <= MMAP_MAX_ADDR) -> has_bit mf MAP_FIXED = false ->
  0 <= addr -> addr + size + 0xFFF < U64 -> 0 < size -> aligned size -> size < 2 ^ 63 ->
  aligned (pm_next_mmap p) -> MMAP_MIN_ADDR <= pm_next_mmap p <= MMAP_MAX_ADDR ->
  exists r next, choose_addr addr size mf p = Done (r, with_next_mmap p next) /\
    match r with
    | Ok a => good_region (pm_vmas p) size MMAP_MAX_ADDR a \/
        (aligned a /\ MMAP_MIN_ADDR <= a /\ a + size <= MMAP_MAX_ADDR /\ forall c, ~ good_region (pm_vmas p) size MMAP_MAX_ADDR c)
    | Err e => e = E_NOMEM /\ forall c, ~ good_region (pm_vmas p) size MMAP_MAX_ADDR c
    end.
Proof.
  intros Hw Hmax Hfix Ha Hov Hs Hal Hbig Hna Hnb. unfold choose_addr. rewrite Hfix.
  assert (exists hint, (if addr =? 0 then Done 0 else page_align addr) = Done hint /\ 0 <= hint /\ page_floor hint + size < U64) as (hint & -> & Hh & Hhs).
  { destruct (Z.eqb_spec addr 0); [exists 0; split_and!; [done|done|unfold U64; change (page_floor 0) with 0; lia]|].
    destruct (pages_of_bound addr Ha) as [Hb Hn]. rewrite page_align_ok by lia. rewrite Hn. eexists. split; [done|].
    destruct (page_floor_spec (Z.of_nat (pages_of addr) * 4096)) as [_ ?]. lia. }
  cbn [mbind outcome_bind].
  destruct (find_free_region_correct (pm_vmas p) size hint MMAP_MAX_ADDR Hw) as (r & -> & Hr); try (unfold U64, MMAP_MAX_ADDR, MMAP_MIN_ADDR in *; lia); [done|].
  cbn [mbind outcome_bind]. destruct r as [a|].
  { exists (Ok a), (pm_next_mmap p). split; [by destruct p|by left]. }
  destruct Hr as [Hr|[Hr|Hr]]; [lia|done|].
  destruct (allocate_mmap_addr_spec size p) as (r & next & -> & Hr'); try (unfold U64, MMAP_MAX_ADDR, MMAP_MIN_ADDR in *; lia); [done|].
  exists r, next. split; [done|]. destruct r as [a|e]; [right; tauto|done].
Qed.

Lemma region_busy l c size : region_free l c size \/ exists a, a ∈ l /\ vma_overlaps a c (c + size) = true.
Proof.
  destruct (existsb (fun a => vma_overlaps a c (c + size)) l) eqn:E.
  - right. apply existsb_exists in E as (a & Ha & H). exists a. split; [by apply list_elem_of_In|done].
  - left. intros a Ha. destruct (vma_overlaps a c (c + size)) eqn:Ho; [|done]. exfalso.
    apply not_true_iff_false in E. apply E, existsb_exists. exists a. split; [by apply list_elem_of_In|done].
Qed.

(** What a private mapping of [size] bytes leaves behind at [r]: a new area on a
    free range, or, when there is no room, nothing, although [r] may look like an
    address. *)
Definition mapped_private (p p' : ProcMem) (size flags r : Z) : Prop :=
  (good_region (pm_vmas p) size MMAP_MAX_ADDR r /\ wf_list (pm_vmas p') /\
   forall x t, mapped_as (pm_vmas p') x t <->
     mapped_as (pm_vmas p) x t \/ (r <= x < r + size /\ t = attr (VmArea_new r (r + size) flags Anon))) \/
  ((forall c, ~ good_region (pm_vmas p) size MMAP_MAX_ADDR c) /\ pm_vmas p' = pm_vmas p /\
   (r = E_NOMEM \/ exists a, a ∈ pm_vmas p /\ vma_overlaps a r (r + size) = true)).

(** C25.  Private [mmap].  An anonymous private mapping without MAP_FIXED touches
    no table and no frame.  When some page-aligned range of the size is free
    below the limit, the call returns such a range and adds exactly its area;
    otherwise no area is added, and the call fails or returns a range that
    overlaps an area.  A zero length is refused. *)
Theorem mmap_private_correct {inner : FrameAllocator Cow} has_canary p addr length prot mf (Hw : wf_list (pm_vmas p))
    (Hmax : forall a, a ∈ pm_vmas p -> va_end a <= MMAP_MAX_ADDR) (Hfix : has_bit mf MAP_FIXED = false)
    (Hpriv : has_bit mf MAP_PRIVATE = true) (Ha : 0 <= addr) (Hl : 0 <= length) (Hbig : length < 2 ^ 62)
    (Hov : addr + length + 0x1FFE < U64) (Hna : aligned (pm_next_mmap p))
    (Hnb : MMAP_MIN_ADDR <= pm_next_mmap p <= MMAP_MAX_ADDR) :
  exists r p', mmap_anonymous has_canary addr length prot mf p = Done (r, p') /\
    pm_tables p' = pm_tables p /\ pm_cow p' = pm_cow p /\ pm_root p' = pm_root p /\ pm_frames p' = pm_frames p /\ pm_break p' = pm_break p /\
    if decide (length = 0) then r = E_INVAL /\ p' = p
    else mapped_private p p' (Z.of_nat (pages_of length) * 4096) (prot_to_vm_flags prot mf) r.
Proof.
  unfold mmap_anonymous. destruct (Z.eqb_spec length 0) as [->|Hnz].
  { exists E_INVAL, p. split_and!; done. }
  destruct (pages_of_bound length Hl) as [Hb Hn]. rewrite page_align_ok, Hn by lia. cbn [mbind outcome_bind].
  set (size := Z.of_nat (pages_of length) * 4096) in *. assert (aligned size) as Has by (apply Z.mod_mul; lia).
  destruct (choose_addr_spec p addr size mf Hw Hmax Hfix Ha ltac:(lia) ltac:(lia) Has ltac:(lia) Hna Hnb) as (r & next & -> & Hr).
  cbn [mbind outcome_bind]. rewrite Hpriv. destruct r as [a|e].
  2: { destruct Hr as [-> Hno]. exists E_NOMEM, (with_next_mmap p next). split_and!; try done. rewrite decide_False by done. right. auto. }
  assert (aligned a /\ MMAP_MIN_ADDR <= a /\ a + size <= MMAP_MAX_ADDR) as (Haa & Hal & Hah)
    by (destruct Hr as [(? & ? & ? & _)|(? & ? & ? & _)]; done).
  rewrite add64_ok by (unfold U64, MMAP_MAX_ADDR in *; lia). cbn [mbind outcome_bind].
  set (v := VmArea_new a (a + size) _ _). assert (vma_ok v) as Hv.
  { unfold v, vma_ok, aligned, U64, MMAP_MAX_ADDR, MMAP_MIN_ADDR in *. cbn. split_and!; [lia|lia|lia|done|].
    rewrite Z.add_mod, Haa, Has by lia. done. }
  destruct (region_busy (pm_vmas p) a size) as [Hfree|Hbusy].
  - destruct (add_vma_free (with_next_mmap p next) v Hw Hv) as (p' & -> & (H1 & H2 & _ & H4 & _) & H6 & H7 & H8 & H9);
      [cbn; by replace (a + size - a) with size by lia|].
    cbn [mbind outcome_bind]. exists a, p'. cbn in *. split_and!; try done. rewrite decide_False by done. left. by split_and!.
  - rewrite (add_vma_overlap (with_next_mmap p next) v Hw Hv) by done. cbn [mbind outcome_bind].
    exists a, (with_next_mmap p next). split_and!; try done. rewrite decide_False by done. right. split_and!; [|done|by right].
    destruct Hr as [(_ & _ & _ & Hfree)|(_ & _ & _ & Hno)]; [|done]. destruct Hbusy as (b & Hbin & Hbo). by rewrite (Hfree b Hbin) in Hbo.
Qed.

(** An allocator without frames. *)
Definition no_frames : FrameAllocator Cow :=
  {| fa_alloc_frame := fun c => Done (None, c); fa_free_frame := fun _ c => Done c;
     fa_alloc_frames := fun _ c => Done (None, c); fa_free_frames := fun _ _ c => Done c |}.

(** Two areas, [0x400000, 0x403000) and the heap at 0x600000. *)
Definition two_areas : ProcMem :=
  {| pm_tables := one_page (entry_new 0x1000 (Z.lor PRESENT USER)); pm_root := 0x10000; pm_frames := [];
     pm_vmas := [VmArea_new 0x400000 0x403000 (Z.lor VM_READ VM_STACK) Anon; VmArea_new 0x600000 0x601000 (Z.lor VM_READ VM_WRITE) Anon];
     pm_break := 0x601000; pm_next_mmap := MMAP_MIN_ADDR; pm_cow := cow_demo |}.

Lemma two_areas_wf : wf_list (pm_vmas two_areas).
Proof.
  split; [apply Forall_forall; intros a Ha|repeat constructor; vm_compute; congruence].
  repeat (apply elem_of_cons in Ha as [->|Ha]); [| |by apply elem_of_nil in Ha]; vm_compute; split_and!; congruence.
Qed.

Lemma mmap_private_correct_witness :
  exists r p', @mmap_anonymous no_frames (fun _ => false) 0x400000 0x2000 PROT_READ (Z.lor MAP_PRIVATE MAP_ANONYMOUS) two_areas = Done (r, p') /\
    mapped_private two_areas p' 0x2000 VM_READ r.
Proof.
  destruct (@mmap_private_correct no_frames (fun _ => false) two_areas 0x400000 0x2000 PROT_READ (Z.lor MAP_PRIVATE MAP_ANONYMOUS))
    as (r & p' & Hrun & _ & _ & _ & _ & _ & Hr).
  - exact two_areas_wf.
  - intros a Ha. repeat (apply elem_of_cons in Ha as [->|Ha]); [| |by apply elem_of_nil in Ha]; vm_compute; congruence.
  - reflexivity.
  - reflexivity.
  - lia.
  - lia.
  - lia.
  - vm_compute. reflexivity.
  - vm_compute. reflexivity.
  - vm_compute. split; congruence.
  - exists r, p'. split; [exact Hrun|]. rewrite decide_False in Hr by done. exact Hr.
Defined.

(** MAP_FIXED takes the areas of the range away and leaves their pages mapped. *)
Example mmap_fixed_keeps_pages :
  exists p', @mmap_anonymous no_frames (fun _ => false) 0x400000 0x1000 PROT_READ (Z.lor (Z.lor MAP_PRIVATE MAP_ANONYMOUS) MAP_FIXED) two_areas = Done (0x400000, p') /\
    translate (pm_tables p') 0x10000 0x400123 = Done (Some 0x1123).
Proof. eexists. split; [vm_compute; reflexivity|]. vm_compute. reflexivity. Qed.

(** Growing a mapping in place takes the area that follows it: the page at
    0x600000 was writable. *)
Example mremap_takes_neighbour :
  exists p', @sys_mremap no_frames (fun _ => false) 0x400000 0x200000 0x201000 0 two_areas = Done (0x400000, p') /\
    vma_find (pm_vmas p') 0x600000 = Done (Some (VmArea_new 0x600000 0x601000 VM_READ Anon)).
Proof. eexists. split; [vm_compute; reflexivity|]. vm_compute. reflexivity. Qed.

(** ** [mprotect] *)

(** A mapping with the permissions [flags]; without PRESENT it is none. *)
Definition protect_leaf (flags : Z) (w : option (nat * Z)) : option (nat * Z) :=
  match w with
  | Some (1%nat, e) =>
      let e' := entry_set_flags e (Z.lor (Z.ldiff (entry_flags e) PERMISSION_MASK) flags) in
      if is_present e' then Some (1%nat, e') else None
  | _ => w
  end.

Lemma protection_ok flags : flags_ok (protection flags).
Proof.
  unfold protection, flag_if. repeat case_match; split; try done; vm_compute; congruence.
Qed.

Lemma set_page_flags_walk m root T v new :
  tree m root T -> flags_ok new ->
  let m' := snd (set_page_flags m root v new) in
  tree m' root T /\ walk 4 m' root v = protect_leaf new (walk 4 m root v) /\
  forall v', ~ same_page v v' -> walk 4 m' root v' = walk 4 m root v'.
Proof.
  intros Ht Hf. unfold set_page_flags, modify_entry. destruct (get_pt m root v) as [pt|] eqn:Hg.
  2: { cbn [snd]. apply get_pt_none in Hg. split_and!; try done. by destruct (walk 4 m root v) as [[[|[|k]] e]|]. }
  apply get_pt_reach in Hg. set (e := m (slot pt (level_index 1 v))).
  destruct (set_page_flags_entry e new Hf) as (_ & _ & Hp). set (e' := entry_set_flags e _) in *.
  destruct (negb (is_present e) && _) eqn:Href; cbn [snd].
  - apply andb_true_iff in Href as [He%negb_true_iff _]. split_and!; try done. rewrite (leaf_walk m root v pt Hg). fold e. by rewrite He.
  - split_and!.
    + apply tree_leaf_write; [done|by eapply (reach_table Ht)|apply level_index_bound].
    + rewrite (leaf_write_this m root T v pt), (leaf_walk m root v pt) by done. fold e. destruct (is_present e) eqn:He; [done|].
      cbn [negb andb] in Href. rewrite Hp. destruct (is_present new) eqn:Hn; [|done]. by rewrite (contains_present new Hn) in Href.
    + intros v' Hne. by rewrite (leaf_write_other m root T v v' pt).
Qed.

(** The pages [i] up to [i + n] of the range get the permissions. *)
Lemma protect_pages_spec T addr flags n : forall i p,
  addr mod 4096 = 0 -> 0 <= addr -> 0 <= i -> addr + (i + Z.of_nat n) * 4096 <= U64 ->
  tree (pm_tables p) (pm_root p) T ->
  exists p', protect_pages n i addr flags p = Done p' /\ same_rest p p' /\ pm_cow p' = pm_cow p /\ tree (pm_tables p') (pm_root p) T /\
    forall v, canonical v -> walk 4 (pm_tables p') (pm_root p) v =
      if decide (in_pages addr i n v) then protect_leaf (protection flags) (walk 4 (pm_tables p) (pm_root p) v) else walk 4 (pm_tables p) (pm_root p) v.
Proof.
  induction n as [|n IH]; intros i p Ha Ha0 Hi Hlt Ht; cbn [protect_pages].
  { exists p. split_and!; try done. intros v _. rewrite decide_False; [done|]. unfold in_pages. lia. }
  rewrite Nat2Z.inj_succ in Hlt. rewrite add64_ok by lia. cbn [mbind outcome_bind]. change 0x1000 with 4096.
  set (p1 := snd (set_user_page_flags p (addr + i * 4096) flags)).
  assert (same_rest p p1 /\ pm_cow p1 = pm_cow p /\ tree (pm_tables p1) (pm_root p) T /\
    forall v, canonical v -> walk 4 (pm_tables p1) (pm_root p) v =
      if decide (in_pages addr i 1 v) then protect_leaf (protection flags) (walk 4 (pm_tables p) (pm_root p) v) else walk 4 (pm_tables p) (pm_root p) v)
    as (Hs1 & Hc1 & Ht1 & Hw1).
  { unfold p1, set_user_page_flags. destruct (Z.leb_spec USER_TOP (addr + i * 4096)) as [Hu|Hu].
    { split_and!; try done. intros v _. rewrite decide_False; [done|]. unfold in_pages. lia. }
    destruct (set_page_flags_walk _ _ T (addr + i * 4096) _ Ht (protection_ok flags)) as (H1 & H2 & H3).
    destruct (set_page_flags _ _ _ _) as [r m']. cbn [snd with_tables pm_tables pm_root] in *. split_and!; try done.
    intros v Hv. destruct (decide (in_pages addr i 1 v)) as [Hin|Hout].
    - pose proof (page_same _ _ (page_in addr i v Ha Hin)) as Hs. by rewrite <- !(walk_same_page _ _ _ 4 ltac:(lia) Hs).
    - apply H3, page_out; try done. left. unfold USER_TOP in Hu. lia. }
  assert (pm_root p1 = pm_root p) as Hroot by apply Hs1. rewrite <- Hroot in Ht1.
  destruct (IH (i + 1) p1 Ha Ha0 ltac:(lia) ltac:(lia) Ht1) as (p' & Hrun & Hs2 & Hc2 & Ht2 & Hw2). rewrite Hroot in *.
  exists p'. split_and!; [done|by eapply same_rest_trans|congruence|done|].
  intros v Hv. rewrite Hw2, Hw1 by done. repeat case_decide; try done; unfold in_pages in *; lia.
Qed.

(** An area that meets the range has its flags replaced, in all of it. *)
Definition protect_area (flags lo hi : Z) (a : VmArea) : VmArea := if vma_overlaps a lo hi then with_flags flags a else a.

Lemma protect_area_bounds flags lo hi a :
  va_start (protect_area flags lo hi a) = va_start a /\ va_end (protect_area flags lo hi a) = va_end a.
Proof. unfold protect_area. by case_match. Qed.

Lemma protect_area_ok flags lo hi a : vma_ok a -> vma_ok (protect_area flags lo hi a).
Proof. destruct (protect_area_bounds flags lo hi a) as [H1 H2]. unfold vma_ok. by rewrite H1, H2. Qed.

Lemma protect_area_wf flags lo hi l : wf_list l -> wf_list (protect_area flags lo hi <$> l).
Proof.
  intros [Hf Hs]. split.
  - apply Forall_fmap. eapply Forall_impl; [done|]. intros a. apply protect_area_ok.
  - induction Hs as [|a l Hs IH Hb]; [constructor|]. apply Forall_cons in Hf as [_ Hf]. rewrite fmap_cons. constructor; [by apply IH|].
    apply Forall_fmap. eapply Forall_impl; [done|]. intros b Hab. unfold vma_before in *. cbn.
    destruct (protect_area_bounds flags lo hi a) as [_ ->], (protect_area_bounds flags lo hi b) as [-> _]. done.
Qed.

(** For an aligned area, meeting a page is containing its start. *)
Lemma overlaps_page a x : vma_ok a -> x mod 4096 = 0 -> vma_overlaps a x (x + 4096) = vma_contains a x.
Proof.
  unfold vma_ok, aligned. intros (_ & _ & Hs & He) Hx. apply eq_bool_prop_intro. rewrite !Is_true_true, vma_overlaps_spec, vma_contains_spec.
  rewrite Z.mod_divide in Hs, He, Hx by lia. destruct Hs as [s ->], He as [e ->], Hx as [k ->]. lia.
Qed.

(** No address lies in two areas. *)
Lemma contains_index l x i j a b : wf_list l ->
  l !! i = Some a -> l !! j = Some b -> vma_contains a x = true -> vma_contains b x = true -> i = j.
Proof.
  intros [_ Hs] Hi Hj Ha%vma_contains_spec Hb%vma_contains_spec. rewrite StronglySorted_lookup in Hs.
  destruct (lt_eq_lt_dec i j) as [[Hlt|Heq]|Hlt]; [|done|].
  - pose proof (Hs i j a b Hlt Hi Hj) as H. unfold vma_before in H. lia.
  - pose proof (Hs j i b a Hlt Hj Hi) as H. unfold vma_before in H. lia.
Qed.

(** The update of one page's area. *)
Lemma protect_one flags x l : wf_list l -> x mod 4096 = 0 ->
  exists b, vma_find_mut l x (with_flags flags) = Done (b, protect_area flags x (x + 4096) <$> l).
Proof.
  intros Hw Hx. pose proof Hw as [Hok _]. unfold vma_find_mut.
  destruct (find_index l x Hw) as (r & -> & Hr). cbn [mbind outcome_bind]. destruct r as [i|i].
  - destruct Hr as (a & Hi & Hc). rewrite Hi. exists true. cbn. f_equal. f_equal. apply list_eq. intros j.
    rewrite list_lookup_fmap. destruct (decide (j = i)) as [->|Hji].
    + rewrite list_lookup_insert_eq by (by eapply lookup_lt_Some). rewrite Hi. cbn. unfold protect_area.
      rewrite overlaps_page, Hc; [done| |done]. rewrite Forall_lookup in Hok. by apply (Hok i).
    + rewrite list_lookup_insert_ne by done. destruct (l !! j) as [c|] eqn:Hj; [|done]. cbn. unfold protect_area.
      rewrite overlaps_page; [|rewrite Forall_lookup in Hok; by apply (Hok j)|done].
      destruct (vma_contains c x) eqn:Hcx; [|done]. exfalso. apply Hji.
      by apply (contains_index l x j i c a).
  - exists false. cbn. f_equal. f_equal. apply list_eq. intros j.
    rewrite list_lookup_fmap. destruct (l !! j) as [a|] eqn:Hj; [|done]. assert (a ∈ l) as Ha by by eapply list_elem_of_lookup_2. cbn. unfold protect_area. rewrite overlaps_page, (Hr a Ha); [done| |done]. rewrite Forall_forall in Hok. by apply Hok.
Qed.

(** The loop over the pages reaches each area that meets the range. *)
Lemma protect_areas_spec addr flags n : forall i l,
  addr mod 4096 = 0 -> 0 <= addr -> 0 <= i -> addr + (i + Z.of_nat n) * 4096 <= U64 -> wf_list l ->
  protect_areas n i addr flags l =
    Done (if n is O then l else protect_area flags (addr + i * 4096) (addr + (i + Z.of_nat n) * 4096) <$> l).
Proof.
  induction n as [|n IH]; intros i l Ha Ha0 Hi Hlt Hw; cbn [protect_areas]; [done|].
  rewrite Nat2Z.inj_succ in *. rewrite add64_ok by lia. cbn [mbind outcome_bind]. change 0x1000 with 4096.
  destruct (protect_one flags (addr + i * 4096) l Hw) as (b & ->); [by rewrite Z.mod_add|]. cbn [mbind outcome_bind].
  rewrite IH by (try lia; by apply protect_area_wf). f_equal. destruct n as [|n].
  - f_equal. f_equal; lia.
  - rewrite <- list_fmap_compose. apply list_fmap_ext. intros k a Hk. cbn.
    destruct Hw as [Hok _]. rewrite Forall_lookup in Hok. destruct (Hok k a Hk) as (_ & ? & _). unfold protect_area.
    assert (vma_overlaps a (addr + i * 4096) (addr + (i + Z.succ (Z.of_nat (S n))) * 4096) =
            vma_overlaps a (addr + i * 4096) (addr + i * 4096 + 4096) || vma_overlaps a (addr + (i + 1) * 4096) (addr + (i + 1 + Z.of_nat (S n)) * 4096)) as ->.
    { apply eq_bool_prop_intro. rewrite orb_True, !Is_true_true, !vma_overlaps_spec. lia. }
    destruct (vma_overlaps a (addr + i * 4096) _); [|done]. cbn [orb]. by case_match.
Qed.

(** The range of [n] pages at [addr] has the protection [prot]. *)
Record reprotected (T : Z -> option nat) (addr : Z) (n : nat) (prot : Z) (p p' : ProcMem) : Prop := {
  rp_rest : same_rest (with_vmas p (pm_vmas p')) p' /\ pm_cow p' = pm_cow p;
  rp_tree : tree (pm_tables p') (pm_root p) T;
  rp_walk : forall v, canonical v -> walk 4 (pm_tables p') (pm_root p) v =
    if decide (in_pages addr 0 n v) then protect_leaf (protection (prot_to_memory_flags prot)) (walk 4 (pm_tables p) (pm_root p) v)
    else walk 4 (pm_tables p) (pm_root p) v;
  rp_areas : wf_list (pm_vmas p') /\
    forall x t, mapped_as (pm_vmas p') x t <->
      exists a, a ∈ pm_vmas p /\ vma_contains a x = true /\
        t = if vma_overlaps a addr (addr + Z.of_nat n * 4096) then (prot_to_vm_flags prot 0, va_type a, va_name a, va_name_len a) else attr a
}.

Lemma protect_area_mapped flags lo hi l x t :
  mapped_as (protect_area flags lo hi <$> l) x t <->
  exists a, a ∈ l /\ vma_contains a x = true /\
    t = if vma_overlaps a lo hi then (flags, va_type a, va_name a, va_name_len a) else attr a.
Proof.
  assert (forall a, vma_contains (protect_area flags lo hi a) x = vma_contains a x /\
    attr (protect_area flags lo hi a) = if vma_overlaps a lo hi then (flags, va_type a, va_name a, va_name_len a) else attr a) as Ha.
  { intros a. unfold protect_area. by case_match. }
  unfold mapped_as. split.
  - intros (b & (a & -> & Hin)%list_elem_of_fmap & Hb & <-). destruct (Ha a) as [Hc Ht]. exists a. split_and!; [done|congruence|done].
  - intros (a & Hin & Hb & ->). destruct (Ha a) as [Hc Ht]. exists (protect_area flags lo hi a). split_and!; [by apply list_elem_of_fmap_2|congruence|done].
Qed.


