(* ===== verification/SpaceDrop.v ===== *)
(** * The beginning and the end of an address space

    Creation, [take_for_exit] and [Drop for UserAddressSpace] of
    [proc/proc/src/address_space.rs].  The walk over the user half of the tables
    gives every page up, then the tables found by the walk, the top table and
    whatever is left of the recorded frames are freed.

    The nested loops are one loop at the level of its table, as in [Fork], whose
    [kind] and [width] they share.  The tables are not written.  Freeing is what
    [MemoryManager::free_frames] does to the page frame database; slots of swapped
    pages are collected in the order in which [free_slot] is called. *)
From stdpp Require Import sorting.
From S2P Require Import Prelude Zone PageDb Buddy FrameAlloc Paging Vma Cow Fork MemSys.

(** ** Swapped pages ([mm/mm-swap]) *)

Record SwapEntry := mkSwap { sw_area : Z; sw_slot : Z }.

Definition swap_encode (s : SwapEntry) : Z :=
  Z.lor (Z.lor (Z.shiftl 1 1) (Z.shiftl (Z.land (sw_area s) 7) 2)) (Z.shiftl (sw_slot s) 5).

Definition swap_decode (pte : Z) : option SwapEntry :=
  if negb (Z.land pte 1 =? 0) then None else
  if Z.land pte 2 =? 0 then None else
  Some (mkSwap (Z.land (Z.shiftr pte 2) 7) (Z.land (Z.shiftr pte 5) 0xFFFFFFFF)).

Definition is_swap_entry (pte : Z) : bool := (Z.land pte 1 =? 0) && negb (Z.land pte 2 =? 0).

(** ** Freeing *)

Definition CTX_DROP_LEAF : Z := 1.
Definition CTX_DROP_PT_WALK : Z := 2.
Definition CTX_DROP_PML4 : Z := 3.
Definition CTX_DROP_ALLOC : Z := 4.

Definition free_context (ctx : Z) (c : Cow) : Cow := mkCow (cw_counts c) (set_free_context ctx <$> cw_pdb c).

Definition db_entry (c : Cow) (phys : Z) : option PageFrame :=
  match cw_pdb c with Some w => pdb_get (pw_db w) phys | None => None end.

(** [mm.free_frames(phys, order)], whose result is ignored, as far as the
    database sees it; the free lists are in [Buddy]. *)
Definition mm_free (phys : Z) (order : nat) (c : Cow) : outcome Cow :=
  if (MAX_ORDER <? order)%nat then Done c else
  match cw_pdb c with
  | None => Done c
  | Some w =>
      '(r, w) ← validate_free w phys;
      match r with
      | Err _ => Done (mkCow (cw_counts c) (Some w))
      | Ok _ => w ← mark_free_range w phys 0 (Z.to_nat (pow2 order)); Done (mkCow (cw_counts c) (Some w))
      end
  end.

(** One owner less; the last one frees. *)
Definition release_page (phys : Z) (order : nat) (c : Cow) : outcome Cow :=
  let '(remaining, c) := decrement c phys in
  if remaining =? 0 then mm_free phys order (free_context CTX_DROP_LEAF c) else Done c.

(** ** Step 1: the pages *)

Record DropState := mkDrop {
  dr_cow : Cow;
  dr_slots : list SwapEntry;
  dr_tables : list Z
}.

Definition reserved (c : Cow) (phys : Z) : bool :=
  match db_entry c phys with Some pf => has_flag PF_RESERVED pf | None => false end.

(** A leaf the database says is not a page of this process. *)
Definition skip_leaf (c : Cow) (phys : Z) : bool :=
  match db_entry c phys with
  | Some pf =>
      if negb (Z.land (pf_flags pf) PF_RESERVED =? 0) then true
      else if (pf_flags pf =? PF_FREE) && (pf_refcount pf =? 0) then true
      else negb (Z.land (pf_flags pf) PF_PAGETABLE =? 0)
  | None => false
  end.

Definition drop_leaf (l : nat) (phys : Z) (c : Cow) : outcome Cow :=
  match l with
  | 1%nat => if skip_leaf c phys then Done c else release_page phys 0 c
  | 2%nat => if reserved c phys then Done c else release_page phys 9 c
  | _ => if reserved c phys then Done c else release_page phys 18 c
  end.

(** The body of the loop at an entry [e] of a table of level [l]. *)
Definition drop_entry (rec : Z -> DropState -> outcome DropState) (l : nat) (e : Z) (s : DropState) : outcome DropState :=
  if (l =? 1)%nat && is_swap_entry e then
    Done (mkDrop (dr_cow s) (dr_slots s ++ option_list (swap_decode e)) (dr_tables s))
  else match kind l e with
  | Absent => Done s
  | Mapped => c ← drop_leaf l (entry_addr e) (dr_cow s); Done (mkDrop c (dr_slots s) (dr_tables s))
  | Table t => rec t (mkDrop (dr_cow s) (dr_slots s) (dr_tables s ++ [t]))
  end.

Fixpoint drop_entries (rec : Z -> DropState -> outcome DropState) (l : nat) (m : TableMem) (t : Z) (n : nat) (i : Z)
    (s : DropState) : outcome DropState :=
  match n with
  | O => Done s
  | S n => s ← drop_entry rec l (m (slot t i)) s; drop_entries rec l m t n (i + 1) s
  end.

Fixpoint drop_table (l : nat) (m : TableMem) (t : Z) (s : DropState) : outcome DropState :=
  match l with
  | O => Done s
  | S l' => drop_entries (drop_table l' m) l m t (width l) 0 s
  end.

(** ** Step 2: the tables *)

(** [dedup_by_key]: of equal neighbours the first stays. *)
Fixpoint dedup (l : list Z) : list Z :=
  match l with
  | x :: (y :: _) as l' => if x =? y then dedup l' else x :: dedup l'
  | _ => l
  end.

(** A frame of the kernel is not freed, whatever the tables say. *)
Definition protected (c : Cow) (f : Z) : bool :=
  match db_entry c f with Some pf => has_flag PF_RESERVED pf || has_flag PF_KERNEL pf | None => false end.

Definition free_table (f : Z) (c : Cow) : outcome Cow := if protected c f then Done c else mm_free f 0 c.

Fixpoint free_tables (fs : list Z) (c : Cow) : outcome Cow :=
  match fs with
  | [] => Done c
  | f :: fs => c ← (if f =? 0 then Done c else free_table f c); free_tables fs c
  end.

(** The recorded frames that the walk has not found. *)
Definition left_over (root : Z) (walked allocated : list Z) : list Z :=
  filter (fun f => f <> root /\ f ∉ walked) allocated.

(** [mm_ready]: the memory manager is installed. *)
Definition drop_address_space (mm_ready : bool) (m : TableMem) (root : Z) (allocated : list Z) (c : Cow) :
    outcome (Cow * list SwapEntry) :=
  if negb mm_ready || (root =? 0) then Done (c, []) else
  s ← drop_table 4 m root (mkDrop c [] []);
  let walked := dedup (merge_sort Z.le (dr_tables s)) in
  c ← free_tables walked (free_context CTX_DROP_PT_WALK (dr_cow s));
  c ← (if protected c root then Done c else mm_free root 0 (free_context CTX_DROP_PML4 c));
  c ← free_tables (left_over root walked allocated) (free_context CTX_DROP_ALLOC c);
  Done (c, dr_slots s).

(** ** Creation *)

(** [new_with_kernel]: an empty user half under the kernel's upper half.  The
    result is the top table; no other frame is recorded and there are no areas. *)
Definition new_with_kernel (alloc : Cow -> outcome (option Z * Cow)) (m : TableMem) (kernel_pml4 : Z) (c : Cow) :
    outcome (option Z * TableMem * Cow) :=
  '(r, c) ← alloc c;
  match r with
  | None => Done (None, m, c)
  | Some a => Done (Some a, copy_kernel (table_clear m a) kernel_pml4 a, c)
  end.

(** [from_raw], with the assertion of the debug build; the break and the pool of
    addresses are not part of the address space. *)
Definition from_raw (m : TableMem) (pml4_phys : Z) (frames : list Z) (vmas : VmAreaList) (c : Cow) (brk next : Z) : outcome ProcMem :=
  if bool_decide (pml4_phys ∈ frames) then Fault
  else Done {| pm_tables := m; pm_root := pml4_phys; pm_frames := frames; pm_vmas := vmas; pm_break := brk; pm_next_mmap := next; pm_cow := c |}.

(** The address space itself and the husk it leaves. *)
Definition take_for_exit (p : ProcMem) : ProcMem * ProcMem :=
  (p, {| pm_tables := pm_tables p; pm_root := 0; pm_frames := []; pm_vmas := [];
         pm_break := pm_break p; pm_next_mmap := pm_next_mmap p; pm_cow := pm_cow p |}).

Definition drop_space (p : ProcMem) : outcome (Cow * list SwapEntry) :=
  drop_address_space true (pm_tables p) (pm_root p) (pm_frames p) (pm_cow p).
