(* ===== verification/DropThms.v ===== *)
(** * What the end of an address space gives back

    Dropping an address space takes one owner from each of its pages, frees the
    pages that have no other owner and all its tables, and touches no other
    frame.  Together with [ForkSys]: a child that exits leaves the frames and
    owners as they were before the fork. *)
From stdpp Require Import sorting.
From S2P Require Import Prelude Zone PageDb Buddy FrameAlloc Paging Vma Cow Fork ForkInv ForkWalk ForkSys MemSys MemThms SpaceDrop.

(** ** What a tree of tables holds *)

(** The leaves below a table, in the order of the walk; [f] says what an entry
    that leads to no table has. *)
Definition entry_leaves {A} (f : nat -> Z -> list A) (rec : Z -> list A) (l : nat) (e : Z) : list A :=
  match kind l e with Table t => rec t | _ => f l e end.

Fixpoint leaves {A} (f : nat -> Z -> list A) (l : nat) (m : TableMem) (t : Z) : list A :=
  match l with
  | O => []
  | S l' => gather (fun i => entry_leaves f (leaves f l' m) l (m (slot t i))) (width l) 0
  end.

Definition page_at (l : nat) (e : Z) : list Z := match kind l e with Mapped => [frame_of (entry_addr e)] | _ => [] end.
Definition large_at (l : nat) (e : Z) : list Z := match kind l e with Mapped => if (l =? 1)%nat then [] else [entry_addr e] | _ => [] end.
Definition slot_at (l : nat) (e : Z) : list SwapEntry := if (l =? 1)%nat then option_list (swap_decode e) else [].

Lemma pages_leaves l m : forall t, pages l m t = leaves page_at l m t.
Proof.
  induction l as [|l IH]; intros t; [done|]. cbn [pages leaves]. apply gather_ext. intros i _.
  unfold entry_pages, entry_leaves, page_at. destruct (kind _ _) as [| |t']; [done|done|apply IH].
Qed.

Lemma swap_decode_none pte : is_swap_entry pte = false -> swap_decode pte = None.
Proof. unfold is_swap_entry, swap_decode. destruct (Z.land pte 1 =? 0), (Z.land pte 2 =? 0); done. Qed.

Lemma swap_absent l e : is_swap_entry e = true -> kind l e = Absent.
Proof.
  unfold is_swap_entry, kind. intros [H _]%andb_true_iff. rewrite is_present_bit.
  apply Z.eqb_eq in H. pose proof (f_equal (fun z => Z.testbit z 0) H) as Hb. cbn beta in Hb.
  rewrite Z.land_spec, Z.bits_0, andb_true_r in Hb. by rewrite Hb.
Qed.

Lemma swap_encode_bit s n : 0 <= n ->
  Z.testbit (swap_encode s) n = (n =? 1) || (Z.testbit (sw_area s) (n - 2) && Z.testbit 7 (n - 2)) || Z.testbit (sw_slot s) (n - 5).
Proof.
  intros Hn. unfold swap_encode. rewrite !Z.lor_spec, !Z.shiftl_spec, Z.land_spec by done. do 2 f_equal.
  destruct (Z.eqb_spec n 1) as [->|]; [done|]. destruct (decide (n = 0)) as [->|]; [done|].
  replace 1 with (2 ^ 0) at 1 by done. rewrite Z.pow2_bits_false; [done|lia].
Qed.

(** A swap entry is read back as it was written. *)
Lemma swap_roundtrip s : 0 <= sw_area s < 8 -> 0 <= sw_slot s < U32 -> swap_decode (swap_encode s) = Some s.
Proof.
  destruct s as [area slot]. cbn [sw_area sw_slot]. intros Ha Hs. set (e := swap_encode _).
  assert (forall k, 0 <= k -> (Z.land e (2 ^ k) =? 0) = negb (Z.testbit e k)) as Hbit.
  { intros k Hk. apply eq_bool_prop_intro. rewrite Is_true_true, negb_True, Is_true_true, Z.eqb_eq, not_true_iff_false.
    split; [intros E|intros E; apply Z.bits_inj'; intros n Hn].
    - pose proof (f_equal (fun z => Z.testbit z k) E) as Hb. cbn beta in Hb.
      by rewrite Z.land_spec, Z.pow2_bits_true, Z.bits_0, andb_true_r in Hb by done.
    - rewrite Z.land_spec, Z.bits_0, Z.pow2_bits_eqb by done. destruct (Z.eqb_spec k n) as [->|]; [|apply andb_false_r]. by rewrite E. }
  unfold swap_decode. change 1 with (2 ^ 0) at 1. change 2 with (2 ^ 1) at 2. rewrite !Hbit by lia.
  unfold e at 1 2. rewrite !swap_encode_bit by lia. cbn [sw_area sw_slot]. rewrite !Z.testbit_neg_r by lia. cbn [Z.eqb orb andb negb Pos.eqb].
  assert (forall z k n, 0 <= z < 2 ^ k -> k <= n -> Z.testbit z n = false) as Hhigh.
  { intros z k n Hz Hk. destruct (decide (z = 0)) as [->|]; [apply Z.bits_0|]. apply Z.bits_above_log2; [lia|].
    apply Z.lt_le_trans with k; [apply Z.log2_lt_pow2; lia|done]. }
  f_equal. f_equal; apply Z.bits_inj'; intros n Hn; rewrite Z.land_spec, Z.shiftr_spec by done; unfold e; rewrite swap_encode_bit by lia; cbn [sw_area sw_slot].
  - replace (n + 2 - 2) with n by lia. rewrite (proj2 (Z.eqb_neq _ _)) by lia. cbn [orb]. change 7 with (Z.ones 3).
    rewrite Z.testbit_ones by lia. destruct (Z.leb_spec 0 n), (Z.ltb_spec n 3); try lia; cbn [andb].
    + by rewrite andb_true_r, (Z.testbit_neg_r slot) by lia; rewrite orb_false_r, andb_true_r.
    + rewrite andb_false_r. symmetry. apply (Hhigh area 3); lia.
  - replace (n + 5 - 5) with n by lia. rewrite (proj2 (Z.eqb_neq _ _)) by lia. rewrite (Hhigh area 3 (n + 5 - 2)) by lia. cbn [orb andb].
    change 0xFFFFFFFF with (Z.ones 32). rewrite Z.testbit_ones by lia. destruct (Z.leb_spec 0 n), (Z.ltb_spec n 32); try lia; cbn [andb].
    + by rewrite andb_true_r.
    + rewrite andb_false_r. symmetry. apply (Hhigh slot 32); unfold U32 in *; lia.
Qed.

(** ** Owners *)

Lemma own_minus_app own fs gs : own_minus own (fs ++ gs) = own_minus (own_minus own fs) gs.
Proof. apply foldl_app. Qed.

Lemma releasable_app own fs gs : releasable own (fs ++ gs) <-> releasable own fs /\ releasable (own_minus own fs) gs.
Proof.
  revert own. induction fs as [|f fs IH]; intros own; cbn [app releasable]; [tauto|]. rewrite IH. unfold own_minus. cbn [foldl]. tauto.
Qed.

(** ** One page *)

Lemma held_entry c a : held c a <-> exists pf, db_entry c a = Some pf /\ has_flag PF_ALLOCATED pf = true.
Proof.
  unfold held, db_entry. split.
  - intros (w & pf & -> & H). by exists pf.
  - intros (pf & H & Hf). destruct (cw_pdb c) as [w|]; [|done]. by exists w, pf.
Qed.

(** From [c] to [c'] the pages [P] each lost an owner, those without one are
    free, and no other entry of the database changed. *)
Record dropped (frames : Z) (own : Z -> Z) (P : list Z) (c c' : Cow) : Prop := {
  dp_tracks : tracks_owners frames c' (own_minus own P);
  dp_other : forall x, 0 <= x -> (frame_of x ∉ P) -> db_entry c' x = db_entry c x;
  dp_free : forall x, 0 <= x -> frame_of x ∈ P -> own_minus own P (frame_of x) = 0 -> ~ held c' x
}.

Lemma dropped_nil frames own c : tracks_owners frames c own -> dropped frames own [] c c.
Proof. intros Ht. constructor; [done|done|]. by intros x _ ?%not_elem_of_nil. Qed.

Lemma dropped_trans frames own P Q c c1 c2 :
  dropped frames own P c c1 -> dropped frames (own_minus own P) Q c1 c2 -> dropped frames own (P ++ Q) c c2.
Proof.
  intros [H1 H2 H3] [G1 G2 G3]. constructor.
  - by rewrite own_minus_app.
  - intros x Hx [HP HQ]%not_elem_of_app. by rewrite G2, H2.
  - intros x Hx Hin H0. destruct (decide (frame_of x ∈ Q)) as [HQ|HQ]; [apply G3; by rewrite <- ?own_minus_app|].
    apply elem_of_app in Hin as [HP|]; [|done]. rewrite held_entry, (G2 x Hx HQ), <- held_entry. apply H3; [done|done|].
    rewrite own_minus_app, own_minus_count in H0. rewrite (proj1 (count_occ_not_In _ _ _)) in H0; [lia|]. by rewrite <- list_elem_of_In.
Qed.

(** [w'] is [w] but for the entry of one page. *)
Lemma update_other w w' a g x counts counts' : 0 <= x -> frame_of x <> frame_of a -> frame_update w w' a g ->
  db_entry (mkCow counts' (Some w')) x = db_entry (mkCow counts (Some w)) x.
Proof.
  intros Hx Hne [_ Hget]. unfold db_entry. cbn [cw_pdb]. rewrite Hget by done. rewrite decide_False; [done|].
  unfold frame_of, COW_FRAME_SIZE in Hne. congruence.
Qed.

Lemma context_update w ctx a : frame_update w (set_free_context ctx w) a id.
Proof.
  split; [by intros ? []|]. intros b Hb. cbn. destruct (decide _); [|done]. by rewrite option_fmap_id.
Qed.

Lemma mm_free_spec frames c w a :
  cw_pdb c = Some w -> db_ok frames w -> frame_addr a -> PageDb.releasable (pw_db w) a ->
  exists w', mm_free a 0 c = Done (mkCow (cw_counts c) (Some w')) /\ frame_update w w' a freed_frame.
Proof.
  intros Hw Hok Ha Hr. pose proof (frame_addr_nonneg a Ha) as Hp. unfold mm_free. cbn [Nat.ltb Nat.leb MAX_ORDER]. rewrite Hw.
  destruct (validate_free_spec w a (proj1 Hok) Hp) as (r & w1 & -> & Hdb & Hiff). cbn [mbind outcome_bind].
  assert (r = Ok tt) as -> by by apply Hiff. change (Z.to_nat (pow2 0)) with 1%nat. cbn [mark_free_range].
  assert (a < U64) by (destruct Ha as (p & -> & _ & ?); unfold PHYS_LIMIT, U64 in *; lia).
  rewrite add64_ok by lia. cbn [mbind outcome_bind]. replace (a + 0 * FRAME_SIZE) with a by lia.
  destruct (mark_free_spec w1 a) as (r' & w2 & -> & Hwf2 & Hcnt2 & Hget); [rewrite Hdb; apply Hok|done|].
  cbn [mbind outcome_bind mret outcome_ret]. exists w2. split; [done|]. rewrite Hdb in *. split; [|done]. intros fr [_ <-]. by split.
Qed.

Lemma decrement_update frames c own a : tracks_owners frames c own -> 0 <= a -> own (frame_of a) <> 0 ->
  exists w w' g, cw_pdb c = Some w /\ cw_pdb (snd (decrement c a)) = Some w' /\ frame_update w w' a g.
Proof.
  intros Ht Hp Hn. destruct (owned_entry frames c own a Ht Hp Hn) as (w & pf & Hw & Hpf & Href & Hr & Hc & Hd).
  exists w. unfold decrement. destruct (cw_counts c !! frame_of a) as [n|]; cbn [fst snd cw_pdb].
  - rewrite Hw, (alive_not_stale w a pf Hpf Hd). set (b := _ <=? 1).
    destruct (mirror_dec w a pf b _ Hp Hpf Href Hr Hd) as (g & Hu & _). destruct (ref_dec w a) as [rc w1]. cbn [snd] in Hu. by eexists _, g.
  - exists w, id. split_and!; [done|done|]. split; [done|]. intros x Hx. destruct (decide _); [by rewrite option_fmap_id|done].
Qed.

Lemma release_page_spec frames c own a :
  tracks_owners frames c own -> frame_addr a -> 1 <= own (frame_of a) ->
  exists c', release_page a 0 c = Done c' /\ dropped frames own [frame_of a] c c'.
Proof.
  intros Ht Ha Hn. pose proof (frame_addr_nonneg a Ha) as Hp. unfold release_page.
  destruct (decrement_owners frames c own a Ht Hp ltac:(lia)) as [Hret Htr].
  assert (forall x, frame_of x ∉ [frame_of a] -> frame_of x <> frame_of a) as Hne by (intros x Hx E; apply Hx; by apply list_elem_of_singleton).
  destruct (Z.eqb_spec (own (frame_of a)) 1) as [E|E].
  - destruct (decrement_last frames c own a Ht Hp E) as (w & w1 & g & pf & Hw & Hw1 & Hu & Hpf & Hd & Hrc & Hcnt).
    destruct (decrement c a) as [ret c1]. cbn [fst snd] in *. rewrite Hret, E. cbn [Z.sub Z.add Z.opp Z.pos_sub Z.eqb].
    pose proof Ht as [(w0 & Hw0 & Hok) _]. assert (w0 = w) as -> by congruence.
    pose proof (frame_update_trans _ _ _ _ _ _ Hu (context_update w1 CTX_DROP_LEAF a)) as Hu1. set (w2 := set_free_context _ w1) in *.
    assert (pdb_get (pw_db w2) a = Some (g pf)) as Hg by (rewrite (proj2 Hu1 a Hp), decide_True, Hpf by done; done).
    destruct (mm_free_spec frames (free_context CTX_DROP_LEAF c1) w2 a) as (w3 & -> & Hu3).
    { unfold free_context. by rewrite Hw1. } { by apply Hu1. } { done. }
    { exists (g pf). destruct Hd as (Hal & _ & Hres). auto using has_flag_free. }
    pose proof (frame_update_trans _ _ _ _ _ _ Hu1 Hu3) as Hu4. cbn [free_context cw_counts]. eexists. split; [done|]. constructor.
    + eapply tracks_ext; [|eapply (tracks_change frames c own a w w3); [done|done|done|exact Hu4| |]].
      * intros f. unfold own_minus. cbn [foldl]. unfold with_owners. destruct (Z.eqb_spec f (frame_of a)); [|done]. by rewrite E.
      * intros f Hf. rewrite Hcnt. by apply delete_other.
      * unfold owned. cbn. rewrite Hcnt. apply lookup_delete_eq.
    + intros x Hx Hin. destruct c as [counts pdb]. cbn in Hw. subst pdb. eapply update_other; [done|by apply Hne|exact Hu4].
    + intros x Hx Hin%list_elem_of_singleton _. rewrite held_entry. unfold db_entry. cbn [cw_pdb].
      rewrite (proj2 Hu4 x Hx), decide_True by done. intros (pf0 & (pf1 & _ & ->)%fmap_Some & Hf). done.
  - destruct (decrement_update frames c own a Ht Hp ltac:(lia)) as (w & w1 & g & Hw & Hw1 & Hu).
    destruct (decrement c a) as [ret c1]. cbn [fst snd] in *. rewrite Hret, (proj2 (Z.eqb_neq _ 0)) by lia.
    exists c1. split; [done|]. constructor.
    + apply Htr. lia.
    + intros x Hx Hin. destruct c as [counts pdb], c1 as [counts1 pdb1]. cbn in Hw, Hw1. subst. eapply update_other; [done|by apply Hne|exact Hu].
    + intros x Hx Hin%list_elem_of_singleton H0. rewrite Hin, own_minus_count in H0. cbn in H0. destruct (Z.eq_dec _ _) in H0; [lia|done].
Qed.

(** The database has nothing against giving up an owned page. *)
Lemma owned_not_skipped frames c own a :
  tracks_owners frames c own -> 0 <= a -> own (frame_of a) <> 0 -> skip_leaf c a = false.
Proof.
  intros Ht Hp Hn. destruct (owned_entry frames c own a Ht Hp Hn) as (w & pf & Hw & Hpf & _ & _ & _ & Hd).
  unfold skip_leaf, db_entry. rewrite Hw, Hpf. pose proof (alive_not_stale w a pf Hpf Hd) as Hs. unfold stale in Hs. rewrite Hpf in Hs.
  apply orb_false_iff in Hs as [-> ->]. destruct Hd as (_ & _ & Hr). unfold has_flag in Hr. by rewrite Hr.
Qed.

(** ** The walk *)

(** What [rec] does to the pages [P], slots [S] and tables [T] below it. *)
Definition walks (frames : Z) (own : Z -> Z) (P : list Z) (S : list SwapEntry) (T : list Z) (s s' : DropState) : Prop :=
  dropped frames own P (dr_cow s) (dr_cow s') /\ dr_slots s' = dr_slots s ++ S /\ dr_tables s' = dr_tables s ++ T.

Lemma walks_trans frames own P Q S S' T T' s s1 s2 :
  walks frames own P S T s s1 -> walks frames (own_minus own P) Q S' T' s1 s2 -> walks frames own (P ++ Q) (S ++ S') (T ++ T') s s2.
Proof.
  intros (H1 & H2 & H3) (G1 & G2 & G3). split_and!; [by eapply dropped_trans|by rewrite G2, H2, app_assoc|by rewrite G3, H3, app_assoc].
Qed.

Definition table_dropped (frames : Z) (m : TableMem) (l : nat) : Prop := forall own t s,
  tracks_owners frames (dr_cow s) own -> releasable own (leaves page_at l m t) -> leaves large_at l m t = [] ->
  exists s', drop_table l m t s = Done s' /\ walks frames own (leaves page_at l m t) (leaves slot_at l m t) (tabs l m t) s s'.

Lemma drop_entry_spec frames m l own e s : table_dropped frames m l ->
  tracks_owners frames (dr_cow s) own -> releasable own (entry_leaves page_at (leaves page_at l m) (S l) e) ->
  entry_leaves large_at (leaves large_at l m) (S l) e = [] ->
  exists s', drop_entry (drop_table l m) (S l) e s = Done s' /\
    walks frames own (entry_leaves page_at (leaves page_at l m) (S l) e) (entry_leaves slot_at (leaves slot_at l m) (S l) e)
      (entry_tabs (tabs l m) (S l) e) s s'.
Proof.
  intros IH Ht Hr Hlarge. unfold drop_entry, entry_leaves, entry_tabs, page_at, large_at, slot_at in *.
  destruct ((S l =? 1)%nat && is_swap_entry e) eqn:Hsw.
  { apply andb_true_iff in Hsw as [H1 Hsw]. rewrite (swap_absent _ _ Hsw), H1 in *. eexists. split; [done|].
    split_and!; [by apply dropped_nil|done|by rewrite app_nil_r]. }
  assert ((if (S l =? 1)%nat then option_list (swap_decode e) else []) = []) as Hno.
  { destruct (S l =? 1)%nat; [|done]. cbn [andb] in Hsw. by rewrite swap_decode_none. }
  destruct (kind (S l) e) as [| |t] eqn:Hk.
  - eexists. split; [done|]. rewrite Hno. split_and!; [by apply dropped_nil|by rewrite app_nil_r..].
  - destruct (Nat.eqb_spec (S l) 1) as [E|]; [|done]. injection E as ->. cbn [drop_leaf]. destruct Hr as [Hr _].
    rewrite (owned_not_skipped frames (dr_cow s) own) by (done || lia || apply frame_addr_nonneg, entry_addr_frame).
    destruct (release_page_spec frames (dr_cow s) own (entry_addr e) Ht (entry_addr_frame e) Hr) as (c' & -> & Hd).
    cbn [mbind outcome_bind]. eexists. split; [done|]. rewrite Hno. split_and!; [done|by rewrite app_nil_r..].
  - destruct (IH own t (mkDrop (dr_cow s) (dr_slots s) (dr_tables s ++ [t])) Ht Hr Hlarge) as (s' & Hrun & H1 & H2 & H3).
    exists s'. split; [done|]. split_and!; [done|done|]. rewrite H3. cbn [dr_tables]. by rewrite <- app_assoc.
Qed.

Lemma drop_entries_spec frames m l t : table_dropped frames m l -> forall n i own s,
  tracks_owners frames (dr_cow s) own ->
  releasable own (gather (fun i => entry_leaves page_at (leaves page_at l m) (S l) (m (slot t i))) n i) ->
  gather (fun i => entry_leaves large_at (leaves large_at l m) (S l) (m (slot t i))) n i = [] ->
  exists s', drop_entries (drop_table l m) (S l) m t n i s = Done s' /\
    walks frames own (gather (fun i => entry_leaves page_at (leaves page_at l m) (S l) (m (slot t i))) n i)
      (gather (fun i => entry_leaves slot_at (leaves slot_at l m) (S l) (m (slot t i))) n i)
      (gather (fun i => entry_tabs (tabs l m) (S l) (m (slot t i))) n i) s s'.
Proof.
  intros IHl n. induction n as [|n IH]; intros i own s Ht Hr Hlarge; cbn [drop_entries gather] in *.
  { exists s. split; [done|]. split_and!; [by apply dropped_nil|by rewrite app_nil_r..]. }
  apply releasable_app in Hr as [Hr1 Hr2]. apply app_eq_nil in Hlarge as [Hl1 Hl2].
  destruct (drop_entry_spec frames m l own (m (slot t i)) s IHl Ht Hr1 Hl1) as (s1 & -> & Hw1). cbn [mbind outcome_bind].
  destruct (IH (i + 1) _ s1 (dp_tracks _ _ _ _ _ (proj1 Hw1)) Hr2 Hl2) as (s2 & -> & Hw2). exists s2. split; [done|]. by eapply walks_trans.
Qed.

Lemma drop_table_spec frames m l : table_dropped frames m l.
Proof.
  induction l as [|l IH]; intros own t s Ht Hr Hlarge.
  { exists s. split; [done|]. split_and!; [by apply dropped_nil|by rewrite app_nil_r..]. }
  by apply (drop_entries_spec frames m l t IH).
Qed.

(** ** The tables *)

Lemma dedup_elem l x : x ∈ dedup l <-> x ∈ l.
Proof.
  induction l as [|a l IH]; [done|]. destruct l as [|b l]; [done|]. cbn [dedup] in *. destruct (Z.eqb_spec a b) as [->|].
  - rewrite IH, !elem_of_cons. tauto.
  - by rewrite !(elem_of_cons _ x a), IH.
Qed.

Lemma dedup_NoDup l : StronglySorted Z.le l -> NoDup (dedup l).
Proof.
  induction 1 as [|a l Hs IH Hf]; [constructor|]. destruct l as [|b l]; [apply NoDup_singleton|].
  change (dedup (a :: b :: l)) with (if a =? b then dedup (b :: l) else a :: dedup (b :: l)).
  destruct (Z.eqb_spec a b) as [|Hne]; [done|]. apply NoDup_cons. split; [|done]. rewrite dedup_elem.
  apply Forall_cons in Hf as [Hab _]. apply StronglySorted_inv in Hs as [_ Hb]. rewrite Forall_forall in Hb.
  intros [->|Hin]%elem_of_cons; [done|]. specialize (Hb a Hin). lia.
Qed.

(** The walked tables as they are freed: each once. *)
Lemma walked_once l : NoDup (dedup (merge_sort Z.le l)) /\ forall x, x ∈ dedup (merge_sort Z.le l) <-> x ∈ l.
Proof.
  split; [apply dedup_NoDup, (StronglySorted_merge_sort Z.le)|]. intros x. rewrite dedup_elem. by rewrite (merge_sort_Permutation Z.le l).
Qed.

(** The frame is in use and may be freed as a table. *)
Definition freeable (c : Cow) (f : Z) : Prop :=
  exists pf, db_entry c f = Some pf /\ has_flag PF_ALLOCATED pf = true /\ has_flag PF_RESERVED pf = false /\
    has_flag PF_KERNEL pf = false /\ pf_refcount pf <= 1.

(** From [c] to [c'] the frames [fs] were freed and nothing else changed. *)
Record freed (frames : Z) (own : Z -> Z) (fs : list Z) (c c' : Cow) : Prop := {
  fr_tracks : tracks_owners frames c' own;
  fr_other : forall x, frame_addr x -> (x ∉ fs) -> db_entry c' x = db_entry c x;
  fr_free : forall x, x ∈ fs -> frame_addr x -> ~ held c' x
}.

Lemma freed_trans frames own fs gs c c1 c2 :
  freed frames own fs c c1 -> freed frames own gs c1 c2 -> freed frames own (fs ++ gs) c c2.
Proof.
  intros [H1 H2 H3] [G1 G2 G3]. constructor; [done|..].
  - intros x Hx [HF HG]%not_elem_of_app. by rewrite G2, H2.
  - intros x Hin Hx. destruct (decide (x ∈ gs)) as [HG|HG]; [by apply G3|]. rewrite held_entry, (G2 x Hx HG), <- held_entry.
    apply H3; [|done]. apply elem_of_app in Hin. tauto.
Qed.

Lemma context_entry ctx c x : db_entry (free_context ctx c) x = db_entry c x.
Proof. unfold db_entry, free_context. cbn [cw_pdb]. by destruct (cw_pdb c). Qed.

Lemma context_tracks frames ctx c own : tracks_owners frames c own -> tracks_owners frames (free_context ctx c) own.
Proof.
  intros [(w & Hw & Hok) Hown]. split; [exists (set_free_context ctx w); unfold free_context; by rewrite Hw|].
  intros f Hf. specialize (Hown f Hf). unfold owned in *. destruct (own f =? 0); [done|].
  destruct Hown as (H1 & H2 & w0 & pf & Hw0 & Hrest). split_and!; [done|lia|lia|]. exists (set_free_context ctx w0), pf.
  unfold free_context. cbn [cw_pdb]. by rewrite Hw0.
Qed.

Lemma context_freed frames ctx own c : tracks_owners frames c own -> freed frames own [] c (free_context ctx c).
Proof. intros Ht. constructor; [by apply context_tracks|intros; apply context_entry|by intros x ?%not_elem_of_nil]. Qed.

Lemma mm_free_table frames c own f :
  tracks_owners frames c own -> frame_addr f -> own (frame_of f) = 0 -> freeable c f ->
  protected c f = false /\ exists c', mm_free f 0 c = Done c' /\ freed frames own [f] c c'.
Proof.
  intros Ht Hf H0 (pf & Hpf & Hall & Hres & Hker & Hrc). pose proof (frame_addr_nonneg f Hf) as Hp.
  split; [unfold protected; by rewrite Hpf, Hres, Hker|]. pose proof Ht as [(w & Hw & Hok) _]. unfold db_entry in Hpf. rewrite Hw in Hpf.
  destruct (mm_free_spec frames c w f Hw Hok Hf) as (w' & -> & Hu); [exists pf; auto using has_flag_free|].
  eexists. split; [done|]. constructor.
  - by eapply tracks_unowned.
  - intros x Hx Hne. destruct c as [counts pdb]. cbn in Hw. subst pdb. eapply update_other; [by apply frame_addr_nonneg| |exact Hu].
    intros E. apply Hne, list_elem_of_singleton. by apply frame_addr_inj.
  - intros x ->%list_elem_of_singleton _. rewrite held_entry. unfold db_entry. cbn [cw_pdb].
    rewrite (proj2 Hu f Hp), decide_True, Hpf by done. by intros (? & [= <-] & ?).
Qed.

Lemma free_tables_spec frames own fs : forall c,
  tracks_owners frames c own -> NoDup fs -> (forall f, f ∈ fs -> f <> 0 /\ frame_addr f /\ own (frame_of f) = 0 /\ freeable c f) ->
  exists c', free_tables fs c = Done c' /\ freed frames own fs c c'.
Proof.
  induction fs as [|f fs IH]; intros c Ht Hnd Hfs; cbn [free_tables].
  { exists c. split; [done|]. constructor; [done|done|]. by intros x ?%not_elem_of_nil. }
  apply NoDup_cons in Hnd as [Hni Hnd]. destruct (Hfs f (list_elem_of_here _ _)) as (Hnz & Hf & H0 & Hfr).
  rewrite (proj2 (Z.eqb_neq f 0) Hnz). unfold free_table.
  destruct (mm_free_table frames c own f Ht Hf H0 Hfr) as (-> & c1 & -> & Hd1). cbn [mbind outcome_bind].
  destruct (IH c1 (fr_tracks _ _ _ _ _ Hd1) Hnd) as (c2 & -> & Hd2).
  { intros g Hg. destruct (Hfs g (list_elem_of_further _ _ _ Hg)) as (G1 & G2 & G3 & pf & G4 & G5).
    split_and!; [done..|]. exists pf. rewrite (fr_other _ _ _ _ _ Hd1); [done|done|]. intros ->%list_elem_of_singleton. done. }
  exists c2. split; [done|]. exact (freed_trans _ _ [f] fs _ _ _ Hd1 Hd2).
Qed.

(** ** The whole address space *)

Lemma releasable_owned fs f : forall own, releasable own fs -> f ∈ fs -> 1 <= own f.
Proof.
  induction fs as [|g fs IH]; intros own; [by intros _ ?%not_elem_of_nil|]. intros [H1 H2] [->|Hin]%elem_of_cons; [done|].
  specialize (IH _ H2 Hin). unfold with_owners in IH. destruct (Z.eqb_spec f g) as [->|]; lia.
Qed.

(** Frames recorded as tables may be freed. *)
Definition tables_ok (own : Z -> Z) (c : Cow) (ts : list Z) : Prop :=
  forall x, x ∈ ts -> x <> 0 /\ frame_addr x /\ own (frame_of x) = 0 /\ freeable c x.

Lemma tables_keep own own' c c' ts :
  tables_ok own c ts -> (forall x, x ∈ ts -> own' (frame_of x) = own (frame_of x) /\ db_entry c' x = db_entry c x) -> tables_ok own' c' ts.
Proof.
  intros H Hk x Hx. destruct (H x Hx) as (H1 & H2 & H3 & pf & H4 & H5), (Hk x Hx) as [-> He]. split_and!; [done..|]. exists pf. by rewrite He.
Qed.

(** Steps 2 to 4: the tables [walked], the top table and what is left. *)
Lemma free_structures frames own root walked allocated c ts :
  tracks_owners frames c own -> tables_ok own c (root :: ts ++ allocated) -> NoDup walked -> (forall x, x ∈ walked <-> x ∈ ts) ->
  (root ∉ ts) -> NoDup allocated ->
  exists c1 c2 c3, free_tables walked (free_context CTX_DROP_PT_WALK c) = Done c1 /\ protected c1 root = false /\
    mm_free root 0 (free_context CTX_DROP_PML4 c1) = Done c2 /\
    free_tables (left_over root walked allocated) (free_context CTX_DROP_ALLOC c2) = Done c3 /\
    exists F, freed frames own F c c3 /\ forall x, x ∈ F <-> x ∈ root :: ts ++ allocated.
Proof.
  intros Ht Hok Hnd Hw Hroot Hal. set (L := left_over root walked allocated).
  assert (forall x, x ∈ L <-> x ∈ allocated /\ x <> root /\ (x ∉ ts)) as HL.
  { intros x. unfold L, left_over. rewrite list_elem_of_filter, Hw. tauto. }
  assert (forall x, x ∈ walked -> x ∈ root :: ts ++ allocated) as Hsub1 by (intros x Hx%Hw; apply list_elem_of_further, elem_of_app; by left).
  assert (forall x, x ∈ L -> x ∈ root :: ts ++ allocated) as Hsub2 by (intros x Hx%HL; apply list_elem_of_further, elem_of_app; tauto).
  pose proof (context_freed frames CTX_DROP_PT_WALK own c Ht) as F0.
  destruct (free_tables_spec frames own walked _ (fr_tracks _ _ _ _ _ F0) Hnd) as (c1 & Hr1 & F1).
  { apply (tables_keep own own c); [intros x Hx; by apply Hok, Hsub1|]. intros x _. split; [done|apply context_entry]. }
  pose proof (context_freed frames CTX_DROP_PML4 own c1 (fr_tracks _ _ _ _ _ F1)) as G0.
  destruct (Hok root (list_elem_of_here _ _)) as (_ & Hrf & Hro & Hrfr).
  assert (db_entry c1 root = db_entry c root) as Hre.
  { rewrite (fr_other _ _ _ _ _ F1), context_entry; [done|done|by rewrite Hw]. }
  destruct (mm_free_table frames (free_context CTX_DROP_PML4 c1) own root (fr_tracks _ _ _ _ _ G0) Hrf Hro) as (Hp & c2 & Hr2 & G1).
  { destruct Hrfr as (pf & Hpf & Hrest). exists pf. by rewrite context_entry, Hre. }
  pose proof (context_freed frames CTX_DROP_ALLOC own c2 (fr_tracks _ _ _ _ _ G1)) as H0.
  destruct (free_tables_spec frames own L _ (fr_tracks _ _ _ _ _ H0)) as (c3 & Hr3 & H1).
  { unfold L, left_over. by apply NoDup_filter. }
  { apply (tables_keep own own c); [intros x Hx; by apply Hok, Hsub2|]. intros x Hx. split; [done|]. apply HL in Hx as (Hx1 & Hx2 & Hx3).
    assert (x ∈ L) as Hxl by by apply HL. destruct (Hok x (Hsub2 x Hxl)) as (_ & Hxf & _).
    rewrite context_entry, (fr_other _ _ _ _ _ G1), context_entry, (fr_other _ _ _ _ _ F1), context_entry; try done; [by rewrite Hw|].
    by rewrite list_elem_of_singleton. }
  exists c1, c2, c3. unfold protected in *. rewrite context_entry in Hp. split_and!; [done..|].
  exists (([] ++ walked) ++ (([] ++ [root]) ++ ([] ++ L))). split; [by repeat eapply freed_trans|].
  intros x. cbn [app]. rewrite elem_of_app, !elem_of_cons, elem_of_app, HL, Hw.
  destruct (decide (x = root)), (decide (x ∈ ts)); tauto.
Qed.

(** What an address space about to be dropped looks like: its pages are small
    and have it as an owner, its tables are its own. *)
Record droppable (frames : Z) (m : TableMem) (root : Z) (allocated : list Z) (c : Cow) (own : Z -> Z) : Prop := {
  da_tracks : tracks_owners frames c own;
  da_pages : releasable own (pages 4 m root);
  da_small : leaves large_at 4 m root = [];
  da_tables : tables_ok own c (root :: tabs 4 m root ++ allocated);
  da_root : root ∉ tabs 4 m root;
  da_allocated : NoDup allocated
}.

Record space_dropped (frames : Z) (m : TableMem) (root : Z) (allocated : list Z) (c : Cow) (own : Z -> Z) (c' : Cow) : Prop := {
  sd_owners : tracks_owners frames c' (own_minus own (pages 4 m root));
  sd_held : forall x, frame_addr x -> held c' x <->
    held c x /\ (x ∉ root :: tabs 4 m root ++ allocated) /\
    ~ (frame_of x ∈ pages 4 m root /\ own_minus own (pages 4 m root) (frame_of x) = 0);
  sd_other : forall x, frame_addr x -> (x ∉ root :: tabs 4 m root ++ allocated) -> (frame_of x ∉ pages 4 m root) ->
    db_entry c' x = db_entry c x
}.

(** An owned frame is in use. *)
Lemma owned_held frames c own x : tracks_owners frames c own -> frame_addr x -> own (frame_of x) <> 0 -> held c x.
Proof.
  intros Ht Hx Hn. destruct (owned_entry frames c own x Ht (frame_addr_nonneg x Hx) Hn) as (w & pf & Hw & Hpf & _ & _ & _ & Hd).
  exists w, pf. split_and!; try done. apply Hd.
Qed.

Lemma drop_frames frames own P (ts : list Z) c c1 c' F :
  tracks_owners frames c own -> releasable own P -> dropped frames own P c c1 -> freed frames (own_minus own P) F c1 c' ->
  (forall x, x ∈ F <-> x ∈ ts) -> forall x, frame_addr x ->
  (held c' x <-> held c x /\ (x ∉ ts) /\ ~ (frame_of x ∈ P /\ own_minus own P (frame_of x) = 0)) /\
  ((x ∉ ts) -> (frame_of x ∉ P) -> db_entry c' x = db_entry c x).
Proof.
  intros Ht Hr [D1 D2 D3] [F1 F2 F3] HF x Hx. pose proof (frame_addr_nonneg x Hx) as Hp. rewrite <- HF.
  destruct (decide (x ∈ F)) as [Hin|Hout]; [split; [|done]; split; [by intros ?%F3|tauto]|].
  rewrite held_entry, (F2 x Hx Hout), <- held_entry. split; [|intros _; by apply D2].
  destruct (decide (frame_of x ∈ P)) as [HP|HP]; [|by rewrite !held_entry, (D2 x Hp HP); tauto].
  pose proof (releasable_owned P _ own Hr HP) as H1. destruct (decide (own_minus own P (frame_of x) = 0)) as [E|E].
  - split; [by intros ?%D3|tauto].
  - split; [intros _|intros _; by eapply owned_held]. split_and!; [|done|tauto]. eapply owned_held; [done|done|lia].
Qed.

Lemma drop_address_space_spec frames m root allocated c own : droppable frames m root allocated c own ->
  exists c', drop_address_space true m root allocated c = Done (c', leaves slot_at 4 m root) /\
    space_dropped frames m root allocated c own c'.
Proof.
  intros [Ht Hpg Hsmall Hts Hroot Hal]. unfold drop_address_space.
  destruct (Hts root (list_elem_of_here _ _)) as (Hnz & _). rewrite (proj2 (Z.eqb_neq root 0) Hnz). cbn [negb orb].
  rewrite pages_leaves in Hpg. destruct (drop_table_spec frames m 4 own root (mkDrop c [] []) Ht Hpg Hsmall) as (s & -> & Hd & Hsl & Htb).
  rewrite <- pages_leaves in Hpg, Hd. cbn [mbind outcome_bind dr_cow dr_slots dr_tables app] in *. rewrite Hsl, Htb.
  destruct (walked_once (tabs 4 m root)) as [Hnd Hw]. set (walked := dedup _) in *.
  destruct (free_structures frames (own_minus own (pages 4 m root)) root walked allocated (dr_cow s) (tabs 4 m root))
    as (c1 & c2 & c3 & -> & Hp & Hr2 & Hr3 & F & HF & Hin); [apply Hd| |done|done|done|done|].
  { apply (tables_keep own _ c); [done|]. intros x Hx. destruct (Hts x Hx) as (_ & Hxf & Hxo & _).
    assert (frame_of x ∉ pages 4 m root) as Hnp by (intros H; pose proof (releasable_owned _ _ _ Hpg H); lia).
    split; [|apply Hd; [by apply frame_addr_nonneg|done]]. rewrite own_minus_count, (proj1 (count_occ_not_In _ _ _)); [lia|]. by rewrite <- list_elem_of_In. }
  cbn [mbind outcome_bind]. rewrite Hp. cbv iota. rewrite Hr2. cbn [mbind outcome_bind]. rewrite Hr3. cbn [mbind outcome_bind].
  exists c3. split; [done|]. pose proof (drop_frames frames own _ _ c _ c3 F Ht Hpg Hd HF Hin) as Hfin.
  constructor; [apply HF|intros x Hx; by apply Hfin|intros x Hx; by apply Hfin].
Qed.

(** C12.  The end of an address space.  When its pages are small, each has the
    space among its owners for every mapping, and its tables are marked in use
    and unshared, dropping the space returns: every page loses one owner per
    mapping, exactly the tables and the pages that have no owner left are given
    back, every swapped page's slot is freed, and the database entry of every
    other frame is as before. *)
Theorem drop_correct frames m root allocated c own (Hd : droppable frames m root allocated c own) :
  exists c', drop_address_space true m root allocated c = Done (c', leaves slot_at 4 m root) /\
    space_dropped frames m root allocated c own c'.
Proof. by apply drop_address_space_spec. Qed.

Ltac demo_held := eexists; split; [vm_compute; reflexivity|by split_and!].

Lemma fork_demo_tabs : tabs 4 fork_demo_map 0x2000 = [0x3000; 0x4000; 0x5000; 0x6000].
Proof. vm_compute. reflexivity. Qed.

Lemma fork_demo_droppable :
  droppable 16 fork_demo_map 0x2000 [0x3000; 0x4000; 0x5000; 0x6000] fork_demo_cow fork_demo_own.
Proof.
  constructor.
  - exact fork_demo_tracks.
  - rewrite fork_demo_pages. by vm_compute.
  - vm_compute. reflexivity.
  - rewrite fork_demo_tabs. unfold tables_ok. apply Forall_forall. repeat (apply Forall_cons_2; [split; [done|]; split; [demo_frame|]; split; [done|demo_held]|]). apply Forall_nil_2.
  - rewrite fork_demo_tabs. apply (bool_decide_unpack _). vm_compute. done.
  - apply (bool_decide_unpack _). vm_compute. done.
Qed.

Lemma drop_correct_witness :
  exists c', drop_address_space true fork_demo_map 0x2000 [0x3000; 0x4000; 0x5000; 0x6000] fork_demo_cow = Done (c', []) /\
    tracks_owners 16 c' (own_minus fork_demo_own [1]) /\ ~ held c' 0x1000 /\ ~ held c' 0x5000 /\ held c' 0.
Proof.
  destruct (drop_correct 16 fork_demo_map 0x2000 [0x3000; 0x4000; 0x5000; 0x6000] fork_demo_cow fork_demo_own fork_demo_droppable)
    as (c' & Hrun & [Hown Hheld _]).
  exists c'. rewrite fork_demo_pages in *. split; [rewrite Hrun; do 2 f_equal; vm_compute; reflexivity|]. split; [exact Hown|].
  split_and!; rewrite Hheld by demo_frame.
  - intros (_ & _ & H). apply H. split; [apply list_elem_of_here|done].
  - intros (_ & H & _). apply H. apply list_elem_of_further, elem_of_app. right. apply (bool_decide_unpack _). vm_compute. done.
  - split; [eexists _, _; split; [reflexivity|]; split; [vm_compute; reflexivity|done]|]. split; [|intros [H _]; revert H; apply (bool_decide_unpack _); vm_compute; done].
    rewrite fork_demo_tabs. apply (bool_decide_unpack _). vm_compute. done.
Defined.

(** ** Fork and exit *)

(** The leaves of a clone are those of the parent, as far as [f] on the shared
    entries agrees with [g] on the old ones. *)
Lemma cloned_leaves {A} (f g : nat -> Z -> list A) m0 l :
  (forall l e, kind l e = Absent -> f l 0 = g l e) -> (forall l e, kind l e = Mapped -> f l (shared e) = g l e) ->
  forall ix s t a N, cloned m0 l ix s t a N -> leaves f l (fs_mem s) a = leaves g l m0 t.
Proof.
  intros Hab Hma. induction l as [|l IH]; intros ix s t a N; cbn [cloned leaves]; [done|]. intros (P & _ & HP). apply gather_ext.
  intros j Hj. specialize (HP j Hj). unfold entry_cloned, entry_leaves in *. destruct (kind (S l) (m0 (slot t j))) as [| |t'] eqn:Hk.
  - destruct HP as (_ & -> & _). rewrite kind_zero. by apply Hab.
  - destruct HP as (_ & -> & _). rewrite kind_shared, Hk. by apply Hma.
  - destruct HP as (_ & a' & N' & _ & Ha' & -> & Hrec). rewrite (kind_new_table _ _ _ _ Hk Ha'). by eapply IH.
Qed.

Lemma leaves_none {A} l m : forall t, leaves (fun _ _ => [] : list A) l m t = [].
Proof.
  induction l as [|l IH]; intros t; [done|]. cbn [leaves]. generalize 0 at 1. induction (width (S l)) as [|n IHn]; intros i; [done|].
  cbn [gather]. rewrite IHn, app_nil_r. unfold entry_leaves. case_match; [done|done|apply IH].
Qed.

Lemma present_not_swap e : is_present e = true -> swap_decode e = None.
Proof.
  intros Hp. apply swap_decode_none. unfold is_swap_entry. destruct (Z.land e 1 =? 0) eqn:E; [|done]. exfalso.
  apply Z.eqb_eq in E. pose proof (f_equal (fun z => Z.testbit z 0) E) as Hb. cbn beta in Hb.
  rewrite Z.land_spec, Z.bits_0, andb_true_r, <- is_present_bit, Hp in Hb. done.
Qed.

Lemma mapped_present l e : kind l e = Mapped -> is_present e = true.
Proof. unfold kind. by destruct (is_present e). Qed.

(** A clone has the parent's pages, the parent's large pages and no swapped pages. *)
Lemma cloned_content m0 ix s t a N : cloned m0 4 ix s t a N ->
  pages 4 (fs_mem s) a = pages 4 m0 t /\ leaves large_at 4 (fs_mem s) a = leaves large_at 4 m0 t /\ leaves slot_at 4 (fs_mem s) a = [].
Proof.
  intros Hcl. rewrite !pages_leaves. split_and!.
  - eapply cloned_leaves; [| |exact Hcl]; intros l e Hk; unfold page_at; [by rewrite kind_zero, Hk|by rewrite kind_shared, Hk, shared_addr].
  - eapply cloned_leaves; [| |exact Hcl]; intros l e Hk; unfold large_at; [by rewrite kind_zero, Hk|by rewrite kind_shared, Hk, shared_addr].
  - rewrite <- (leaves_none 4 m0 t). eapply cloned_leaves; [| |exact Hcl]; intros l e Hk; unfold slot_at; case_match; try done.
    rewrite present_not_swap; [done|]. by rewrite shared_present, (mapped_present l).
Qed.

Lemma releasable_count fs : forall own, (forall f, f ∈ fs -> Z.of_nat (count_occ Z.eq_dec fs f) <= own f) -> releasable own fs.
Proof.
  induction fs as [|g fs IH]; intros own H; [done|]. pose proof (H g (list_elem_of_here _ _)) as Hg. cbn [count_occ] in Hg.
  destruct (Z.eq_dec g g); [|done]. split; [lia|]. apply IH. intros f Hf. specialize (H f (list_elem_of_further _ _ _ Hf)). cbn [count_occ] in H.
  unfold with_owners. destruct (Z.eqb_spec f g) as [->|Hne]; [lia|]. by destruct (Z.eq_dec g f).
Qed.

Lemma shared_releasable own fs : sharable own fs -> releasable (own_plus own fs) fs.
Proof. intros Hs. apply releasable_count. intros f Hf. rewrite own_plus_count. pose proof (sharable_owned own fs f Hs Hf). lia. Qed.

Lemma plus_minus own fs f : own_minus (own_plus own fs) fs f = own f.
Proof. rewrite own_minus_count, own_plus_count. lia. Qed.

(** A forked child can be dropped. *)
Lemma child_droppable frames m c own root s child fr :
  tracks_owners frames c own -> sharable own (pages 4 m root) -> leaves large_at 4 m root = [] -> held c 0 ->
  fork_done frames m c own root s child fr -> droppable frames (fs_mem s) child fr (fs_cow s) (own_plus own (pages 4 m root)).
Proof.
  intros Ht Hsh Hsmall H0 [Hcl (Hfr & Hnd & _) _ Hfresh _ Hown _ _ _ _]. destruct (cloned_content _ _ _ _ _ _ Hcl) as (Hpg & Hlg & _).
  rewrite Hfr in Hnd. apply NoDup_cons in Hnd as [Hni Hnd]. constructor.
  - done.
  - rewrite Hpg. by apply shared_releasable.
  - by rewrite Hlg.
  - rewrite <- Hfr. intros x Hx. assert (x ∈ child :: fr) as Hx' by (apply elem_of_cons in Hx as [->|Hx]; [apply list_elem_of_here|];
      apply list_elem_of_further; apply elem_of_app in Hx; tauto).
    destruct (Hfresh x Hx') as (Hxf & Hnh & w & pf & Hw & Hpf & Hfl & Hrc). split_and!; [by intros ->|done|..].
    + apply sharable_unowned; [done|]. by eapply unheld_unowned.
    + exists pf. unfold db_entry, has_flag. rewrite Hw, Hfl, Hrc. split_and!; done.
  - done.
  - by rewrite Hfr.
Qed.

(** C11.  Fork and exit.  A child whose address space is dropped after the fork
    leaves no trace but the write protection: every frame has the owners it had
    before, the frames in use are those that were in use, no swap slot is freed,
    and the parent maps every user address to the same frame.  (Pages are small
    and frame 0 is never handed out.) *)
Theorem fork_exit_restores frames alloc free m c own root watch (Hlaw : table_alloc_lawful frames alloc free)
    (Ht : tracks_owners frames c own) (Hp : parent_ok m c root) (Hsh : sharable own (pages 4 m root))
    (Hsmall : leaves large_at 4 m root = []) (H0 : held c 0) :
  exists r s, clone_address_space_cow alloc free m c root watch = Done (r, s) /\
    match r with
    | Err e => e = OutOfMemory
    | Ok (child, fr) => exists c', drop_address_space true (fs_mem s) child fr (fs_cow s) = Done (c', []) /\
        tracks_owners frames c' own /\ (forall x, frame_addr x -> held c' x <-> held c x) /\
        forall v, 0 <= v < 2 ^ 47 -> translate (fs_mem s) root v = translate m root v
    end.
Proof.
  destruct (clone_address_space_cow_spec frames alloc free m c own root watch Hlaw Ht Hp Hsh) as (r & s & Hrun & _ & Hr).
  exists r, s. split; [done|]. destruct r as [[child fr]|e]; [|by destruct Hr]. destruct Hr as [Hd _].
  destruct (drop_address_space_spec _ _ _ _ _ _ (child_droppable _ _ _ _ _ _ _ _ Ht Hsh Hsmall H0 Hd)) as (c' & Hdrop & [Hown Hheld _]).
  destruct Hd as [Hcl (Hfr & _ & _) _ Hfresh Hin _ Huser _ _ _]. destruct (cloned_content _ _ _ _ _ _ Hcl) as (Hpg & _ & Hsl).
  rewrite Hpg, Hsl, <- Hfr in *. exists c'. split_and!; [done|..].
  - eapply tracks_ext; [|exact Hown]. intros f. apply plus_minus.
  - intros x Hx. rewrite Hheld, Hin, plus_minus by done. rewrite !elem_of_cons, elem_of_app. split; [tauto|]. intros Hh.
    split; [by left|]. split; [|intros [Hf E]; pose proof (sharable_owned _ _ _ Hsh Hf); lia].
    intros Hx'. destruct (Hfresh x) as (_ & Hn & _); [apply elem_of_cons; tauto|done].
  - intros v Hv. apply shared_translate. right. by apply Huser.
Qed.

Lemma fork_exit_restores_witness :
  exists child fr s c', clone_address_space_cow (pool_alloc fork_demo_pool) pool_free fork_demo_map fork_demo_cow 0x2000 0 = Done (Ok (child, fr), s) /\
    drop_address_space true (fs_mem s) child fr (fs_cow s) = Done (c', []) /\ tracks_owners 16 c' fork_demo_own.
Proof.
  destruct (fork_exit_restores 16 (pool_alloc fork_demo_pool) pool_free) with (m := fork_demo_map) (c := fork_demo_cow)
    (own := fork_demo_own) (root := 0x2000) (watch := 0) as (r & s & E & Hr).
  - apply fork_demo_lawful.
  - apply fork_demo_tracks.
  - apply fork_demo_parent.
  - apply fork_demo_sharable.
  - vm_compute. reflexivity.
  - eexists _, _. split; [reflexivity|]. split; [vm_compute; reflexivity|done].
  - destruct r as [[child fr]|e].
    + destruct Hr as (c' & Hd & Ht & _). exists child, fr, s, c'. split; [exact E|]. split; [exact Hd|exact Ht].
    + exfalso. apply (f_equal (fun o => match o with Done (Err _, _) => true | _ => false end)) in E. vm_compute in E. discriminate.
Defined.

(** A page whose protection is taken away is given back neither by unmapping nor
    at the end: its entry is not present. *)
Example prot_none_leaks :
  match sys_mprotect 0x3000 0x1000 0 {| pm_tables := fork_demo_map; pm_root := 0x2000; pm_frames := []; pm_vmas := [];
                                         pm_break := 0; pm_next_mmap := 0; pm_cow := fork_demo_cow |} with
  | Done (_, p) =>
      match sys_munmap 0x3000 0x1000 p with
      | Done (_, p) =>
          match drop_address_space true (pm_tables p) 0x2000 [] (pm_cow p) with
          | Done (c, _) => match db_entry c 0x1000 with Some pf => has_flag PF_ALLOCATED pf | None => false end
          | _ => false
          end
      | _ => false
      end
  | _ => false
  end = true.
Proof. vm_compute. reflexivity. Qed.

(** ** Creation and exit *)

(** A new address space maps no user address, has the kernel's upper half, and
    no other table is written. *)
Lemma new_with_kernel_spec alloc m kernel c a c' :
  frame_addr a -> frame_addr kernel -> a <> kernel -> alloc c = Done (Some a, c') ->
  exists m', new_with_kernel alloc m kernel c = Done (Some a, m', c') /\
    (forall v, 0 <= v < 2 ^ 47 -> walk 4 m' a v = None) /\
    (forall j, 256 <= j < 512 -> m' (slot a j) = m (slot kernel j)) /\
    forall x j, frame_addr x -> x <> a -> 0 <= j < 512 -> m' (slot x j) = m (slot x j).
Proof.
  intros Ha Hk Hne Hal. unfold new_with_kernel. rewrite Hal. cbn [mbind outcome_bind]. eexists. split; [done|]. split_and!.
  - intros v Hv. pose proof (index_width 4 v Hv) as Hi. cbn in Hi. rewrite walk_kind; [|done|intros _].
    + rewrite copy_kernel_at, decide_False, table_clear_in by (done || lia). done.
    + rewrite copy_kernel_at, decide_False, table_clear_in by (done || lia). done.
  - intros j Hj. rewrite copy_kernel_at, decide_True by (done || lia). apply table_clear_out; (done || lia || congruence).
  - intros x j Hx Hxa Hj. rewrite copy_kernel_at, decide_False by (done || tauto). by apply table_clear_out.
Qed.

(** Nothing is freed twice when an address space is taken for exit. *)
Lemma husk_drop p c : drop_space (with_pcow (snd (take_for_exit p)) c) = Done (c, []).
Proof. done. Qed.
